(* ===== verification/_CoqProject ===== *)
-Q . S2P
Prelude.v
Common.v
Texts.v
Commands.v
Values.v
Connection.v
Handlers.v
KvTables.v
RemoteTables.v
RedisTable.v
KvApi.v
MemcachedApi.v
SsdbApi.v
Sessions.v
Dispatch.v
SdsArgs.v
Sds.v
SdsProps.v
Hiredis.v
HiredisFormat.v
HiredisReader.v
HiredisFeed.v
HiredisDrain.v
HiredisParse.v
HiredisStream.v
HiredisContext.v
HiredisAnswers.v
Configs.v
Translators.v
SshInfo.v
RedisReply.v
RedisApi.v
RedisHelp.v
RedisConn.v
RedisModes.v
RedisAnswers.v
RedisSessions.v
RedisProperties.v
ServerInfo.v
ConnectionTypes.v
RedisInfo.v
StoreInfos.v
InfoProps.v
ConnSettings.v
ConnSettingsProps.v
NativeKv.v
LsmConn.v
LmdbConn.v
UnqliteConn.v
UpscaledbConn.v
LsmProps.v
LmdbProps.v
UnqliteProps.v
UpscaledbProps.v
NativeSessions.v
SsdbClient.v
SsdbConn.v
MemcachedConn.v
RemoteProps.v
RemoteSessions.v
SsdbLines.v
Events.v
DriverBase.v
Driver.v
StoreDrivers.v
RedisDriver.v
DriverProps.v
DriverLaws.v
DriverExec.v
DriverHistory.v
Server.v
ServerProps.v
DriverMemory.v
DriverSessions.v
Discovery.v
ServersManager.v
SettingsStore.v
SsdbLink.v
Explorer.v
ExplorerProps.v
