(* ===== verification/Prelude.v ===== *)
(** FastoNoSQL core: header to be completed. *)
From Stdlib Require Import Ascii String ZArith Lia.
From stdpp Require Import base list strings gmap.
#[global] Open Scope Z_scope.
#[global] Open Scope nat_scope.

(** * Bytes and C strings

    A [char] of the C and C++ sources is an [ascii]; memory contents, [std::string] values and
    [sds] payloads are lists of bytes.  A C string is the prefix of a buffer before its first
    NUL byte. *)

Abbreviation bytes := (list ascii).

Definition lit (s : string) : bytes := list_ascii_of_string s.

Definition NUL : ascii := "000"%char.
Definition chr_bel : ascii := "007"%char.
Definition chr_bs : ascii := "008"%char.
Definition chr_tab : ascii := "009"%char.
Definition chr_nl : ascii := "010"%char.
Definition chr_cr : ascii := "013"%char.
Definition chr_sp : ascii := " "%char.
Definition chr_dq : ascii := "034"%char.
Definition chr_sq : ascii := "'"%char.
Definition chr_bslash : ascii := "\"%char.
Definition chr_lbrace : ascii := "{"%char.
Definition chr_rbrace : ascii := "}"%char.
Definition chr_x : ascii := "x"%char.

(** The unsigned value of a byte, and the byte of an integer ([(char)n]). *)
Definition byte_val (c : ascii) : Z := Z.of_nat (nat_of_ascii c).
Definition byte_of (z : Z) : ascii := ascii_of_nat (Z.to_nat (z mod 256)%Z).

(** What [std::string(const char* p)] and [strlen] see of the memory at [p]. *)
Fixpoint c_str (m : bytes) : bytes :=
  match m with
  | [] => []
  | c :: r => if Ascii.eqb c NUL then [] else c :: c_str r
  end.

Definition no_nul (m : bytes) : Prop := NUL ∉ m.

(** The C library's character classes in the default locale. *)
Definition c_isspace (c : ascii) : bool :=
  let v := byte_val c in (v =? 32)%Z || ((9 <=? v)%Z && (v <=? 13)%Z).
Definition c_isprint (c : ascii) : bool :=
  let v := byte_val c in (32 <=? v)%Z && (v <=? 126)%Z.
Definition c_isdigit (c : ascii) : bool :=
  let v := byte_val c in (48 <=? v)%Z && (v <=? 57)%Z.
Definition c_tolower (c : ascii) : ascii :=
  let v := byte_val c in
  if (65 <=? v)%Z && (v <=? 90)%Z then byte_of (v + 32)%Z else c.
Definition c_toupper (c : ascii) : ascii :=
  let v := byte_val c in
  if (97 <=? v)%Z && (v <=? 122)%Z then byte_of (v - 32)%Z else c.

(** * Machine integers (LP64) *)

Definition u8 (z : Z) : Z := (z mod 2 ^ 8)%Z.
Definition u16 (z : Z) : Z := (z mod 2 ^ 16)%Z.
Definition u32 (z : Z) : Z := (z mod 2 ^ 32)%Z.
Definition u64 (z : Z) : Z := (z mod 2 ^ 64)%Z.
Definition i32 (z : Z) : Z := ((z + 2 ^ 31) mod 2 ^ 32 - 2 ^ 31)%Z.
Definition i64 (z : Z) : Z := ((z + 2 ^ 63) mod 2 ^ 64 - 2 ^ 63)%Z.

Definition INT_MAX : Z := (2 ^ 31 - 1)%Z.
Definition INT_MIN : Z := (- 2 ^ 31)%Z.
Definition LLONG_MAX : Z := (2 ^ 63 - 1)%Z.
Definition LLONG_MIN : Z := (- 2 ^ 63)%Z.

(** * Outcomes

    A step of the C/C++ code either yields a value or stops the program: a read or write
    outside an object or through a null pointer, an overflow of a signed integer, a division by
    zero, a failed [assert] or [CHECK].  [OutOfFuel] is for the loops that are given a bound; each
    such loop has a theorem that its bound is enough. *)

Inductive fault := OutOfBounds | NullPointer | SignedOverflow | DivisionByZero | CheckFailed
| OutOfFuel | UseAfterFree.

Inductive outcome (A : Type) :=
| Val (a : A)
| Fault (f : fault).
Arguments Val {A} _.
Arguments Fault {A} _.

#[export] Instance outcome_ret : MRet outcome := @Val.
#[export] Instance outcome_bind : MBind outcome :=
  λ A B f m, match m with Val a => f a | Fault e => Fault e end.

Definition is_val {A} (m : outcome A) : Prop := ∃ a, m = Val a.

Definition from_option_fault {A} (f : fault) (o : option A) : outcome A :=
  match o with Some a => Val a | None => Fault f end.

(** * Argument vectors

    A [const char**] into the array built by [sdssplitargslong]: the array and the index the
    pointer designates.  Moving the pointer is free; reading outside the array is a fault. *)

Record argv_t := Argv { av_array : list bytes; av_pos : Z }.

Definition ashift (p : argv_t) (k : Z) : argv_t := Argv (av_array p) (av_pos p + k)%Z.

Definition aget (p : argv_t) (i : Z) : outcome bytes :=
  let k := (av_pos p + i)%Z in
  if (k <? 0)%Z then Fault OutOfBounds
  else from_option_fault OutOfBounds (av_array p !! Z.to_nat k).

(** [argv[i]] converted to [std::string]. *)
Definition aget_str (p : argv_t) (i : Z) : outcome bytes :=
  m ← aget p i; Val (c_str m).

(** The same without the conversion: [n] buffers starting at [argv[from]]. *)
Fixpoint aget_raw_range (p : argv_t) (from : Z) (n : nat) : outcome (list bytes) :=
  match n with
  | O => Val []
  | S n' => x ← aget p from; r ← aget_raw_range p (from + 1)%Z n'; Val (x :: r)
  end.

(** The [n] strings starting at [argv[from]] (the [for] loops over [argv]). *)
Fixpoint aget_range (p : argv_t) (from : Z) (n : nat) : outcome (list bytes) :=
  match n with
  | O => Val []
  | S n' => x ← aget_str p from; r ← aget_range p (from + 1)%Z n'; Val (x :: r)
  end.

(** [argc] arguments are readable at [p]. *)
Definition argv_ok (argc : Z) (p : argv_t) : Prop :=
  (0 <= argc)%Z ∧ (0 <= av_pos p)%Z ∧
  (av_pos p + argc <= Z.of_nat (length (av_array p)))%Z.

(** * Lists *)

(** Elements separated by [sep]: [a sep b sep c]. *)
Fixpoint join_with {A} (sep : list A) (l : list (list A)) : list A :=
  match l with
  | [] => []
  | [x] => x
  | x :: r => x ++ sep ++ join_with sep r
  end.

Fixpoint all_pairs {A} (P : A → A → bool) (l : list A) : bool :=
  match l with
  | [] => true
  | x :: r => forallb (P x) r && all_pairs P r
  end.

Fixpoint is_prefix_b (p l : bytes) : bool :=
  match p, l with
  | [], _ => true
  | a :: p', b :: l' => Ascii.eqb a b && is_prefix_b p' l'
  | _ :: _, [] => false
  end.

(** * Lemmas *)

Create HintDb fasto.
Create Rewrite HintDb fasto.

(** Properties of a byte are checked on all 256 of them. *)
Definition all_ascii : list ascii := List.map ascii_of_nat (seq 0 256).

Lemma all_ascii_complete (c : ascii) : c ∈ all_ascii.
Proof.
  unfold all_ascii. apply list_elem_of_In, in_map_iff. exists (nat_of_ascii c).
  rewrite ascii_nat_embedding. split; [done|]. apply in_seq.
  pose proof (nat_ascii_bounded c). lia.
Qed.

Lemma ascii_sweep (P : ascii → bool) :
  forallb P all_ascii = true → ∀ c, P c = true.
Proof.
  intros H c. rewrite forallb_forall in H. apply H, list_elem_of_In, all_ascii_complete.
Qed.

Lemma byte_val_range c : (0 <= byte_val c < 256)%Z.
Proof. unfold byte_val. pose proof (nat_ascii_bounded c). lia. Qed.

Lemma byte_of_val c : byte_of (byte_val c) = c.
Proof.
  unfold byte_of. rewrite Z.mod_small by apply byte_val_range.
  unfold byte_val. by rewrite Nat2Z.id, ascii_nat_embedding.
Qed.

Lemma byte_val_of z : (0 <= z < 256)%Z → byte_val (byte_of z) = z.
Proof.
  intros Hz. unfold byte_val, byte_of. rewrite Z.mod_small by done.
  rewrite nat_ascii_embedding by lia. lia.
Qed.

Lemma c_str_no_nul m : no_nul m → c_str m = m.
Proof.
  unfold no_nul. induction m as [|c r IH]; simpl; [done|]. intros H.
  apply not_elem_of_cons in H as [Hc Hr].
  destruct (Ascii.eqb_spec c NUL) as [->|_]; [done|]. by rewrite IH.
Qed.

Lemma no_nul_c_str m : no_nul (c_str m).
Proof.
  unfold no_nul. induction m as [|c r IH]; simpl; [apply not_elem_of_nil|].
  destruct (Ascii.eqb_spec c NUL) as [->|Hc]; [apply not_elem_of_nil|].
  apply not_elem_of_cons. by split.
Qed.

Lemma no_nul_check m : existsb (Ascii.eqb NUL) m = false → no_nul m.
Proof.
  unfold no_nul. induction m as [|c m IH]; simpl; [intros _; apply not_elem_of_nil|].
  intros Hm. apply orb_false_iff in Hm as [Hc Hm]. apply not_elem_of_cons.
  split; [by apply Ascii.eqb_neq|auto].
Qed.

Lemma i32_small z : (INT_MIN <= z <= INT_MAX)%Z → i32 z = z.
Proof. unfold i32, INT_MIN, INT_MAX. intros H. rewrite Z.mod_small; lia. Qed.

Lemma i64_small z : (LLONG_MIN <= z <= LLONG_MAX)%Z → i64 z = z.
Proof. unfold i64, LLONG_MIN, LLONG_MAX. intros H. rewrite Z.mod_small; lia. Qed.

Lemma u64_small z : (0 <= z < 2 ^ 64)%Z → u64 z = z.
Proof. apply Z.mod_small. Qed.

Lemma u32_small z : (0 <= z < 2 ^ 32)%Z → u32 z = z.
Proof. apply Z.mod_small. Qed.

Lemma u16_small z : (0 <= z < 2 ^ 16)%Z → u16 z = z.
Proof. apply Z.mod_small. Qed.

(** The conversion of an [int] value to [size_t] and back. *)
Lemma i32_u64 z : (INT_MIN <= z <= INT_MAX)%Z → i32 (u64 z) = z.
Proof.
  unfold i32, u64, INT_MIN, INT_MAX. intros Hz. destruct (Z.ltb_spec z 0).
  - assert (z mod 2 ^ 64 = z + 2 ^ 64)%Z as ->
      by (symmetry; apply (Z.mod_unique_pos _ _ (-1)); lia).
    replace (z + 2 ^ 64 + 2 ^ 31)%Z with (z + 2 ^ 31 + 2 ^ 32 * 2 ^ 32)%Z by lia.
    rewrite Z.mod_add, Z.mod_small by lia. lia.
  - rewrite (Z.mod_small z (2 ^ 64)) by lia. rewrite Z.mod_small by lia. lia.
Qed.

Lemma outcome_bind_val {A B} (a : A) (f : A → outcome B) : (Val a ≫= f) = f a.
Proof. done. Qed.

Lemma outcome_bind_is_val {A B} (m : outcome A) (f : A → outcome B) :
  is_val m → (∀ a, is_val (f a)) → is_val (m ≫= f).
Proof. intros [a ->] H. apply H. Qed.

Lemma ashift_ashift p j k : ashift (ashift p j) k = ashift p (j + k)%Z.
Proof. unfold ashift. simpl. f_equal. lia. Qed.

Lemma ashift_0 p : ashift p 0 = p.
Proof. destruct p. unfold ashift. simpl. f_equal. lia. Qed.

Lemma aget_ashift p k i : aget (ashift p k) i = aget p (k + i)%Z.
Proof. unfold aget, ashift. simpl. by rewrite Z.add_assoc. Qed.

Lemma aget_ok argc p i : argv_ok argc p → (0 <= i < argc)%Z → is_val (aget p i).
Proof.
  intros (? & ? & ?) ?. unfold aget, is_val.
  destruct (Z.ltb_spec (av_pos p + i) 0); [lia|].
  destruct (lookup_lt_is_Some_2 (av_array p) (Z.to_nat (av_pos p + i))) as [x Hx]; [lia|].
  rewrite Hx. by exists x.
Qed.

Lemma aget_str_ok argc p i : argv_ok argc p → (0 <= i < argc)%Z → is_val (aget_str p i).
Proof.
  intros H Hi. unfold aget_str. apply outcome_bind_is_val; [by eapply aget_ok|].
  intros a. by exists (c_str a).
Qed.

(** Reading argument [i] of a vector that holds [l] at its current position. *)
Lemma aget_at pre l i x :
  l !! i = Some x →
  aget (Argv (pre ++ l) (Z.of_nat (length pre))) (Z.of_nat i) = Val x.
Proof.
  intros H. unfold aget. simpl.
  destruct (Z.ltb_spec (Z.of_nat (length pre) + Z.of_nat i) 0); [lia|].
  rewrite lookup_app_r by lia.
  replace (Z.to_nat (Z.of_nat (length pre) + Z.of_nat i) - length pre) with i by lia.
  by rewrite H.
Qed.

Lemma aget_range_ok argc p from n :
  argv_ok argc p → (0 <= from)%Z → (from + Z.of_nat n <= argc)%Z → is_val (aget_range p from n).
Proof.
  intros Hp. revert from. induction n as [|n IH]; intros from ? ?; simpl; [by eexists|].
  destruct (aget_str_ok argc p from) as [x ->]; [done|lia|].
  destruct (IH (from + 1)%Z) as [r Hr]; [lia|lia|]. simpl. rewrite Hr. by eexists.
Qed.

Lemma aget_raw_range_at pre l :
  aget_raw_range (Argv (pre ++ l) (Z.of_nat (length pre))) 0 (length l) = Val l.
Proof.
  assert (∀ n k, k + n = length l →
    aget_raw_range (Argv (pre ++ l) (Z.of_nat (length pre))) (Z.of_nat k) n
    = Val (drop k l)) as Hgen.
  { induction n as [|n IH]; intros k Hk; simpl; [by rewrite drop_ge by lia|].
    destruct (lookup_lt_is_Some_2 l k) as [x Hx]; [lia|].
    rewrite (aget_at _ _ _ _ Hx). simpl.
    replace (Z.of_nat k + 1)%Z with (Z.of_nat (S k)) by lia.
    rewrite IH by lia. simpl. by rewrite (drop_S _ _ _ Hx). }
  apply (Hgen _ 0). done.
Qed.

Lemma aget_raw_range_ok argc p from n :
  argv_ok argc p → (0 <= from)%Z → (from + Z.of_nat n <= argc)%Z →
  is_val (aget_raw_range p from n).
Proof.
  intros Hp. revert from. induction n as [|n IH]; intros from ? ?; simpl; [by eexists|].
  destruct (aget_ok argc p from) as [x ->]; [done|lia|].
  destruct (IH (from + 1)%Z) as [r Hr]; [lia|lia|]. simpl. rewrite Hr. by eexists.
Qed.

Lemma aget_range_at pre l :
  aget_range (Argv (pre ++ l) (Z.of_nat (length pre))) 0 (length l) = Val (List.map c_str l).
Proof.
  assert (∀ k rest, l = take k l ++ rest → k ≤ length l → length (take k l) = k →
    aget_range (Argv (pre ++ l) (Z.of_nat (length pre))) (Z.of_nat k) (length rest)
    = Val (List.map c_str rest)) as Hgen.
  { intros k rest. revert k. induction rest as [|x rest IH]; intros k Hl Hk Hlen; simpl; [done|].
    assert (l !! k = Some x) as Hx.
    { rewrite Hl, lookup_app_r by lia. by rewrite Hlen, Nat.sub_diag. }
    unfold aget_str. rewrite (aget_at _ _ _ _ Hx). simpl.
    replace (Z.of_nat k + 1)%Z with (Z.of_nat (S k)) by lia.
    pose proof (lookup_lt_Some _ _ _ Hx).
    rewrite IH; [done| |lia|rewrite length_take; lia].
    rewrite (take_S_r _ _ _ Hx). by rewrite <- app_assoc. }
  specialize (Hgen 0 l). simpl in Hgen. apply Hgen; [done|lia|done].
Qed.

Lemma all_pairs_spec {A} (P : A → A → bool) l1 x l2 y l3 :
  all_pairs P (l1 ++ x :: l2 ++ y :: l3) = true → P x y = true.
Proof.
  induction l1 as [|z l1 IH]; simpl; rewrite andb_true_iff; intros [H1 H2].
  - rewrite forallb_forall in H1. apply H1, in_or_app. right. by left.
  - by apply IH.
Qed.

Lemma is_prefix_b_spec p l : is_prefix_b p l = true ↔ ∃ r, l = p ++ r.
Proof.
  revert l. induction p as [|a p IH]; intros l; simpl.
  - split; [by exists l|done].
  - destruct l as [|b l]; [split; [done|by intros [r Hr]]|].
    rewrite andb_true_iff, Ascii.eqb_eq, IH. split.
    + intros [-> [r ->]]. by exists r.
    + intros [r [= -> ->]]. split; [done|by exists r].
Qed.

Lemma join_with_cons {A} (sep x : list A) l :
  l ≠ [] → join_with sep (x :: l) = x ++ sep ++ join_with sep l.
Proof. by destruct l. Qed.

Lemma join_with_map {A B} (f : A → B) sep l :
  List.map f (join_with sep l) = join_with (List.map f sep) (List.map (List.map f) l).
Proof.
  induction l as [|x [|y l] IH]; simpl; [done|done|].
  rewrite !map_app. do 2 f_equal. apply IH.
Qed.

(** A shorter prefix of the elements joins to a prefix of the longer one, up to a separator. *)
Lemma join_with_take_prefix {A} (sep : list A) l j k :
  0 < j → j < k → k ≤ length l →
  ∃ r, join_with sep (take k l) = join_with sep (take j l) ++ sep ++ r.
Proof.
  revert l k. induction j as [|j IH]; intros l k Hj Hjk Hk; [lia|].
  destruct k as [|k]; [lia|]. destruct l as [|x l]; simpl in Hk; [lia|].
  simpl take. destruct j as [|j].
  - exists (join_with sep (take k l)). rewrite join_with_cons; [done|].
    destruct k, l; simpl in *; (lia || done).
  - destruct (IH l k) as [r Hr]; [lia|lia|lia|].
    exists r. rewrite !join_with_cons by (destruct k, l; simpl in *; (lia || done)).
    by rewrite Hr, <- !app_assoc.
Qed.

Lemma all_pairs_map {A B} (f : A → B) (P : B → B → bool) l :
  all_pairs P (List.map f l) = all_pairs (λ x y, P (f x) (f y)) l.
Proof.
  induction l as [|x l IH]; simpl; [done|]. rewrite IH. f_equal.
  clear IH. induction l as [|y l IH]; simpl; [done|]. by rewrite IH.
Qed.

(** What [List.find] found is the first element of its kind. *)
Lemma find_first {A} (f : A → bool) l x :
  List.find f l = Some x →
  f x = true ∧ ∃ l1 l2, l = l1 ++ x :: l2 ∧ ∀ y, In y l1 → f y = false.
Proof.
  induction l as [|z l IH]; simpl; [done|]. destruct (f z) eqn:Hz.
  - intros [= ->]. split; [done|]. by exists [], l.
  - intros Hf. destruct (IH Hf) as (Hx & l1 & l2 & -> & Hl1). split; [done|].
    exists (z :: l1), l2. split; [done|]. intros y [<-|Hy]; auto.
Qed.

#[export] Hint Resolve aget_ok aget_str_ok aget_range_ok byte_val_range no_nul_c_str : fasto.
#[export] Hint Rewrite @outcome_bind_val aget_ashift ashift_ashift : fasto.

(** Runs a computation that is known to yield a value. *)
Ltac val_step H :=
  let x := fresh "x" in let E := fresh "E" in
  destruct H as [x E]; rewrite E; simpl.
