(* ===== verification/Common.v ===== *)
(** The [common] library of FastoGT, which the sources include but do not contain
    ([#include <common/...>]): its data types, the operations the core calls as a class, and the
    documented behaviour the core relies on as a class of laws, with one concrete instance. *)
From Stdlib Require Import Ascii String ZArith Lia.
From stdpp Require Import base list gmap.
From S2P Require Import Prelude.

#[local] Set Warnings "-register-all".

(** * Errors: [common::Error] is a possibly null pointer to an [ErrorValue] *)

Inductive error_kind := E_NONE | E_ERROR | E_INTERRUPTED.
Record error_value := mk_error { e_text : bytes; e_kind : error_kind }.
Abbreviation Error := (option error_value).

Definition make_error_value (text : bytes) (k : error_kind) : Error := Some (mk_error text k).
Definition no_error : Error := None.

(** * Values ([common/value.h]) *)

Inductive command_logging := C_UNKNOWN | C_INNER | C_USER.

Inductive value :=
| VNull
| VInteger (n : Z)
| VUInteger (n : Z)
| VString (s : bytes)
| VArray (l : list value)
| VSet (l : list value)
| VZSet (l : list (value * value))
| VHash (l : list (value * value))
| VError (text : bytes)
| VCommand (input : bytes) (logging : command_logging).

Inductive value_type :=
  TYPE_NULL | TYPE_INTEGER | TYPE_UINTEGER | TYPE_STRING | TYPE_ARRAY | TYPE_SET
| TYPE_ZSET | TYPE_HASH | TYPE_ERROR | TYPE_COMMAND | TYPE_BOOLEAN | TYPE_DOUBLE.

Definition type_of_value (v : value) : value_type :=
  match v with
  | VNull => TYPE_NULL | VInteger _ => TYPE_INTEGER | VUInteger _ => TYPE_UINTEGER
  | VString _ => TYPE_STRING | VArray _ => TYPE_ARRAY | VSet _ => TYPE_SET
  | VZSet _ => TYPE_ZSET | VHash _ => TYPE_HASH | VError _ => TYPE_ERROR
  | VCommand _ _ => TYPE_COMMAND
  end.

#[export] Instance value_type_eq_dec : EqDecision value_type.
Proof. solve_decision. Defined.

#[export] Instance error_kind_eq_dec : EqDecision error_kind.
Proof. solve_decision. Defined.

(** * Operations *)

(** An argument of the [printf]-like [MemSPrintf]; [FDouble] is a [double] with an integral value. *)
Inductive fmt_arg := FStr (s : bytes) | FInt (z : Z) | FDouble (z : Z).

(** [common::net::HostAndPort] *)
Record HostAndPort := mkHostAndPort { hp_host : bytes; hp_port : Z }.

Class CommonLib := {
  isError_kind : error_kind → bool;
  JoinString : list bytes → ascii → bytes;
  JoinStringS : list bytes → bytes → bytes;
  Tokenize : bytes → bytes → list bytes;
  FullEqualsASCII : bytes → bytes → bool → bool;
  MemSPrintf : bytes → list fmt_arg → bytes;
  value_toString : value → bytes;
  value_equals : value → option value → bool;
  (** [ConvertFromString] at the integer types it is used with *)
  FromString_int : bytes → Z;
  FromString_int64 : bytes → Z;
  FromString_uint64 : bytes → Z;
  FromString_uint32 : bytes → Z;
  FromString_time : bytes → Z;
  FromString_uint16 : bytes → Z;
  ToString_int : Z → bytes;
  ToString_uint : Z → bytes;
  (** the quotient of two numbers as a [double], with that many decimals *)
  ToString_ratio : Z → Z → Z → bytes;
  HostAndPort_ToString : HostAndPort → bytes;
  HostAndPort_FromString : bytes → HostAndPort;
  HostAndPort_isValid : HostAndPort → bool
}.

Definition isError `{CommonLib} (e : Error) : bool :=
  match e with Some v => isError_kind (e_kind v) | None => false end.

(** * Decimal numbers and the [%s], [%d] subset of [printf] *)

Definition digit (d : Z) : ascii := byte_of (48 + d)%Z.

Fixpoint dec_digits (fuel : nat) (n : Z) (acc : bytes) : bytes :=
  match fuel with
  | O => acc
  | S k => let acc' := digit (n mod 10)%Z :: acc in
           if (n / 10 =? 0)%Z then acc' else dec_digits k (n / 10)%Z acc'
  end.

(** Decimal representation of a natural number below [2 ^ 64]. *)
Definition dec_nat (n : Z) : bytes := dec_digits 20 n [].
Definition dec_int (n : Z) : bytes :=
  if (n <? 0)%Z then lit "-" ++ dec_nat (- n)%Z else dec_nat n.

(** The conversions [%s], [%d], [%u] with the length modifiers, and [%%]. *)
Fixpoint printf_ref (fmt : bytes) (args : list fmt_arg) : option bytes :=
  match fmt with
  | [] => Some []
  | c :: r =>
    if Ascii.eqb c "%"%char then
      (fix conv (r : bytes) : option bytes :=
         match r with
         | [] => None
         | d :: r' =>
           if Ascii.eqb d "l"%char then conv r'
           else
             match args with
             | FStr s :: args' =>
               if Ascii.eqb d "s"%char then (λ t, s ++ t) <$> printf_ref r' args'
               else if Ascii.eqb d "%"%char then (λ t, d :: t) <$> printf_ref r' args else None
             | FInt z :: args' =>
               if Ascii.eqb d "d"%char then (λ t, dec_int z ++ t) <$> printf_ref r' args'
               else if Ascii.eqb d "u"%char then (λ t, dec_nat z ++ t) <$> printf_ref r' args'
               else if Ascii.eqb d "%"%char then (λ t, d :: t) <$> printf_ref r' args else None
             | _ => if Ascii.eqb d "%"%char then (λ t, d :: t) <$> printf_ref r' args else None
             end
         end) r
    else cons c <$> printf_ref r args
  end.

Definition lower (s : bytes) : bytes := List.map c_tolower s.

(** [strcasecmp(a, b) == 0] *)
Definition strcaseeq (a b : bytes) : bool := bool_decide (lower (c_str a) = lower (c_str b)).

(** * Documented behaviour the core relies on *)

Class CommonLaws `{CommonLib} := {
  isError_E_ERROR : isError_kind E_ERROR = true;
  JoinString_spec : ∀ l sep, JoinString l sep = join_with [sep] l;
  JoinStringS_spec : ∀ l sep, JoinStringS l sep = join_with sep l;
  FullEqualsASCII_spec : ∀ a b,
    FullEqualsASCII a b false = true ↔ lower a = lower b;
  MemSPrintf_spec : ∀ fmt args t, printf_ref fmt args = Some t → MemSPrintf fmt args = t;
  toString_string : ∀ s, value_toString (VString s) = s;
  FromString_int_spec : ∀ z, (INT_MIN <= z <= INT_MAX)%Z → FromString_int (dec_int z) = z;
  ToString_int_spec : ∀ z, (INT_MIN <= z <= INT_MAX)%Z → ToString_int z = dec_int z;
  FromString_uint32_spec : ∀ z, (0 <= z < 2 ^ 32)%Z → FromString_uint32 (dec_nat z) = z;
  FromString_uint64_spec : ∀ z, (0 <= z < 2 ^ 64)%Z → FromString_uint64 (dec_nat z) = z;
  FromString_uint16_spec : ∀ z, (0 <= z < 2 ^ 16)%Z → FromString_uint16 (dec_nat z) = z;
  ToString_uint_spec : ∀ z, (0 <= z < 2 ^ 64)%Z → ToString_uint z = dec_nat z
}.

(** * A concrete instance *)

Fixpoint parse_digits (s : bytes) (acc : Z) : option Z :=
  match s with
  | [] => Some acc
  | c :: r => if c_isdigit c then parse_digits r (acc * 10 + (byte_val c - 48))%Z else None
  end.

Definition parse_int (s : bytes) : Z :=
  match s with
  | c :: r => if Ascii.eqb c "-"%char
              then - default 0%Z (parse_digits r 0) else default 0%Z (parse_digits s 0)
  | [] => 0%Z
  end.

(** The pieces of [s] between occurrences of the first byte of [sep], empty pieces dropped. *)
Fixpoint split_on (c : ascii) (s cur : bytes) : list bytes :=
  match s with
  | [] => if decide (cur = []) then [] else [cur]
  | x :: r => if Ascii.eqb x c
              then if decide (cur = []) then split_on c r [] else cur :: split_on c r []
              else split_on c r (cur ++ [x])
  end.

Definition tokenize_ref (s sep : bytes) : list bytes :=
  match sep with [] => [s] | c :: _ => split_on c s [] end.

Fixpoint value_eqb (v w : value) : bool :=
  match v, w with
  | VNull, VNull => true
  | VInteger a, VInteger b => (a =? b)%Z
  | VUInteger a, VUInteger b => (a =? b)%Z
  | VString a, VString b => bool_decide (a = b)
  | VArray a, VArray b =>
    (fix go l m := match l, m with
                   | [], [] => true | x :: l', y :: m' => value_eqb x y && go l' m'
                   | _, _ => false end) a b
  | _, _ => false
  end.

Definition common_ref : CommonLib := {|
  isError_kind k := bool_decide (k = E_ERROR);
  JoinString l sep := join_with [sep] l;
  JoinStringS l sep := join_with sep l;
  Tokenize := tokenize_ref;
  FullEqualsASCII a b cs := if cs then bool_decide (a = b) else bool_decide (lower a = lower b);
  MemSPrintf fmt args := default [] (printf_ref fmt args);
  value_toString v :=
    match v with VString s => s | VInteger n | VUInteger n => dec_int n | _ => [] end;
  value_equals v w := match w with Some w => value_eqb v w | None => false end;
  FromString_int := parse_int;
  FromString_int64 := parse_int;
  FromString_uint64 := parse_int;
  FromString_uint32 := parse_int;
  FromString_time := parse_int;
  FromString_uint16 := parse_int;
  ToString_int := dec_int;
  ToString_uint := dec_nat;
  ToString_ratio a b _ := dec_int (a / b);
  HostAndPort_ToString h := hp_host h ++ lit ":" ++ dec_nat (hp_port h);
  HostAndPort_FromString s :=
    match split_on ":" s [] with
    | [h; p] => mkHostAndPort h (parse_int p)
    | _ => mkHostAndPort [] 0
    end;
  HostAndPort_isValid h := negb (bool_decide (hp_host h = [])) && negb (hp_port h =? 0)%Z
|}.

(** * Lemmas *)

Lemma digit_val d : (0 <= d < 10)%Z → byte_val (digit d) = (48 + d)%Z.
Proof. intros H. unfold digit. apply byte_val_of. lia. Qed.

Lemma digit_isdigit d : (0 <= d < 10)%Z → c_isdigit (digit d) = true.
Proof. intros H. unfold c_isdigit. rewrite digit_val by done. lia. Qed.

Lemma dec_digits_app k n acc : dec_digits k n acc = dec_digits k n [] ++ acc.
Proof.
  revert n acc. induction k as [|k IH]; intros n acc; simpl; [done|].
  destruct (n / 10 =? 0)%Z; [done|].
  rewrite IH. rewrite (IH _ [_]). by rewrite <- app_assoc.
Qed.

(** Parsing the digits of [n] after an accumulated prefix [a]. *)
Lemma parse_digits_app s t a b :
  parse_digits s a = Some b → parse_digits (s ++ t) a = parse_digits t b.
Proof.
  revert a. induction s as [|c s IH]; intros a H; simpl in *; [by simplify_eq|].
  destruct (c_isdigit c); [by apply IH|done].
Qed.

Lemma parse_dec_digits k n :
  (0 <= n < 10 ^ Z.of_nat k)%Z → k ≠ 0 → parse_digits (dec_digits k n []) 0 = Some n.
Proof.
  revert n. induction k as [|k IH]; intros n Hn Hk; [done|]. simpl.
  pose proof (Z.div_mod n 10 ltac:(lia)) as Hdm.
  pose proof (Z.mod_pos_bound n 10 ltac:(lia)).
  assert (∀ a, parse_digits [digit (n mod 10)] a = Some (a * 10 + n mod 10)%Z) as Hd.
  { intros a. simpl. rewrite digit_isdigit, digit_val by done. f_equal. lia. }
  destruct (Z.eqb_spec (n / 10) 0) as [Hz|Hz].
  - rewrite Hd. f_equal. lia.
  - rewrite dec_digits_app.
    rewrite Nat2Z.inj_succ, Z.pow_succ_r in Hn by lia.
    destruct k as [|k].
    { change (10 ^ Z.of_nat 0)%Z with 1%Z in Hn. rewrite Z.div_small in Hz; lia. }
    rewrite (parse_digits_app _ _ _ (n / 10)%Z).
    + rewrite Hd. f_equal. lia.
    + apply IH; [|lia]. split; [apply Z.div_pos; lia|].
      apply Z.div_lt_upper_bound; lia.
Qed.

Lemma dec_digits_head k n acc c r :
  dec_digits (S k) n acc = c :: r → c_isdigit c = true.
Proof.
  revert n acc. induction k as [|k IH]; intros n acc.
  - simpl. pose proof (Z.mod_pos_bound n 10 ltac:(lia)).
    destruct (n / 10 =? 0)%Z; intros [= <- <-]; by apply digit_isdigit.
  - intros H. change (dec_digits (S (S k)) n acc) with
      (let acc' := digit (n mod 10)%Z :: acc in
       if (n / 10 =? 0)%Z then acc' else dec_digits (S k) (n / 10)%Z acc') in H.
    cbv zeta in H. pose proof (Z.mod_pos_bound n 10 ltac:(lia)).
    destruct (n / 10 =? 0)%Z; [injection H as <- <-; by apply digit_isdigit|by eapply IH].
Qed.

Lemma parse_dec_nat n : (0 <= n < 2 ^ 64)%Z → parse_digits (dec_nat n) 0 = Some n.
Proof. intros H. apply parse_dec_digits; [|done]. split; [lia|]. simpl Z.of_nat. lia. Qed.

Lemma parse_dec_int n : (- 2 ^ 64 < n < 2 ^ 64)%Z → parse_int (dec_int n) = n.
Proof.
  intros H. unfold dec_int. destruct (Z.ltb_spec n 0) as [Hn|Hn].
  - simpl. rewrite parse_dec_nat by lia. simpl. lia.
  - destruct (dec_nat n) as [|c r] eqn:E.
    + pose proof (parse_dec_nat n ltac:(lia)) as Hp. rewrite E in Hp. simpl in Hp.
      injection Hp as <-. done.
    + unfold parse_int. destruct (Ascii.eqb_spec c "-"%char) as [->|_].
      * unfold dec_nat in E. apply dec_digits_head in E. discriminate E.
      * rewrite <- E, parse_dec_nat by lia. done.
Qed.

Lemma parse_nat_int z : (0 <= z < 2 ^ 64)%Z → parse_int (dec_nat z) = z.
Proof.
  intros Hz. replace (dec_nat z) with (dec_int z) by (unfold dec_int; destruct (Z.ltb_spec z 0); [lia|done]).
  apply parse_dec_int. lia.
Qed.

Lemma common_ref_laws : @CommonLaws common_ref.
Proof.
  split; try done.
  - intros a b. apply bool_decide_eq_true.
  - intros fmt args t Ht. simpl. by rewrite Ht.
  - intros z Hz. apply parse_dec_int. unfold INT_MIN, INT_MAX in Hz. lia.
  - intros z Hz. apply parse_nat_int. lia.
  - intros z Hz. apply parse_nat_int. lia.
  - intros z Hz. apply parse_nat_int. lia.
Qed.

(** ** The characters of numbers *)

Lemma dec_digits_chars (P : ascii → bool) k n acc :
  forallb P (lit "0123456789") = true → forallb P acc = true → forallb P (dec_digits k n acc) = true.
Proof.
  intros Hd. revert n acc. induction k as [|k IH]; intros m acc Ha; [done|]. simpl.
  pose proof (Z.mod_pos_bound m 10 ltac:(lia)) as Hm.
  assert (P (digit (m mod 10)%Z) = true) as Hc.
  { rewrite forallb_forall in Hd. apply Hd.
    assert (In (m mod 10)%Z [0;1;2;3;4;5;6;7;8;9]%Z) as Hin by (simpl; lia).
    simpl in Hin. repeat destruct Hin as [<-|Hin]; try done; simpl; tauto. }
  destruct (_ =? _)%Z; simpl; [by rewrite Hc|]. apply IH. simpl. by rewrite Hc.
Qed.

Lemma dec_nat_chars P n : forallb P (lit "0123456789") = true → forallb P (dec_nat n) = true.
Proof. intros H. by apply dec_digits_chars. Qed.

Lemma dec_nat_ne n : dec_nat n ≠ [].
Proof.
  unfold dec_nat. assert (∀ k n acc, acc ≠ [] ∨ (0 < k)%nat → dec_digits k n acc ≠ []) as Hne.
  { induction k as [|k IH]; intros m acc; simpl; [intros [?|?]; [done|lia]|].
    intros _. destruct (_ =? _)%Z; [done|]. apply IH. by left. }
  apply Hne. right. lia.
Qed.

Lemma dec_int_chars P n : forallb P (lit "-0123456789") = true → forallb P (dec_int n) = true.
Proof.
  intros H. pose proof H as H'. simpl in H'. apply andb_true_iff in H' as [Hm Hd].
  unfold dec_int. destruct (n <? 0)%Z; [|by apply dec_nat_chars].
  cbn [lit list_ascii_of_string app forallb]. rewrite Hm. by apply dec_nat_chars.
Qed.

Lemma dec_int_ne n : dec_int n ≠ [].
Proof. unfold dec_int. destruct (n <? 0)%Z; [done|apply dec_nat_ne]. Qed.

Lemma isError_make_error `{CommonLaws} t : isError (make_error_value t E_ERROR) = true.
Proof. apply isError_E_ERROR. Qed.

#[export] Hint Rewrite @isError_make_error : fasto.
