(* ===== verification/Texts.v ===== *)
(** Searching texts: the C library's functions on NUL-terminated memory, and the loops that take a
    text apart at the occurrences of a marker. *)
From Stdlib Require Import Ascii String ZArith Lia.
From stdpp Require Import base list.
From S2P Require Import Prelude Common.
Local Open Scope Z_scope.

(** * The C library on NUL-terminated memory *)

Fixpoint skip_while (f : ascii → bool) (p : bytes) : bytes :=
  match p with
  | c :: r => if f c then skip_while f r else p
  | [] => []
  end.


(** [strstr]: the index of the first occurrence. *)
Fixpoint find_sub (p s : bytes) : option nat :=
  if is_prefix_b p s then Some 0%nat
  else match s with [] => None | _ :: r => S <$> find_sub p r end.

(** [strchr] for a character other than NUL. *)
Fixpoint scan_chr (m : bytes) (c : ascii) : outcome (option nat) :=
  match m with
  | [] => Fault OutOfBounds
  | x :: r => if Ascii.eqb x c then Val (Some 0%nat)
              else if Ascii.eqb x NUL then Val None
              else o ← scan_chr r c; Val (option_map S o)
  end.

(** [strchr(m + i, c)], as an index into [m]. *)
Definition strchr_at (m : bytes) (i : nat) (c : ascii) : outcome (option nat) :=
  o ← scan_chr (drop i m) c; Val (option_map (Nat.add i) o).

Definition strcmp_eq (a b : bytes) : bool := bool_decide (c_str a = c_str b).
Definition strncmp_eq (a b : bytes) (n : nat) : bool := bool_decide (take n (c_str a) = take n (c_str b)).

(** The digits at the beginning of [s], after those whose value is [acc]. *)
Fixpoint digits_value (s : bytes) (acc : Z) : Z :=
  match s with
  | c :: r => if c_isdigit c then digits_value r (acc * 10 + (byte_val c - 48)) else acc
  | [] => acc
  end.

(** The sign and the value of a number in base ten after blanks. *)
Definition scan_decimal (s : bytes) : bool * Z :=
  match skip_while c_isspace (c_str s) with
  | c :: r => if Ascii.eqb c "-" then (true, digits_value r 0)
              else if Ascii.eqb c "+" then (false, digits_value r 0)
              else (false, digits_value (c :: r) 0)
  | [] => (false, 0)
  end.

Definition strtol (s : bytes) : Z :=
  let '(neg, v) := scan_decimal s in
  let v := if neg : bool then - v else v in
  Z.max LLONG_MIN (Z.min LLONG_MAX v).

Definition ULLONG_MAX : Z := 2 ^ 64 - 1.
Definition strtoull (s : bytes) : Z :=
  let '(neg, v) := scan_decimal s in
  if v >? ULLONG_MAX then ULLONG_MAX else if neg : bool then u64 (- v) else v.

(** * Lines

    [while ((pos = text.find(marker, start)) != npos) { line = text.substr(start, pos - start); ...;
    start = pos + strlen(marker); }]: the lines such a loop visits.  Each turn consumes the marker, so
    the length of the text bounds the number of turns. *)
Fixpoint lines_loop (fuel : nat) (marker text : bytes) : list bytes :=
  match fuel with
  | O => []
  | S fuel =>
    match find_sub marker text with
    | None => []
    | Some pos => take pos text :: lines_loop fuel marker (drop (pos + length marker) text)
    end
  end.

Definition lines_of (marker text : bytes) : list bytes := lines_loop (length text) marker text.

(** * Lemmas *)

Lemma find_sub_bound p s k : find_sub p s = Some k → (k + length p <= length s)%nat.
Proof.
  revert k. induction s as [|c s IH]; intros k; simpl.
  - destruct p; simpl; [intros [= <-]; simpl; lia|done].
  - destruct (is_prefix_b p (c :: s)) eqn:E.
    + intros [= <-]. apply is_prefix_b_spec in E as [r E]. apply (f_equal length) in E.
      rewrite length_app in E. simpl in *. lia.
    + destruct (find_sub p s) as [k'|]; [|done]. intros [= <-]. specialize (IH _ eq_refl). lia.
Qed.

(** The text at the place that [find_sub] finds. *)
Lemma find_sub_at p s k :
  find_sub p s = Some k → s = take k s ++ p ++ drop (k + length p) s.
Proof.
  revert k. induction s as [|c s IH]; intros k; simpl.
  - destruct p; simpl; [by intros [= <-]|done].
  - destruct (is_prefix_b p (c :: s)) eqn:E.
    + intros [= <-]. apply is_prefix_b_spec in E as [r E]. simpl. rewrite E. by rewrite drop_app_length.
    + destruct (find_sub p s) as [k'|]; [|done]. intros [= <-]. simpl. f_equal. by apply IH.
Qed.

(** A text whose first occurrence of the marker's first character begins the marker. *)
Lemma find_sub_first c p s r : c ∉ s → find_sub (c :: p) (s ++ (c :: p) ++ r) = Some (length s).
Proof.
  intros Hs. induction s as [|x s IH].
  - simpl app. cbn [find_sub length]. destruct (is_prefix_b (c :: p) (c :: p ++ r)) eqn:E; [done|].
    assert (is_prefix_b (c :: p) (c :: p ++ r) = true) by (apply is_prefix_b_spec; by exists r). congruence.
  - apply not_elem_of_cons in Hs as [Hx Hs]. cbn [app find_sub].
    assert (is_prefix_b (c :: p) (x :: s ++ c :: p ++ r) = false) as ->.
    { simpl. by destruct (Ascii.eqb_spec c x). }
    simpl app in IH. by rewrite (IH Hs).
Qed.

Lemma find_sub_none c p s : c ∉ s → find_sub (c :: p) s = None.
Proof.
  induction s as [|x s IH]; intros Hs; [done|]. apply not_elem_of_cons in Hs as [Hx Hs].
  cbn [find_sub is_prefix_b]. destruct (Ascii.eqb_spec c x); [done|]. simpl. by rewrite (IH Hs).
Qed.

(** More fuel than the text is long changes nothing. *)
Lemma lines_loop_enough marker fuel text :
  marker ≠ [] → (length text <= fuel)%nat → lines_loop fuel marker text = lines_of marker text.
Proof.
  intros Hm. unfold lines_of. remember (length text) as n eqn:Hn. intros Hf.
  assert (Hle : (length text <= n)%nat) by lia. clear Hn. revert n text Hf Hle.
  induction fuel as [|fuel IH]; intros n text Hf Hle.
  { destruct n; [done|lia]. }
  destruct n as [|n].
  { destruct text; [|simpl in Hle; lia]. simpl. by destruct marker. }
  cbn [lines_loop]. destruct (find_sub marker text) as [pos|] eqn:E; [|done]. f_equal.
  apply find_sub_bound in E. destruct marker as [|c marker]; [done|]. simpl in E.
  assert (length (drop (pos + length (c :: marker)) text) <= n)%nat
    by (rewrite length_drop; simpl; lia).
  rewrite (IH n) by lia. done.
Qed.

Lemma lines_of_cons c p line rest :
  c ∉ line → lines_of (c :: p) (line ++ (c :: p) ++ rest) = line :: lines_of (c :: p) rest.
Proof.
  intros Hl. unfold lines_of at 1. rewrite !length_app. simpl length.
  replace (length line + (S (length p) + length rest))%nat with
    (S (length line + length p + length rest))%nat by lia.
  cbn [lines_loop]. rewrite find_sub_first by done. rewrite take_app_length. f_equal.
  rewrite app_assoc. replace (length line + length (c :: p))%nat with (length (line ++ c :: p))
    by (rewrite length_app; done).
  rewrite drop_app_length. apply lines_loop_enough; [done|lia].
Qed.

(** Lines that are each followed by the marker come back; what follows the last marker is not a line. *)
Lemma lines_of_rest c p lines rest :
  Forall (λ l, c ∉ l) lines → find_sub (c :: p) rest = None →
  lines_of (c :: p) (List.concat (List.map (λ l, l ++ c :: p) lines) ++ rest) = lines.
Proof.
  intros Hl Hr. induction lines as [|l lines IH]; cbn [List.map List.concat].
  - unfold lines_of. cbn [app]. destruct rest as [|x rest]; [done|]. simpl length. cbn [lines_loop]. by rewrite Hr.
  - apply Forall_cons in Hl as [Hc Hl]. rewrite <- !app_assoc.
    rewrite (lines_of_cons c p l) by done. by rewrite IH.
Qed.

Lemma lines_of_concat c p lines rest :
  Forall (λ l, c ∉ l) lines → c ∉ rest →
  lines_of (c :: p) (List.concat (List.map (λ l, l ++ c :: p) lines) ++ rest) = lines.
Proof. intros Hl Hr. apply lines_of_rest; [done|]. by apply find_sub_none. Qed.

(** Half a marker at the end is none. *)
Lemma find_sub_half c p s : p ≠ [] → c ∉ s → find_sub (c :: p) (s ++ [c]) = None.
Proof.
  intros Hp. induction s as [|x s IH]; intros Hs.
  - cbn [app find_sub is_prefix_b]. destruct p; [done|]. by rewrite andb_false_r.
  - apply not_elem_of_cons in Hs as [Hx Hs]. cbn [app find_sub is_prefix_b].
    destruct (Ascii.eqb_spec c x); [done|]. simpl. by rewrite (IH Hs).
Qed.

(** ** Numbers in texts *)

Lemma digits_value_parse s : ∀ acc n c r,
  parse_digits s acc = Some n → c_isdigit c = false → digits_value (s ++ c :: r) acc = n.
Proof.
  induction s as [|x s IH]; intros acc n c r; simpl; [intros [= ->] ->; done|].
  destruct (c_isdigit x); [apply IH|done].
Qed.

Lemma strtoull_dec_nat k c r :
  0 <= k < 2 ^ 64 → c_isdigit c = false → c ≠ NUL → strtoull (dec_nat k ++ c :: r) = k.
Proof.
  intros Hk Hc Hn. pose proof (dec_nat_ne k) as Hne.
  assert (Hd : forallb c_isdigit (dec_nat k) = true) by (by apply dec_nat_chars).
  assert (Hz : c_str (dec_nat k ++ c :: r) = dec_nat k ++ c :: c_str r).
  { clear -Hd Hn. induction (dec_nat k) as [|x l IH]; cbn [app c_str].
    - destruct (Ascii.eqb_spec c NUL); done.
    - simpl in Hd. apply andb_true_iff in Hd as [Hx Hl].
      destruct (Ascii.eqb_spec x NUL) as [->|_]; [done|]. by rewrite IH. }
  pose proof (digits_value_parse (dec_nat k) 0 k c (c_str r) (parse_dec_nat k Hk) Hc) as Hv.
  unfold strtoull, scan_decimal. rewrite Hz. destruct (dec_nat k) as [|x l]; [done|].
  simpl in Hd. apply andb_true_iff in Hd as [Hx _]. cbn [app skip_while] in *.
  assert (c_isspace x = false ∧ Ascii.eqb x "-" = false ∧ Ascii.eqb x "+" = false) as (-> & -> & ->).
  { pose proof (ascii_sweep (λ x, implb (c_isdigit x)
      (negb (c_isspace x || Ascii.eqb x "-" || Ascii.eqb x "+")))) as Hs.
    specialize (Hs ltac:(by vm_compute) x). simpl in Hs. rewrite Hx in Hs. simpl in Hs.
    rewrite negb_true_iff, !orb_false_iff in Hs. tauto. }
  rewrite Hv. unfold ULLONG_MAX. destruct (Z.gtb_spec k (2 ^ 64 - 1)); [lia|done].
Qed.
