(* ===== verification/Commands.v ===== *)
(** Command lookup and dispatch: [core/command_info.*], [core/command_holder.*] and
    [core/internal/command_handler.*]. *)
From Stdlib Require Import Ascii String ZArith Lia.
From stdpp Require Import base list.
From S2P Require Import Prelude Common.
Local Open Scope Z_scope.

(** * [CommandInfo] *)

Inductive since_t := UNDEFINED_SINCE | PROJECT_VERSION_GENERATE (major minor patch : Z).

Definition INFINITE_COMMAND_ARGS : Z := 255.
(** The double quote and newline escapes inside the strings of the source. *)
Definition dq : string := String chr_dq EmptyString.
Definition nl : string := String chr_nl EmptyString.

Definition UNDEFINED_EXAMPLE_STR : string := "Unspecified".

Record CommandInfo := mkCommandInfo {
  name : bytes;
  params : bytes;
  summary : bytes;
  since : since_t;
  example : bytes;
  required_arguments_count : Z;
  optional_arguments_count : Z
}.

Definition MaxArgumentsCount (c : CommandInfo) : Z :=
  u16 (required_arguments_count c + optional_arguments_count c).
Definition MinArgumentsCount (c : CommandInfo) : Z := required_arguments_count c.

(** * [CommandHolder]

    A handler is called with [argc], [argv] and the connection; the state [S] holds the
    connection and the output object.  [F] is the type of the function pointers of a table and
    [run] what they point to. *)

Definition handler (S : Type) : Type := Z → argv_t → S → outcome (Error * S).

Definition count_space (data : bytes) : Z := Z.of_nat (length (filter (λ c, c_isspace c = true) data)).

Record CommandHolder (F : Type) := mkCommandHolder {
  info : CommandInfo;
  func_ : F;
  white_spaces_count_ : Z
}.
Arguments mkCommandHolder {F} _ _ _.
Arguments info {F} _.
Arguments func_ {F} _.
Arguments white_spaces_count_ {F} _.

Definition new_CommandHolder {F} (nm ps sm : string) (sn : since_t) (ex : string) (req opt : Z)
    (func : F) : CommandHolder F :=
  mkCommandHolder (mkCommandInfo (lit nm) (lit ps) (lit sm) sn (lit ex) req opt) func
    (count_space (lit nm)).

(** The loop that pushes [argv[i]] to [merged], from [i], [n] times. *)
Definition merge_args (argv : argv_t) (n : nat) : outcome (list bytes) := aget_range argv 0 n.

(** The result and the value behind [offset] ([None]: a null pointer). *)
Definition IsCommand `{CommonLib} {F} (cmd : CommandHolder F) (argc : Z) (argv : argv_t)
    (offset : option Z) : outcome (bool * option Z) :=
  if argc <=? 0 then Val (false, offset)
  else
    let uargc := u32 argc in
    if uargc =? white_spaces_count_ cmd then Val (false, offset)
    else if negb (uargc >? white_spaces_count_ cmd) then Fault CheckFailed
    else
      merged ← merge_args argv (Z.to_nat (white_spaces_count_ cmd + 1));
      let ws := JoinString merged chr_sp in
      if negb (FullEqualsASCII ws (name (info cmd)) false) then Val (false, offset)
      else Val (true, match offset with Some _ => Some (white_spaces_count_ cmd + 1) | None => None end).

Definition CommandHolder_Execute {F S} (run : F → handler S) (cmd : CommandHolder F) : handler S :=
  run (func_ cmd).

(** * [CommandHandler] *)

Definition NotSupported `{CommonLib} (cmd : bytes) : Error :=
  make_error_value (MemSPrintf (lit "Not supported command: %s.") [FStr cmd]) E_ERROR.

(** The loop of [UnknownSequence] from index [i], [n] iterations before [argc]. *)
Fixpoint unknown_sequence_loop (argc : Z) (argv : argv_t) (i : Z) (n : nat) (result : bytes)
    : outcome bytes :=
  match n with
  | O => Val result
  | S n' =>
    a ← aget_str argv i;
    let result := result ++ a in
    let result := if negb (i =? argc - 1) then result ++ lit " " else result in
    unknown_sequence_loop argc argv (i + 1) n' result
  end.

Definition UnknownSequence `{CommonLib} (argc : Z) (argv : argv_t) : outcome Error :=
  result ← unknown_sequence_loop argc argv 0 (Z.to_nat argc) [];
  Val (make_error_value (MemSPrintf (lit "Unknown sequence: '%s'.") [FStr result]) E_ERROR).

Definition invalid_argument_error `{CommonLib} (nm : bytes) (passed max min : Z) : Error :=
  make_error_value
    (MemSPrintf (lit "Invalid input argument for command: '%s', passed %d, must be in range %d - %d.")
       [FStr nm; FInt passed; FInt max; FInt min]) E_ERROR.

Fixpoint Execute `{CommonLib} {F S} (run : F → handler S) (commands_ : list (CommandHolder F))
    (argc : Z) (argv : argv_t) (s : S) : outcome (Error * S) :=
  match commands_ with
  | [] => e ← UnknownSequence argc argv; Val (e, s)
  | cmd :: rest =>
    r ← IsCommand cmd argc argv (Some 0);
    match r with
    | (true, off) =>
      let off := default 0 off in
      let argc_to_call := i32 (argc - off) in
      let argv_to_call := ashift argv off in
      let max := MaxArgumentsCount (info cmd) in
      let min := MinArgumentsCount (info cmd) in
      if (argc_to_call >? max) || (argc_to_call <? min)
      then Val (invalid_argument_error (name (info cmd)) argc_to_call max min, s)
      else CommandHolder_Execute run cmd argc_to_call argv_to_call s
    | (false, _) => Execute run rest argc argv s
    end
  end.

(** * Specification

    [args] are the words of a command line, in an array after [pre] other words. *)

Definition vec (pre args : list bytes) : argv_t := Argv (pre ++ args) (Z.of_nat (length pre)).
Definition argc_of (args : list bytes) : Z := Z.of_nat (length args).

(** Number of words of a command's name. *)
Definition name_words {F} (cmd : CommandHolder F) : nat := Z.to_nat (white_spaces_count_ cmd + 1).

(** The first words of the line are the command's name, up to case. *)
Definition names_line {F} (cmd : CommandHolder F) (args : list bytes) : bool :=
  (name_words cmd <=? length args)%nat &&
  bool_decide (lower (join_with [chr_sp] (take (name_words cmd) (List.map c_str args)))
               = lower (name (info cmd))).

Definition in_range {F} (cmd : CommandHolder F) (n : Z) : bool :=
  (MinArgumentsCount (info cmd) <=? n) && (n <=? MaxArgumentsCount (info cmd)).

(** What [Execute] promises: the first command of the table the line names gets the rest of the
    line, when the number of arguments is acceptable. *)
Definition execute_spec `{CommonLib} {F S} (run : F → handler S) (table : list (CommandHolder F))
    (pre args : list bytes) (s : S) : outcome (Error * S) :=
  match List.find (λ cmd, names_line cmd args) table with
  | Some cmd =>
    let n := argc_of args - Z.of_nat (name_words cmd) in
    if in_range cmd n
    then run (func_ cmd) n (vec (pre ++ take (name_words cmd) args) (drop (name_words cmd) args)) s
    else Val (invalid_argument_error (name (info cmd)) n (MaxArgumentsCount (info cmd))
                (MinArgumentsCount (info cmd)), s)
  | None =>
    Val (make_error_value (MemSPrintf (lit "Unknown sequence: '%s'.")
           [FStr (join_with [chr_sp] (List.map c_str args))]) E_ERROR, s)
  end.

(** A table whose names have at most one space each. *)
Definition holder_wf {F} (cmd : CommandHolder F) : bool :=
  (white_spaces_count_ cmd =? count_space (name (info cmd))) && (0 <=? white_spaces_count_ cmd)
  && (white_spaces_count_ cmd <=? 1)
  && (0 <=? required_arguments_count (info cmd)) && (required_arguments_count (info cmd) <=? 255)
  && (0 <=? optional_arguments_count (info cmd)) && (optional_arguments_count (info cmd) <=? 255).

(** * Lemmas *)

Lemma vec_argv_ok pre args : argv_ok (argc_of args) (vec pre args).
Proof. unfold argv_ok, vec, argc_of. simpl. rewrite length_app. lia. Qed.

Lemma ashift_vec pre args k :
  (k <= length args)%nat → ashift (vec pre args) (Z.of_nat k) = vec (pre ++ take k args) (drop k args).
Proof.
  intros Hk. unfold vec, ashift. simpl. f_equal.
  - by rewrite <- app_assoc, take_drop.
  - rewrite length_app, length_take. lia.
Qed.

Lemma aget_range_vec_take pre args k :
  (k <= length args)%nat → aget_range (vec pre args) 0 k = Val (take k (List.map c_str args)).
Proof.
  intros Hk.
  assert (∀ j from, (from + j <= length args)%nat →
    aget_range (vec pre args) (Z.of_nat from) j
    = Val (take j (drop from (List.map c_str args)))) as Hgen.
  { induction j as [|j IH]; intros from Hj; simpl; [done|].
    destruct (lookup_lt_is_Some_2 args from) as [x Hx]; [lia|].
    unfold aget_str, vec. rewrite (aget_at _ _ _ _ Hx). simpl.
    replace (Z.of_nat from + 1) with (Z.of_nat (S from)) by lia.
    fold (vec pre args). rewrite IH by lia. simpl.
    rewrite (drop_S (List.map c_str args) (c_str x) from); [done|].
    change (List.map c_str args) with (c_str <$> args). by rewrite list_lookup_fmap, Hx. }
  specialize (Hgen k 0%nat). simpl in Hgen. apply Hgen. lia.
Qed.

Section Dispatch.
Context `{CommonLaws} {F St : Type} (run : F → handler St).
Implicit Types (cmd : CommandHolder F) (args pre : list bytes).

Lemma holder_wf_inv cmd :
  holder_wf cmd = true →
  white_spaces_count_ cmd = count_space (name (info cmd)) ∧
  0 <= white_spaces_count_ cmd <= 1 ∧
  MaxArgumentsCount (info cmd)
    = required_arguments_count (info cmd) + optional_arguments_count (info cmd) ∧
  (name_words cmd = 1 ∨ name_words cmd = 2)%nat.
Proof.
  unfold holder_wf, name_words, MaxArgumentsCount. intros Hw.
  rewrite u16_small by lia. lia.
Qed.

(** [IsCommand] never trips its [CHECK] on such a command, and answers [names_line]. *)
Lemma IsCommand_spec cmd pre args o :
  holder_wf cmd = true → argc_of args <= INT_MAX →
  IsCommand cmd (argc_of args) (vec pre args) (Some o)
  = Val (if names_line cmd args then (true, Some (white_spaces_count_ cmd + 1)) else (false, Some o)).
Proof.
  intros Hwf Hmax. destruct (holder_wf_inv _ Hwf) as (_ & Hws & _).
  unfold IsCommand, names_line, name_words, merge_args, argc_of, INT_MAX in *.
  destruct (Z.leb_spec (Z.of_nat (length args)) 0).
  { by destruct (Nat.leb_spec (Z.to_nat (white_spaces_count_ cmd + 1)) (length args)); [lia|]. }
  rewrite u32_small by lia.
  destruct (Z.eqb_spec (Z.of_nat (length args)) (white_spaces_count_ cmd)).
  { by destruct (Nat.leb_spec (Z.to_nat (white_spaces_count_ cmd + 1)) (length args)); [lia|]. }
  rewrite Z.gtb_ltb. destruct (Z.ltb_spec (white_spaces_count_ cmd) (Z.of_nat (length args)));
    [|lia].
  simpl negb. rewrite aget_range_vec_take by lia. simpl. rewrite JoinString_spec.
  destruct (Nat.leb_spec (Z.to_nat (white_spaces_count_ cmd + 1)) (length args)); [|lia].
  simpl. case_bool_decide as Hd.
  - apply FullEqualsASCII_spec in Hd. by rewrite Hd.
  - rewrite <- FullEqualsASCII_spec in Hd. by destruct FullEqualsASCII.
Qed.

Lemma unknown_sequence_loop_spec pre args i n result :
  (i + n = length args)%nat →
  unknown_sequence_loop (argc_of args) (vec pre args) (Z.of_nat i) n result
  = Val (result ++ join_with [chr_sp] (drop i (List.map c_str args))).
Proof.
  revert i result. induction n as [|n IH]; intros i result Hi; simpl.
  { rewrite drop_ge by (rewrite length_map; lia). by rewrite app_nil_r. }
  destruct (lookup_lt_is_Some_2 args i) as [x Hx]; [lia|].
  unfold aget_str, vec. rewrite (aget_at _ _ _ _ Hx). simpl.
  replace (Z.of_nat i + 1) with (Z.of_nat (S i)) by lia.
  fold (vec pre args). rewrite IH by lia. f_equal.
  assert (List.map c_str args !! i = Some (c_str x)) as Hm.
  { change (List.map c_str args) with (c_str <$> args). by rewrite list_lookup_fmap, Hx. }
  rewrite (drop_S _ _ _ Hm). unfold argc_of.
  destruct (Z.eqb_spec (Z.of_nat i) (Z.of_nat (length args) - 1)) as [He|He]; cbn [negb].
  - rewrite (drop_ge _ (S i)) by (rewrite length_map; lia). simpl. by rewrite app_nil_r.
  - rewrite join_with_cons.
    + by rewrite <- !app_assoc.
    + intros Hnil. apply (f_equal length) in Hnil.
      rewrite length_drop, length_map in Hnil. simpl in Hnil. lia.
Qed.

Lemma UnknownSequence_spec pre args :
  UnknownSequence (argc_of args) (vec pre args)
  = Val (make_error_value (MemSPrintf (lit "Unknown sequence: '%s'.")
           [FStr (join_with [chr_sp] (List.map c_str args))]) E_ERROR).
Proof.
  unfold UnknownSequence. replace (Z.to_nat (argc_of args)) with (length args)
    by (unfold argc_of; lia).
  pose proof (unknown_sequence_loop_spec pre args 0 (length args) [] ltac:(lia)) as Hl.
  change (Z.of_nat 0) with 0 in Hl. by rewrite Hl.
Qed.

(** The dispatch loop implements its specification. *)
Lemma Execute_spec table pre args s :
  forallb holder_wf table = true → argc_of args <= INT_MAX →
  Execute run table (argc_of args) (vec pre args) s = execute_spec run table pre args s.
Proof.
  intros Hwf Hmax. induction table as [|cmd table IH]; simpl.
  { by rewrite UnknownSequence_spec. }
  simpl in Hwf. apply andb_true_iff in Hwf as [Hc Hwf].
  rewrite IsCommand_spec by done. unfold execute_spec in *. simpl.
  destruct (names_line cmd args) eqn:Hn; [|by apply IH].
  simpl. destruct (holder_wf_inv _ Hc) as (_ & Hws & _ & _).
  unfold names_line in Hn. apply andb_true_iff in Hn as [Hlen _].
  apply Nat.leb_le in Hlen. unfold name_words in *.
  set (k := Z.to_nat (white_spaces_count_ cmd + 1)) in *.
  assert (white_spaces_count_ cmd + 1 = Z.of_nat k) as -> by lia. cbn [default from_option id].
  rewrite i32_small by (unfold argc_of, INT_MIN, INT_MAX in *; lia).
  rewrite ashift_vec by done. unfold in_range, CommandHolder_Execute.
  rewrite Z.gtb_ltb.
  rewrite !Z.leb_antisym, <- negb_orb, orb_comm.
  by destruct (_ || _).
Qed.
End Dispatch.

(** * Tables *)

(** No name is shadowed: an entry's name is not, up to case, the beginning (up to a space) or the
    whole of the name of a later entry. *)
Definition name_key {F} (c : CommandHolder F) : bytes := lower (name (info c)) ++ [chr_sp].
Definition keys_apart (k1 k2 : bytes) : bool := negb (is_prefix_b k1 k2).

Definition table_ok {F} (table : list (CommandHolder F)) : bool :=
  forallb holder_wf table && all_pairs keys_apart (List.map name_key table).

Section Tables.
Context {F : Type}.
Implicit Types (cmd c : CommandHolder F) (args : list bytes).

(** Two entries that both name a line: one name extends the other. *)
Lemma names_line_prefix (c1 c2 : CommandHolder F) args :
  holder_wf c1 = true → holder_wf c2 = true →
  names_line c1 args = true → names_line c2 args = true →
  (name_words c1 <= name_words c2)%nat → keys_apart (name_key c1) (name_key c2) = false.
Proof.
  unfold names_line, keys_apart, name_key. intros W1 W2 H1 H2 Hle.
  apply andb_true_iff in H1 as [L1 E1], H2 as [L2 E2].
  apply bool_decide_eq_true in E1, E2. apply Nat.leb_le in L1, L2.
  apply negb_false_iff, is_prefix_b_spec. rewrite <- E1, <- E2.
  destruct (decide (name_words c1 = name_words c2)) as [->|Hne].
  { exists []. by rewrite app_nil_r. }
  destruct (join_with_take_prefix [chr_sp] (List.map c_str args) (name_words c1) (name_words c2))
    as [r ->].
  - destruct (holder_wf_inv _ W1) as (_ & _ & _ & []); lia.
  - lia.
  - by rewrite length_map.
  - unfold lower. rewrite !List.map_app. exists (List.map c_tolower (r ++ [chr_sp])).
    rewrite !List.map_app, <- !app_assoc. done.
Qed.

Lemma table_ok_split (table : list (CommandHolder F)) l1 c1 l2 c2 l3 :
  table_ok table = true → table = l1 ++ c1 :: l2 ++ c2 :: l3 →
  holder_wf c1 = true ∧ holder_wf c2 = true ∧ keys_apart (name_key c1) (name_key c2) = true.
Proof.
  unfold table_ok. rewrite all_pairs_map. intros Hok ->. apply andb_true_iff in Hok as [Hw Hp].
  rewrite forallb_forall in Hw. split; [|split].
  - apply Hw, in_elt.
  - apply Hw, in_or_app. right. right. apply in_elt.
  - by apply (all_pairs_spec _ _ _ _ _ _ Hp).
Qed.

Lemma table_ok_longest (table : list (CommandHolder F)) l1 c1 l2 c2 l3 args :
  table_ok table = true → table = l1 ++ c1 :: l2 ++ c2 :: l3 →
  names_line c1 args = true → names_line c2 args = true →
  (name_words c2 < name_words c1)%nat.
Proof.
  intros Hok Heq H1 H2. destruct (table_ok_split _ _ _ _ _ _ Hok Heq) as (W1 & W2 & Hs).
  destruct (decide (name_words c2 < name_words c1)%nat) as [|Hge]; [done|].
  rewrite (names_line_prefix c1 c2 args) in Hs; [done..|lia].
Qed.
End Tables.

#[export] Hint Resolve vec_argv_ok : fasto.
