(* ===== verification/Values.v ===== *)
(** Output objects, the text of values, and the keys and values of a database: [global/global.*], [core/db_key.*]
    and [core/database/idatabase_info.*]. *)
From Stdlib Require Import Ascii String ZArith Lia.
From stdpp Require Import base list.
From S2P Require Import Prelude Common.
#[local] Set Warnings "-register-all".

(** * [common::ConvertToString] of values *)

Section ConvertToString.
Context `{CommonLib}.

(** The loop over the elements of an array or a set: an element with an empty text is
    skipped, and the delimiter follows every other one but the last of the container. *)
Fixpoint convert_elems_loop (delimiter : bytes) (l : list value) (result : bytes) : bytes :=
  match l with
  | [] => result
  | it :: rest =>
    let val := value_toString it in
    if decide (val = []) then convert_elems_loop delimiter rest result
    else
      let result := result ++ val in
      convert_elems_loop delimiter rest
        (match rest with [] => result | _ => result ++ delimiter end)
  end.

Definition ConvertToString_array (l : list value) (delimiter : bytes) : bytes :=
  match l with [] => lit "(empty list)" | _ => convert_elems_loop delimiter l [] end.

Definition ConvertToString_set (l : list value) (delimiter : bytes) : bytes :=
  match l with [] => lit "(empty set)" | _ => convert_elems_loop delimiter l [] end.

Fixpoint convert_pairs_loop (delimiter : bytes) (l : list (value * value)) (result : bytes) : bytes :=
  match l with
  | [] => result
  | (k, v) :: rest =>
    let key := value_toString k in
    let val := value_toString v in
    if decide (val = [] ∨ key = []) then convert_pairs_loop delimiter rest result
    else
      let result := result ++ key ++ lit " " ++ val in
      convert_pairs_loop delimiter rest
        (match rest with [] => result | _ => result ++ delimiter end)
  end.

Definition ConvertToString_zset (l : list (value * value)) (delimiter : bytes) : bytes :=
  match l with [] => lit "(empty zset)" | _ => convert_pairs_loop delimiter l [] end.

Definition ConvertToString_hash (l : list (value * value)) (delimiter : bytes) : bytes :=
  match l with [] => lit "(empty hash)" | _ => convert_pairs_loop delimiter l [] end.

(** [None] is the null pointer. *)
Definition ConvertToString (v : option value) (delimiter : bytes) : bytes :=
  match v with
  | None => []
  | Some (VArray l) => ConvertToString_array l delimiter
  | Some (VSet l) => ConvertToString_set l delimiter
  | Some (VZSet l) => ConvertToString_zset l delimiter
  | Some (VHash l) => ConvertToString_hash l delimiter
  | Some v => value_toString v
  end.
End ConvertToString.

(** * [FastoObject]: the tree of outputs of a command *)

Inductive FastoObject := mkFastoObject {
  value_ : value;
  delimiter_ : bytes;
  childrens_ : list FastoObject
}.

Definition new_FastoObject (val : value) (delimiter : bytes) : FastoObject :=
  mkFastoObject val delimiter [].

(** [FastoObjectArray] carries an array value and prints it the same way. *)
Definition new_FastoObjectArray (ar : list value) (delimiter : bytes) : FastoObject :=
  mkFastoObject (VArray ar) delimiter [].

Definition CreateRoot (text : bytes) : FastoObject := mkFastoObject (VString text) [] [].

(** [FastoObjectCommand]: an object with a command value. *)
Definition InputCommand (o : FastoObject) : bytes :=
  match value_ o with VCommand input _ => input | _ => [] end.

(** [FastoObjectArray::Append] on its array value. *)
Definition FastoObjectArray_Append (o : FastoObject) (v : value) : FastoObject :=
  match value_ o with
  | VArray l => mkFastoObject (VArray (l ++ [v])) (delimiter_ o) (childrens_ o)
  | _ => o
  end.

Definition SetValue (o : FastoObject) (v : value) : FastoObject :=
  mkFastoObject v (delimiter_ o) (childrens_ o).

Definition AddChildren (o child : FastoObject) : FastoObject :=
  mkFastoObject (value_ o) (delimiter_ o) (childrens_ o ++ [child]).

Definition FastoObject_Clear (o : FastoObject) : FastoObject :=
  mkFastoObject (value_ o) (delimiter_ o) [].

Definition FastoObject_Type (o : FastoObject) : value_type := type_of_value (value_ o).

(** [FastoObjectCommand] overrides it with the empty text. *)
Definition FastoObject_ToString `{CommonLib} (o : FastoObject) : bytes :=
  match value_ o with
  | VCommand _ _ => []
  | v => ConvertToString (Some v) (delimiter_ o)
  end.

(** [common::ConvertToString(FastoObject* )]: the object, then its children, depth first. *)
Fixpoint ConvertToString_object `{CommonLib} (o : FastoObject) : bytes :=
  let str := FastoObject_ToString o in
  (if decide (str = []) then [] else str ++ delimiter_ o)
  ++ (fix go (l : list FastoObject) : bytes :=
        match l with [] => [] | c :: l' => ConvertToString_object c ++ go l' end) (childrens_ o).

(** * Command lines *)

Fixpoint find_first_of (c : ascii) (s : bytes) : option nat :=
  match s with
  | [] => None
  | x :: r => if Ascii.eqb x c then Some 0 else S <$> find_first_of c r
  end.

Definition GetFirstWordFromLine (input : bytes) : bytes :=
  match input with
  | [] => []
  | _ => match find_first_of chr_sp input with Some pos => take pos input | None => input end
  end.

(** Pairs of strings, as the values of a sorted set or of a hash. *)
Definition pair_words (l : list (bytes * bytes)) : list bytes :=
  List.concat (List.map (λ p, [p.1; p.2]) l).
Definition string_pairs (l : list (bytes * bytes)) : list (value * value) :=
  List.map (λ p, (VString p.1, VString p.2)) l.

(** * Lemmas *)

Section Lemmas.
Context `{CommonLaws}.

Lemma convert_elems_loop_strings delimiter (l : list bytes) result :
  Forall (λ s, s ≠ []) l →
  convert_elems_loop delimiter (List.map VString l) result = result ++ join_with delimiter l.
Proof.
  revert result. induction l as [|s l IH]; intros result Hl; simpl.
  { by rewrite app_nil_r. }
  apply Forall_cons in Hl as [Hs Hl]. rewrite toString_string.
  rewrite decide_False by done. destruct l as [|t l]; simpl in *; [done|].
  rewrite IH by done. by rewrite <- !app_assoc.
Qed.

Lemma convert_pairs_loop_strings delimiter (l : list (bytes * bytes)) result :
  Forall (λ p, p.1 ≠ [] ∧ p.2 ≠ []) l →
  convert_pairs_loop delimiter (string_pairs l) result
  = result ++ join_with delimiter (List.map (λ p, p.1 ++ lit " " ++ p.2) l).
Proof.
  revert result. induction l as [|[k v] l IH]; intros result Hl; simpl.
  { by rewrite app_nil_r. }
  apply Forall_cons in Hl as [[Hk Hv] Hl]. simpl in Hk, Hv. rewrite !toString_string.
  rewrite decide_False by tauto. destruct l as [|[k' v'] l]; cbn [string_pairs List.map] in *.
  - done.
  - rewrite IH by done. by rewrite <- !app_assoc.
Qed.

(** An array of non-empty strings prints as its elements joined by the delimiter. *)
Lemma ConvertToString_array_join delimiter (l : list bytes) :
  l ≠ [] → Forall (λ s, s ≠ []) l →
  ConvertToString (Some (VArray (List.map VString l))) delimiter = join_with delimiter l.
Proof.
  intros Hne Hl. simpl. unfold ConvertToString_array.
  destruct l as [|s l]; [done|]. exact (convert_elems_loop_strings delimiter (s :: l) [] Hl).
Qed.

Lemma ConvertToString_string s delimiter : ConvertToString (Some (VString s)) delimiter = s.
Proof. apply toString_string. Qed.
End Lemmas.

#[export] Hint Rewrite @ConvertToString_string : fasto.

Local Open Scope Z_scope.

(** * [KeyInfo]: a key split at the namespace separator *)

Record KeyInfo := mkKeyInfo {
  splited_namespaces_and_key_ : list bytes;
  ns_separator_ : bytes
}.

Section KeyInfo.
Context `{CommonLib}.
Implicit Types k : KeyInfo.

Definition KeyInfo_size k : Z := Z.of_nat (length (splited_namespaces_and_key_ k)).

Definition KeyInfo_Key k : bytes := JoinStringS (splited_namespaces_and_key_ k) (ns_separator_ k).

Definition NspaceSize k : Z :=
  if KeyInfo_size k =? 0 then 0 else u64 (KeyInfo_size k - 1).

Definition HasNamespace k : bool := NspaceSize k >? 0.

(** The loop [for (i = 0; i <= pos; ++i) copy.push_back(...)], [n] iterations from [i]. *)
Fixpoint copy_loop (l : list bytes) (i n : nat) : outcome (list bytes) :=
  match n with
  | O => Val []
  | S n' => x ← from_option_fault OutOfBounds (l !! i);
            r ← copy_loop l (S i) n'; Val (x :: r)
  end.

Definition JoinNamespace k (pos : Z) : outcome bytes :=
  if NspaceSize k >? pos then
    copy ← copy_loop (splited_namespaces_and_key_ k) 0 (Z.to_nat (pos + 1));
    Val (JoinStringS copy (ns_separator_ k))
  else Val [].

(** [splited_namespaces_and_key_.size() - 1] is a [size_t]. *)
Definition Nspace k : outcome bytes := JoinNamespace k (u64 (KeyInfo_size k - 1)).
End KeyInfo.

(** * [NKey] *)

Definition NO_TTL : Z := -1.

Record NKey := mkNKey { key_ : bytes; ttl_ : Z }.

Definition NKey_default : NKey := mkNKey [] NO_TTL.
Definition new_NKey (key : bytes) : NKey := mkNKey key NO_TTL.
Definition NKey_Info `{CommonLib} (k : NKey) (ns_separator : bytes) : KeyInfo :=
  mkKeyInfo (Tokenize (key_ k) ns_separator) ns_separator.
Definition NKey_SetKey (k : NKey) (key : bytes) : NKey := mkNKey key (ttl_ k).
Definition NKey_SetTTL (k : NKey) (ttl : Z) : NKey := mkNKey (key_ k) ttl.
Definition NKey_Equals (k other : NKey) : bool :=
  if negb (bool_decide (key_ k = key_ other)) then false else ttl_ k =? ttl_ other.

(** * [NDbKValue]: a key with a possibly null value *)

Record NDbKValue := mkNDbKValue { nkv_key : NKey; nkv_value : option value }.

Definition NDbKValue_default : NDbKValue := mkNDbKValue NKey_default None.
Definition NDbKValue_Type (kv : NDbKValue) : value_type :=
  match nkv_value kv with None => TYPE_NULL | Some v => type_of_value v end.
Definition NDbKValue_SetTTL (kv : NDbKValue) (ttl : Z) : NDbKValue :=
  mkNDbKValue (NKey_SetTTL (nkv_key kv) ttl) (nkv_value kv).
Definition NDbKValue_SetKey (kv : NDbKValue) (k : NKey) : NDbKValue := mkNDbKValue k (nkv_value kv).
Definition NDbKValue_SetValue (kv : NDbKValue) (v : option value) : NDbKValue :=
  mkNDbKValue (nkv_key kv) v.
Definition KeyString (kv : NDbKValue) : bytes := key_ (nkv_key kv).
Definition ValueString `{CommonLib} (kv : NDbKValue) : bytes :=
  ConvertToString (nkv_value kv) (lit " ").
Definition NDbKValue_Equals `{CommonLib} (kv other : NDbKValue) : bool :=
  if negb (NKey_Equals (nkv_key kv) (nkv_key other)) then false
  else match nkv_value kv with
       | None => negb (bool_decide (is_Some (nkv_value other)))
       | Some v => value_equals v (nkv_value other)
       end.

(** * [IDataBaseInfo] *)

Record IDataBaseInfo := mkIDataBaseInfo {
  name_ : bytes;
  is_default_ : bool;
  db_kcount_ : Z;
  keys_ : list NDbKValue
}.

Definition SetDBKeysCount (i : IDataBaseInfo) (n : Z) : IDataBaseInfo :=
  mkIDataBaseInfo (name_ i) (is_default_ i) n (keys_ i).
Definition SetIsDefault (i : IDataBaseInfo) (b : bool) : IDataBaseInfo :=
  mkIDataBaseInfo (name_ i) b (db_kcount_ i) (keys_ i).
Definition SetKeys (i : IDataBaseInfo) (ks : list NDbKValue) : IDataBaseInfo :=
  mkIDataBaseInfo (name_ i) (is_default_ i) (db_kcount_ i) ks.
Definition ClearKeys (i : IDataBaseInfo) : IDataBaseInfo := SetKeys i [].
Definition LoadedKeysCount (i : IDataBaseInfo) : Z := Z.of_nat (length (keys_ i)).

(** * Lemmas *)

Section KeyInfoLemmas.
Context `{CommonLaws}.
Implicit Types k : KeyInfo.

(** A vector fits in memory. *)
Definition KeyInfo_fits k : Prop := KeyInfo_size k < 2 ^ 63.

Lemma NspaceSize_eq k :
  KeyInfo_fits k → NspaceSize k = Z.max 0 (KeyInfo_size k - 1).
Proof.
  unfold NspaceSize, KeyInfo_fits, KeyInfo_size. intros Hf.
  destruct (Z.eqb_spec (Z.of_nat (length (splited_namespaces_and_key_ k))) 0); [lia|].
  rewrite u64_small; lia.
Qed.

Lemma copy_loop_spec l i n :
  (i + n <= length l)%nat → copy_loop l i n = Val (take n (drop i l)).
Proof.
  revert i. induction n as [|n IH]; intros i Hi; simpl; [done|].
  destruct (lookup_lt_is_Some_2 l i) as [x Hx]; [lia|].
  rewrite Hx. simpl. rewrite IH by lia. simpl. by rewrite (drop_S _ _ _ Hx).
Qed.

Lemma JoinNamespace_spec k pos :
  KeyInfo_fits k → 0 <= pos →
  JoinNamespace k pos
  = Val (if pos <? KeyInfo_size k - 1
         then join_with (ns_separator_ k)
                (take (Z.to_nat (pos + 1)) (splited_namespaces_and_key_ k))
         else []).
Proof.
  intros Hf Hp. unfold JoinNamespace. rewrite NspaceSize_eq, Z.gtb_ltb by done.
  destruct (Z.ltb_spec pos (KeyInfo_size k - 1)) as [Hlt|Hge].
  - destruct (Z.ltb_spec pos (Z.max 0 (KeyInfo_size k - 1))); [|lia].
    unfold KeyInfo_size in *. rewrite copy_loop_spec by lia. simpl.
    by rewrite JoinStringS_spec.
  - by destruct (Z.ltb_spec pos (Z.max 0 (KeyInfo_size k - 1))); [lia|].
Qed.

Lemma KeyInfo_size_nonneg k : 0 <= KeyInfo_size k.
Proof. unfold KeyInfo_size. lia. Qed.
End KeyInfoLemmas.

(** [JoinNamespace(pos)] is the first [pos + 1] parts of the key joined by the separator when
    the key has that many namespaces, the empty text otherwise, and reads no part outside the
    vector.  [Nspace()], which asks for all the namespaces, passes a position one too high and is
    always empty. *)
Theorem key_namespace `{CommonLaws} k pos :
  KeyInfo_fits k → 0 <= pos →
  JoinNamespace k pos
  = Val (if pos <? KeyInfo_size k - 1
         then join_with (ns_separator_ k)
                (take (Z.to_nat (pos + 1)) (splited_namespaces_and_key_ k))
         else []) ∧
  Nspace k = Val [].
Proof.
  intros Hf Hp. split; [by apply JoinNamespace_spec|]. unfold Nspace.
  rewrite JoinNamespace_spec by (done || apply Z.mod_pos_bound; lia).
  pose proof (KeyInfo_size_nonneg k). unfold KeyInfo_fits in Hf.
  destruct (Z.eqb_spec (KeyInfo_size k) 0) as [->|Hz]; [done|].
  rewrite u64_small by lia. by rewrite Z.ltb_irrefl.
Qed.

Lemma key_namespace_witness :
  @JoinNamespace common_ref (@NKey_Info common_ref (new_NKey (lit "a:b:c")) (lit ":")) 1
  = Val (lit "a:b") ∧
  @Nspace common_ref (@NKey_Info common_ref (new_NKey (lit "a:b:c")) (lit ":")) = Val [].
Proof.
  refine (@key_namespace common_ref common_ref_laws
            (@NKey_Info common_ref (new_NKey (lit "a:b:c")) (lit ":")) 1 _ _); vm_compute; done.
Defined.
