(* ===== verification/Connection.v ===== *)
(** Connections: [core/internal/connection.h], [core/internal/db_connection.h] and
    [core/internal/cdb_connection.h], with the notifications of
    [core/internal/cdb_connection_client.h]. *)
From Stdlib Require Import Ascii String ZArith Lia.
From stdpp Require Import base list.
From S2P Require Import Prelude Common Values.

(** * [ConnectionAllocatorTraits]

    One instance per database.  [H] is the native handle, [W] the state of the outside world
    (the files, the server) that the native library works on. *)

Class ConnectionTraits (Cfg H W : Type) := {
  traits_Connect : Cfg → W → Error * option H * W;
  traits_Disconnect : option H → W → Error * option H * W;
  traits_IsConnected : option H → W → bool;
  config_default : Cfg;
  config_delimiter : Cfg → bytes;
  config_ns_separator : Cfg → bytes
}.

(** * [Connection] *)

Record Connection (Cfg H W : Type) := mkConnection {
  config_ : Cfg;
  handle_ : option H;
  world_ : W
}.
Arguments mkConnection {Cfg H W} _ _ _.
Arguments config_ {Cfg H W} _.
Arguments handle_ {Cfg H W} _.
Arguments world_ {Cfg H W} _.

Section Connection.
Context {Cfg H W : Type} `{ConnectionTraits Cfg H W} `{CommonLib}.
Implicit Types c : Connection Cfg H W.

Definition new_Connection (w : W) : Connection Cfg H W := mkConnection config_default None w.

Definition Connection_IsConnected c : bool := traits_IsConnected (handle_ c) (world_ c).

Definition Connection_Connect (config : Cfg) c : Error * Connection Cfg H W :=
  if Connection_IsConnected c then (no_error, c)
  else
    let '(err, handle, w) := traits_Connect config (world_ c) in
    if isError err then (err, mkConnection (config_ c) (handle_ c) w)
    else (no_error, mkConnection config handle w).

Definition Connection_Disconnect c : Error * Connection Cfg H W :=
  if negb (Connection_IsConnected c) then (no_error, c)
  else
    let '(err, handle, w) := traits_Disconnect (handle_ c) (world_ c) in
    if isError err then (err, mkConnection (config_ c) handle w)
    else (no_error, mkConnection config_default None w).
End Connection.

(** * [DBConnection] and [CDBConnection]

    A client, when there is one, is represented by the notifications it has received. *)

Inductive client_event :=
| OnCurrentDataBaseChanged (info : option IDataBaseInfo)
| OnKeysRemoved (keys : list NKey)
| OnKeyAdded (key : NDbKValue)
| OnKeyLoaded (key : NDbKValue)
| OnKeyRenamed (key : NKey) (new_key : bytes)
| OnKeyTTLChanged (key : NKey) (ttl : Z)
| OnQuited.

Record CDBConnection (Cfg H W : Type) := mkCDB {
  connection_ : Connection Cfg H W;
  interrupted_ : bool;
  client_ : option (list client_event)
}.
Arguments mkCDB {Cfg H W} _ _ _.
Arguments connection_ {Cfg H W} _.
Arguments interrupted_ {Cfg H W} _.
Arguments client_ {Cfg H W} _.

Section DBConnection.
Context {Cfg H W : Type} `{ConnectionTraits Cfg H W} `{CommonLib}.
Implicit Types c : CDBConnection Cfg H W.

Definition set_connection c (k : Connection Cfg H W) : CDBConnection Cfg H W :=
  mkCDB k (interrupted_ c) (client_ c).

Definition Connect (config : Cfg) c : Error * CDBConnection Cfg H W :=
  let '(e, k) := Connection_Connect config (connection_ c) in (e, set_connection c k).
Definition Disconnect c : Error * CDBConnection Cfg H W :=
  let '(e, k) := Connection_Disconnect (connection_ c) in (e, set_connection c k).
Definition IsConnected c : bool := Connection_IsConnected (connection_ c).
Definition SetInterrupted (b : bool) c : CDBConnection Cfg H W :=
  mkCDB (connection_ c) b (client_ c).
Definition IsInterrupted c : bool := interrupted_ c.
Definition Delimiter c : bytes := config_delimiter (config_ (connection_ c)).
Definition NsSeparator c : bytes := config_ns_separator (config_ (connection_ c)).

Definition notify (ev : client_event) c : CDBConnection Cfg H W :=
  mkCDB (connection_ c) (interrupted_ c) ((λ log, log ++ [ev]) <$> client_ c).
End DBConnection.

(** The virtual [...Impl] members a database provides.  An out parameter is passed in with the
    caller's value and returned. *)
Class CDBImpl (Cfg H W : Type) := {
  SelectImpl : bytes → CDBConnection Cfg H W →
               outcome (Error * option IDataBaseInfo * CDBConnection Cfg H W);
  DeleteImpl : list NKey → list NKey → CDBConnection Cfg H W →
               outcome (Error * list NKey * CDBConnection Cfg H W);
  SetImpl : NDbKValue → NDbKValue → CDBConnection Cfg H W →
            outcome (Error * NDbKValue * CDBConnection Cfg H W);
  GetImpl : NKey → NDbKValue → CDBConnection Cfg H W →
            outcome (Error * NDbKValue * CDBConnection Cfg H W);
  RenameImpl : NKey → bytes → CDBConnection Cfg H W → outcome (Error * CDBConnection Cfg H W);
  SetTTLImpl : NKey → Z → CDBConnection Cfg H W → outcome (Error * CDBConnection Cfg H W);
  QuitImpl : CDBConnection Cfg H W → outcome (Error * CDBConnection Cfg H W)
}.

Definition not_connected : Error := make_error_value (lit "Not connected") E_ERROR.
Definition invalid_arguments : Error := make_error_value (lit "Invalid input argument(s)") E_ERROR.

Section CDBConnection.
Context {Cfg H W : Type} `{ConnectionTraits Cfg H W} `{CDBImpl Cfg H W} `{CommonLib}.
Implicit Types c : CDBConnection Cfg H W.

(** The result also says what [*info] receives, when [info] is not null. *)
Definition Select (nm : bytes) c : outcome (Error * option IDataBaseInfo * CDBConnection Cfg H W) :=
  if negb (IsConnected c) then Val (not_connected, None, c)
  else
    '(err, linfo, c) ← SelectImpl nm c;
    if isError err then Val (err, None, c)
    else Val (no_error, linfo, notify (OnCurrentDataBaseChanged linfo) c).

(** [deleted_keys], [added_key] and [loaded_key] are [None] for a null pointer. *)
Definition Delete (keys : list NKey) (deleted_keys : option (list NKey)) c
    : outcome (Error * list NKey * CDBConnection Cfg H W) :=
  match deleted_keys with
  | None => Val (invalid_arguments, [], c)
  | Some deleted_keys =>
    if negb (IsConnected c) then Val (not_connected, deleted_keys, c)
    else
      '(err, deleted_keys, c) ← DeleteImpl keys deleted_keys c;
      if isError err then Val (err, deleted_keys, c)
      else Val (no_error, deleted_keys, notify (OnKeysRemoved deleted_keys) c)
  end.

Definition Set_ (key : NDbKValue) (added_key : option NDbKValue) c
    : outcome (Error * NDbKValue * CDBConnection Cfg H W) :=
  match added_key with
  | None => Val (invalid_arguments, NDbKValue_default, c)
  | Some added_key =>
    if negb (IsConnected c) then Val (not_connected, added_key, c)
    else
      '(err, added_key, c) ← SetImpl key added_key c;
      if isError err then Val (err, added_key, c)
      else Val (no_error, added_key, notify (OnKeyAdded added_key) c)
  end.

Definition Get (key : NKey) (loaded_key : option NDbKValue) c
    : outcome (Error * NDbKValue * CDBConnection Cfg H W) :=
  match loaded_key with
  | None => Val (invalid_arguments, NDbKValue_default, c)
  | Some loaded_key =>
    if negb (IsConnected c) then Val (not_connected, loaded_key, c)
    else
      '(err, loaded_key, c) ← GetImpl key loaded_key c;
      if isError err then Val (err, loaded_key, c)
      else Val (no_error, loaded_key, notify (OnKeyLoaded loaded_key) c)
  end.

Definition Rename (key : NKey) (new_key : bytes) c : outcome (Error * CDBConnection Cfg H W) :=
  if negb (IsConnected c) then Val (not_connected, c)
  else
    '(err, c) ← RenameImpl key new_key c;
    if isError err then Val (err, c)
    else Val (no_error, notify (OnKeyRenamed key new_key) c).

Definition SetTTL (key : NKey) (ttl : Z) c : outcome (Error * CDBConnection Cfg H W) :=
  if negb (IsConnected c) then Val (not_connected, c)
  else
    '(err, c) ← SetTTLImpl key ttl c;
    if isError err then Val (err, c)
    else Val (no_error, notify (OnKeyTTLChanged key ttl) c).

Definition Quit c : outcome (Error * CDBConnection Cfg H W) :=
  if negb (IsConnected c) then Val (not_connected, c)
  else
    '(err, c) ← QuitImpl c;
    if isError err then Val (err, c)
    else Val (no_error, notify OnQuited c).
End CDBConnection.

(** * Specification *)

(** The operations of [CDBConnection] as data, with the notification each one owes its client
    when it succeeds. *)
Inductive cdb_op :=
| OpSelect (nm : bytes)
| OpDelete (keys : list NKey)
| OpSet (key : NDbKValue)
| OpGet (key : NKey)
| OpRename (key : NKey) (new_key : bytes)
| OpSetTTL (key : NKey) (ttl : Z)
| OpQuit.

Section Spec.
Context {Cfg H W : Type} `{ConnectionTraits Cfg H W} `{CDBImpl Cfg H W} `{CommonLib}.
Implicit Types c : CDBConnection Cfg H W.

Definition run_op (op : cdb_op) c : outcome (Error * client_event * CDBConnection Cfg H W) :=
  match op with
  | OpSelect nm => '(e, i, c) ← Select nm c; Val (e, OnCurrentDataBaseChanged i, c)
  | OpDelete ks => '(e, d, c) ← Delete ks (Some []) c; Val (e, OnKeysRemoved d, c)
  | OpSet kv => '(e, a, c) ← Set_ kv (Some NDbKValue_default) c; Val (e, OnKeyAdded a, c)
  | OpGet k => '(e, l, c) ← Get k (Some NDbKValue_default) c; Val (e, OnKeyLoaded l, c)
  | OpRename k n => '(e, c) ← Rename k n c; Val (e, OnKeyRenamed k n, c)
  | OpSetTTL k t => '(e, c) ← SetTTL k t c; Val (e, OnKeyTTLChanged k t, c)
  | OpQuit => '(e, c) ← Quit c; Val (e, OnQuited, c)
  end.

(** A session: the operations in order; the results with the notification each would send. *)
Fixpoint run_ops (ops : list cdb_op) c : outcome (list (Error * client_event) * CDBConnection Cfg H W) :=
  match ops with
  | [] => Val ([], c)
  | op :: ops => '(e, ev, c) ← run_op op c;
                 '(rs, c) ← run_ops ops c;
                 Val ((e, ev) :: rs, c)
  end.

Definition succeeded (r : Error * client_event) : bool := negb (isError (fst r)).

(** The result of a call, when there is one, comes with a connection with the same log. *)
Definition keeps_log {A} (c : CDBConnection Cfg H W) (o : outcome (A * CDBConnection Cfg H W)) : Prop :=
  match o with Val (_, c') => client_ c' = client_ c | Fault _ => True end.

(** The database's own code does not talk to the client. *)
Class ImplSilent : Prop := {
  SelectImpl_silent n c : keeps_log c (SelectImpl n c);
  DeleteImpl_silent ks d c : keeps_log c (DeleteImpl ks d c);
  SetImpl_silent kv a c : keeps_log c (SetImpl kv a c);
  GetImpl_silent k l c : keeps_log c (GetImpl k l c);
  RenameImpl_silent k n c : keeps_log c (RenameImpl k n c);
  SetTTLImpl_silent k t c : keeps_log c (SetTTLImpl k t c);
  QuitImpl_silent c : keeps_log c (QuitImpl c)
}.

(** It returns on every input. *)
Class ImplReturns : Prop := {
  SelectImpl_returns n c : is_val (SelectImpl n c);
  DeleteImpl_returns ks d c : is_val (DeleteImpl ks d c);
  SetImpl_returns kv a c : is_val (SetImpl kv a c);
  GetImpl_returns k l c : is_val (GetImpl k l c);
  RenameImpl_returns k n c : is_val (RenameImpl k n c);
  SetTTLImpl_returns k t c : is_val (SetTTLImpl k t c);
  QuitImpl_returns c : is_val (QuitImpl c)
}.
End Spec.

(** * Lemmas *)

Lemma isError_not_connected `{CommonLaws} : isError not_connected = true.
Proof. apply isError_make_error. Qed.
Lemma isError_invalid_arguments `{CommonLaws} : isError invalid_arguments = true.
Proof. apply isError_make_error. Qed.
Lemma isError_no_error `{CommonLib} : isError no_error = false.
Proof. done. Qed.
#[export] Hint Rewrite @isError_not_connected @isError_invalid_arguments @isError_no_error : fasto.

Section Lemmas.
Context {Cfg H W : Type} `{ConnectionTraits Cfg H W} `{CDBImpl Cfg H W} `{CommonLaws}.
Implicit Types c : CDBConnection Cfg H W.

(** What an operation's result does to the client's log. *)
Definition log_after (c : CDBConnection Cfg H W) (e : Error) (ev : client_event)
    : option (list client_event) :=
  (λ log, log ++ (if isError e then [] else [ev])) <$> client_ c.

Lemma log_error c e ev : isError e = true → log_after c e ev = client_ c.
Proof.
  intros He. unfold log_after. rewrite He. destruct (client_ c); simpl; [|done].
  by rewrite app_nil_r.
Qed.

Lemma log_notify c c' ev :
  client_ c' = client_ c → client_ (notify ev c') = log_after c no_error ev.
Proof. intros Hc. unfold notify, log_after. simpl. by rewrite Hc. Qed.

(** An operation: the log of the connection it leaves. *)
Definition logs_op c (o : outcome (Error * client_event * CDBConnection Cfg H W)) : Prop :=
  match o with Val (e, ev, c') => client_ c' = log_after c e ev | Fault _ => True end.

(** An operation whose [Impl] call keeps the log, by the law [L]. *)
Ltac op_log L :=
  let E := fresh "E" in let He := fresh "He" in
  pose proof L as E; unfold keeps_log in E;
  match type of E with match ?x with Val _ => _ | Fault _ => _ end => destruct x as [[]|] end;
  [|done];
  repeat match goal with p : (_ * _)%type |- _ => destruct p end;
  cbn [mbind outcome_bind];
  destruct (isError _) eqn:He; cbn [mbind outcome_bind logs_op];
    [by rewrite log_error|by apply log_notify].

Lemma run_op_log `{!ImplSilent (Cfg := Cfg) (H := H) (W := W)} op c : logs_op c (run_op op c).
Proof.
  destruct op as [n|ks|kv|k|k n|k t|]; simpl;
    unfold Select, Delete, Set_, Get, Rename, SetTTL, Quit;
    (destruct (IsConnected c); cbn [negb];
      [|cbn [mbind outcome_bind logs_op]; by rewrite log_error by apply isError_not_connected]).
  - op_log (SelectImpl_silent n c).
  - op_log (DeleteImpl_silent ks [] c).
  - op_log (SetImpl_silent kv NDbKValue_default c).
  - op_log (GetImpl_silent k NDbKValue_default c).
  - op_log (RenameImpl_silent k n c).
  - op_log (SetTTLImpl_silent k t c).
  - op_log (QuitImpl_silent c).
Qed.

Lemma run_ops_log `{!ImplSilent (Cfg := Cfg) (H := H) (W := W)} ops c rs c' :
  run_ops ops c = Val (rs, c') →
  client_ c' = (λ log, log ++ List.map snd (List.filter succeeded rs)) <$> client_ c.
Proof.
  revert c rs. induction ops as [|op ops IH]; intros c rs; simpl.
  { intros [= <- <-]. destruct (client_ c); simpl; [by rewrite app_nil_r|done]. }
  pose proof (run_op_log op c) as Hop. destruct (run_op op c) as [[[e ev] c1]|]; [|done].
  simpl in *. destruct (run_ops ops c1) as [[rs1 c2]|] eqn:Hr; [|done]. simpl. intros [= <- <-].
  rewrite (IH _ _ Hr), Hop. unfold log_after, succeeded at 2. simpl.
  destruct (client_ c) as [log|]; simpl; [|done]. f_equal.
  destruct (isError e); simpl; by rewrite <- app_assoc.
Qed.

(** The operations return when the [Impl] functions do. *)
Ltac op_returns L :=
  let v := fresh "v" in let E := fresh "E" in
  unfold Select, Delete, Set_, Get, Rename, SetTTL, Quit;
  destruct (IsConnected _); cbn [negb]; [|by eexists];
  destruct L as [v E]; rewrite E; clear E;
  repeat match goal with p : (_ * _)%type |- _ => destruct p end;
  cbn [mbind outcome_bind]; destruct (isError _); by eexists.

Context `{!ImplReturns (Cfg := Cfg) (H := H) (W := W)}.

Lemma Select_returns n c : is_val (Select n c).
Proof. op_returns (SelectImpl_returns n c). Qed.
Lemma Delete_returns ks d c : is_val (Delete ks (Some d) c).
Proof. op_returns (DeleteImpl_returns ks d c). Qed.
Lemma Set_returns kv a c : is_val (Set_ kv (Some a) c).
Proof. op_returns (SetImpl_returns kv a c). Qed.
Lemma Get_returns k l c : is_val (Get k (Some l) c).
Proof. op_returns (GetImpl_returns k l c). Qed.
Lemma Rename_returns k n c : is_val (Rename k n c).
Proof. op_returns (RenameImpl_returns k n c). Qed.
Lemma SetTTL_returns k t c : is_val (SetTTL k t c).
Proof. op_returns (SetTTLImpl_returns k t c). Qed.
Lemma Quit_returns c : is_val (Quit c).
Proof. op_returns (QuitImpl_returns c). Qed.
End Lemmas.

#[export] Hint Resolve Select_returns Delete_returns Set_returns Get_returns Rename_returns
  SetTTL_returns Quit_returns : fasto.
