(* ===== verification/Handlers.v ===== *)
(** What the functions of the eight [internal/commands_api.cpp] files share: the state they run
    on, the ways they answer, and the bodies that are the same in several of them. *)
From Stdlib Require Import Ascii String ZArith Lia.
From stdpp Require Import base list.
From S2P Require Import Prelude Common Values Connection Commands.
Local Open Scope Z_scope.

(** The [DBConnection*] and the [FastoObject* out] of a handler. *)
Record hst (Cfg H W : Type) := mkHst {
  conn : CDBConnection Cfg H W;
  out : FastoObject
}.
Arguments mkHst {Cfg H W} _ _.
Arguments conn {Cfg H W} _.
Arguments out {Cfg H W} _.

Section Answers.
Context {Cfg H W : Type} `{ConnectionTraits Cfg H W} `{CommonLib}.
Implicit Types s : hst Cfg H W.

Definition with_conn s (c : CDBConnection Cfg H W) : hst Cfg H W := mkHst c (out s).

(** [out->AddChildren(new FastoObject(out, val, Delimiter()))] *)
Definition add_value (v : value) s : hst Cfg H W :=
  mkHst (conn s) (AddChildren (out s) (new_FastoObject v (Delimiter (conn s)))).

(** An array of strings, element by element, in a [FastoObjectArray]. *)
Definition add_strings (l : list bytes) s : hst Cfg H W :=
  mkHst (conn s)
    (AddChildren (out s) (new_FastoObjectArray (List.map VString l) (Delimiter (conn s)))).

Definition OK_value : value := VString (lit "OK").

(** [if (err && err->isError()) return err; ...; return common::Error();] *)
Definition unless_error (err : Error) (answer : hst Cfg H W → hst Cfg H W) s
    : outcome (Error * hst Cfg H W) :=
  if isError err then Val (err, s) else Val (no_error, answer s).

(** [if (!er) { ... } return er;] *)
Definition if_null_error (er : Error) (answer : hst Cfg H W → hst Cfg H W) s
    : outcome (Error * hst Cfg H W) :=
  match er with None => Val (er, answer s) | Some _ => Val (er, s) end.
End Answers.

(** * Shared bodies *)

Section Bodies.
Context {Cfg H W : Type} `{ConnectionTraits Cfg H W} `{CDBImpl Cfg H W} `{CommonLib}.

Definition set_body : handler (hst Cfg H W) := λ argc argv s,
  k ← aget_str argv 0;
  v ← aget_str argv 1;
  let kv := mkNDbKValue (new_NKey k) (Some (VString v)) in
  '(err, _, c) ← Set_ kv (Some NDbKValue_default) (conn s);
  unless_error err (add_value OK_value) (with_conn s c).

(** [val->deepCopy()] on the loaded value. *)
Definition answer_loaded (loaded : NDbKValue) (s : hst Cfg H W) : outcome (Error * hst Cfg H W) :=
  match nkv_value loaded with
  | None => Fault NullPointer
  | Some val => Val (no_error, add_value val s)
  end.

Definition get_body : handler (hst Cfg H W) := λ argc argv s,
  k ← aget_str argv 0;
  '(err, key_loaded, c) ← Get (new_NKey k) (Some NDbKValue_default) (conn s);
  if isError err then Val (err, with_conn s c) else answer_loaded key_loaded (with_conn s c).

Definition del_body : handler (hst Cfg H W) := λ argc argv s,
  ks ← aget_range argv 0 (Z.to_nat argc);
  '(err, deleted, c) ← Delete (List.map new_NKey ks) (Some []) (conn s);
  unless_error err (add_value (VUInteger (Z.of_nat (length deleted)))) (with_conn s c).

Definition rename_body : handler (hst Cfg H W) := λ argc argv s,
  k ← aget_str argv 0;
  n ← aget_str argv 1;
  '(err, c) ← Rename (new_NKey k) n (conn s);
  unless_error err (add_value OK_value) (with_conn s c).

Definition select_body : handler (hst Cfg H W) := λ argc argv s,
  n ← aget_str argv 0;
  '(err, _, c) ← Select n (conn s);
  unless_error err (add_value OK_value) (with_conn s c).

Definition quit_body : handler (hst Cfg H W) := λ argc argv s,
  '(err, c) ← Quit (conn s);
  unless_error err (add_value OK_value) (with_conn s c).

(** [SetTTL(key, ttl)] converts its argument to the 32-bit [ttl_t]. *)
Definition set_ttl_time_body : handler (hst Cfg H W) := λ argc argv s,
  k ← aget_str argv 0;
  t ← aget_str argv 1;
  '(err, c) ← SetTTL (new_NKey k) (i32 (FromString_time t)) (conn s);
  unless_error err (add_value OK_value) (with_conn s c).
End Bodies.

(** * Safety

    A handler stays within the words of the command line. *)

Section Safety.
Context {Cfg H W : Type} `{ConnectionTraits Cfg H W} `{CDBImpl Cfg H W} `{CommonLib}.
Implicit Types (h : handler (hst Cfg H W)) (s : hst Cfg H W).

(** [h] answers on every vector of [lo] to [hi] arguments that follow [k] other words. *)
Definition safe_handler (k lo hi : Z) h : Prop :=
  ∀ argc p s, argv_ok (argc + k) (ashift p (- k)) → lo <= argc <= hi → is_val (h argc p s).

(** [Get] leaves a value when it succeeds. *)
Class GetLoads : Prop := get_loads : ∀ k c e kv c',
  GetImpl k NDbKValue_default c = Val (e, kv, c') → isError e = false → is_Some (nkv_value kv).

Lemma argv_ok_shift k argc p :
  argv_ok (argc + k) (ashift p (- k)) → 0 <= k → 0 <= argc → argv_ok argc p.
Proof. unfold argv_ok. simpl. lia. Qed.

Lemma safe_weaken k lo hi lo' hi' h :
  safe_handler k lo hi h → lo <= lo' → hi' <= hi → safe_handler k lo' hi' h.
Proof. intros Hs ? ? argc p s Hp ?. apply Hs; [done|lia]. Qed.

Lemma unless_error_val e a s : is_val (unless_error e a s).
Proof. unfold unless_error. destruct (isError e); by eexists. Qed.

Lemma if_null_error_val e a s : is_val (if_null_error e a s).
Proof. unfold if_null_error. destruct e; by eexists. Qed.

Lemma arg_ok k lo hi argc p i :
  argv_ok (argc + k) (ashift p (- k)) → lo <= argc <= hi → 0 <= k → 0 <= i < lo →
  is_val (aget_str p i).
Proof. intros Hp ? ? ?. eapply aget_str_ok; [eapply argv_ok_shift; [done|lia..]|lia]. Qed.

Lemma range_ok k lo hi argc p :
  argv_ok (argc + k) (ashift p (- k)) → lo <= argc <= hi → 0 <= k → 0 <= lo →
  is_val (aget_range p 0 (Z.to_nat argc)).
Proof.
  intros Hp ? ? ?. eapply aget_range_ok; [eapply argv_ok_shift; [done|lia..]|lia|lia].
Qed.
End Safety.

#[export] Hint Resolve unless_error_val if_null_error_val : fasto.

(** Proves [safe_handler] of a body that reads [argv] at constant indices below [lo]. *)
Ltac arg_step :=
  match goal with
  | Hp : argv_ok _ _, Hr : _ <= _ <= _ |- context [aget_str ?p ?i] =>
    let x := fresh "x" in let E := fresh "E" in
    assert (is_val (aget_str p i)) as [x E] by (eapply arg_ok; [exact Hp|exact Hr|lia|lia]);
    rewrite E; clear E;
    cbn [mbind outcome_bind]
  | Hp : argv_ok _ ?q, Hr : _ <= _ <= _ |- context [aget_range ?p 0 (Z.to_nat ?n)] =>
    let x := fresh "x" in let E := fresh "E" in
    assert (is_val (aget_range p 0 (Z.to_nat n))) as [x E]
      by (eapply range_ok; [exact Hp|exact Hr|lia|lia]);
    rewrite E; clear E;
    cbn [mbind outcome_bind]
  end.

Ltac call_step :=
  match goal with
  | |- is_val (mbind _ ?o) =>
    let v := fresh "v" in let E := fresh "E" in
    assert (is_val o) as [v E] by (auto with fasto); rewrite E; clear E;
    repeat match goal with q : (_ * _)%type |- _ => destruct q end;
    cbn [mbind outcome_bind]
  end.

Ltac solve_safe :=
  let argc := fresh "argc" in let p := fresh "p" in let s := fresh "s" in
  let Hp := fresh "Hp" in let Hr := fresh "Hr" in
  intros argc p s Hp Hr;
  repeat arg_step;
  repeat call_step;
  repeat (match goal with
          | |- context [match ?x with (_, _) => _ end] => destruct x
          end; cbn beta iota);
  auto with fasto.

Section BodySafety.
Context {Cfg H W : Type} `{ConnectionTraits Cfg H W} `{CDBImpl Cfg H W} `{CommonLib}.
Context `{!ImplReturns (Cfg := Cfg) (H := H) (W := W)}.
Variable k hi : Z.
Hypothesis Hk : 0 <= k.

Lemma set_body_safe : safe_handler k 2 hi set_body.
Proof. unfold set_body. solve_safe. Qed.

Lemma del_body_safe : safe_handler k 0 hi del_body.
Proof. unfold del_body. solve_safe. Qed.

Lemma rename_body_safe : safe_handler k 2 hi rename_body.
Proof. unfold rename_body. solve_safe. Qed.

Lemma select_body_safe : safe_handler k 1 hi select_body.
Proof. unfold select_body. solve_safe. Qed.

Lemma quit_body_safe : safe_handler k 0 hi quit_body.
Proof. unfold quit_body. solve_safe. Qed.

Lemma set_ttl_time_body_safe : safe_handler k 2 hi set_ttl_time_body.
Proof. unfold set_ttl_time_body. solve_safe. Qed.

Lemma get_body_safe `{!CommonLaws, !GetLoads} : safe_handler k 1 hi get_body.
Proof.
  unfold get_body. intros argc p s Hp Hr. arg_step. unfold Get.
  destruct (IsConnected (conn s)); cbn [negb].
  - destruct (GetImpl_returns (new_NKey x) NDbKValue_default (conn s)) as [[[e kv] c] Hg].
    rewrite Hg. cbn [mbind outcome_bind]. destruct (isError e) eqn:He; cbn [mbind outcome_bind].
    + rewrite He. by eexists.
    + destruct (get_loads _ _ _ _ _ Hg He) as [v Hv]. unfold answer_loaded. simpl. rewrite Hv.
      by eexists.
  - cbn [mbind outcome_bind]. rewrite isError_not_connected. by eexists.
Qed.
End BodySafety.

#[export] Hint Resolve set_body_safe get_body_safe del_body_safe rename_body_safe
  select_body_safe quit_body_safe set_ttl_time_body_safe : fasto.

(** * Safety of a table

    [run] is what the function pointers of the table point to. *)

Section TableSafety.
Context {Cfg H W : Type} `{ConnectionTraits Cfg H W} `{CommonLaws} {F : Type}.
Variable run : F → handler (hst Cfg H W).
Implicit Types (s : hst Cfg H W) (args pre : list bytes).

Definition table_safe (table : list (CommandHolder F)) : Prop :=
  ∀ cmd, In cmd table →
    safe_handler (Z.of_nat (name_words cmd)) (MinArgumentsCount (info cmd))
      (MaxArgumentsCount (info cmd)) (run (func_ cmd)).

Lemma vec_drop_argv_ok pre args k :
  (k <= length args)%nat →
  argv_ok (argc_of args - Z.of_nat k + Z.of_nat k)
    (ashift (vec (pre ++ take k args) (drop k args)) (- Z.of_nat k)).
Proof.
  intros Hk. rewrite <- ashift_vec by done. rewrite ashift_ashift.
  replace (Z.of_nat k + - Z.of_nat k) with 0 by lia. rewrite ashift_0.
  replace (argc_of args - Z.of_nat k + Z.of_nat k) with (argc_of args) by lia.
  apply vec_argv_ok.
Qed.

(** No command line makes the dispatch of a safe table leave the words of the line. *)
Lemma Execute_safe table pre args s :
  forallb holder_wf table = true → table_safe table → argc_of args <= INT_MAX →
  is_val (Execute run table (argc_of args) (vec pre args) s).
Proof.
  intros Hwf Hsafe Hmax. rewrite Execute_spec by done. unfold execute_spec.
  destruct (List.find _ table) as [cmd|] eqn:Hf; [|by eexists].
  apply find_some in Hf as [Hin Hn]. unfold names_line in Hn.
  apply andb_true_iff in Hn as [Hlen _]. apply Nat.leb_le in Hlen.
  destruct (in_range _ _) eqn:Hr; [|by eexists]. unfold in_range in Hr.
  apply (Hsafe cmd Hin); [by apply vec_drop_argv_ok|lia].
Qed.
End TableSafety.

(** A table is safe when each of its entries requires at least the arguments its function reads:
    [fn_min] is what the function reads and [fn_words] the length of the name it assumes. *)
Lemma table_safe_by {Cfg H W F} (run : F → handler (hst Cfg H W)) (fn_min : F → Z)
    (fn_words : F → Z → bool) (table : list (CommandHolder F)) :
  (∀ f k hi, 0 <= k → fn_words f k = true → safe_handler k (fn_min f) hi (run f)) →
  forallb (λ cmd, (fn_min (func_ cmd) <=? required_arguments_count (info cmd))
                  && fn_words (func_ cmd) (Z.of_nat (name_words cmd))) table = true →
  table_safe run table.
Proof.
  intros Hrun Hall cmd Hin. rewrite forallb_forall in Hall.
  specialize (Hall cmd Hin). apply andb_true_iff in Hall as [Hmin Hw].
  eapply safe_weaken; [apply Hrun; [lia|done]| |reflexivity].
  unfold MinArgumentsCount. lia.
Qed.
