(* ===== verification/KvTables.v ===== *)
(** The command tables of the embedded stores: [core/leveldb], [core/lmdb], [core/rocksdb],
    [core/unqlite] and [core/upscaledb], each in [internal/commands_api.h]. *)
From Stdlib Require Import Ascii String ZArith.
From stdpp Require Import base list.
From S2P Require Import Prelude Common Commands.
Local Open Scope Z_scope.

Module Leveldb.

(** The functions [leveldb/internal/commands_api.h] declares. *)
Inductive fn :=
  | f_select
  | f_set
  | f_get
  | f_del
  | f_rename
  | f_set_ttl
  | f_info
  | f_keys
  | f_dbkcount
  | f_help
  | f_flushdb
  | f_quit.

Definition leveldbCommands : list (CommandHolder fn) := [
    new_CommandHolder "SET" "<key> <value>"
      "Set the value of a key."
      UNDEFINED_SINCE UNDEFINED_EXAMPLE_STR 2 0 f_set;
    new_CommandHolder "GET" "<key>"
      "Get the value of a key."
      UNDEFINED_SINCE UNDEFINED_EXAMPLE_STR 1 0 f_get;
    new_CommandHolder "DEL" "<key> [key ...]"
      "Delete key."
      UNDEFINED_SINCE UNDEFINED_EXAMPLE_STR 1 INFINITE_COMMAND_ARGS f_del;
    new_CommandHolder "RENAME" "<key> <newkey>"
      "Rename a key"
      UNDEFINED_SINCE UNDEFINED_EXAMPLE_STR 2 0 f_rename;
    new_CommandHolder "KEYS" "<key_start> <key_end> <limit>"
      "Find all keys matching the given limits."
      UNDEFINED_SINCE UNDEFINED_EXAMPLE_STR 3 0 f_keys;
    new_CommandHolder "INFO" "<args>"
      "These command return database information."
      UNDEFINED_SINCE UNDEFINED_EXAMPLE_STR 1 0 f_info;
    new_CommandHolder "QUIT" "-"
      "Close the connection"
      UNDEFINED_SINCE UNDEFINED_EXAMPLE_STR 0 0 f_quit;
    new_CommandHolder "DBKCOUNT" "-"
      "Return the number of keys in the selected database"
      UNDEFINED_SINCE UNDEFINED_EXAMPLE_STR 0 0 f_dbkcount;
    new_CommandHolder "HELP" "[command]"
      "Return how to use command"
      UNDEFINED_SINCE UNDEFINED_EXAMPLE_STR 0 1 f_help;
    new_CommandHolder "FLUSHDB" "-"
      "Remove all keys from the current database"
      UNDEFINED_SINCE UNDEFINED_EXAMPLE_STR 0 1 f_flushdb].

End Leveldb.

Module Lmdb.

(** The functions [lmdb/internal/commands_api.h] declares. *)
Inductive fn :=
  | f_select
  | f_set
  | f_get
  | f_del
  | f_rename
  | f_set_ttl
  | f_info
  | f_keys
  | f_dbkcount
  | f_help
  | f_flushdb
  | f_quit.

Definition lmdbCommands : list (CommandHolder fn) := [
    new_CommandHolder "SET" "<key> <value>"
      "Set the value of a key."
      UNDEFINED_SINCE UNDEFINED_EXAMPLE_STR 2 0 f_set;
    new_CommandHolder "GET" "<key>"
      "Get the value of a key."
      UNDEFINED_SINCE UNDEFINED_EXAMPLE_STR 1 0 f_get;
    new_CommandHolder "DEL" "<key> [key ...]"
      "Delete key."
      UNDEFINED_SINCE UNDEFINED_EXAMPLE_STR 1 INFINITE_COMMAND_ARGS f_del;
    new_CommandHolder "RENAME" "<key> <newkey>"
      "Rename a key"
      UNDEFINED_SINCE UNDEFINED_EXAMPLE_STR 2 0 f_rename;
    new_CommandHolder "KEYS" "<key_start> <key_end> <limit>"
      "Find all keys matching the given limits."
      UNDEFINED_SINCE UNDEFINED_EXAMPLE_STR 3 0 f_keys;
    new_CommandHolder "INFO" "<args>"
      "These command return database information."
      UNDEFINED_SINCE UNDEFINED_EXAMPLE_STR 1 0 f_info;
    new_CommandHolder "QUIT" "-"
      "Close the connection"
      UNDEFINED_SINCE UNDEFINED_EXAMPLE_STR 0 0 f_quit;
    new_CommandHolder "DBKCOUNT" "-"
      "Return the number of keys in the selected database"
      UNDEFINED_SINCE UNDEFINED_EXAMPLE_STR 0 0 f_dbkcount;
    new_CommandHolder "HELP" "[command]"
      "Return how to use command"
      UNDEFINED_SINCE UNDEFINED_EXAMPLE_STR 0 1 f_help;
    new_CommandHolder "FLUSHDB" "-"
      "Remove all keys from the current database"
      UNDEFINED_SINCE UNDEFINED_EXAMPLE_STR 0 1 f_flushdb].

End Lmdb.

Module Rocksdb.

(** The functions [rocksdb/internal/commands_api.h] declares. *)
Inductive fn :=
  | f_select
  | f_set
  | f_get
  | f_del
  | f_rename
  | f_set_ttl
  | f_info
  | f_mget
  | f_merge
  | f_keys
  | f_dbkcount
  | f_help
  | f_flushdb
  | f_quit.

Definition rocksdbCommands : list (CommandHolder fn) := [
    new_CommandHolder "SET" "<key> <value>"
      "Set the value of a key."
      UNDEFINED_SINCE UNDEFINED_EXAMPLE_STR 2 0 f_set;
    new_CommandHolder "GET" "<key>"
      "Get the value of a key."
      UNDEFINED_SINCE UNDEFINED_EXAMPLE_STR 1 0 f_get;
    new_CommandHolder "MGET" "<key> [key ...]"
      "Get the value of a key."
      UNDEFINED_SINCE UNDEFINED_EXAMPLE_STR 1 INFINITE_COMMAND_ARGS f_mget;
    new_CommandHolder "MERGE" "<key> <value>"
      (String.concat EmptyString ["Merge the database entry for "%string; dq; "key"%string; dq; " with "%string; dq; "value"%string; dq])
      UNDEFINED_SINCE UNDEFINED_EXAMPLE_STR 2 0 f_merge;
    new_CommandHolder "DEL" "<key> [key ...]"
      "Delete key."
      UNDEFINED_SINCE UNDEFINED_EXAMPLE_STR 1 INFINITE_COMMAND_ARGS f_del;
    new_CommandHolder "RENAME" "<key> <newkey>"
      "Rename a key"
      UNDEFINED_SINCE UNDEFINED_EXAMPLE_STR 2 0 f_rename;
    new_CommandHolder "KEYS" "<key_start> <key_end> <limit>"
      "Find all keys matching the given limits."
      UNDEFINED_SINCE UNDEFINED_EXAMPLE_STR 3 0 f_keys;
    new_CommandHolder "INFO" "<args>"
      "These command return database information."
      UNDEFINED_SINCE UNDEFINED_EXAMPLE_STR 1 0 f_info;
    new_CommandHolder "QUIT" "-"
      "Close the connection"
      UNDEFINED_SINCE UNDEFINED_EXAMPLE_STR 0 0 f_quit;
    new_CommandHolder "DBKCOUNT" "-"
      "Return the number of keys in the selected database"
      UNDEFINED_SINCE UNDEFINED_EXAMPLE_STR 0 0 f_dbkcount;
    new_CommandHolder "HELP" "[command]"
      "Return how to use command"
      UNDEFINED_SINCE UNDEFINED_EXAMPLE_STR 0 1 f_help;
    new_CommandHolder "FLUSHDB" "-"
      "Remove all keys from the current database"
      UNDEFINED_SINCE UNDEFINED_EXAMPLE_STR 0 1 f_flushdb].

End Rocksdb.

Module Unqlite.

(** The functions [unqlite/internal/commands_api.h] declares. *)
Inductive fn :=
  | f_select
  | f_set
  | f_get
  | f_del
  | f_rename
  | f_set_ttl
  | f_info
  | f_keys
  | f_dbkcount
  | f_help
  | f_flushdb
  | f_quit.

Definition unqliteCommands : list (CommandHolder fn) := [
    new_CommandHolder "SET" "<key> <value>"
      "Set the value of a key."
      UNDEFINED_SINCE UNDEFINED_EXAMPLE_STR 2 0 f_set;
    new_CommandHolder "GET" "<key>"
      "Get the value of a key."
      UNDEFINED_SINCE UNDEFINED_EXAMPLE_STR 1 0 f_get;
    new_CommandHolder "DEL" "<key> [key ...]"
      "Delete key."
      UNDEFINED_SINCE UNDEFINED_EXAMPLE_STR 1 INFINITE_COMMAND_ARGS f_del;
    new_CommandHolder "RENAME" "<key> <newkey>"
      "Rename a key"
      UNDEFINED_SINCE UNDEFINED_EXAMPLE_STR 2 0 f_rename;
    new_CommandHolder "KEYS" "<key_start> <key_end> <limit>"
      "Find all keys matching the given limits."
      UNDEFINED_SINCE UNDEFINED_EXAMPLE_STR 3 0 f_keys;
    new_CommandHolder "INFO" "<args>"
      "These command return database information."
      UNDEFINED_SINCE UNDEFINED_EXAMPLE_STR 1 0 f_info;
    new_CommandHolder "QUIT" "-"
      "Close the connection"
      UNDEFINED_SINCE UNDEFINED_EXAMPLE_STR 0 0 f_quit;
    new_CommandHolder "DBKCOUNT" "-"
      "Return the number of keys in the selected database"
      UNDEFINED_SINCE UNDEFINED_EXAMPLE_STR 0 0 f_dbkcount;
    new_CommandHolder "HELP" "[command]"
      "Return how to use command"
      UNDEFINED_SINCE UNDEFINED_EXAMPLE_STR 0 1 f_help;
    new_CommandHolder "FLUSHDB" "-"
      "Remove all keys from the current database"
      UNDEFINED_SINCE UNDEFINED_EXAMPLE_STR 0 1 f_flushdb].

End Unqlite.

Module Upscaledb.

(** The functions [upscaledb/internal/commands_api.h] declares. *)
Inductive fn :=
  | f_select
  | f_set
  | f_get
  | f_del
  | f_rename
  | f_set_ttl
  | f_info
  | f_keys
  | f_dbkcount
  | f_help
  | f_flushdb
  | f_quit.

Definition upscaledbCommands : list (CommandHolder fn) := [
    new_CommandHolder "SET" "<key> <value>"
      "Set the value of a key."
      UNDEFINED_SINCE UNDEFINED_EXAMPLE_STR 2 0 f_set;
    new_CommandHolder "GET" "<key>"
      "Get the value of a key."
      UNDEFINED_SINCE UNDEFINED_EXAMPLE_STR 1 0 f_get;
    new_CommandHolder "DEL" "<key> [key ...]"
      "Delete key."
      UNDEFINED_SINCE UNDEFINED_EXAMPLE_STR 1 INFINITE_COMMAND_ARGS f_del;
    new_CommandHolder "RENAME" "<key> <newkey>"
      "Rename a key"
      UNDEFINED_SINCE UNDEFINED_EXAMPLE_STR 2 0 f_rename;
    new_CommandHolder "KEYS" "<key_start> <key_end> <limit>"
      "Find all keys matching the given limits."
      UNDEFINED_SINCE UNDEFINED_EXAMPLE_STR 3 0 f_keys;
    new_CommandHolder "INFO" "<args>"
      "These command return database information."
      UNDEFINED_SINCE UNDEFINED_EXAMPLE_STR 1 0 f_info;
    new_CommandHolder "QUIT" "-"
      "Close the connection"
      UNDEFINED_SINCE UNDEFINED_EXAMPLE_STR 0 0 f_quit;
    new_CommandHolder "DBKCOUNT" "-"
      "Return the number of keys in the selected database"
      UNDEFINED_SINCE UNDEFINED_EXAMPLE_STR 0 0 f_dbkcount;
    new_CommandHolder "HELP" "[command]"
      "Return how to use command"
      UNDEFINED_SINCE UNDEFINED_EXAMPLE_STR 0 1 f_help;
    new_CommandHolder "FLUSHDB" "-"
      "Remove all keys from the current database"
      UNDEFINED_SINCE UNDEFINED_EXAMPLE_STR 0 1 f_flushdb].

End Upscaledb.
