(* ===== verification/RemoteTables.v ===== *)
(** The command tables of [core/memcached/internal/commands_api.h] and [core/ssdb/internal/commands_api.h]. *)
From Stdlib Require Import Ascii String ZArith.
From stdpp Require Import base list.
From S2P Require Import Prelude Common Commands.
Local Open Scope Z_scope.

Module Memcached.

(** The functions [memcached/internal/commands_api.h] declares. *)
Inductive fn :=
  | f_select
  | f_set
  | f_get
  | f_del
  | f_rename
  | f_set_ttl
  | f_keys
  | f_stats
  | f_add
  | f_replace
  | f_append
  | f_prepend
  | f_incr
  | f_decr
  | f_flushdb
  | f_version_server
  | f_dbkcount
  | f_help
  | f_expire
  | f_quit.

(** Entries VERSION to QUIT. *)
Definition memcachedCommands_01 : list (CommandHolder fn) := [
    new_CommandHolder "VERSION" "-"
      "Return the Memcached server version."
      UNDEFINED_SINCE UNDEFINED_EXAMPLE_STR 0 0 f_version_server;
    new_CommandHolder "KEYS" "<key_start> <key_end> <limit>"
      "Find all keys matching the given limits."
      UNDEFINED_SINCE UNDEFINED_EXAMPLE_STR 3 0 f_keys;
    new_CommandHolder "STATS" "[args]"
      "These command can return various stats that we will explain."
      UNDEFINED_SINCE UNDEFINED_EXAMPLE_STR 0 1 f_stats;
    new_CommandHolder "FLUSHDB" "[time]"
      (String.concat EmptyString ["Flush the server key/value pair (invalidating them) after a optional [<time>] period."%string; nl; "It always return OK"%string])
      UNDEFINED_SINCE UNDEFINED_EXAMPLE_STR 0 1 f_flushdb;
    new_CommandHolder "DEL" "<key> [key ...]"
      "Delete key."
      UNDEFINED_SINCE UNDEFINED_EXAMPLE_STR 1 INFINITE_COMMAND_ARGS f_del;
    new_CommandHolder "INCR" "<key> <value>"
      (String.concat EmptyString ["Increment value associated with key in Memcached, item must exist, increment command will not create it."%string; nl; "The limit of increment is the 64 bit mark."%string])
      UNDEFINED_SINCE UNDEFINED_EXAMPLE_STR 2 0 f_incr;
    new_CommandHolder "DECR" "<key> <value>"
      "Decrement value associated with key in Memcached, item must exist, decrement command will not create it."
      UNDEFINED_SINCE UNDEFINED_EXAMPLE_STR 2 0 f_decr;
    new_CommandHolder "PREPEND" "<key> <flags> <exptime> <bytes>"
      (String.concat EmptyString ["Add value to an existing key before existing data."%string; nl; "Prepend does not take <flags> or <exptime> parameters but you must provide them!"%string])
      UNDEFINED_SINCE UNDEFINED_EXAMPLE_STR 4 0 f_prepend;
    new_CommandHolder "APPEND" "<key> <flags> <exptime> <value>"
      (String.concat EmptyString ["Add value to an existing key after existing data."%string; nl; "Append does not take <flags> or <exptime> parameters but you must provide them!"%string])
      UNDEFINED_SINCE UNDEFINED_EXAMPLE_STR 4 0 f_append;
    new_CommandHolder "REPLACE" "<key> <flags> <exptime> <value>"
      "Store key/value pair in Memcached, but only if the server already hold data for this key."
      UNDEFINED_SINCE UNDEFINED_EXAMPLE_STR 4 0 f_replace;
    new_CommandHolder "ADD" "<key> <flags> <exptime> <value>"
      "Store key/value pair in Memcached, but only if the server doesn't already hold data for this key."
      UNDEFINED_SINCE UNDEFINED_EXAMPLE_STR 4 0 f_add;
    new_CommandHolder "SET" "<key> <flags> <exptime> <value>"
      "Set the string value of a key."
      UNDEFINED_SINCE UNDEFINED_EXAMPLE_STR 4 0 f_set;
    new_CommandHolder "GET" "<key>"
      "Get the value of a key."
      UNDEFINED_SINCE UNDEFINED_EXAMPLE_STR 1 0 f_get;
    new_CommandHolder "RENAME" "<key> <newkey>"
      "Rename a key"
      UNDEFINED_SINCE UNDEFINED_EXAMPLE_STR 2 0 f_rename;
    new_CommandHolder "QUIT" "-"
      "Close the connection"
      UNDEFINED_SINCE UNDEFINED_EXAMPLE_STR 0 0 f_quit].

(** Entries DBKCOUNT to EXPIRE. *)
Definition memcachedCommands_02 : list (CommandHolder fn) := [
    new_CommandHolder "DBKCOUNT" "-"
      "Return the number of keys in the selected database"
      UNDEFINED_SINCE UNDEFINED_EXAMPLE_STR 0 0 f_dbkcount;
    new_CommandHolder "HELP" "[command]"
      "Return how to use command"
      UNDEFINED_SINCE UNDEFINED_EXAMPLE_STR 0 1 f_help;
    new_CommandHolder "EXPIRE" "<key> <exptime>"
      "Set a key's time to live in seconds"
      UNDEFINED_SINCE UNDEFINED_EXAMPLE_STR 2 0 f_expire].

Definition memcachedCommands : list (CommandHolder fn) :=
  memcachedCommands_01 ++ memcachedCommands_02.

End Memcached.

Local Open Scope Z_scope.

Module Ssdb.

(** The functions [ssdb/internal/commands_api.h] declares. *)
Inductive fn :=
  | f_select
  | f_set
  | f_get
  | f_del
  | f_rename
  | f_set_ttl
  | f_info
  | f_auth
  | f_setx
  | f_incr
  | f_keys
  | f_scan
  | f_rscan
  | f_multi_get
  | f_multi_set
  | f_multi_del
  | f_hget
  | f_hgetall
  | f_hset
  | f_hdel
  | f_hincr
  | f_hsize
  | f_hclear
  | f_hkeys
  | f_hscan
  | f_hrscan
  | f_multi_hget
  | f_multi_hset
  | f_zget
  | f_zset
  | f_zdel
  | f_zincr
  | f_zsize
  | f_zclear
  | f_zrank
  | f_zrrank
  | f_zrange
  | f_zrrange
  | f_zkeys
  | f_zscan
  | f_zrscan
  | f_multi_zget
  | f_multi_zset
  | f_multi_zdel
  | f_qpush
  | f_qpop
  | f_qslice
  | f_qclear
  | f_dbsize
  | f_dbkcount
  | f_help
  | f_flushdb
  | f_quit.

(** Entries AUTH to HDEL. *)
Definition ssdbCommands_01 : list (CommandHolder fn) := [
    new_CommandHolder "AUTH" "<password>"
      "Authenticate to the server"
      UNDEFINED_SINCE UNDEFINED_EXAMPLE_STR 1 0 f_auth;
    new_CommandHolder "SET" "<key> <value>"
      "Set the value of the key."
      UNDEFINED_SINCE UNDEFINED_EXAMPLE_STR 2 0 f_set;
    new_CommandHolder "GET" "<key>"
      "Get the value related to the specified key."
      UNDEFINED_SINCE UNDEFINED_EXAMPLE_STR 1 0 f_get;
    new_CommandHolder "RENAME" "<key> <newkey>"
      "Rename a key"
      UNDEFINED_SINCE UNDEFINED_EXAMPLE_STR 2 0 f_rename;
    new_CommandHolder "SETX" "<key> <value> <ttl>"
      "Set the value of the key, with a time to live."
      UNDEFINED_SINCE UNDEFINED_EXAMPLE_STR 3 0 f_setx;
    new_CommandHolder "DEL" "<key> [key ...]"
      "Delete key."
      UNDEFINED_SINCE UNDEFINED_EXAMPLE_STR 1 INFINITE_COMMAND_ARGS f_del;
    new_CommandHolder "INCR" "<key> [num]"
      (String.concat EmptyString ["Increment the number stored at key by num."%string; nl; "The num argument could be a negative integer."%string; nl; "The old number is first converted to an integer before increment, assuming it was stored as literal integer."%string])
      UNDEFINED_SINCE UNDEFINED_EXAMPLE_STR 1 1 f_incr;
    new_CommandHolder "KEYS" "<key_start> <key_end> <limit>"
      "List keys in range (key_start, key_end]."
      UNDEFINED_SINCE UNDEFINED_EXAMPLE_STR 3 0 f_keys;
    new_CommandHolder "SCAN" "<key_start> <key_end> <limit>"
      "List keys in range (key_start, key_end]."
      UNDEFINED_SINCE UNDEFINED_EXAMPLE_STR 3 0 f_scan;
    new_CommandHolder "RSCAN" "<key_start> <key_end> <limit>"
      "List keys in range (key_start, key_end]."
      UNDEFINED_SINCE UNDEFINED_EXAMPLE_STR 3 0 f_rscan;
    new_CommandHolder "MULTI_GET" "<keys> [keys ...]"
      "Get the values related to the specified multiple keys"
      UNDEFINED_SINCE UNDEFINED_EXAMPLE_STR 1 0 f_multi_get;
    new_CommandHolder "MULTI_SET" "<key> <value> [key value ...]"
      "Set multiple key-value pairs(kvs) in one method call."
      UNDEFINED_SINCE UNDEFINED_EXAMPLE_STR 2 INFINITE_COMMAND_ARGS f_multi_set;
    new_CommandHolder "MULTI_DEL" "<keys> [keys ...]"
      "Delete specified multiple keys."
      UNDEFINED_SINCE UNDEFINED_EXAMPLE_STR 1 INFINITE_COMMAND_ARGS f_multi_del;
    new_CommandHolder "HSET" "<name> <key> <value>"
      "Set the string value in argument as value of the key of a hashmap."
      UNDEFINED_SINCE UNDEFINED_EXAMPLE_STR 3 0 f_hset;
    new_CommandHolder "HGET" "<name> <key>"
      "Get the value related to the specified key of a hashmap"
      UNDEFINED_SINCE UNDEFINED_EXAMPLE_STR 2 0 f_hget;
    new_CommandHolder "HDEL" "<name> <key>"
      "Delete specified key of a hashmap."
      UNDEFINED_SINCE UNDEFINED_EXAMPLE_STR 2 0 f_hdel].

(** Entries HINCR to ZCLEAR. *)
Definition ssdbCommands_02 : list (CommandHolder fn) := [
    new_CommandHolder "HINCR" "<name> <key> <num>"
      (String.concat EmptyString ["Increment the number stored at key in a hashmap by num."%string; nl; "The num argument could be a negative integer."%string; nl; "The old number is first converted to an integer before increment, assuming it was stored as literal integer."%string])
      UNDEFINED_SINCE UNDEFINED_EXAMPLE_STR 3 0 f_hincr;
    new_CommandHolder "HSIZE" "<name>"
      "Return the number of pairs of a hashmap."
      UNDEFINED_SINCE UNDEFINED_EXAMPLE_STR 1 0 f_hsize;
    new_CommandHolder "HCLEAR" "<name>"
      "Delete all keys in a hashmap."
      UNDEFINED_SINCE UNDEFINED_EXAMPLE_STR 1 0 f_hclear;
    new_CommandHolder "HKEYS" "<name> <key_start> <key_end> <limit>"
      "List keys of a hashmap in range (key_start, key_end]."
      UNDEFINED_SINCE UNDEFINED_EXAMPLE_STR 4 0 f_hkeys;
    new_CommandHolder "HGETALL" "<name>"
      "Returns the whole hash, as an array of strings indexed by strings."
      UNDEFINED_SINCE UNDEFINED_EXAMPLE_STR 1 0 f_hgetall;
    new_CommandHolder "HSCAN" "<name> <key_start> <key_end> <limit>"
      "List key-value pairs of a hashmap with keys in range (key_start, key_end]."
      UNDEFINED_SINCE UNDEFINED_EXAMPLE_STR 4 0 f_hscan;
    new_CommandHolder "HRSCAN" "<name> <key_start> <key_end> <limit>"
      "List key-value pairs of a hashmap with keys in range (key_start, key_end], in reverse order."
      UNDEFINED_SINCE UNDEFINED_EXAMPLE_STR 4 0 f_hrscan;
    new_CommandHolder "MULTI_HGET" "<name> <keys>"
      "Get the values related to the specified multiple keys of a hashmap."
      UNDEFINED_SINCE UNDEFINED_EXAMPLE_STR 2 0 f_multi_hget;
    new_CommandHolder "MULTI_HSET" "<name> <key> <value> [key value ...]"
      "Set multiple key-value pairs(kvs) of a hashmap in one method call."
      UNDEFINED_SINCE UNDEFINED_EXAMPLE_STR 3 INFINITE_COMMAND_ARGS f_multi_hset;
    new_CommandHolder "ZSET" "<name> <key> <score>"
      "Set the score of the key of a zset."
      UNDEFINED_SINCE UNDEFINED_EXAMPLE_STR 4 0 f_zset;
    new_CommandHolder "ZGET" "<name> <key>"
      "Get the score related to the specified key of a zset"
      UNDEFINED_SINCE UNDEFINED_EXAMPLE_STR 2 0 f_zget;
    new_CommandHolder "ZDEL" "<name> <key>"
      "Delete specified key of a zset."
      UNDEFINED_SINCE UNDEFINED_EXAMPLE_STR 2 0 f_zdel;
    new_CommandHolder "ZINCR" "<name> <key> <num>"
      (String.concat EmptyString ["Increment the number stored at key in a zset by num."%string; nl; "The num argument could be a negative integer."%string; nl; "The old number is first converted to an integer before increment, assuming it was stored as literal integer."%string])
      UNDEFINED_SINCE UNDEFINED_EXAMPLE_STR 3 0 f_zincr;
    new_CommandHolder "ZSIZE" "<name>"
      "Return the number of pairs of a zset."
      UNDEFINED_SINCE UNDEFINED_EXAMPLE_STR 1 0 f_zsize;
    new_CommandHolder "ZCLEAR" "<name>"
      "Delete all keys in a zset."
      UNDEFINED_SINCE UNDEFINED_EXAMPLE_STR 1 0 f_zclear].

(** Entries ZRANK to QSLICE. *)
Definition ssdbCommands_03 : list (CommandHolder fn) := [
    new_CommandHolder "ZRANK" "<name> <key>"
      (String.concat EmptyString ["Returns the rank(index) of a given key in the specified sorted set, starting at 0 for the item with the smallest score."%string; nl; "zrrank starts at 0 for the item with the largest score."%string])
      UNDEFINED_SINCE UNDEFINED_EXAMPLE_STR 2 0 f_zrank;
    new_CommandHolder "ZRRANK" "<name> <key>"
      (String.concat EmptyString ["Returns the rank(index) of a given key in the specified sorted set, starting at 0 for the item with the smallest score."%string; nl; "zrrank starts at 0 for the item with the largest score."%string])
      UNDEFINED_SINCE UNDEFINED_EXAMPLE_STR 2 0 f_zrrank;
    new_CommandHolder "ZRANGE" "<name> <offset> <limit>"
      "Returns a range of key-score pairs by index range [offset, offset + limit). Zrrange iterates in reverse order."
      UNDEFINED_SINCE UNDEFINED_EXAMPLE_STR 3 0 f_zrange;
    new_CommandHolder "ZRRANGE" "<name> <offset> <limit>"
      "Returns a range of key-score pairs by index range [offset, offset + limit). Zrrange iterates in reverse order."
      UNDEFINED_SINCE UNDEFINED_EXAMPLE_STR 3 0 f_zrrange;
    new_CommandHolder "ZKEYS" "<name> <key_start> <score_start> <score_end> <limit>"
      "List keys in a zset."
      UNDEFINED_SINCE UNDEFINED_EXAMPLE_STR 4 0 f_zkeys;
    new_CommandHolder "ZSCAN" "<name> <key_start> <score_start> <score_end> <limit>"
      (String.concat EmptyString ["List key-score pairs in a zset, where key-score in range (key_start+score_start, score_end]."%string; nl; "If key_start is empty, keys with a score greater than or equal to score_start will be returned."%string; nl; "If key_start is not empty, keys with score larger than score_start, and keys larger than key_start also with score equal to score_start will be returned."%string])
      UNDEFINED_SINCE UNDEFINED_EXAMPLE_STR 5 0 f_zscan;
    new_CommandHolder "ZRSCAN" "<name> <key_start> <score_start> <score_end> <limit>"
      "List key-score pairs of a zset, in reverse order."
      UNDEFINED_SINCE UNDEFINED_EXAMPLE_STR 5 0 f_zrscan;
    new_CommandHolder "MULTI_ZGET" "<name> <keys>"
      "Get the values related to the specified multiple keys of a zset."
      UNDEFINED_SINCE UNDEFINED_EXAMPLE_STR 2 0 f_multi_zget;
    new_CommandHolder "MULTI_ZSET" "<name> <key> <score> [key score ...]"
      "Set multiple key-score pairs(kvs) of a zset in one method call."
      UNDEFINED_SINCE UNDEFINED_EXAMPLE_STR 3 INFINITE_COMMAND_ARGS f_multi_zset;
    new_CommandHolder "MULTI_ZDEL" "<name> <keys>"
      "Delete specified multiple keys of a zset."
      UNDEFINED_SINCE UNDEFINED_EXAMPLE_STR 2 0 f_multi_zdel;
    new_CommandHolder "INFO" "[opt]"
      "Return information about the server."
      UNDEFINED_SINCE UNDEFINED_EXAMPLE_STR 0 1 f_info;
    new_CommandHolder "QPUSH" "<name> <item>"
      "Adds an or more than one element to the end of the queue."
      UNDEFINED_SINCE UNDEFINED_EXAMPLE_STR 2 0 f_qpush;
    new_CommandHolder "QPOP" "<name> <size>"
      "Pop out one or more elements from the head of a queue."
      UNDEFINED_SINCE UNDEFINED_EXAMPLE_STR 2 0 f_qpop;
    new_CommandHolder "QSLICE" "<name> <begin> <end>"
      "Returns a portion of elements from the queue at the specified range [begin, end]. begin and end could be negative."
      UNDEFINED_SINCE UNDEFINED_EXAMPLE_STR 3 0 f_qslice].

(** Entries QCLEAR to FLUSHDB. *)
Definition ssdbCommands_04 : list (CommandHolder fn) := [
    new_CommandHolder "QCLEAR" "<name>"
      "Clear the queue."
      UNDEFINED_SINCE UNDEFINED_EXAMPLE_STR 1 0 f_qclear;
    new_CommandHolder "DBSIZE" "-"
      "Return the approximate size of the database, in bytes. If compression is enabled, the size will be of the compressed data."
      UNDEFINED_SINCE UNDEFINED_EXAMPLE_STR 0 0 f_dbsize;
    new_CommandHolder "QUIT" "-"
      "Close the connection"
      UNDEFINED_SINCE UNDEFINED_EXAMPLE_STR 0 0 f_quit;
    new_CommandHolder "DBKCOUNT" "-"
      "Return the number of keys in the selected database"
      UNDEFINED_SINCE UNDEFINED_EXAMPLE_STR 0 0 f_dbkcount;
    new_CommandHolder "HELP" "[command]"
      "Return how to use command"
      UNDEFINED_SINCE UNDEFINED_EXAMPLE_STR 0 1 f_help;
    new_CommandHolder "FLUSHDB" "-"
      "Remove all keys from the current database"
      UNDEFINED_SINCE UNDEFINED_EXAMPLE_STR 0 1 f_flushdb].

Definition ssdbCommands : list (CommandHolder fn) :=
  ssdbCommands_01 ++ ssdbCommands_02 ++ ssdbCommands_03 ++ ssdbCommands_04.

End Ssdb.
