(* ===== verification/RedisTable.v ===== *)
(** The command table of [core/redis/internal/commands_api.h], in chunks of consecutive entries. *)
From Stdlib Require Import Ascii String ZArith.
From stdpp Require Import base list.
From S2P Require Import Prelude Common Commands.
Local Open Scope Z_scope.

Module Redis.

(** The functions [redis/internal/commands_api.h] declares. *)
Inductive fn :=
  | f_common_exec
  | f_common_exec_off2
  | f_select
  | f_del
  | f_get
  | f_lrange
  | f_smembers
  | f_zrange
  | f_hgetall
  | f_set
  | f_rename
  | f_persist
  | f_expire
  | f_quit
  | f_auth
  | f_help
  | f_monitor
  | f_subscribe
  | f_sync.

(** Entries APPEND to CLUSTER ADDSLOTS. *)
Definition redisCommands_01 : list (CommandHolder fn) := [
    new_CommandHolder "APPEND" "<key> <value>"
      "Append a value to a key"
      (PROJECT_VERSION_GENERATE 2 0 0) UNDEFINED_EXAMPLE_STR 2 0 f_common_exec;
    new_CommandHolder "AUTH" "<password>"
      "Authenticate to the server"
      (PROJECT_VERSION_GENERATE 1 0 0) UNDEFINED_EXAMPLE_STR 1 0 f_auth;
    new_CommandHolder "BGREWRITEAOF" "-"
      "Asynchronously rewrite the append-only file"
      (PROJECT_VERSION_GENERATE 1 0 0) UNDEFINED_EXAMPLE_STR 0 0 f_common_exec;
    new_CommandHolder "BGSAVE" "-"
      "Asynchronously save the dataset to disk"
      (PROJECT_VERSION_GENERATE 1 0 0) UNDEFINED_EXAMPLE_STR 0 0 f_common_exec;
    new_CommandHolder "BITCOUNT" "<key> [start] [end]"
      "Count set bits in a string"
      (PROJECT_VERSION_GENERATE 2 6 0) UNDEFINED_EXAMPLE_STR 1 2 f_common_exec;
    new_CommandHolder "BITOP" "<operation> <destkey> <key> [key ...]"
      "Perform bitwise operations between strings"
      (PROJECT_VERSION_GENERATE 2 6 0) UNDEFINED_EXAMPLE_STR 1 2 f_common_exec;
    new_CommandHolder "BITPOS" "<key> <bit> [start] [end]"
      "Find first bit set or clear in a string"
      (PROJECT_VERSION_GENERATE 2 8 7) UNDEFINED_EXAMPLE_STR 2 2 f_common_exec;
    new_CommandHolder "BLPOP" "<key> [key ...] timeout"
      "Remove and get the first element in a list, or block until one is available"
      (PROJECT_VERSION_GENERATE 2 0 0) UNDEFINED_EXAMPLE_STR 1 INFINITE_COMMAND_ARGS f_common_exec;
    new_CommandHolder "BRPOP" "<key> [key ...] timeout"
      "Remove and get the last element in a list, or block until one is available"
      (PROJECT_VERSION_GENERATE 2 0 0) UNDEFINED_EXAMPLE_STR 1 INFINITE_COMMAND_ARGS f_common_exec;
    new_CommandHolder "BRPOPLPUSH" "source destination timeout"
      "Pop a value from a list, push it to another list and return it; or block until one is available"
      (PROJECT_VERSION_GENERATE 2 2 0) UNDEFINED_EXAMPLE_STR 0 0 f_common_exec;
    new_CommandHolder "CLIENT GETNAME" "-"
      "Get the current connection name"
      (PROJECT_VERSION_GENERATE 2 6 9) UNDEFINED_EXAMPLE_STR 0 0 f_common_exec_off2;
    new_CommandHolder "CLIENT KILL" "[ip:port] [ID client-id] [TYPE normal|master|slave|pubsub] [ADDR ip:port] [SKIPME yes/no]"
      "Kill the connection of a client"
      (PROJECT_VERSION_GENERATE 2 4 0) UNDEFINED_EXAMPLE_STR 0 9 f_common_exec_off2;
    new_CommandHolder "CLIENT LIST" "-"
      "Get the list of client connections"
      (PROJECT_VERSION_GENERATE 2 4 0) UNDEFINED_EXAMPLE_STR 0 0 f_common_exec_off2;
    new_CommandHolder "CLIENT PAUSE" "<timeout>"
      "Stop processing commands from clients for some time"
      (PROJECT_VERSION_GENERATE 2 9 50) UNDEFINED_EXAMPLE_STR 1 0 f_common_exec_off2;
    new_CommandHolder "CLIENT REPLY" "ON|OFF|SKIP"
      "Instruct the server whether to reply to commands"
      (PROJECT_VERSION_GENERATE 3 2 0) UNDEFINED_EXAMPLE_STR 1 0 f_common_exec_off2;
    new_CommandHolder "CLIENT SETNAME" "<connection-name>"
      "Set the current connection name"
      (PROJECT_VERSION_GENERATE 2 6 9) UNDEFINED_EXAMPLE_STR 1 0 f_common_exec_off2;
    new_CommandHolder "CLUSTER ADDSLOTS" "<slot> [slot ...]"
      "Assign new hash slots to receiving node"
      (PROJECT_VERSION_GENERATE 3 0 0) UNDEFINED_EXAMPLE_STR 1 INFINITE_COMMAND_ARGS f_common_exec_off2].

(** Entries CLUSTER COUNT-FAILURE-REPORTS to CLUSTER SLOTS. *)
Definition redisCommands_02 : list (CommandHolder fn) := [
    new_CommandHolder "CLUSTER COUNT-FAILURE-REPORTS" "<node-id>"
      "Return the number of failure reports active for a given node"
      (PROJECT_VERSION_GENERATE 3 0 0) UNDEFINED_EXAMPLE_STR 1 0 f_common_exec_off2;
    new_CommandHolder "CLUSTER COUNTKEYSINSLOT" "<slot>"
      "Return the number of local keys in the specified hash slot"
      (PROJECT_VERSION_GENERATE 3 0 0) UNDEFINED_EXAMPLE_STR 1 0 f_common_exec_off2;
    new_CommandHolder "CLUSTER DELSLOTS" "<slot> [slot ...]"
      "Set hash slots as unbound in receiving node"
      (PROJECT_VERSION_GENERATE 3 0 0) UNDEFINED_EXAMPLE_STR 1 INFINITE_COMMAND_ARGS f_common_exec_off2;
    new_CommandHolder "CLUSTER FAILOVER" "[FORCE|TAKEOVER]"
      "Forces a slave to perform a manual failover osyncf its master."
      (PROJECT_VERSION_GENERATE 3 0 0) UNDEFINED_EXAMPLE_STR 0 1 f_common_exec_off2;
    new_CommandHolder "CLUSTER FORGET" "<node-id>"
      "Remove a node from the nodes table"
      (PROJECT_VERSION_GENERATE 3 0 0) UNDEFINED_EXAMPLE_STR 1 0 f_common_exec_off2;
    new_CommandHolder "CLUSTER GETKEYSINSLOT" "<slot> <count>"
      "Return local key names in the specified hash slot"
      (PROJECT_VERSION_GENERATE 3 0 0) UNDEFINED_EXAMPLE_STR 2 0 f_common_exec_off2;
    new_CommandHolder "CLUSTER INFO" "-"
      "Provides info about Redis Cluster node state"
      (PROJECT_VERSION_GENERATE 3 0 0) UNDEFINED_EXAMPLE_STR 0 0 f_common_exec_off2;
    new_CommandHolder "CLUSTER KEYSLOT" "<key>"
      "Returns the hash slot of the specified key"
      (PROJECT_VERSION_GENERATE 3 0 0) UNDEFINED_EXAMPLE_STR 1 0 f_common_exec_off2;
    new_CommandHolder "CLUSTER MEET" "<ip> <port>"
      "Force a node cluster to handshake with another node"
      (PROJECT_VERSION_GENERATE 3 0 0) UNDEFINED_EXAMPLE_STR 2 0 f_common_exec_off2;
    new_CommandHolder "CLUSTER NODES" "-"
      "Get Cluster config for the node"
      (PROJECT_VERSION_GENERATE 3 0 0) UNDEFINED_EXAMPLE_STR 0 0 f_common_exec_off2;
    new_CommandHolder "CLUSTER REPLICATE" "<node-id>"
      "Reconfigure a node as a slave of the specified master node"
      (PROJECT_VERSION_GENERATE 3 0 0) UNDEFINED_EXAMPLE_STR 1 0 f_common_exec_off2;
    new_CommandHolder "CLUSTER RESET" "[HARD|SOFT]"
      "Reset a Redis Cluster node"
      (PROJECT_VERSION_GENERATE 3 0 0) UNDEFINED_EXAMPLE_STR 0 1 f_common_exec_off2;
    new_CommandHolder "CLUSTER SAVECONFIG" "-"
      "Forces the node to save cluster state on disk"
      (PROJECT_VERSION_GENERATE 3 0 0) UNDEFINED_EXAMPLE_STR 0 0 f_common_exec_off2;
    new_CommandHolder "CLUSTER SET-CONFIG-EPOCH" "<config-epoch>"
      "Set the configuration epoch in a new node"
      (PROJECT_VERSION_GENERATE 3 0 0) UNDEFINED_EXAMPLE_STR 1 0 f_common_exec_off2;
    new_CommandHolder "CLUSTER SETSLOT" "<slot> IMPORTING|MIGRATING|STABLE|NODE [node-id]"
      "Bind a hash slot to a specific node"
      (PROJECT_VERSION_GENERATE 3 0 0) UNDEFINED_EXAMPLE_STR 2 2 f_common_exec_off2;
    new_CommandHolder "CLUSTER SLAVES" "<node-id>"
      "Licommon_execst slave nodes of the specified master node"
      (PROJECT_VERSION_GENERATE 3 0 0) UNDEFINED_EXAMPLE_STR 1 0 f_common_exec_off2;
    new_CommandHolder "CLUSTER SLOTS" "-"
      "Get array of Cluster slot to node mappings"
      (PROJECT_VERSION_GENERATE 3 0 0) UNDEFINED_EXAMPLE_STR 0 0 f_common_exec_off2].

(** Entries COMMAND COUNT to ECHO. *)
Definition redisCommands_03 : list (CommandHolder fn) := [
    new_CommandHolder "COMMAND COUNT" "-"
      "Get total number of Redis commands"
      (PROJECT_VERSION_GENERATE 2 8 13) UNDEFINED_EXAMPLE_STR 0 0 f_common_exec_off2;
    new_CommandHolder "COMMAND GETKEYS" "-"
      "Extract keys given a full Redis command"
      (PROJECT_VERSION_GENERATE 2 8 13) UNDEFINED_EXAMPLE_STR 0 0 f_common_exec_off2;
    new_CommandHolder "COMMAND INFO" "command-name [command-name ...]"
      "Get array of specific Redis command details"
      (PROJECT_VERSION_GENERATE 2 8 13) UNDEFINED_EXAMPLE_STR 1 INFINITE_COMMAND_ARGS f_common_exec_off2;
    new_CommandHolder "COMMAND" "-"
      "Get array of Redis command details"
      (PROJECT_VERSION_GENERATE 2 8 13) UNDEFINED_EXAMPLE_STR 0 0 f_common_exec;
    new_CommandHolder "CONFIG GET" "<parameter>"
      "Get the value of a configuration parameter"
      (PROJECT_VERSION_GENERATE 2 0 0) UNDEFINED_EXAMPLE_STR 1 0 f_common_exec_off2;
    new_CommandHolder "CONFIG RESETSTAT" "-"
      "Reset the stats returned by INFO"
      (PROJECT_VERSION_GENERATE 2 0 0) UNDEFINED_EXAMPLE_STR 0 0 f_common_exec_off2;
    new_CommandHolder "CONFIG REWRITE" "-"
      "Rewrite the configuration file with the in memory configuration"
      (PROJECT_VERSION_GENERATE 2 8 0) UNDEFINED_EXAMPLE_STR 0 0 f_common_exec_off2;
    new_CommandHolder "CONFIG SET" "<parameter> <value>"
      "Set a configuration parameter to the given value"
      (PROJECT_VERSION_GENERATE 2 0 0) UNDEFINED_EXAMPLE_STR 2 0 f_common_exec_off2;
    new_CommandHolder "DBSIZE" "-"
      "Return the number of keys in the selected database"
      (PROJECT_VERSION_GENERATE 1 0 0) UNDEFINED_EXAMPLE_STR 0 0 f_common_exec;
    new_CommandHolder "DEBUG OBJECT" "<key>"
      "Get debugging information about a key"
      (PROJECT_VERSION_GENERATE 1 0 0) UNDEFINED_EXAMPLE_STR 1 0 f_common_exec_off2;
    new_CommandHolder "DEBUG SEGFAULT" "-"
      "Make the server crash"
      (PROJECT_VERSION_GENERATE 1 0 0) UNDEFINED_EXAMPLE_STR 0 0 f_common_exec_off2;
    new_CommandHolder "DECR" "<key>"
      "Decrement the integer value of a key by one"
      (PROJECT_VERSION_GENERATE 1 0 0) UNDEFINED_EXAMPLE_STR 1 0 f_common_exec;
    new_CommandHolder "DECRBY" "<key> <decrement>"
      "Decrement the integer value of a key by the given number"
      (PROJECT_VERSION_GENERATE 1 0 0) UNDEFINED_EXAMPLE_STR 2 0 f_common_exec;
    new_CommandHolder "DEL" "<key> [key ...]"
      "Delete a key"
      (PROJECT_VERSION_GENERATE 1 0 0) UNDEFINED_EXAMPLE_STR 1 INFINITE_COMMAND_ARGS f_del;
    new_CommandHolder "DISCARD" "-"
      "Discard all commands issued after MULTI"
      (PROJECT_VERSION_GENERATE 2 0 0) UNDEFINED_EXAMPLE_STR 0 0 f_common_exec;
    new_CommandHolder "DUMP" "<key>"
      "Return a serialized version of the value stored at the specified key."
      (PROJECT_VERSION_GENERATE 2 6 0) UNDEFINED_EXAMPLE_STR 1 0 f_common_exec;
    new_CommandHolder "ECHO" "<message>"
      "Echo the given string"
      (PROJECT_VERSION_GENERATE 1 0 0) UNDEFINED_EXAMPLE_STR 1 0 f_common_exec].

(** Entries EVAL to GETBIT. *)
Definition redisCommands_04 : list (CommandHolder fn) := [
    new_CommandHolder "EVAL" "script numkeys <key> [key ...] <arg> [arg ...]"
      "Execute a Lua script server side"
      (PROJECT_VERSION_GENERATE 2 6 0) UNDEFINED_EXAMPLE_STR 2 INFINITE_COMMAND_ARGS f_common_exec;
    new_CommandHolder "EVALSHA" "sha1 numkeys <key> [key ...] <arg> [arg ...]"
      "Execute a Lua script server side"
      (PROJECT_VERSION_GENERATE 2 6 0) UNDEFINED_EXAMPLE_STR 2 INFINITE_COMMAND_ARGS f_common_exec;
    new_CommandHolder "EXEC" "-"
      "Execute all commands issued after MULTI"
      (PROJECT_VERSION_GENERATE 1 2 0) UNDEFINED_EXAMPLE_STR 0 0 f_common_exec;
    new_CommandHolder "EXISTS" "key [key ...]"
      "Determine if a key exists"
      (PROJECT_VERSION_GENERATE 1 0 0) UNDEFINED_EXAMPLE_STR 1 INFINITE_COMMAND_ARGS f_common_exec;
    new_CommandHolder "EXPIRE" "<key> <seconds>"
      "Set a key's time to live in seconds"
      (PROJECT_VERSION_GENERATE 1 0 0) UNDEFINED_EXAMPLE_STR 2 0 f_expire;
    new_CommandHolder "EXPIREAT" "<key> <timestamp>"
      "Set the expiration for a key as a UNIX timestamp"
      (PROJECT_VERSION_GENERATE 1 2 0) UNDEFINED_EXAMPLE_STR 2 0 f_common_exec;
    new_CommandHolder "FLUSHALL" "-"
      "Remove all keys from all databases"
      (PROJECT_VERSION_GENERATE 1 0 0) UNDEFINED_EXAMPLE_STR 0 0 f_common_exec;
    new_CommandHolder "FLUSHDB" "-"
      "Remove all keys from the current database"
      (PROJECT_VERSION_GENERATE 1 0 0) UNDEFINED_EXAMPLE_STR 0 0 f_common_exec;
    new_CommandHolder "GEOADD" "key longitude latitude member [longitude latitude member ..."
      "Add one or more geospatial items in the geospatial index represented using a sorted set"
      UNDEFINED_SINCE UNDEFINED_EXAMPLE_STR 4 0 f_common_exec;
    new_CommandHolder "GEODIST" "key member1 member2 [unit]"
      "Returns the distance between two members of a geospatial index"
      UNDEFINED_SINCE UNDEFINED_EXAMPLE_STR 3 1 f_common_exec;
    new_CommandHolder "GEOHASH" "key member [member ...]"
      "Returns members of a geospatial index as standard geohash strings"
      UNDEFINED_SINCE UNDEFINED_EXAMPLE_STR 2 INFINITE_COMMAND_ARGS f_common_exec;
    new_CommandHolder "GEOPOS" "key member [member ...]"
      "Returns longitude and latitude of members of a geospatial index"
      UNDEFINED_SINCE UNDEFINED_EXAMPLE_STR 2 INFINITE_COMMAND_ARGS f_common_exec;
    new_CommandHolder "GEORADIUS" "key longitude latitude radius m|km|ft|mi [WITHCOORD] [WITHDIST] [WITHHASH] [COUNT count] [ASC|DESC]"
      "Query a sorted set representing a geospatial index to fetch members matching a given maximum distance from a point"
      UNDEFINED_SINCE UNDEFINED_EXAMPLE_STR 5 6 f_common_exec;
    new_CommandHolder "GEORADIUSBYMEMBER" "key member radius m|km|ft|mi [WITHCOORD] [WITHDIST] [WITHHASH] [COUNT count] [ASC|DESC]"
      "Query a sorted set representing a geospatial index to fetch members matching a given maximum distance from a member"
      UNDEFINED_SINCE UNDEFINED_EXAMPLE_STR 4 6 f_common_exec;
    new_CommandHolder "GET" "<key>"
      "Gecommon_exect the value of a key"
      (PROJECT_VERSION_GENERATE 1 0 0) UNDEFINED_EXAMPLE_STR 1 0 f_get;
    new_CommandHolder "GETBIT" "<key> <offset>"
      "Returns the bit value at offset in the string value stored at key"
      (PROJECT_VERSION_GENERATE 2 2 0) UNDEFINED_EXAMPLE_STR 2 0 f_common_exec].

(** Entries GETRANGE to INCR. *)
Definition redisCommands_05 : list (CommandHolder fn) := [
    new_CommandHolder "GETRANGE" "<key> <start> <end>"
      "Get a substring of the string stored at a key"
      (PROJECT_VERSION_GENERATE 2 4 0) UNDEFINED_EXAMPLE_STR 3 0 f_common_exec;
    new_CommandHolder "GETSET" "<key> <value>"
      "Set the string value of a key and return its old value"
      (PROJECT_VERSION_GENERATE 1 0 0) UNDEFINED_EXAMPLE_STR 2 0 f_common_exec;
    new_CommandHolder "HDEL" "<key> <field> [field ...]"
      "Delete one or more hash fields"
      (PROJECT_VERSION_GENERATE 2 0 0) UNDEFINED_EXAMPLE_STR 2 INFINITE_COMMAND_ARGS f_common_exec;
    new_CommandHolder "HEXISTS" "<key> <field>"
      "Determine if a hash field exists"
      (PROJECT_VERSION_GENERATE 2 0 0) UNDEFINED_EXAMPLE_STR 2 0 f_common_exec;
    new_CommandHolder "HGET" "<key> <field>"
      "Get the value of a hash field"
      (PROJECT_VERSION_GENERATE 2 0 0) UNDEFINED_EXAMPLE_STR 2 0 f_common_exec;
    new_CommandHolder "HGETALL" "<key>"
      "Get all the fields and values in a hash"
      (PROJECT_VERSION_GENERATE 2 0 0) UNDEFINED_EXAMPLE_STR 1 0 f_hgetall;
    new_CommandHolder "HINCRBY" "<key> <field> <increment>"
      "Increment the integer value of a hash field by the given number"
      (PROJECT_VERSION_GENERATE 2 0 0) UNDEFINED_EXAMPLE_STR 3 0 f_common_exec;
    new_CommandHolder "HINCRBYFLOAT" "<key> <field> <increment>"
      "Increment the float value of a hash field by the given amount"
      (PROJECT_VERSION_GENERATE 2 6 0) UNDEFINED_EXAMPLE_STR 3 0 f_common_exec;
    new_CommandHolder "HKEYS" "<key>"
      "Get all the fields in a hash"
      (PROJECT_VERSION_GENERATE 2 0 0) UNDEFINED_EXAMPLE_STR 1 0 f_common_exec;
    new_CommandHolder "HLEN" "<key>"
      "Get the number of fields in a hash"
      (PROJECT_VERSION_GENERATE 2 0 0) UNDEFINED_EXAMPLE_STR 1 0 f_common_exec;
    new_CommandHolder "HMGET" "<key> <field> [field ...]"
      "Get the values of all the given hash fields"
      (PROJECT_VERSION_GENERATE 2 0 0) UNDEFINED_EXAMPLE_STR 2 INFINITE_COMMAND_ARGS f_common_exec;
    new_CommandHolder "HMSET" "<key> <field> <value> [field value ...]"
      "Set multiple hash fields to multiple values"
      (PROJECT_VERSION_GENERATE 2 0 0) UNDEFINED_EXAMPLE_STR 3 INFINITE_COMMAND_ARGS f_common_exec;
    new_CommandHolder "HSCAN" "<key> <cursor> [MATCH pattern] [COUNT count]"
      "Incrementally iterate hash fields and associated values"
      (PROJECT_VERSION_GENERATE 2 8 0) UNDEFINED_EXAMPLE_STR 2 4 f_common_exec;
    new_CommandHolder "HSET" "<key> <field> <value>"
      "Set the string value of a hash field"
      (PROJECT_VERSION_GENERATE 2 0 0) UNDEFINED_EXAMPLE_STR 3 0 f_common_exec;
    new_CommandHolder "HSETNX" "<key> <field> <value>"
      "Set the value of a hash field, only if the field does not exist"
      (PROJECT_VERSION_GENERATE 2 0 0) UNDEFINED_EXAMPLE_STR 3 0 f_common_exec;
    new_CommandHolder "HSTRLEN" "<key> <field>"
      "Get the length of the value of a hash field"
      (PROJECT_VERSION_GENERATE 3 2 0) UNDEFINED_EXAMPLE_STR 2 0 f_common_exec;
    new_CommandHolder "HVALS" "<key>"
      "Get all the values in a hash"
      (PROJECT_VERSION_GENERATE 2 0 0) UNDEFINED_EXAMPLE_STR 1 0 f_common_exec;
    new_CommandHolder "INCR" "<key>"
      "Increment the integer value of a key by one"
      (PROJECT_VERSION_GENERATE 1 0 0) UNDEFINED_EXAMPLE_STR 1 0 f_common_exec].

(** Entries INCRBY to MIGRATE. *)
Definition redisCommands_06 : list (CommandHolder fn) := [
    new_CommandHolder "INCRBY" "<key> <increment>"
      "Increment the integer value of a key by the given amount"
      (PROJECT_VERSION_GENERATE 1 0 0) UNDEFINED_EXAMPLE_STR 2 0 f_common_exec;
    new_CommandHolder "INCRBYFLOAT" "<key> <increment>"
      "Increment the float value of a key by the given amount"
      (PROJECT_VERSION_GENERATE 2 6 0) UNDEFINED_EXAMPLE_STR 2 0 f_common_exec;
    new_CommandHolder "INFO" "[section]"
      "Get information and statistics about the server"
      (PROJECT_VERSION_GENERATE 1 0 0) UNDEFINED_EXAMPLE_STR 0 1 f_common_exec;
    new_CommandHolder "KEYS" "<pattern>"
      "Find all keys matching the given pattern"
      (PROJECT_VERSION_GENERATE 1 0 0) UNDEFINED_EXAMPLE_STR 1 0 f_common_exec;
    new_CommandHolder "LASTSAVE" "-"
      "Get the UNIX time stamp of the last successful save to disk"
      (PROJECT_VERSION_GENERATE 1 0 0) UNDEFINED_EXAMPLE_STR 0 0 f_common_exec;
    new_CommandHolder "LINDEX" "<key> <index>"
      "Get an element from a list by its index"
      (PROJECT_VERSION_GENERATE 1 0 0) UNDEFINED_EXAMPLE_STR 2 0 f_common_exec;
    new_CommandHolder "LINSERT" "<key> <BEFORE|AFTER> <pivot value>"
      "Insert an element before or after another element in a list"
      (PROJECT_VERSION_GENERATE 2 2 0) UNDEFINED_EXAMPLE_STR 3 0 f_common_exec;
    new_CommandHolder "LLEN" "<key>"
      "Get the length of a list"
      (PROJECT_VERSION_GENERATE 1 0 0) UNDEFINED_EXAMPLE_STR 1 0 f_common_exec;
    new_CommandHolder "LPOP" "<key>"
      "Remove and get the first element in a list"
      (PROJECT_VERSION_GENERATE 1 0 0) UNDEFINED_EXAMPLE_STR 1 0 f_common_exec;
    new_CommandHolder "LPUSH" "<key> <value> [value ...]"
      "Prepend one or multiple values to a list"
      (PROJECT_VERSION_GENERATE 1 0 0) UNDEFINED_EXAMPLE_STR 2 INFINITE_COMMAND_ARGS f_common_exec;
    new_CommandHolder "LPUSHX" "<key> <value>"
      "Prepend a value to a list, only if the list exists"
      (PROJECT_VERSION_GENERATE 2 2 0) UNDEFINED_EXAMPLE_STR 2 0 f_common_exec;
    new_CommandHolder "LRANGE" "<key> <start> <stop>"
      "Get a range of elements from a list"
      (PROJECT_VERSION_GENERATE 1 0 0) UNDEFINED_EXAMPLE_STR 3 0 f_lrange;
    new_CommandHolder "LREM" "<key> <count> <value>"
      "Remove elements from a list"
      (PROJECT_VERSION_GENERATE 1 0 0) UNDEFINED_EXAMPLE_STR 3 0 f_common_exec;
    new_CommandHolder "LSET" "<key> <index> <value>"
      "Set the value of an element in a list by its index"
      (PROJECT_VERSION_GENERATE 1 0 0) UNDEFINED_EXAMPLE_STR 3 0 f_common_exec;
    new_CommandHolder "LTRIM" "<key> <start> <stop>"
      "Trim a list to the specified range"
      (PROJECT_VERSION_GENERATE 1 0 0) UNDEFINED_EXAMPLE_STR 3 0 f_common_exec;
    new_CommandHolder "MGET" "<key> [key ...]"
      "Get the values of all the given keys"
      (PROJECT_VERSION_GENERATE 1 0 0) UNDEFINED_EXAMPLE_STR 1 INFINITE_COMMAND_ARGS f_common_exec;
    new_CommandHolder "MIGRATE" "<host> <port> <|> <destination-db> <timeout> [COPY] [REPLACE]"
      "Atomically transfer a key from a Redis instance to another one."
      (PROJECT_VERSION_GENERATE 2 6 0) UNDEFINED_EXAMPLE_STR 5 2 f_common_exec].

(** Entries MONITOR to PUBLISH. *)
Definition redisCommands_07 : list (CommandHolder fn) := [
    new_CommandHolder "MONITOR" "-"
      "Listen for all requests received by the server in real time"
      (PROJECT_VERSION_GENERATE 1 0 0) UNDEFINED_EXAMPLE_STR 0 0 f_monitor;
    new_CommandHolder "MOVE" "<key> <db>"
      "Move a key to another database"
      (PROJECT_VERSION_GENERATE 1 0 0) UNDEFINED_EXAMPLE_STR 2 0 f_common_exec;
    new_CommandHolder "MSET" "<key> <value> [key value ...]"
      "Set multiple keys to multiple values"
      (PROJECT_VERSION_GENERATE 1 0 1) UNDEFINED_EXAMPLE_STR 2 INFINITE_COMMAND_ARGS f_common_exec;
    new_CommandHolder "MSETNX" "<key> <value> [key value ...]"
      "Set multiple keys to multiple values, only if none of the keys exist"
      (PROJECT_VERSION_GENERATE 1 0 1) UNDEFINED_EXAMPLE_STR 2 INFINITE_COMMAND_ARGS f_common_exec;
    new_CommandHolder "MULTI" "-"
      "Mark the start of a transaction block"
      (PROJECT_VERSION_GENERATE 1 2 0) UNDEFINED_EXAMPLE_STR 0 0 f_common_exec;
    new_CommandHolder "OBJECT" "<subcommand> [arguments [arguments ...]]"
      "Inspect the internals of Redis objects"
      (PROJECT_VERSION_GENERATE 2 2 3) UNDEFINED_EXAMPLE_STR 1 INFINITE_COMMAND_ARGS f_common_exec;
    new_CommandHolder "PERSIST" "<key>"
      "Remove the expiration from a key"
      (PROJECT_VERSION_GENERATE 2 2 0) UNDEFINED_EXAMPLE_STR 1 0 f_persist;
    new_CommandHolder "PEXPIRE" "<key> <milliseconds>"
      "Set a key's time to live in milliseconds"
      (PROJECT_VERSION_GENERATE 2 6 0) UNDEFINED_EXAMPLE_STR 2 0 f_common_exec;
    new_CommandHolder "PEXPIREAT" "<key> <milliseconds-timestamp>"
      "Set the expiration for a key as a UNIX timestamp specified in milliseconds"
      (PROJECT_VERSION_GENERATE 2 6 0) UNDEFINED_EXAMPLE_STR 2 0 f_common_exec;
    new_CommandHolder "PFADD" "<key> <element> [element ...]"
      "Adds the specified elements to the specified HyperLogLog."
      (PROJECT_VERSION_GENERATE 2 8 9) UNDEFINED_EXAMPLE_STR 2 INFINITE_COMMAND_ARGS f_common_exec;
    new_CommandHolder "PFCOUNT" "<key> [key ...]"
      "Return the approximated cardinality of the set(s) observed by the HyperLogLog at key(s)."
      (PROJECT_VERSION_GENERATE 2 8 9) UNDEFINED_EXAMPLE_STR 1 INFINITE_COMMAND_ARGS f_common_exec;
    new_CommandHolder "PFMERGE" "<destkey> <sourcekey> [sourcekey ...]"
      "Merge N different HyperLogLogs into a single one."
      (PROJECT_VERSION_GENERATE 2 8 9) UNDEFINED_EXAMPLE_STR 2 INFINITE_COMMAND_ARGS f_common_exec;
    new_CommandHolder "PING" "[message]"
      "Ping the server"
      (PROJECT_VERSION_GENERATE 1 0 0) UNDEFINED_EXAMPLE_STR 0 1 f_common_exec;
    new_CommandHolder "PSETEX" "<key> <milliseconds> <value>"
      "Set the value and expiration in milliseconds of a key"
      (PROJECT_VERSION_GENERATE 2 6 0) UNDEFINED_EXAMPLE_STR 3 0 f_common_exec;
    new_CommandHolder "PSUBSCRIBE" "<pattern> [pattern ...]"
      "Listen for messages published to channels matching the given patterns"
      (PROJECT_VERSION_GENERATE 2 0 0) UNDEFINED_EXAMPLE_STR 1 INFINITE_COMMAND_ARGS f_subscribe;
    new_CommandHolder "PTTL" "<key>"
      "Get the time to live for a key in milliseconds"
      (PROJECT_VERSION_GENERATE 2 6 0) UNDEFINED_EXAMPLE_STR 1 0 f_common_exec;
    new_CommandHolder "PUBLISH" "<channel> <message>"
      "Post a message to a channel"
      (PROJECT_VERSION_GENERATE 2 0 0) UNDEFINED_EXAMPLE_STR 2 0 f_common_exec].

(** Entries PUBSUB to SCAN. *)
Definition redisCommands_08 : list (CommandHolder fn) := [
    new_CommandHolder "PUBSUB" "<subcommand> [argument [argument ...]]"
      "Inspect the state of the Pub/Sub subsystem"
      (PROJECT_VERSION_GENERATE 2 8 0) UNDEFINED_EXAMPLE_STR 1 INFINITE_COMMAND_ARGS f_common_exec;
    new_CommandHolder "PUNSUBSCRIBE" "[pattern [pattern ...]]"
      "Stop listening for messages posted to channels matching the given patterns"
      (PROJECT_VERSION_GENERATE 2 0 0) UNDEFINED_EXAMPLE_STR 0 INFINITE_COMMAND_ARGS f_common_exec;
    new_CommandHolder "QUIT" "-"
      "Close the connection"
      (PROJECT_VERSION_GENERATE 1 0 0) UNDEFINED_EXAMPLE_STR 0 0 f_quit;
    new_CommandHolder "RANDOMKEY" "-"
      "Return a random key from the keyspace"
      (PROJECT_VERSION_GENERATE 1 0 0) UNDEFINED_EXAMPLE_STR 0 0 f_common_exec;
    new_CommandHolder "READONLY" "-"
      "Enables read queries for a connection to a cluster slave node"
      (PROJECT_VERSION_GENERATE 3 0 0) UNDEFINED_EXAMPLE_STR 0 0 f_common_exec;
    new_CommandHolder "READWRITE" "-"
      "Disables read queries for a connection to a cluster slave node"
      (PROJECT_VERSION_GENERATE 3 0 0) UNDEFINED_EXAMPLE_STR 0 0 f_common_exec;
    new_CommandHolder "RENAME" "<key> <newkey>"
      "Rename a key"
      (PROJECT_VERSION_GENERATE 1 0 0) UNDEFINED_EXAMPLE_STR 2 0 f_rename;
    new_CommandHolder "RENAMENX" "<key> <newkey>"
      "Rename a key, only if the new key does not exist"
      (PROJECT_VERSION_GENERATE 1 0 0) UNDEFINED_EXAMPLE_STR 2 0 f_common_exec;
    new_CommandHolder "RESTORE" "<key> <ttl> <serialized-value> [REPLACE]"
      "Create a key using the provided serialized value, previously obtained using DUMP."
      (PROJECT_VERSION_GENERATE 2 6 0) UNDEFINED_EXAMPLE_STR 3 1 f_common_exec;
    new_CommandHolder "ROLE" "-"
      "Return the role of the instance in the context of replication"
      (PROJECT_VERSION_GENERATE 2 8 12) UNDEFINED_EXAMPLE_STR 0 0 f_common_exec;
    new_CommandHolder "RPOP" "<key>"
      "Remove and get the last element in a list"
      (PROJECT_VERSION_GENERATE 1 0 0) UNDEFINED_EXAMPLE_STR 1 0 f_common_exec;
    new_CommandHolder "RPOPLPUSH" "<source> <destination>"
      "Remove the last element in a list, prepend it to another list and return it"
      (PROJECT_VERSION_GENERATE 1 2 0) UNDEFINED_EXAMPLE_STR 2 0 f_common_exec;
    new_CommandHolder "RPUSH" "<key> <value> [value ...]"
      "Append one or multiple values to a list"
      (PROJECT_VERSION_GENERATE 1 0 0) UNDEFINED_EXAMPLE_STR 2 INFINITE_COMMAND_ARGS f_common_exec;
    new_CommandHolder "RPUSHX" "<key> <value>"
      "Append a value to a list, only if the list exists"
      (PROJECT_VERSION_GENERATE 2 2 0) UNDEFINED_EXAMPLE_STR 2 0 f_common_exec;
    new_CommandHolder "SADD" "<key> <member> [member ...]"
      "Add one or more members to a set"
      (PROJECT_VERSION_GENERATE 1 0 0) UNDEFINED_EXAMPLE_STR 2 INFINITE_COMMAND_ARGS f_common_exec;
    new_CommandHolder "SAVE" "-"
      "Synchronously save the dataset to disk"
      (PROJECT_VERSION_GENERATE 1 0 0) UNDEFINED_EXAMPLE_STR 0 0 f_common_exec;
    new_CommandHolder "SCAN" "<cursor> [MATCH pattern] [COUNT count]"
      "Incrementally iterate the keys space"
      (PROJECT_VERSION_GENERATE 2 8 0) UNDEFINED_EXAMPLE_STR 1 4 f_common_exec].

(** Entries SCARD to SINTERSTORE. *)
Definition redisCommands_09 : list (CommandHolder fn) := [
    new_CommandHolder "SCARD" "<key>"
      "Get the number of members in a set"
      (PROJECT_VERSION_GENERATE 1 0 0) UNDEFINED_EXAMPLE_STR 1 0 f_common_exec;
    new_CommandHolder "SCRIPT DEBUG" "<YES|SYNC|NO>"
      "Set the debug mode for executed scripts."
      (PROJECT_VERSION_GENERATE 3 2 0) UNDEFINED_EXAMPLE_STR 1 0 f_common_exec_off2;
    new_CommandHolder "SCRIPT EXISTS" "script [script ...]"
      "Check existence of scripts in the script cache."
      (PROJECT_VERSION_GENERATE 2 6 0) UNDEFINED_EXAMPLE_STR 1 INFINITE_COMMAND_ARGS f_common_exec_off2;
    new_CommandHolder "SCRIPT FLUSH" "-"
      "Remove all the scripts from the script cache."
      (PROJECT_VERSION_GENERATE 2 6 0) UNDEFINED_EXAMPLE_STR 0 0 f_common_exec_off2;
    new_CommandHolder "SCRIPT KILL" "-"
      "Kill the script currently in execution."
      (PROJECT_VERSION_GENERATE 2 6 0) UNDEFINED_EXAMPLE_STR 0 0 f_common_exec_off2;
    new_CommandHolder "SCRIPT LOAD" "<script>"
      "Load the specified Lua script into the script cache."
      (PROJECT_VERSION_GENERATE 2 6 0) UNDEFINED_EXAMPLE_STR 1 0 f_common_exec_off2;
    new_CommandHolder "SDIFF" "<key> [key ...]"
      "Subtract multiple sets"
      (PROJECT_VERSION_GENERATE 1 0 0) UNDEFINED_EXAMPLE_STR 1 INFINITE_COMMAND_ARGS f_common_exec;
    new_CommandHolder "SDIFFSTORE" "<destination> <key> [key ...]"
      "Subtract multiple sets and store the resulting set in a key"
      (PROJECT_VERSION_GENERATE 1 0 0) UNDEFINED_EXAMPLE_STR 2 INFINITE_COMMAND_ARGS f_common_exec;
    new_CommandHolder "SELECT" "<index>"
      "Change the selected database for the current connection"
      (PROJECT_VERSION_GENERATE 1 0 0) UNDEFINED_EXAMPLE_STR 1 0 f_select;
    new_CommandHolder "SET" "<key> <value> [EX seconds] [PX milliseconds] [NX|XX]"
      "Set the string value of a key"
      (PROJECT_VERSION_GENERATE 1 0 0) UNDEFINED_EXAMPLE_STR 2 5 f_set;
    new_CommandHolder "SETBIT" "<key> <offset> <value>"
      "Sets or clears the bit at offset in the string value stored at key"
      (PROJECT_VERSION_GENERATE 2 2 0) UNDEFINED_EXAMPLE_STR 3 0 f_common_exec;
    new_CommandHolder "SETEX" "<key> <seconds> <value>"
      "Set the value and expiration of a key"
      (PROJECT_VERSION_GENERATE 2 0 0) UNDEFINED_EXAMPLE_STR 3 0 f_common_exec;
    new_CommandHolder "SETNX" "<key> <value>"
      "Set the value of a key, only if the key does not exist"
      (PROJECT_VERSION_GENERATE 1 0 0) UNDEFINED_EXAMPLE_STR 2 0 f_common_exec;
    new_CommandHolder "SETRANGE" "<key> <offset> <value>"
      "Overwrite part of a string at key starting at the specified offset"
      (PROJECT_VERSION_GENERATE 2 2 0) UNDEFINED_EXAMPLE_STR 3 0 f_common_exec;
    new_CommandHolder "SHUTDOWN" "[NOSAVE|SAVE]"
      "Synchronously save the dataset to disk and then shut down the server"
      (PROJECT_VERSION_GENERATE 1 0 0) UNDEFINED_EXAMPLE_STR 0 1 f_common_exec;
    new_CommandHolder "SINTER" "<key> [key ...]"
      "Intersect multiple sets"
      (PROJECT_VERSION_GENERATE 1 0 0) UNDEFINED_EXAMPLE_STR 1 INFINITE_COMMAND_ARGS f_common_exec;
    new_CommandHolder "SINTERSTORE" "<destination> <key> [key ...]"
      "Intersect multiple sets and store the resulting set in a key"
      (PROJECT_VERSION_GENERATE 1 0 0) UNDEFINED_EXAMPLE_STR 2 INFINITE_COMMAND_ARGS f_common_exec].

(** Entries SISMEMBER to TIME. *)
Definition redisCommands_10 : list (CommandHolder fn) := [
    new_CommandHolder "SISMEMBER" "<key> <member>"
      "Determine if a given value is a member of a set"
      (PROJECT_VERSION_GENERATE 1 0 0) UNDEFINED_EXAMPLE_STR 2 0 f_common_exec;
    new_CommandHolder "SLAVEOF" "<host> <port>"
      "Make the server a slave of another instance, or promote it as master"
      (PROJECT_VERSION_GENERATE 1 0 0) UNDEFINED_EXAMPLE_STR 2 0 f_common_exec;
    new_CommandHolder "SLOWLOG" "<subcommand> [argument]"
      "Manages the Redis slow queries log"
      (PROJECT_VERSION_GENERATE 2 2 12) UNDEFINED_EXAMPLE_STR 1 1 f_common_exec;
    new_CommandHolder "SMEMBERS" "<key>"
      "Get all the members in a set"
      (PROJECT_VERSION_GENERATE 1 0 0) UNDEFINED_EXAMPLE_STR 1 0 f_smembers;
    new_CommandHolder "SMOVE" "<source> <destination> <member>"
      "Move a member from one set to another"
      (PROJECT_VERSION_GENERATE 1 0 0) UNDEFINED_EXAMPLE_STR 3 0 f_common_exec;
    new_CommandHolder "SORT" "<key> [BY pattern] [LIMIT offset count] [GET pattern [GET pattern ...]] [ASC|DESC] [ALPHA] [STORE destination]"
      "Sort the elements in a list, set or sorted set"
      (PROJECT_VERSION_GENERATE 1 0 0) UNDEFINED_EXAMPLE_STR 1 INFINITE_COMMAND_ARGS f_common_exec;
    new_CommandHolder "SPOP" "<key> [count]"
      "Remove and return one or multiple random members from a set"
      (PROJECT_VERSION_GENERATE 1 0 0) UNDEFINED_EXAMPLE_STR 1 1 f_common_exec;
    new_CommandHolder "SRANDMEMBER" "<key> [count]"
      "Get one or multiple random members from a set"
      (PROJECT_VERSION_GENERATE 1 0 0) UNDEFINED_EXAMPLE_STR 1 1 f_common_exec;
    new_CommandHolder "SREM" "<key> <member> [member ...]"
      "Remove one or more members from a set"
      (PROJECT_VERSION_GENERATE 1 0 0) UNDEFINED_EXAMPLE_STR 2 INFINITE_COMMAND_ARGS f_common_exec;
    new_CommandHolder "SSCAN" "<key> <cursor> [MATCH pattern] [COUNT count]"
      "Incrementally iterate Set elements"
      (PROJECT_VERSION_GENERATE 2 8 0) UNDEFINED_EXAMPLE_STR 2 4 f_common_exec;
    new_CommandHolder "STRLEN" "<key>"
      "Get the length of the value stored in a key"
      (PROJECT_VERSION_GENERATE 2 2 0) UNDEFINED_EXAMPLE_STR 1 0 f_common_exec;
    new_CommandHolder "SUBSCRIBE" "<channel> [channel ...]"
      "Listen for messages published to the given channels"
      (PROJECT_VERSION_GENERATE 2 0 0) UNDEFINED_EXAMPLE_STR 1 INFINITE_COMMAND_ARGS f_subscribe;
    new_CommandHolder "SUNION" "<key> [key ...]"
      "Add multiple sets"
      (PROJECT_VERSION_GENERATE 1 0 0) UNDEFINED_EXAMPLE_STR 1 INFINITE_COMMAND_ARGS f_common_exec;
    new_CommandHolder "SUNIONSTORE" "<destination> <key> [key ...]"
      "Add multiple sets and store the resulting set in a key"
      (PROJECT_VERSION_GENERATE 1 0 0) UNDEFINED_EXAMPLE_STR 2 INFINITE_COMMAND_ARGS f_common_exec;
    new_CommandHolder "SYNC" "-"
      "Internal command used for replication"
      (PROJECT_VERSION_GENERATE 1 0 0) UNDEFINED_EXAMPLE_STR 0 0 f_sync;
    new_CommandHolder "PSYNC" "-"
      "Internal command used for replication"
      (PROJECT_VERSION_GENERATE 1 0 0) UNDEFINED_EXAMPLE_STR 0 0 f_sync;
    new_CommandHolder "TIME" "-"
      "Return the current server time"
      (PROJECT_VERSION_GENERATE 2 6 0) UNDEFINED_EXAMPLE_STR 0 0 f_common_exec].

(** Entries TTL to ZRANK. *)
Definition redisCommands_11 : list (CommandHolder fn) := [
    new_CommandHolder "TTL" "<key>"
      "Get the time to live for a key"
      (PROJECT_VERSION_GENERATE 1 0 0) UNDEFINED_EXAMPLE_STR 1 0 f_common_exec;
    new_CommandHolder "TYPE" "<key>"
      "Determine the type stored at key"
      (PROJECT_VERSION_GENERATE 1 0 0) UNDEFINED_EXAMPLE_STR 1 0 f_common_exec;
    new_CommandHolder "UNSUBSCRIBE" "[channel [channel ...]]"
      "Stop listening for messages posted to the given channels"
      (PROJECT_VERSION_GENERATE 2 0 0) UNDEFINED_EXAMPLE_STR 0 INFINITE_COMMAND_ARGS f_common_exec;
    new_CommandHolder "UNWATCH" "-"
      "Forget about all watched keys"
      (PROJECT_VERSION_GENERATE 2 2 0) UNDEFINED_EXAMPLE_STR 0 0 f_common_exec;
    new_CommandHolder "WAIT" "<numslaves> <timeout>"
      "Wait for the synchronous replication of all the write commands sent in the context of the current connection"
      (PROJECT_VERSION_GENERATE 3 0 0) UNDEFINED_EXAMPLE_STR 2 0 f_common_exec;
    new_CommandHolder "WATCH" "key [key ...]"
      "Watch the given keys to determine execution of the MULTI/EXEC block"
      (PROJECT_VERSION_GENERATE 2 2 0) UNDEFINED_EXAMPLE_STR 1 INFINITE_COMMAND_ARGS f_common_exec;
    new_CommandHolder "ZADD" "<key> [NX|XX] [CH] [INCR] <score> <member> [score member ...]"
      "Add one or more members to a sorted set, or update its score if it already exists"
      (PROJECT_VERSION_GENERATE 1 2 0) UNDEFINED_EXAMPLE_STR 3 INFINITE_COMMAND_ARGS f_common_exec;
    new_CommandHolder "ZCARD" "<key>"
      "Get the number of members in a sorted set"
      (PROJECT_VERSION_GENERATE 1 2 0) UNDEFINED_EXAMPLE_STR 1 0 f_common_exec;
    new_CommandHolder "ZCOUNT" "<key> <min> <max>"
      "Count the members in a sorted set with scores within the given values"
      (PROJECT_VERSION_GENERATE 2 0 0) UNDEFINED_EXAMPLE_STR 3 0 f_common_exec;
    new_CommandHolder "ZINCRBY" "<key> <increment> <member>"
      "Increment the score of a member in a sorted set"
      (PROJECT_VERSION_GENERATE 1 2 0) UNDEFINED_EXAMPLE_STR 3 0 f_common_exec;
    new_CommandHolder "ZINTERSTORE" "<destination> <numkeys> <key> [key ...] [WEIGHTS weight] [AGGREGATE SUM|MIN|MAX]"
      "Intersect multiple sorted sets and store the resulting sorted set in a new key"
      (PROJECT_VERSION_GENERATE 2 0 0) UNDEFINED_EXAMPLE_STR 3 INFINITE_COMMAND_ARGS f_common_exec;
    new_CommandHolder "ZLEXCOUNT" "<key> <min> <max>"
      "Count the number of members in a sorted set between a given lexicographical range"
      (PROJECT_VERSION_GENERATE 2 8 9) UNDEFINED_EXAMPLE_STR 3 0 f_common_exec;
    new_CommandHolder "ZRANGE" "<key> <start> <stop> [WITHSCORES]"
      "Return a range of members in a sorted set, by index"
      (PROJECT_VERSION_GENERATE 1 2 0) UNDEFINED_EXAMPLE_STR 3 1 f_zrange;
    new_CommandHolder "ZRANGEBYLEX" "<key> <min> <max> [LIMIT offset count]"
      "Return a range of members in a sorted set, by lexicographical range"
      (PROJECT_VERSION_GENERATE 2 8 9) UNDEFINED_EXAMPLE_STR 3 3 f_common_exec;
    new_CommandHolder "ZRANGEBYSCORE" "<key> <min> <max> [WITHSCORES] [LIMIT offset count]"
      "Return a range of members in a sorted set, by score"
      (PROJECT_VERSION_GENERATE 1 0 5) UNDEFINED_EXAMPLE_STR 3 4 f_common_exec;
    new_CommandHolder "ZRANK" "<key> <member>"
      "Determine the index of a member in a sorted set"
      (PROJECT_VERSION_GENERATE 2 0 0) UNDEFINED_EXAMPLE_STR 2 0 f_common_exec].

(** Entries ZREM to SENTINEL SENTINELS. *)
Definition redisCommands_12 : list (CommandHolder fn) := [
    new_CommandHolder "ZREM" "<key> <member> [member ...]"
      "Remove one or more members from a sorted set"
      (PROJECT_VERSION_GENERATE 1 2 0) UNDEFINED_EXAMPLE_STR 2 INFINITE_COMMAND_ARGS f_common_exec;
    new_CommandHolder "ZREMRANGEBYLEX" "<key> <min> <max>"
      "Remove all members in a sorted set between the given lexicographical range"
      (PROJECT_VERSION_GENERATE 2 8 9) UNDEFINED_EXAMPLE_STR 3 0 f_common_exec;
    new_CommandHolder "ZREMRANGEBYRANK" "<key> <start> <stop>"
      "Remove all members in a sorted set within the given indexes"
      (PROJECT_VERSION_GENERATE 2 0 0) UNDEFINED_EXAMPLE_STR 3 0 f_common_exec;
    new_CommandHolder "ZREMRANGEBYSCORE" "<key> <min> <max>"
      "Remove all members in a sorted set within the given scores"
      (PROJECT_VERSION_GENERATE 1 2 0) UNDEFINED_EXAMPLE_STR 3 0 f_common_exec;
    new_CommandHolder "ZREVRANGE" "<key> <start> <stop> [WITHSCORES]"
      "Return a range of members in a sorted set, by index, with scores ordered from high to low"
      (PROJECT_VERSION_GENERATE 1 2 0) UNDEFINED_EXAMPLE_STR 3 1 f_common_exec;
    new_CommandHolder "ZREVRANGEBYLEX" "<key> <max> <min> [LIMIT offset count]"
      "Return a range of members in a sorted set, by lexicographical range, ordered from higher to lower strings."
      (PROJECT_VERSION_GENERATE 2 8 9) UNDEFINED_EXAMPLE_STR 3 3 f_common_exec;
    new_CommandHolder "ZREVRANGEBYSCORE" "<key> <max> <min> [WITHSCORES] [LIMIT offset count]"
      "Return a range of members in a sorted set, by score, with scores ordered from high to low"
      (PROJECT_VERSION_GENERATE 2 2 0) UNDEFINED_EXAMPLE_STR 3 4 f_common_exec;
    new_CommandHolder "ZREVRANK" "<key> <member>"
      "Determine the index of a member in a sorted set, with scores ordered from high to low"
      (PROJECT_VERSION_GENERATE 2 0 0) UNDEFINED_EXAMPLE_STR 2 0 f_common_exec;
    new_CommandHolder "ZSCAN" "<key> <cursor> [MATCH pattern] [COUNT count]"
      "Incrementally iterate sorted sets elements and associated scores"
      (PROJECT_VERSION_GENERATE 2 8 0) UNDEFINED_EXAMPLE_STR 2 4 f_common_exec;
    new_CommandHolder "ZSCORE" "<key> <member>"
      "Get the score associated with the given member in a sorted set"
      (PROJECT_VERSION_GENERATE 1 2 0) UNDEFINED_EXAMPLE_STR 2 0 f_common_exec;
    new_CommandHolder "ZUNIONSTORE" "<destination> <numkeys> <key> [key ...] [WEIGHTS weight] [AGGREGATE SUM|MIN|MAX]"
      "Add multiple sorted sets and store the resulting sorted set in a new key"
      (PROJECT_VERSION_GENERATE 2 0 0) UNDEFINED_EXAMPLE_STR 3 INFINITE_COMMAND_ARGS f_common_exec;
    new_CommandHolder "SENTINEL MASTERS" "-"
      "Show a list of monitored masters and their state."
      UNDEFINED_SINCE UNDEFINED_EXAMPLE_STR 0 0 f_common_exec_off2;
    new_CommandHolder "SENTINEL MASTER" "<master name>"
      "Show the state and info of the specified master."
      UNDEFINED_SINCE UNDEFINED_EXAMPLE_STR 1 0 f_common_exec_off2;
    new_CommandHolder "SENTINEL SLAVES" "<master name>"
      "Show a list of slaves for this master, and their state."
      UNDEFINED_SINCE UNDEFINED_EXAMPLE_STR 1 0 f_common_exec_off2;
    new_CommandHolder "SENTINEL SENTINELS" "<master name>"
      "Show a list of sentinel instances for this master, and their state."
      UNDEFINED_SINCE UNDEFINED_EXAMPLE_STR 1 0 f_common_exec_off2].

(** Entries SENTINEL GET-MASTER-ADDR-BY-NAME to SENTINEL SET. *)
Definition redisCommands_13 : list (CommandHolder fn) := [
    new_CommandHolder "SENTINEL GET-MASTER-ADDR-BY-NAME" "<master name>"
      (String.concat EmptyString ["Return the ip and port number of the master with that name."%string; nl; "If a failover is in progress or terminated successfully for this master it returns the address and port of the promoted slave."%string])
      UNDEFINED_SINCE UNDEFINED_EXAMPLE_STR 1 0 f_common_exec_off2;
    new_CommandHolder "SENTINEL RESET" "<pattern>"
      (String.concat EmptyString ["This command will reset all the masters with matching name."%string; nl; "The pattern argument is a glob-style pattern."%string; nl; "The reset process clears any previous state in a master (including a failover in progress), and removes every slave and sentinel already discovered and associated with the master."%string])
      UNDEFINED_SINCE UNDEFINED_EXAMPLE_STR 1 0 f_common_exec_off2;
    new_CommandHolder "SENTINEL FAILOVER" "<master name>"
      "Force a failover as if the master was not reachable, and without asking for agreement to other Sentinels (however a new version of the configuration will be published so that the other Sentinels will update their configurations)."
      UNDEFINED_SINCE UNDEFINED_EXAMPLE_STR 1 0 f_common_exec_off2;
    new_CommandHolder "SENTINEL CKQUORUM" "<master name>"
      (String.concat EmptyString ["Check if the current Sentinel configuration is able to reach the quorum needed to failover a master, and the majority needed to authorize the failover."%string; nl; "This command should be used in monitoring systems to check if a Sentinel deployment is ok."%string])
      UNDEFINED_SINCE UNDEFINED_EXAMPLE_STR 1 0 f_common_exec_off2;
    new_CommandHolder "SENTINEL FLUSHCONFIG" "-"
      (String.concat EmptyString ["Force Sentinel to rewrite its configuration on disk, including the current Sentinel state."%string; nl; "Normally Sentinel rewrites the configuration every time something changes in its state (in the context of the subset of the state which is persisted on disk across restart)."%string; nl; "However sometimes it is possible that the configuration file is lost because of operation errors, disk failures, package upgrade scripts or configuration managers."%string; nl; "In those cases a way to to force Sentinel to rewrite the configuration file is handy."%string; nl; "This command works even if the previous configuration file is completely missing."%string])
      UNDEFINED_SINCE UNDEFINED_EXAMPLE_STR 0 0 f_common_exec_off2;
    new_CommandHolder "SENTINEL MONITOR" "<name> <ip> <port> <quorum>"
      (String.concat EmptyString ["This command tells the Sentinel to start monitoring a new master with the specified name, ip, port, and quorum."%string; nl; "It is identical to the sentinel monitor configuration directive in sentinel.conf configuration file, with the difference that you can't use an hostname in as ip, but you need to provide an IPv4 or IPv6 address."%string])
      UNDEFINED_SINCE UNDEFINED_EXAMPLE_STR 4 0 f_common_exec_off2;
    new_CommandHolder "SENTINEL REMOVE" "<name>"
      "Used in order to remove the specified master: the master will no longer be monitored, and will totally be removed from the internal state of the Sentinel, so it will no longer listed by SENTINEL masters and so forth."
      UNDEFINED_SINCE UNDEFINED_EXAMPLE_STR 1 0 f_common_exec_off2;
    new_CommandHolder "SENTINEL SET" "<name> <option> <value>"
      (String.concat EmptyString ["The SET command is very similar to the CONFIG SET command of Redis, and is used in order to change configuration parameters of a specific master."%string; nl; "Multiple option / value pairs can be specified (or none at all)."%string; nl; "All the configuration parameters that can be configured via sentinel.conf are also configurable using the SET command."%string])
      UNDEFINED_SINCE UNDEFINED_EXAMPLE_STR 3 0 f_common_exec_off2].

(** Entries HELP to HELP. *)
Definition redisCommands_14 : list (CommandHolder fn) := [
    new_CommandHolder "HELP" "[@group][command]"
      "help @<group> to get a list of commands in <group>help <command> for help on <command>"
      UNDEFINED_SINCE UNDEFINED_EXAMPLE_STR 0 2 f_help].

Definition redisCommands : list (CommandHolder fn) :=
  redisCommands_01 ++ redisCommands_02 ++ redisCommands_03 ++ redisCommands_04 ++ redisCommands_05 ++ redisCommands_06 ++ redisCommands_07 ++ redisCommands_08 ++ redisCommands_09 ++ redisCommands_10 ++ redisCommands_11 ++ redisCommands_12 ++ redisCommands_13 ++ redisCommands_14.

End Redis.
