(* ===== verification/KvApi.v ===== *)
(** The command functions of the embedded stores: [commands_api.cpp] of [core/leveldb],
    [core/lmdb], [core/rocksdb], [core/unqlite] and [core/upscaledb]. *)
From Stdlib Require Import Ascii String ZArith Lia.
From stdpp Require Import base list.
From S2P Require Import Prelude Common Values Connection Commands Handlers KvTables.
Local Open Scope Z_scope.

(** The members of these stores' [DBConnection] beyond those of [CDBConnection]; the strings are
    the contents of the out parameter, before and after. *)
Class KvOps (Cfg H W : Type) := {
  kv_stats : Type;
  Stats_ToString : kv_stats → bytes;
  kv_Info : option bytes → CDBConnection Cfg H W → outcome (Error * kv_stats * CDBConnection Cfg H W);
  kv_Keys : bytes → bytes → Z → list bytes → CDBConnection Cfg H W →
            Error * list bytes * CDBConnection Cfg H W;
  kv_DBkcount : CDBConnection Cfg H W → Error * Z * CDBConnection Cfg H W;
  kv_Help : Z → argv_t → CDBConnection Cfg H W → Error * CDBConnection Cfg H W
}.

(** [Info] answers. *)
Class KvReturns (Cfg H W : Type) `{KvOps Cfg H W} : Prop := {
  kv_Info_returns a c : is_val (kv_Info a c)
}.

Class FlushOps (Cfg H W : Type) := {
  kv_Flushdb : CDBConnection Cfg H W → Error * CDBConnection Cfg H W
}.

(** RocksDB adds two. *)
Class RocksOps (Cfg H W : Type) := {
  rocks_Mget : list bytes → list bytes → CDBConnection Cfg H W →
               Error * list bytes * CDBConnection Cfg H W;
  rocks_Merge : bytes → bytes → CDBConnection Cfg H W → Error * CDBConnection Cfg H W
}.

(** * Bodies common to the five files *)

Section KvBodies.
Context {Cfg H W : Type} `{ConnectionTraits Cfg H W} `{CDBImpl Cfg H W} `{KvOps Cfg H W}
  `{FlushOps Cfg H W} `{CommonLib}.

Definition dbkcount_body : handler (hst Cfg H W) := λ argc argv s,
  let '(er, n, c) := kv_DBkcount (conn s) in
  if_null_error er (add_value (VUInteger n)) (with_conn s c).

Definition info_body : handler (hst Cfg H W) := λ argc argv s,
  args ← (if argc =? 1 then a ← aget_str argv 0; Val (Some a) else Val None);
  '(er, statsout, c) ← kv_Info args (conn s);
  if_null_error er (add_value (VString (Stats_ToString statsout))) (with_conn s c).

Definition keys_body : handler (hst Cfg H W) := λ argc argv s,
  a ← aget_str argv 0;
  b ← aget_str argv 1;
  l ← aget_str argv 2;
  let '(er, keysout, c) := kv_Keys a b (FromString_uint64 l) [] (conn s) in
  if_null_error er (add_strings keysout) (with_conn s c).

Definition help_body : handler (hst Cfg H W) := λ argc argv s,
  let '(e, c) := kv_Help (argc - 1) (ashift argv 1) (conn s) in Val (e, with_conn s c).

Definition flushdb_body : handler (hst Cfg H W) := λ argc argv s,
  let '(e, c) := kv_Flushdb (conn s) in Val (e, with_conn s c).

Lemma dbkcount_body_safe k hi : safe_handler k 0 hi dbkcount_body.
Proof. unfold dbkcount_body. solve_safe. Qed.

Lemma info_body_safe `{!KvReturns Cfg H W} k hi : 0 <= k → safe_handler k 0 hi info_body.
Proof.
  intros Hk argc p s Hp Hr. unfold info_body.
  destruct (Z.eqb_spec argc 1) as [->|].
  - destruct (aget_str_ok 1 p 0) as [x E]; [eapply argv_ok_shift; [done|lia..]|lia|].
    rewrite E. simpl. destruct (kv_Info_returns (Some x) (conn s)) as [[[]] ->]. simpl. auto with fasto.
  - simpl. destruct (kv_Info_returns None (conn s)) as [[[]] ->]. simpl. auto with fasto.
Qed.

Lemma keys_body_safe k hi : 0 <= k → safe_handler k 3 hi keys_body.
Proof. intros Hk. unfold keys_body. solve_safe. Qed.

Lemma help_body_safe k hi : safe_handler k 0 hi help_body.
Proof. intros argc p s _ _. unfold help_body. destruct (kv_Help _ _ _). by eexists. Qed.

Lemma flushdb_body_safe k hi : safe_handler k 0 hi flushdb_body.
Proof. intros argc p s _ _. unfold flushdb_body. destruct (kv_Flushdb _). by eexists. Qed.
End KvBodies.

#[export] Hint Resolve dbkcount_body_safe info_body_safe keys_body_safe help_body_safe
  flushdb_body_safe : fasto.

(** * LevelDB *)

Module LeveldbApi.
Section Api.
Context {Cfg H W : Type} `{ConnectionTraits Cfg H W} `{CDBImpl Cfg H W} `{KvOps Cfg H W}
  `{FlushOps Cfg H W} `{CommonLib}.

Definition dbkcount : handler (hst Cfg H W) := dbkcount_body.
Definition info : handler (hst Cfg H W) := info_body.
Definition select : handler (hst Cfg H W) := select_body.
Definition set : handler (hst Cfg H W) := set_body.
Definition get : handler (hst Cfg H W) := get_body.
Definition del : handler (hst Cfg H W) := del_body.
Definition rename : handler (hst Cfg H W) := rename_body.
Definition set_ttl : handler (hst Cfg H W) := set_ttl_time_body.
Definition keys : handler (hst Cfg H W) := keys_body.
Definition help : handler (hst Cfg H W) := help_body.
Definition flushdb : handler (hst Cfg H W) := flushdb_body.
Definition quit : handler (hst Cfg H W) := quit_body.

Definition run (f : Leveldb.fn) : handler (hst Cfg H W) :=
  match f with
  | Leveldb.f_select => select | Leveldb.f_set => set | Leveldb.f_get => get
  | Leveldb.f_del => del | Leveldb.f_rename => rename | Leveldb.f_set_ttl => set_ttl
  | Leveldb.f_info => info | Leveldb.f_keys => keys | Leveldb.f_dbkcount => dbkcount
  | Leveldb.f_help => help | Leveldb.f_flushdb => flushdb | Leveldb.f_quit => quit
  end.
End Api.

Definition fn_min (f : Leveldb.fn) : Z :=
  match f with
  | Leveldb.f_select => 1 | Leveldb.f_set => 2 | Leveldb.f_get => 1 | Leveldb.f_rename => 2
  | Leveldb.f_set_ttl => 2 | Leveldb.f_keys => 3 | _ => 0
  end.
End LeveldbApi.

(** * LMDB *)

Module LmdbApi.
Section Api.
Context {Cfg H W : Type} `{ConnectionTraits Cfg H W} `{CDBImpl Cfg H W} `{KvOps Cfg H W}
  `{FlushOps Cfg H W} `{CommonLib}.

Definition info : handler (hst Cfg H W) := info_body.
Definition dbkcount : handler (hst Cfg H W) := dbkcount_body.
Definition select : handler (hst Cfg H W) := select_body.
Definition set : handler (hst Cfg H W) := set_body.
Definition get : handler (hst Cfg H W) := get_body.
Definition del : handler (hst Cfg H W) := del_body.
Definition rename : handler (hst Cfg H W) := rename_body.
Definition set_ttl : handler (hst Cfg H W) := set_ttl_time_body.
Definition keys : handler (hst Cfg H W) := keys_body.
Definition help : handler (hst Cfg H W) := help_body.
Definition flushdb : handler (hst Cfg H W) := flushdb_body.
Definition quit : handler (hst Cfg H W) := quit_body.

Definition run (f : Lmdb.fn) : handler (hst Cfg H W) :=
  match f with
  | Lmdb.f_select => select | Lmdb.f_set => set | Lmdb.f_get => get
  | Lmdb.f_del => del | Lmdb.f_rename => rename | Lmdb.f_set_ttl => set_ttl
  | Lmdb.f_info => info | Lmdb.f_keys => keys | Lmdb.f_dbkcount => dbkcount
  | Lmdb.f_help => help | Lmdb.f_flushdb => flushdb | Lmdb.f_quit => quit
  end.
End Api.

Definition fn_min (f : Lmdb.fn) : Z :=
  match f with
  | Lmdb.f_select => 1 | Lmdb.f_set => 2 | Lmdb.f_get => 1 | Lmdb.f_rename => 2
  | Lmdb.f_set_ttl => 2 | Lmdb.f_keys => 3 | _ => 0
  end.
End LmdbApi.

(** * RocksDB *)

Module RocksdbApi.
Section Api.
Context {Cfg H W : Type} `{ConnectionTraits Cfg H W} `{CDBImpl Cfg H W} `{KvOps Cfg H W}
  `{FlushOps Cfg H W} `{RocksOps Cfg H W} `{CommonLib}.

Definition info : handler (hst Cfg H W) := info_body.
Definition select : handler (hst Cfg H W) := select_body.
Definition set : handler (hst Cfg H W) := set_body.
Definition get : handler (hst Cfg H W) := get_body.

Definition mget : handler (hst Cfg H W) := λ argc argv s,
  keysget ← aget_range argv 0 (Z.to_nat argc);
  let '(er, keysout, c) := rocks_Mget keysget [] (conn s) in
  if_null_error er (add_strings keysout) (with_conn s c).

Definition merge : handler (hst Cfg H W) := λ argc argv s,
  a ← aget_str argv 0;
  b ← aget_str argv 1;
  let '(er, c) := rocks_Merge a b (conn s) in
  if_null_error er (add_value OK_value) (with_conn s c).

Definition del : handler (hst Cfg H W) := del_body.
Definition rename : handler (hst Cfg H W) := rename_body.

Definition set_ttl : handler (hst Cfg H W) := λ argc argv s,
  k ← aget_str argv 0;
  t ← aget_str argv 1;
  '(err, c) ← SetTTL (new_NKey k) (FromString_int t) (conn s);
  unless_error err (add_value OK_value) (with_conn s c).

Definition keys : handler (hst Cfg H W) := keys_body.
Definition dbkcount : handler (hst Cfg H W) := dbkcount_body.
Definition help : handler (hst Cfg H W) := help_body.
Definition flushdb : handler (hst Cfg H W) := flushdb_body.
Definition quit : handler (hst Cfg H W) := quit_body.

Definition run (f : Rocksdb.fn) : handler (hst Cfg H W) :=
  match f with
  | Rocksdb.f_info => info | Rocksdb.f_select => select | Rocksdb.f_set => set
  | Rocksdb.f_get => get | Rocksdb.f_mget => mget | Rocksdb.f_merge => merge
  | Rocksdb.f_del => del | Rocksdb.f_rename => rename | Rocksdb.f_set_ttl => set_ttl
  | Rocksdb.f_keys => keys | Rocksdb.f_dbkcount => dbkcount | Rocksdb.f_help => help
  | Rocksdb.f_flushdb => flushdb | Rocksdb.f_quit => quit
  end.

Lemma mget_safe k hi : 0 <= k → safe_handler k 0 hi mget.
Proof. intros Hk. unfold mget. solve_safe. Qed.
Lemma merge_safe k hi : 0 <= k → safe_handler k 2 hi merge.
Proof. intros Hk. unfold merge. solve_safe. Qed.
Lemma rocksdb_set_ttl_safe `{!ImplReturns (Cfg := Cfg) (H := H) (W := W)} k hi :
  0 <= k → safe_handler k 2 hi set_ttl.
Proof. intros Hk. unfold set_ttl. solve_safe. Qed.
End Api.

#[global] Hint Resolve mget_safe merge_safe rocksdb_set_ttl_safe : fasto.

Definition fn_min (f : Rocksdb.fn) : Z :=
  match f with
  | Rocksdb.f_select => 1 | Rocksdb.f_set => 2 | Rocksdb.f_get => 1 | Rocksdb.f_merge => 2
  | Rocksdb.f_rename => 2 | Rocksdb.f_set_ttl => 2 | Rocksdb.f_keys => 3 | _ => 0
  end.
End RocksdbApi.

(** * UnQLite *)

Module UnqliteApi.
Section Api.
Context {Cfg H W : Type} `{ConnectionTraits Cfg H W} `{CDBImpl Cfg H W} `{KvOps Cfg H W}
  `{FlushOps Cfg H W} `{CommonLib}.

Definition select : handler (hst Cfg H W) := select_body.
Definition set : handler (hst Cfg H W) := set_body.
Definition get : handler (hst Cfg H W) := get_body.
Definition del : handler (hst Cfg H W) := del_body.
Definition rename : handler (hst Cfg H W) := rename_body.

Definition set_ttl : handler (hst Cfg H W) := λ argc argv s,
  k ← aget_str argv 0;
  t ← aget_str argv 1;
  '(er, c) ← SetTTL (new_NKey k) (FromString_int t) (conn s);
  if_null_error er (add_value OK_value) (with_conn s c).

Definition keys : handler (hst Cfg H W) := keys_body.
Definition info : handler (hst Cfg H W) := info_body.
Definition dbkcount : handler (hst Cfg H W) := dbkcount_body.
Definition help : handler (hst Cfg H W) := help_body.
Definition flushdb : handler (hst Cfg H W) := flushdb_body.
Definition quit : handler (hst Cfg H W) := quit_body.

Definition run (f : Unqlite.fn) : handler (hst Cfg H W) :=
  match f with
  | Unqlite.f_select => select | Unqlite.f_set => set | Unqlite.f_get => get
  | Unqlite.f_del => del | Unqlite.f_rename => rename | Unqlite.f_set_ttl => set_ttl
  | Unqlite.f_keys => keys | Unqlite.f_info => info | Unqlite.f_dbkcount => dbkcount
  | Unqlite.f_help => help | Unqlite.f_flushdb => flushdb | Unqlite.f_quit => quit
  end.

Lemma unqlite_set_ttl_safe `{!ImplReturns (Cfg := Cfg) (H := H) (W := W)} k hi :
  0 <= k → safe_handler k 2 hi set_ttl.
Proof. intros Hk. unfold set_ttl. solve_safe. Qed.
End Api.

#[global] Hint Resolve unqlite_set_ttl_safe : fasto.

Definition fn_min (f : Unqlite.fn) : Z :=
  match f with
  | Unqlite.f_select => 1 | Unqlite.f_set => 2 | Unqlite.f_get => 1 | Unqlite.f_rename => 2
  | Unqlite.f_set_ttl => 2 | Unqlite.f_keys => 3 | _ => 0
  end.
End UnqliteApi.

(** * UpscaleDB *)

Module UpscaledbApi.
Section Api.
Context {Cfg H W : Type} `{ConnectionTraits Cfg H W} `{CDBImpl Cfg H W} `{KvOps Cfg H W}
  `{FlushOps Cfg H W} `{CommonLib}.

Definition info : handler (hst Cfg H W) := info_body.
Definition dbkcount : handler (hst Cfg H W) := dbkcount_body.
Definition select : handler (hst Cfg H W) := select_body.
Definition set : handler (hst Cfg H W) := set_body.
Definition get : handler (hst Cfg H W) := get_body.
Definition del : handler (hst Cfg H W) := del_body.
Definition rename : handler (hst Cfg H W) := rename_body.
Definition set_ttl : handler (hst Cfg H W) := set_ttl_time_body.
Definition keys : handler (hst Cfg H W) := keys_body.
Definition help : handler (hst Cfg H W) := help_body.
Definition flushdb : handler (hst Cfg H W) := flushdb_body.
Definition quit : handler (hst Cfg H W) := quit_body.

Definition run (f : Upscaledb.fn) : handler (hst Cfg H W) :=
  match f with
  | Upscaledb.f_select => select | Upscaledb.f_set => set | Upscaledb.f_get => get
  | Upscaledb.f_del => del | Upscaledb.f_rename => rename | Upscaledb.f_set_ttl => set_ttl
  | Upscaledb.f_info => info | Upscaledb.f_keys => keys | Upscaledb.f_dbkcount => dbkcount
  | Upscaledb.f_help => help | Upscaledb.f_flushdb => flushdb | Upscaledb.f_quit => quit
  end.
End Api.

Definition fn_min (f : Upscaledb.fn) : Z :=
  match f with
  | Upscaledb.f_select => 1 | Upscaledb.f_set => 2 | Upscaledb.f_get => 1
  | Upscaledb.f_rename => 2 | Upscaledb.f_set_ttl => 2 | Upscaledb.f_keys => 3 | _ => 0
  end.
End UpscaledbApi.

(** * The five tables are safe *)

Section KvSafety.
Context {Cfg H W : Type} `{ConnectionTraits Cfg H W} `{CDBImpl Cfg H W} `{KvOps Cfg H W}
  `{FlushOps Cfg H W} `{RocksOps Cfg H W} `{CommonLaws} `{!ImplReturns (Cfg := Cfg) (H := H) (W := W)} `{!KvReturns Cfg H W} `{!GetLoads}.

Ltac solve_table_safe fnmin :=
  apply (table_safe_by _ fnmin (λ _ _, true)); [|by vm_compute];
  let f := fresh "f" in intros f ? ? ? _; destruct f; simpl; auto with fasto.

Lemma leveldb_table_safe :
  table_safe (Cfg := Cfg) (H := H) (W := W) LeveldbApi.run Leveldb.leveldbCommands.
Proof. solve_table_safe LeveldbApi.fn_min. Qed.
Lemma lmdb_table_safe :
  table_safe (Cfg := Cfg) (H := H) (W := W) LmdbApi.run Lmdb.lmdbCommands.
Proof. solve_table_safe LmdbApi.fn_min. Qed.
Lemma rocksdb_table_safe :
  table_safe (Cfg := Cfg) (H := H) (W := W) RocksdbApi.run Rocksdb.rocksdbCommands.
Proof. solve_table_safe RocksdbApi.fn_min. Qed.
Lemma unqlite_table_safe :
  table_safe (Cfg := Cfg) (H := H) (W := W) UnqliteApi.run Unqlite.unqliteCommands.
Proof. solve_table_safe UnqliteApi.fn_min. Qed.
Lemma upscaledb_table_safe :
  table_safe (Cfg := Cfg) (H := H) (W := W) UpscaledbApi.run Upscaledb.upscaledbCommands.
Proof. solve_table_safe UpscaledbApi.fn_min. Qed.
End KvSafety.
