(* ===== verification/MemcachedApi.v ===== *)
(** The command functions of [core/memcached/internal/commands_api.cpp]. *)
From Stdlib Require Import Ascii String ZArith Lia.
From stdpp Require Import base list.
From S2P Require Import Prelude Common Values Connection Commands Handlers RemoteTables KvApi.
Local Open Scope Z_scope.

(** Members of [memcached::DBConnection] beyond [CDBConnection] and those it shares with the
    embedded stores. *)
Class MemOps (Cfg H W : Type) := {
  mem_AddIfNotExist : bytes → bytes → Z → Z → CDBConnection Cfg H W → Error * CDBConnection Cfg H W;
  mem_Replace : bytes → bytes → Z → Z → CDBConnection Cfg H W → Error * CDBConnection Cfg H W;
  mem_Append : bytes → bytes → Z → Z → CDBConnection Cfg H W → Error * CDBConnection Cfg H W;
  mem_Prepend : bytes → bytes → Z → Z → CDBConnection Cfg H W → Error * CDBConnection Cfg H W;
  mem_Incr : bytes → Z → CDBConnection Cfg H W → Error * CDBConnection Cfg H W;
  mem_Decr : bytes → Z → CDBConnection Cfg H W → Error * CDBConnection Cfg H W;
  mem_Flushdb : Z → CDBConnection Cfg H W → Error * CDBConnection Cfg H W;
  mem_VersionServer : CDBConnection Cfg H W → Error * CDBConnection Cfg H W
}.

Module MemcachedApi.
Section Api.
Context {Cfg H W : Type} `{ConnectionTraits Cfg H W} `{CDBImpl Cfg H W} `{KvOps Cfg H W}
  `{MemOps Cfg H W} `{CommonLib}.

Definition keys : handler (hst Cfg H W) := keys_body.

(** [SIZEOFMASS(argv)] is the size of a pointer over the size of a pointer. *)
Definition stats : handler (hst Cfg H W) := λ argc argv s,
  args ← (if argc =? 1 then a ← aget argv 0; Val (Some a) else Val None);
  if match args with Some a => strcaseeq a (lit "items") | None => false end
  then keys 1 (Argv [lit "a"; lit "z"; lit "100"] 0) s
  else
    '(er, statsout, c) ← kv_Info (c_str <$> args) (conn s);
    if_null_error er (add_value (VString (Stats_ToString statsout))) (with_conn s c).

Definition get : handler (hst Cfg H W) := get_body.

(** The four storage commands read the value last: [key flags exptime value]. *)
Definition store_body
    (op : bytes → bytes → Z → Z → CDBConnection Cfg H W → Error * CDBConnection Cfg H W)
    : handler (hst Cfg H W) := λ argc argv s,
  k ← aget_str argv 0;
  v ← aget_str argv 3;
  t ← aget_str argv 2;
  f ← aget_str argv 1;
  let '(er, c) := op k v (FromString_time t) (FromString_uint32 f) (conn s) in
  if_null_error er (add_value OK_value) (with_conn s c).

Definition add : handler (hst Cfg H W) := store_body mem_AddIfNotExist.
Definition replace : handler (hst Cfg H W) := store_body mem_Replace.
Definition append : handler (hst Cfg H W) := store_body mem_Append.
Definition prepend : handler (hst Cfg H W) := store_body mem_Prepend.

Definition incr : handler (hst Cfg H W) := λ argc argv s,
  k ← aget_str argv 0;
  v ← aget_str argv 1;
  let '(er, c) := mem_Incr k (FromString_uint64 v) (conn s) in
  if_null_error er (add_value OK_value) (with_conn s c).

Definition decr : handler (hst Cfg H W) := λ argc argv s,
  k ← aget_str argv 0;
  v ← aget_str argv 1;
  let '(er, c) := mem_Decr k (FromString_uint64 v) (conn s) in
  if_null_error er (add_value OK_value) (with_conn s c).

Definition select : handler (hst Cfg H W) := select_body.

(** The value is [argv[1]]. *)
Definition set : handler (hst Cfg H W) := set_body.

Definition rename : handler (hst Cfg H W) := rename_body.
Definition set_ttl : handler (hst Cfg H W) := set_ttl_time_body.
Definition del : handler (hst Cfg H W) := del_body.

Definition flushdb : handler (hst Cfg H W) := λ argc argv s,
  t ← (if argc =? 1 then a ← aget_str argv 0; Val (FromString_time a) else Val 0);
  let '(er, c) := mem_Flushdb t (conn s) in
  if_null_error er (add_value OK_value) (with_conn s c).

Definition version_server : handler (hst Cfg H W) := λ argc argv s,
  let '(e, c) := mem_VersionServer (conn s) in Val (e, with_conn s c).

Definition dbkcount : handler (hst Cfg H W) := dbkcount_body.
Definition help : handler (hst Cfg H W) := help_body.
Definition expire : handler (hst Cfg H W) := λ argc argv s, set_ttl argc argv s.
Definition quit : handler (hst Cfg H W) := quit_body.

Definition run (f : Memcached.fn) : handler (hst Cfg H W) :=
  match f with
  | Memcached.f_keys => keys | Memcached.f_stats => stats | Memcached.f_get => get
  | Memcached.f_add => add | Memcached.f_replace => replace | Memcached.f_append => append
  | Memcached.f_prepend => prepend | Memcached.f_incr => incr | Memcached.f_decr => decr
  | Memcached.f_select => select | Memcached.f_set => set | Memcached.f_rename => rename
  | Memcached.f_set_ttl => set_ttl | Memcached.f_del => del | Memcached.f_flushdb => flushdb
  | Memcached.f_version_server => version_server | Memcached.f_dbkcount => dbkcount
  | Memcached.f_help => help | Memcached.f_expire => expire | Memcached.f_quit => quit
  end.

Definition fn_min (f : Memcached.fn) : Z :=
  match f with
  | Memcached.f_keys => 3 | Memcached.f_get => 1 | Memcached.f_add | Memcached.f_replace
  | Memcached.f_append | Memcached.f_prepend => 4 | Memcached.f_incr | Memcached.f_decr => 2
  | Memcached.f_select => 1 | Memcached.f_set | Memcached.f_rename | Memcached.f_set_ttl
  | Memcached.f_expire => 2 | _ => 0
  end.

Lemma store_body_safe op k hi : 0 <= k → safe_handler k 4 hi (store_body op).
Proof. intros Hk. unfold store_body. solve_safe. Qed.
Lemma incr_safe k hi : 0 <= k → safe_handler k 2 hi incr.
Proof. intros Hk. unfold incr. solve_safe. Qed.
Lemma decr_safe k hi : 0 <= k → safe_handler k 2 hi decr.
Proof. intros Hk. unfold decr. solve_safe. Qed.

Lemma stats_safe `{!KvReturns Cfg H W} k hi : 0 <= k → safe_handler k 0 hi stats.
Proof.
  intros Hk argc p s Hp Hr. unfold stats.
  destruct (Z.eqb_spec argc 1) as [->|].
  - destruct (aget_ok 1 p 0) as [x E]; [eapply argv_ok_shift; [done|lia..]|lia|].
    rewrite E. simpl. destruct (strcaseeq _ _).
    + unfold keys, keys_body. simpl. destruct (kv_Keys _ _ _ _ _) as [[]]. auto with fasto.
    + destruct (kv_Info_returns (c_str <$> Some x) (conn s)) as [[[]] E']. simpl in E' |- *. rewrite E'. simpl. auto with fasto.
  - simpl. destruct (kv_Info_returns None (conn s)) as [[[]] ->]. simpl. auto with fasto.
Qed.

Lemma flushdb_safe k hi : 0 <= k → safe_handler k 0 hi flushdb.
Proof.
  intros Hk argc p s Hp Hr. unfold flushdb.
  destruct (Z.eqb_spec argc 1) as [->|].
  - destruct (aget_str_ok 1 p 0) as [x E]; [eapply argv_ok_shift; [done|lia..]|lia|].
    rewrite E. simpl. destruct (mem_Flushdb _ _). auto with fasto.
  - simpl. destruct (mem_Flushdb _ _). auto with fasto.
Qed.

Lemma version_server_safe k hi : safe_handler k 0 hi version_server.
Proof. intros argc p s _ _. unfold version_server. destruct (mem_VersionServer _). by eexists. Qed.
End Api.

#[global] Hint Resolve store_body_safe incr_safe decr_safe stats_safe flushdb_safe
  version_server_safe : fasto.

Section Table.
Context {Cfg H W : Type} `{ConnectionTraits Cfg H W} `{CDBImpl Cfg H W} `{KvOps Cfg H W}
  `{MemOps Cfg H W} `{CommonLaws} `{!ImplReturns (Cfg := Cfg) (H := H) (W := W)} `{!KvReturns Cfg H W} `{!GetLoads}.

Lemma memcached_table_safe :
  table_safe (Cfg := Cfg) (H := H) (W := W) run Memcached.memcachedCommands.
Proof.
  apply (table_safe_by _ fn_min (λ _ _, true)); [|by vm_compute].
  intros f k hi Hk _. destruct f; simpl; unfold add, replace, append, prepend;
    try (apply set_ttl_time_body_safe; done); auto with fasto.
Qed.
End Table.
End MemcachedApi.
