(* ===== verification/SsdbApi.v ===== *)
(** The command functions of [core/ssdb/internal/commands_api.cpp]. *)
From Stdlib Require Import Ascii String ZArith Lia.
From stdpp Require Import base list strings gmap.
From S2P Require Import Prelude Common Values Connection Commands Handlers RemoteTables KvApi.
Local Open Scope Z_scope.

(** * The calls the functions make on [ssdb::DBConnection], by the type of their result *)

Inductive unit_call :=
| C_Auth (password : bytes)
| C_Setx (key value : bytes) (ttl : Z)
| C_MultiSet (kvs : gmap bytes bytes)
| C_MultiDel (keys : list bytes)
| C_Hset (name key value : bytes)
| C_Hdel (name key : bytes)
| C_MultiHset (name : bytes) (keys : gmap bytes bytes)
| C_Zset (name key : bytes) (score : Z)
| C_Zdel (name key : bytes)
| C_MultiZset (name : bytes) (kss : gmap bytes Z)
| C_MultiZdel (name : bytes) (keys : list bytes)
| C_Qpush (name item : bytes)
| C_Flushdb.

Inductive int_call :=
| C_DBsize
| C_Incr (key : bytes) (incrby : Z)
| C_Hincr (name key : bytes) (incrby : Z)
| C_Hsize (name : bytes)
| C_Hclear (name : bytes)
| C_Zget (name key : bytes)
| C_Zincr (name key : bytes) (incrby : Z)
| C_Zsize (name : bytes)
| C_Zclear (name : bytes)
| C_Zrank (name key : bytes)
| C_Zrrank (name key : bytes)
| C_Qclear (name : bytes).

Inductive string_call :=
| C_Hget (name key : bytes)
| C_Qpop (name : bytes).

Inductive list_call :=
| C_Scan (key_start key_end : bytes) (limit : Z)
| C_Rscan (key_start key_end : bytes) (limit : Z)
| C_MultiGet (keys : list bytes)
| C_Hgetall (name : bytes)
| C_Hkeys (name key_start key_end : bytes) (limit : Z)
| C_Hscan (name key_start key_end : bytes) (limit : Z)
| C_Hrscan (name key_start key_end : bytes) (limit : Z)
| C_MultiHget (name : bytes) (keys : list bytes)
| C_Zrange (name : bytes) (offset limit : Z)
| C_Zrrange (name : bytes) (offset limit : Z)
| C_Zkeys (name key_start : bytes) (score_start score_end limit : Z)
| C_Zscan (name key_start : bytes) (score_start score_end limit : Z)
| C_Zrscan (name key_start : bytes) (score_start score_end limit : Z)
| C_MultiZget (name : bytes) (keys : list bytes)
| C_Qslice (name : bytes) (begin_ end_ : Z).

Class SsdbOps (Cfg H W : Type) := {
  ssdb_unit : unit_call → CDBConnection Cfg H W → Error * CDBConnection Cfg H W;
  ssdb_int : int_call → CDBConnection Cfg H W → Error * Z * CDBConnection Cfg H W;
  ssdb_string : string_call → CDBConnection Cfg H W → Error * bytes * CDBConnection Cfg H W;
  ssdb_list : list_call → CDBConnection Cfg H W → Error * list bytes * CDBConnection Cfg H W
}.

Module SsdbApi.
Section Api.
Context {Cfg H W : Type} `{ConnectionTraits Cfg H W} `{CDBImpl Cfg H W} `{KvOps Cfg H W}
  `{SsdbOps Cfg H W} `{CommonLib}.
Local Abbreviation handler := (handler (hst Cfg H W)).

(** The three ways to answer a call. *)
Definition answer_ok (call : unit_call) (s : hst Cfg H W) : outcome (Error * hst Cfg H W) :=
  let '(er, c) := ssdb_unit call (conn s) in
  if_null_error er (add_value OK_value) (with_conn s c).
Definition answer_int (call : int_call) (s : hst Cfg H W) : outcome (Error * hst Cfg H W) :=
  let '(er, n, c) := ssdb_int call (conn s) in
  if_null_error er (add_value (VInteger n)) (with_conn s c).
Definition answer_uint (call : int_call) (s : hst Cfg H W) : outcome (Error * hst Cfg H W) :=
  let '(er, n, c) := ssdb_int call (conn s) in
  if_null_error er (add_value (VUInteger n)) (with_conn s c).
Definition answer_string (call : string_call) (s : hst Cfg H W) : outcome (Error * hst Cfg H W) :=
  let '(er, v, c) := ssdb_string call (conn s) in
  if_null_error er (add_value (VString v)) (with_conn s c).
Definition answer_list (call : list_call) (s : hst Cfg H W) : outcome (Error * hst Cfg H W) :=
  let '(er, l, c) := ssdb_list call (conn s) in
  if_null_error er (add_strings l) (with_conn s c).

Definition info : handler := info_body.
Definition dbsize : handler := λ argc argv s, answer_uint C_DBsize s.
Definition auth : handler := λ argc argv s, a ← aget_str argv 0; answer_ok (C_Auth a) s.
Definition get : handler := get_body.
Definition select : handler := select_body.
Definition set : handler := set_body.

Definition setx : handler := λ argc argv s,
  k ← aget_str argv 0; v ← aget_str argv 1; t ← aget_str argv 2;
  answer_ok (C_Setx k v (FromString_int t)) s.

Definition del : handler := del_body.
Definition rename : handler := rename_body.

Definition set_ttl : handler := λ argc argv s,
  k ← aget_str argv 0; t ← aget_str argv 1;
  '(er, c) ← SetTTL (new_NKey k) (FromString_int t) (conn s);
  if_null_error er (add_value OK_value) (with_conn s c).

Definition incr : handler := λ argc argv s,
  k ← aget_str argv 0; n ← aget_str argv 1; answer_int (C_Incr k (FromString_int64 n)) s.

Definition keys : handler := keys_body.

Definition scan : handler := λ argc argv s,
  a ← aget_str argv 0; b ← aget_str argv 1; l ← aget_str argv 2;
  answer_list (C_Scan a b (FromString_uint64 l)) s.

Definition rscan : handler := λ argc argv s,
  a ← aget_str argv 0; b ← aget_str argv 1; l ← aget_str argv 2;
  answer_list (C_Rscan a b (FromString_uint64 l)) s.

Definition multi_get : handler := λ argc argv s,
  ks ← aget_range argv 0 (Z.to_nat argc); answer_list (C_MultiGet ks) s.

(** [for (int i = i0; i < argc; i += 2) m[argv[i]] = argv[i + 1];] with [n] a bound on the
    iterations. *)
Fixpoint pairs_loop (argc : Z) (argv : argv_t) (i : Z) (n : nat) (m : gmap bytes bytes)
    : outcome (gmap bytes bytes) :=
  if i <? argc then
    match n with
    | O => Fault OutOfFuel
    | S n' => k ← aget_str argv i; v ← aget_str argv (i + 1);
              pairs_loop argc argv (i + 2) n' (<[k := v]> m)
    end
  else Val m.

Definition multi_set : handler := λ argc argv s,
  m ← pairs_loop argc argv 0 (Z.to_nat argc) ∅; answer_ok (C_MultiSet m) s.

Definition multi_del : handler := λ argc argv s,
  ks ← aget_range argv 0 (Z.to_nat argc); answer_ok (C_MultiDel ks) s.

Definition hget : handler := λ argc argv s,
  n ← aget_str argv 0; k ← aget_str argv 1; answer_string (C_Hget n k) s.

Definition hgetall : handler := λ argc argv s,
  n ← aget_str argv 0; answer_list (C_Hgetall n) s.

Definition hset : handler := λ argc argv s,
  n ← aget_str argv 0; k ← aget_str argv 1; v ← aget_str argv 2; answer_ok (C_Hset n k v) s.

Definition hdel : handler := λ argc argv s,
  n ← aget_str argv 0; k ← aget_str argv 1; answer_ok (C_Hdel n k) s.

Definition hincr : handler := λ argc argv s,
  n ← aget_str argv 0; k ← aget_str argv 1; i ← aget_str argv 2;
  answer_int (C_Hincr n k (FromString_int64 i)) s.

Definition hsize : handler := λ argc argv s, n ← aget_str argv 0; answer_int (C_Hsize n) s.
Definition hclear : handler := λ argc argv s, n ← aget_str argv 0; answer_int (C_Hclear n) s.

Definition hkeys : handler := λ argc argv s,
  n ← aget_str argv 0; a ← aget_str argv 1; b ← aget_str argv 2; l ← aget_str argv 3;
  answer_list (C_Hkeys n a b (FromString_uint64 l)) s.

Definition hscan : handler := λ argc argv s,
  n ← aget_str argv 0; a ← aget_str argv 1; b ← aget_str argv 2; l ← aget_str argv 3;
  answer_list (C_Hscan n a b (FromString_uint64 l)) s.

Definition hrscan : handler := λ argc argv s,
  n ← aget_str argv 0; a ← aget_str argv 1; b ← aget_str argv 2; l ← aget_str argv 3;
  answer_list (C_Hrscan n a b (FromString_uint64 l)) s.

(** [for (int i = 1; i < argc; ++i) keysget.push_back(argv[i]);] *)
Definition rest_args (argc : Z) (argv : argv_t) : outcome (list bytes) :=
  aget_range argv 1 (Z.to_nat (argc - 1)).

Definition multi_hget : handler := λ argc argv s,
  ks ← rest_args argc argv; n ← aget_str argv 0; answer_list (C_MultiHget n ks) s.

Definition multi_hset : handler := λ argc argv s,
  m ← pairs_loop argc argv 1 (Z.to_nat argc) ∅; n ← aget_str argv 0;
  answer_ok (C_MultiHset n m) s.

Definition zget : handler := λ argc argv s,
  n ← aget_str argv 0; k ← aget_str argv 1; answer_int (C_Zget n k) s.

Definition zset : handler := λ argc argv s,
  n ← aget_str argv 0; k ← aget_str argv 1; i ← aget_str argv 2;
  answer_ok (C_Zset n k (FromString_int64 i)) s.

Definition zdel : handler := λ argc argv s,
  n ← aget_str argv 0; k ← aget_str argv 1; answer_ok (C_Zdel n k) s.

Definition zincr : handler := λ argc argv s,
  n ← aget_str argv 0; k ← aget_str argv 1; i ← aget_str argv 2;
  answer_int (C_Zincr n k (FromString_int64 i)) s.

Definition zsize : handler := λ argc argv s, n ← aget_str argv 0; answer_int (C_Zsize n) s.
Definition zclear : handler := λ argc argv s, n ← aget_str argv 0; answer_int (C_Zclear n) s.

Definition zrank : handler := λ argc argv s,
  n ← aget_str argv 0; k ← aget_str argv 1; answer_int (C_Zrank n k) s.

Definition zrrank : handler := λ argc argv s,
  n ← aget_str argv 0; k ← aget_str argv 1; answer_int (C_Zrrank n k) s.

Definition zrange : handler := λ argc argv s,
  n ← aget_str argv 0; a ← aget_str argv 1; b ← aget_str argv 2;
  answer_list (C_Zrange n (FromString_uint64 a) (FromString_uint64 b)) s.

Definition zrrange : handler := λ argc argv s,
  n ← aget_str argv 0; a ← aget_str argv 1; b ← aget_str argv 2;
  answer_list (C_Zrrange n (FromString_uint64 a) (FromString_uint64 b)) s.

(** The limit is read at [argv[5]]. *)
Definition zkeys : handler := λ argc argv s,
  st ← aget_str argv 2; en ← aget_str argv 3;
  n ← aget_str argv 0; k ← aget_str argv 1; l ← aget_str argv 5;
  answer_list (C_Zkeys n k (FromString_int64 st) (FromString_int64 en) (FromString_uint64 l)) s.

Definition zscan : handler := λ argc argv s,
  st ← aget_str argv 2; en ← aget_str argv 3;
  n ← aget_str argv 0; k ← aget_str argv 1; l ← aget_str argv 4;
  answer_list (C_Zscan n k (FromString_int64 st) (FromString_int64 en) (FromString_uint64 l)) s.

Definition zrscan : handler := λ argc argv s,
  st ← aget_str argv 2; en ← aget_str argv 3;
  n ← aget_str argv 0; k ← aget_str argv 1; l ← aget_str argv 4;
  answer_list (C_Zrscan n k (FromString_int64 st) (FromString_int64 en) (FromString_uint64 l)) s.

Definition multi_zget : handler := λ argc argv s,
  ks ← rest_args argc argv; n ← aget_str argv 0; answer_list (C_MultiZget n ks) s.

Definition multi_zset : handler := λ argc argv s,
  m ← pairs_loop argc argv 1 (Z.to_nat argc) ∅; n ← aget_str argv 0;
  answer_ok (C_MultiZset n (FromString_int64 <$> m)) s.

Definition multi_zdel : handler := λ argc argv s,
  ks ← rest_args argc argv; n ← aget_str argv 0; answer_ok (C_MultiZdel n ks) s.

Definition qpush : handler := λ argc argv s,
  n ← aget_str argv 0; i ← aget_str argv 1; answer_ok (C_Qpush n i) s.

Definition qpop : handler := λ argc argv s, n ← aget_str argv 0; answer_string (C_Qpop n) s.

Definition qslice : handler := λ argc argv s,
  a ← aget_str argv 1; b ← aget_str argv 2; n ← aget_str argv 0;
  answer_list (C_Qslice n (FromString_int64 a) (FromString_int64 b)) s.

Definition qclear : handler := λ argc argv s, n ← aget_str argv 0; answer_int (C_Qclear n) s.
Definition dbkcount : handler := dbkcount_body.
Definition help : handler := help_body.

(** Its error is returned as it is, without an answer. *)
Definition flushdb : handler := λ argc argv s,
  let '(e, c) := ssdb_unit C_Flushdb (conn s) in Val (e, with_conn s c).

Definition quit : handler := quit_body.

Definition run (f : Ssdb.fn) : handler :=
  match f with
  | Ssdb.f_info => info | Ssdb.f_dbsize => dbsize | Ssdb.f_auth => auth | Ssdb.f_get => get
  | Ssdb.f_select => select | Ssdb.f_set => set | Ssdb.f_setx => setx | Ssdb.f_del => del
  | Ssdb.f_rename => rename | Ssdb.f_set_ttl => set_ttl | Ssdb.f_incr => incr
  | Ssdb.f_keys => keys | Ssdb.f_scan => scan | Ssdb.f_rscan => rscan
  | Ssdb.f_multi_get => multi_get | Ssdb.f_multi_set => multi_set
  | Ssdb.f_multi_del => multi_del | Ssdb.f_hget => hget | Ssdb.f_hgetall => hgetall
  | Ssdb.f_hset => hset | Ssdb.f_hdel => hdel | Ssdb.f_hincr => hincr
  | Ssdb.f_hsize => hsize | Ssdb.f_hclear => hclear | Ssdb.f_hkeys => hkeys
  | Ssdb.f_hscan => hscan | Ssdb.f_hrscan => hrscan | Ssdb.f_multi_hget => multi_hget
  | Ssdb.f_multi_hset => multi_hset | Ssdb.f_zget => zget | Ssdb.f_zset => zset
  | Ssdb.f_zdel => zdel | Ssdb.f_zincr => zincr | Ssdb.f_zsize => zsize
  | Ssdb.f_zclear => zclear | Ssdb.f_zrank => zrank | Ssdb.f_zrrank => zrrank
  | Ssdb.f_zrange => zrange | Ssdb.f_zrrange => zrrange | Ssdb.f_zkeys => zkeys
  | Ssdb.f_zscan => zscan | Ssdb.f_zrscan => zrscan | Ssdb.f_multi_zget => multi_zget
  | Ssdb.f_multi_zset => multi_zset | Ssdb.f_multi_zdel => multi_zdel
  | Ssdb.f_qpush => qpush | Ssdb.f_qpop => qpop | Ssdb.f_qslice => qslice
  | Ssdb.f_qclear => qclear | Ssdb.f_dbkcount => dbkcount | Ssdb.f_help => help
  | Ssdb.f_flushdb => flushdb | Ssdb.f_quit => quit
  end.
End Api.

(** * Which argument counts the functions can take *)

(** One more than the largest constant index of [argv] a function reads. *)
Definition fn_min (f : Ssdb.fn) : Z :=
  match f with
  | Ssdb.f_auth | Ssdb.f_get | Ssdb.f_select | Ssdb.f_hgetall | Ssdb.f_hsize | Ssdb.f_hclear
  | Ssdb.f_multi_hget | Ssdb.f_multi_hset | Ssdb.f_zsize | Ssdb.f_zclear | Ssdb.f_multi_zget
  | Ssdb.f_multi_zset | Ssdb.f_multi_zdel | Ssdb.f_qpop | Ssdb.f_qclear => 1
  | Ssdb.f_set | Ssdb.f_rename | Ssdb.f_set_ttl | Ssdb.f_incr | Ssdb.f_hget | Ssdb.f_hdel
  | Ssdb.f_zget | Ssdb.f_zdel | Ssdb.f_zrank | Ssdb.f_zrrank | Ssdb.f_qpush => 2
  | Ssdb.f_setx | Ssdb.f_keys | Ssdb.f_scan | Ssdb.f_rscan | Ssdb.f_hset | Ssdb.f_hincr
  | Ssdb.f_zset | Ssdb.f_zincr | Ssdb.f_zrange | Ssdb.f_zrrange | Ssdb.f_qslice => 3
  | Ssdb.f_hkeys | Ssdb.f_hscan | Ssdb.f_hrscan => 4
  | Ssdb.f_zscan | Ssdb.f_zrscan => 5
  | Ssdb.f_zkeys => 6
  | _ => 0
  end.

(** The functions that read key/value pairs need them complete. *)
Definition reads_ok (f : Ssdb.fn) (argc : Z) : bool :=
  (fn_min f <=? argc) &&
  match f with
  | Ssdb.f_multi_set => Z.even argc
  | Ssdb.f_multi_hset | Ssdb.f_multi_zset => Z.odd argc
  | _ => true
  end.

(** Exactly [argc] words follow in the array. *)
Definition tight (argc : Z) (p : argv_t) : Prop :=
  argv_ok argc p ∧ av_pos p + argc = Z.of_nat (length (av_array p)).

Lemma aget_str_out argc p i : tight argc p → argc <= i → aget_str p i = Fault OutOfBounds.
Proof.
  intros [(? & ? & ?) Ht] Hi. unfold aget_str, aget.
  destruct (Z.ltb_spec (av_pos p + i) 0); [lia|].
  rewrite lookup_ge_None_2 by lia. done.
Qed.

Lemma pairs_loop_ok argc p i n m :
  argv_ok argc p → 0 <= i → i <= argc → Z.even (argc - i) = true → argc - i <= 2 * Z.of_nat n →
  is_val (pairs_loop argc p i n m).
Proof.
  intros Hp. revert i m. induction n as [|n IH]; intros i m Hi Hle Hev Hn; simpl.
  - destruct (Z.ltb_spec i argc); [lia|by eexists].
  - destruct (Z.ltb_spec i argc); [|by eexists].
    assert (i + 1 ≠ argc) by (intros <-; replace (i + 1 - i) with 1 in Hev by lia; done).
    destruct (aget_str_ok argc p i) as [k ->]; [done|lia|].
    destruct (aget_str_ok argc p (i + 1)) as [v ->]; [done|lia|]. cbn [mbind outcome_bind].
    apply IH; [lia|lia| |lia].
    replace (argc - (i + 2)) with (argc - i - 2) by lia. by rewrite Z.even_sub, Hev.
Qed.

Lemma pairs_loop_odd argc p i n m :
  tight argc p → 0 <= i → i <= argc → Z.even (argc - i) = false → argc - i <= 2 * Z.of_nat n →
  pairs_loop argc p i n m = Fault OutOfBounds.
Proof.
  intros Hp. revert i m. induction n as [|n IH]; intros i m Hi Hle Hev Hn; simpl.
  - replace (argc - i) with 0 in Hev by lia. done.
  - destruct (Z.ltb_spec i argc).
    2: { replace (argc - i) with 0 in Hev by lia. done. }
    destruct (aget_str_ok argc p i) as [k ->]; [apply Hp|lia|]. cbn [mbind outcome_bind].
    destruct (decide (i + 1 = argc)).
    + by rewrite (aget_str_out argc) by (done || lia).
    + destruct (aget_str_ok argc p (i + 1)) as [v ->]; [apply Hp|lia|]. cbn [mbind outcome_bind].
      apply IH; [lia|lia| |lia].
      replace (argc - (i + 2)) with (argc - i - 2) by lia. by rewrite Z.even_sub, Hev.
Qed.

Section Safety.
Context {Cfg H W : Type} `{ConnectionTraits Cfg H W} `{CDBImpl Cfg H W} `{KvOps Cfg H W}
  `{SsdbOps Cfg H W} `{CommonLaws} `{!ImplReturns (Cfg := Cfg) (H := H) (W := W)} `{!KvReturns Cfg H W} `{!GetLoads}.
Implicit Types s : hst Cfg H W.

Lemma answer_ok_val call s : is_val (answer_ok call s).
Proof. unfold answer_ok. destruct (ssdb_unit _ _). auto with fasto. Qed.
Lemma answer_int_val call s : is_val (answer_int call s).
Proof. unfold answer_int. destruct (ssdb_int _ _) as [[]]. auto with fasto. Qed.
Lemma answer_uint_val call s : is_val (answer_uint call s).
Proof. unfold answer_uint. destruct (ssdb_int _ _) as [[]]. auto with fasto. Qed.
Lemma answer_string_val call s : is_val (answer_string call s).
Proof. unfold answer_string. destruct (ssdb_string _ _) as [[]]. auto with fasto. Qed.
Lemma answer_list_val call s : is_val (answer_list call s).
Proof. unfold answer_list. destruct (ssdb_list _ _) as [[]]. auto with fasto. Qed.
#[local] Hint Resolve answer_ok_val answer_int_val answer_uint_val answer_string_val
  answer_list_val : fasto.

Lemma rest_args_ok argc p : argv_ok argc p → 1 <= argc → is_val (rest_args argc p).
Proof. intros Hp ?. eapply aget_range_ok; [done|lia|lia]. Qed.

Ltac word_step :=
  match goal with
  | Hp : argv_ok ?n ?p |- context [aget_str ?p ?i] =>
    let x := fresh "x" in destruct (aget_str_ok n p i Hp ltac:(lia)) as [x ->]
  | Hp : argv_ok ?n ?p |- context [aget_range ?p 0 (Z.to_nat ?n)] =>
    let x := fresh "x" in
    destruct (aget_range_ok n p 0 (Z.to_nat n) Hp ltac:(lia) ltac:(lia)) as [x ->]
  | Hp : argv_ok ?n ?p |- context [rest_args ?n ?p] =>
    let x := fresh "x" in destruct (rest_args_ok n p Hp ltac:(lia)) as [x ->]
  | Hp : argv_ok ?n ?p |- context [pairs_loop ?n ?p ?i (Z.to_nat ?n) ∅] =>
    let x := fresh "x" in
    destruct (pairs_loop_ok n p i (Z.to_nat n) ∅ Hp ltac:(lia) ltac:(lia) ltac:(done) ltac:(lia))
      as [x ->]
  end; cbn [mbind outcome_bind].

(** A function that is given the words it reads answers. *)
Lemma run_answers f argc p s :
  argv_ok argc p → reads_ok f argc = true → is_val (run f argc p s).
Proof.
  intros Hp Hr. unfold reads_ok in Hr. apply andb_true_iff in Hr as [Hmin Hpar].
  pose proof (proj1 Hp) as Hpos.
  assert (Hp0 : argv_ok (argc + 0) (ashift p (- 0))) by (rewrite ashift_0, Z.add_0_r; done).
  assert (Hs : ∀ h lo, safe_handler 0 lo argc h → lo <= argc → is_val (h argc p s))
    by (intros h lo Hh ?; apply Hh; [done|lia]).
  assert (Hodd : Z.odd argc = true → Z.even (argc - 1) = true)
    by (intros Ho; rewrite Z.even_sub, <- Z.negb_odd, Ho; done).
  assert (Hev : Z.even argc = true → Z.even (argc - 0) = true) by (by rewrite Z.sub_0_r).
  destruct f; simpl in *;
    try (eapply Hs; [solve [eauto with fasto zarith]|lia]);
    try specialize (Hodd Hpar); try specialize (Hev Hpar);
    cbv delta [auth setx incr scan rscan multi_get multi_set multi_del hget hgetall hset hdel
      hincr hsize hclear hkeys hscan hrscan multi_hget multi_hset zget zset zdel zincr zsize
      zclear zrank zrrank zrange zrrange zkeys zscan zrscan multi_zget multi_zset multi_zdel
      qpush qpop qslice qclear dbsize flushdb] beta;
    repeat word_step; auto with fasto.
  all: destruct (ssdb_unit _ _); by eexists.
Qed.

(** One that is given a word too few reads past the last word. *)
Lemma zkeys_faults p s : tight 4 p → zkeys 4 p s = Fault OutOfBounds.
Proof.
  intros Ht. pose proof (proj1 Ht) as Hp. unfold zkeys. repeat word_step.
  by rewrite (aget_str_out 4 p 5 Ht) by lia.
Qed.

Lemma incr_faults p s : tight 1 p → incr 1 p s = Fault OutOfBounds.
Proof.
  intros Ht. pose proof (proj1 Ht) as Hp. unfold incr. word_step.
  by rewrite (aget_str_out 1 p 1 Ht) by lia.
Qed.

Lemma multi_set_faults argc p s :
  tight argc p → Z.even argc = false → multi_set argc p s = Fault OutOfBounds.
Proof.
  intros Ht He. pose proof (proj1 (proj1 Ht)). unfold multi_set.
  by rewrite (pairs_loop_odd argc) by (rewrite ?Z.sub_0_r; done || lia).
Qed.

Lemma pairs_from_1_faults argc p :
  tight argc p → 1 <= argc → Z.odd argc = false →
  pairs_loop argc p 1 (Z.to_nat argc) ∅ = Fault OutOfBounds.
Proof.
  intros Ht ? Ho. apply pairs_loop_odd; [done|lia|lia| |lia].
  by rewrite Z.even_sub, <- Z.negb_odd, Ho.
Qed.
End Safety.

(** The entries of the table that accept an argument count their function cannot take. *)
Lemma bad_entries cmd argc :
  In cmd Ssdb.ssdbCommands → in_range cmd argc = true → reads_ok (func_ cmd) argc = false →
  func_ cmd = Ssdb.f_zkeys ∧ argc = 4 ∨ func_ cmd = Ssdb.f_incr ∧ argc = 1 ∨
  func_ cmd = Ssdb.f_multi_set ∧ Z.even argc = false ∨
  (func_ cmd = Ssdb.f_multi_hset ∨ func_ cmd = Ssdb.f_multi_zset) ∧
    Z.odd argc = false ∧ 3 <= argc.
Proof.
  revert cmd. rewrite <- List.Forall_forall. unfold in_range, reads_ok.
  repeat (apply List.Forall_cons;
    [cbn -[Z.even Z.odd MaxArgumentsCount]; intros Hr Hk;
     match type of Hr with context [MaxArgumentsCount ?i] =>
       let m := eval vm_compute in (MaxArgumentsCount i) in
       change (MaxArgumentsCount i) with m in Hr end;
     apply andb_false_iff in Hk as [Hk|Hk];
     first [discriminate Hk
           |lia
           |left; split; [done|lia]
           |right; left; split; [done|lia]
           |right; right; left; split; done
           |right; right; right; split; [by (left + right)|split; [done|lia]]]|]).
  apply List.Forall_nil.
Qed.

Lemma table_wf : forallb holder_wf Ssdb.ssdbCommands = true.
Proof. by vm_compute. Qed.

(** The line names a command with an acceptable number of arguments that its function cannot
    take: [ZKEYS], [INCR] without increment, or key/value pairs with a key left over. *)
Definition bad_line (args : list bytes) : bool :=
  match List.find (λ cmd, names_line cmd args) Ssdb.ssdbCommands with
  | Some cmd => let n := argc_of args - Z.of_nat (name_words cmd) in
                in_range cmd n && negb (reads_ok (func_ cmd) n)
  | None => false
  end.

Section Execute.
Context {Cfg H W : Type} `{ConnectionTraits Cfg H W} `{CDBImpl Cfg H W} `{KvOps Cfg H W}
  `{SsdbOps Cfg H W} `{CommonLaws} `{!ImplReturns (Cfg := Cfg) (H := H) (W := W)} `{!KvReturns Cfg H W} `{!GetLoads}.

Lemma bad_entry_faults cmd argc p (s : hst Cfg H W) :
  In cmd Ssdb.ssdbCommands → in_range cmd argc = true → reads_ok (func_ cmd) argc = false →
  tight argc p → run (func_ cmd) argc p s = Fault OutOfBounds.
Proof.
  intros Hin Hr Hbad Ht.
  destruct (bad_entries cmd argc Hin Hr Hbad)
    as [[-> ->]|[[-> ->]|[[-> He]|[[->| ->] [Ho ?]]]]]; simpl.
  - by apply zkeys_faults.
  - by apply incr_faults.
  - by apply multi_set_faults.
  - unfold multi_hset. by rewrite pairs_from_1_faults by (done || lia).
  - unfold multi_zset. by rewrite pairs_from_1_faults by (done || lia).
Qed.

Lemma drop_tight args k :
  (k <= length args)%nat →
  tight (argc_of args - Z.of_nat k) (vec ([] ++ take k args) (drop k args)).
Proof.
  intros Hk. unfold tight, argv_ok, vec, argc_of. simpl.
  rewrite length_app, length_take, length_drop. lia.
Qed.

Lemma Execute_ssdb args (s : hst Cfg H W) :
  argc_of args <= INT_MAX →
  if bad_line args
  then Execute run Ssdb.ssdbCommands (argc_of args) (vec [] args) s = Fault OutOfBounds
  else is_val (Execute run Ssdb.ssdbCommands (argc_of args) (vec [] args) s).
Proof.
  intros Hmax. rewrite (Execute_spec run Ssdb.ssdbCommands [] args s table_wf Hmax).
  unfold bad_line, execute_spec.
  destruct (List.find _ _) as [cmd|] eqn:Hf; [|by eexists].
  apply find_some in Hf as [Hin Hn]. unfold names_line in Hn.
  apply andb_true_iff in Hn as [Hlen _]. apply Nat.leb_le in Hlen.
  pose proof (drop_tight args _ Hlen) as Ht.
  destruct (in_range _ _) eqn:Hr; simpl; [|by eexists].
  destruct (reads_ok _ _) eqn:Hok; simpl.
  - apply run_answers; [apply Ht|done].
  - by apply bad_entry_faults.
Qed.
End Execute.
End SsdbApi.
