(* ===== verification/Sessions.v ===== *)
(** A database in memory that implements the interfaces of [Connection], [KvApi], [MemcachedApi] and [SsdbApi], at
    which the theorems about an arbitrary database are tried out; and sequences of operations on a connection: its
    life cycle, and what its client is told. *)
From Stdlib Require Import Ascii String ZArith Lia.
From stdpp Require Import base list strings gmap.
From S2P Require Import Prelude Common Commands Values Connection Handlers KvTables KvApi MemcachedApi SsdbApi.
Local Open Scope Z_scope.

(** The configuration is the delimiter, the handle is a token, and the world is the store. *)
Abbreviation ref_store := (gmap bytes bytes).
Abbreviation ref_conn := (CDBConnection bytes unit ref_store).

#[export] Instance ref_traits : ConnectionTraits bytes unit ref_store := {|
  traits_Connect _ w := (no_error, Some tt, w);
  traits_Disconnect _ w := (no_error, None, w);
  traits_IsConnected h _ := match h with Some _ => true | None => false end;
  config_default := lit ";";
  config_delimiter c := c;
  config_ns_separator _ := lit ":"
|}.

Definition ref_get (c : ref_conn) : ref_store := world_ (connection_ c).
Definition ref_put (w : ref_store) (c : ref_conn) : ref_conn :=
  mkCDB (mkConnection (config_ (connection_ c)) (handle_ (connection_ c)) w) (interrupted_ c)
    (client_ c).
Definition ref_error (text : string) : Error := make_error_value (lit text) E_ERROR.

#[export] Instance ref_impl `{CommonLib} : CDBImpl bytes unit ref_store := {|
  SelectImpl nm c :=
    if bool_decide (nm = lit "default") then Val (no_error, Some (mkIDataBaseInfo nm true 0 []), c)
    else Val (ref_error "no such database", None, c);
  DeleteImpl ks deleted c :=
    let present := filter (λ k, is_Some (ref_get c !! key_ k)) ks in
    Val (no_error, deleted ++ present, ref_put (foldr (λ k, delete (key_ k)) (ref_get c) ks) c);
  SetImpl kv _ c := Val (no_error, kv, ref_put (<[KeyString kv := ValueString kv]> (ref_get c)) c);
  GetImpl k loaded c :=
    match ref_get c !! key_ k with
    | Some v => Val (no_error, mkNDbKValue k (Some (VString v)), c)
    | None => Val (ref_error "not found", loaded, c)
    end;
  RenameImpl k n c :=
    match ref_get c !! key_ k with
    | Some v => Val (no_error, ref_put (<[n := v]> (delete (key_ k) (ref_get c))) c)
    | None => Val (ref_error "not found", c)
    end;
  SetTTLImpl _ _ c := Val (ref_error "not supported", c);
  QuitImpl c := Val (no_error, c)
|}.

#[export] Instance ref_kv : KvOps bytes unit ref_store := {|
  kv_stats := unit;
  Stats_ToString _ := lit "ok";
  kv_Info _ c := Val (no_error, tt, c);
  kv_Keys _ _ _ out c := (no_error, out ++ (map_to_list (ref_get c)).*1, c);
  kv_DBkcount c := (no_error, Z.of_nat (size (ref_get c)), c);
  kv_Help _ _ c := (no_error, c)
|}.

#[export] Instance ref_kv_returns : KvReturns bytes unit ref_store.
Proof. split. by eexists. Qed.

#[export] Instance ref_flush : FlushOps bytes unit ref_store := {|
  kv_Flushdb c := (no_error, ref_put ∅ c)
|}.

#[export] Instance ref_rocks : RocksOps bytes unit ref_store := {|
  rocks_Mget ks out c := (no_error, out ++ omap (λ k, ref_get c !! k) ks, c);
  rocks_Merge k v c := (no_error, ref_put (<[k := default [] (ref_get c !! k) ++ v]> (ref_get c)) c)
|}.

#[export] Instance ref_mem : MemOps bytes unit ref_store := {|
  mem_AddIfNotExist k v _ _ c :=
    (no_error, ref_put (<[k := default v (ref_get c !! k)]> (ref_get c)) c);
  mem_Replace k v _ _ c := (no_error, ref_put (alter (λ _, v) k (ref_get c)) c);
  mem_Append k v _ _ c := (no_error, ref_put (alter (λ o, o ++ v) k (ref_get c)) c);
  mem_Prepend k v _ _ c := (no_error, ref_put (alter (λ o, v ++ o) k (ref_get c)) c);
  mem_Incr _ _ c := (ref_error "not supported", c);
  mem_Decr _ _ c := (ref_error "not supported", c);
  mem_Flushdb _ c := (no_error, ref_put ∅ c);
  mem_VersionServer c := (no_error, c)
|}.

#[export] Instance ref_ssdb : SsdbOps bytes unit ref_store := {|
  ssdb_unit call c :=
    match call with
    | C_MultiSet kvs => (no_error, ref_put (kvs ∪ ref_get c) c)
    | C_Setx k v _ => (no_error, ref_put (<[k := v]> (ref_get c)) c)
    | _ => (no_error, c)
    end;
  ssdb_int call c :=
    match call with
    | C_DBsize => (no_error, Z.of_nat (size (ref_get c)), c)
    | _ => (ref_error "not supported", 0, c)
    end;
  ssdb_string _ c := (ref_error "not supported", [], c);
  ssdb_list call c :=
    match call with
    | C_MultiGet ks => (no_error, omap (λ k, ref_get c !! k) ks, c)
    | _ => (ref_error "not supported", [], c)
    end
|}.

(** A connected database with a client that has heard nothing, and an empty output. *)
Definition ref_open (w : ref_store) : ref_conn := mkCDB (mkConnection (lit ";") (Some tt) w) false (Some []).
Definition ref_state (w : ref_store) : hst bytes unit ref_store := mkHst (ref_open w) (CreateRoot []).

#[export] Instance ref_get_loads `{CommonLaws} : GetLoads (Cfg := bytes) (H := unit) (W := ref_store).
Proof.
  intros k c e kv c'. simpl. destruct (ref_get c !! key_ k); intros [= <- <- <-]; [by eexists|].
  unfold ref_error. by rewrite isError_make_error.
Qed.

#[export] Instance ref_silent `{CommonLib} : ImplSilent (Cfg := bytes) (H := unit) (W := ref_store).
Proof.
  split; intros; simpl; try done.
  - by case_bool_decide.
  - by destruct (ref_get c !! _).
  - by destruct (ref_get c !! _).
Qed.

#[export] Instance ref_returns `{CommonLib} : ImplReturns (Cfg := bytes) (H := unit) (W := ref_store).
Proof.
  split; intros; simpl; try by eexists.
  - case_bool_decide; by eexists.
  - destruct (ref_get c !! _); by eexists.
  - destruct (ref_get c !! _); by eexists.
Qed.

Local Open Scope Z_scope.

(** * Life cycle *)

Inductive life_op (Cfg : Type) :=
| DoConnect (config : Cfg)
| DoDisconnect.
Arguments DoConnect {Cfg} _.
Arguments DoDisconnect {Cfg}.

(** What [Connection] relies on in a database's [ConnectionAllocatorTraits]. *)
Class TraitsLaws (Cfg H W : Type) `{ConnectionTraits Cfg H W} `{CommonLib} := {
  null_not_connected : ∀ w, traits_IsConnected None w = false;
  connect_connects : ∀ cfg w e h w',
    traits_Connect cfg w = (e, h, w') →
    if isError e then ∀ h0, traits_IsConnected h0 w' = traits_IsConnected h0 w
    else traits_IsConnected h w' = true;
  failed_disconnect : ∀ h w e h' w',
    traits_Disconnect h w = (e, h', w') → isError e = true → traits_IsConnected h' w' = true
}.

Section LifeCycle.
Context {Cfg H W : Type} `{ConnectionTraits Cfg H W} `{CommonLib}.
Implicit Types c : CDBConnection Cfg H W.

Definition run_life (op : life_op Cfg) c : Error * CDBConnection Cfg H W :=
  match op with DoConnect cfg => Connect cfg c | DoDisconnect => Disconnect c end.

Fixpoint run_lives (ops : list (life_op Cfg)) c : list Error * CDBConnection Cfg H W :=
  match ops with
  | [] => ([], c)
  | op :: ops => let '(e, c) := run_life op c in
                 let '(es, c) := run_lives ops c in (e :: es, c)
  end.

(** The abstract connection: the configuration it is connected with. *)
Definition connected_with c : option Cfg :=
  if IsConnected c then Some (config_ (connection_ c)) else None.

(** A first successful [Connect] fixes the configuration; later ones are ignored until a
    successful [Disconnect]. *)
Definition life_spec (st : option Cfg) (op : life_op Cfg) (e : Error) : option Cfg :=
  match op, st with
  | DoConnect cfg, None => if isError e then None else Some cfg
  | DoConnect _, Some cfg => Some cfg
  | DoDisconnect, None => None
  | DoDisconnect, Some cfg => if isError e then Some cfg else None
  end.

Fixpoint life_specs (st : option Cfg) (ops : list (life_op Cfg)) (es : list Error) : option Cfg :=
  match ops, es with
  | op :: ops, e :: es => life_specs (life_spec st op e) ops es
  | _, _ => st
  end.

Context `{!TraitsLaws Cfg H W}.

Lemma run_life_spec op c :
  let '(e, c') := run_life op c in connected_with c' = life_spec (connected_with c) op e.
Proof.
  destruct op as [cfg|]; simpl; unfold Connect, Disconnect, connected_with, IsConnected.
  - unfold Connection_Connect. destruct (Connection_IsConnected (connection_ c)) eqn:Hc; simpl.
    { by rewrite Hc. }
    destruct (traits_Connect _ _) as [[e h] w] eqn:Ht.
    pose proof (connect_connects _ _ _ _ _ Ht) as Hl.
    destruct (isError e) eqn:He; simpl; unfold Connection_IsConnected in *; simpl.
    + by rewrite He, Hl, Hc.
    + by rewrite Hl.
  - unfold Connection_Disconnect. destruct (Connection_IsConnected (connection_ c)) eqn:Hc; simpl.
    2: { by rewrite Hc. }
    destruct (traits_Disconnect _ _) as [[e h] w] eqn:Ht.
    destruct (isError e) eqn:He; simpl; unfold Connection_IsConnected in *; simpl.
    + by rewrite (failed_disconnect _ _ _ _ _ Ht He), He.
    + by rewrite null_not_connected.
Qed.
End LifeCycle.

(** C28. Any sequence of [Connect] and [Disconnect] calls leaves the connection as the two-state
    machine [life_spec] says: connected with the configuration of the call that connected it, or
    disconnected, a second [Connect] and a second [Disconnect] having no effect. *)
Theorem connection_lifecycle {Cfg H W} `{ConnectionTraits Cfg H W} `{CommonLib}
    `{!TraitsLaws Cfg H W} (ops : list (life_op Cfg)) (c : CDBConnection Cfg H W) :
  let '(es, c') := run_lives ops c in
  length es = length ops ∧ connected_with c' = life_specs (connected_with c) ops es.
Proof.
  revert c. induction ops as [|op ops IH]; intros c; simpl; [done|].
  pose proof (run_life_spec op c) as Hop. destruct (run_life op c) as [e c1].
  specialize (IH c1). destruct (run_lives ops c1) as [es c2]. destruct IH as [Hlen IH].
  simpl. split; [by rewrite Hlen|]. by rewrite IH, Hop.
Qed.

#[export] Instance ref_traits_laws : @TraitsLaws bytes unit ref_store ref_traits common_ref.
Proof. split; [done|by intros ? ? ? ? ? [= <- <- <-]..]. Qed.

Lemma connection_lifecycle_witness :
  let '(_, c) := @run_lives _ _ _ ref_traits common_ref
                   [DoConnect (lit ","); DoConnect (lit "|"); DoDisconnect; DoConnect (lit "-")]
                   (ref_open ∅) in
  @connected_with _ _ _ ref_traits c = Some (lit "-").
Proof.
  refine (proj2 (@connection_lifecycle _ _ _ ref_traits common_ref ref_traits_laws
    [DoConnect (lit ","); DoConnect (lit "|"); DoDisconnect; DoConnect (lit "-")] (ref_open ∅))).
Defined.

(** * Notifications *)

(** C29. In any session of [Select], [Delete], [Set], [Get], [Rename], [SetTTL] and [Quit] the client
    of the connection hears, in order, exactly the notifications of the operations that succeeded,
    with the arguments those produced; a connection without client stays without. *)
Theorem client_hears_successes {Cfg H W} `{ConnectionTraits Cfg H W} `{CDBImpl Cfg H W}
    `{CommonLaws} `{!ImplSilent (Cfg := Cfg) (H := H) (W := W)} (ops : list cdb_op)
    (c c' : CDBConnection Cfg H W) rs :
  run_ops ops c = Val (rs, c') →
  client_ c' = (λ log, log ++ List.map snd (List.filter succeeded rs)) <$> client_ c.
Proof. apply run_ops_log. Qed.

Lemma client_hears_successes_witness :
  ∃ rs c', @run_ops _ _ _ ref_traits (@ref_impl common_ref) common_ref
             [OpGet (new_NKey (lit "k"));
              OpSet (mkNDbKValue (new_NKey (lit "k")) (Some (VString (lit "v"))));
              OpRename (new_NKey (lit "k")) (lit "n")] (ref_open ∅) = Val (rs, c') ∧
  client_ c' = Some [OnKeyAdded (mkNDbKValue (new_NKey (lit "k")) (Some (VString (lit "v"))));
                     OnKeyRenamed (new_NKey (lit "k")) (lit "n")].
Proof.
  eexists _, _. split; [vm_compute; reflexivity|].
  etransitivity; [eapply (@client_hears_successes _ _ _ ref_traits (@ref_impl common_ref) common_ref
            common_ref_laws (@ref_silent common_ref)
            [OpGet (new_NKey (lit "k"));
             OpSet (mkNDbKValue (new_NKey (lit "k")) (Some (VString (lit "v"))));
             OpRename (new_NKey (lit "k")) (lit "n")] (ref_open ∅));
    vm_compute; reflexivity|vm_compute; reflexivity].
Defined.
