(* ===== verification/Dispatch.v ===== *)
(** What a command line does, for the tables and the command functions of the databases: the
    dispatch of [CommandHandler::Execute] put together with each [commands_api.cpp]. *)
From Stdlib Require Import Ascii String ZArith Lia.
From stdpp Require Import base list strings gmap.
From S2P Require Import Prelude Common Values Connection Commands Handlers KvTables RemoteTables RedisTable KvApi MemcachedApi SsdbApi Sessions.
Local Open Scope Z_scope.

(** The words of a line, for the concrete inputs. *)
Definition words (l : list string) : list bytes := List.map lit l.

(** The entries of all the tables have well-formed names, and none is shadowed by an earlier one. *)
Definition all_tables_ok : bool :=
  table_ok Leveldb.leveldbCommands && table_ok Lmdb.lmdbCommands
  && table_ok Rocksdb.rocksdbCommands && table_ok Unqlite.unqliteCommands
  && table_ok Upscaledb.upscaledbCommands && table_ok Memcached.memcachedCommands
  && table_ok Ssdb.ssdbCommands && table_ok Redis.redisCommands.

(** * Dispatch *)

(** The state of the dispatch witnesses: which function ran, with the words it was given. *)
Definition trace_run {F} (f : F) : handler (list (F * Z * list bytes)) := λ argc argv s,
  l ← aget_range argv 0 (Z.to_nat argc); Val (no_error, s ++ [(f, argc, l)]).

(** C1. [CommandHandler::Execute] on a line of words: the first command of the table whose name is,
    up to case, the beginning of the line receives the rest of the line when the number of
    arguments is in its range, and otherwise the line is refused with the range error, or with the
    text of the line when no command matches.  No [CHECK] fails and no word outside the line is
    read. *)
Theorem execute_refines_spec `{CommonLaws} {F S} (run : F → handler S)
    (table : list (CommandHolder F)) (pre args : list bytes) (s : S) :
  forallb holder_wf table = true → argc_of args <= INT_MAX →
  Execute run table (argc_of args) (vec pre args) s = execute_spec run table pre args s.
Proof. apply Execute_spec. Qed.

Lemma execute_refines_spec_witness :
  @Execute common_ref _ _ trace_run Redis.redisCommands 4
    (vec [] (words ["config"; "SET"; "timeout"; "5"]%string)) []
  = Val (no_error, [(Redis.f_common_exec_off2, 2, words ["timeout"; "5"]%string)]).
Proof.
  etransitivity;
    [refine (@execute_refines_spec common_ref common_ref_laws _ _ trace_run Redis.redisCommands []
               (words ["config"; "SET"; "timeout"; "5"]%string) [] _ _); vm_compute; done|].
  vm_compute. reflexivity.
Defined.

Section Longest.
Context {F : Type}.
Implicit Types (cmd : CommandHolder F) (table : list (CommandHolder F)).

(** In a table without shadowing the entry that dispatch finds is the longest match. *)
Lemma find_longest table cmd args :
  table_ok table = true → In cmd table → names_line cmd args = true →
  (∀ c, In c table → names_line c args = true → (name_words c <= name_words cmd)%nat) →
  List.find (λ c, names_line c args) table = Some cmd.
Proof.
  intros Hok Hin Hn Hmax.
  destruct (List.find _ table) as [c|] eqn:Hf.
  2: { by rewrite (List.find_none _ _ Hf cmd Hin) in Hn. }
  destruct (find_first _ _ _ Hf) as (Hcn & l1 & l2 & -> & Hpre).
  apply in_app_or in Hin as [Hin|[->|Hin]]; [|done|].
  - by rewrite (Hpre cmd Hin) in Hn.
  - apply in_split in Hin as (l3 & l4 & ->).
    pose proof (table_ok_longest _ l1 c l3 cmd l4 args Hok eq_refl Hcn Hn).
    pose proof (Hmax c ltac:(apply in_elt) Hcn). lia.
Qed.
End Longest.

Lemma dispatch_finds `{CommonLaws} {F S} (run : F → handler S) (table : list (CommandHolder F))
    (cmd : CommandHolder F) (pre name_part rest : list bytes) (s : S) :
  table_ok table = true → In cmd table → argc_of (name_part ++ rest) <= INT_MAX →
  length name_part = name_words cmd →
  lower (join_with [chr_sp] (List.map c_str name_part)) = lower (name (info cmd)) →
  (∀ c, In c table → names_line c (name_part ++ rest) = true →
        (name_words c <= name_words cmd)%nat) →
  in_range cmd (argc_of rest) = true →
  Execute run table (argc_of (name_part ++ rest)) (vec pre (name_part ++ rest)) s
  = run (func_ cmd) (argc_of rest) (vec (pre ++ name_part) rest) s.
Proof.
  intros Hok Hin Hargc Hlen Hname Hmax Hr.
  rewrite Execute_spec by (done || by apply andb_true_iff in Hok as [? _]).
  assert (names_line cmd (name_part ++ rest) = true) as Hn.
  { unfold names_line. rewrite <- Hlen, length_app. apply andb_true_iff. split.
    - apply Nat.leb_le. lia.
    - apply bool_decide_eq_true.
      by rewrite List.map_app, take_app_le, firstn_all2 by (rewrite length_map; lia). }
  unfold execute_spec. rewrite (find_longest table cmd) by done.
  rewrite <- Hlen. unfold argc_of in *.
  replace (Z.of_nat (length (name_part ++ rest)) - Z.of_nat (length name_part))
    with (Z.of_nat (length rest)) by (rewrite length_app; lia).
  by rewrite Hr, take_app_length, drop_app_length.
Qed.

(** C14. Every command of a table without shadowed names can be reached: a line that begins with
    its name, and with no longer name of the table, runs its function on the remaining words when
    their number is in the command's range. *)
Theorem dispatch_reaches `{CommonLaws} {F S} (run : F → handler S) (table : list (CommandHolder F))
    (cmd : CommandHolder F) (pre name_part rest : list bytes) (s : S) :
  table_ok table = true → In cmd table → argc_of (name_part ++ rest) <= INT_MAX →
  length name_part = name_words cmd →
  lower (join_with [chr_sp] (List.map c_str name_part)) = lower (name (info cmd)) →
  (∀ c, In c table → names_line c (name_part ++ rest) = true →
        (name_words c <= name_words cmd)%nat) →
  in_range cmd (argc_of rest) = true →
  Execute run table (argc_of (name_part ++ rest)) (vec pre (name_part ++ rest)) s
  = run (func_ cmd) (argc_of rest) (vec (pre ++ name_part) rest) s.
Proof. apply dispatch_finds. Qed.

Lemma dispatch_reaches_witness :
  @Execute common_ref _ _ trace_run Ssdb.ssdbCommands 3
    (vec [] (words ["hget"; "h"; "k"]%string)) []
  = Val (no_error, [(Ssdb.f_hget, 2, words ["h"; "k"]%string)]).
Proof.
  destruct (List.find (λ c, names_line c (words ["hget"]%string)) Ssdb.ssdbCommands) as [cmd|] eqn:Hf;
    [|vm_compute in Hf; discriminate Hf].
  pose proof (find_some _ _ Hf) as [Hin _].
  vm_compute in Hf. injection Hf as <-.
  etransitivity;
    [refine (@dispatch_reaches common_ref common_ref_laws _ _ trace_run Ssdb.ssdbCommands _ []
               (words ["hget"]%string) (words ["h"; "k"]%string) [] _ Hin _ _ _ _ _)|];
    try (vm_compute; done).
  intros c Hc _. revert c Hc. rewrite <- List.Forall_forall.
  vm_compute; repeat (apply List.Forall_cons; [by repeat constructor|]); apply List.Forall_nil.
Defined.


(** The entry with this one-word name, when no longer name extends it. *)
Definition word_entry {F} (table : list (CommandHolder F)) (w : string) : option (CommandHolder F) :=
  cmd ← List.find (λ c, bool_decide (lower (name (info c)) = lower (lit w))) table;
  if (name_words cmd =? 1)%nat &&
     forallb (λ c, (name_words c <=? 1)%nat || keys_apart (name_key cmd) (name_key c)) table
  then Some cmd else None.

Lemma word_line `{CommonLaws} {F S} (run : F → handler S) (table : list (CommandHolder F)) cmd
    (pre : list bytes) w rest s :
  table_ok table = true → word_entry table w = Some cmd → no_nul (lit w) →
  argc_of (lit w :: rest) <= INT_MAX → in_range cmd (argc_of rest) = true →
  Execute run table (argc_of (lit w :: rest)) (vec pre (lit w :: rest)) s
  = run (func_ cmd) (argc_of rest) (vec (pre ++ [lit w]) rest) s.
Proof.
  unfold word_entry. intros Hok Hentry Hw Hmax Hr.
  destruct (List.find _ table) as [c0|] eqn:Hf; [|done]. simpl in Hentry.
  destruct (_ && _) eqn:Hcheck; [|done]. injection Hentry as ->.
  apply find_some in Hf as [Hin Hname]. apply bool_decide_eq_true in Hname.
  apply andb_true_iff in Hcheck as [H1%Nat.eqb_eq Hlong]. rewrite forallb_forall in Hlong.
  assert (Hjoin : lower (join_with [chr_sp] (List.map c_str [lit w])) = lower (name (info cmd)))
    by (simpl; by rewrite c_str_no_nul).
  apply (dispatch_finds run table cmd pre [lit w] rest s); try done.
  intros c Hc Hn. specialize (Hlong c Hc). apply orb_true_iff in Hlong as [Hle|Hap].
  { apply Nat.leb_le in Hle. lia. }
  destruct (decide (name_words c <= name_words cmd)%nat) as [|Hgt]; [done|].
  pose proof (proj1 (andb_prop _ _ Hok)) as Hwf. rewrite forallb_forall in Hwf.
  rewrite (names_line_prefix cmd c (lit w :: rest)) in Hap; [done|by apply Hwf|by apply Hwf| |done|lia].
  unfold names_line. rewrite H1. apply andb_true_iff. split; [done|]. apply bool_decide_eq_true.
  by rewrite <- Hjoin.
Qed.

(** * No line leaves its words *)

Section Safety.
Context {Cfg H W : Type} `{ConnectionTraits Cfg H W} `{CDBImpl Cfg H W} `{KvOps Cfg H W}
  `{FlushOps Cfg H W} `{RocksOps Cfg H W} `{MemOps Cfg H W} `{SsdbOps Cfg H W} `{CommonLaws}
  `{!ImplReturns (Cfg := Cfg) (H := H) (W := W)} `{!KvReturns Cfg H W} `{!GetLoads}.
Implicit Types (args : list bytes) (s : hst Cfg H W).

(** [P] holds of what each of the five embedded stores makes of a line. *)
Definition kv_each (P : outcome (Error * hst Cfg H W) → Prop) args s : Prop :=
  P (Execute LeveldbApi.run Leveldb.leveldbCommands (argc_of args) (vec [] args) s) ∧
  P (Execute LmdbApi.run Lmdb.lmdbCommands (argc_of args) (vec [] args) s) ∧
  P (Execute RocksdbApi.run Rocksdb.rocksdbCommands (argc_of args) (vec [] args) s) ∧
  P (Execute UnqliteApi.run Unqlite.unqliteCommands (argc_of args) (vec [] args) s) ∧
  P (Execute UpscaledbApi.run Upscaledb.upscaledbCommands (argc_of args) (vec [] args) s).

(** C18. No command line makes LevelDB, LMDB, RocksDB, UnQLite or UpscaleDB read outside the words of
    the line, fail a [CHECK] or use a null pointer, whatever the store answers. *)
Theorem kv_lines_safe args s : argc_of args <= INT_MAX → kv_each is_val args s.
Proof.
  intros Hmax. unfold kv_each.
  split; [|split; [|split; [|split]]]; apply Execute_safe;
    auto using leveldb_table_safe, lmdb_table_safe, rocksdb_table_safe, unqlite_table_safe,
      upscaledb_table_safe; by vm_compute.
Qed.

(** The same for Memcached. *)
Theorem memcached_lines_safe args s :
  argc_of args <= INT_MAX →
  is_val (Execute MemcachedApi.run Memcached.memcachedCommands (argc_of args) (vec [] args) s).
Proof.
  intros Hmax. apply Execute_safe; auto using MemcachedApi.memcached_table_safe; by vm_compute.
Qed.

(** C20. SSDB answers exactly the lines that are not [bad_line]: those name [ZKEYS] (whose function
    reads a sixth word where the table admits four arguments), [INCR] without an increment, or
    [MULTI_SET], [MULTI_HSET] and [MULTI_ZSET] with a key left without value; there the function
    reads past the end of the argument vector. *)
Theorem ssdb_lines_safe args s :
  argc_of args <= INT_MAX →
  if SsdbApi.bad_line args
  then Execute SsdbApi.run Ssdb.ssdbCommands (argc_of args) (vec [] args) s = Fault OutOfBounds
  else is_val (Execute SsdbApi.run Ssdb.ssdbCommands (argc_of args) (vec [] args) s).
Proof. apply SsdbApi.Execute_ssdb. Qed.
End Safety.

Lemma kv_lines_safe_witness :
  argc_of (words ["KEYS"; "a"; "z"; "10"]%string) <= INT_MAX ∧
  @kv_each _ _ _ ref_traits (@ref_impl common_ref) ref_kv ref_flush ref_rocks common_ref is_val
    (words ["KEYS"; "a"; "z"; "10"]%string) (ref_state ∅).
Proof.
  split; [vm_compute; done|].
  refine (@kv_lines_safe _ _ _ ref_traits (@ref_impl common_ref) ref_kv ref_flush ref_rocks
            common_ref common_ref_laws (@ref_returns common_ref) ref_kv_returns (@ref_get_loads common_ref common_ref_laws) _ _ _).
  vm_compute; done.
Defined.

Lemma memcached_lines_safe_witness :
  is_val (@Execute common_ref _ _
            (@MemcachedApi.run _ _ _ ref_traits (@ref_impl common_ref) ref_kv ref_mem common_ref)
            Memcached.memcachedCommands 2 (vec [] (words ["stats"; "items"]%string)) (ref_state ∅)).
Proof.
  refine (@memcached_lines_safe _ _ _ ref_traits (@ref_impl common_ref) ref_kv ref_mem
            common_ref common_ref_laws (@ref_returns common_ref) ref_kv_returns (@ref_get_loads common_ref common_ref_laws)
            (words ["stats"; "items"]%string) _ _).
  vm_compute; done.
Defined.

Lemma ssdb_lines_safe_witness :
  @Execute common_ref _ _
    (@SsdbApi.run _ _ _ ref_traits (@ref_impl common_ref) ref_kv ref_ssdb common_ref)
    Ssdb.ssdbCommands 2 (vec [] (words ["incr"; "n"]%string)) (ref_state ∅)
  = Fault OutOfBounds.
Proof.
  refine (@ssdb_lines_safe _ _ _ ref_traits (@ref_impl common_ref) ref_kv ref_ssdb
            common_ref common_ref_laws (@ref_returns common_ref) ref_kv_returns (@ref_get_loads common_ref common_ref_laws)
            (words ["incr"; "n"]%string) (ref_state ∅) _).
  vm_compute; done.
Defined.

(** * The lines [SET key value] and [GET key] *)

Section Lines.
Context {Cfg H W : Type} `{ConnectionTraits Cfg H W} `{CDBImpl Cfg H W} `{KvOps Cfg H W}
  `{FlushOps Cfg H W} `{RocksOps Cfg H W} `{CommonLaws}.
Implicit Types (s : hst Cfg H W).

(** One [SetImpl] call with the key, without time to live, and the string; a notification and the
    reply [OK] when it succeeds, its error otherwise. *)
Definition set_answer (k v : bytes) s : outcome (Error * hst Cfg H W) :=
  let kv := mkNDbKValue (new_NKey (c_str k)) (Some (VString (c_str v))) in
  '(e, added, c) ← SetImpl kv NDbKValue_default (conn s);
  if isError e then Val (e, mkHst c (out s))
  else Val (no_error, add_value (VString (lit "OK")) (mkHst (notify (OnKeyAdded added) c) (out s))).

(** One [GetImpl] call; the value that it loaded is the reply. *)
Definition get_answer (k : bytes) s : outcome (Error * hst Cfg H W) :=
  '(e, loaded, c) ← GetImpl (new_NKey (c_str k)) NDbKValue_default (conn s);
  if isError e then Val (e, mkHst c (out s))
  else match nkv_value loaded with
       | Some v => Val (no_error, add_value v (mkHst (notify (OnKeyLoaded loaded) c) (out s)))
       | None => Fault NullPointer
       end.

Lemma set_body_spec pre n k v rest s :
  IsConnected (conn s) = true → set_body n (vec pre (k :: v :: rest)) s = set_answer k v s.
Proof.
  intros Hc. unfold set_body, aget_str, vec.
  rewrite (aget_at pre (k :: v :: rest) 0 k eq_refl : aget _ 0 = _), (aget_at pre (k :: v :: rest) 1 v eq_refl : aget _ 1 = _).
  unfold set_answer, Set_. simpl. rewrite Hc. simpl.
  destruct (SetImpl _ _ _) as [[[e a] c]|]; [|done]. unfold unless_error. simpl.
  by destruct (isError e) eqn:He; simpl; rewrite ?He.
Qed.

Lemma get_body_spec pre k s :
  IsConnected (conn s) = true → get_body 1 (vec pre [k]) s = get_answer k s.
Proof.
  intros Hc. unfold get_body, aget_str, vec.
  rewrite (aget_at pre [k] 0 k eq_refl : aget _ 0 = _).
  unfold get_answer, Get. simpl. rewrite Hc. simpl.
  destruct (GetImpl _ _ _) as [[[e l] c]|]; [|done]. simpl.
  by destruct (isError e) eqn:He; simpl; rewrite ?He.
Qed.

(** A one-word command of a table whose names are single words. *)
Lemma one_word_line {F} (run : F → handler (hst Cfg H W)) (table : list (CommandHolder F)) n w rest s :
  table_ok table = true →
  forallb (λ c, Nat.eqb (name_words c) 1) table = true →
  argc_of (w :: rest) <= INT_MAX →
  ∀ cmd, table !! n = Some cmd → lower (c_str w) = lower (name (info cmd)) →
    in_range cmd (argc_of rest) = true →
    Execute run table (argc_of (w :: rest)) (vec [] (w :: rest)) s
    = run (func_ cmd) (argc_of rest) (vec [w] rest) s.
Proof.
  intros Hok Hone Hmax cmd Hcmd Hw Hr. rewrite forallb_forall in Hone.
  apply list_elem_of_lookup_2, list_elem_of_In in Hcmd.
  assert (∀ c, In c table → name_words c = 1%nat) as Hw1
    by (intros c Hc; by apply Nat.eqb_eq, Hone).
  apply (dispatch_finds run table cmd [] [w] rest s); try done.
  - by rewrite Hw1.
  - intros c Hc _. by rewrite !Hw1.
Qed.

Ltac kv_line n w s :=
  match goal with
  | |- Execute ?run ?table _ (vec [] (w :: ?rest)) s = _ =>
    refine (one_word_line run table n w rest s _ _ _ _ eq_refl _ _)
  end.

(** C31. On a connected embedded store (LevelDB, LMDB, RocksDB, UnQLite, UpscaleDB) the line
    [SET key value], in any case, makes exactly one [SetImpl] call, and [GET key] exactly one
    [GetImpl] call; the client is notified and the reply added if and only if the call succeeds,
    and its error is returned otherwise. *)
Theorem set_get_lines w k v s :
  IsConnected (conn s) = true →
  (lower (c_str w) = lit "set" → kv_each (λ o, o = set_answer k v s) [w; k; v] s) ∧
  (lower (c_str w) = lit "get" → kv_each (λ o, o = get_answer k s) [w; k] s).
Proof.
  intros Hc. split; intros Hw; unfold kv_each; cbv beta;
    [rewrite <- (set_body_spec [w] 2 k v [] s Hc)|rewrite <- (get_body_spec [w] k s Hc)];
    split_and!;
    first [kv_line 0%nat w s|kv_line 1%nat w s|kv_line 2%nat w s|kv_line 3%nat w s|kv_line 4%nat w s];
    try (vm_compute; done); done.
Qed.
End Lines.

Lemma set_get_lines_witness :
  @kv_each _ _ _ ref_traits (@ref_impl common_ref) ref_kv ref_flush ref_rocks common_ref
    (λ o, o = Val (no_error, add_value (VString (lit "OK"))
             (mkHst (notify (OnKeyAdded (mkNDbKValue (new_NKey (lit "k")) (Some (VString (lit "v")))))
                       (ref_open {[lit "k" := lit "v"]})) (CreateRoot []))))
    (words ["Set"; "k"; "v"]%string) (ref_state ∅).
Proof.
  refine (proj1 (@set_get_lines _ _ _ ref_traits (@ref_impl common_ref) ref_kv ref_flush ref_rocks
            common_ref common_ref_laws (lit "Set") (lit "k") (lit "v") (ref_state ∅) _) _);
    vm_compute; done.
Defined.
