(* ===== verification/SdsArgs.v ===== *)
(** Splitting a command line into arguments: [sdssplitargs], [sdssplitargslong] and the escaped
    representation of [sdscatrepr], all of [third-party/sds/sds.c].  A token under construction is
    the list of its bytes (file [Sds] justifies that view of an [sds]); the end of the list [p] is
    the terminating NUL of the line. *)
From Stdlib Require Import Ascii String ZArith Lia.
From stdpp Require Import base list.
From S2P Require Import Prelude Common.
Local Open Scope Z_scope.

(** * Hexadecimal digits and escapes *)

Definition is_hex_digit (c : ascii) : bool :=
  let v := byte_val c in
  ((48 <=? v) && (v <=? 57)) || ((97 <=? v) && (v <=? 102)) || ((65 <=? v) && (v <=? 70)).

Definition hex_digit_to_int (c : ascii) : Z :=
  let v := byte_val c in
  if (48 <=? v) && (v <=? 57) then v - 48
  else if (97 <=? v) && (v <=? 102) then v - 87
  else if (65 <=? v) && (v <=? 70) then v - 55
  else 0.

(** [unsigned char byte = ...] *)
Definition hex_byte (h l : ascii) : ascii :=
  byte_of (hex_digit_to_int h * 16 + hex_digit_to_int l).

(** The character after a backslash. *)
Definition unescape (c : ascii) : ascii :=
  if Ascii.eqb c "n" then chr_nl
  else if Ascii.eqb c "r" then chr_cr
  else if Ascii.eqb c "t" then chr_tab
  else if Ascii.eqb c "b" then chr_bs
  else if Ascii.eqb c "a" then chr_bel
  else c.

(** A closing quote must be followed by a space or nothing at all. *)
Definition close_quote (p cur : bytes) : option (bytes * bytes) :=
  match p with
  | [] => Some (cur, [])
  | d :: _ => if c_isspace d then Some (cur, p) else None
  end.

(** * [sdssplitargs] *)

(** The flags [inq] and [insq]. *)
Inductive quoting := Unquoted | InQ | InSq.

(** One token: the characters of [current] and what is left of the line, [None] for [goto err]. *)
Fixpoint get_token (q : quoting) (p current : bytes) {struct p} : option (bytes * bytes) :=
  match q with
  | InQ =>
    match p with
    | [] => None
    | c :: p1 =>
      if Ascii.eqb c chr_bslash then
        match p1 with
        | [] => get_token InQ p1 (current ++ [c])
        | d :: p2 =>
          if Ascii.eqb d chr_x then
            match p2 with
            | h :: l :: p3 =>
              if is_hex_digit h && is_hex_digit l
              then get_token InQ p3 (current ++ [hex_byte h l])
              else get_token InQ p2 (current ++ [unescape d])
            | _ => get_token InQ p2 (current ++ [unescape d])
            end
          else get_token InQ p2 (current ++ [unescape d])
        end
      else if Ascii.eqb c chr_dq then close_quote p1 current
      else get_token InQ p1 (current ++ [c])
    end
  | InSq =>
    match p with
    | [] => None
    | c :: p1 =>
      if Ascii.eqb c chr_bslash then
        match p1 with
        | d :: p2 =>
          if Ascii.eqb d chr_sq then get_token InSq p2 (current ++ [chr_sq])
          else get_token InSq p1 (current ++ [c])
        | [] => get_token InSq p1 (current ++ [c])
        end
      else if Ascii.eqb c chr_sq then close_quote p1 current
      else get_token InSq p1 (current ++ [c])
    end
  | Unquoted =>
    match p with
    | [] => Some (current, [])
    | c :: p1 =>
      if Ascii.eqb c chr_sp || Ascii.eqb c chr_nl || Ascii.eqb c chr_cr || Ascii.eqb c chr_tab
      then Some (current, p1)
      else if Ascii.eqb c chr_dq then get_token InQ p1 current
      else if Ascii.eqb c chr_sq then get_token InSq p1 current
      else get_token Unquoted p1 (current ++ [c])
    end
  end.

(** The loop that skips blanks before a token. *)
Fixpoint skip_blanks (blank : ascii → bool) (p : bytes) : bytes :=
  match p with
  | c :: p1 => if blank c then skip_blanks blank p1 else p
  | [] => []
  end.

(** The outer [while (1)]; [None] is the null pointer returned for a badly quoted line. *)
Fixpoint split_loop (blank : ascii → bool) (token : bytes → option (bytes * bytes)) (fuel : nat)
    (p : bytes) (vector : list bytes) : outcome (option (list bytes)) :=
  match skip_blanks blank p with
  | [] => Val (Some vector)
  | p1 =>
    match fuel with
    | O => Fault OutOfFuel
    | S fuel =>
      match token p1 with
      | None => Val None
      | Some (current, p2) => split_loop blank token fuel p2 (vector ++ [current])
      end
    end
  end.

Definition sdssplitargs (line : bytes) : outcome (option (list bytes)) :=
  split_loop c_isspace (λ p, get_token Unquoted p []) (length line) (c_str line) [].

(** * [sdssplitargslong] *)

Definition isspace_ex (c : ascii) : bool := Ascii.eqb c chr_sp.

(** The flags [inq], [insq] and the brace depth [inj]. *)
Inductive quoting_long := LUnquoted | LInQ | LInSq | LInJ (inj : nat).

Fixpoint get_token_long (q : quoting_long) (p current : bytes) {struct p}
    : option (bytes * bytes) :=
  match q with
  | LInQ =>
    match p with
    | [] => None
    | c :: p1 =>
      if Ascii.eqb c chr_dq then close_quote p1 current
      else
        match p1 with
        | d :: h :: l :: p4 =>
          if Ascii.eqb c chr_bslash && Ascii.eqb d chr_x && is_hex_digit h && is_hex_digit l
          then get_token_long LInQ p4 (current ++ [hex_byte h l])
          else get_token_long LInQ p1 (current ++ [c])
        | _ => get_token_long LInQ p1 (current ++ [c])
        end
    end
  | LInSq =>
    match p with
    | [] => None
    | c :: p1 =>
      if Ascii.eqb c chr_bslash then
        match p1 with
        | d :: p2 =>
          if Ascii.eqb d chr_sq then get_token_long LInSq p2 (current ++ [chr_sq])
          else get_token_long LInSq p1 (current ++ [c])
        | [] => get_token_long LInSq p1 (current ++ [c])
        end
      else if Ascii.eqb c chr_sq then close_quote p1 current
      else get_token_long LInSq p1 (current ++ [c])
    end
  | LInJ inj =>
    match p with
    | [] => None
    | c :: p1 =>
      match p1 with
      | d :: p2 =>
        if Ascii.eqb c chr_bslash && Ascii.eqb d chr_rbrace
        then get_token_long (LInJ inj) p2 (current ++ [chr_rbrace])
        else if Ascii.eqb c chr_lbrace then get_token_long (LInJ (S inj)) p1 (current ++ [c])
        else if Ascii.eqb c chr_rbrace then
          if (inj =? 1)%nat then Some (current ++ [c], p1)
          else get_token_long (LInJ (inj - 1)) p1 (current ++ [c])
        else get_token_long (LInJ inj) p1 (current ++ [c])
      | [] =>
        if Ascii.eqb c chr_lbrace then get_token_long (LInJ (S inj)) p1 (current ++ [c])
        else if Ascii.eqb c chr_rbrace then
          if (inj =? 1)%nat then Some (current ++ [c], p1)
          else get_token_long (LInJ (inj - 1)) p1 (current ++ [c])
        else get_token_long (LInJ inj) p1 (current ++ [c])
      end
    end
  | LUnquoted =>
    match p with
    | [] => Some (current, [])
    | c :: p1 =>
      if Ascii.eqb c chr_sp then Some (current, p1)
      else if Ascii.eqb c chr_dq then get_token_long LInQ p1 current
      else if Ascii.eqb c chr_sq then get_token_long LInSq p1 current
      else if Ascii.eqb c chr_lbrace then get_token_long (LInJ 1) p1 (current ++ [c])
      else get_token_long LUnquoted p1 (current ++ [c])
    end
  end.

Definition sdssplitargslong (line : bytes) : outcome (option (list bytes)) :=
  split_loop isspace_ex (λ p, get_token_long LUnquoted p []) (length line) (c_str line) [].

(** * The escaped representation [sdscatrepr] appends *)

Definition hex_digit_of (v : Z) : ascii := byte_of (if v <? 10 then 48 + v else 87 + v).

(** One character in quotes: the body of the [switch]. *)
Definition repr_char (c : ascii) : bytes :=
  if Ascii.eqb c chr_bslash || Ascii.eqb c chr_dq then [chr_bslash; c]
  else if Ascii.eqb c chr_nl then lit "\n"
  else if Ascii.eqb c chr_cr then lit "\r"
  else if Ascii.eqb c chr_tab then lit "\t"
  else if Ascii.eqb c chr_bel then lit "\a"
  else if Ascii.eqb c chr_bs then lit "\b"
  else if c_isprint c then [c]
  else lit "\x" ++ [hex_digit_of (byte_val c / 16); hex_digit_of (byte_val c mod 16)].

Definition repr (s : bytes) : bytes := [chr_dq] ++ List.concat (List.map repr_char s) ++ [chr_dq].

(** * Termination

    Every token consumes input, so the length of the line is enough fuel. *)

Lemma close_quote_shorter p cur x p' :
  close_quote p cur = Some (x, p') → (length p' <= length p)%nat.
Proof. unfold close_quote. intros. repeat case_match; simplify_eq/=; lia. Qed.

(** Case analysis on the character tests of a token function. *)
Ltac token_cases :=
  repeat match goal with
  | H : context [match ?x with _ => _ end] |- _ =>
    lazymatch x with
    | context [get_token _ _ _] => fail
    | context [get_token_long _ _ _] => fail
    | _ => destruct x eqn:?
    end
  end; simplify_eq.

Lemma get_token_shorter n q p cur x p' :
  (length p <= n)%nat → p ≠ [] → get_token q p cur = Some (x, p') → (length p' < length p)%nat.
Proof.
  revert q p cur. induction n as [|n IH]; intros q p cur Hn Hp Ht; [by destruct p; simpl in *; [|lia]|].
  destruct p as [|c p]; [done|].
  assert (Hr : ∀ q p1 cur, get_token q p1 cur = Some (x, p') → (length p1 <= length p)%nat →
                (length p' < S (length p))%nat).
  { intros q' p1 cur' H1 Hl. simpl in Hn. destruct p1 as [|c1 p1].
    - destruct q'; simplify_eq/=; lia.
    - specialize (IH q' (c1 :: p1) cur'). simpl in *. specialize (IH ltac:(lia) ltac:(done) H1). lia. }
  simpl. destruct q; simpl in Ht; token_cases;
    try (eapply Hr; [eassumption|simpl; lia]);
    try (match goal with H : close_quote _ _ = _ |- _ => apply close_quote_shorter in H end);
    simpl in *; lia.
Qed.

Lemma get_token_long_shorter n q p cur x p' :
  (length p <= n)%nat → p ≠ [] → get_token_long q p cur = Some (x, p') →
  (length p' < length p)%nat.
Proof.
  revert q p cur. induction n as [|n IH]; intros q p cur Hn Hp Ht; [by destruct p; simpl in *; [|lia]|].
  destruct p as [|c p]; [done|].
  assert (Hr : ∀ q p1 cur, get_token_long q p1 cur = Some (x, p') → (length p1 <= length p)%nat →
                (length p' < S (length p))%nat).
  { intros q' p1 cur' H1 Hl. simpl in Hn. destruct p1 as [|c1 p1].
    - destruct q'; simplify_eq/=; lia.
    - specialize (IH q' (c1 :: p1) cur'). simpl in *. specialize (IH ltac:(lia) ltac:(done) H1). lia. }
  simpl. destruct q; simpl in Ht; token_cases;
    try (eapply Hr; [eassumption|simpl; lia]);
    try (match goal with H : close_quote _ _ = _ |- _ => apply close_quote_shorter in H end);
    simpl in *; lia.
Qed.

Lemma skip_blanks_length blank p : (length (skip_blanks blank p) <= length p)%nat.
Proof. induction p as [|c p IH]; simpl; [lia|]. destruct (blank c); simpl; lia. Qed.

Lemma c_str_length m : (length (c_str m) <= length m)%nat.
Proof. induction m as [|c m IH]; simpl; [lia|]. destruct (Ascii.eqb c NUL); simpl; lia. Qed.

Section SplitLoop.
Variable blank : ascii → bool.
Variable token : bytes → option (bytes * bytes).
Hypothesis token_shorter : ∀ p x p', p ≠ [] → token p = Some (x, p') → (length p' < length p)%nat.

Lemma split_loop_total fuel p vector :
  (length p <= fuel)%nat → is_val (split_loop blank token fuel p vector).
Proof.
  revert p vector. induction fuel as [|fuel IH]; intros p vector Hp;
    pose proof (skip_blanks_length blank p) as Hs; simpl;
    destruct (skip_blanks blank p) as [|c p1] eqn:Hsk; try (by eexists).
  - simpl in Hs. lia.
  - destruct (token (c :: p1)) as [[x p2]|] eqn:Ht; [|by eexists].
    apply token_shorter in Ht; [|done]. apply IH. simpl in *. lia.
Qed.

(** The loop does not depend on the fuel beyond what it needs. *)
Lemma split_loop_fuel fuel p vector r :
  split_loop blank token fuel p vector = Val r →
  ∀ fuel', (fuel <= fuel')%nat → split_loop blank token fuel' p vector = Val r.
Proof.
  revert p vector. induction fuel as [|fuel IH]; intros p vector Hp [|fuel'] Hf; simpl in *;
    try lia; destruct (skip_blanks blank p) as [|c p1]; try done.
  destruct (token (c :: p1)) as [[x p2]|]; [|done]. apply IH; [done|lia].
Qed.

(** One turn of the loop. *)
Lemma split_loop_step fuel p x p2 vector :
  p ≠ [] → skip_blanks blank p = p → token p = Some (x, p2) →
  split_loop blank token (S fuel) p vector = split_loop blank token fuel p2 (vector ++ [x]).
Proof. intros Hp Hs Ht. simpl. rewrite Hs. destruct p; [done|]. by rewrite Ht. Qed.

(** A token that fails ends it. *)
Lemma split_loop_err fuel p vector :
  (0 < fuel)%nat → p ≠ [] → skip_blanks blank p = p → token p = None →
  split_loop blank token fuel p vector = Val None.
Proof. intros Hf Hp Hs Ht. destruct fuel; [lia|]. simpl. rewrite Hs. by destruct p; rewrite ?Ht. Qed.
End SplitLoop.

Lemma no_nul_app a b : no_nul a → no_nul b → no_nul (a ++ b).
Proof. unfold no_nul. rewrite elem_of_app. tauto. Qed.

Lemma c_str_app a b : no_nul a → c_str (a ++ b) = a ++ c_str b.
Proof.
  unfold no_nul. induction a as [|c a IH]; simpl; [done|]. rewrite not_elem_of_cons. intros [Hc Ha].
  destruct (Ascii.eqb_spec c NUL); [congruence|]. by rewrite IH.
Qed.

Lemma no_nul_join sep l : no_nul sep → Forall no_nul l → no_nul (join_with sep l).
Proof.
  intros Hs Hl. induction Hl as [|x [|y l] Hx Hl IH]; simpl; [apply not_elem_of_nil|done|].
  apply no_nul_app; [done|]. by apply no_nul_app.
Qed.

(** * Reading back [repr] *)

Lemma repr_char_token c rest cur :
  get_token InQ (repr_char c ++ rest) cur = get_token InQ rest (cur ++ [c]).
Proof. destruct c as [[] [] [] [] [] [] [] []]; reflexivity. Qed.

Lemma repr_chars_token s rest cur :
  get_token InQ (List.concat (List.map repr_char s) ++ rest) cur = get_token InQ rest (cur ++ s).
Proof.
  revert cur. induction s as [|c s IH]; intros cur; cbn [List.concat List.map app].
  - by rewrite app_nil_r.
  - rewrite <- app_assoc, repr_char_token, IH, <- app_assoc. done.
Qed.

Lemma repr_char_no_nul c : no_nul (repr_char c).
Proof.
  unfold no_nul. rewrite list_elem_of_In.
  destruct c as [[] [] [] [] [] [] [] []]; vm_compute; intuition discriminate.
Qed.

Lemma repr_no_nul s : no_nul (repr s).
Proof.
  unfold repr. apply no_nul_app; [by unfold no_nul; rewrite list_elem_of_singleton|].
  apply no_nul_app; [|by unfold no_nul; rewrite list_elem_of_singleton].
  induction s as [|c s IH]; simpl; [apply not_elem_of_nil|].
  apply no_nul_app; [apply repr_char_no_nul|done].
Qed.

(** What may follow a quoted token. *)
Definition ends_token (rest : bytes) : Prop :=
  match rest with [] => True | d :: _ => c_isspace d = true end.

Lemma repr_token s rest :
  ends_token rest → get_token Unquoted (repr s ++ rest) [] = Some (s, rest).
Proof.
  intros Hr. unfold repr. cbn [app get_token Ascii.eqb orb]. rewrite <- app_assoc.
  change (get_token InQ (List.concat (List.map repr_char s) ++ [chr_dq] ++ rest) [] =
          Some (s, rest)).
  rewrite repr_chars_token. simpl. unfold close_quote.
  destruct rest as [|d rest]; [done|]. simpl in Hr. by rewrite Hr.
Qed.

(** * Words given as they are *)

(** A word without quotes, blanks or braces. *)
Definition plain_char (c : ascii) : bool :=
  negb (Ascii.eqb c NUL || Ascii.eqb c chr_sp || Ascii.eqb c chr_dq || Ascii.eqb c chr_sq
        || Ascii.eqb c chr_lbrace).
Definition plain_word (w : bytes) : bool := negb (bool_decide (w = [])) && forallb plain_char w.

Lemma plain_chars_token w rest cur :
  forallb plain_char w = true →
  get_token_long LUnquoted (w ++ rest) cur = get_token_long LUnquoted rest (cur ++ w).
Proof.
  revert cur. induction w as [|c w IH]; intros cur Hw; cbn [app].
  - by rewrite app_nil_r.
  - simpl in Hw. apply andb_true_iff in Hw as [Hc Hw]. unfold plain_char in Hc.
    rewrite negb_true_iff, !orb_false_iff in Hc. destruct Hc as [[[[_ H1] H2] H3] H4].
    cbn [get_token_long]. rewrite H1, H2, H3, H4, IH by done. by rewrite <- app_assoc.
Qed.

Lemma plain_word_no_nul w : plain_word w = true → no_nul w.
Proof.
  unfold plain_word. rewrite andb_true_iff, forallb_forall. intros [_ H] Hin.
  apply list_elem_of_In in Hin. by specialize (H _ Hin).
Qed.

(** ** Numbers are words *)

Lemma dec_nat_plain n : plain_word (dec_nat n) = true.
Proof.
  unfold plain_word. rewrite dec_nat_chars by done.
  by rewrite bool_decide_eq_false_2 by apply dec_nat_ne.
Qed.

Lemma dec_int_plain z : plain_word (dec_int z) = true.
Proof.
  unfold plain_word. rewrite dec_int_chars by done.
  by rewrite bool_decide_eq_false_2 by apply dec_int_ne.
Qed.

(** * JSON arguments

    The text after the opening brace of a token, up to and with the brace that closes it. *)
Fixpoint balanced (inj : nat) (p : bytes) : bool :=
  match p with
  | [] => false
  | c :: p1 =>
    if Ascii.eqb c chr_bslash || Ascii.eqb c NUL then false
    else if Ascii.eqb c chr_lbrace then balanced (S inj) p1
    else if Ascii.eqb c chr_rbrace then
      if (inj =? 1)%nat then bool_decide (p1 = []) else balanced (inj - 1) p1
    else balanced inj p1
  end.

Lemma balanced_token inj p rest cur :
  balanced inj p = true → get_token_long (LInJ inj) (p ++ rest) cur = Some (cur ++ p, rest).
Proof.
  revert inj cur. induction p as [|c p IH]; intros inj cur Hb; [done|].
  simpl in Hb. destruct (Ascii.eqb c chr_bslash || Ascii.eqb c NUL) eqn:Hc; [done|].
  apply orb_false_iff in Hc as [Hc _].
  assert (Hstep : get_token_long (LInJ inj) ((c :: p) ++ rest) cur =
    if Ascii.eqb c chr_lbrace then get_token_long (LInJ (S inj)) (p ++ rest) (cur ++ [c])
    else if Ascii.eqb c chr_rbrace then
      if (inj =? 1)%nat then Some (cur ++ [c], p ++ rest)
      else get_token_long (LInJ (inj - 1)) (p ++ rest) (cur ++ [c])
    else get_token_long (LInJ inj) (p ++ rest) (cur ++ [c])).
  { cbn [app get_token_long]. rewrite Hc. cbn [andb]. by destruct (p ++ rest). }
  rewrite Hstep. clear Hstep.
  destruct (Ascii.eqb c chr_lbrace); [by rewrite IH, <- app_assoc|].
  destruct (Ascii.eqb c chr_rbrace); [|by rewrite IH, <- app_assoc].
  destruct (inj =? 1)%nat; [|by rewrite IH, <- app_assoc].
  apply bool_decide_eq_true in Hb as ->. done.
Qed.

Lemma balanced_no_nul inj p : balanced inj p = true → no_nul p.
Proof.
  revert inj. induction p as [|c p IH]; intros inj Hb; [done|]. simpl in Hb.
  destruct (Ascii.eqb_spec c chr_bslash) as [|_]; [done|].
  destruct (Ascii.eqb_spec c NUL) as [|Hn]; [done|]. simpl in Hb.
  intros Hin. apply list_elem_of_In in Hin. destruct Hin as [->|Hin]; [done|].
  apply list_elem_of_In in Hin. revert Hin.
  destruct (Ascii.eqb c chr_lbrace); [by eapply IH|].
  destruct (Ascii.eqb c chr_rbrace); [|by eapply IH].
  destruct (inj =? 1)%nat; [|by eapply IH].
  apply bool_decide_eq_true in Hb as ->. apply not_elem_of_nil.
Qed.

(** * Lines made of well-formed arguments *)

Section Forms.
Variable blank : ascii → bool.
Variable token : bytes → option (bytes * bytes).
Variable form : bytes → bytes → Prop.
Hypothesis blank_sp : blank chr_sp = true.
Hypothesis form_start : ∀ a t rest, form a t → t ≠ [] ∧ skip_blanks blank (t ++ rest) = t ++ rest.
Hypothesis form_token : ∀ a t rest, form a t → rest = [] ∨ head rest = Some chr_sp →
  ∃ rest', token (t ++ rest) = Some (a, rest') ∧ skip_blanks blank rest' = skip_blanks blank rest.

Lemma split_loop_skip fuel p p' vector :
  skip_blanks blank p = skip_blanks blank p' →
  split_loop blank token fuel p vector = split_loop blank token fuel p' vector.
Proof. intros H. destruct fuel; simpl; by rewrite H. Qed.

Lemma split_forms args ts vector fuel :
  Forall2 form args ts → (length (join_with [chr_sp] ts) <= fuel)%nat →
  split_loop blank token fuel (join_with [chr_sp] ts) vector = Val (Some (vector ++ args)).
Proof.
  intros Hf. revert vector fuel. induction Hf as [|a t args ts Hat Hf IH]; intros vector fuel Hl.
  { destruct fuel; simpl; by rewrite app_nil_r. }
  assert (∃ rest, join_with [chr_sp] (t :: ts) = t ++ rest ∧
            (rest = [] ∨ head rest = Some chr_sp) ∧
            skip_blanks blank rest = skip_blanks blank (join_with [chr_sp] ts) ∧
            (length (join_with [chr_sp] ts) <= length rest)%nat) as (rest & E & Hr & Hs & Hlen).
  { destruct ts as [|t2 ts].
    - exists []. simpl. rewrite app_nil_r. auto.
    - exists ([chr_sp] ++ join_with [chr_sp] (t2 :: ts)). split; [done|]. split; [by right|].
      rewrite length_app. cbn [app skip_blanks]. rewrite blank_sp. split; [done|lia]. }
  rewrite E in Hl |- *. rewrite length_app in Hl. destruct (form_start a t rest Hat) as [Ht Hsk].
  destruct (form_token a t rest Hat Hr) as (rest' & Htok & Hskip).
  destruct fuel as [|fuel]; [destruct t; [done|simpl in Hl; lia]|].
  rewrite (split_loop_step blank token fuel _ a rest');
    [|by destruct t|done|done].
  rewrite (split_loop_skip fuel rest' (join_with [chr_sp] ts)) by (by rewrite Hskip).
  rewrite IH by (destruct t; [done|simpl in Hl; lia]). by rewrite <- app_assoc.
Qed.
End Forms.

(** The ways to write an argument for [sdssplitargslong]: a plain word, a JSON object, a string
    in double quotes, a string in single quotes. *)
Definition dq_char (c : ascii) : bool :=
  negb (Ascii.eqb c NUL || Ascii.eqb c chr_dq || Ascii.eqb c chr_bslash).
Definition sq_char (c : ascii) : bool := negb (Ascii.eqb c NUL || Ascii.eqb c chr_bslash).
Definition escape_sq (c : ascii) : bytes :=
  if Ascii.eqb c chr_sq then [chr_bslash; chr_sq] else [c].

Inductive arg_form : bytes → bytes → Prop :=
| form_plain w : plain_word w = true → arg_form w w
| form_json p : balanced 1 p = true → arg_form (chr_lbrace :: p) (chr_lbrace :: p)
| form_dq a : forallb dq_char a = true → arg_form a ([chr_dq] ++ a ++ [chr_dq])
| form_sq a : forallb sq_char a = true →
              arg_form a ([chr_sq] ++ List.concat (List.map escape_sq a) ++ [chr_sq]).

Lemma dq_chars_token a rest cur :
  forallb dq_char a = true →
  get_token_long LInQ (a ++ rest) cur = get_token_long LInQ rest (cur ++ a).
Proof.
  revert cur. induction a as [|c a IH]; intros cur Ha; cbn [app].
  - by rewrite app_nil_r.
  - simpl in Ha. apply andb_true_iff in Ha as [Hc Ha]. unfold dq_char in Hc.
    rewrite negb_true_iff, !orb_false_iff in Hc. destruct Hc as [[_ H1] H2].
    cbn [get_token_long]. rewrite H1, H2. cbn [andb].
    assert (get_token_long LInQ (a ++ rest) (cur ++ [c]) =
            get_token_long LInQ rest (cur ++ c :: a)) as <- by (by rewrite IH, <- app_assoc).
    by destruct (a ++ rest) as [|? [|? [|? ?]]].
Qed.

Lemma sq_chars_token a rest cur :
  forallb sq_char a = true →
  get_token_long LInSq (List.concat (List.map escape_sq a) ++ rest) cur =
  get_token_long LInSq rest (cur ++ a).
Proof.
  revert cur. induction a as [|c a IH]; intros cur Ha; cbn [List.map List.concat app].
  - by rewrite app_nil_r.
  - simpl in Ha. apply andb_true_iff in Ha as [Hc Ha]. unfold sq_char in Hc.
    rewrite negb_true_iff, !orb_false_iff in Hc. destruct Hc as [_ H1].
    rewrite <- app_assoc. unfold escape_sq at 1.
    replace (cur ++ c :: a) with ((cur ++ [c]) ++ a) by (by rewrite <- app_assoc).
    rewrite <- IH by done. destruct (Ascii.eqb_spec c chr_sq) as [->|Hsq]; [done|].
    cbn [app get_token_long]. rewrite H1. by destruct (Ascii.eqb_spec c chr_sq).
Qed.

Lemma close_quote_sp rest cur :
  rest = [] ∨ head rest = Some chr_sp → close_quote rest cur = Some (cur, rest).
Proof. intros [->|H]; [done|]. destruct rest; [done|]. by simplify_eq/=. Qed.

Lemma arg_form_token a t rest :
  arg_form a t → rest = [] ∨ head rest = Some chr_sp →
  ∃ rest', get_token_long LUnquoted (t ++ rest) [] = Some (a, rest') ∧
           skip_blanks isspace_ex rest' = skip_blanks isspace_ex rest.
Proof.
  intros Hf Hr. destruct Hf as [w Hw|p Hp|a Ha|a Ha].
  - unfold plain_word in Hw. apply andb_true_iff in Hw as [_ Hw].
    rewrite plain_chars_token by done. destruct Hr as [->|Hr]; [by eexists|].
    destruct rest as [|c rest]; [done|]. simplify_eq/=. by eexists.
  - exists rest. cbn [app]. split; [|done].
    change (get_token_long (LInJ 1) (p ++ rest) [chr_lbrace] = Some (chr_lbrace :: p, rest)).
    by rewrite balanced_token.
  - exists rest. split; [|done]. rewrite <- !app_assoc.
    change (get_token_long LInQ (a ++ [chr_dq] ++ rest) [] = Some (a, rest)).
    rewrite dq_chars_token by done. simpl. by apply close_quote_sp.
  - exists rest. split; [|done]. rewrite <- !app_assoc.
    change (get_token_long LInSq (List.concat (List.map escape_sq a) ++ [chr_sq] ++ rest) [] =
            Some (a, rest)).
    rewrite sq_chars_token by done. simpl. by apply close_quote_sp.
Qed.

Lemma arg_form_start a t rest :
  arg_form a t → t ≠ [] ∧ skip_blanks isspace_ex (t ++ rest) = t ++ rest.
Proof.
  intros [w Hw|p Hp|b Hb|b Hb]; try (split; done).
  unfold plain_word in Hw. destruct w as [|c w]; [done|]. split; [done|].
  simpl in Hw. apply andb_true_iff in Hw as [Hc _]. unfold plain_char in Hc.
  rewrite negb_true_iff, !orb_false_iff in Hc. destruct Hc as [[[[_ H1] _] _] _].
  simpl. unfold isspace_ex. by rewrite H1.
Qed.

Lemma chars_no_nul (ok : ascii → bool) a :
  ok NUL = false → forallb ok a = true → no_nul a.
Proof.
  intros Hok. rewrite forallb_forall. intros H Hin. apply list_elem_of_In in Hin.
  specialize (H _ Hin). congruence.
Qed.

Lemma arg_form_no_nul a t : arg_form a t → no_nul t.
Proof.
  assert (∀ c, c ≠ NUL → no_nul [c])
    by (intros c Hc; unfold no_nul; rewrite list_elem_of_singleton; congruence).
  intros [w Hw|p Hp|b Hb|b Hb].
  - by apply plain_word_no_nul.
  - unfold no_nul. apply not_elem_of_cons. split; [done|]. by eapply balanced_no_nul.
  - repeat apply no_nul_app; auto. by eapply chars_no_nul, Hb.
  - apply no_nul_app; [auto|]. apply no_nul_app; [|auto].
    induction b as [|c b IH]; simpl in *; [apply not_elem_of_nil|].
    apply andb_true_iff in Hb as [Hc Hb]. apply no_nul_app; [|auto]. unfold escape_sq.
    destruct (Ascii.eqb_spec c chr_sq); [|apply H; by intros ->].
    change [chr_bslash; chr_sq] with ([chr_bslash] ++ [chr_sq]). apply no_nul_app; auto.
Qed.

Lemma forms_no_nul (form : bytes → bytes → Prop) args ts :
  (∀ a t, form a t → no_nul t) → Forall2 form args ts → no_nul (join_with [chr_sp] ts).
Proof.
  intros H Hf. apply no_nul_join; [by unfold no_nul; rewrite list_elem_of_singleton|].
  induction Hf; constructor; eauto.
Qed.

Lemma split_forms_long args ts :
  Forall2 arg_form args ts → sdssplitargslong (join_with [chr_sp] ts) = Val (Some args).
Proof.
  intros Hf. unfold sdssplitargslong.
  rewrite c_str_no_nul by (eapply forms_no_nul, Hf; apply arg_form_no_nul).
  eapply (split_forms _ _ arg_form) with (vector := []); [done| | |done|done].
  - apply arg_form_start.
  - intros a t rest. apply arg_form_token.
Qed.

(** A line of plain words. *)
Lemma split_plain_words argv :
  forallb plain_word argv = true → sdssplitargslong (join_with [chr_sp] argv) = Val (Some argv).
Proof.
  intros Hp. apply split_forms_long.
  induction argv as [|a argv IH]; [constructor|]. simpl in Hp. apply andb_true_iff in Hp as [Ha Hp].
  constructor; [by apply form_plain|by apply IH].
Qed.

(** * Properties *)

(** Splitting a line always ends with a result, an array of arguments or the null pointer, in
    both splitters: every token consumes input, so the length of the line bounds the turns. *)
Theorem split_total line : is_val (sdssplitargs line) ∧ is_val (sdssplitargslong line).
Proof.
  split; (apply split_loop_total; [|apply c_str_length]); intros p x p' Hp Ht.
  - by eapply get_token_shorter.
  - by eapply get_token_long_shorter.
Qed.

(** [sdssplitargs] reads back what [sdscatrepr] writes: any list of binary arguments, each in
    its escaped representation and separated by blanks, splits into the same list. *)
Theorem sdssplitargs_repr args :
  sdssplitargs (join_with [chr_sp] (List.map repr args)) = Val (Some args).
Proof.
  unfold sdssplitargs.
  assert (Hf : Forall2 (λ a t, t = repr a) args (List.map repr args))
    by (induction args; constructor; auto).
  rewrite c_str_no_nul by (eapply forms_no_nul, Hf; intros a t ->; apply repr_no_nul).
  apply (split_forms _ _ (λ a t, t = repr a)) with (vector := []); try done.
  - intros a t rest ->. by split.
  - intros a t rest -> Hr. exists rest. split; [|done]. apply repr_token.
    destruct Hr as [->|Hr]; [done|]. by destruct rest; simplify_eq/=.
Qed.

(** C25. [sdssplitargslong] splits a line of blank-separated arguments, each a plain word, a
    balanced JSON object, or a string in double or single quotes, into exactly those arguments:
    blanks inside quotes and braces stay in the argument, and the quotes are removed. *)
Theorem sdssplitargslong_forms args ts :
  Forall2 arg_form args ts → sdssplitargslong (join_with [chr_sp] ts) = Val (Some args).
Proof. apply split_forms_long. Qed.

Lemma sdssplitargslong_forms_witness :
  sdssplitargslong (join_with [chr_sp]
    [lit "SET"; lit "k"; lit "{a: {b c}}"; [chr_dq] ++ lit "x y" ++ [chr_dq]]) =
  Val (Some [lit "SET"; lit "k"; lit "{a: {b c}}"; lit "x y"]).
Proof.
  apply sdssplitargslong_forms.
  constructor; [by apply form_plain|]. constructor; [by apply form_plain|].
  constructor; [by apply (form_json (lit "a: {b c}}"))|].
  constructor; [by apply form_dq|]. constructor.
Defined.

(** A line whose argument opens a quote and does not close it, or closes it before another
    character than a blank, is refused with the null pointer. *)
Theorem sdssplitargslong_unbalanced a c rest :
  forallb dq_char a = true → c ≠ NUL → c_isspace c = false →
  sdssplitargslong ([chr_dq] ++ a) = Val None ∧
  sdssplitargslong ([chr_dq] ++ a ++ [chr_dq; c] ++ rest) = Val None.
Proof.
  intros Ha Hc Hs. assert (Hn : no_nul ([chr_dq] ++ a)).
  { apply no_nul_app; [by unfold no_nul; rewrite list_elem_of_singleton|].
    by eapply chars_no_nul, Ha. }
  unfold sdssplitargslong. split.
  - rewrite c_str_no_nul by done. apply split_loop_err; [simpl; lia|done|done|].
    change (get_token_long LInQ a [] = None). by rewrite <- (app_nil_r a), dq_chars_token.
  - rewrite app_assoc, c_str_app by done. apply split_loop_err; [simpl; lia|done|done|].
    change (get_token_long LInQ (a ++ c_str ([chr_dq; c] ++ rest)) [] = None).
    rewrite dq_chars_token by done. simpl.
    destruct (Ascii.eqb_spec c NUL) as [|_]; [done|]. simpl. by rewrite Hs.
Qed.

Lemma sdssplitargslong_unbalanced_witness :
  sdssplitargslong ([chr_dq] ++ lit "a b") = Val None ∧
  sdssplitargslong ([chr_dq] ++ lit "a b" ++ [chr_dq; "c"%char] ++ lit " d") = Val None.
Proof. by apply sdssplitargslong_unbalanced. Defined.
