(* ===== verification/Sds.v ===== *)
(** The dynamic strings of [third-party/sds/sds.c], with their header fields at [int] width and
    every access to the buffer checked.  A string is the header and the array behind it; the
    array is what was allocated, so its length is the capacity. *)
From Stdlib Require Import Ascii String ZArith Lia.
From stdpp Require Import base list.
From S2P Require Import Prelude Common SdsArgs.
Local Open Scope Z_scope.

(** * Memory *)

(** A block of the heap: [malloc n] is its initial contents, [None] when the allocation fails. *)
Class Alloc := { malloc : Z → option bytes }.
Class AllocLaws `{Alloc} : Prop := {
  malloc_size n b : malloc n = Some b → Z.of_nat (length b) = n
}.

(** Some allocation fails. *)
Definition out_of_memory `{Alloc} : Prop := ∃ n, 0 <= n ∧ malloc n = None.

(** Bytes [i] to [i + n - 1] of a block. *)
Definition mem_read (b : bytes) (i n : Z) : outcome bytes :=
  if (0 <=? i) && (0 <=? n) && (i + n <=? Z.of_nat (length b))
  then Val (take (Z.to_nat n) (drop (Z.to_nat i) b)) else Fault OutOfBounds.

(** [memcpy(b + i, data, ...)] *)
Definition mem_write (b : bytes) (i : Z) (data : bytes) : outcome bytes :=
  if (0 <=? i) && (i + Z.of_nat (length data) <=? Z.of_nat (length b))
  then Val (take (Z.to_nat i) b ++ data ++ drop (Z.to_nat i + length data) b)
  else Fault OutOfBounds.

(** [int] arithmetic *)
Definition int_arith (z : Z) : outcome Z :=
  if (INT_MIN <=? z) && (z <=? INT_MAX) then Val z else Fault SignedOverflow.

(** * [struct sdshdr] *)

Record sdshdr := mkSds { sds_len : Z; sds_free : Z; sds_buf : bytes }.

Definition sizeof_sdshdr : Z := 8.
Definition SDS_MAX_PREALLOC : Z := 1024 * 1024.

(** [sdslen] and [sdsavail] return the [int] fields as [size_t]. *)
Definition sdslen (s : sdshdr) : Z := u64 (sds_len s).
Definition sdsavail (s : sdshdr) : Z := u64 (sds_free s).

(** [sh->buf[i] = c] *)
Definition buf_set (s : sdshdr) (i : Z) (c : ascii) : outcome sdshdr :=
  b ← mem_write (sds_buf s) i [c]; Val (mkSds (sds_len s) (sds_free s) b).
Definition buf_write (s : sdshdr) (i : Z) (data : bytes) : outcome sdshdr :=
  b ← mem_write (sds_buf s) i data; Val (mkSds (sds_len s) (sds_free s) b).
Definition set_len_free (s : sdshdr) (len free : Z) : sdshdr := mkSds len free (sds_buf s).

(** A dereference of a pointer that may be null. *)
Definition deref {A} (o : option A) : outcome A := from_option_fault NullPointer o.

Section Sds.
Context `{Alloc}.

(** ** Creation *)

(** The block of [sizeof *sh + n + 1] bytes without its header. *)
Definition alloc_hdr (n : Z) : option bytes :=
  drop (Z.to_nat sizeof_sdshdr) <$> malloc (u64 (sizeof_sdshdr + n + 1)).

Definition sdsnewlen (init : option bytes) (initlen : Z) : outcome (option sdshdr) :=
  match alloc_hdr initlen with
  | None => Val None
  | Some block =>
    let block := match init with Some _ => block | None => replicate (length block) NUL end in
    let s := mkSds (i32 initlen) 0 block in
    s ← match init with
        | Some t => if initlen =? 0 then Val s
                    else data ← mem_read t 0 initlen; buf_write s 0 data
        | None => Val s
        end;
    s ← buf_set s initlen NUL;
    Val (Some s)
  end.

Definition sdsempty : outcome (option sdshdr) := sdsnewlen (Some []) 0.

Definition strlen (t : bytes) : Z := Z.of_nat (length (c_str t)).

Definition sdsnew (init : option bytes) : outcome (option sdshdr) :=
  let initlen := match init with None => 0 | Some t => strlen t end in
  sdsnewlen init initlen.

Definition sdsdup (s : sdshdr) : outcome (option sdshdr) :=
  sdsnewlen (Some (sds_buf s)) (sdslen s).

(** ** Length *)

(** [strlen(s)] runs to the first NUL of the buffer. *)
Definition sdsupdatelen (s : sdshdr) : outcome sdshdr :=
  if strlen (sds_buf s) =? Z.of_nat (length (sds_buf s)) then Fault OutOfBounds
  else
    let reallen := i32 (strlen (sds_buf s)) in
    d ← int_arith (sds_len s - reallen);
    f ← int_arith (sds_free s + d);
    Val (set_len_free s reallen f).

Definition sdsclear (s : sdshdr) : outcome sdshdr :=
  f ← int_arith (sds_free s + sds_len s);
  buf_set (set_len_free s 0 f) 0 NUL.

Definition sdsIncrLen (s : sdshdr) (incr : Z) : outcome sdshdr :=
  if negb (incr <=? sds_free s) then Fault CheckFailed
  else
    l ← int_arith (sds_len s + incr);
    f ← int_arith (sds_free s - incr);
    if negb (0 <=? f) then Fault CheckFailed
    else buf_set (set_len_free s l f) l NUL.

(** ** Room *)

(** [realloc] keeps the bytes that fit in the new block. *)
Definition realloc_hdr (old : bytes) (n : Z) : option bytes :=
  (λ block, take (length block) old ++ drop (length old) block) <$> alloc_hdr n.

Definition sdsMakeRoomFor (s : sdshdr) (addlen : Z) : outcome (option sdshdr) :=
  if addlen <=? sdsavail s then Val (Some s)
  else
    let len := sdslen s in
    let newlen := u64 (len + addlen) in
    let newlen := if newlen <? SDS_MAX_PREALLOC then u64 (newlen * 2)
                  else u64 (newlen + SDS_MAX_PREALLOC) in
    match realloc_hdr (sds_buf s) newlen with
    | None => Val None
    | Some block => Val (Some (mkSds (sds_len s) (i32 (u64 (newlen - len))) block))
    end.

(** [realloc] is not checked here. *)
Definition sdsRemoveFreeSpace (s : sdshdr) : outcome sdshdr :=
  match realloc_hdr (sds_buf s) (sds_len s) with
  | None => Fault NullPointer
  | Some block => Val (mkSds (sds_len s) 0 block)
  end.

Definition sdsAllocSize (s : sdshdr) : Z := u64 (sizeof_sdshdr + sds_len s + sds_free s + 1).

Definition sdsgrowzero (s : sdshdr) (len : Z) : outcome (option sdshdr) :=
  let curlen := u64 (sds_len s) in
  if len <=? curlen then Val (Some s)
  else
    o ← sdsMakeRoomFor s (len - curlen);
    match o with
    | None => Val None
    | Some s =>
      s ← buf_write s curlen (replicate (Z.to_nat (len - curlen + 1)) NUL);
      totlen ← int_arith (sds_len s + sds_free s);
      Val (Some (set_len_free s (i32 len) (i32 (u64 (totlen - i32 len)))))
    end.

(** ** Concatenation and copy *)

Definition sdscatlen (s : sdshdr) (t : bytes) (len : Z) : outcome (option sdshdr) :=
  let curlen := sdslen s in
  o ← sdsMakeRoomFor s len;
  match o with
  | None => Val None
  | Some s =>
    data ← mem_read t 0 len;
    s ← buf_write s curlen data;
    let s := set_len_free s (i32 (u64 (curlen + len))) (i32 (u64 (sds_free s - len))) in
    s ← buf_set s (u64 (curlen + len)) NUL;
    Val (Some s)
  end.

Definition sdscat (s : sdshdr) (t : bytes) : outcome (option sdshdr) := sdscatlen s t (strlen t).

Definition sdscatsds (s t : sdshdr) : outcome (option sdshdr) :=
  sdscatlen s (sds_buf t) (sdslen t).

Definition sdscpylen (s : sdshdr) (t : bytes) (len : Z) : outcome (option sdshdr) :=
  totlen ← int_arith (sds_free s + sds_len s);
  o ← (if u64 totlen <? len then sdsMakeRoomFor s (u64 (len - sds_len s)) else Val (Some s));
  match o with
  | None => Val None
  | Some s =>
    totlen ← int_arith (sds_free s + sds_len s);
    data ← mem_read t 0 len;
    s ← buf_write s 0 data;
    s ← buf_set s len NUL;
    Val (Some (set_len_free s (i32 len) (i32 (u64 (totlen - len)))))
  end.

Definition sdscpy (s : sdshdr) (t : bytes) : outcome (option sdshdr) := sdscpylen s t (strlen t).

(** ** Formatting *)

(** The [do ... while (v)] loop: the digits of [v], last digit first; 20 turns suffice. *)
Fixpoint digits_loop (fuel : nat) (v : Z) (p : bytes) : outcome bytes :=
  match fuel with
  | O => Fault OutOfFuel
  | S fuel =>
    let p := p ++ [byte_of (48 + v mod 10)] in
    let v := v / 10 in
    if v =? 0 then Val p else digits_loop fuel v p
  end.

Definition swap_bytes (b : bytes) (i j : nat) : bytes :=
  match b !! i, b !! j with
  | Some x, Some y => <[j := x]> (<[i := y]> b)
  | _, _ => b
  end.

(** [while (s < p) { swap; s++; p--; }] *)
Fixpoint reverse_loop (fuel : nat) (b : bytes) (i j : nat) : bytes :=
  match fuel with
  | O => b
  | S fuel => if (i <? j)%nat then reverse_loop fuel (swap_bytes b i j) (S i) (j - 1) else b
  end.

Definition SDS_LLSTR_SIZE : Z := 21.

(** The string in the caller's array of [SDS_LLSTR_SIZE] bytes, terminator included. *)
Definition in_llstr (b : bytes) : outcome bytes :=
  if Z.of_nat (length b) + 1 <=? SDS_LLSTR_SIZE then Val b else Fault OutOfBounds.

(** [-value] is the negation of a [long long]. *)
Definition ll_abs (value : Z) : outcome Z :=
  if value <? 0 then if value =? LLONG_MIN then Fault SignedOverflow else Val (- value)
  else Val value.

Definition sdsll2str (value : Z) : outcome bytes :=
  v ← ll_abs value;
  p ← digits_loop 20 v [];
  let p := if value <? 0 then p ++ lit "-" else p in
  p ← in_llstr p;
  Val (reverse_loop (length p) p 0 (length p - 1)).

Definition sdsull2str (v : Z) : outcome bytes :=
  p ← digits_loop 20 v [];
  p ← in_llstr p;
  Val (reverse_loop (length p) p 0 (length p - 1)).

(** The same digits written from the end of a 32-byte array towards its start. *)
Definition sdsfromlonglong (value : Z) : outcome (option sdshdr) :=
  v ← ll_abs value;
  p ← digits_loop 20 v [];
  let p := if value <? 0 then p ++ lit "-" else p in
  if Z.of_nat (length p) <=? 32 then sdsnewlen (Some (rev p)) (Z.of_nat (length p))
  else Fault OutOfBounds.

(** [text] is what [vsnprintf] formats: it writes at most [buflen - 1] bytes and a terminator.
    The retry loop doubles a buffer of 16 bytes until the last but one is still NUL. *)
Fixpoint vprintf_loop (fuel : nat) (buflen : Z) (text : bytes) : outcome (option bytes) :=
  match fuel with
  | O => Fault OutOfFuel
  | S fuel =>
    match malloc buflen with
    | None => Val None
    | Some buf =>
      buf ← mem_write buf (buflen - 2) [NUL];
      buf ← mem_write buf 0 (take (Z.to_nat (buflen - 1)) text ++ [NUL]);
      last ← mem_read buf (buflen - 2) 1;
      if bool_decide (last = [NUL]) then Val (Some buf)
      else vprintf_loop fuel (buflen * 2) text
    end
  end.

Definition sdscatvprintf (s : sdshdr) (text : bytes) : outcome (option sdshdr) :=
  o ← vprintf_loop (S (length text)) 16 text;
  match o with
  | None => Val None
  | Some buf => sdscat s buf
  end.

Definition sdscatprintf (s : sdshdr) (text : bytes) : outcome (option sdshdr) :=
  sdscatvprintf s text.

(** The variable arguments of [sdscatfmt]. *)
Inductive fmt_val :=
| FmtStr (t : bytes)
| FmtSds (t : sdshdr)
| FmtInt (n : Z)
| FmtLongLong (n : Z)
| FmtUInt (n : Z)
| FmtULongLong (n : Z)
| FmtSize (n : Z).

(** The text and length the next argument stands for; reading an argument that is not there, or
    of another type, is a fault. *)
Definition fmt_arg_text (next : ascii) (ap : list fmt_val)
    : outcome (bytes * Z * list fmt_val) :=
  match ap with
  | FmtStr t :: ap =>
    if Ascii.eqb next "s" then Val (t, i32 (strlen t), ap) else Fault OutOfBounds
  | FmtSds t :: ap =>
    if Ascii.eqb next "S" then Val (sds_buf t, i32 (sdslen t), ap) else Fault OutOfBounds
  | FmtInt n :: ap =>
    if Ascii.eqb next "i" then b ← sdsll2str n; Val (b, Z.of_nat (length b), ap)
    else Fault OutOfBounds
  | FmtLongLong n :: ap =>
    if Ascii.eqb next "I" then b ← sdsll2str n; Val (b, Z.of_nat (length b), ap)
    else Fault OutOfBounds
  | FmtUInt n :: ap =>
    if Ascii.eqb next "u" then b ← sdsull2str n; Val (b, Z.of_nat (length b), ap)
    else Fault OutOfBounds
  | FmtULongLong n :: ap =>
    if Ascii.eqb next "U" then b ← sdsull2str n; Val (b, Z.of_nat (length b), ap)
    else Fault OutOfBounds
  | FmtSize n :: ap =>
    if Ascii.eqb next "T" then b ← sdsull2str n; Val (b, Z.of_nat (length b), ap)
    else Fault OutOfBounds
  | [] => Fault OutOfBounds
  end.

Definition is_conversion (c : ascii) : bool :=
  existsb (Ascii.eqb c) (lit "sSiIuUT").

(** [s[i++] = c; sh->len += 1; sh->free -= 1;] *)
Definition put_char (s : sdshdr) (i : Z) (c : ascii) : outcome (sdshdr * Z) :=
  s ← buf_set s i c;
  l ← int_arith (sds_len s + 1);
  f ← int_arith (sds_free s - 1);
  Val (set_len_free s l f, i + 1).

(** [memcpy(s+i,str,l); sh->len += l; sh->free -= l; i += l;] with the room it needs. *)
Definition put_text (s : sdshdr) (i : Z) (str : bytes) (l : Z) : outcome (sdshdr * Z) :=
  o ← (if sds_free s <? l then sdsMakeRoomFor s (u64 l) else Val (Some s));
  s ← deref o;
  data ← mem_read str 0 l;
  s ← buf_write s i data;
  l' ← int_arith (sds_len s + l);
  f ← int_arith (sds_free s - l);
  Val (set_len_free s l' f, i + l).

(** The end of [f] is the terminator of the format: a [%] there makes the loop step over it. *)
Fixpoint catfmt_loop (f : bytes) (ap : list fmt_val) (s : sdshdr) (i : Z) {struct f}
    : outcome (sdshdr * Z) :=
  match f with
  | [] => Val (s, i)
  | c :: f1 =>
    o ← (if sds_free s =? 0 then sdsMakeRoomFor s 1 else Val (Some s));
    s ← deref o;
    if Ascii.eqb c "%" then
      match f1 with
      | [] => _ ← put_char s i NUL; Fault OutOfBounds
      | next :: f2 =>
        if is_conversion next then
          '(str, l, ap) ← fmt_arg_text next ap;
          '(s, i) ← put_text s i str l;
          catfmt_loop f2 ap s i
        else
          '(s, i) ← put_char s i next;
          catfmt_loop f2 ap s i
      end
    else
      '(s, i) ← put_char s i c;
      catfmt_loop f1 ap s i
  end.

Definition sdscatfmt (s : sdshdr) (fmt : bytes) (ap : list fmt_val) : outcome sdshdr :=
  '(s, i) ← catfmt_loop (c_str fmt) ap s (i32 (sdslen s));
  buf_set s i NUL.

(** ** Trimming and ranges *)

(** [strchr(cset, c) != NULL]: the terminator is part of the string. *)
Definition strchr_b (cset : bytes) (c : ascii) : bool :=
  existsb (Ascii.eqb c) (c_str cset ++ [NUL]).

(** The loop that moves [sp] right over characters of [cset]. *)
Fixpoint trim_left (fuel : nat) (b : bytes) (cset : bytes) (sp end_ : Z) : outcome Z :=
  match fuel with
  | O => Fault OutOfFuel
  | S fuel =>
    if sp <=? end_ then
      c ← mem_read b sp 1;
      if existsb (strchr_b cset) c then trim_left fuel b cset (sp + 1) end_ else Val sp
    else Val sp
  end.

(** The loop that moves [ep] left, never below the start. *)
Fixpoint trim_right (fuel : nat) (b : bytes) (cset : bytes) (ep : Z) : outcome Z :=
  match fuel with
  | O => Fault OutOfFuel
  | S fuel =>
    if 0 <? ep then
      c ← mem_read b ep 1;
      if existsb (strchr_b cset) c then trim_right fuel b cset (ep - 1) else Val ep
    else Val ep
  end.

(** Keep [newlen] bytes from [start], as [sdstrim] and [sdsrange] do at their end. *)
Definition keep_range (s : sdshdr) (start newlen : Z) : outcome sdshdr :=
  s ← (if negb (start =? 0) && negb (newlen =? 0)
       then data ← mem_read (sds_buf s) start newlen; buf_write s 0 data else Val s);
  s ← buf_set s newlen NUL;
  Val (set_len_free s (i32 newlen) (i32 (u64 (sds_free s + (sds_len s - newlen))))).

Definition sdstrim (s : sdshdr) (cset : bytes) : outcome sdshdr :=
  let fuel := S (Z.to_nat (sdslen s)) in
  let end_ := sdslen s - 1 in
  sp ← trim_left fuel (sds_buf s) cset 0 end_;
  ep ← trim_right fuel (sds_buf s) cset end_;
  keep_range s sp (if ep <? sp then 0 else ep - sp + 1).

Definition range_len (start end_ : Z) : outcome Z :=
  if end_ <? start then Val 0
  else d ← int_arith (end_ - start); int_arith (d + 1).

Definition clip_index (len i : Z) : Z :=
  if i <? 0 then let i := i32 (u64 (len + i)) in if i <? 0 then 0 else i else i.

Definition sdsrange (s : sdshdr) (start end_ : Z) : outcome sdshdr :=
  let len := sdslen s in
  if len =? 0 then Val s
  else
    let start := clip_index len start in
    let end_ := clip_index len end_ in
    newlen ← range_len start end_;
    '(start, newlen) ←
      (if negb (newlen =? 0) then
         if i32 len <=? start then Val (start, 0)
         else if i32 len <=? end_ then n ← range_len start (i32 (len - 1)); Val (start, n)
         else Val (start, newlen)
       else Val (0, newlen));
    keep_range s start newlen.

(** ** Character-wise operations *)

(** [for (j = ...; ...; j++) s[j] = f(s[j]);], [n] turns. *)
Fixpoint map_loop (f : ascii → ascii) (s : sdshdr) (j : Z) (n : nat) : outcome sdshdr :=
  match n with
  | O => Val s
  | S n =>
    c ← mem_read (sds_buf s) j 1;
    b ← mem_write (sds_buf s) j (List.map f c);
    map_loop f (mkSds (sds_len s) (sds_free s) b) (j + 1) n
  end.

Definition sdstolower (s : sdshdr) : outcome sdshdr :=
  map_loop c_tolower s 0 (Z.to_nat (i32 (sdslen s))).
Definition sdstoupper (s : sdshdr) : outcome sdshdr :=
  map_loop c_toupper s 0 (Z.to_nat (i32 (sdslen s))).

(** The inner loop of [sdsmapchars]: the first position of [c] in [from]. *)
Fixpoint map_char (from to_ : bytes) (setlen : nat) (c : ascii) : ascii :=
  match setlen, from, to_ with
  | S n, f :: from, t :: to_ => if Ascii.eqb c f then t else map_char from to_ n c
  | _, _, _ => c
  end.

Definition sdsmapchars (s : sdshdr) (from to_ : bytes) (setlen : nat) : outcome sdshdr :=
  if (setlen <=? length from)%nat && (setlen <=? length to_)%nat
  then map_loop (map_char from to_ setlen) s 0 (Z.to_nat (sdslen s))
  else Fault OutOfBounds.

(** [memcmp]: only the sign of the result is defined. *)
Fixpoint memcmp (a b : bytes) : Z :=
  match a, b with
  | x :: a, y :: b => if byte_val x =? byte_val y then memcmp a b
                      else if byte_val x <? byte_val y then -1 else 1
  | _, _ => 0
  end.

Definition sdscmp (s1 s2 : sdshdr) : outcome Z :=
  let l1 := sdslen s1 in
  let l2 := sdslen s2 in
  let minlen := if l1 <? l2 then l1 else l2 in
  a ← mem_read (sds_buf s1) 0 minlen;
  b ← mem_read (sds_buf s2) 0 minlen;
  Val (if memcmp a b =? 0 then i32 (u64 (l1 - l2)) else memcmp a b).

(** ** Splitting and joining *)

(** The array of tokens has [slots] entries; only its size and what is stored in it matter. *)
Definition push_token (tokens : list sdshdr) (slots : Z) (t : sdshdr) : outcome (list sdshdr) :=
  if Z.of_nat (length tokens) <? slots then Val (tokens ++ [t]) else Fault OutOfBounds.

Fixpoint splitlen_loop (fuel : nat) (s : bytes) (len : Z) (sep : bytes) (seplen : Z)
    (tokens : list sdshdr) (slots start j : Z) : outcome (option (list sdshdr * Z * Z)) :=
  match fuel with
  | O => Fault OutOfFuel
  | S fuel =>
    if j <? len - (seplen - 1) then
      let elements := Z.of_nat (length tokens) in
      let grow := slots <? elements + 2 in
      let slots := if grow then slots * 2 else slots in
      if grow && negb (bool_decide (is_Some (malloc (8 * slots)))) then Val None
      else
        here ← mem_read s j seplen;
        pat ← mem_read sep 0 seplen;
        if bool_decide (here = pat) then
          tok ← sdsnewlen (Some (drop (Z.to_nat start) s)) (j - start);
          match tok with
          | None => Val None
          | Some t =>
            tokens ← push_token tokens slots t;
            splitlen_loop fuel s len sep seplen tokens slots (j + seplen) (j + seplen - 1 + 1)
          end
        else splitlen_loop fuel s len sep seplen tokens slots start (j + 1)
    else Val (Some (tokens, slots, start))
  end.

(** The tokens; their number is the count returned by reference.  [None] is the null pointer. *)
Definition sdssplitlen (s : bytes) (len : Z) (sep : bytes) (seplen : Z)
    : outcome (option (list sdshdr)) :=
  if (seplen <? 1) || (len <? 0) then Val None
  else
    match malloc (8 * 5) with
    | None => Val None
    | Some _ =>
      if len =? 0 then Val (Some [])
      else
        o ← splitlen_loop (S (Z.to_nat len)) s len sep seplen [] 5 0 0;
        match o with
        | None => Val None
        | Some (tokens, slots, start) =>
          tok ← sdsnewlen (Some (drop (Z.to_nat start) s)) (len - start);
          match tok with
          | None => Val None
          | Some t => tokens ← push_token tokens slots t; Val (Some tokens)
          end
        end
    end.

(** The loop of both: [cat] appends an element. *)
Fixpoint join_loop {A} (cat : sdshdr → A → outcome (option sdshdr)) (sep : bytes) (seplen : Z)
    (join : option sdshdr) (argv : list A) : outcome (option sdshdr) :=
  match argv with
  | [] => Val join
  | a :: argv =>
    join ← deref join;
    join ← cat join a;
    join ← (match argv with
            | [] => Val join
            | _ => join ← deref join; sdscatlen join sep seplen
            end);
    join_loop cat sep seplen join argv
  end.

Definition sdsjoin (argv : list bytes) (sep : bytes) (seplen : Z) : outcome (option sdshdr) :=
  join ← sdsempty;
  join_loop sdscat sep seplen join argv.

Definition sdsjoinsds (argv : list sdshdr) (sep : bytes) (seplen : Z) : outcome (option sdshdr) :=
  join ← sdsempty;
  join_loop sdscatsds sep seplen join argv.

(** ** The escaped representation *)

(** The body of the [switch], for the character [c]. *)
Definition catrepr_char (s : sdshdr) (c : ascii) : outcome (option sdshdr) :=
  if Ascii.eqb c chr_bslash || Ascii.eqb c chr_dq then sdscatprintf s [chr_bslash; c]
  else if Ascii.eqb c chr_nl then sdscatlen s (lit "\n") 2
  else if Ascii.eqb c chr_cr then sdscatlen s (lit "\r") 2
  else if Ascii.eqb c chr_tab then sdscatlen s (lit "\t") 2
  else if Ascii.eqb c chr_bel then sdscatlen s (lit "\a") 2
  else if Ascii.eqb c chr_bs then sdscatlen s (lit "\b") 2
  else if c_isprint c then sdscatprintf s [c]
  else sdscatprintf s
         (lit "\x" ++ [hex_digit_of (byte_val c / 16); hex_digit_of (byte_val c mod 16)]).

Fixpoint catrepr_loop (s : option sdshdr) (p : bytes) : outcome (option sdshdr) :=
  match p with
  | [] => Val s
  | c :: p => s ← deref s; s ← catrepr_char s c; catrepr_loop s p
  end.

Definition sdscatrepr (s : sdshdr) (p : bytes) (len : Z) : outcome (option sdshdr) :=
  s ← sdscatlen s [chr_dq] 1;
  p ← mem_read p 0 len;
  s ← catrepr_loop s p;
  s ← deref s;
  sdscatlen s [chr_dq] 1.
End Sds.

(** * Well-formed strings *)

(** A string that holds [text] with the bytes [junk] free behind its terminator. *)
Definition mk (text junk : bytes) : sdshdr :=
  mkSds (Z.of_nat (length text)) (Z.of_nat (length junk)) (text ++ NUL :: junk).

(** The invariant: the header counts the buffer, which has a terminator after the text, and the
    capacity is an [int]. *)
Definition sds_ok (s : sdshdr) : Prop :=
  0 <= sds_len s ∧ 0 <= sds_free s ∧ sds_len s + sds_free s <= INT_MAX ∧
  Z.of_nat (length (sds_buf s)) = sds_len s + sds_free s + 1 ∧
  sds_buf s !! Z.to_nat (sds_len s) = Some NUL.

Definition contents (s : sdshdr) : bytes := take (Z.to_nat (sds_len s)) (sds_buf s).

(** What an operation that returns a string may do: fail when an allocation fails, or give a
    well-formed string with the text. *)
Definition yields `{Alloc} (o : outcome (option sdshdr)) (text : bytes) : Prop :=
  (o = Val None ∧ out_of_memory) ∨ ∃ s, o = Val (Some s) ∧ sds_ok s ∧ contents s = text.

Lemma sds_ok_mk t j :
  Z.of_nat (length t) + Z.of_nat (length j) <= INT_MAX → sds_ok (mk t j).
Proof.
  intros Hl. unfold sds_ok, mk. simpl. rewrite Nat2Z.id, length_app. simpl.
  rewrite lookup_app_r by lia. rewrite Nat.sub_diag. simpl. repeat split; try lia.
Qed.

Lemma contents_mk t j : contents (mk t j) = t.
Proof. unfold contents, mk. simpl. by rewrite Nat2Z.id, take_app_length. Qed.

Lemma sds_ok_inv s :
  sds_ok s → ∃ t j, s = mk t j ∧ contents s = t ∧
                    Z.of_nat (length t) + Z.of_nat (length j) <= INT_MAX.
Proof.
  destruct s as [l f b]. intros (Hl & Hf & Hm & Hb & Hn). simpl in *.
  exists (take (Z.to_nat l) b), (drop (S (Z.to_nat l)) b). unfold contents, mk. simpl.
  rewrite length_take, length_drop. rewrite Nat.min_l by lia. split; [|split; [done|lia]].
  f_equal; [lia|lia|]. rewrite <- (take_drop_middle b (Z.to_nat l) NUL) at 1 by done. done.
Qed.

(** ** Checked memory *)

Lemma mem_read_app a b c i n :
  i = Z.of_nat (length a) → n = Z.of_nat (length b) → mem_read (a ++ b ++ c) i n = Val b.
Proof.
  intros -> ->. unfold mem_read. rewrite !length_app.
  destruct (Z.leb_spec 0 (Z.of_nat (length a))); [|lia].
  destruct (Z.leb_spec 0 (Z.of_nat (length b))); [|lia]. simpl.
  destruct (Z.leb_spec (Z.of_nat (length a) + Z.of_nat (length b))
              (Z.of_nat (length a + (length b + length c)))); [|lia].
  by rewrite !Nat2Z.id, drop_app_length, take_app_length.
Qed.

Lemma mem_read_prefix b c n : n = Z.of_nat (length b) → mem_read (b ++ c) 0 n = Val b.
Proof. intros ->. by apply (mem_read_app [] b c). Qed.

Lemma mem_write_app a b c d i :
  i = Z.of_nat (length a) → length d = length b → mem_write (a ++ b ++ c) i d = Val (a ++ d ++ c).
Proof.
  intros -> Hd. unfold mem_write. rewrite !length_app.
  destruct (Z.leb_spec 0 (Z.of_nat (length a))); [|lia]. simpl.
  destruct (Z.leb_spec (Z.of_nat (length a) + Z.of_nat (length d))
              (Z.of_nat (length a + (length b + length c)))); [|lia].
  rewrite !Nat2Z.id, take_app_length, Hd. f_equal. f_equal. f_equal.
  rewrite <- drop_drop, drop_app_length. apply drop_app_length.
Qed.

Lemma buf_set_at a x c i l f ch :
  i = Z.of_nat (length a) →
  buf_set (mkSds l f (a ++ x :: c)) i ch = Val (mkSds l f (a ++ ch :: c)).
Proof. intros Hi. unfold buf_set. simpl. by rewrite (mem_write_app a [x] c [ch]). Qed.

(** A block split at a position within it. *)
Lemma split_at (b : bytes) n : (n <= length b)%nat → ∃ x y, b = x ++ y ∧ length x = n.
Proof.
  intros Hn. exists (take n b), (drop n b). rewrite take_drop, length_take. split; [done|lia].
Qed.

Lemma int_arith_ok z : INT_MIN <= z <= INT_MAX → int_arith z = Val z.
Proof.
  intros Hz. unfold int_arith. destruct (Z.leb_spec INT_MIN z); [|lia].
  destruct (Z.leb_spec z INT_MAX); [done|lia].
Qed.

Lemma u64_nonneg z : 0 <= z <= INT_MAX → u64 z = z.
Proof. unfold INT_MAX. intros. apply u64_small. lia. Qed.

Section Specs.
Context `{AllocLaws}.

Lemma alloc_hdr_size n b :
  alloc_hdr n = Some b → 0 <= n <= 2 ^ 40 → Z.of_nat (length b) = n + 1.
Proof.
  unfold alloc_hdr, sizeof_sdshdr. intros Ha Hn. destruct (malloc _) as [blk|] eqn:Hm; [|done].
  simplify_eq/=. apply malloc_size in Hm. rewrite u64_small in Hm by lia.
  rewrite length_drop. lia.
Qed.

Lemma alloc_hdr_none n : alloc_hdr n = None → out_of_memory.
Proof.
  unfold alloc_hdr. destruct (malloc _) eqn:Hm; [done|]. intros _. eexists. split; [|exact Hm].
  unfold u64. apply Z.mod_pos_bound. lia.
Qed.

Lemma yields_mk t j :
  Z.of_nat (length t) + Z.of_nat (length j) <= INT_MAX → yields (Val (Some (mk t j))) t.
Proof.
  intros Hl. right. exists (mk t j). split; [done|]. split; [by apply sds_ok_mk|apply contents_mk].
Qed.

Lemma sdslen_mk t j : Z.of_nat (length t) <= INT_MAX → sdslen (mk t j) = Z.of_nat (length t).
Proof. intros. unfold sdslen. simpl. apply u64_nonneg. lia. Qed.

Lemma sdsnewlen_spec t u :
  Z.of_nat (length t) <= INT_MAX → yields (sdsnewlen (Some (t ++ u)) (Z.of_nat (length t))) t.
Proof.
  intros Hl. unfold sdsnewlen. destruct (alloc_hdr _) as [b|] eqn:Ha.
  - apply alloc_hdr_size in Ha; [|unfold INT_MAX in *; lia].
    destruct (split_at b (length t)) as (x & y & -> & Hx); [lia|].
    rewrite length_app in Ha. destruct y as [|c [|? ?]]; simpl in Ha; try lia.
    assert (∀ l f, (buf_set (mkSds l f (t ++ [c])) (Z.of_nat (length t)) NUL) =
                   Val (mkSds l f (t ++ [NUL]))) as Hset
      by (intros; by rewrite buf_set_at).
    assert (Hfin : yields (Val (Some (mkSds (i32 (Z.of_nat (length t))) 0 (t ++ [NUL])))) t).
    { rewrite i32_small by (unfold INT_MIN, INT_MAX in *; lia).
      apply (yields_mk t []). simpl. lia. }
    destruct (Z.eqb_spec (Z.of_nat (length t)) 0) as [E|E].
    + destruct t; [|simpl in E; lia]. destruct x; [|simpl in Hx; lia].
      cbn [mbind outcome_bind]. rewrite Hset. done.
    + rewrite mem_read_prefix by done. cbn [mbind outcome_bind].
      unfold buf_write. cbn [sds_buf]. rewrite (mem_write_app [] x [c] t) by (simpl; lia).
      cbn [mbind outcome_bind app]. cbn [sds_len sds_free]. rewrite Hset. done.
  - left. split; [done|]. by eapply alloc_hdr_none.
Qed.

Lemma sdsempty_spec : yields sdsempty [].
Proof. apply (sdsnewlen_spec [] []). simpl. unfold INT_MAX. lia. Qed.

(** [sdsMakeRoomFor] extends the buffer and has the room it was asked for. *)
Lemma sdsMakeRoomFor_spec s addlen :
  0 <= sds_len s → 0 <= sds_free s → sds_len s + sds_free s <= INT_MAX →
  Z.of_nat (length (sds_buf s)) = sds_len s + sds_free s + 1 → 0 <= addlen →
  sds_len s + addlen + SDS_MAX_PREALLOC <= INT_MAX →
  (sdsMakeRoomFor s addlen = Val None ∧ out_of_memory) ∨
  ∃ e, sdsMakeRoomFor s addlen =
         Val (Some (mkSds (sds_len s) (sds_free s + Z.of_nat (length e)) (sds_buf s ++ e))) ∧
       addlen <= sds_free s + Z.of_nat (length e) ∧
       sds_len s + sds_free s + Z.of_nat (length e) <= INT_MAX.
Proof.
  intros Hl0 Hf0 Hl Hb Ha Hmax. unfold sdsMakeRoomFor, sdsavail, sdslen.
  rewrite (u64_nonneg (sds_free s)), (u64_nonneg (sds_len s)) by lia.
  destruct (Z.leb_spec addlen (sds_free s)) as [|Hlt].
  { right. exists []. rewrite app_nil_r, Z.add_0_r. destruct s. split; [done|]. simpl in *. lia. }
  set (n := if _ <? SDS_MAX_PREALLOC then _ else _).
  assert (Hn : sds_len s + addlen <= n <= INT_MAX).
  { unfold n, SDS_MAX_PREALLOC, INT_MAX in *.
    rewrite !(u64_small (sds_len s + addlen)) by lia.
    destruct (Z.ltb_spec (sds_len s + addlen) (1024 * 1024));
      rewrite u64_small by lia; lia. }
  unfold realloc_hdr. destruct (alloc_hdr n) as [b|] eqn:Hal; simpl.
  - right. apply alloc_hdr_size in Hal; [|unfold INT_MAX in *; lia].
    exists (drop (length (sds_buf s)) b). rewrite length_drop.
    rewrite u64_nonneg by lia. rewrite i32_small by (unfold INT_MIN, INT_MAX in *; lia).
    rewrite take_ge by lia. split; [|lia]. do 3 f_equal. lia.
  - left. split; [done|]. by eapply alloc_hdr_none.
Qed.

Lemma sdsMakeRoomFor_mk t j addlen :
  Z.of_nat (length t) + Z.of_nat (length j) <= INT_MAX → 0 <= addlen →
  Z.of_nat (length t) + addlen + SDS_MAX_PREALLOC <= INT_MAX →
  (sdsMakeRoomFor (mk t j) addlen = Val None ∧ out_of_memory) ∨
  ∃ j', sdsMakeRoomFor (mk t j) addlen = Val (Some (mk t j')) ∧
        addlen <= Z.of_nat (length j') ∧ Z.of_nat (length t) + Z.of_nat (length j') <= INT_MAX.
Proof.
  intros Hl Ha Hmax.
  destruct (sdsMakeRoomFor_spec (mk t j) addlen) as [?|(e & -> & Hr & Hm)];
    cbn [mk sds_len sds_free sds_buf] in *; try lia; [rewrite length_app; simpl; lia|by left|].
  right. exists (j ++ e). rewrite length_app. split; [|lia]. unfold mk.
  rewrite <- app_assoc, length_app. cbn [app]. do 3 f_equal. lia.
Qed.

(** The string [sdscatlen] leaves. *)
Lemma sdscatlen_mk t j d u :
  Z.of_nat (length t) + Z.of_nat (length j) <= INT_MAX →
  Z.of_nat (length t) + Z.of_nat (length d) + SDS_MAX_PREALLOC <= INT_MAX →
  (sdscatlen (mk t j) (d ++ u) (Z.of_nat (length d)) = Val None ∧ out_of_memory) ∨
  ∃ j', sdscatlen (mk t j) (d ++ u) (Z.of_nat (length d)) = Val (Some (mk (t ++ d) j')) ∧
        Z.of_nat (length (t ++ d)) + Z.of_nat (length j') <= INT_MAX.
Proof.
  intros Hl Hmax. unfold sdscatlen. rewrite sdslen_mk by lia.
  destruct (sdsMakeRoomFor_mk t j (Z.of_nat (length d))) as [[-> Hf]|(j' & -> & Hr & Hj)];
    [lia|lia|lia|by left|]. right.
  destruct (split_at (NUL :: j') (length d)) as (x & y & Exy & Hx); [simpl; lia|].
  assert (S (length j') = (length x + length y)%nat) as Hj'
    by (apply (f_equal length) in Exy; rewrite length_app in Exy; simpl in Exy; lia).
  destruct y as [|c y]; [simpl in Hj'; lia|]. exists y.
  cbn [mbind outcome_bind]. rewrite mem_read_prefix by done. cbn [mbind outcome_bind].
  unfold buf_write, mk. cbn [sds_buf sds_len sds_free]. rewrite Exy.
  rewrite mem_write_app by done. cbn [mbind outcome_bind set_len_free sds_buf sds_free].
  unfold INT_MAX, SDS_MAX_PREALLOC in *. rewrite !length_app in *. cbn [length] in *.
  rewrite !u64_small by lia. rewrite !i32_small by (unfold INT_MIN, INT_MAX; lia).
  rewrite app_assoc. unfold set_len_free. cbn [sds_buf]. rewrite buf_set_at by (rewrite length_app; lia).
  cbn [mbind outcome_bind]. split; [|lia]. do 3 f_equal; lia.
Qed.

Lemma sdscatlen_spec s t d u :
  sds_ok s → contents s = t →
  Z.of_nat (length t) + Z.of_nat (length d) + SDS_MAX_PREALLOC <= INT_MAX →
  yields (sdscatlen s (d ++ u) (Z.of_nat (length d))) (t ++ d).
Proof.
  intros Hs Ht Hmax. destruct (sds_ok_inv s Hs) as (t' & j & -> & Hc & Hl).
  rewrite Hc in Ht. subst t'.
  destruct (sdscatlen_mk t j d u Hl Hmax) as [?|(j' & -> & Hj)]; [by left|by apply yields_mk].
Qed.

Lemma c_str_split t : ∃ u, t = c_str t ++ u.
Proof.
  induction t as [|c t [u IH]]; simpl; [by exists []|]. destruct (Ascii.eqb c NUL).
  - by eexists.
  - exists u. simpl. by rewrite <- IH.
Qed.

Lemma sdscat_spec s t d :
  sds_ok s → contents s = t →
  Z.of_nat (length t) + Z.of_nat (length d) + SDS_MAX_PREALLOC <= INT_MAX →
  yields (sdscat s d) (t ++ c_str d).
Proof.
  intros Hs Ht Hmax. unfold sdscat, strlen. destruct (c_str_split d) as [u Hu].
  rewrite Hu at 1. pose proof (c_str_length d). apply sdscatlen_spec; [done|done|lia].
Qed.

Lemma sdscatsds_spec s s' t d :
  sds_ok s → contents s = t → sds_ok s' → contents s' = d →
  Z.of_nat (length t) + Z.of_nat (length d) + SDS_MAX_PREALLOC <= INT_MAX →
  yields (sdscatsds s s') (t ++ d).
Proof.
  intros Hs Ht Hs' Hd Hmax. destruct (sds_ok_inv s' Hs') as (d' & j & -> & Hc & Hl).
  rewrite Hc in Hd. subst d'. unfold sdscatsds. rewrite sdslen_mk by lia.
  by apply sdscatlen_spec.
Qed.

Lemma sdscpylen_spec s d u :
  sds_ok s → sds_len s + Z.of_nat (length d) + SDS_MAX_PREALLOC <= INT_MAX →
  yields (sdscpylen s (d ++ u) (Z.of_nat (length d))) d.
Proof.
  intros Hs Hmax. destruct (sds_ok_inv s Hs) as (t & j & -> & _ & Hl).
  cbn [mk sds_len] in Hmax. unfold sdscpylen. cbn [mk sds_len sds_free].
  assert (0 <= SDS_MAX_PREALLOC) by (unfold SDS_MAX_PREALLOC; lia).
  rewrite int_arith_ok by (unfold INT_MIN; lia). cbn [mbind outcome_bind].
  rewrite u64_nonneg by lia.
  assert (Hroom : ∀ j', Z.of_nat (length d) <= Z.of_nat (length t) + Z.of_nat (length j') →
    Z.of_nat (length t) + Z.of_nat (length j') <= INT_MAX →
    yields (totlen ← int_arith (sds_free (mk t j') + sds_len (mk t j'));
            data ← mem_read (d ++ u) 0 (Z.of_nat (length d));
            s ← buf_write (mk t j') 0 data;
            s ← buf_set s (Z.of_nat (length d)) NUL;
            Val (Some (set_len_free s (i32 (Z.of_nat (length d)))
                         (i32 (u64 (totlen - Z.of_nat (length d))))))) d).
  { intros j' Hd Hj. cbn [mk sds_len sds_free].
    rewrite int_arith_ok by (unfold INT_MIN; lia). cbn [mbind outcome_bind].
    rewrite mem_read_prefix by done. cbn [mbind outcome_bind]. unfold buf_write, mk.
    cbn [sds_buf sds_len sds_free].
    destruct (split_at (t ++ NUL :: j') (length d)) as (x & y & E & Hx);
      [rewrite length_app; simpl; lia|].
    pose proof (f_equal length E) as El. rewrite !length_app in El. simpl in El.
    destruct y as [|c y]; [simpl in El; lia|]. rewrite E.
    rewrite (mem_write_app [] x (c :: y) d) by done. cbn [mbind outcome_bind app].
    rewrite buf_set_at by done. cbn [mbind outcome_bind]. unfold set_len_free. cbn [sds_buf].
    rewrite u64_nonneg by lia. rewrite !i32_small by (unfold INT_MIN; lia).
    replace (Z.of_nat (length j') + Z.of_nat (length t) - Z.of_nat (length d))
      with (Z.of_nat (length y)) by (simpl in El; lia).
    apply (yields_mk d y). simpl in El. lia. }
  destruct (Z.ltb_spec (Z.of_nat (length j) + Z.of_nat (length t)) (Z.of_nat (length d))).
  - rewrite u64_nonneg by lia.
    destruct (sdsMakeRoomFor_mk t j (Z.of_nat (length d) - Z.of_nat (length t)))
      as [[-> ?]|(j' & -> & ? & ?)]; [lia|lia|lia|by left|].
    cbn [mbind outcome_bind]. apply Hroom; lia.
  - cbn [mbind outcome_bind]. apply Hroom; lia.
Qed.

Lemma sdsclear_spec s :
  sds_ok s → ∃ s', sdsclear s = Val s' ∧ sds_ok s' ∧ contents s' = [].
Proof.
  intros Hs. destruct (sds_ok_inv s Hs) as (t & j & -> & _ & Hl). unfold sdsclear.
  cbn [mk sds_len sds_free]. rewrite int_arith_ok by (unfold INT_MIN; lia).
  cbn [mbind outcome_bind]. unfold set_len_free, mk. cbn [sds_buf].
  assert (∃ c b, t ++ NUL :: j = c :: b ∧ length b = (length t + length j)%nat)
    as (c & b & -> & Hb).
  { destruct t as [|c t]; simpl; [by exists NUL, j|]. exists c, (t ++ NUL :: j).
    split; [done|]. rewrite length_app. simpl. lia. }
  rewrite (buf_set_at [] c b) by done. exists (mk [] b). split; [|split].
  - unfold mk. simpl. do 2 f_equal. lia.
  - apply sds_ok_mk. simpl. lia.
  - apply contents_mk.
Qed.

(** After [d] has been written behind the text, in the free space. *)
Lemma sdsIncrLen_spec t d x j :
  Z.of_nat (length (t ++ d)) + Z.of_nat (length j) <= INT_MAX →
  sdsIncrLen (mkSds (Z.of_nat (length t)) (Z.of_nat (length (d ++ j))) (t ++ d ++ x :: j))
    (Z.of_nat (length d)) = Val (mk (t ++ d) j).
Proof.
  intros Hl. unfold sdsIncrLen. cbn [sds_len sds_free]. rewrite !length_app in *.
  destruct (Z.leb_spec (Z.of_nat (length d)) (Z.of_nat (length d + length j))); [|lia].
  cbn [negb]. rewrite !int_arith_ok by (unfold INT_MIN, INT_MAX in *; lia).
  cbn [mbind outcome_bind].
  destruct (Z.leb_spec 0 (Z.of_nat (length d + length j) - Z.of_nat (length d))); [|lia].
  cbn [negb]. unfold set_len_free. cbn [sds_buf]. rewrite app_assoc.
  rewrite buf_set_at by (rewrite length_app; lia). unfold mk. f_equal. rewrite length_app.
  f_equal; lia.
Qed.

(** Keeping bytes [start, start + newlen) of the text. *)
Lemma keep_range_spec a b c j start newlen :
  start = Z.of_nat (length a) → newlen = Z.of_nat (length b) ∨ (newlen = 0 ∧ b = []) →
  Z.of_nat (length (a ++ b ++ c)) + Z.of_nat (length j) <= INT_MAX →
  ∃ j', keep_range (mk (a ++ b ++ c) j) start newlen = Val (mk b j') ∧
        Z.of_nat (length b) + Z.of_nat (length j') <= INT_MAX.
Proof.
  intros -> Hn Hl. assert (newlen = Z.of_nat (length b)) as -> by (destruct Hn as [->|[-> ->]]; done).
  clear Hn. unfold keep_range. cbn [mk sds_buf sds_len sds_free].
  assert (Hw : ∃ x y, (if negb (Z.of_nat (length a) =? 0) && negb (Z.of_nat (length b) =? 0)
            then data ← mem_read (sds_buf (mk (a ++ b ++ c) j)) (Z.of_nat (length a))
                          (Z.of_nat (length b)); buf_write (mk (a ++ b ++ c) j) 0 data
            else Val (mk (a ++ b ++ c) j)) =
          Val (mkSds (Z.of_nat (length (a ++ b ++ c))) (Z.of_nat (length j)) (b ++ x :: y)) ∧
          length y = (length a + length c + length j)%nat).
  { rewrite !length_app in Hl.
    destruct (Z.eqb_spec (Z.of_nat (length a)) 0) as [Ea|Ea]; cbn [negb andb].
    { destruct a; [|simpl in Ea; lia]. unfold mk. cbn [app length].
      rewrite <- app_assoc. destruct c as [|x c]; simpl.
      - eexists _, _. split; [done|lia].
      - eexists _, _. split; [done|]. rewrite length_app. simpl. lia. }
    destruct (Z.eqb_spec (Z.of_nat (length b)) 0) as [Eb|Eb]; cbn [negb].
    { destruct b; [|simpl in Eb; lia]. unfold mk. cbn [app].
      destruct a as [|x a]; [done|]. eexists _, _. split; [done|].
      rewrite !length_app. simpl. lia. }
    unfold mk. cbn [sds_buf]. rewrite <- !app_assoc. rewrite mem_read_app by done.
    cbn [mbind outcome_bind]. unfold buf_write. cbn [sds_buf sds_len sds_free].
    destruct (split_at (a ++ b ++ c ++ NUL :: j) (length b)) as (p & q & E & Hp);
      [rewrite !length_app; lia|].
    pose proof (f_equal length E) as El. rewrite !length_app in El. simpl in El.
    destruct q as [|x y]; [simpl in El; lia|]. rewrite E.
    rewrite (mem_write_app [] p (x :: y) b) by done. cbn [mbind outcome_bind app].
    eexists _, _. split; [done|]. simpl in El. lia. }
  destruct Hw as (x & y & Hw & Hy). unfold mk in Hw. cbn [sds_buf] in Hw. unfold mk.
  rewrite Hw. cbn [mbind outcome_bind]. rewrite buf_set_at by done.
  cbn [mbind outcome_bind sds_len sds_free]. unfold set_len_free. cbn [sds_buf].
  rewrite !length_app in Hl |- *.
  rewrite u64_nonneg by lia. rewrite !i32_small by (unfold INT_MIN, INT_MAX in *; lia).
  exists y. split; [|lia]. do 2 f_equal. lia.
Qed.

(** The part [sdsrange] keeps. *)
Definition range_of (t : bytes) (start end_ : Z) : bytes :=
  let n := Z.of_nat (length t) in
  let start := if start <? 0 then Z.max 0 (n + start) else start in
  let end_ := if end_ <? 0 then Z.max 0 (n + end_) else end_ in
  let end_ := Z.min end_ (n - 1) in
  take (Z.to_nat (end_ - start + 1)) (drop (Z.to_nat start) t).

Lemma clip_index_spec n i :
  0 <= n <= INT_MAX → INT_MIN <= i <= INT_MAX →
  clip_index n i = if i <? 0 then Z.max 0 (n + i) else i.
Proof.
  intros Hn Hi. unfold clip_index. destruct (Z.ltb_spec i 0); [|done].
  rewrite i32_u64 by (unfold INT_MIN, INT_MAX in *; lia).
  destruct (Z.ltb_spec (n + i) 0); lia.
Qed.

Lemma range_len_ok a b :
  0 <= a <= INT_MAX → 0 <= b < INT_MAX → range_len a b = Val (Z.max 0 (b - a + 1)).
Proof.
  intros Ha Hb. unfold range_len, INT_MIN, INT_MAX in *. destruct (Z.ltb_spec b a); [f_equal; lia|].
  rewrite int_arith_ok by (unfold INT_MIN, INT_MAX; lia). cbn [mbind outcome_bind].
  rewrite int_arith_ok by (unfold INT_MIN, INT_MAX; lia). f_equal. lia.
Qed.

Lemma sdsrange_spec s t start end_ :
  sds_ok s → contents s = t → INT_MIN <= start <= INT_MAX → INT_MIN <= end_ < INT_MAX →
  ∃ s', sdsrange s start end_ = Val s' ∧ sds_ok s' ∧ contents s' = range_of t start end_.
Proof.
  intros Hs Ht Hst Hen. destruct (sds_ok_inv s Hs) as (t' & j & -> & Hc & Hl).
  rewrite Hc in Ht. subst t'. unfold sdsrange. rewrite sdslen_mk by lia.
  destruct (Z.eqb_spec (Z.of_nat (length t)) 0) as [E|E].
  { destruct t; [|simpl in E; lia]. exists (mk [] j). split; [done|]. split; [done|].
    rewrite contents_mk. unfold range_of. by rewrite drop_nil, take_nil. }
  rewrite !clip_index_spec by lia. unfold range_of.
  set (st := if start <? 0 then _ else _). set (en := if end_ <? 0 then _ else _).
  assert (Hst' : 0 <= st <= INT_MAX) by (unfold st; destruct (Z.ltb_spec start 0); lia).
  assert (Hen' : 0 <= en < INT_MAX)
    by (unfold en; destruct (Z.ltb_spec end_ 0); unfold INT_MAX, INT_MIN in *; lia).
  rewrite (range_len_ok st en Hst' Hen'). cbn [mbind outcome_bind].
  rewrite !i32_small by (unfold INT_MIN; lia). clearbody st en.
  assert (Hkeep : ∀ b, b = take (Z.to_nat (Z.min en (Z.of_nat (length t) - 1) - st + 1))
                           (drop (Z.to_nat st) t) →
    ∀ st', (b = [] ∧ 0 <= st' <= Z.of_nat (length t)) ∨ (st' = st ∧ st < Z.of_nat (length t)) →
    ∃ s', keep_range (mk t j) st' (Z.of_nat (length b)) = Val s' ∧ sds_ok s' ∧ contents s' = b).
  { intros b Hb st' Hcase.
    assert (∃ a c, t = a ++ b ++ c ∧ st' = Z.of_nat (length a)) as (a & c & Hac & Ha).
    { destruct Hcase as [[-> Hr]|[-> Hr]].
      - exists (take (Z.to_nat st') t), (drop (Z.to_nat st') t). simpl. rewrite take_drop.
        rewrite length_take. split; [done|lia].
      - subst b. eexists (take (Z.to_nat st) t), _. rewrite length_take.
        split; [|lia]. rewrite <- (take_drop (Z.to_nat st) t) at 1. f_equal.
        symmetry. apply take_drop. }
    rewrite Hac in Hl |- *. destruct (keep_range_spec a b c j st' (Z.of_nat (length b)) Ha)
      as (j' & -> & Hj'); [by left|done|].
    exists (mk b j'). split; [done|]. split; [by apply sds_ok_mk|apply contents_mk]. }
  set (b := take _ _) in *. specialize (Hkeep b eq_refl).
  assert (Hb : Z.of_nat (length b) = Z.max 0 (Z.min en (Z.of_nat (length t) - 1) - st + 1)).
  { unfold b. rewrite length_take, length_drop. lia. }
  assert (Hnil : Z.of_nat (length b) = 0 → b = []) by (destruct b; simpl; [done|lia]).
  destruct (Z.eqb_spec (Z.max 0 (en - st + 1)) 0); cbn [negb].
  - cbn [mbind outcome_bind].
    replace (Z.max 0 (en - st + 1)) with (Z.of_nat (length b)) by lia.
    apply Hkeep. left. split; [apply Hnil|]; lia.
  - destruct (Z.leb_spec (Z.of_nat (length t)) st); cbn [mbind outcome_bind].
    + assert (b = []) as Eb by (apply Hnil; lia).
      change 0 with (Z.of_nat (@length ascii [])). rewrite <- Eb.
      assert (Hk2 : ∃ s', keep_range (mk t j) (Z.of_nat (length t)) (Z.of_nat (length b)) = Val s'
                          ∧ sds_ok s' ∧ contents s' = b) by (apply Hkeep; left; split; [done|lia]).
      rewrite Eb in Hk2 |- *. unfold keep_range in *. cbn [length Z.of_nat Z.eqb negb] in *.
      rewrite andb_false_r in *. done.
    + destruct (Z.leb_spec (Z.of_nat (length t)) en).
      * rewrite range_len_ok by lia. cbn [mbind outcome_bind].
        replace (Z.max 0 (Z.of_nat (length t) - 1 - st + 1)) with (Z.of_nat (length b)) by lia.
        apply Hkeep. by right.
      * cbn [mbind outcome_bind].
        replace (Z.max 0 (en - st + 1)) with (Z.of_nat (length b)) by lia.
        apply Hkeep. by right.
Qed.
End Specs.
