(* ===== verification/SdsProps.v ===== *)
(** What the operations of file [Sds] compute, beyond the specifications of its basic ones. *)
From Stdlib Require Import Ascii String ZArith Lia.
From stdpp Require Import base list.
From S2P Require Import Prelude Common SdsArgs Sds.
Local Open Scope Z_scope.

(** * Trimming *)

Section Trim.
Variable cset : bytes.
Local Abbreviation inset := (strchr_b cset).

Lemma mem_read_1 a c b i : i = Z.of_nat (length a) → mem_read (a ++ c :: b) i 1 = Val [c].
Proof. intros ->. by apply (mem_read_app a [c] b). Qed.

Lemma mem_read_in b i :
  0 <= i < Z.of_nat (length b) → ∃ c, mem_read b i 1 = Val [c] ∧ b !! Z.to_nat i = Some c.
Proof.
  intros Hi. destruct (lookup_lt_is_Some_2 b (Z.to_nat i)) as [c Hc]; [lia|].
  exists c. split; [|done]. rewrite <- (take_drop_middle b _ c Hc).
  apply mem_read_1. rewrite length_take. lia.
Qed.

Lemma trim_left_spec fuel a t rest :
  (length t < fuel)%nat →
  ∃ x y, t = x ++ y ∧ forallb inset x = true ∧ (∀ c y', y = c :: y' → inset c = false) ∧
    trim_left fuel (a ++ t ++ rest) cset (Z.of_nat (length a))
      (Z.of_nat (length a) + Z.of_nat (length t) - 1) =
    Val (Z.of_nat (length a) + Z.of_nat (length x)).
Proof.
  revert a t. induction fuel as [|fuel IH]; intros a t Hf; [lia|]. simpl.
  destruct t as [|c t].
  - exists [], []. split; [done|]. split; [done|]. split; [done|]. simpl.
    destruct (Z.leb_spec (Z.of_nat (length a)) (Z.of_nat (length a) + Z.of_nat 0 - 1)); [lia|].
    f_equal; lia.
  - destruct (Z.leb_spec (Z.of_nat (length a))
      (Z.of_nat (length a) + Z.of_nat (length (c :: t)) - 1)); [|simpl in *; lia].
    cbn [app]. rewrite mem_read_1 by done. cbn [mbind outcome_bind existsb]. rewrite orb_false_r.
    destruct (inset c) eqn:Hc.
    + destruct (IH (a ++ [c]) t) as (x & y & -> & Hx & Hy & He); [simpl in Hf; lia|].
      exists (c :: x), y. split; [done|]. split; [simpl; by rewrite Hc|]. split; [done|].
      rewrite <- app_assoc, length_app in He. cbn [app length] in He |- *.
      replace (Z.of_nat (length a) + 1) with (Z.of_nat (length a + 1)) by lia.
      replace (Z.of_nat (length a) + Z.of_nat (S (length (x ++ y))) - 1)
        with (Z.of_nat (length a + 1) + Z.of_nat (length (x ++ y)) - 1) by lia.
      rewrite He. f_equal. lia.
    + exists [], (c :: t). split; [done|]. split; [done|]. split; [by intros ? ? [= <- <-]|].
      f_equal. simpl. lia.
Qed.

(** [x] stops the loop. *)
Lemma trim_right_spec fuel a x r rest :
  (length (a ++ x :: r) < fuel)%nat → inset x = false →
  ∃ m c y, x :: r = m ++ c :: y ∧ inset c = false ∧ forallb inset y = true ∧
    trim_right fuel (a ++ (x :: r) ++ rest) cset (Z.of_nat (length (a ++ x :: r)) - 1) =
    Val (Z.of_nat (length (a ++ m ++ [c])) - 1).
Proof.
  revert r rest. induction fuel as [|fuel IH]; intros r rest Hf Hx; [lia|].
  destruct r as [|z r _] using rev_ind.
  - exists [], x, []. split; [done|]. split; [done|]. split; [done|]. simpl.
    destruct (Z.ltb_spec 0 (Z.of_nat (length (a ++ [x])) - 1)); [|done].
    rewrite mem_read_1 by (rewrite length_app; simpl; lia). cbn [mbind outcome_bind existsb].
    by rewrite Hx.
  - cbn [trim_right].
    replace (a ++ (x :: r ++ [z]) ++ rest) with ((a ++ x :: r) ++ z :: rest)
      by (by rewrite <- !app_assoc; simpl; rewrite <- app_assoc).
    assert (El : length (a ++ x :: r ++ [z]) = S (length (a ++ x :: r)))
      by (rewrite !length_app; simpl; rewrite length_app; simpl; lia).
    rewrite El in Hf |- *.
    destruct (Z.ltb_spec 0 (Z.of_nat (S (length (a ++ x :: r))) - 1)) as [|Hn].
    2: { rewrite length_app in Hn. simpl in Hn. lia. }
    rewrite mem_read_1 by lia. cbn [mbind outcome_bind existsb]. rewrite orb_false_r.
    destruct (inset z) eqn:Hz.
    + destruct (IH r (z :: rest)) as (m & c & y & E & Hc & Hy & He); [lia|done|].
      exists m, c, (y ++ [z]). split; [by rewrite app_comm_cons, E, <- app_assoc|].
      split; [done|]. split; [by rewrite forallb_app, Hy; simpl; rewrite Hz|].
      replace (Z.of_nat (S (length (a ++ x :: r))) - 1 - 1)
        with (Z.of_nat (length (a ++ x :: r)) - 1) by lia.
      rewrite <- app_assoc. exact He.
    + exists (x :: r), z, []. split; [done|]. split; [done|]. split; [done|]. f_equal.
      replace (a ++ (x :: r) ++ [z]) with (a ++ x :: r ++ [z]) by done. rewrite El. lia.
Qed.

(** Going left from the end stops at the start when nothing else stops it. *)
Lemma trim_right_range fuel b ep :
  -1 <= ep < Z.of_nat (length b) → (Z.to_nat ep < fuel)%nat →
  ∃ r, trim_right fuel b cset ep = Val r ∧ r <= ep.
Proof.
  revert ep. induction fuel as [|fuel IH]; intros ep He Hf; [lia|]. simpl.
  destruct (Z.ltb_spec 0 ep); [|exists ep; split; [done|lia]].
  destruct (mem_read_in b ep) as (c & -> & _); [lia|]. cbn [mbind outcome_bind].
  destruct (existsb inset _); [|exists ep; split; [done|lia]].
  destruct (IH (ep - 1)) as (r & -> & ?); [lia|lia|]. exists r. split; [done|lia].
Qed.

Lemma sdstrim_spec s t :
  sds_ok s → contents s = t →
  ∃ x b y s', t = x ++ b ++ y ∧ forallb inset x = true ∧ forallb inset y = true ∧
    (b = [] ∨ ∃ c, head b = Some c ∧ inset c = false) ∧
    (b = [] ∨ ∃ c, last b = Some c ∧ inset c = false) ∧
    sdstrim s cset = Val s' ∧ sds_ok s' ∧ contents s' = b.
Proof.
  intros Hs Ht. destruct (sds_ok_inv s Hs) as (t' & j & -> & Hc & Hl).
  rewrite Hc in Ht. subst t'. unfold sdstrim. rewrite sdslen_mk by lia. rewrite Nat2Z.id.
  cbn [mk sds_buf].
  destruct (trim_left_spec (S (length t)) [] t (NUL :: j))
    as (x & y & Ht & Hx & Hy & Hleft); [lia|]. cbn [app length] in Hleft.
  change (Z.of_nat 0) with 0 in Hleft. rewrite !Z.add_0_l in Hleft. rewrite Hleft.
  cbn [mbind outcome_bind]. destruct y as [|c r].
  - destruct (trim_right_range (S (length t)) (t ++ NUL :: j) (Z.of_nat (length t) - 1))
      as (ep & -> & Hep); [rewrite length_app; simpl; lia|lia|]. cbn [mbind outcome_bind].
    rewrite app_nil_r in Ht. subst x.
    destruct (Z.ltb_spec ep (Z.of_nat (length t))); [|lia].
    assert (E : t = t ++ [] ++ []) by (by rewrite !app_nil_r).
    destruct (keep_range_spec t [] [] j (Z.of_nat (length t)) 0) as (j' & Hk & Hj');
      [done|by right|by rewrite <- E|]. rewrite <- E in Hk.
    exists t, [], [], (mk [] j'). repeat (split; [by auto|]).
    split; [by apply sds_ok_mk|apply contents_mk].
  - specialize (Hy c r eq_refl). subst t.
    destruct (trim_right_spec (S (length (x ++ c :: r))) x c r (NUL :: j))
      as (m & d & z & E & Hd & Hz & Hright); [lia|done|].
    rewrite <- app_assoc. cbn [app] in Hright |- *. rewrite Hright. cbn [mbind outcome_bind].
    rewrite !length_app. cbn [length].
    destruct (Z.ltb_spec (Z.of_nat (length x + (length m + 1)) - 1) (Z.of_nat (length x))); [lia|].
    assert (E2 : x ++ c :: r = x ++ (m ++ [d]) ++ z) by (rewrite E, <- app_assoc; done).
    destruct (keep_range_spec x (m ++ [d]) z j (Z.of_nat (length x))
      (Z.of_nat (length x + (length m + 1)) - 1 - Z.of_nat (length x) + 1))
      as (j' & Hk & Hj'); [done|left; rewrite length_app; simpl; lia|by rewrite <- E2|].
    rewrite <- E2 in Hk.
    exists x, (m ++ [d]), z, (mk (m ++ [d]) j'). split; [done|]. split; [done|]. split; [done|].
    split; [right; exists c; split; [|done]; destruct m; by simplify_eq/=|].
    split; [right; exists d; split; [apply last_snoc|done]|]. rewrite Hk.
    split; [done|]. split; [by apply sds_ok_mk|apply contents_mk].
Qed.
End Trim.

(** * Numbers *)

Lemma digits_loop_spec fuel v p :
  0 <= v < 10 ^ Z.of_nat fuel → fuel ≠ 0%nat →
  digits_loop fuel v p = Val (p ++ rev (dec_digits fuel v [])).
Proof.
  revert v p. induction fuel as [|fuel IH]; intros v p Hv Hf; [done|]. simpl.
  change (byte_of (48 + v mod 10)) with (digit (v mod 10)).
  destruct (Z.eqb_spec (v / 10) 0) as [E|E]; [done|].
  rewrite Nat2Z.inj_succ, Z.pow_succ_r in Hv by lia. destruct fuel as [|fuel].
  { change (10 ^ Z.of_nat 0) with 1 in Hv. rewrite Z.div_small in E; lia. }
  rewrite IH; [|split; [apply Z.div_pos; lia|apply Z.div_lt_upper_bound; lia]|done].
  rewrite (dec_digits_app _ _ [_]), rev_app_distr. by rewrite <- app_assoc.
Qed.

Lemma swap_bytes_ends a x m y c :
  swap_bytes (a ++ x :: m ++ y :: c) (length a) (length a + S (length m)) =
  a ++ y :: m ++ x :: c.
Proof.
  assert (Hu : ∀ (l1 : bytes) (u v : ascii) l2,
    <[length l1 := v]> (l1 ++ u :: l2) = l1 ++ v :: l2).
  { intros l1 u v l2. rewrite <- (Nat.add_0_r (length l1)). by rewrite insert_app_r. }
  assert (E : ∀ u, a ++ u :: m ++ y :: c = (a ++ u :: m) ++ y :: c)
    by (intros; by rewrite <- app_assoc).
  unfold swap_bytes. rewrite list_lookup_middle by done.
  rewrite E, list_lookup_middle by (rewrite length_app; simpl; lia). rewrite <- E, Hu, E.
  replace (length a + S (length m))%nat with (length (a ++ y :: m))
    by (rewrite length_app; simpl; lia).
  by rewrite Hu, <- app_assoc.
Qed.

(** Swapping from both ends reverses. *)
Lemma reverse_loop_spec fuel a m c :
  (length m <= fuel)%nat →
  reverse_loop fuel (a ++ m ++ c) (length a) (length a + length m - 1) = a ++ rev m ++ c.
Proof.
  revert a m c. induction fuel as [|fuel IH]; intros a m c Hf.
  { destruct m; [done|simpl in Hf; lia]. }
  cbn [reverse_loop]. destruct m as [|x m].
  { simpl. destruct (Nat.ltb_spec (length a) (length a + 0 - 1)); [lia|done]. }
  destruct m as [|y m _] using rev_ind.
  { simpl. destruct (Nat.ltb_spec (length a) (length a + 1 - 1)); [lia|done]. }
  cbn [length] in *. rewrite length_app in *. cbn [length] in *.
  destruct (Nat.ltb_spec (length a) (length a + S (length m + 1) - 1)); [|lia].
  replace (length a + S (length m + 1) - 1)%nat with (length a + S (length m))%nat by lia.
  cbn [app]. rewrite <- app_assoc. cbn [app]. rewrite swap_bytes_ends.
  replace (a ++ y :: m ++ x :: c) with ((a ++ [y]) ++ m ++ (x :: c)) by (by rewrite <- app_assoc).
  replace (S (length a)) with (length (a ++ [y])) by (rewrite length_app; simpl; lia).
  replace (length a + S (length m) - 1)%nat with (length (a ++ [y]) + length m - 1)%nat
    by (rewrite length_app; simpl; lia).
  rewrite IH by lia. cbn [rev]. rewrite rev_app_distr, <- !app_assoc. done.
Qed.

Lemma reverse_all p : reverse_loop (length p) p 0 (length p - 1) = rev p.
Proof.
  pose proof (reverse_loop_spec (length p) [] p [] ltac:(lia)) as Hr.
  cbn [app length] in Hr. rewrite !app_nil_r in Hr. by rewrite Nat.add_0_l in Hr.
Qed.

Lemma dec_digits_length k n acc : (length (dec_digits k n acc) <= k + length acc)%nat.
Proof.
  revert n acc. induction k as [|k IH]; intros n acc; simpl; [lia|].
  destruct (n / 10 =? 0); simpl; [lia|]. specialize (IH (n / 10) (digit (n mod 10) :: acc)).
  simpl in IH. lia.
Qed.

Lemma dec_nat_length n : (length (dec_nat n) <= 20)%nat.
Proof. unfold dec_nat. pose proof (dec_digits_length 20 n []) as Hl. cbn [length] in Hl. lia. Qed.
Lemma dec_int_length z : (length (dec_int z) <= 21)%nat.
Proof.
  unfold dec_int. pose proof (dec_nat_length (- z)). pose proof (dec_nat_length z).
  destruct (z <? 0)%Z; [rewrite length_app; simpl; lia|lia].
Qed.

(** Below [10 ^ 19] the digits leave room for a sign. *)
Lemma dec_nat_length_ll n : 0 <= n < 10 ^ 19 → (length (dec_nat n) <= 19)%nat.
Proof.
  intros Hn. assert (∀ k m acc, 0 <= m < 10 ^ Z.of_nat (S k) →
    dec_digits (S (S k)) m acc = dec_digits (S k) m acc) as Hsame.
  { induction k as [|k IH]; intros m acc Hm.
    - simpl. rewrite Z.div_small by lia. done.
    - change (dec_digits (S (S (S k))) m acc) with
        (if m / 10 =? 0 then digit (m mod 10) :: acc
         else dec_digits (S (S k)) (m / 10) (digit (m mod 10) :: acc)).
      change (dec_digits (S (S k)) m acc) with
        (if m / 10 =? 0 then digit (m mod 10) :: acc
         else dec_digits (S k) (m / 10) (digit (m mod 10) :: acc)).
      destruct (m / 10 =? 0); [done|]. apply IH.
      rewrite Nat2Z.inj_succ, Z.pow_succ_r in Hm by lia.
      split; [apply Z.div_pos; lia|apply Z.div_lt_upper_bound; lia]. }
  unfold dec_nat. rewrite (Hsame 18%nat) by (simpl Z.of_nat; lia).
  pose proof (dec_digits_length 19 n []) as Hl. cbn [length] in Hl. lia.
Qed.

(** The digits, sign included, before they are reversed. *)
Lemma signed_digits value :
  LLONG_MIN < value <= LLONG_MAX →
  ∃ v p, ll_abs value = Val v ∧ digits_loop 20 v [] = Val p ∧
    rev (if value <? 0 then p ++ lit "-" else p) = dec_int value ∧
    (length (if (value <? 0)%Z then p ++ lit "-" else p) <= 20)%nat.
Proof.
  unfold LLONG_MIN, LLONG_MAX. intros Hv. unfold ll_abs, dec_int, LLONG_MIN.
  destruct (Z.ltb_spec value 0).
  - destruct (Z.eqb_spec value (- 2 ^ 63)); [lia|]. eexists _, _. split; [done|].
    rewrite digits_loop_spec by (done || (simpl Z.of_nat; lia)). split; [done|]. cbn [app].
    rewrite rev_app_distr, rev_involutive, length_app, length_rev. split; [done|].
    pose proof (dec_nat_length_ll (- value) ltac:(lia)). unfold dec_nat in *. simpl length at 2. lia.
  - eexists _, _. split; [done|].
    rewrite digits_loop_spec by (done || (simpl Z.of_nat; lia)). split; [done|]. cbn [app].
    rewrite rev_involutive, length_rev. split; [done|]. apply dec_nat_length.
Qed.

Lemma in_llstr_ok b : (length b <= 20)%nat → in_llstr b = Val b.
Proof.
  intros. unfold in_llstr, SDS_LLSTR_SIZE.
  destruct (Z.leb_spec (Z.of_nat (length b) + 1) 21); [done|lia].
Qed.

Lemma sdsll2str_spec value :
  LLONG_MIN < value <= LLONG_MAX → sdsll2str value = Val (dec_int value).
Proof.
  intros Hv. unfold sdsll2str. destruct (signed_digits value Hv) as (v & p & -> & Hd & Hr & Hl).
  cbn [mbind outcome_bind]. rewrite Hd. cbn [mbind outcome_bind]. rewrite in_llstr_ok by done.
  cbn [mbind outcome_bind]. by rewrite reverse_all, Hr.
Qed.

Lemma sdsull2str_spec v : 0 <= v < 2 ^ 64 → sdsull2str v = Val (dec_nat v).
Proof.
  intros Hv. unfold sdsull2str. rewrite digits_loop_spec by (done || (simpl Z.of_nat; lia)).
  cbn [mbind outcome_bind app].
  rewrite in_llstr_ok by (rewrite length_rev; apply dec_nat_length).
  cbn [mbind outcome_bind]. by rewrite reverse_all, rev_involutive.
Qed.

Section Numbers.
Context `{AllocLaws}.

Lemma sdsfromlonglong_spec value :
  LLONG_MIN < value <= LLONG_MAX → yields (sdsfromlonglong value) (dec_int value).
Proof.
  intros Hv. unfold sdsfromlonglong.
  destruct (signed_digits value Hv) as (v & p & -> & Hd & Hr & Hl).
  cbn [mbind outcome_bind]. rewrite Hd. cbn [mbind outcome_bind].
  set (q := if value <? 0 then p ++ lit "-" else p) in *. rewrite Hr.
  rewrite <- (length_rev q), Hr in Hl |- *.
  destruct (Z.leb_spec (Z.of_nat (length (dec_int value))) 32); [|lia].
  pose proof (sdsnewlen_spec (dec_int value) []) as Hs. rewrite app_nil_r in Hs. apply Hs.
  unfold INT_MAX. lia.
Qed.
End Numbers.

(** * Formatting *)

Section Printf.
Context `{AllocLaws}.

Lemma c_str_stop t u : no_nul t → c_str (t ++ NUL :: u) = t.
Proof. intros Ht. rewrite c_str_app by done. simpl. by rewrite app_nil_r. Qed.

Lemma vprintf_loop_spec fuel buflen text :
  no_nul text → 2 <= buflen → Z.of_nat (length text) + 2 <= buflen * 2 ^ (Z.of_nat fuel - 1) →
  fuel ≠ 0%nat →
  (vprintf_loop fuel buflen text = Val None ∧ out_of_memory) ∨
  ∃ buf, vprintf_loop fuel buflen text = Val (Some buf) ∧ c_str buf = text.
Proof.
  intros Ht. revert buflen. induction fuel as [|fuel IH]; intros buflen Hb Hl Hf; [done|].
  cbn [vprintf_loop]. destruct (malloc buflen) as [buf|] eqn:Hm; [|left; split; [done|exists buflen; split; [lia|done]]].
  apply malloc_size in Hm.
  destruct (split_at buf (Z.to_nat (buflen - 2))) as (x & y & -> & Hx); [lia|].
  rewrite length_app in Hm. destruct y as [|a [|b [|? ?]]]; simpl in Hm; try lia.
  rewrite (mem_write_app x [a] [b] [NUL]) by (simpl; lia || done). cbn [mbind outcome_bind app].
  destruct (Z.leb_spec (Z.of_nat (length text)) (buflen - 2)) as [Hs|Hs].
  - rewrite take_ge by lia.
    destruct (split_at (x ++ [NUL; b]) (length (text ++ [NUL]))) as (p & q & E & Hp);
      [rewrite !length_app; simpl; lia|].
    rewrite E, (mem_write_app [] p q (text ++ [NUL])) by (done || lia).
    cbn [mbind outcome_bind app].
    assert (Hread : mem_read ((text ++ [NUL]) ++ q) (buflen - 2) 1 = Val [NUL]).
    { destruct (mem_read_in ((text ++ [NUL]) ++ q) (buflen - 2)) as (c & -> & Hc).
      - apply (f_equal length) in E. rewrite !length_app in *. simpl in *. lia.
      - do 2 f_equal. destruct (decide (Z.of_nat (length text) = buflen - 2)) as [El|Hne].
        + rewrite lookup_app_l in Hc by (rewrite length_app; simpl; lia).
          rewrite lookup_app_r in Hc by lia.
          replace (Z.to_nat (buflen - 2) - length text)%nat with 0%nat in Hc by lia.
          by simplify_eq/=.
        + rewrite lookup_app_r in Hc by (rewrite length_app; simpl; lia).
          assert ((p ++ q) !! Z.to_nat (buflen - 2) = Some NUL) as Hn.
          { rewrite <- E, lookup_app_r by lia.
            by replace (Z.to_nat (buflen - 2) - length x)%nat with 0%nat by lia. }
          rewrite lookup_app_r in Hn by (rewrite Hp, length_app; simpl; lia).
          rewrite Hp in Hn. congruence. }
    rewrite Hread. cbn [mbind outcome_bind]. rewrite bool_decide_eq_true_2 by done.
    right. eexists. split; [done|]. rewrite <- app_assoc. by apply c_str_stop.
  - assert (Htk : length (take (Z.to_nat (buflen - 1)) text) = Z.to_nat (buflen - 1))
      by (rewrite length_take; lia).
    pose proof (mem_write_app [] (x ++ [NUL; b]) [] (take (Z.to_nat (buflen - 1)) text ++ [NUL]) 0)
      as Hw. rewrite !app_nil_r in Hw. cbn [app] in Hw.
    rewrite Hw by (done || (rewrite !length_app, Htk; simpl; lia)). clear Hw.
    cbn [mbind outcome_bind].
    destruct (mem_read_in (take (Z.to_nat (buflen - 1)) text ++ [NUL]) (buflen - 2))
      as (c & -> & Hc); [rewrite length_app, Htk; simpl; lia|].
    cbn [mbind outcome_bind]. rewrite bool_decide_eq_false_2.
    2: { intros [= ->]. rewrite lookup_app_l in Hc by lia. rewrite lookup_take_lt in Hc by lia.
         apply Ht. by eapply list_elem_of_lookup_2. }
    apply IH; [lia| |].
    + replace (Z.of_nat (S fuel) - 1) with (Z.of_nat fuel) in Hl by lia.
      destruct fuel as [|fuel]; [simpl in Hl; lia|].
      replace (Z.of_nat (S fuel)) with (Z.succ (Z.of_nat fuel)) in Hl |- * by lia.
      rewrite Z.pow_succ_r in Hl by lia.
      replace (Z.succ (Z.of_nat fuel) - 1) with (Z.of_nat fuel) by lia. lia.
    + intros ->. simpl in Hl. lia.
Qed.

Lemma sdscatprintf_spec s t text :
  sds_ok s → contents s = t → no_nul text →
  Z.of_nat (length t) + Z.of_nat (length text) + SDS_MAX_PREALLOC <= INT_MAX →
  yields (sdscatprintf s text) (t ++ text).
Proof.
  intros Hs Hc Ht Hmax. unfold sdscatprintf, sdscatvprintf.
  destruct (vprintf_loop_spec (S (length text)) 16 text) as [[-> ?]|(buf & -> & Hb)];
    [done|lia| |done|by left|].
  - replace (Z.of_nat (S (length text)) - 1) with (Z.of_nat (length text)) by lia.
    pose proof (Z.pow_gt_lin_r 2 (Z.of_nat (length text)) ltac:(lia) ltac:(lia)). lia.
  - cbn [mbind outcome_bind]. unfold sdscat, strlen. rewrite Hb.
    destruct (c_str_split buf) as [u Hu]. rewrite Hb in Hu. rewrite Hu. by apply sdscatlen_spec.
Qed.

(** A whole buffer is appended. *)
Lemma sdscatlen_all s t d n :
  sds_ok s → contents s = t → n = Z.of_nat (length d) →
  Z.of_nat (length t) + n + SDS_MAX_PREALLOC <= INT_MAX → yields (sdscatlen s d n) (t ++ d).
Proof.
  intros Hs Ht -> Hmax. pose proof (sdscatlen_spec s t d [] Hs Ht Hmax) as Hx.
  by rewrite app_nil_r in Hx.
Qed.

(** * The escaped representation *)

Lemma repr_char_length c : (length (repr_char c) <= 4)%nat.
Proof. destruct c as [[] [] [] [] [] [] [] []]; vm_compute; lia. Qed.

Lemma catrepr_char_spec s t c :
  sds_ok s → contents s = t → Z.of_nat (length t) + 4 + SDS_MAX_PREALLOC <= INT_MAX →
  yields (catrepr_char s c) (t ++ repr_char c).
Proof.
  intros Hs Ht Hmax. pose proof (repr_char_length c) as Hl.
  assert (Hp : ∀ text, repr_char c = text →
            yields (sdscatprintf s text) (t ++ text)).
  { intros text <-. apply sdscatprintf_spec; [done|done|apply repr_char_no_nul|lia]. }
  assert (Hc : ∀ text, length text = 2%nat → yields (sdscatlen s text 2) (t ++ text)).
  { intros text E. apply sdscatlen_all; [done|done|by rewrite E|lia]. }
  unfold catrepr_char. unfold repr_char in *.
  repeat (case_match; [by apply Hp || by apply Hc|]); by apply Hp.
Qed.

(** A null pointer met on the way is dereferenced. *)
Lemma catrepr_loop_spec s t p :
  sds_ok s → contents s = t →
  Z.of_nat (length t) + 4 * Z.of_nat (length p) + SDS_MAX_PREALLOC <= INT_MAX →
  (catrepr_loop (Some s) p = Fault NullPointer ∧ out_of_memory) ∨
  yields (catrepr_loop (Some s) p) (t ++ List.concat (List.map repr_char p)).
Proof.
  revert s t. induction p as [|c p IH]; intros s t Hs Ht Hmax.
  { right. simpl. rewrite app_nil_r. right. by exists s. }
  cbn [catrepr_loop deref from_option_fault mbind outcome_bind length] in *.
  destruct (catrepr_char_spec s t c Hs Ht) as [[-> Hf]|(s' & -> & Hs' & Ht')]; [lia| |].
  - cbn [mbind outcome_bind]. destruct p; [right; by left|left; by split].
  - cbn [mbind outcome_bind List.map List.concat]. rewrite app_assoc. apply IH; [done|done|].
    pose proof (repr_char_length c). rewrite length_app. lia.
Qed.

Lemma sdscatrepr_spec s t p u :
  sds_ok s → contents s = t →
  Z.of_nat (length t) + 4 * Z.of_nat (length p) + 2 + SDS_MAX_PREALLOC <= INT_MAX →
  (sdscatrepr s (p ++ u) (Z.of_nat (length p)) = Fault NullPointer ∧ out_of_memory) ∨
  yields (sdscatrepr s (p ++ u) (Z.of_nat (length p))) (t ++ repr p).
Proof.
  intros Hs Ht Hmax. unfold sdscatrepr.
  destruct (sdscatlen_all s t [chr_dq] 1 Hs Ht) as [[-> Hf]|(s1 & -> & Hs1 & Ht1)];
    [done|lia| |]; cbn [mbind outcome_bind]; rewrite mem_read_prefix by done;
    cbn [mbind outcome_bind].
  { left. split; [|done]. by destruct p. }
  destruct (catrepr_loop_spec s1 (t ++ [chr_dq]) p Hs1 Ht1) as [[-> Hf]|[[-> Hf]|(s2 & -> & Hs2 & Ht2)]];
    [rewrite length_app; simpl; lia|by left|by left|]. right.
  cbn [mbind outcome_bind deref from_option_fault].
  replace (t ++ repr p) with
    (((t ++ [chr_dq]) ++ List.concat (List.map repr_char p)) ++ [chr_dq])
    by (unfold repr; by rewrite <- !app_assoc).
  apply sdscatlen_all; [done|done|done|].
  assert (length (List.concat (List.map repr_char p)) <= 4 * length p)%nat.
  { clear. induction p as [|c p IH]; simpl; [lia|]. rewrite length_app.
    pose proof (repr_char_length c). lia. }
  rewrite !length_app. simpl. lia.
Qed.
End Printf.

(** * [sdscatfmt] *)

(** What a format means: [None] for one that ends in a percent sign or asks for an argument that
    is not there. *)
Definition arg_text (next : ascii) (ap : list fmt_val) : option (bytes * list fmt_val) :=
  match ap with
  | FmtStr t :: ap => if Ascii.eqb next "s" then Some (c_str t, ap) else None
  | FmtSds t :: ap => if Ascii.eqb next "S" then Some (contents t, ap) else None
  | FmtInt n :: ap => if Ascii.eqb next "i" then Some (dec_int n, ap) else None
  | FmtLongLong n :: ap => if Ascii.eqb next "I" then Some (dec_int n, ap) else None
  | FmtUInt n :: ap => if Ascii.eqb next "u" then Some (dec_nat n, ap) else None
  | FmtULongLong n :: ap => if Ascii.eqb next "U" then Some (dec_nat n, ap) else None
  | FmtSize n :: ap => if Ascii.eqb next "T" then Some (dec_nat n, ap) else None
  | [] => None
  end.

Fixpoint fmt_text (f : bytes) (ap : list fmt_val) : option bytes :=
  match f with
  | [] => Some []
  | c :: f1 =>
    if Ascii.eqb c "%" then
      match f1 with
      | [] => None
      | next :: f2 =>
        if is_conversion next then
          match arg_text next ap with
          | Some (str, ap) => app str <$> fmt_text f2 ap
          | None => None
          end
        else cons next <$> fmt_text f2 ap
      end
    else cons c <$> fmt_text f1 ap
  end.

(** An argument within its type; [LLONG_MIN] is excluded, see [sdsll2str]. *)
Definition fmt_val_ok (v : fmt_val) : Prop :=
  match v with
  | FmtStr _ => True
  | FmtSds t => sds_ok t
  | FmtInt n => INT_MIN <= n <= INT_MAX
  | FmtLongLong n => LLONG_MIN < n <= LLONG_MAX
  | FmtUInt n => 0 <= n < 2 ^ 32
  | FmtULongLong n | FmtSize n => 0 <= n < 2 ^ 64
  end.

(** A string under construction: the byte after the text is not yet the terminator. *)
Definition mkx (t : bytes) (x : ascii) (j : bytes) : sdshdr :=
  mkSds (Z.of_nat (length t)) (Z.of_nat (length j)) (t ++ x :: j).

Section Catfmt.
Context `{AllocLaws}.

Lemma fmt_arg_text_spec next ap str ap' :
  arg_text next ap = Some (str, ap') → Forall fmt_val_ok ap → Z.of_nat (length str) <= INT_MAX →
  Forall fmt_val_ok ap' ∧
  ∃ u, fmt_arg_text next ap = Val (str ++ u, Z.of_nat (length str), ap').
Proof.
  intros Ha Hok Hl. destruct ap as [|v ap]; [done|].
  apply Forall_cons in Hok as [Hv Hok]. unfold fmt_val_ok, INT_MIN, INT_MAX, LLONG_MIN in *.
  destruct v; simpl in *; repeat case_match; simplify_eq/=; split; try done.
  - destruct (c_str_split t) as [u Hu]. exists u. rewrite <- Hu. unfold strlen.
    rewrite i32_small by (unfold INT_MIN, INT_MAX; lia). done.
  - destruct (sds_ok_inv t Hv) as (t' & j & -> & Hc & Hj). rewrite Hc in *.
    exists (NUL :: j). rewrite sdslen_mk by (unfold INT_MAX; lia).
    rewrite i32_small by (unfold INT_MIN, INT_MAX; lia). done.
  - exists []. rewrite sdsll2str_spec by (unfold LLONG_MIN, LLONG_MAX; lia).
    by rewrite app_nil_r.
  - exists []. rewrite sdsll2str_spec by (unfold LLONG_MIN, LLONG_MAX in *; lia).
    by rewrite app_nil_r.
  - exists []. rewrite sdsull2str_spec by lia. by rewrite app_nil_r.
  - exists []. rewrite sdsull2str_spec by lia. by rewrite app_nil_r.
  - exists []. rewrite sdsull2str_spec by lia. by rewrite app_nil_r.
Qed.

Lemma make_room_mkx t x j n :
  Z.of_nat (length t) + Z.of_nat (length j) <= INT_MAX → 0 <= n →
  Z.of_nat (length t) + n + SDS_MAX_PREALLOC <= INT_MAX →
  (sdsMakeRoomFor (mkx t x j) n = Val None ∧ out_of_memory) ∨
  ∃ j', sdsMakeRoomFor (mkx t x j) n = Val (Some (mkx t x j')) ∧ n <= Z.of_nat (length j') ∧
        Z.of_nat (length t) + Z.of_nat (length j') <= INT_MAX.
Proof.
  intros Hl Hn Hmax. destruct (sdsMakeRoomFor_spec (mkx t x j) n) as [?|(e & -> & Hr & Hm)];
    cbn [mkx sds_len sds_free sds_buf] in *; try lia; [rewrite length_app; simpl; lia|by left|].
  right. exists (j ++ e). rewrite length_app. split; [|lia]. unfold mkx.
  rewrite <- app_assoc, length_app. cbn [app]. do 3 f_equal. lia.
Qed.

Lemma put_char_mkx t x y j c :
  Z.of_nat (length t) + Z.of_nat (length (y :: j)) <= INT_MAX →
  put_char (mkx t x (y :: j)) (Z.of_nat (length t)) c =
  Val (mkx (t ++ [c]) y j, Z.of_nat (length (t ++ [c]))).
Proof.
  intros Hl. unfold put_char, mkx. rewrite buf_set_at by done.
  cbn [mbind outcome_bind sds_len sds_free length] in *.
  rewrite !int_arith_ok by (unfold INT_MIN, INT_MAX in *; lia). cbn [mbind outcome_bind].
  unfold set_len_free. cbn [sds_buf]. rewrite <- app_assoc, length_app. cbn [app length].
  do 2 f_equal; [f_equal; lia|lia].
Qed.

Lemma put_text_mkx t x j str u :
  Z.of_nat (length t) + Z.of_nat (length j) <= INT_MAX →
  Z.of_nat (length t) + Z.of_nat (length str) + SDS_MAX_PREALLOC <= INT_MAX →
  (put_text (mkx t x j) (Z.of_nat (length t)) (str ++ u) (Z.of_nat (length str)) =
     Fault NullPointer ∧ out_of_memory) ∨
  ∃ y j', put_text (mkx t x j) (Z.of_nat (length t)) (str ++ u) (Z.of_nat (length str)) =
            Val (mkx (t ++ str) y j', Z.of_nat (length (t ++ str))) ∧
          Z.of_nat (length (t ++ str)) + Z.of_nat (length j') <= INT_MAX.
Proof.
  intros Hl Hmax. unfold put_text.
  assert (0 <= SDS_MAX_PREALLOC) by (unfold SDS_MAX_PREALLOC; lia).
  rewrite u64_nonneg by lia.
  assert (Hroom : ((if sds_free (mkx t x j) <? Z.of_nat (length str)
             then sdsMakeRoomFor (mkx t x j) (Z.of_nat (length str))
             else Val (Some (mkx t x j))) = Val None ∧ out_of_memory) ∨
          ∃ j', (if sds_free (mkx t x j) <? Z.of_nat (length str)
             then sdsMakeRoomFor (mkx t x j) (Z.of_nat (length str))
             else Val (Some (mkx t x j))) = Val (Some (mkx t x j')) ∧
            Z.of_nat (length str) <= Z.of_nat (length j') ∧
            Z.of_nat (length t) + Z.of_nat (length j') <= INT_MAX).
  { cbn [mkx sds_free]. destruct (Z.ltb_spec (Z.of_nat (length j)) (Z.of_nat (length str))).
    - apply make_room_mkx; lia.
    - right. by exists j. }
  destruct Hroom as [[-> ?]|(j' & -> & Hj & Hm)]; [by left|]. right.
  cbn [mbind outcome_bind deref from_option_fault]. rewrite mem_read_prefix by done.
  cbn [mbind outcome_bind]. unfold buf_write, mkx. cbn [sds_buf sds_len sds_free].
  destruct (split_at (x :: j') (length str)) as (p & q & E & Hp); [simpl; lia|].
  pose proof (f_equal length E) as El. rewrite length_app in El. cbn [length] in El.
  destruct q as [|y q]; [simpl in El; lia|]. rewrite E, mem_write_app by done.
  cbn [mbind outcome_bind sds_len sds_free].
  rewrite !int_arith_ok by (unfold INT_MIN, INT_MAX in *; lia). cbn [mbind outcome_bind].
  unfold set_len_free. cbn [sds_buf]. exists y, q. rewrite <- app_assoc, length_app.
  cbn [length] in El. split; [|lia]. do 2 f_equal; [f_equal; lia|lia].
Qed.

Lemma room_for_one t x j :
  Z.of_nat (length t) + Z.of_nat (length j) <= INT_MAX →
  Z.of_nat (length t) + 1 + SDS_MAX_PREALLOC <= INT_MAX →
  ((if sds_free (mkx t x j) =? 0 then sdsMakeRoomFor (mkx t x j) 1 else Val (Some (mkx t x j))) =
     Val None ∧ out_of_memory) ∨
  ∃ y j', (if sds_free (mkx t x j) =? 0 then sdsMakeRoomFor (mkx t x j) 1
           else Val (Some (mkx t x j))) = Val (Some (mkx t x (y :: j'))) ∧
          Z.of_nat (length t) + Z.of_nat (length (y :: j')) <= INT_MAX.
Proof.
  intros Hl Hmax. cbn [mkx sds_free]. destruct (Z.eqb_spec (Z.of_nat (length j)) 0) as [E|E].
  - destruct (make_room_mkx t x j 1) as [?|(j' & Hr & H1 & Hm)]; [done|lia|done|by left|].
    right. destruct j' as [|y j']; [simpl in H1; lia|]. by exists y, j'.
  - right. destruct j as [|y j]; [done|]. by exists y, j.
Qed.

Lemma catfmt_loop_spec f ap t x j text :
  fmt_text f ap = Some text → Forall fmt_val_ok ap →
  Z.of_nat (length t) + Z.of_nat (length j) <= INT_MAX →
  Z.of_nat (length t) + Z.of_nat (length text) + 1 + SDS_MAX_PREALLOC <= INT_MAX →
  (catfmt_loop f ap (mkx t x j) (Z.of_nat (length t)) = Fault NullPointer ∧
     out_of_memory) ∨
  ∃ y j', catfmt_loop f ap (mkx t x j) (Z.of_nat (length t)) =
            Val (mkx (t ++ text) y j', Z.of_nat (length (t ++ text))) ∧
          Z.of_nat (length (t ++ text)) + Z.of_nat (length j') <= INT_MAX.
Proof.
  revert ap t x j text.
  induction f as [f IH] using (induction_ltof1 _ (@length ascii)). unfold ltof in IH.
  intros ap t x j text Hf Hok Hl Hmax.
  destruct f as [|c f1].
  { simplify_eq/=. right. exists x, j. by rewrite app_nil_r. }
  assert (0 <= SDS_MAX_PREALLOC) by (unfold SDS_MAX_PREALLOC; lia).
  assert (Hput : ∀ ch f' text', (length f' < length (c :: f1))%nat →
    fmt_text f' ap = Some text' → text = ch :: text' → ∀ y j',
    Z.of_nat (length t) + Z.of_nat (length (y :: j')) <= INT_MAX →
    ('(s, i) ← put_char (mkx t x (y :: j')) (Z.of_nat (length t)) ch;
     catfmt_loop f' ap s i) = Fault NullPointer ∧ out_of_memory ∨
    ∃ z k, ('(s, i) ← put_char (mkx t x (y :: j')) (Z.of_nat (length t)) ch;
            catfmt_loop f' ap s i) = Val (mkx (t ++ text) z k, Z.of_nat (length (t ++ text))) ∧
           Z.of_nat (length (t ++ text)) + Z.of_nat (length k) <= INT_MAX).
  { intros ch f' text' Hlen Hf' -> y j' Hj. rewrite put_char_mkx by done.
    cbn [mbind outcome_bind]. cbn [length] in *.
    replace (t ++ ch :: text') with ((t ++ [ch]) ++ text') by (by rewrite <- app_assoc).
    apply IH; [done|done|done|..]; rewrite length_app; cbn [length]; lia. }
  cbn [catfmt_loop]. cbn [fmt_text] in Hf.
  destruct (room_for_one t x j Hl) as [[-> ?]|(y & j' & -> & Hj)]; [lia|by left|].
  cbn [mbind outcome_bind deref from_option_fault].
  destruct (Ascii.eqb c "%").
  - destruct f1 as [|next f2]; [done|]. destruct (is_conversion next).
    + destruct (arg_text next ap) as [[str ap']|] eqn:Ha; [|done].
      destruct (fmt_text f2 ap') as [text'|] eqn:Hf2; simplify_eq/=.
      rewrite length_app in Hmax.
      destruct (fmt_arg_text_spec next ap str ap' Ha Hok) as (Hok' & u & ->); [lia|].
      cbn [mbind outcome_bind].
      destruct (put_text_mkx t x (y :: j') str u) as [[-> ?]|(z & k & -> & Hk)];
        [done|lia|by left|].
      cbn [mbind outcome_bind]. rewrite app_assoc.
      apply IH; [simpl; lia|done|done|done|]. rewrite length_app. lia.
    + destruct (fmt_text f2 ap) as [text'|] eqn:Hf2; simplify_eq/=.
      by apply (Hput next f2 text'); [simpl; lia|..].
  - destruct (fmt_text f1 ap) as [text'|] eqn:Hf2; simplify_eq/=.
    by apply (Hput c f1 text'); [simpl; lia|..].
Qed.

Lemma sdscatfmt_spec s t fmt ap text :
  sds_ok s → contents s = t → fmt_text (c_str fmt) ap = Some text → Forall fmt_val_ok ap →
  Z.of_nat (length t) + Z.of_nat (length text) + 1 + SDS_MAX_PREALLOC <= INT_MAX →
  (sdscatfmt s fmt ap = Fault NullPointer ∧ out_of_memory) ∨
  ∃ s', sdscatfmt s fmt ap = Val s' ∧ sds_ok s' ∧ contents s' = t ++ text.
Proof.
  intros Hs Ht Hf Hok Hmax. destruct (sds_ok_inv s Hs) as (t' & j & -> & Hc & Hl).
  rewrite Hc in Ht. subst t'. unfold sdscatfmt. rewrite sdslen_mk by lia.
  assert (0 <= SDS_MAX_PREALLOC) by (unfold SDS_MAX_PREALLOC; lia).
  rewrite i32_small by (unfold INT_MIN; lia).
  destruct (catfmt_loop_spec (c_str fmt) ap t NUL j text Hf Hok Hl Hmax)
    as [[Hr ?]|(y & j' & Hr & Hj)]; change (mkx t NUL j) with (mk t j) in Hr; rewrite Hr.
  { by left. }
  right. cbn [mbind outcome_bind]. unfold mkx. rewrite buf_set_at by done.
  exists (mk (t ++ text) j'). split; [done|]. split; [by apply sds_ok_mk|apply contents_mk].
Qed.
End Catfmt.

(** * Character-wise operations and comparison *)

Lemma map_loop_spec f a r j :
  map_loop f (mk (a ++ r) j) (Z.of_nat (length a)) (length r) = Val (mk (a ++ List.map f r) j).
Proof.
  revert a. induction r as [|c r IH]; intros a; [done|].
  cbn [length map_loop mk sds_buf sds_len sds_free].
  rewrite <- app_assoc. cbn [app]. rewrite mem_read_1 by done. cbn [mbind outcome_bind List.map].
  rewrite (mem_write_app a [c] (r ++ NUL :: j) [f c]) by done. cbn [mbind outcome_bind app].
  replace (Z.of_nat (length a) + 1) with (Z.of_nat (length (a ++ [f c])))
    by (rewrite length_app; simpl; lia).
  replace (mkSds _ _ _) with (mk ((a ++ [f c]) ++ r) j).
  - rewrite IH. by rewrite <- app_assoc.
  - unfold mk. rewrite <- !app_assoc, !length_app. cbn [length app]. f_equal; lia.
Qed.

Lemma map_all_spec f s t :
  sds_ok s → contents s = t →
  ∃ s', map_loop f s 0 (length t) = Val s' ∧ sds_ok s' ∧ contents s' = List.map f t.
Proof.
  intros Hs Ht. destruct (sds_ok_inv s Hs) as (t' & j & -> & Hc & Hl).
  rewrite Hc in Ht. subst t'. exists (mk (List.map f t) j).
  split; [apply (map_loop_spec f [] t j)|].
  split; [apply sds_ok_mk; by rewrite length_map|apply contents_mk].
Qed.

(** The order [sdscmp] decides: byte by byte, a proper prefix first. *)
Fixpoint bytes_compare (a b : bytes) : comparison :=
  match a, b with
  | [], [] => Eq
  | [], _ => Lt
  | _, [] => Gt
  | x :: a, y :: b =>
    match byte_val x ?= byte_val y with Eq => bytes_compare a b | r => r end
  end.

Lemma memcmp_compare a b :
  bytes_compare a b =
  match memcmp (take (length b) a) (take (length a) b) ?= 0 with
  | Eq => Z.of_nat (length a) ?= Z.of_nat (length b)
  | r => r
  end.
Proof.
  revert b. induction a as [|x a IH]; intros [|y b]; [done|done|done|].
  cbn [bytes_compare length take memcmp]. rewrite IH.
  destruct (Z.eqb_spec (byte_val x) (byte_val y)) as [->|Hne].
  - rewrite Z.compare_refl.
    by rewrite !Nat2Z.inj_succ, <- !Z.add_1_l, Z.add_compare_mono_l.
  - destruct (Z.ltb_spec (byte_val x) (byte_val y)).
    + by rewrite (proj2 (Z.compare_lt_iff _ _)).
    + rewrite (proj2 (Z.compare_gt_iff _ _)) by lia. done.
Qed.

Lemma sdscmp_spec s1 s2 :
  sds_ok s1 → sds_ok s2 →
  ∃ r, sdscmp s1 s2 = Val r ∧ (r ?= 0) = bytes_compare (contents s1) (contents s2).
Proof.
  intros H1 H2. destruct (sds_ok_inv s1 H1) as (a & j & -> & Ha & Hl1).
  destruct (sds_ok_inv s2 H2) as (b & k & -> & Hb & Hl2). rewrite Ha, Hb. unfold sdscmp.
  rewrite !sdslen_mk by lia. cbn [mk sds_buf].
  set (m := if _ <? _ then _ else _).
  assert (Hm : m = Z.of_nat (length a `min` length b)).
  { unfold m. destruct (Z.ltb_spec (Z.of_nat (length a)) (Z.of_nat (length b))); lia. }
  assert (Hr : ∀ (x y : bytes), m <= Z.of_nat (length x) →
            mem_read (x ++ y) 0 m = Val (take (Z.to_nat m) x)).
  { intros x y Hx. unfold mem_read. rewrite length_app.
    destruct (Z.leb_spec 0 m); [|lia]. cbn [Z.leb Z.compare andb].
    destruct (Z.leb_spec (0 + m) (Z.of_nat (length x + length y))); [|lia].
    rewrite drop_0, take_app_le by lia. done. }
  rewrite !Hr by lia. cbn [mbind outcome_bind].
  assert (Et : take (Z.to_nat m) a = take (length b) a ∧ take (Z.to_nat m) b = take (length a) b).
  { rewrite Hm, Nat2Z.id. split.
    - destruct (Nat.le_ge_cases (length a) (length b)).
      + rewrite !take_ge; [done|lia..].
      + by rewrite Nat.min_r.
    - destruct (Nat.le_ge_cases (length a) (length b)).
      + by rewrite Nat.min_l.
      + rewrite !take_ge; [done|lia..]. }
  destruct Et as [-> ->]. eexists. split; [done|]. rewrite memcmp_compare.
  destruct (Z.eqb_spec (memcmp (take (length b) a) (take (length a) b)) 0) as [->|Hne].
  - cbn [Z.compare].
    assert (i32 (u64 (Z.of_nat (length a) - Z.of_nat (length b))) =
            Z.of_nat (length a) - Z.of_nat (length b)) as ->.
    { apply i32_u64. unfold INT_MIN, INT_MAX in *. lia. }
    symmetry. apply Z.compare_sub.
  - by destruct (memcmp (take (length b) a) (take (length a) b) ?= 0) eqn:E;
      [apply Z.compare_eq in E| |].
Qed.

(** * Joining and splitting *)

Section Join.
Context `{AllocLaws} {A : Type}.
Variable cat : sdshdr → A → outcome (option sdshdr).
Variable text_of : A → bytes.
Variable elem_ok : A → Prop.
Hypothesis cat_spec : ∀ s t a, sds_ok s → contents s = t → elem_ok a →
  Z.of_nat (length t) + Z.of_nat (length (text_of a)) + SDS_MAX_PREALLOC <= INT_MAX →
  yields (cat s a) (t ++ text_of a).

Lemma join_loop_spec sep s t argv :
  sds_ok s → contents s = t → Forall elem_ok argv →
  Z.of_nat (length t) + Z.of_nat (length (join_with sep (List.map text_of argv)))
    + SDS_MAX_PREALLOC <= INT_MAX →
  (join_loop cat sep (Z.of_nat (length sep)) (Some s) argv = Fault NullPointer ∧
     out_of_memory) ∨
  yields (join_loop cat sep (Z.of_nat (length sep)) (Some s) argv)
    (t ++ join_with sep (List.map text_of argv)).
Proof.
  revert s t. induction argv as [|a argv IH]; intros s t Hs Ht Hok Hmax.
  { right. simpl. rewrite app_nil_r. right. by exists s. }
  apply Forall_cons in Hok as [Ha Hok].
  cbn [join_loop deref from_option_fault mbind outcome_bind].
  destruct argv as [|b argv].
  { cbn [List.map join_with] in *. right.
    destruct (cat_spec s t a Hs Ht Ha) as [[-> ?]|(s' & -> & ? & ?)]; [lia|by left|].
    right. by exists s'. }
  cbn [List.map] in *. rewrite join_with_cons in Hmax |- * by done. rewrite !length_app in Hmax.
  destruct (cat_spec s t a Hs Ht Ha) as [[-> ?]|(s1 & -> & Hs1 & Ht1)]; [lia|by left|].
  cbn [mbind outcome_bind deref from_option_fault].
  destruct (sdscatlen_all s1 _ sep (Z.of_nat (length sep)) Hs1 Ht1)
    as [[-> ?]|(s2 & -> & Hs2 & Ht2)]; [done|rewrite length_app; lia|by left|].
  cbn [mbind outcome_bind].
  destruct (IH s2 _ Hs2 Ht2 Hok) as [?|Hy]; [|by left|].
  - rewrite !length_app. cbn [List.map]. lia.
  - right. by rewrite <- !app_assoc in Hy.
Qed.

Lemma join_from_empty sep argv :
  Forall elem_ok argv →
  Z.of_nat (length (join_with sep (List.map text_of argv))) + SDS_MAX_PREALLOC <= INT_MAX →
  (let r := join ← sdsempty; join_loop cat sep (Z.of_nat (length sep)) join argv in
   (r = Fault NullPointer ∧ out_of_memory) ∨
   yields r (join_with sep (List.map text_of argv))).
Proof.
  intros Hok Hmax. cbv zeta. destruct sdsempty_spec as [[-> ?]|(s & -> & Hs & Ht)];
    cbn [mbind outcome_bind].
  - destruct argv; [by right; left|by left].
  - by apply (join_loop_spec sep s []).
Qed.
End Join.

Section Split.
Context `{AllocLaws}.
Variable s sep : bytes.
Hypothesis sep_nonempty : sep ≠ [].
Hypothesis s_fits : Z.of_nat (length s) <= INT_MAX.

(** The separator occurs at position [p]. *)
Definition sep_at (p : nat) : Prop := ∃ a b, s = a ++ sep ++ b ∧ length a = p.

(** A stretch of [s] without the separator. *)
Definition sep_free (t : bytes) : Prop := ¬ ∃ a b, t = a ++ sep ++ b.

Lemma sep_free_between P t u j :
  s = P ++ t ++ u → (∀ p, (length P <= p < j)%nat → ¬ sep_at p) →
  (length P + length t < j + length sep)%nat → sep_free t.
Proof.
  intros E Hno Hlen (a & b & ->). rewrite !length_app in Hlen. apply (Hno (length (P ++ a))).
  - rewrite length_app. lia.
  - exists (P ++ a), (b ++ u). split; [|done]. rewrite E. by rewrite <- !app_assoc.
Qed.

Lemma join_with_snoc (l : list bytes) x y :
  join_with sep (l ++ [x ++ sep ++ y]) = join_with sep (l ++ [x; y]).
Proof.
  induction l as [|a l IH]; [done|]. cbn [app].
  rewrite !join_with_cons by (by destruct l). by rewrite IH.
Qed.

(** The separator at [j] is what the loop finds there. *)
Lemma sep_here j :
  Z.of_nat j < Z.of_nat (length s) - (Z.of_nat (length sep) - 1) →
  ∃ here, mem_read s (Z.of_nat j) (Z.of_nat (length sep)) = Val here ∧ (here = sep ↔ sep_at j).
Proof.
  intros Hj.
  destruct (split_at s j) as (a & r & E & Ha); [lia|].
  assert (length sep <= length r)%nat as Hr by (rewrite E, length_app in Hj; lia).
  destruct (split_at r (length sep)) as (m & b & -> & Hm); [done|].
  exists m. rewrite E, mem_read_app by lia. split; [done|]. unfold sep_at. split.
  - intros ->. by exists a, b.
  - intros (a' & b' & E' & Ha'). rewrite E in E'. apply app_inj_1 in E' as [_ E']; [|lia].
    apply app_inj_1 in E' as [E' _]; [done|lia].
Qed.

(** What holds at each turn: the tokens found and the rest [R] from [start] on. *)
Definition split_inv (tokens : list sdshdr) (slots : Z) (P R : bytes) (j : nat) : Prop :=
  s = P ++ R ∧ Forall sds_ok tokens ∧ join_with sep (List.map contents tokens ++ [R]) = s ∧
  Forall sep_free (List.map contents tokens) ∧ (length P <= j)%nat ∧
  (∀ p, (length P <= p < j)%nat → ¬ sep_at p) ∧ Z.of_nat (length tokens) + 1 <= slots.

Lemma splitlen_loop_spec k tokens slots P R j :
  split_inv tokens slots P R j → (length s <= k + j)%nat →
  let r := splitlen_loop (S k) s (Z.of_nat (length s)) sep (Z.of_nat (length sep)) tokens slots
             (Z.of_nat (length P)) (Z.of_nat j) in
  (r = Val None ∧ out_of_memory) ∨
  ∃ tokens' slots' P' R' j', r = Val (Some (tokens', slots', Z.of_nat (length P'))) ∧
    split_inv tokens' slots' P' R' j' ∧ (length s < j' + length sep)%nat.
Proof.
  revert tokens slots P R j. induction k as [|k IH]; intros tokens slots P R j Hi Hf r;
    (assert (0 < length sep)%nat by (destruct sep; [done|simpl; lia]));
    unfold r; clear r; [remember 0%nat as k1 eqn:Ek|remember (S k) as k1 eqn:Ek];
    cbn [splitlen_loop];
    (destruct (Z.ltb_spec (Z.of_nat j) (Z.of_nat (length s) - (Z.of_nat (length sep) - 1)))
       as [Hj|Hj]; [|right; exists tokens, slots, P, R, j; split; [done|]; split; [done|lia]]).
  { lia. }
  set (slots' := if slots <? Z.of_nat (length tokens) + 2 then slots * 2 else slots).
  destruct (_ && _) eqn:Hg.
  { left. split; [done|]. apply andb_true_iff in Hg as [_ Hg].
    destruct (malloc (8 * slots')) eqn:Hm.
    2: { exists (8 * slots'). split; [|done]. destruct Hi as (_ & _ & _ & _ & _ & _ & Hsl). unfold slots'. destruct (_ <? _); lia. }
    by rewrite bool_decide_eq_true_2 in Hg. }
  destruct (sep_here j Hj) as (here & -> & Hhere). cbn [mbind outcome_bind].
  pose proof (mem_read_prefix sep [] _ eq_refl) as Hsep. rewrite app_nil_r in Hsep.
  rewrite Hsep. cbn [mbind outcome_bind].
  destruct Hi as (E & Hok & Hjoin & Hfree & HPj & Hno & Hslots).
  assert (Hs' : Z.of_nat (length tokens) + 2 <= slots').
  { unfold slots'. destruct (Z.ltb_spec slots (Z.of_nat (length tokens) + 2)); lia. }
  destruct (bool_decide (here = sep)) eqn:Hb.
  - apply bool_decide_eq_true in Hb. apply Hhere in Hb. destruct Hb as (a & b & Es & Ha).
    assert (∃ t, a = P ++ t ∧ R = t ++ sep ++ b) as (t & Ea & ER).
    { destruct (split_at a (length P)) as (a1 & t & -> & Ha1); [lia|].
      rewrite E, <- app_assoc in Es. apply app_inj_1 in Es as [<- ->]; [|done]. by exists t. }
    subst a R. rewrite length_app in Ha. rewrite Nat2Z.id, E, drop_app_length.
    replace (Z.of_nat j - Z.of_nat (length P)) with (Z.of_nat (length t)) by lia.
    destruct (sdsnewlen_spec t (sep ++ b)) as [[-> ?]|(tok & -> & Htok & Hct)];
      [rewrite E, !length_app in s_fits; lia|by left|]. cbn [mbind outcome_bind].
    unfold push_token. destruct (Z.ltb_spec (Z.of_nat (length tokens)) slots'); [|lia].
    cbn [mbind outcome_bind]. rewrite <- E.
    replace (Z.of_nat j + Z.of_nat (length sep) - 1 + 1)
      with (Z.of_nat (j + length sep)) by lia.
    replace (Z.of_nat j + Z.of_nat (length sep))
      with (Z.of_nat (length (P ++ t ++ sep))) by (rewrite !length_app; lia).
    apply (IH (tokens ++ [tok]) slots' (P ++ t ++ sep) b (j + length sep)%nat); [|lia].
    split; [by rewrite E, <- !app_assoc|].
    split; [by apply Forall_app; auto|].
    split. { rewrite map_app, <- app_assoc. cbn [List.map app]. rewrite Hct.
             by rewrite <- join_with_snoc. }
    split. { rewrite map_app. apply Forall_app. split; [done|]. apply Forall_singleton.
             rewrite Hct. apply (sep_free_between P t (sep ++ b) j); [by rewrite E|done|lia]. }
    rewrite !length_app. cbn [length]. split; [lia|]. split; [|lia]. intros p Hp. lia.
  - apply bool_decide_eq_false in Hb.
    replace (Z.of_nat j + 1) with (Z.of_nat (S j)) by lia.
    apply (IH tokens slots' P R (S j)); [|lia].
    repeat (split; [done || lia|]). split; [|lia].
    intros p Hp. destruct (decide (p = j)) as [->|]; [by rewrite <- Hhere|apply Hno; lia].
Qed.

Lemma sdssplitlen_spec :
  (sdssplitlen s (Z.of_nat (length s)) sep (Z.of_nat (length sep)) = Val None ∧
     out_of_memory) ∨
  ∃ tokens, sdssplitlen s (Z.of_nat (length s)) sep (Z.of_nat (length sep)) = Val (Some tokens) ∧
    Forall sds_ok tokens ∧ join_with sep (List.map contents tokens) = s ∧
    Forall sep_free (List.map contents tokens).
Proof.
  unfold sdssplitlen. assert (0 < length sep)%nat by (destruct sep; [done|simpl; lia]).
  destruct (Z.ltb_spec (Z.of_nat (length sep)) 1); [lia|].
  destruct (Z.ltb_spec (Z.of_nat (length s)) 0); [lia|]. cbn [orb].
  destruct (malloc (8 * 5)) eqn:Hm; [|left; split; [done|exists (8 * 5); by split]].
  destruct (Z.eqb_spec (Z.of_nat (length s)) 0) as [E|E].
  { right. exists []. destruct s; [|simpl in E; lia]. by repeat split. }
  rewrite Nat2Z.id.
  destruct (splitlen_loop_spec (length s) [] 5 [] s 0) as [[Hr ?]|Hr].
  - split; [done|]. split; [done|]. split; [done|]. split; [done|]. simpl.
    split; [lia|]. split; [lia|]. lia.
  - lia.
  - cbn [length] in Hr. change (Z.of_nat 0) with 0 in Hr. rewrite Hr. by left.
  - destruct Hr as (tokens & slots & P & R & j & Hr & Hi & Hj).
    cbn [length] in Hr. change (Z.of_nat 0) with 0 in Hr. rewrite Hr.
    cbn [mbind outcome_bind]. destruct Hi as (Es & Hok & Hjoin & Hfree & HPj & Hno & Hslots).
    rewrite Nat2Z.id. assert (drop (length P) s = R) as -> by (rewrite Es; apply drop_app_length).
    replace (Z.of_nat (length s) - Z.of_nat (length P)) with (Z.of_nat (length R))
      by (rewrite Es, length_app; lia).
    pose proof (sdsnewlen_spec R []) as Hn. rewrite app_nil_r in Hn.
    destruct Hn as [[-> ?]|(tok & -> & Htok & Hct)];
      [rewrite Es, length_app in s_fits; lia|by left|]. cbn [mbind outcome_bind].
    unfold push_token. destruct (Z.ltb_spec (Z.of_nat (length tokens)) slots); [|lia].
    cbn [mbind outcome_bind]. right. exists (tokens ++ [tok]). split; [done|].
    rewrite map_app. cbn [List.map]. rewrite Hct. split; [by apply Forall_app; auto|].
    split; [done|]. apply Forall_app. split; [done|]. apply Forall_singleton.
    apply (sep_free_between P R [] j); [by rewrite app_nil_r|done|].
    rewrite Es, length_app in Hj. lia.
Qed.
End Split.

(** * Sessions

    The operations that keep a string, as data, with what each does to the text it holds. *)

Inductive sds_op :=
| OpCatlen (d : bytes)
| OpCpylen (d : bytes)
| OpGrowzero (len : Z)
| OpRange (start end_ : Z)
| OpTrim (cset : bytes)
| OpClear
| OpToLower
| OpToUpper
| OpCatRepr (d : bytes).

Definition text_op (op : sds_op) (t t' : bytes) : Prop :=
  match op with
  | OpCatlen d => t' = t ++ d
  | OpCpylen d => t' = d
  | OpGrowzero len => t' = t ++ replicate (Z.to_nat len - length t) NUL
  | OpRange start end_ => t' = range_of t start end_
  | OpTrim cset =>
    ∃ x y, t = x ++ t' ++ y ∧ forallb (strchr_b cset) x = true ∧ forallb (strchr_b cset) y = true ∧
      (t' = [] ∨ ∃ c, head t' = Some c ∧ strchr_b cset c = false) ∧
      (t' = [] ∨ ∃ c, last t' = Some c ∧ strchr_b cset c = false)
  | OpClear => t' = []
  | OpToLower => t' = List.map c_tolower t
  | OpToUpper => t' = List.map c_toupper t
  | OpCatRepr d => t' = t ++ repr d
  end.

(** The sizes and indexes are [int]s, with room for what [sdsMakeRoomFor] adds. *)
Definition op_fits (op : sds_op) (t : bytes) : Prop :=
  match op with
  | OpCatlen d | OpCpylen d =>
    Z.of_nat (length t) + Z.of_nat (length d) + SDS_MAX_PREALLOC <= INT_MAX
  | OpGrowzero len => 0 <= len ∧ len + SDS_MAX_PREALLOC <= INT_MAX
  | OpRange start end_ => INT_MIN <= start <= INT_MAX ∧ INT_MIN <= end_ < INT_MAX
  | OpCatRepr d =>
    Z.of_nat (length t) + 4 * Z.of_nat (length d) + 2 + SDS_MAX_PREALLOC <= INT_MAX
  | _ => True
  end.

Definition run_sds_op `{Alloc} (op : sds_op) (s : sdshdr) : outcome (option sdshdr) :=
  match op with
  | OpCatlen d => sdscatlen s d (Z.of_nat (length d))
  | OpCpylen d => sdscpylen s d (Z.of_nat (length d))
  | OpGrowzero len => sdsgrowzero s len
  | OpRange start end_ => s ← sdsrange s start end_; Val (Some s)
  | OpTrim cset => s ← sdstrim s cset; Val (Some s)
  | OpClear => s ← sdsclear s; Val (Some s)
  | OpToLower => s ← sdstolower s; Val (Some s)
  | OpToUpper => s ← sdstoupper s; Val (Some s)
  | OpCatRepr d => sdscatrepr s d (Z.of_nat (length d))
  end.

(** A session on a fresh string; a null pointer ends it at its next use. *)
Fixpoint run_sds_ops `{Alloc} (ops : list sds_op) (s : option sdshdr) : outcome (option sdshdr) :=
  match ops with
  | [] => Val s
  | op :: ops => s ← deref s; s ← run_sds_op op s; run_sds_ops ops s
  end.

Inductive text_ops : list sds_op → bytes → bytes → Prop :=
| text_ops_nil t : text_ops [] t t
| text_ops_cons op ops t t' t'' :
    op_fits op t → text_op op t t' → text_ops ops t' t'' → text_ops (op :: ops) t t''.

(** The sizes fit whatever the texts in between are. *)
Fixpoint ops_fit (ops : list sds_op) (t : bytes) : Prop :=
  match ops with
  | [] => True
  | op :: ops => op_fits op t ∧ ∀ t', text_op op t t' → ops_fit ops t'
  end.

Section Session.
Context `{AllocLaws}.

Lemma sdsgrowzero_spec s t len :
  sds_ok s → contents s = t → 0 <= len → len + SDS_MAX_PREALLOC <= INT_MAX →
  yields (sdsgrowzero s len) (t ++ replicate (Z.to_nat len - length t) NUL).
Proof.
  intros Hs Ht Hlen Hmax. destruct (sds_ok_inv s Hs) as (t' & j & -> & Hc & Hl).
  rewrite Hc in Ht. subst t'. unfold sdsgrowzero. cbn [mk sds_len].
  rewrite u64_nonneg by lia.
  destruct (Z.leb_spec len (Z.of_nat (length t))).
  { replace (Z.to_nat len - length t)%nat with 0%nat by lia. rewrite app_nil_r.
    by apply yields_mk. }
  destruct (sdsMakeRoomFor_mk t j (len - Z.of_nat (length t))) as [[-> ?]|(j' & -> & Hr & Hj)];
    [done|lia|lia|by left|].
  cbn [mbind outcome_bind]. set (n := (Z.to_nat len - length t)%nat).
  replace (Z.to_nat (len - Z.of_nat (length t) + 1)) with (S n) by lia.
  destruct (split_at (NUL :: j') (S n)) as (x & y & E & Hx); [simpl; lia|].
  pose proof (f_equal length E) as El. rewrite length_app in El. cbn [length] in El.
  unfold buf_write, mk. cbn [sds_buf sds_len sds_free]. rewrite E.
  rewrite mem_write_app by (done || by rewrite length_replicate).
  cbn [mbind outcome_bind sds_len sds_free].
  assert (0 <= SDS_MAX_PREALLOC) by (unfold SDS_MAX_PREALLOC; lia).
  rewrite int_arith_ok by (unfold INT_MIN; lia). cbn [mbind outcome_bind].
  unfold set_len_free. cbn [sds_buf].
  rewrite !(i32_small len) by (unfold INT_MIN; lia). rewrite u64_nonneg by lia.
  rewrite i32_small by (unfold INT_MIN; lia).
  replace (t ++ replicate (S n) NUL ++ y) with ((t ++ replicate n NUL) ++ NUL :: y).
  2: { rewrite <- app_assoc. f_equal. rewrite replicate_S_end, <- app_assoc. done. }
  assert (Hn : length (t ++ replicate n NUL) = (length t + n)%nat)
    by (by rewrite length_app, length_replicate).
  replace len with (Z.of_nat (length (t ++ replicate n NUL))) at 1 by lia.
  replace (Z.of_nat (length t) + Z.of_nat (length j') - len) with (Z.of_nat (length y)) by lia.
  apply yields_mk. lia.
Qed.

(** One operation, whatever happens to its allocations. *)
Lemma run_sds_op_spec op s t :
  sds_ok s → contents s = t → op_fits op t →
  ((run_sds_op op s = Val None ∨ run_sds_op op s = Fault NullPointer) ∧ out_of_memory) ∨
  ∃ s', run_sds_op op s = Val (Some s') ∧ sds_ok s' ∧ text_op op t (contents s').
Proof.
  intros Hs Ht Hfit.
  assert (Hy : ∀ o text, yields o text → text_op op t text →
    ((o = Val None ∨ o = Fault NullPointer) ∧ out_of_memory) ∨
    ∃ s', o = Val (Some s') ∧ sds_ok s' ∧ text_op op t (contents s')).
  { intros o text [[-> ?]|(s' & -> & ? & <-)] Hop; [left; auto|right; by exists s']. }
  assert (Hlow : ∀ f, op_fits op t → ∃ s', map_loop f s 0 (Z.to_nat (i32 (sdslen s))) = Val s' ∧
                 sds_ok s' ∧ contents s' = List.map f t).
  { intros f _. destruct (map_all_spec f s t Hs Ht) as (s' & Hm & ?). exists s'.
    destruct (sds_ok_inv s Hs) as (t' & j & -> & Hc & Hl). rewrite Hc in Ht. subst t'.
    rewrite sdslen_mk by lia. rewrite i32_small by (unfold INT_MIN; lia). by rewrite Nat2Z.id. }
  destruct op; cbn [run_sds_op op_fits] in *.
  - eapply Hy; [apply sdscatlen_all; [done|done|done|lia]|done].
  - pose proof (sdscpylen_spec s d [] Hs) as Hcp. rewrite app_nil_r in Hcp.
    eapply Hy; [apply Hcp|done].
    destruct (sds_ok_inv s Hs) as (t' & j & -> & Hc & Hl). rewrite Hc in Ht. by subst t'.
  - destruct Hfit. eapply Hy; [by apply sdsgrowzero_spec|done].
  - right. destruct Hfit. destruct (sdsrange_spec s t start end_) as (s' & -> & ? & ?); [done..|].
    by exists s'.
  - right. destruct (sdstrim_spec cset s t Hs Ht) as (x & b & y & s' & ? & ? & ? & ? & ? & -> & ? & <-).
    exists s'. split; [done|]. split; [done|]. by exists x, y.
  - right. destruct (sdsclear_spec s Hs) as (s' & -> & ? & ?). by exists s'.
  - right. unfold sdstolower. destruct (Hlow c_tolower I) as (s' & -> & ? & ?). by exists s'.
  - right. unfold sdstoupper. destruct (Hlow c_toupper I) as (s' & -> & ? & ?). by exists s'.
  - pose proof (sdscatrepr_spec s t d [] Hs Ht ltac:(lia)) as Hr. rewrite app_nil_r in Hr.
    destruct Hr as [[-> ?]|Hr]; [left; auto|]. by eapply Hy.
Qed.
End Session.

(** * Properties *)


(** An allocator with fresh blocks of letters. *)
Definition alloc_ref : Alloc :=
  {| malloc n := if n <? 0 then None else Some (replicate (Z.to_nat n) "J"%char) |}.

Lemma alloc_ref_laws : @AllocLaws alloc_ref.
Proof.
  split. intros n b. cbn [malloc alloc_ref]. destruct (Z.ltb_spec n 0); [done|].
  intros [= <-]. rewrite length_replicate. lia.
Qed.

Definition session_example : list sds_op :=
  [OpCatlen (lit "  hello "); OpTrim (lit " "); OpRange 1 (-2)].


(** [sdssplitlen] splits a string at a separator of any length into well-formed tokens: none
    contains the separator and joined by it they give the string back; the null pointer means
    that an allocation failed. *)
Theorem sdssplitlen_correct `{AllocLaws} s sep :
  sep ≠ [] → Z.of_nat (length s) <= INT_MAX →
  let r := sdssplitlen s (Z.of_nat (length s)) sep (Z.of_nat (length sep)) in
  (r = Val None ∧ out_of_memory) ∨
  ∃ tokens, r = Val (Some tokens) ∧ Forall sds_ok tokens ∧
    join_with sep (List.map contents tokens) = s ∧
    Forall (sep_free sep) (List.map contents tokens).
Proof. intros Hsep Hs. by apply sdssplitlen_spec. Qed.

Lemma sdssplitlen_correct_witness :
  ∃ tokens, @sdssplitlen alloc_ref (lit "foo_-_bar") 9 (lit "_-_") 3 = Val (Some tokens) ∧
    Forall sds_ok tokens ∧ List.map contents tokens = [lit "foo"; lit "bar"].
Proof.
  destruct (@sdssplitlen_correct alloc_ref alloc_ref_laws (lit "foo_-_bar") (lit "_-_"))
    as [[Hr _]|(tokens & Hr & Hok & _)]; [done|by vm_compute|by vm_compute in Hr|].
  exists tokens. split; [done|]. split; [done|].
  vm_compute in Hr. injection Hr as <-. by vm_compute.
Defined.

(** [sdscatfmt] appends exactly the text its format stands for, for every format whose
    conversions find arguments of their types within range; a null dereference means that an
    allocation failed. *)
Theorem sdscatfmt_correct `{AllocLaws} s t fmt ap text :
  sds_ok s → contents s = t → fmt_text (c_str fmt) ap = Some text → Forall fmt_val_ok ap →
  Z.of_nat (length t) + Z.of_nat (length text) + 1 + SDS_MAX_PREALLOC <= INT_MAX →
  (sdscatfmt s fmt ap = Fault NullPointer ∧ out_of_memory) ∨
  ∃ s', sdscatfmt s fmt ap = Val s' ∧ sds_ok s' ∧ contents s' = t ++ text.
Proof. apply sdscatfmt_spec. Qed.

Lemma sdscatfmt_correct_witness :
  ∃ s', @sdscatfmt alloc_ref (mk (lit "a") []) (lit "%s=%i%%") [FmtStr (lit "x"); FmtInt (-42)] =
        Val s' ∧ sds_ok s' ∧ contents s' = lit "ax=-42%".
Proof.
  destruct (@sdscatfmt_correct alloc_ref alloc_ref_laws (mk (lit "a") []) (lit "a") (lit "%s=%i%%")
    [FmtStr (lit "x"); FmtInt (-42)] (lit "x=-42%")) as [[Hr _]|(s' & Hr & Hs & Hc)].
  - apply sds_ok_mk. by vm_compute.
  - by vm_compute.
  - by vm_compute.
  - repeat constructor; by vm_compute.
  - by vm_compute.
  - by vm_compute in Hr.
  - exists s'. split; [exact Hr|]. split; [exact Hs|exact Hc].
Defined.

(** [sdsll2str] and [sdsfromlonglong] print every [long long] but the least one in decimal,
    within the caller's 21 bytes; for the least one the code negates a value whose negation is
    not a [long long]. *)
Theorem sdsll2str_range `{AllocLaws} value :
  LLONG_MIN <= value <= LLONG_MAX →
  if value =? LLONG_MIN
  then sdsll2str value = Fault SignedOverflow ∧ sdsfromlonglong value = Fault SignedOverflow
  else sdsll2str value = Val (dec_int value) ∧ yields (sdsfromlonglong value) (dec_int value).
Proof.
  intros Hv. destruct (Z.eqb_spec value LLONG_MIN) as [->|Hne]; [done|].
  split; [apply sdsll2str_spec; lia|apply sdsfromlonglong_spec; lia].
Qed.

Lemma sdsll2str_range_witness :
  sdsll2str (-9223372036854775807) = Val (lit "-9223372036854775807") ∧
  sdsll2str LLONG_MIN = Fault SignedOverflow.
Proof.
  split.
  - destruct (@sdsll2str_range alloc_ref alloc_ref_laws (-9223372036854775807)) as [Hr _].
    + by vm_compute.
    + rewrite Hr. by vm_compute.
  - apply (@sdsll2str_range alloc_ref alloc_ref_laws LLONG_MIN). by vm_compute.
Defined.
