(* ===== verification/Hiredis.v ===== *)
(** Commands at the protocol level: the formatting functions of
    [third-party/redis/deps/hiredis/hiredis.c]. *)
From Stdlib Require Import Ascii String ZArith Lia.
From stdpp Require Import base list.
From S2P Require Import Prelude Common SdsArgs Sds SdsProps.
Local Open Scope Z_scope.

Definition crlf : bytes := [chr_cr; chr_nl].

(** * The protocol *)

(** What the Redis protocol prescribes for a command: an array of bulk strings. *)
Definition resp_bulk (a : bytes) : bytes :=
  lit "$" ++ dec_nat (Z.of_nat (length a)) ++ crlf ++ a ++ crlf.
Definition resp_command (args : list bytes) : bytes :=
  lit "*" ++ dec_nat (Z.of_nat (length args)) ++ crlf ++ List.concat (List.map resp_bulk args).

(** * Lengths *)

(** [countDigits]: four digits per turn, so 6 turns for a [uint64_t]. *)
Fixpoint countDigits_loop (fuel : nat) (v result : Z) : outcome Z :=
  match fuel with
  | O => Fault OutOfFuel
  | S fuel =>
    if v <? 10 then Val result
    else if v <? 100 then Val (u32 (result + 1))
    else if v <? 1000 then Val (u32 (result + 2))
    else if v <? 10000 then Val (u32 (result + 3))
    else countDigits_loop fuel (v / 10000) (u32 (result + 4))
  end.

Definition countDigits (v : Z) : outcome Z := countDigits_loop 6 v 1.

Definition bulklen (len : Z) : outcome Z :=
  d ← countDigits len; Val (u64 (1 + d + 2 + len + 2)).

(** [argvlen ? argvlen[j] : strlen(argv[j])], with [argv[j]] *)
Definition command_arg (argv : list bytes) (argvlen : option (list Z)) (j : nat)
    : outcome (bytes * Z) :=
  a ← from_option_fault OutOfBounds (argv !! j);
  match argvlen with
  | Some l => n ← from_option_fault OutOfBounds (l !! j); Val (a, n)
  | None => Val (a, strlen a)
  end.

(** The first [for] loop, [n] turns from [j]; [add] is the addition of the total's type. *)
Fixpoint total_loop (add : Z → Z → outcome Z) (argv : list bytes) (argvlen : option (list Z))
    (j n : nat) (totlen : Z) : outcome Z :=
  match n with
  | O => Val totlen
  | S n =>
    '(_, len) ← command_arg argv argvlen j;
    b ← bulklen len;
    totlen ← add totlen b;
    total_loop add argv argvlen (S j) n totlen
  end.

(** * [redisFormatSdsCommandArgv] *)

Section SdsCommand.
Context `{Alloc}.

(** The second loop. *)
Fixpoint sds_command_loop (cmd : sdshdr) (argv : list bytes) (argvlen : option (list Z))
    (j n : nat) : outcome sdshdr :=
  match n with
  | O => Val cmd
  | S n =>
    '(a, len) ← command_arg argv argvlen j;
    cmd ← sdscatfmt cmd (lit "$%T" ++ crlf) [FmtSize len];
    o ← sdscatlen cmd a len;
    cmd ← deref o;
    o ← sdscatlen cmd crlf 2;
    cmd ← deref o;
    sds_command_loop cmd argv argvlen (S j) n
  end.

(** The command and the value returned; [None] is for [-1]. *)
Definition redisFormatSdsCommandArgv (argc : Z) (argv : list bytes) (argvlen : option (list Z))
    : outcome (option (sdshdr * Z)) :=
  d ← countDigits (u64 argc);
  totlen ← total_loop (λ t b, Val (u64 (t + b))) argv argvlen 0 (Z.to_nat argc) (1 + d + 2);
  o ← sdsempty;
  match o with
  | None => Val None
  | Some cmd =>
    o ← sdsMakeRoomFor cmd totlen;
    match o with
    | None => Val None
    | Some cmd =>
      cmd ← sdscatfmt cmd (lit "*%i" ++ crlf) [FmtInt argc];
      cmd ← sds_command_loop cmd argv argvlen 0 (Z.to_nat argc);
      if sdslen cmd =? totlen then Val (Some (cmd, i32 totlen)) else Fault CheckFailed
    end
  end.

(** * [redisFormatCommandArgv] *)

(** [pos += sprintf(cmd+pos, ...)] with the formatted text. *)
Definition sprintf_at (cmd : bytes) (pos : Z) (text : bytes) : outcome (bytes * Z) :=
  cmd ← mem_write cmd pos (text ++ [NUL]); Val (cmd, pos + Z.of_nat (length text)).

Fixpoint argv_command_loop (cmd : bytes) (pos : Z) (argv : list bytes)
    (argvlen : option (list Z)) (j n : nat) : outcome (bytes * Z) :=
  match n with
  | O => Val (cmd, pos)
  | S n =>
    '(a, len) ← command_arg argv argvlen j;
    '(cmd, pos) ← sprintf_at cmd pos (lit "$" ++ dec_nat len ++ crlf);
    data ← mem_read a 0 len;
    cmd ← mem_write cmd pos data;
    pos ← int_arith (pos + len);
    cmd ← mem_write cmd pos [chr_cr];
    cmd ← mem_write cmd (pos + 1) [chr_nl];
    argv_command_loop cmd (pos + 2) argv argvlen (S j) n
  end.

Definition redisFormatCommandArgv (argc : Z) (argv : list bytes) (argvlen : option (list Z))
    : outcome (option (bytes * Z)) :=
  d ← countDigits (u64 argc);
  totlen ← total_loop (λ t b, Val (i32 (u64 (t + b)))) argv argvlen 0 (Z.to_nat argc) (1 + d + 2);
  match malloc (u64 (totlen + 1)) with
  | None => Val None
  | Some cmd =>
    '(cmd, pos) ← sprintf_at cmd 0 (lit "*" ++ dec_int argc ++ crlf);
    '(cmd, pos) ← argv_command_loop cmd pos argv argvlen 0 (Z.to_nat argc);
    if pos =? totlen then cmd ← mem_write cmd pos [NUL]; Val (Some (cmd, totlen))
    else Fault CheckFailed
  end.
End SdsCommand.

(** * Lemmas *)

Lemma dec_digits_step k n acc :
  dec_digits (S k) n acc =
  if n / 10 =? 0 then digit (n mod 10) :: acc else dec_digits k (n / 10) (digit (n mod 10) :: acc).
Proof. done. Qed.

(** The number of digits does not depend on the fuel. *)
Fixpoint digits_count (k : nat) (n : Z) : Z :=
  match k with
  | O => 0
  | S k => if n / 10 =? 0 then 1 else 1 + digits_count k (n / 10)
  end.

Lemma dec_digits_count k n acc :
  Z.of_nat (length (dec_digits k n acc)) = digits_count k n + Z.of_nat (length acc).
Proof.
  revert n acc. induction k as [|k IH]; intros n acc; [done|].
  rewrite dec_digits_step. cbn [digits_count].
  destruct (n / 10 =? 0); [cbn [length]; lia|]. rewrite IH. cbn [length]. lia.
Qed.

Lemma digits_count_small k n : 0 <= n < 10 → digits_count (S k) n = 1.
Proof. intros Hn. cbn [digits_count]. by rewrite Z.div_small. Qed.

Lemma digits_count_big k n : 10 <= n → digits_count (S k) n = 1 + digits_count k (n / 10).
Proof.
  intros Hn. cbn [digits_count]. destruct (Z.eqb_spec (n / 10) 0) as [E|]; [|done].
  apply Z.div_small_iff in E; lia.
Qed.

Lemma countDigits_loop_spec fuel v result :
  0 <= v < 10000 ^ Z.of_nat fuel → 0 <= result → result + 4 * Z.of_nat fuel < 2 ^ 32 →
  fuel ≠ 0%nat →
  countDigits_loop fuel v result = Val (result - 1 + digits_count (4 * fuel) v).
Proof.
  revert v result. induction fuel as [|fuel IH]; intros v result Hv Hr Hmax Hf; [done|].
  replace (4 * S fuel)%nat with (S (S (S (S (4 * fuel))))) by lia. cbn [countDigits_loop].
  destruct (Z.ltb_spec v 10).
  { rewrite digits_count_small by lia. f_equal. lia. }
  rewrite digits_count_big by lia.
  destruct (Z.ltb_spec v 100).
  { rewrite digits_count_small, u32_small by (Z.to_euclidean_division_equations; lia). f_equal. lia. }
  rewrite digits_count_big by (Z.to_euclidean_division_equations; lia).
  destruct (Z.ltb_spec v 1000).
  { rewrite digits_count_small, u32_small by (Z.to_euclidean_division_equations; lia). f_equal. lia. }
  rewrite digits_count_big by (Z.to_euclidean_division_equations; lia).
  destruct (Z.ltb_spec v 10000).
  { rewrite digits_count_small, u32_small by (Z.to_euclidean_division_equations; lia). f_equal. lia. }
  rewrite digits_count_big by (Z.to_euclidean_division_equations; lia).
  rewrite Nat2Z.inj_succ, Z.pow_succ_r in Hv by lia. destruct fuel as [|fuel].
  { change (10000 ^ Z.of_nat 0) with 1 in Hv. lia. }
  rewrite !Z.div_div by lia.
  rewrite u32_small by lia.
  rewrite IH; [|split; [apply Z.div_pos; lia|apply Z.div_lt_upper_bound; lia]|lia|lia|done].
  change (10 * (10 * (10 * 10))) with 10000. f_equal. lia.
Qed.

Lemma digits_count_enough k n : 0 <= n < 10 ^ Z.of_nat k → k ≠ 0%nat →
  digits_count (S k) n = digits_count k n.
Proof.
  revert n. induction k as [|k IH]; intros n Hn Hk; [done|].
  cbn [digits_count]. destruct (Z.eqb_spec (n / 10) 0) as [|Hne]; [done|].
  rewrite Nat2Z.inj_succ, Z.pow_succ_r in Hn by lia. destruct k as [|k].
  { change (10 ^ Z.of_nat 0) with 1 in Hn. rewrite Z.div_small in Hne by lia. done. }
  f_equal. apply IH; [|done]. split; [apply Z.div_pos; lia|apply Z.div_lt_upper_bound; lia].
Qed.

Lemma countDigits_spec v :
  0 <= v < 2 ^ 64 → countDigits v = Val (Z.of_nat (length (dec_nat v))).
Proof.
  intros Hv. unfold countDigits. rewrite countDigits_loop_spec by (done || lia). f_equal.
  unfold dec_nat. rewrite dec_digits_count. change (4 * 6)%nat with 24%nat.
  rewrite (digits_count_enough 23), (digits_count_enough 22), (digits_count_enough 21),
    (digits_count_enough 20) by (done || lia).
  cbn [length]. lia.
Qed.

Lemma bulklen_spec a :
  Z.of_nat (length a) <= INT_MAX →
  bulklen (Z.of_nat (length a)) = Val (Z.of_nat (length (resp_bulk a))).
Proof.
  unfold INT_MAX. intros Ha. unfold bulklen. rewrite countDigits_spec by lia.
  cbn [mbind outcome_bind]. f_equal. unfold resp_bulk. rewrite !length_app. cbn [length lit].
  pose proof (dec_nat_length (Z.of_nat (length a))).
  rewrite u64_small by lia. simpl. lia.
Qed.

(** The arguments that [argv] and [argvlen] describe. *)
Definition args_at (argv : list bytes) (argvlen : option (list Z)) (args : list bytes) : Prop :=
  ∀ j a, args !! j = Some a →
    ∃ u, command_arg argv argvlen j = Val (a ++ u, Z.of_nat (length a)).

Lemma args_at_lengths args : args_at args (Some (List.map (λ a, Z.of_nat (length a)) args)) args.
Proof.
  intros j a Ha. exists []. unfold command_arg. rewrite app_nil_r, Ha. cbn [from_option_fault].
  cbn [mbind outcome_bind]. rewrite (list_lookup_fmap _ args j : List.map _ args !! j = _), Ha. done.
Qed.

Lemma args_at_strlen args : Forall no_nul args → args_at args None args.
Proof.
  intros Hn j a Ha. exists []. unfold command_arg. rewrite app_nil_r, Ha.
  cbn [from_option_fault mbind outcome_bind]. unfold strlen. rewrite c_str_no_nul; [done|].
  rewrite Forall_forall in Hn. apply Hn. by eapply list_elem_of_lookup_2.
Qed.

Lemma resp_bulks_length_app l1 l2 :
  length (List.concat (List.map resp_bulk (l1 ++ l2))) =
  (length (List.concat (List.map resp_bulk l1)) + length (List.concat (List.map resp_bulk l2)))%nat.
Proof. by rewrite map_app, concat_app, length_app. Qed.

Lemma resp_bulk_len a :
  length (resp_bulk a) = (1 + length (dec_nat (Z.of_nat (length a))) + 2 + length a + 2)%nat.
Proof. unfold resp_bulk. rewrite !length_app. simpl. lia. Qed.

Lemma resp_bulk_length a : (length a < length (resp_bulk a))%nat.
Proof. rewrite resp_bulk_len. lia. Qed.

Section CommandLemmas.
Variable argv : list bytes.
Variable argvlen : option (list Z).

(** [add] adds while the sum is an [int]. *)
Lemma total_loop_spec add pre suf tot :
  (∀ x y, 0 <= x → 0 <= y → x + y <= INT_MAX → add x y = Val (x + y)) →
  args_at argv argvlen (pre ++ suf) → 0 <= tot →
  tot + Z.of_nat (length (List.concat (List.map resp_bulk suf))) <= INT_MAX →
  total_loop add argv argvlen (length pre) (length suf) tot =
  Val (tot + Z.of_nat (length (List.concat (List.map resp_bulk suf)))).
Proof.
  intros Hadd. revert pre tot. induction suf as [|a suf IH]; intros pre tot Hat H0 Hmax.
  { simpl. f_equal. lia. }
  cbn [length total_loop].
  destruct (Hat (length pre) a) as [u ->]; [by apply list_lookup_middle|].
  cbn [mbind outcome_bind List.map List.concat] in *. rewrite length_app in *.
  pose proof (resp_bulk_length a).
  rewrite bulklen_spec by lia. cbn [mbind outcome_bind]. rewrite Hadd by lia.
  cbn [mbind outcome_bind].
  replace (S (length pre)) with (length (pre ++ [a])) by (rewrite length_app; simpl; lia).
  rewrite IH; [f_equal; lia|by rewrite <- app_assoc|lia|lia].
Qed.

Section Memory.
Context `{AllocLaws}.

(** What a formatting step may do. *)
Definition crash_or (o : outcome sdshdr) (text : bytes) : Prop :=
  (o = Fault NullPointer ∧ out_of_memory) ∨
  ∃ s, o = Val s ∧ sds_ok s ∧ contents s = text.

Lemma sds_command_loop_spec pre suf s t :
  args_at argv argvlen (pre ++ suf) → sds_ok s → contents s = t →
  Z.of_nat (length t) + Z.of_nat (length (List.concat (List.map resp_bulk suf))) + 1
    + SDS_MAX_PREALLOC <= INT_MAX →
  crash_or (sds_command_loop s argv argvlen (length pre) (length suf))
    (t ++ List.concat (List.map resp_bulk suf)).
Proof.
  revert pre s t. induction suf as [|a suf IH]; intros pre s t Hat Hs Ht Hmax.
  { right. exists s. simpl. by rewrite app_nil_r. }
  cbn [length sds_command_loop].
  destruct (Hat (length pre) a) as [u ->]; [by apply list_lookup_middle|].
  cbn [mbind outcome_bind List.map List.concat] in *. rewrite length_app in Hmax.
  rewrite resp_bulk_len in Hmax. assert (Hc : length crlf = 2%nat) by done.
  assert (Hd : length (lit "$") = 1%nat) by done.
  assert (0 <= SDS_MAX_PREALLOC) by (unfold SDS_MAX_PREALLOC; lia).
  destruct (sdscatfmt_spec s t (lit "$%T" ++ crlf) [FmtSize (Z.of_nat (length a))]
    (lit "$" ++ dec_nat (Z.of_nat (length a)) ++ crlf) Hs Ht) as [[-> ?]|(s1 & -> & Hs1 & Ht1)].
  { done. }
  { constructor; [|constructor]. unfold fmt_val_ok, INT_MAX in *. lia. }
  { rewrite !length_app. lia. }
  { by left. }
  cbn [mbind outcome_bind].
  destruct (sdscatlen_spec s1 _ a u Hs1 Ht1) as [[-> ?]|(s2 & -> & Hs2 & Ht2)].
  { rewrite !length_app. lia. }
  { by left. }
  cbn [mbind outcome_bind deref from_option_fault].
  destruct (sdscatlen_all s2 _ crlf 2 Hs2 Ht2) as [[-> ?]|(s3 & -> & Hs3 & Ht3)].
  { done. }
  { rewrite !length_app. lia. }
  { by left. }
  cbn [mbind outcome_bind deref from_option_fault].
  replace (S (length pre)) with (length (pre ++ [a])) by (rewrite length_app; simpl; lia).
  replace (t ++ resp_bulk a ++ List.concat (List.map resp_bulk suf)) with
    ((((t ++ lit "$" ++ dec_nat (Z.of_nat (length a)) ++ crlf) ++ a) ++ crlf) ++
     List.concat (List.map resp_bulk suf)) by (unfold resp_bulk; by rewrite <- !app_assoc).
  apply IH; [by rewrite <- app_assoc|done|done|]. rewrite !length_app. lia.
Qed.

Lemma dec_int_nonneg n : 0 <= n → dec_int n = dec_nat n.
Proof. intros Hn. unfold dec_int. destruct (Z.ltb_spec n 0); [lia|done]. Qed.

Lemma resp_command_length args :
  Z.of_nat (length (resp_command args)) =
  1 + Z.of_nat (length (dec_nat (Z.of_nat (length args)))) + 2 +
  Z.of_nat (length (List.concat (List.map resp_bulk args))).
Proof. unfold resp_command. rewrite !length_app. simpl length. lia. Qed.

Lemma args_length args : (length args <= length (List.concat (List.map resp_bulk args)))%nat.
Proof.
  induction args as [|a args IH]; simpl; [lia|]. rewrite length_app.
  pose proof (resp_bulk_length a). lia.
Qed.

Lemma redisFormatSdsCommandArgv_spec args :
  args_at argv argvlen args →
  Z.of_nat (length (resp_command args)) + 1 + SDS_MAX_PREALLOC <= INT_MAX →
  let r := redisFormatSdsCommandArgv (Z.of_nat (length args)) argv argvlen in
  ((r = Val None ∨ r = Fault NullPointer) ∧ out_of_memory) ∨
  ∃ s, r = Val (Some (s, Z.of_nat (length (resp_command args)))) ∧ sds_ok s ∧
       contents s = resp_command args.
Proof.
  intros Hat Hmax. rewrite resp_command_length in *. pose proof (args_length args).
  assert (0 <= SDS_MAX_PREALLOC) by (unfold SDS_MAX_PREALLOC; lia).
  pose proof (dec_nat_length (Z.of_nat (length args))).
  cbv zeta. unfold redisFormatSdsCommandArgv. rewrite u64_nonneg by lia.
  rewrite countDigits_spec by (unfold INT_MAX in *; lia). cbn [mbind outcome_bind].
  rewrite Nat2Z.id.
  rewrite (total_loop_spec _ [] args); [|intros; by rewrite u64_nonneg by lia|done|lia|lia].
  cbn [mbind outcome_bind]. 
  set (tot := 1 + Z.of_nat (length (dec_nat (Z.of_nat (length args)))) + 2 +
              Z.of_nat (length (List.concat (List.map resp_bulk args)))) in *.
  destruct sdsempty_spec as [[-> ?]|(s0 & -> & Hs0 & Ht0)]; [by left; auto|].
  cbn [mbind outcome_bind].
  destruct (sds_ok_inv s0 Hs0) as (t & j & -> & Hc & Hl). rewrite Hc in Ht0. subst t.
  destruct (sdsMakeRoomFor_mk [] j tot) as [[-> ?]|(j' & -> & Hr & Hj)];
    [done|lia|simpl; lia|by left; auto|].
  cbn [mbind outcome_bind].
  destruct (sdscatfmt_spec (mk [] j') [] (lit "*%i" ++ crlf) [FmtInt (Z.of_nat (length args))]
    (lit "*" ++ dec_int (Z.of_nat (length args)) ++ crlf)) as [[-> ?]|(s1 & -> & Hs1 & Ht1)].
  { by apply sds_ok_mk. }
  { apply contents_mk. }
  { done. }
  { constructor; [|constructor]. unfold fmt_val_ok, INT_MIN. lia. }
  { rewrite dec_int_nonneg, !length_app by lia. simpl length. lia. }
  { by left; auto. }
  cbn [mbind outcome_bind app] in *. rewrite dec_int_nonneg in Ht1 by lia.
  destruct (sds_command_loop_spec [] args s1 _ Hat Hs1 Ht1) as [[Hloop ?]|(s & Hloop & Hs & Ht)];
    [rewrite !length_app; simpl length; lia| |]; cbn [length] in Hloop; rewrite Hloop.
  { by left; auto. }
  cbn [mbind outcome_bind]. destruct (sds_ok_inv s Hs) as (t & k & -> & Hct & Hlt).
  rewrite Hct in Ht. rewrite sdslen_mk by lia.
  assert (Et : t = resp_command args) by (rewrite Ht; unfold resp_command; by rewrite <- !app_assoc).
  assert (Htot : Z.of_nat (length t) = tot) by (rewrite Et, resp_command_length; done).
  rewrite Htot. rewrite Z.eqb_refl. right. exists (mk t k).
  rewrite i32_small by (unfold INT_MIN; lia). rewrite Hct. split; [done|]. split; [exact Hs|exact Et].
Qed.

(** Writing right behind what has been written. *)
Lemma mem_write_next P R d :
  (length d <= length R)%nat →
  ∃ R', mem_write (P ++ R) (Z.of_nat (length P)) d = Val ((P ++ d) ++ R') ∧
        (length d + length R' = length R)%nat.
Proof.
  intros Hd. destruct (split_at R (length d)) as (x & y & -> & Hx); [done|].
  exists y. rewrite mem_write_app by done. rewrite app_assoc, length_app. split; [done|lia].
Qed.

Lemma sprintf_next P R text :
  (length text < length R)%nat →
  ∃ R', sprintf_at (P ++ R) (Z.of_nat (length P)) text =
          Val ((P ++ text) ++ R', Z.of_nat (length (P ++ text))) ∧
        (length text + length R' = length R)%nat.
Proof.
  intros Ht. unfold sprintf_at.
  destruct (mem_write_next P R (text ++ [NUL])) as (R' & -> & HR);
    [rewrite length_app; simpl; lia|].
  exists (NUL :: R'). rewrite length_app in HR |- *. cbn [length] in *.
  cbn [mbind outcome_bind]. split; [|lia]. rewrite <- !app_assoc. cbn [app]. do 2 f_equal. lia.
Qed.

Lemma argv_command_loop_spec pre suf P R :
  args_at argv argvlen (pre ++ suf) →
  Z.of_nat (length P) + Z.of_nat (length (List.concat (List.map resp_bulk suf))) <= INT_MAX →
  (length (List.concat (List.map resp_bulk suf)) < length R)%nat →
  ∃ R', argv_command_loop (P ++ R) (Z.of_nat (length P)) argv argvlen (length pre) (length suf) =
          Val ((P ++ List.concat (List.map resp_bulk suf)) ++ R',
               Z.of_nat (length (P ++ List.concat (List.map resp_bulk suf)))) ∧
        (length (List.concat (List.map resp_bulk suf)) + length R' = length R)%nat.
Proof.
  revert pre P R. induction suf as [|a suf IH]; intros pre P R Hat Hmax HR.
  { exists R. simpl. rewrite app_nil_r. split; [done|lia]. }
  cbn [length argv_command_loop].
  destruct (Hat (length pre) a) as [u ->]; [by apply list_lookup_middle|].
  cbn [mbind outcome_bind List.map List.concat] in *. rewrite length_app in *.
  pose proof (resp_bulk_len a) as Hb.
  set (hd := lit "$" ++ dec_nat (Z.of_nat (length a)) ++ crlf).
  assert (Hhd : length hd = (1 + length (dec_nat (Z.of_nat (length a))) + 2)%nat)
    by (unfold hd; rewrite !length_app; simpl; lia).
  destruct (sprintf_next P R hd) as (R1 & -> & HR1); [lia|].
  cbn [mbind outcome_bind]. rewrite mem_read_prefix by done. cbn [mbind outcome_bind].
  destruct (mem_write_next (P ++ hd) R1 a) as (R2 & -> & HR2); [lia|].
  cbn [mbind outcome_bind].
  rewrite int_arith_ok by (rewrite length_app; unfold INT_MIN; lia). cbn [mbind outcome_bind].
  replace (Z.of_nat (length (P ++ hd)) + Z.of_nat (length a))
    with (Z.of_nat (length ((P ++ hd) ++ a))) by (rewrite !length_app; lia).
  destruct (mem_write_next ((P ++ hd) ++ a) R2 [chr_cr]) as (R3 & -> & HR3); [simpl; lia|].
  cbn [mbind outcome_bind].
  replace (Z.of_nat (length ((P ++ hd) ++ a)) + 1)
    with (Z.of_nat (length (((P ++ hd) ++ a) ++ [chr_cr]))) by (rewrite !length_app; simpl; lia).
  cbn [length] in HR3.
  destruct (mem_write_next (((P ++ hd) ++ a) ++ [chr_cr]) R3 [chr_nl]) as (R4 & -> & HR4);
    [simpl; lia|]. cbn [mbind outcome_bind length] in *.
  assert (EP : (((P ++ hd) ++ a) ++ [chr_cr]) ++ [chr_nl] = P ++ resp_bulk a).
  { unfold resp_bulk, hd. rewrite <- !app_assoc. done. }
  rewrite EP.
  replace (Z.of_nat (length ((P ++ hd) ++ a)) + 2) with (Z.of_nat (length (P ++ resp_bulk a)))
    by (rewrite <- EP, !length_app; simpl; lia).
  replace (S (length pre)) with (length (pre ++ [a])) by (rewrite length_app; simpl; lia).
  destruct (IH (pre ++ [a]) (P ++ resp_bulk a) R4) as (R' & -> & HR').
  { by rewrite <- app_assoc. }
  { rewrite length_app. lia. }
  { lia. }
  exists R'. rewrite <- !app_assoc, !length_app. split; [done|lia].
Qed.

(** A block of exactly the length of the command and its terminator is filled with them. *)
Lemma command_written {X} (g : bytes → outcome X) args cmd :
  args_at argv argvlen args → Z.of_nat (length (resp_command args)) <= INT_MAX →
  length cmd = S (length (resp_command args)) →
  ('(cmd, pos) ← sprintf_at cmd 0 (lit "*" ++ dec_int (Z.of_nat (length args)) ++ crlf);
   '(cmd, pos) ← argv_command_loop cmd pos argv argvlen 0 (length args);
   if pos =? Z.of_nat (length (resp_command args)) then cmd ← mem_write cmd pos [NUL]; g cmd
   else Fault CheckFailed)
  = g (resp_command args ++ [NUL]).
Proof.
  intros Hat Hmax Hm. pose proof (resp_command_length args) as Hlen. rewrite dec_int_nonneg by lia.
  set (hd := lit "*" ++ dec_nat (Z.of_nat (length args)) ++ crlf).
  assert (Hhd : length hd = (1 + length (dec_nat (Z.of_nat (length args))) + 2)%nat)
    by (unfold hd; rewrite !length_app; simpl; lia).
  destruct (sprintf_next [] cmd hd) as (R1 & Hs & HR1); [lia|].
  cbn [app length] in Hs. change (Z.of_nat 0) with 0 in Hs. rewrite Hs. clear Hs.
  cbn [mbind outcome_bind].
  destruct (argv_command_loop_spec [] args hd R1 Hat) as (R2 & Hloop & HR2); [lia|lia|].
  cbn [length] in Hloop. rewrite Hloop. cbn [mbind outcome_bind].
  assert (Ec : hd ++ List.concat (List.map resp_bulk args) = resp_command args)
    by (unfold hd, resp_command; by rewrite <- !app_assoc).
  rewrite Ec, Z.eqb_refl.
  assert (length R2 = 1)%nat as HR by lia. destruct R2 as [|x [|? ?]]; simpl in HR; try lia.
  by rewrite (mem_write_app (resp_command args) [x] [] [NUL]) by done.
Qed.

Lemma redisFormatCommandArgv_spec args :
  args_at argv argvlen args → Z.of_nat (length (resp_command args)) <= INT_MAX →
  let r := redisFormatCommandArgv (Z.of_nat (length args)) argv argvlen in
  (r = Val None ∧ out_of_memory) ∨
  r = Val (Some (resp_command args ++ [NUL], Z.of_nat (length (resp_command args)))).
Proof.
  intros Hat Hmax. cbv zeta. pose proof (args_length args).
  pose proof (resp_command_length args) as Hlen.
  pose proof (dec_nat_length (Z.of_nat (length args))).
  unfold redisFormatCommandArgv. rewrite u64_nonneg by lia.
  rewrite countDigits_spec by (unfold INT_MAX in *; lia). cbn [mbind outcome_bind].
  rewrite Nat2Z.id. rewrite (total_loop_spec _ [] args); [| |done|lia|lia].
  2: { intros x y ? ? ?. rewrite u64_nonneg, i32_small by (unfold INT_MIN; lia). done. }
  cbn [mbind outcome_bind]. rewrite <- Hlen.
  rewrite u64_small by (unfold INT_MAX in *; lia).
  destruct (malloc _) as [cmd|] eqn:Hm; [|left; split; [done|eexists; split; [|exact Hm]; lia]].
  apply malloc_size in Hm. right. rewrite command_written by (done || lia). done.
Qed.
End Memory.
End CommandLemmas.

(** * Properties *)

(** C27. Both [...CommandArgv] functions write, for any argument vector, the arguments as the Redis
    protocol prescribes, in a buffer of exactly the length they compute first; with no lengths
    given, the arguments are the C strings of the vector.  A null result or dereference means
    that an allocation failed.  The size is bounded so that the [int] totals do not wrap. *)
Theorem format_command_argv `{AllocLaws} argv argvlen args :
  args_at argv argvlen args →
  Z.of_nat (length (resp_command args)) + 1 + SDS_MAX_PREALLOC <= INT_MAX →
  let n := Z.of_nat (length (resp_command args)) in
  let r := redisFormatSdsCommandArgv (Z.of_nat (length args)) argv argvlen in
  let r' := redisFormatCommandArgv (Z.of_nat (length args)) argv argvlen in
  (((r = Val None ∨ r = Fault NullPointer) ∧ out_of_memory) ∨
   ∃ s, r = Val (Some (s, n)) ∧ sds_ok s ∧ contents s = resp_command args) ∧
  ((r' = Val None ∧ out_of_memory) ∨ r' = Val (Some (resp_command args ++ [NUL], n))).
Proof.
  intros Hat Hmax. assert (0 <= SDS_MAX_PREALLOC) by (unfold SDS_MAX_PREALLOC; lia).
  cbv zeta. split; [by apply redisFormatSdsCommandArgv_spec|].
  apply (redisFormatCommandArgv_spec argv argvlen args Hat). lia.
Qed.

Lemma format_command_argv_witness :
  let args := [lit "SET"; lit "k"; lit "a b"] in
  let text := resp_command args in
  text = lit "*3" ++ crlf ++ lit "$3" ++ crlf ++ lit "SET" ++ crlf ++ lit "$1" ++ crlf ++
         lit "k" ++ crlf ++ lit "$3" ++ crlf ++ lit "a b" ++ crlf ∧
  @redisFormatCommandArgv alloc_ref (Z.of_nat (length args)) args None =
  Val (Some (text ++ [NUL], Z.of_nat (length text))).
Proof.
  cbv zeta. split; [by vm_compute|].
  destruct (@format_command_argv alloc_ref alloc_ref_laws [lit "SET"; lit "k"; lit "a b"] None
    [lit "SET"; lit "k"; lit "a b"]) as [_ [[Hr _]|Hr]].
  - apply args_at_strlen. repeat constructor; by apply no_nul_check.
  - by vm_compute.
  - by vm_compute in Hr.
  - exact Hr.
Defined.
