(* ===== verification/HiredisFormat.v ===== *)
(** [redisvFormatCommand] of [hiredis.c]: commands written as a format, with the interpolations
    [%s], [%b], [%%] and the numeric ones of [printf]. *)
From Stdlib Require Import Ascii String ZArith Lia.
From stdpp Require Import base list.
From S2P Require Import Prelude Common Texts SdsArgs Sds SdsProps Hiredis.
Local Open Scope Z_scope.

(** The variable arguments. *)
Inductive va_val :=
| VaStr (p : bytes)
| VaSize (n : Z)
| VaInt (n : Z)
| VaLong (n : Z)
| VaLongLong (n : Z)
| VaDouble (image : bytes).

(** The types [va_arg] is asked for when a number is formatted. *)
Inductive num_kind := NumInt | NumLong | NumLongLong | NumDouble.

Definition in_set (set : string) (c : ascii) : bool := existsb (Ascii.eqb c) (lit set).

(** ["Try to detect printf format"]: what follows the percent sign, from the flags on.  [strchr]
    finds the terminator of the format in its set of letters, so a format that ends before the
    conversion letter passes as an [int] conversion and the scan goes on behind the terminator. *)
Inductive num_scan := NumValid (k : num_kind) (rest : bytes) | NumInvalid | NumOverrun.

Definition scan_int (k : num_kind) (p : bytes) : num_scan :=
  match p with
  | c :: r => if in_set "diouxX" c then NumValid k r else NumInvalid
  | [] => NumInvalid
  end.

Definition scan_number (p : bytes) : num_scan :=
  let p := skip_while (in_set "#0-+ ") p in
  let p := skip_while c_isdigit p in
  let p := match p with
           | c :: r => if Ascii.eqb c "." then skip_while c_isdigit r else p
           | [] => p
           end in
  match p with
  | [] => NumOverrun
  | c :: r =>
    if in_set "diouxX" c then NumValid NumInt r
    else if in_set "eEfFgGaA" c then NumValid NumDouble r
    else if Ascii.eqb c "h" then
      match r with
      | d :: r' => if Ascii.eqb d "h" then scan_int NumInt r' else scan_int NumInt r
      | [] => NumInvalid
      end
    else if Ascii.eqb c "l" then
      match r with
      | d :: r' => if Ascii.eqb d "l" then scan_int NumLongLong r' else scan_int NumLong r
      | [] => NumInvalid
      end
    else NumInvalid
  end.

(** [va_arg] with the type of the conversion; another type is undefined. *)
Definition va_num (k : num_kind) (ap : list va_val) : outcome (va_val * list va_val) :=
  match k, ap with
  | NumInt, VaInt n :: ap => Val (VaInt n, ap)
  | NumLong, VaLong n :: ap => Val (VaLong n, ap)
  | NumLongLong, VaLongLong n :: ap => Val (VaLongLong n, ap)
  | NumDouble, VaDouble d :: ap => Val (VaDouble d, ap)
  | _, _ => Fault OutOfBounds
  end.

Section Format.
(** [vsnprintf] with one numeric conversion. *)
Variable printf_num : bytes → va_val → bytes.

(** The [while] loop: the arguments, the current one and whether it was touched; [None] is
    [format_err].  Each turn consumes at least one character of the format. *)
Fixpoint format_loop (fuel : nat) (c : bytes) (ap : list va_val) (argv : list bytes)
    (curarg : bytes) (touched : bool) : outcome (option (list bytes * bytes * bool)) :=
  match c with
  | [] => Val (Some (argv, curarg, touched))
  | x :: c1 =>
    match fuel with
    | O => Fault OutOfFuel
    | S fuel =>
      if negb (Ascii.eqb x "%") || bool_decide (c1 = []) then
        if Ascii.eqb x " " then
          if touched then format_loop fuel c1 ap (argv ++ [curarg]) [] false
          else format_loop fuel c1 ap argv curarg touched
        else format_loop fuel c1 ap argv (curarg ++ [x]) true
      else
        match c1 with
        | [] => Val None
        | y :: c2 =>
          if Ascii.eqb y "s" then
            match ap with
            | VaStr p :: ap => format_loop fuel c2 ap argv (curarg ++ c_str p) true
            | _ => Fault OutOfBounds
            end
          else if Ascii.eqb y "b" then
            match ap with
            | VaStr p :: VaSize n :: ap =>
              data ← mem_read p 0 n; format_loop fuel c2 ap argv (curarg ++ data) true
            | _ => Fault OutOfBounds
            end
          else if Ascii.eqb y "%" then format_loop fuel c2 ap argv (curarg ++ lit "%") true
          else
            match scan_number c1 with
            | NumOverrun => Fault OutOfBounds
            | NumInvalid => Val None
            | NumValid k rest =>
              '(v, ap) ← va_num k ap;
              let l := (length c - length rest)%nat in
              if (l <? 16 - 2)%nat
              then format_loop fuel rest ap argv (curarg ++ printf_num (take l c) v) true
              else format_loop fuel c2 ap argv curarg true
            end
        end
    end
  end.

(** The arguments of the command; [None] for a format error. *)
Definition format_args (format : bytes) (ap : list va_val) : outcome (option (list bytes)) :=
  o ← format_loop (length format) (c_str format) ap [] [] false;
  match o with
  | None => Val None
  | Some (argv, curarg, touched) => Val (Some (if (touched : bool) then argv ++ [curarg] else argv))
  end.

Context `{Alloc}.

(** The returned value of [redisvFormatCommand]: the command and its length, or the error. *)
Inductive format_result := FormatOk (cmd : bytes) (totlen : Z) | FormatErr (error_type : Z).

Definition redisvFormatCommand (format : bytes) (ap : list va_val) : outcome format_result :=
  o ← format_args format ap;
  match o with
  | None => Val (FormatErr (-2))
  | Some argv =>
    let lens := Some (List.map (λ a : bytes, Z.of_nat (length a)) argv) in
    totlen ← total_loop (λ t b, Val (i32 (u64 (t + b)))) argv lens 0 (length argv) 0;
    let argc := Z.of_nat (length argv) in
    d ← countDigits argc;
    totlen ← int_arith (totlen + (1 + d + 2));
    match malloc (u64 (totlen + 1)) with
    | None => Val (FormatErr (-1))
    | Some cmd =>
      '(cmd, pos) ← sprintf_at cmd 0 (lit "*" ++ dec_int argc ++ crlf);
      '(cmd, pos) ← argv_command_loop cmd pos argv lens 0 (length argv);
      if pos =? totlen then cmd ← mem_write cmd pos [NUL]; Val (FormatOk cmd totlen)
      else Fault CheckFailed
    end
  end.

Definition redisFormatCommand (format : bytes) (ap : list va_val) : outcome format_result :=
  match redisvFormatCommand format ap with
  | Val (FormatErr _) => Val (FormatErr (-1))
  | r => r
  end.
End Format.

(** * Lemmas *)

Lemma skip_while_length f p : (length (skip_while f p) <= length p)%nat.
Proof. induction p as [|c p IH]; simpl; [done|]. destruct (f c); simpl; lia. Qed.

Lemma scan_int_rest k k' p rest : scan_int k p = NumValid k' rest → (length rest < length p)%nat.
Proof. destruct p; simpl; [done|]. destruct (in_set _ _); [|done]. intros [= _ <-]. lia. Qed.

Lemma scan_number_rest p k rest : scan_number p = NumValid k rest → (length rest < length p)%nat.
Proof.
  unfold scan_number. set (p1 := skip_while (in_set "#0-+ ") p).
  set (p2 := skip_while c_isdigit p1).
  assert (Hp2 : (length p2 <= length p)%nat).
  { pose proof (skip_while_length c_isdigit p1).
    pose proof (skip_while_length (in_set "#0-+ ") p). unfold p2, p1 in *. lia. }
  clearbody p2. clear p1.
  set (p3 := match p2 with [] => p2 | c :: r => _ end).
  assert (Hp3 : (length p3 <= length p)%nat).
  { unfold p3. destruct p2 as [|c r]; [done|]. destruct (Ascii.eqb c "."); [|done].
    pose proof (skip_while_length c_isdigit r). simpl in *. lia. }
  clearbody p3. destruct p3 as [|c r]; [done|]. simpl in Hp3.
  repeat (case_match; try done); intros Hs; simplify_eq; try lia;
    apply scan_int_rest in Hs; simpl in *; lia.
Qed.

Section FormatLemmas.
Variable printf_num : bytes → va_val → bytes.
Local Abbreviation format_loop := (format_loop printf_num).

(** The loop ends. *)
Lemma format_loop_fuel fuel c ap argv curarg touched :
  (length c <= fuel)%nat → format_loop fuel c ap argv curarg touched ≠ Fault OutOfFuel.
Proof.
  revert c ap argv curarg touched. induction fuel as [|fuel IH]; intros c ap argv curarg touched Hc;
    destruct c as [|x c1]; try done; simpl in Hc; [lia|].
  cbn [HiredisFormat.format_loop].
  destruct (negb _ || _).
  { destruct (Ascii.eqb x " "); [destruct touched|]; apply IH; lia. }
  destruct c1 as [|y c2]; [done|]. simpl in Hc.
  destruct (Ascii.eqb y "s"). { destruct ap as [|[] ap]; try done. apply IH; lia. }
  destruct (Ascii.eqb y "b").
  { destruct ap as [|[] [|[] ap]]; try done. unfold mem_read. destruct (_ && _); [|done].
    cbn [mbind outcome_bind]. apply IH; lia. }
  destruct (Ascii.eqb y "%"); [apply IH; lia|].
  destruct (scan_number (y :: c2)) as [k rest| |] eqn:Hs; try done.
  apply scan_number_rest in Hs. simpl in Hs. unfold va_num.
  destruct k, ap as [|[] ap]; try done; cbn [mbind outcome_bind];
    (destruct (_ <? _)%nat; apply IH; lia).
Qed.

(** Characters that stand for themselves. *)
Definition plain_format_char (c : ascii) : bool :=
  negb (Ascii.eqb c "%" || Ascii.eqb c " " || Ascii.eqb c NUL).

Lemma format_loop_plain w fuel c ap argv curarg touched :
  forallb plain_format_char w = true → w ≠ [] →
  format_loop (length w + fuel) (w ++ c) ap argv curarg touched =
  format_loop fuel c ap argv (curarg ++ w) true.
Proof.
  revert curarg touched. induction w as [|x w IH]; intros curarg touched Hw Hne; [done|].
  simpl in Hw. apply andb_true_iff in Hw as [Hx Hw]. unfold plain_format_char in Hx.
  rewrite negb_true_iff, !orb_false_iff in Hx. destruct Hx as [[H1 H2] _].
  cbn [length plus app HiredisFormat.format_loop]. rewrite H1, H2. cbn [negb orb].
  destruct w as [|y w]; [done|].
  rewrite IH by done. by rewrite <- app_assoc.
Qed.
End FormatLemmas.

(** One numeric conversion [spec] of a type whose argument is [n]. *)
Definition num_arg (k : num_kind) (n : Z) : va_val :=
  match k with NumInt => VaInt n | NumLong => VaLong n | _ => VaLongLong n end.

Lemma number_step printf_num k n spec rest fuel ap argv :
  k ≠ NumDouble → (length spec < 13)%nat →
  match spec with
  | c :: _ => Ascii.eqb c "s" || Ascii.eqb c "b" || Ascii.eqb c "%" = false
  | [] => False
  end →
  scan_number (spec ++ rest) = NumValid k rest →
  format_loop printf_num (S fuel) (("%"%char :: spec) ++ rest) (num_arg k n :: ap) argv [] false =
  format_loop printf_num fuel rest ap argv (printf_num ("%"%char :: spec) (num_arg k n)) true.
Proof.
  intros Hk Hl Hc Hs. destruct spec as [|c spec]; [done|].
  apply orb_false_iff in Hc as [[H1 H2]%orb_false_iff H3].
  cbn [app] in *. cbn [format_loop]. rewrite H1, H2, H3, Hs.
  assert (bool_decide (c :: spec ++ rest = []) = false) as -> by done.
  change (negb (Ascii.eqb "%" "%") || false) with false. cbv iota.
  assert (va_num k (num_arg k n :: ap) = Val (num_arg k n, ap)) as -> by (by destruct k).
  cbn [mbind outcome_bind].
  replace (length ("%"%char :: c :: spec ++ rest) - length rest)%nat with (length ("%"%char :: c :: spec))
    by (cbn [length]; rewrite length_app; lia).
  destruct (Nat.ltb_spec (length ("%"%char :: c :: spec)) (16 - 2)); [|cbn [length] in *; lia].
  change ("%"%char :: c :: spec ++ rest) with (("%"%char :: c :: spec) ++ rest). by rewrite take_app_length.
Qed.

(** * Formats made of words, [%s], [%d] and [%llu] *)

Inductive piece := Word (w : bytes) | Str (p : bytes) | Int (n : Z) | ULL (n : Z).

Definition piece_format (p : piece) : bytes :=
  match p with Word w => w | Str _ => lit "%s" | Int _ => lit "%d" | ULL _ => lit "%llu" end.
Definition piece_va (p : piece) : list va_val :=
  match p with Word _ => [] | Str p => [VaStr p] | Int n => [VaInt n] | ULL n => [VaLongLong n] end.
Definition piece_ok (p : piece) : bool :=
  match p with Word w => negb (bool_decide (w = [])) && forallb plain_format_char w | _ => true end.

Definition pieces_format (ps : list piece) : bytes :=
  join_with [chr_sp] (List.map piece_format ps).
Definition pieces_va (ps : list piece) : list va_val := List.concat (List.map piece_va ps).

Section Pieces.
Variable printf_num : bytes → va_val → bytes.
Local Abbreviation format_loop := (format_loop printf_num).

Definition piece_text (p : piece) : bytes :=
  match p with
  | Word w => w
  | Str p => c_str p
  | Int n => printf_num (lit "%d") (VaInt n)
  | ULL n => printf_num (lit "%llu") (VaLongLong n)
  end.

(** One piece, followed by a space or by nothing. *)
Lemma format_loop_piece p rest fuel ap argv :
  piece_ok p = true → (length (piece_format p ++ rest) <= fuel)%nat →
  ∃ fuel', (length rest <= fuel')%nat ∧
    format_loop fuel (piece_format p ++ rest) (piece_va p ++ ap) argv [] false =
    format_loop fuel' rest ap argv (piece_text p) true.
Proof.
  intros Hok Hf. rewrite length_app in Hf. destruct p as [w|p|z|z]; cbn [piece_format piece_ok] in *.
  - apply andb_true_iff in Hok as [Hne Hw].
    rewrite negb_true_iff, bool_decide_eq_false in Hne.
    exists (fuel - length w)%nat. split; [lia|].
    replace fuel with (length w + (fuel - length w))%nat at 1 by lia.
    by rewrite format_loop_plain.
  - destruct fuel as [|fuel]; [simpl in Hf; lia|]. exists fuel.
    split; [simpl in Hf; lia|]. done.
  - destruct fuel as [|fuel]; [simpl in Hf; lia|]. exists fuel. split; [simpl in Hf; lia|].
    etransitivity; [apply (number_step printf_num NumInt z (lit "d") rest); (done || (simpl; lia))|done].
  - destruct fuel as [|fuel]; [simpl in Hf; lia|]. exists fuel. split; [simpl in Hf; lia|].
    etransitivity; [apply (number_step printf_num NumLongLong z (lit "llu") rest); (done || (simpl; lia))|done].
Qed.

Lemma format_loop_pieces ps ap argv fuel :
  forallb piece_ok ps = true → ps ≠ [] → (length (pieces_format ps) <= fuel)%nat →
  ∃ argv' last, format_loop fuel (pieces_format ps)
    (pieces_va ps ++ ap) argv [] false = Val (Some (argv', last, true)) ∧
    argv' ++ [last] = argv ++ List.map piece_text ps.
Proof.
  unfold pieces_va.
  revert argv fuel. induction ps as [|p ps IH]; intros argv fuel Hok Hne Hf; [done|].
  simpl in Hok. apply andb_true_iff in Hok as [Hp Hok].
  cbn [List.map List.concat]. rewrite <- app_assoc.
  destruct ps as [|q ps].
  - unfold pieces_format in *. cbn [List.map join_with List.concat app] in *.
    destruct (format_loop_piece p [] fuel ap argv Hp) as (fuel' & _ & Hr);
      [by rewrite app_nil_r|].
    rewrite app_nil_r in Hr. rewrite Hr. exists argv, (piece_text p). by destruct fuel'.
  - unfold pieces_format in *. cbn [List.map] in *.
    rewrite join_with_cons in Hf |- * by done.
    destruct (format_loop_piece p ([chr_sp] ++ join_with [chr_sp]
      (piece_format q :: List.map piece_format ps)) fuel
      (List.concat (List.map piece_va (q :: ps)) ++ ap) argv Hp) as (fuel' & Hf' & Hr); [done|].
    cbn [List.map List.concat] in *. rewrite Hr.
    rewrite length_app in Hf'. destruct fuel' as [|fuel']; [simpl in Hf'; lia|].
    destruct (IH (argv ++ [piece_text p]) fuel' Hok) as (argv' & last & Hl & He);
      [done|simpl in *; lia|].
    exists argv', last. split; [exact Hl|]. by rewrite He, <- app_assoc.
Qed.

(** The command of a format is the text of its arguments. *)
Lemma redisvFormatCommand_spec `{AllocLaws} format ap args :
  format_args printf_num format ap = Val (Some args) →
  Z.of_nat (length (resp_command args)) <= INT_MAX →
  let r := redisvFormatCommand printf_num format ap in
  (r = Val (FormatErr (-1)) ∧ out_of_memory) ∨
  r = Val (FormatOk (resp_command args ++ [NUL]) (Z.of_nat (length (resp_command args)))).
Proof.
  intros Hf Hmax. cbv zeta. pose proof (args_length args).
  pose proof (resp_command_length args) as Hlen.
  pose proof (dec_nat_length (Z.of_nat (length args))).
  unfold redisvFormatCommand. rewrite Hf. cbn [mbind outcome_bind].
  rewrite (total_loop_spec _ _ _ [] args); [| |apply args_at_lengths|lia|lia].
  2: { intros x y ? ? ?. rewrite u64_nonneg, i32_small by (unfold INT_MIN; lia). done. }
  cbn [mbind outcome_bind]. rewrite countDigits_spec by (unfold INT_MAX in *; lia). cbn [mbind outcome_bind].
  rewrite int_arith_ok by (unfold INT_MIN; lia). cbn [mbind outcome_bind].
  match goal with |- context [malloc (u64 (?x + 1))] =>
    replace x with (Z.of_nat (length (resp_command args))) by lia end.
  rewrite u64_small by (unfold INT_MAX in *; lia).
  destruct (malloc _) as [cmd|] eqn:Hm; [|left; split; [done|eexists; split; [|exact Hm]; lia]].
  apply malloc_size in Hm. right.
  rewrite (command_written _ _ (λ cmd, Val (FormatOk cmd _)) args) by (apply args_at_lengths || done || lia). done.
Qed.

Lemma piece_no_nul p : piece_ok p = true → no_nul (piece_format p).
Proof.
  destruct p as [w|p|n|n]; cbn [piece_ok piece_format]; [|intros _; by apply no_nul_check..].
  rewrite andb_true_iff. intros [_ Hw]. by apply (chars_no_nul plain_format_char w).
Qed.

Lemma format_pieces ps ap :
  forallb piece_ok ps = true →
  format_args printf_num (pieces_format ps) (pieces_va ps ++ ap) =
  Val (Some (List.map piece_text ps)).
Proof.
  intros Hok. unfold format_args. destruct (decide (ps = [])) as [->|Hne]; [done|].
  rewrite c_str_no_nul.
  - destruct (format_loop_pieces ps ap [] (length (pieces_format ps)) Hok Hne)
      as (argv' & last & -> & He); [done|]. cbn [mbind outcome_bind]. by rewrite He.
  - apply no_nul_join; [by apply no_nul_check|]. rewrite forallb_forall in Hok.
    apply Forall_forall. intros t Ht. apply list_elem_of_In, in_map_iff in Ht as (p & <- & Hp).
    apply piece_no_nul. auto.
Qed.

(** A command format of words, [%s], [%d] and [%llu] conversions becomes one argument per word: an
    interpolated string is one argument whatever blanks, quotes or percent signs it contains, so
    it cannot add arguments to the command. *)
Theorem format_args_pieces ps ap :
  forallb piece_ok ps = true →
  format_args printf_num (pieces_format ps) (pieces_va ps ++ ap) =
  Val (Some (List.map piece_text ps)).
Proof. apply format_pieces. Qed.
End Pieces.

Lemma format_args_pieces_witness :
  format_args (λ _ v, match v with VaInt n => dec_int n | _ => [] end) (lit "LRANGE %s %d") [VaStr (lit "my 100%s key"); VaInt (-1)] =
  Val (Some [lit "LRANGE"; lit "my 100%s key"; lit "-1"]).
Proof.
  exact (format_args_pieces (λ _ v, match v with VaInt n => dec_int n | _ => [] end)
    [Word (lit "LRANGE"); Str (lit "my 100%s key"); Int (-1)] [] eq_refl).
Defined.
