(* ===== verification/HiredisReader.v ===== *)
(** The protocol parser of [third-party/redis/deps/hiredis/read.c], with the reply objects that
    [hiredis.c] builds for it on a heap.  Allocations succeed in this model. *)
From Stdlib Require Import Ascii String ZArith Lia.
From stdpp Require Import base list.
From S2P Require Import Prelude Common SdsArgs Sds SdsProps Hiredis.
Local Open Scope Z_scope.

(** * Constants of [read.h] *)

Definition REDIS_ERR_PROTOCOL : Z := 4.
Definition REDIS_REPLY_STRING : Z := 1.
Definition REDIS_REPLY_ARRAY : Z := 2.
Definition REDIS_REPLY_INTEGER : Z := 3.
Definition REDIS_REPLY_NIL : Z := 4.
Definition REDIS_REPLY_STATUS : Z := 5.
Definition REDIS_REPLY_ERROR : Z := 6.

(** * Data *)

(** A [redisReply] on the heap; pointers are indexes.  [element] is [None] when null. *)
Inductive reply_obj :=
| ObjString (type : Z) (str : bytes)
| ObjArray (elements : Z) (element : option (list (option nat)))
| ObjInteger (integer : Z)
| ObjNil.

(** [redisReadTask]; the parent is an index of the task stack. *)
Record redisReadTask := mkTask {
  t_type : Z;
  t_elements : Z;
  t_idx : Z;
  t_obj : option nat;
  t_parent : option nat
}.

(** [redisReader].  The buffer pointer is null only while [err] is set. *)
Record redisReader := mkReader {
  r_err : Z;
  r_errstr : bytes;
  r_buf : bytes;
  r_pos : Z;
  r_len : Z;
  r_stack : list redisReadTask;
  r_idx : Z;
  r_reply : option nat;
  r_heap : list reply_obj
}.

(** * Field updates *)

Definition set_pos (r : redisReader) (p : Z) : redisReader :=
  mkReader (r_err r) (r_errstr r) (r_buf r) p (r_len r) (r_stack r) (r_idx r) (r_reply r) (r_heap r).
Definition set_buf (r : redisReader) (b : bytes) (p l : Z) : redisReader :=
  mkReader (r_err r) (r_errstr r) b p l (r_stack r) (r_idx r) (r_reply r) (r_heap r).
Definition set_stack (r : redisReader) (s : list redisReadTask) (i : Z) : redisReader :=
  mkReader (r_err r) (r_errstr r) (r_buf r) (r_pos r) (r_len r) s i (r_reply r) (r_heap r).
Definition set_reply (r : redisReader) (o : option nat) : redisReader :=
  mkReader (r_err r) (r_errstr r) (r_buf r) (r_pos r) (r_len r) (r_stack r) (r_idx r) o (r_heap r).
Definition set_heap (r : redisReader) (h : list reply_obj) : redisReader :=
  mkReader (r_err r) (r_errstr r) (r_buf r) (r_pos r) (r_len r) (r_stack r) (r_idx r) (r_reply r) h.

(** The bytes from [r->buf+r->pos] on. *)
Definition unread (r : redisReader) : bytes := drop (Z.to_nat (r_pos r)) (r_buf r).

Definition task_at (r : redisReader) (i : Z) : outcome redisReadTask :=
  if i <? 0 then Fault OutOfBounds else from_option_fault OutOfBounds (r_stack r !! Z.to_nat i).
Definition cur_task (r : redisReader) : outcome redisReadTask := task_at r (r_idx r).
Definition set_task (r : redisReader) (i : Z) (t : redisReadTask) : redisReader :=
  set_stack r (<[Z.to_nat i := t]> (r_stack r)) (r_idx r).

(** * Errors *)

(** [errstr] holds 127 characters; the reply under construction is freed. *)
Definition redisReaderSetError (r : redisReader) (type : Z) (str : bytes) : redisReader :=
  mkReader type (take 127 (c_str str)) [] 0 0 (r_stack r) (-1) None (r_heap r).

Definition chrtos (byte : ascii) : bytes :=
  let quoted s := [chr_dq] ++ s ++ [chr_dq] in
  if Ascii.eqb byte chr_bslash || Ascii.eqb byte chr_dq then quoted [chr_bslash; byte]
  else if Ascii.eqb byte chr_nl then quoted (lit "\n")
  else if Ascii.eqb byte chr_cr then quoted (lit "\r")
  else if Ascii.eqb byte chr_tab then quoted (lit "\t")
  else if Ascii.eqb byte chr_bel then quoted (lit "\a")
  else if Ascii.eqb byte chr_bs then quoted (lit "\b")
  else if c_isprint byte then quoted [byte]
  else quoted (lit "\x" ++ [hex_digit_of (byte_val byte / 16); hex_digit_of (byte_val byte mod 16)]).

Definition redisReaderSetErrorProtocolByte (r : redisReader) (byte : ascii) : redisReader :=
  redisReaderSetError r REDIS_ERR_PROTOCOL
    (lit "Protocol error, got " ++ chrtos byte ++ lit " as reply type byte").

(** * Reading the buffer *)

Definition readBytes (r : redisReader) (n : Z) : option (bytes * redisReader) :=
  if n <=? r_len r - r_pos r then Some (unread r, set_pos r (r_pos r + n)) else None.

(** The offset of the first carriage return that a line feed follows. *)
Fixpoint seek (s : bytes) : option nat :=
  match s with
  | c :: ((d :: _) as s1) =>
    if Ascii.eqb c chr_cr && Ascii.eqb d chr_nl then Some 0%nat else S <$> seek s1
  | _ => None
  end.

(** [_len = len-1] is an [int]; the character at [_len] is looked at only for the line feed. *)
Definition seekNewline (s : bytes) (len : Z) : option nat :=
  seek (take (Z.to_nat (i32 (u64 (len - 1)) + 1)) s).

Definition ll_arith (z : Z) : outcome Z :=
  if (LLONG_MIN <=? z) && (z <=? LLONG_MAX) then Val z else Fault SignedOverflow.

(** The digits up to a carriage return; [None] for another character. *)
Fixpoint read_digits (s : bytes) (v : Z) : outcome (option Z) :=
  match s with
  | [] => Fault OutOfBounds
  | c :: s =>
    if Ascii.eqb c chr_cr then Val (Some v)
    else if c_isdigit c then
      v ← ll_arith (v * 10);
      v ← ll_arith (v + (byte_val c - 48));
      read_digits s v
    else Val None
  end.

Definition readLongLong (s : bytes) : outcome Z :=
  let '(mult, s) :=
    match s with
    | c :: s' => if Ascii.eqb c "-" then (-1, s') else if Ascii.eqb c "+" then (1, s') else (1, s)
    | [] => (1, s)
    end in
  o ← read_digits s 0;
  match o with
  | None => Val (-1)
  | Some v => Val (mult * v)
  end.

(** The pointer to the line, its length, and the reader behind it. *)
Definition readLine (r : redisReader) : option (bytes * nat * redisReader) :=
  let p := unread r in
  match seekNewline p (r_len r - r_pos r) with
  | Some len => Some (p, len, set_pos r (r_pos r + Z.of_nat len + 2))
  | None => None
  end.

(** * Reply objects *)

(** The common part of the [create...Object] functions: a new object, stored in the element of
    the parent that the task is for. *)
Definition create_object (r : redisReader) (task : redisReadTask) (o : reply_obj)
    : outcome (nat * redisReader) :=
  let id := length (r_heap r) in
  let heap := r_heap r ++ [o] in
  match t_parent task with
  | None => Val (id, set_heap r heap)
  | Some p =>
    parent ← from_option_fault OutOfBounds (r_stack r !! p);
    po ← deref (t_obj parent);
    match heap !! po with
    | Some (ObjArray n element) =>
      l ← deref element;
      if (0 <=? t_idx task) && (t_idx task <? Z.of_nat (length l)) then
        Val (id, set_heap r
                   (<[po := ObjArray n (Some (<[Z.to_nat (t_idx task) := Some id]> l))]> heap))
      else Fault OutOfBounds
    | Some _ => Fault CheckFailed
    | None => Fault OutOfBounds
    end
  end.

Definition createStringObject (r : redisReader) (task : redisReadTask) (str : bytes)
    : outcome (nat * redisReader) :=
  if (t_type task =? REDIS_REPLY_ERROR) || (t_type task =? REDIS_REPLY_STATUS)
     || (t_type task =? REDIS_REPLY_STRING)
  then create_object r task (ObjString (t_type task) str)
  else Fault CheckFailed.

(** [elements] is an [int]; the count of the reply is a [size_t]. *)
Definition createArrayObject (r : redisReader) (task : redisReadTask) (elements : Z)
    : outcome (nat * redisReader) :=
  create_object r task
    (ObjArray (u64 elements)
       (if 0 <? elements then Some (replicate (Z.to_nat elements) None) else None)).

Definition createIntegerObject (r : redisReader) (task : redisReadTask) (value : Z)
    : outcome (nat * redisReader) := create_object r task (ObjInteger value).

Definition createNilObject (r : redisReader) (task : redisReadTask)
    : outcome (nat * redisReader) := create_object r task ObjNil.

(** * The task stack *)

(** Each turn pops a task, so the height of the stack bounds the loop. *)
Fixpoint moveToNextTask_loop (fuel : nat) (r : redisReader) : outcome redisReader :=
  if r_idx r <? 0 then Val r
  else if r_idx r =? 0 then Val (set_stack r (r_stack r) (r_idx r - 1))
  else
    match fuel with
    | O => Fault OutOfFuel
    | S fuel =>
      cur ← cur_task r;
      prv ← task_at r (r_idx r - 1);
      if negb (t_type prv =? REDIS_REPLY_ARRAY) then Fault CheckFailed
      else if t_idx cur =? t_elements prv - 1 then
        moveToNextTask_loop fuel (set_stack r (r_stack r) (r_idx r - 1))
      else if negb (t_idx cur <? t_elements prv) then Fault CheckFailed
      else
        i ← int_arith (t_idx cur + 1);
        Val (set_task r (r_idx r) (mkTask (-1) (-1) i (t_obj cur) (t_parent cur)))
    end.

Definition moveToNextTask (r : redisReader) : outcome redisReader :=
  moveToNextTask_loop (Z.to_nat (r_idx r)) r.

(** [if (r->ridx == 0) r->reply = obj;] *)
Definition reply_if_root (r : redisReader) (obj : nat) : redisReader :=
  if r_idx r =? 0 then set_reply r (Some obj) else r.

(** * Items

    The functions return [REDIS_OK] as [true] and [REDIS_ERR] as [false]. *)

Definition processLineItem (r : redisReader) : outcome (bool * redisReader) :=
  cur ← cur_task r;
  match readLine r with
  | Some (p, len, r) =>
    '(obj, r) ← (if t_type cur =? REDIS_REPLY_INTEGER
                 then v ← readLongLong p; createIntegerObject r cur v
                 else createStringObject r cur (take len p));
    r ← moveToNextTask (reply_if_root r obj);
    Val (true, r)
  | None => Val (false, r)
  end.

Definition processBulkItem (r : redisReader) : outcome (bool * redisReader) :=
  cur ← cur_task r;
  let p := unread r in
  match seekNewline p (r_len r - r_pos r) with
  | Some s =>
    let bytelen := Z.of_nat s + 2 in
    len ← readLongLong p;
    if len <? 0 then
      '(obj, r) ← createNilObject r cur;
      r ← moveToNextTask (reply_if_root (set_pos r (r_pos r + bytelen)) obj);
      Val (true, r)
    else
      n ← ll_arith (len + 2);
      let bytelen := u64 (bytelen + n) in
      if u64 (r_pos r + bytelen) <=? r_len r then
        str ← mem_read p (Z.of_nat s + 2) len;
        '(obj, r) ← createStringObject r cur str;
        r ← moveToNextTask (reply_if_root (set_pos r (r_pos r + bytelen)) obj);
        Val (true, r)
      else Val (false, r)
  | None => Val (false, r)
  end.

(** The task of the first element of an array. *)
Definition element_task (parent : Z) : redisReadTask :=
  mkTask (-1) (-1) 0 None (Some (Z.to_nat parent)).

Definition processMultiBulkItem (r : redisReader) : outcome (bool * redisReader) :=
  cur ← cur_task r;
  if r_idx r =? 8 then
    Val (false, redisReaderSetError r REDIS_ERR_PROTOCOL
                  (lit "No support for nested multi bulk replies with depth > 7"))
  else
    match readLine r with
    | Some (p, _, r) =>
      elements ← readLongLong p;
      let root := r_idx r =? 0 in
      '(obj, r) ←
        (if elements =? -1 then
           '(obj, r) ← createNilObject r cur;
           r ← moveToNextTask r;
           Val (obj, r)
         else
           '(obj, r) ← createArrayObject r cur (i32 elements);
           if 0 <? elements then
             let r := set_task r (r_idx r)
                        (mkTask (t_type cur) (i32 elements) (t_idx cur) (Some obj) (t_parent cur)) in
             let r := set_stack r (<[Z.to_nat (r_idx r + 1) := element_task (r_idx r)]> (r_stack r))
                        (r_idx r + 1) in
             Val (obj, r)
           else
             r ← moveToNextTask r;
             Val (obj, r));
      Val (true, if root then set_reply r (Some obj) else r)
    | None => Val (false, r)
    end.

(** The type that a type byte announces. *)
Definition reply_type (c : ascii) : option Z :=
  if Ascii.eqb c "-" then Some REDIS_REPLY_ERROR
  else if Ascii.eqb c "+" then Some REDIS_REPLY_STATUS
  else if Ascii.eqb c ":" then Some REDIS_REPLY_INTEGER
  else if Ascii.eqb c "$" then Some REDIS_REPLY_STRING
  else if Ascii.eqb c "*" then Some REDIS_REPLY_ARRAY
  else None.

Definition process_typed (r : redisReader) : outcome (bool * redisReader) :=
  cur ← cur_task r;
  let type := t_type cur in
  if (type =? REDIS_REPLY_ERROR) || (type =? REDIS_REPLY_STATUS) || (type =? REDIS_REPLY_INTEGER)
  then processLineItem r
  else if type =? REDIS_REPLY_STRING then processBulkItem r
  else if type =? REDIS_REPLY_ARRAY then processMultiBulkItem r
  else Fault CheckFailed.

Definition processItem (r : redisReader) : outcome (bool * redisReader) :=
  cur ← cur_task r;
  if t_type cur <? 0 then
    match readBytes r 1 with
    | Some (p, r) =>
      c ← from_option_fault OutOfBounds (head p);
      match reply_type c with
      | Some type =>
        process_typed (set_task r (r_idx r)
          (mkTask type (t_elements cur) (t_idx cur) (t_obj cur) (t_parent cur)))
      | None => Val (false, redisReaderSetErrorProtocolByte r c)
      end
    | None => Val (false, r)
    end
  else process_typed r.

(** * The reader *)

Definition redisReaderCreate : redisReader :=
  mkReader 0 [] [] 0 0 (replicate 9 (mkTask 0 0 0 None None)) (-1) None [].

(** The buffer that [sdscatlen] extends; whether a large empty one is replaced first does not show
    in its text. *)
Definition redisReaderFeed (r : redisReader) (data : bytes) : bool * redisReader :=
  if negb (r_err r =? 0) then (false, r)
  else if (1 <=? length data)%nat then
    let b := r_buf r ++ data in (true, set_buf r b (r_pos r) (Z.of_nat (length b)))
  else (true, r).

(** [while (r->ridx >= 0) if (processItem(r) != REDIS_OK) break;] *)
Fixpoint process_items (fuel : nat) (r : redisReader) : outcome redisReader :=
  if r_idx r <? 0 then Val r
  else
    match fuel with
    | O => Fault OutOfFuel
    | S fuel =>
      '(ok, r) ← processItem r;
      if (ok : bool) then process_items fuel r else Val r
    end.

Definition root_task : redisReadTask := mkTask (-1) (-1) (-1) None None.

(** Whether the call succeeds, and the reply; every item takes at least a byte. *)
Definition redisReaderGetReply (r : redisReader) : outcome (bool * option nat * redisReader) :=
  if negb (r_err r =? 0) then Val (false, None, r)
  else if r_len r =? 0 then Val (true, None, r)
  else
    let r := if r_idx r =? -1 then set_stack r (<[0%nat := root_task]> (r_stack r)) 0 else r in
    r ← process_items (S (length (unread r))) r;
    if negb (r_err r =? 0) then Val (false, None, r)
    else
      let r := if 1024 <=? r_pos r then
                 let b := range_of (r_buf r) (i32 (r_pos r)) (-1) in
                 set_buf r b 0 (Z.of_nat (length b))
               else r in
      if r_idx r =? -1 then Val (true, r_reply r, set_reply r None) else Val (true, None, r).
