(* ===== verification/HiredisFeed.v ===== *)
(** Feeding the reply reader in pieces: what [redisReaderGetReply] does with a part of the data and
    then with the rest is what it does with all of it. *)
From Stdlib Require Import Ascii String ZArith Lia.
From stdpp Require Import base list.
From S2P Require Import Prelude Common SdsArgs Sds SdsProps Hiredis HiredisReader.
Local Open Scope Z_scope.

(** * Readers that differ in their buffers only *)

(** The cursor is inside the buffer, whose size an [int] can hold. *)
Definition buf_ok (b : bytes) (p : Z) : Prop :=
  0 <= p ∧ p <= Z.of_nat (length b) ∧ Z.of_nat (length b) <= INT_MAX.

Definition reader_ok (r : redisReader) : Prop :=
  buf_ok (r_buf r) (r_pos r) ∧ r_len r = Z.of_nat (length (r_buf r)).

(** [r2] is [r1] with the data [d] behind what [r1] has not read. *)
Definition more (d : bytes) (r1 r2 : redisReader) : Prop :=
  reader_ok r1 ∧
  ∃ b p, r2 = set_buf r1 b p (Z.of_nat (length b)) ∧ buf_ok b p ∧
         drop (Z.to_nat p) b = unread r1 ++ d.

Lemma more_ok d r1 r2 : more d r1 r2 → reader_ok r2.
Proof. intros (_ & b & p & -> & Hb & _). by split. Qed.

Lemma more_unread d r1 r2 : more d r1 r2 → unread r2 = unread r1 ++ d.
Proof. by intros (_ & b & p & -> & _ & Hd). Qed.

Lemma reader_ok_set_buf r b p :
  buf_ok b p → reader_ok (set_buf r b p (Z.of_nat (length b))).
Proof. by split. Qed.

Lemma set_buf_id r : reader_ok r → set_buf r (r_buf r) (r_pos r) (Z.of_nat (length (r_buf r))) = r.
Proof. intros [_ Hl]. rewrite <- Hl. by destruct r. Qed.

Lemma more_refl r : reader_ok r → more [] r r.
Proof.
  intros Hr. split; [done|]. exists (r_buf r), (r_pos r). rewrite set_buf_id by done.
  split; [done|]. split; [apply Hr|]. by rewrite app_nil_r.
Qed.

Lemma more_sym r1 r2 : more [] r1 r2 → more [] r2 r1.
Proof.
  intros Hm. split; [by eapply more_ok|]. pose proof (more_unread _ _ _ Hm) as Hu.
  destruct Hm as (H1 & b & p & -> & Hb & _). exists (r_buf r1), (r_pos r1).
  split; [|split; [apply H1|]].
  - rewrite <- (set_buf_id r1 H1) at 1. by destruct r1.
  - change (drop (Z.to_nat (r_pos r1)) (r_buf r1)) with (unread r1). by rewrite Hu, !app_nil_r.
Qed.

Lemma more_trans d e r1 r2 r3 : more d r1 r2 → more e r2 r3 → more (d ++ e) r1 r3.
Proof.
  intros Hd (_ & b & p & -> & Hb & Hu). rewrite (more_unread _ _ _ Hd) in Hu.
  destruct Hd as (H1 & b' & p' & -> & _ & _). split; [done|]. exists b, p.
  split; [done|]. split; [done|]. by rewrite Hu, <- app_assoc.
Qed.

(** Two ways to add the same data. *)
Lemma more_both d r1 r2 r3 : more d r1 r2 → more d r1 r3 → more [] r2 r3.
Proof.
  intros H2 H3. split; [by eapply more_ok|]. pose proof (more_unread _ _ _ H2) as Hu.
  destruct H2 as (_ & b & p & -> & _), H3 as (_ & b' & p' & -> & Hb & Hd).
  exists b', p'. split; [done|]. split; [done|]. by rewrite Hu, app_nil_r.
Qed.

Lemma unread_length r : reader_ok r → Z.of_nat (length (unread r)) = r_len r - r_pos r.
Proof. intros [(? & ? & ?) Hl]. unfold unread. rewrite length_drop. lia. Qed.

(** * The operations that do not look at the buffer *)

Definition on_buf {A} (b : bytes) (p l : Z) (x : A * redisReader) : A * redisReader :=
  (x.1, set_buf x.2 b p l).

Lemma bind_map {A B C} (f : A → B) (m : outcome A) (g : B → outcome C) :
  (a ← m; Val (f a)) ≫= g = (a ← m; g (f a)).
Proof. by destruct m. Qed.

Lemma create_object_buf r task o b p l :
  create_object (set_buf r b p l) task o = (x ← create_object r task o; Val (on_buf b p l x)).
Proof.
  unfold create_object. simpl. destruct (t_parent task) as [q|]; [|done].
  destruct (r_stack r !! q) as [parent|]; simpl; [|done].
  destruct (t_obj parent) as [po|]; simpl; [|done].
  destruct ((r_heap r ++ [o]) !! po) as [[| | |]|]; try done.
  destruct element as [l'|]; simpl; [|done]. by destruct (_ && _).
Qed.

Lemma moveToNextTask_loop_buf fuel r b p l :
  moveToNextTask_loop fuel (set_buf r b p l)
  = (r' ← moveToNextTask_loop fuel r; Val (set_buf r' b p l)).
Proof.
  revert r. induction fuel as [|fuel IH]; intros r; simpl;
    (destruct (r_idx r <? 0); [done|]); (destruct (r_idx r =? 0); [done|]); [done|].
  change (cur_task (set_buf r b p l)) with (cur_task r).
  change (task_at (set_buf r b p l)) with (task_at r).
  destruct (cur_task r) as [cur|]; simpl; [|done].
  destruct (task_at r (r_idx r - 1)) as [prv|]; simpl; [|done].
  destruct (negb _); [done|]. destruct (t_idx cur =? _); [by rewrite <- IH|].
  destruct (negb _); [done|]. by destruct (int_arith _).
Qed.

Lemma moveToNextTask_buf r b p l :
  moveToNextTask (set_buf r b p l) = (r' ← moveToNextTask r; Val (set_buf r' b p l)).
Proof. apply moveToNextTask_loop_buf. Qed.

Lemma createStringObject_buf r task s b p l :
  createStringObject (set_buf r b p l) task s
  = (x ← createStringObject r task s; Val (on_buf b p l x)).
Proof. unfold createStringObject. destruct (_ || _); [apply create_object_buf|done]. Qed.

Lemma reply_if_root_buf r b p l obj :
  reply_if_root (set_buf r b p l) obj = set_buf (reply_if_root r obj) b p l.
Proof. unfold reply_if_root. simpl. by destruct (r_idx r =? 0). Qed.

(** * Lines *)

Lemma seek_bound s n : seek s = Some n → (n + 2 <= length s)%nat.
Proof.
  revert n. induction s as [|c [|d s] IH]; intros n; simpl; [done|done|].
  destruct (_ && _); [intros [= <-]; lia|].
  intros (m & Hm & ->)%fmap_Some. specialize (IH m Hm). simpl in IH. lia.
Qed.

Lemma seek_app s d n : seek s = Some n → seek (s ++ d) = Some n.
Proof.
  revert n. induction s as [|c [|e s] IH]; intros n; simpl; [done|done|].
  destruct (_ && _); [done|]. intros (m & Hm & ->)%fmap_Some.
  specialize (IH m Hm). simpl in IH. by rewrite IH.
Qed.

Lemma seekNewline_all s : Z.of_nat (length s) <= INT_MAX → seekNewline s (Z.of_nat (length s)) = seek s.
Proof.
  intros Hs. unfold seekNewline. rewrite i32_u64 by (unfold INT_MIN, INT_MAX in *; lia).
  by rewrite take_ge by lia.
Qed.

(** The digits end at the line's end, so data behind the line does not matter. *)
Lemma read_digits_app s d n v :
  seek s = Some n → read_digits (s ++ d) v = read_digits s v.
Proof.
  revert n v. induction s as [|c s IH]; intros n v Hs; [done|].
  cbn [app read_digits]. destruct (Ascii.eqb_spec c chr_cr) as [|Hc]; [done|].
  destruct (c_isdigit c); [|done]. destruct (ll_arith _) as [w|]; simpl; [|done].
  destruct (ll_arith _) as [w'|]; simpl; [|done].
  destruct s as [|e s]; [done|]. simpl in Hs.
  destruct (Ascii.eqb_spec c chr_cr); [done|]. simpl in Hs.
  apply fmap_Some in Hs as (m & Hm & _). by apply (IH m).
Qed.

Lemma readLongLong_app s d n : seek s = Some n → readLongLong (s ++ d) = readLongLong s.
Proof.
  intros Hs. destruct s as [|c s]; [done|]. unfold readLongLong. cbn [app].
  assert (Ascii.eqb c chr_cr = false → ∃ m, seek s = Some m) as Htl.
  { intros Hc. destruct s as [|e s]; [done|]. simpl in Hs. rewrite Hc in Hs. simpl in Hs.
    apply fmap_Some in Hs as (m & Hm & _). by exists m. }
  destruct (Ascii.eqb_spec c "-") as [->|_].
  { destruct (Htl eq_refl) as [m Hm]. by rewrite (read_digits_app s d m). }
  destruct (Ascii.eqb_spec c "+") as [->|_].
  { destruct (Htl eq_refl) as [m Hm]. by rewrite (read_digits_app s d m). }
  by rewrite <- (read_digits_app (c :: s) d n).
Qed.

Section More.
Context (d : bytes) (r1 r2 : redisReader) (Hm : more d r1 r2).

Lemma more_len : r_len r2 - r_pos r2 = r_len r1 - r_pos r1 + Z.of_nat (length d).
Proof.
  rewrite <- !unread_length by (eapply more_ok, Hm || apply Hm).
  rewrite (more_unread _ _ _ Hm), length_app. lia.
Qed.

(** Moving the cursor over data that both have. *)
Lemma more_set_pos k :
  0 <= k <= r_len r1 - r_pos r1 → more d (set_pos r1 (r_pos r1 + k)) (set_pos r2 (r_pos r2 + k)).
Proof.
  intros Hk. pose proof more_len as Hl.
  destruct Hm as ([(? & ? & ?) Hlen] & b & p & -> & (? & ? & ?) & Hd). simpl in Hl.
  split; [split; [|done]; unfold buf_ok; simpl; lia|].
  exists b, (p + k). split; [done|]. split; [unfold buf_ok; lia|].
  unfold unread in *. simpl. rewrite !Z2Nat.inj_add, <- !drop_drop, Hd by lia.
  rewrite drop_app_le; [done|]. rewrite length_drop. lia.
Qed.

Lemma unread_int : Z.of_nat (length (unread r1)) <= INT_MAX.
Proof. destruct Hm as ([(? & ? & ?) Hl] & _). unfold unread. rewrite length_drop. lia. Qed.
End More.

(** Where the next line of a reader ends. *)
Definition line_end (r : redisReader) : option nat := seekNewline (unread r) (r_len r - r_pos r).

Lemma line_end_seek r : reader_ok r → line_end r = seek (unread r).
Proof.
  intros Hr. unfold line_end. rewrite <- unread_length by done. apply seekNewline_all.
  exact (unread_int [] r r (more_refl _ Hr)).
Qed.

Lemma line_end_bound r n : reader_ok r → line_end r = Some n → Z.of_nat n + 2 <= r_len r - r_pos r.
Proof.
  intros Hr. rewrite line_end_seek by done. intros Hn%seek_bound.
  rewrite <- unread_length by done. lia.
Qed.

Lemma line_end_more d r1 r2 n : more d r1 r2 → line_end r1 = Some n → line_end r2 = Some n.
Proof.
  intros Hm. rewrite !line_end_seek by (eapply more_ok, Hm || apply Hm).
  rewrite (more_unread _ _ _ Hm). apply seek_app.
Qed.

Lemma line_number_more d r1 r2 n :
  more d r1 r2 → line_end r1 = Some n → readLongLong (unread r2) = readLongLong (unread r1).
Proof.
  intros Hm. rewrite line_end_seek by apply Hm. rewrite (more_unread _ _ _ Hm).
  apply readLongLong_app.
Qed.

(** * Steps that agree *)

(** What [o2] does with more data when [o1] was not waiting for it. *)
Definition agree (d : bytes) (o1 o2 : outcome (bool * redisReader)) : Prop :=
  match o1 with
  | Fault f => o2 = Fault f
  | Val (true, r1) => ∃ r2, o2 = Val (true, r2) ∧ more d r1 r2
  | Val (false, r1) => r_err r1 ≠ 0 → o2 = Val (false, r1)
  end.

Definition keeps_buf (f : redisReader → outcome redisReader) : Prop :=
  ∀ r b p l, f (set_buf r b p l) = (r' ← f r; Val (set_buf r' b p l)).

Lemma keeps_buf_val f r r' :
  keeps_buf f → f r = Val r' → set_buf r' (r_buf r) (r_pos r) (r_len r) = r'.
Proof.
  intros Hf Hr. pose proof (Hf r (r_buf r) (r_pos r) (r_len r)) as H.
  replace (set_buf r (r_buf r) (r_pos r) (r_len r)) with r in H by (by destruct r).
  rewrite Hr in H. simpl in H. by injection H as H.
Qed.

Lemma keeps_buf_ok f r r' : keeps_buf f → f r = Val r' → reader_ok r → reader_ok r'.
Proof.
  intros Hf Hr Hok. rewrite <- (keeps_buf_val f r r' Hf Hr).
  destruct Hok as [Hb Hl]. rewrite Hl. by split.
Qed.

Lemma keeps_buf_more f d r1 r2 r1' :
  keeps_buf f → more d r1 r2 → f r1 = Val r1' → ∃ r2', f r2 = Val r2' ∧ more d r1' r2'.
Proof.
  intros Hf Hm Hr. pose proof (keeps_buf_ok f r1 r1' Hf Hr (proj1 Hm)) as Hok.
  pose proof (keeps_buf_val f r1 r1' Hf Hr) as Hid.
  destruct Hm as (_ & b & p & -> & Hb & Hd). rewrite Hf, Hr. simpl. eexists. split; [done|].
  split; [done|]. exists b, p. split; [done|]. split; [done|].
  rewrite Hd. by rewrite <- Hid.
Qed.

Lemma agree_finish f d r1 r2 :
  keeps_buf f → more d r1 r2 →
  agree d (r ← f r1; Val (true, r)) (r ← f r2; Val (true, r)).
Proof.
  intros Hf Hm. destruct (f r1) as [r1'|e] eqn:Hr; simpl.
  - destruct (keeps_buf_more f d r1 r2 r1' Hf Hm Hr) as (r2' & -> & H2). by exists r2'.
  - destruct Hm as (_ & b & p & -> & _). rewrite Hf, Hr. done.
Qed.

(** A creation followed by the move to the next task. *)
Definition keeps_buf_obj (c : redisReader → outcome (nat * redisReader)) : Prop :=
  ∀ r b p l, c (set_buf r b p l) = (x ← c r; Val (on_buf b p l x)).

Definition finish (c : redisReader → outcome (nat * redisReader)) (r : redisReader)
    : outcome redisReader :=
  '(obj, r) ← c r; moveToNextTask (reply_if_root r obj).

Lemma finish_keeps c : keeps_buf_obj c → keeps_buf (finish c).
Proof.
  intros Hc r b p l. unfold finish. rewrite Hc. destruct (c r) as [[obj r']|]; simpl; [|done].
  by rewrite reply_if_root_buf, moveToNextTask_buf.
Qed.

(** [processBulkItem] moves the cursor between the two. *)
Lemma finish_set_pos c r k :
  keeps_buf_obj c →
  ('(obj, r) ← c r; r ← moveToNextTask (reply_if_root (set_pos r (r_pos r + k)) obj); Val (true, r))
  = (r ← finish c (set_pos r (r_pos r + k)); Val (true, r)).
Proof.
  intros Hc. unfold finish. pose proof (Hc r (r_buf r) (r_pos r) (r_len r)) as Hid.
  replace (set_buf r (r_buf r) (r_pos r) (r_len r)) with r in Hid by (by destruct r).
  change (set_pos r (r_pos r + k)) with (set_buf r (r_buf r) (r_pos r + k) (r_len r)).
  rewrite Hc. destruct (c r) as [[obj r']|]; simpl in *; [|done].
  injection Hid as Hid. destruct r'. unfold set_buf in Hid. simpl in Hid.
  injection Hid as -> -> ->. unfold set_pos, set_buf. simpl. by destruct (moveToNextTask _).
Qed.

Definition line_object (cur : redisReadTask) (p : bytes) (len : nat) (r : redisReader)
    : outcome (nat * redisReader) :=
  if t_type cur =? REDIS_REPLY_INTEGER
  then v ← readLongLong p; createIntegerObject r cur v
  else createStringObject r cur (take len p).

Lemma line_object_keeps cur p len : keeps_buf_obj (line_object cur p len).
Proof.
  intros r b q l. unfold line_object. destruct (_ =? _); [|apply createStringObject_buf].
  destruct (readLongLong p); [|done]. apply create_object_buf.
Qed.

Lemma processLineItem_eq r :
  processLineItem r
  = (cur ← cur_task r;
     match line_end r with
     | Some n => r ← finish (line_object cur (unread r) n) (set_pos r (r_pos r + (Z.of_nat n + 2)));
                 Val (true, r)
     | None => Val (false, r)
     end).
Proof.
  unfold processLineItem, readLine, line_end, finish, line_object.
  destruct (cur_task r) as [cur|]; simpl; [|done].
  destruct (seekNewline _ _) as [n|]; [|done]. rewrite Z.add_assoc.
  destruct (if t_type cur =? REDIS_REPLY_INTEGER then _ else _) as [[obj r']|]; simpl; [|done].
  by destruct (moveToNextTask _).
Qed.

Lemma cur_task_more d r1 r2 : more d r1 r2 → cur_task r2 = cur_task r1.
Proof. by intros (_ & b & p & -> & _). Qed.

Lemma line_agree d r1 r2 :
  more d r1 r2 → r_err r1 = 0 → agree d (processLineItem r1) (processLineItem r2).
Proof.
  intros Hm He. rewrite !processLineItem_eq, (cur_task_more _ _ _ Hm).
  destruct (cur_task r1) as [cur|]; simpl; [|done].
  destruct (line_end r1) as [n|] eqn:Hn; [|by intros []].
  pose proof (line_end_bound _ _ (proj1 Hm) Hn) as Hb.
  rewrite (line_end_more _ _ _ _ Hm Hn).
  assert (line_object cur (unread r2) n = line_object cur (unread r1) n) as ->.
  { unfold line_object. rewrite (line_number_more _ _ _ _ Hm Hn), (more_unread _ _ _ Hm).
    rewrite take_app_le; [done|]. apply Nat2Z.inj_le. rewrite unread_length by apply Hm. lia. }
  apply agree_finish; [apply finish_keeps, line_object_keeps|]. apply more_set_pos; [done|lia].
Qed.

Lemma line_stuck r r' :
  processLineItem r = Val (false, r') → r' = r.
Proof.
  rewrite processLineItem_eq. destruct (cur_task r) as [cur|]; simpl; [|done].
  destruct (line_end r); [|congruence]. destruct (finish _ _); simpl; congruence.
Qed.

(** The part of [processBulkItem] behind the line with the length, which ends at [n]. *)
Definition bulk_rest (cur : redisReadTask) (n : nat) (len : Z) (r : redisReader)
    : outcome (bool * redisReader) :=
  let bytelen := Z.of_nat n + 2 in
  if len <? 0 then
    r ← finish (λ r, createNilObject r cur) (set_pos r (r_pos r + bytelen)); Val (true, r)
  else
    k ← ll_arith (len + 2);
    let bytelen := u64 (bytelen + k) in
    if u64 (r_pos r + bytelen) <=? r_len r then
      str ← mem_read (unread r) (Z.of_nat n + 2) len;
      r ← finish (λ r, createStringObject r cur str) (set_pos r (r_pos r + bytelen)); Val (true, r)
    else Val (false, r).

Lemma nil_object_keeps cur : keeps_buf_obj (λ r, createNilObject r cur).
Proof. intros r b p l. apply create_object_buf. Qed.
Lemma string_object_keeps cur s : keeps_buf_obj (λ r, createStringObject r cur s).
Proof. intros r b p l. apply createStringObject_buf. Qed.

Lemma processBulkItem_eq r :
  processBulkItem r
  = (cur ← cur_task r;
     match line_end r with
     | Some n => len ← readLongLong (unread r); bulk_rest cur n len r
     | None => Val (false, r)
     end).
Proof.
  unfold processBulkItem, line_end, bulk_rest.
  destruct (cur_task r) as [cur|]; simpl; [|done].
  destruct (seekNewline _ _) as [n|]; [|done].
  destruct (readLongLong _) as [len|]; simpl; [|done].
  destruct (len <? 0).
  { rewrite <- (finish_set_pos _ r _ (nil_object_keeps cur)). done. }
  destruct (ll_arith _) as [k|]; simpl; [|done]. destruct (_ <=? _); [|done].
  destruct (mem_read _ _ _) as [str|]; simpl; [|done].
  by rewrite <- (finish_set_pos _ r _ (string_object_keeps cur str)).
Qed.

Lemma mem_read_inside b i n :
  0 <= i → 0 <= n → i + n <= Z.of_nat (length b) →
  mem_read b i n = Val (take (Z.to_nat n) (drop (Z.to_nat i) b)).
Proof.
  intros ? ? ?. unfold mem_read.
  destruct (Z.leb_spec 0 i); [|lia]. destruct (Z.leb_spec 0 n); [|lia].
  by destruct (Z.leb_spec (i + n) (Z.of_nat (length b))); [|lia].
Qed.

(** The size test, without wrap-around. *)
Lemma bulk_size r n k :
  reader_ok r → 0 <= k <= LLONG_MAX → line_end r = Some n →
  (u64 (r_pos r + u64 (Z.of_nat n + 2 + k)) <=? r_len r)
  = (Z.of_nat n + 2 + k <=? r_len r - r_pos r).
Proof.
  intros Hr Hk Hn. pose proof (line_end_bound _ _ Hr Hn). destruct Hr as [(? & ? & ?) Hl].
  unfold INT_MAX, LLONG_MAX in *. rewrite (u64_small (Z.of_nat n + 2 + k)) by lia.
  rewrite u64_small by lia. lia.
Qed.

Lemma bulk_agree d r1 r2 :
  more d r1 r2 → r_err r1 = 0 → agree d (processBulkItem r1) (processBulkItem r2).
Proof.
  intros Hm He. rewrite !processBulkItem_eq, (cur_task_more _ _ _ Hm).
  destruct (cur_task r1) as [cur|]; simpl; [|done].
  destruct (line_end r1) as [n|] eqn:Hn; [|by intros []].
  pose proof (line_end_bound _ _ (proj1 Hm) Hn) as Hb.
  rewrite (line_end_more _ _ _ _ Hm Hn), (line_number_more _ _ _ _ Hm Hn).
  destruct (readLongLong (unread r1)) as [len|]; simpl; [|done]. unfold bulk_rest.
  destruct (Z.ltb_spec len 0).
  { apply agree_finish; [apply finish_keeps, nil_object_keeps|]. apply more_set_pos; [done|lia]. }
  unfold ll_arith. destruct (_ && _) eqn:Hk; simpl; [|done].
  rewrite (bulk_size r1) by (done || apply Hm || lia).
  rewrite (bulk_size r2) by (by eapply more_ok || by eapply line_end_more || lia).
  rewrite (more_len d r1 r2 Hm).
  destruct (Z.leb_spec (Z.of_nat n + 2 + (len + 2)) (r_len r1 - r_pos r1)); [|by intros []].
  destruct (Z.leb_spec (Z.of_nat n + 2 + (len + 2)) (r_len r1 - r_pos r1 + Z.of_nat (length d)));
    [|lia].
  pose proof (unread_length _ (proj1 Hm)) as Hlen. rewrite (more_unread _ _ _ Hm).
  rewrite !mem_read_inside by (rewrite ?length_app; lia). simpl.
  rewrite drop_app_le, take_app_le by (rewrite ?length_drop; lia).
  apply agree_finish; [apply finish_keeps, string_object_keeps|].
  rewrite !u64_small by (pose proof (proj1 Hm) as [(? & ? & ?) ?]; unfold INT_MAX in *; lia).
  apply more_set_pos; [done|lia].
Qed.

Lemma bulk_stuck r r' : processBulkItem r = Val (false, r') → r' = r.
Proof.
  rewrite processBulkItem_eq. destruct (cur_task r) as [cur|]; simpl; [|done].
  destruct (line_end r); [|congruence]. destruct (readLongLong _); simpl; [|done]. unfold bulk_rest.
  destruct (_ <? 0); [destruct (finish _ _); simpl; congruence|].
  destruct (ll_arith _); simpl; [|done]. destruct (_ <=? _); [|congruence].
  destruct (mem_read _ _ _); simpl; [|done]. destruct (finish _ _); simpl; congruence.
Qed.

(** The part of [processMultiBulkItem] behind the line with the number of elements. *)
Definition multi_rest (cur : redisReadTask) (elements : Z) (r : redisReader) : outcome redisReader :=
  '(obj, r') ←
    (if elements =? -1 then
       '(obj, r) ← createNilObject r cur;
       r ← moveToNextTask r;
       Val (obj, r)
     else
       '(obj, r) ← createArrayObject r cur (i32 elements);
       if 0 <? elements then
         let r := set_task r (r_idx r)
                    (mkTask (t_type cur) (i32 elements) (t_idx cur) (Some obj) (t_parent cur)) in
         let r := set_stack r (<[Z.to_nat (r_idx r + 1) := element_task (r_idx r)]> (r_stack r))
                    (r_idx r + 1) in
         Val (obj, r)
       else
         r ← moveToNextTask r;
         Val (obj, r));
  Val (if r_idx r =? 0 then set_reply r' (Some obj) else r').

Lemma multi_rest_keeps cur elements : keeps_buf (multi_rest cur elements).
Proof.
  intros r b p l. unfold multi_rest, createNilObject, createArrayObject.
  destruct (elements =? -1); rewrite create_object_buf;
    (destruct (create_object r _ _) as [[obj r']|]; simpl; [|done]).
  - rewrite moveToNextTask_buf. destruct (moveToNextTask r'); simpl; [|done].
    by destruct (r_idx r =? 0).
  - destruct (0 <? elements); simpl; [by destruct (r_idx r =? 0)|].
    rewrite moveToNextTask_buf. destruct (moveToNextTask r'); simpl; [|done].
    by destruct (r_idx r =? 0).
Qed.

Definition too_deep (r : redisReader) : redisReader :=
  redisReaderSetError r REDIS_ERR_PROTOCOL
    (lit "No support for nested multi bulk replies with depth > 7").

Lemma processMultiBulkItem_eq r :
  processMultiBulkItem r
  = (cur ← cur_task r;
     if r_idx r =? 8 then Val (false, too_deep r)
     else
       match line_end r with
       | Some n =>
         elements ← readLongLong (unread r);
         r ← multi_rest cur elements (set_pos r (r_pos r + (Z.of_nat n + 2)));
         Val (true, r)
       | None => Val (false, r)
       end).
Proof.
  unfold processMultiBulkItem, readLine, line_end, multi_rest, too_deep.
  destruct (cur_task r) as [cur|]; cbn [mbind outcome_bind]; [|done].
  destruct (r_idx r =? 8); [done|].
  destruct (seekNewline _ _) as [n|]; [|done]. rewrite Z.add_assoc.
  destruct (readLongLong _) as [k|]; cbn [mbind outcome_bind]; [|done].
  change (r_idx (set_pos r (r_pos r + Z.of_nat n + 2))) with (r_idx r).
  by destruct (if k =? -1 then _ else _) as [[obj r']|].
Qed.

Lemma too_deep_more d r1 r2 : more d r1 r2 → too_deep r2 = too_deep r1.
Proof. by intros (_ & b & p & -> & _). Qed.

Lemma multi_agree d r1 r2 :
  more d r1 r2 → r_err r1 = 0 → agree d (processMultiBulkItem r1) (processMultiBulkItem r2).
Proof.
  intros Hm He. rewrite !processMultiBulkItem_eq, (cur_task_more _ _ _ Hm).
  destruct (cur_task r1) as [cur|]; simpl; [|done].
  assert (r_idx r2 = r_idx r1) as -> by (by destruct Hm as (_ & b & p & -> & _)).
  destruct (r_idx r1 =? 8); [by rewrite (too_deep_more _ _ _ Hm)|].
  destruct (line_end r1) as [n|] eqn:Hn; [|by intros []].
  pose proof (line_end_bound _ _ (proj1 Hm) Hn) as Hb.
  rewrite (line_end_more _ _ _ _ Hm Hn), (line_number_more _ _ _ _ Hm Hn).
  destruct (readLongLong (unread r1)) as [k|]; simpl; [|done].
  apply agree_finish; [apply multi_rest_keeps|]. apply more_set_pos; [done|lia].
Qed.

Lemma multi_stuck r r' :
  processMultiBulkItem r = Val (false, r') → r_err r' = 0 → r' = r.
Proof.
  rewrite processMultiBulkItem_eq. destruct (cur_task r) as [cur|]; simpl; [|done].
  destruct (r_idx r =? 8); [by intros [= <-]|].
  destruct (line_end r); [|congruence]. destruct (readLongLong _); simpl; [|done].
  destruct (multi_rest _ _ _); simpl; congruence.
Qed.

(** * Items *)

Lemma typed_agree d r1 r2 :
  more d r1 r2 → r_err r1 = 0 → agree d (process_typed r1) (process_typed r2).
Proof.
  intros Hm He. unfold process_typed. rewrite (cur_task_more _ _ _ Hm).
  destruct (cur_task r1) as [cur|]; simpl; [|done].
  destruct (_ || _); [by apply line_agree|].
  destruct (_ =? _); [by apply bulk_agree|].
  destruct (_ =? _); [by apply multi_agree|done].
Qed.

Lemma typed_stuck r r' :
  process_typed r = Val (false, r') → r_err r' = 0 → r' = r.
Proof.
  unfold process_typed. destruct (cur_task r) as [cur|]; simpl; [|done].
  destruct (_ || _); [intros H _; by apply line_stuck|].
  destruct (_ =? _); [intros H _; by apply bulk_stuck|].
  destruct (_ =? _); [apply multi_stuck|done].
Qed.

(** The two outcomes are the same but for the buffers. *)
Definition same (o1 o2 : outcome (bool * redisReader)) : Prop :=
  match o1, o2 with
  | Fault f, Fault g => f = g
  | Val (b1, r1), Val (b2, r2) => b1 = b2 ∧ (more [] r1 r2 ∨ r1 = r2 ∧ r_err r1 ≠ 0)
  | _, _ => False
  end.

(** Steps that agree both ways are the same, when a step that waits leaves the reader as it is. *)
Lemma agree_same r1 r2 (f : redisReader → outcome (bool * redisReader)) :
  more [] r1 r2 → r_err r1 = 0 →
  (∀ r r' d, more d r r' → r_err r = 0 → agree d (f r) (f r')) →
  (∀ r r', f r = Val (false, r') → r_err r' = 0 → r' = r) →
  same (f r1) (f r2).
Proof.
  intros Hm He Hagree Hstuck. pose proof (Hagree _ _ _ Hm He) as H12.
  assert (He2 : r_err r2 = 0) by (destruct Hm as (_ & b & p & -> & _); done).
  pose proof (Hagree _ _ _ (more_sym _ _ Hm) He2) as H21.
  destruct (f r1) as [[[] r1']|e1] eqn:E1; simpl in H12.
  - destruct H12 as (r2' & -> & Hr). split; [done|by left].
  - destruct (decide (r_err r1' = 0)) as [Hz|Hnz].
    + rewrite (Hstuck _ _ E1 Hz) in *.
      destruct (f r2) as [[[] r2']|e2] eqn:E2; simpl in H21.
      * by destruct H21 as (? & [=] & _).
      * destruct (decide (r_err r2' = 0)) as [Hz2|Hnz2].
        { rewrite (Hstuck _ _ E2 Hz2). split; [done|by left]. }
        specialize (H21 Hnz2). injection H21 as ->. by destruct Hnz2.
      * done.
    + rewrite (H12 Hnz). split; [done|by right].
  - by rewrite H12.
Qed.

Lemma typed_same r1 r2 :
  more [] r1 r2 → r_err r1 = 0 → same (process_typed r1) (process_typed r2).
Proof.
  intros Hm He. apply (agree_same r1 r2 process_typed Hm He); [|apply typed_stuck].
  intros r r' d. apply typed_agree.
Qed.

(** The reader that has taken the type byte of its current task. *)
Definition typed (r : redisReader) (cur : redisReadTask) (type : Z) : redisReader :=
  set_task (set_pos r (r_pos r + 1)) (r_idx r)
    (mkTask type (t_elements cur) (t_idx cur) (t_obj cur) (t_parent cur)).

Lemma processItem_eq r :
  reader_ok r →
  processItem r
  = (cur ← cur_task r;
     if t_type cur <? 0 then
       match unread r with
       | [] => Val (false, r)
       | c :: _ =>
         match reply_type c with
         | Some type => process_typed (typed r cur type)
         | None => Val (false, redisReaderSetErrorProtocolByte (set_pos r (r_pos r + 1)) c)
         end
       end
     else process_typed r).
Proof.
  intros Hr. unfold processItem, readBytes. rewrite <- unread_length by done.
  destruct (cur_task r) as [cur|]; simpl; [|done]. destruct (t_type cur <? 0); [|done].
  destruct (unread r) as [|c s]; [done|].
  destruct (Z.leb_spec 1 (Z.of_nat (length (c :: s)))) as [|Hl]; [|cbn [length] in Hl; lia].
  simpl. by destruct (reply_type c).
Qed.

Lemma typed_more d r1 r2 cur type :
  more d r1 r2 → unread r1 ≠ [] → more d (typed r1 cur type) (typed r2 cur type).
Proof.
  intros Hm Hne. assert (1 <= r_len r1 - r_pos r1) as Hl.
  { rewrite <- unread_length by apply Hm. destruct (unread r1); [done|cbn [length]; lia]. }
  pose proof (more_set_pos d r1 r2 Hm 1 ltac:(lia)) as (Hok & b & p & Heq & Hb & Hd).
  unfold typed, set_task. rewrite Heq.
  assert (r_idx r2 = r_idx r1) as -> by (by destruct Hm as (_ & ? & ? & -> & _)).
  split; [exact Hok|]. by exists b, p.
Qed.

Lemma type_of_byte c type : reply_type c = Some type → (type <? 0) = false.
Proof. unfold reply_type. repeat (destruct (Ascii.eqb _ _); [by intros [= <-]|]). done. Qed.

(** The current task of a reader that has taken the type byte. *)
Lemma typed_cur r cur type :
  cur_task r = Val cur →
  cur_task (typed r cur type)
  = Val (mkTask type (t_elements cur) (t_idx cur) (t_obj cur) (t_parent cur)).
Proof.
  unfold cur_task, task_at, typed, set_task. simpl.
  destruct (r_idx r <? 0); [done|]. destruct (r_stack r !! _) eqn:Hs; simpl; [|done].
  intros [= ->]. rewrite list_lookup_insert_eq; [done|]. by eapply lookup_lt_Some.
Qed.

Lemma item_agree d r1 r2 :
  more d r1 r2 → r_err r1 = 0 → agree d (processItem r1) (processItem r2).
Proof.
  intros Hm He. pose proof (more_ok _ _ _ Hm) as Hok2. pose proof (proj1 Hm) as Hok1.
  rewrite !processItem_eq by done. rewrite (cur_task_more _ _ _ Hm), (more_unread _ _ _ Hm).
  destruct (cur_task r1) as [cur|]; simpl; [|done].
  destruct (t_type cur <? 0); [|by apply typed_agree].
  destruct (unread r1) as [|c s] eqn:Hu; [by intros []|]. simpl.
  destruct (reply_type c) as [type|].
  - apply typed_agree; [|done]. apply typed_more; [done|by rewrite Hu].
  - intros _. do 2 f_equal. by destruct Hm as (_ & b & p & -> & _).
Qed.

(** A step that waits may have taken the type byte. *)
Lemma item_stuck r r' :
  reader_ok r → processItem r = Val (false, r') → r_err r' = 0 →
  r' = r ∧ (unread r = [] ∨ process_typed r = Val (false, r) ∧
            ∃ cur, cur_task r = Val cur ∧ (t_type cur <? 0) = false) ∨
  ∃ cur c s type, cur_task r = Val cur ∧ (t_type cur <? 0) = true ∧ unread r = c :: s ∧
    reply_type c = Some type ∧ r' = typed r cur type.
Proof.
  intros Hr. rewrite processItem_eq by done.
  destruct (cur_task r) as [cur|]; simpl; [|done].
  destruct (t_type cur <? 0) eqn:Ht.
  - destruct (unread r) as [|c s] eqn:Hu; [intros [= <-] _; left; auto|].
    destruct (reply_type c) as [type|] eqn:Hc.
    + intros H He. right. exists cur, c, s, type. by rewrite (typed_stuck _ _ H He).
    + by intros [= <-].
  - intros H He. left. pose proof (typed_stuck _ _ H He) as ->. split; [done|]. right.
    split; [done|]. by exists cur.
Qed.

Lemma item_same r1 r2 :
  more [] r1 r2 → r_err r1 = 0 → same (processItem r1) (processItem r2).
Proof.
  intros Hm He. pose proof (more_ok _ _ _ Hm) as Hok2. pose proof (proj1 Hm) as Hok1.
  rewrite !processItem_eq by done.
  rewrite (cur_task_more _ _ _ Hm), (more_unread _ _ _ Hm), app_nil_r.
  destruct (cur_task r1) as [cur|]; simpl; [|done].
  destruct (t_type cur <? 0); [|by apply typed_same].
  destruct (unread r1) as [|c s] eqn:Hu; [split; [done|by left]|].
  destruct (reply_type c) as [type|].
  - apply typed_same; [|done]. apply typed_more; [done|by rewrite Hu].
  - split; [done|]. right. split; [|done].
    by destruct Hm as (_ & b & p & -> & _).
Qed.

(** A step that waited goes on, with the data it waited for, as if it had had them at once. *)
Lemma item_feed d r1 r1' r2 r3 :
  more d r1 r2 → r_err r1 = 0 → processItem r1 = Val (false, r1') → r_err r1' = 0 →
  more d r1' r3 → same (processItem r3) (processItem r2).
Proof.
  intros Hm He Hstep He' Hm3. pose proof (proj1 Hm) as Hok1.
  assert (He3 : r_err r3 = 0) by (destruct Hm3 as (_ & ? & ? & -> & _); done).
  destruct (item_stuck _ _ Hok1 Hstep He')
    as [[-> _]|(cur & c & s & type & Hcur & Ht & Hu & Hc & ->)].
  - apply item_same; [by eapply more_both|done].
  - rewrite (processItem_eq r3), (processItem_eq r2) by (by eapply more_ok).
    rewrite (cur_task_more _ _ _ Hm3), (cur_task_more _ _ _ Hm), (typed_cur _ _ _ Hcur), Hcur.
    simpl. rewrite (type_of_byte _ _ Hc), Ht, (more_unread _ _ _ Hm), Hu. simpl. rewrite Hc.
    apply typed_same; [|done]. eapply more_both; [exact Hm3|].
    apply typed_more; [done|by rewrite Hu].
Qed.

(** * What a step leaves as it was *)

Definition same_fields (r r' : redisReader) : Prop :=
  r_err r' = r_err r ∧ r_reply r' = r_reply r ∧ r_idx r' = r_idx r ∧ r_stack r' = r_stack r.

Lemma create_object_fields r task o x : create_object r task o = Val x → same_fields r x.2.
Proof.
  unfold create_object. destruct (t_parent task) as [q|]; [|by intros [= <-]].
  destruct (r_stack r !! q) as [parent|]; simpl; [|done].
  destruct (t_obj parent) as [po|]; simpl; [|done].
  destruct (_ !! po) as [[| | |]|]; try done. destruct element; simpl; [|done].
  destruct (_ && _); [by intros [= <-]|done].
Qed.

Lemma createStringObject_fields r task s x :
  createStringObject r task s = Val x → same_fields r x.2.
Proof. unfold createStringObject. destruct (_ || _); [apply create_object_fields|done]. Qed.

(** The task stack has its size, and a task below the root means that the root has its reply. *)
Definition busy (r : redisReader) : Prop :=
  length (r_stack r) = 9%nat ∧ 0 <= r_idx r ∧ (r_idx r = 0 ∨ is_Some (r_reply r)).
Definition stepped (r : redisReader) : Prop :=
  length (r_stack r) = 9%nat ∧ -1 <= r_idx r ∧ is_Some (r_reply r).

Lemma busy_same r r' : same_fields r r' → busy r → busy r'.
Proof. intros (_ & H1 & H2 & H3). unfold busy. by rewrite H1, H2, H3. Qed.

Lemma stepped_busy r : stepped r → 0 <= r_idx r → busy r.
Proof. intros (H1 & H2 & H3) ?. split; [done|]. split; [done|by right]. Qed.

Lemma moveToNextTask_fields fuel r r' :
  moveToNextTask_loop fuel r = Val r' →
  r_err r' = r_err r ∧ r_reply r' = r_reply r ∧ length (r_stack r') = length (r_stack r) ∧
  (0 <= r_idx r → -1 <= r_idx r').
Proof.
  revert r. induction fuel as [|fuel IH]; intros r; simpl;
    (destruct (Z.ltb_spec (r_idx r) 0);
     [intros [= <-]; split_and!; (done || (intros; lia))|]);
    (destruct (Z.eqb_spec (r_idx r) 0);
     [intros [= <-]; simpl; split_and!; (done || (intros; lia))|]); [done|].
  destruct (cur_task r) as [cur|]; simpl; [|done].
  destruct (task_at r _) as [prv|]; simpl; [|done].
  destruct (negb _); [done|].
  destruct (t_idx cur =? _).
  { intros Hr%IH. simpl in Hr. destruct Hr as (? & ? & ? & Hi). split_and!; [done..|].
    intros _. apply Hi. lia. }
  destruct (negb _); [done|]. destruct (int_arith _); simpl; [|done]. intros [= <-]. simpl.
  rewrite length_insert. split_and!; try done. intros; lia.
Qed.

(** A computation that keeps the buffer and the error flag, and sets the reply of a root task. *)
Definition quiet (f : redisReader → outcome redisReader) : Prop :=
  keeps_buf f ∧ ∀ r r', f r = Val r' → r_err r' = r_err r ∧ (busy r → stepped r').

Lemma move_stepped r r' :
  busy r → is_Some (r_reply r) → moveToNextTask r = Val r' → stepped r'.
Proof.
  intros (H1 & H2 & _) Hrep Hmv. apply moveToNextTask_fields in Hmv as (_ & Hr & Hs & Hi).
  split; [by rewrite Hs|]. split; [auto|by rewrite Hr].
Qed.

Lemma finish_quiet c :
  keeps_buf_obj c → (∀ r x, c r = Val x → same_fields r x.2) → quiet (finish c).
Proof.
  intros Hc Her. split; [by apply finish_keeps|]. intros r r'. unfold finish.
  destruct (c r) as [[obj r1]|] eqn:E; simpl; [|done]. pose proof (Her _ _ E) as Hf. simpl in Hf.
  intros Hmv. split.
  - apply moveToNextTask_fields in Hmv as [-> _]. unfold reply_if_root.
    destruct Hf as (He & _). by destruct (r_idx r1 =? 0).
  - intros Hb%(busy_same _ _ Hf). revert Hmv. unfold reply_if_root.
    destruct (Z.eqb_spec (r_idx r1) 0); apply move_stepped; simpl.
    + destruct Hb as (? & ? & _). split; [done|]. split; [done|by left].
    + by eexists.
    + done.
    + by destruct Hb as (_ & _ & [|]).
Qed.

Lemma line_object_quiet cur p n : quiet (finish (line_object cur p n)).
Proof.
  apply finish_quiet; [apply line_object_keeps|]. intros r x. unfold line_object.
  destruct (_ =? _); [|apply createStringObject_fields].
  destruct (readLongLong p); simpl; [apply create_object_fields|done].
Qed.

Lemma nil_object_quiet cur : quiet (finish (λ r, createNilObject r cur)).
Proof. apply finish_quiet; [apply nil_object_keeps|]. intros r x. apply create_object_fields. Qed.

Lemma string_object_quiet cur s : quiet (finish (λ r, createStringObject r cur s)).
Proof.
  apply finish_quiet; [apply string_object_keeps|]. intros r x. apply createStringObject_fields.
Qed.

(** The end of [processMultiBulkItem] when it moves on. *)
Lemma move_root r r1 r2 obj :
  same_fields r r1 → moveToNextTask r1 = Val r2 →
  let r' := if r_idx r =? 0 then set_reply r2 (Some obj) else r2 in
  r_err r' = r_err r ∧ (busy r → stepped r').
Proof.
  intros Hf Hmv. cbv zeta. pose proof (moveToNextTask_fields _ _ _ Hmv) as (He & Hr & Hs & Hi).
  destruct Hf as (H1 & H2 & H3 & H4). destruct (Z.eqb_spec (r_idx r) 0) as [Hz|Hz]; simpl.
  - split; [congruence|]. intros (Hb & ? & _). split; [simpl; congruence|].
    split; [simpl; apply Hi; lia|by eexists].
  - split; [congruence|]. intros (Hb & ? & [|Hrep]); [done|].
    split; [congruence|]. split; [apply Hi; lia|]. by rewrite Hr, H2.
Qed.

Lemma multi_rest_quiet cur k : quiet (multi_rest cur k).
Proof.
  split; [apply multi_rest_keeps|]. intros r r'.
  unfold multi_rest, createNilObject, createArrayObject.
  destruct (k =? -1);
    (destruct (create_object r _ _) as [[obj r1]|] eqn:E; simpl; [|done]);
    apply create_object_fields in E; simpl in E.
  - destruct (moveToNextTask r1) as [r2|] eqn:Em; simpl; [|done]. intros [= <-].
    by apply (move_root r r1).
  - destruct (0 <? k).
    + intros [= <-]. destruct E as (E1 & E2 & E3 & E4). unfold busy, stepped.
      destruct (Z.eqb_spec (r_idx r) 0); simpl; (split; [done|]);
        rewrite !length_insert, ?E2, E3, E4; intros (H1 & H2 & [H3|H3]);
        (split; [done|]); (split; [lia|]); (done || by eexists).
    + destruct (moveToNextTask r1) as [r2|] eqn:Em; simpl; [|done]. intros [= <-].
      by apply (move_root r r1).
Qed.

(** A step that succeeds consumes data, sets no error, and leaves a reply. *)
Definition consumes (r r' : redisReader) : Prop :=
  r_err r' = r_err r ∧ (length (unread r') < length (unread r))%nat ∧
  (busy r → stepped r') ∧ r_buf r' = r_buf r.

Lemma quiet_consumes f r r' n :
  quiet f → f (set_pos r (r_pos r + (Z.of_nat n + 2))) = Val r' → reader_ok r →
  Z.of_nat n + 2 <= r_len r - r_pos r → consumes r r'.
Proof.
  intros [Hk Hq] Hf [(? & ? & ?) Hl] Hn.
  destruct (Hq _ _ Hf) as [He Hrep]. split; [done|]. split; [|split; [done|]].
  2: { by rewrite <- (keeps_buf_val _ _ _ Hk Hf). }
  rewrite <- (keeps_buf_val _ _ _ Hk Hf). unfold unread. simpl. rewrite !length_drop. lia.
Qed.

Lemma typed_consumes r r' : reader_ok r → process_typed r = Val (true, r') → consumes r r'.
Proof.
  intros Hr. unfold process_typed. destruct (cur_task r) as [cur|] eqn:Hcur; simpl; [|done].
  destruct (_ || _); [|destruct (_ =? _); [|destruct (_ =? _); [|done]]];
    rewrite ?processLineItem_eq, ?processBulkItem_eq, ?processMultiBulkItem_eq, Hcur; simpl.
  - destruct (line_end r) as [n|] eqn:Hn; [|done]. destruct (finish _ _) as [r1|] eqn:E; [|done].
    intros [= <-]. eapply quiet_consumes; [apply line_object_quiet|exact E|done|].
    by apply line_end_bound.
  - destruct (line_end r) as [n|] eqn:Hn; [|done]. pose proof (line_end_bound _ _ Hr Hn) as Hb.
    destruct (readLongLong _) as [len|]; simpl; [|done]. unfold bulk_rest.
    destruct (Z.ltb_spec len 0).
    { destruct (finish _ _) as [r1|] eqn:E; simpl; [|done]. intros [= <-].
      eapply quiet_consumes; [apply nil_object_quiet|exact E|done|done]. }
    unfold ll_arith. destruct (_ && _) eqn:Hk; simpl; [|done].
    rewrite (bulk_size r) by (done || lia). destruct (Z.leb_spec (Z.of_nat n + 2 + (len + 2)) (r_len r - r_pos r)); [|done].
    destruct (mem_read _ _ _) as [str|]; simpl; [|done].
    destruct (finish _ _) as [r1|] eqn:E; simpl; [|done]. intros [= <-].
    rewrite u64_small in E by (destruct Hr as [(? & ? & ?) ?]; unfold INT_MAX in *; lia).
    replace (Z.of_nat n + 2 + (len + 2)) with (Z.of_nat (n + Z.to_nat len + 2) + 2) in E by lia.
    eapply quiet_consumes; [apply string_object_quiet|exact E|done|lia].
  - destruct (r_idx r =? 8); [done|].
    destruct (line_end r) as [n|] eqn:Hn; [|done].
    destruct (readLongLong _) as [k|]; simpl; [|done].
    destruct (multi_rest _ _ _) as [r1|] eqn:E; [|done]. intros [= <-].
    eapply quiet_consumes; [apply multi_rest_quiet|exact E|done|]. by apply line_end_bound.
Qed.

Lemma item_consumes r r' : reader_ok r → processItem r = Val (true, r') → consumes r r'.
Proof.
  intros Hr. rewrite processItem_eq by done. destruct (cur_task r) as [cur|]; simpl; [|done].
  destruct (t_type cur <? 0); [|by apply typed_consumes].
  destruct (unread r) as [|c s] eqn:Hu; [done|]. destruct (reply_type c) as [type|]; [|done].
  pose proof (typed_more [] r r cur type (more_refl _ Hr) ltac:(by rewrite Hu)) as Ht.
  intros H. apply typed_consumes in H as (He & Hl & Hrep & Hbuf); [|apply Ht].
  split; [done|]. split; [|split; [|exact Hbuf]; intros Hb; apply Hrep; revert Hb;
    unfold busy, typed, set_task; simpl; by rewrite length_insert].
  assert (unread (typed r cur type) = s) as Heq.
  { unfold typed, unread. simpl. unfold unread in Hu.
    rewrite Z2Nat.inj_add, <- drop_drop, Hu by (destruct Hr as [(? & ? & ?) ?]; lia). done. }
  rewrite Heq in Hl. rewrite Hu. cbn [length]. lia.
Qed.
