(* ===== verification/HiredisDrain.v ===== *)
(** The reader as its callers use it: fed with what arrives, and emptied of its replies after each
    feed.  The replies do not depend on how the stream is cut into pieces. *)
From Stdlib Require Import Ascii String ZArith Lia.
From stdpp Require Import base list.
From S2P Require Import Prelude Common SdsArgs Sds SdsProps Hiredis HiredisReader HiredisFeed.
Local Open Scope Z_scope.

(** * The loop of [redisReaderGetReply] *)

Definition run (r : redisReader) : outcome redisReader := process_items (S (length (unread r))) r.

Lemma item_ok r r' :
  reader_ok r → r_err r = 0 → processItem r = Val (true, r') → reader_ok r'.
Proof.
  intros Hr He Hstep. pose proof (item_agree [] r r (more_refl r Hr) He) as Ha.
  rewrite Hstep in Ha. destruct Ha as (r2 & [= <-] & Hm). apply Hm.
Qed.

(** An item takes data, so the fuel is enough. *)
Lemma process_items_fuel n m r :
  reader_ok r → r_err r = 0 → (length (unread r) < n)%nat → (length (unread r) < m)%nat →
  process_items n r = process_items m r.
Proof.
  revert m r. induction n as [|n IH]; intros m r Hr He Hn Hm; [lia|].
  destruct m as [|m]; [lia|]. simpl. destruct (r_idx r <? 0); [done|].
  destruct (processItem r) as [[[] r']|] eqn:Hs; simpl; [|done|done].
  destruct (item_consumes _ _ Hr Hs) as (He' & Hl & _ & _).
  apply IH; [by eapply item_ok|by rewrite He'|lia|lia].
Qed.

Lemma run_eq r :
  reader_ok r → r_err r = 0 →
  run r = if r_idx r <? 0 then Val r
          else '(ok, r') ← processItem r; if (ok : bool) then run r' else Val r'.
Proof.
  intros Hr He. unfold run at 1. simpl. destruct (r_idx r <? 0); [done|].
  destruct (processItem r) as [[[] r']|] eqn:Hs; simpl; [|done|done].
  destruct (item_consumes _ _ Hr Hs) as (He' & Hl & _ & _).
  apply process_items_fuel; [by eapply item_ok|by rewrite He'|lia|lia].
Qed.

(** Induction on what is left to read. *)
Lemma reader_ind (P : redisReader → Prop) :
  (∀ r, (∀ r', (length (unread r') < length (unread r))%nat → P r') → P r) → ∀ r, P r.
Proof.
  intros Hstep r. remember (length (unread r)) as n eqn:Hn. revert r Hn.
  induction n as [n IH] using lt_wf_ind. intros r ->. apply Hstep. intros r' Hl. by eapply IH.
Qed.

(** Results that are the same but for the buffers. *)
Definition same_out (o1 o2 : outcome redisReader) : Prop :=
  match o1, o2 with
  | Fault f, Fault g => f = g
  | Val r1, Val r2 => more [] r1 r2 ∨ r1 = r2 ∧ r_err r1 ≠ 0
  | _, _ => False
  end.

Lemma more_err d r1 r2 : more d r1 r2 → r_err r2 = r_err r1.
Proof. by intros (_ & b & p & -> & _). Qed.
Lemma more_idx d r1 r2 : more d r1 r2 → r_idx r2 = r_idx r1.
Proof. by intros (_ & b & p & -> & _). Qed.

Lemma run_same r1 : ∀ r2, more [] r1 r2 → r_err r1 = 0 → same_out (run r1) (run r2).
Proof.
  induction r1 as [r1 IH] using reader_ind. intros r2 Hm He.
  pose proof (more_ok _ _ _ Hm) as Hok2. pose proof (proj1 Hm) as Hok1.
  rewrite !run_eq by (done || by rewrite (more_err _ _ _ Hm)).
  rewrite (more_idx _ _ _ Hm). destruct (r_idx r1 <? 0); [by left|].
  pose proof (item_same _ _ Hm He) as Hs.
  destruct (processItem r1) as [[b1 r1']|] eqn:E1, (processItem r2) as [[b2 r2']|] eqn:E2;
    simpl in *; try done. destruct Hs as [<- Hs]. destruct b1; [|done].
  destruct (item_consumes _ _ Hok1 E1) as (He' & Hl & _ & _).
  apply IH; [done|destruct Hs as [|[_ Hne]]; [done|by rewrite He' in Hne]|by rewrite He'].
Qed.

(** Running on a part of the data and then on the rest. *)
Lemma run_feed d r1 : ∀ r2,
  more d r1 r2 → r_err r1 = 0 →
  match run r1 with
  | Fault f => run r2 = Fault f
  | Val r1' =>
    if r_err r1' =? 0 then
      if r_idx r1' <? 0 then ∃ r2', run r2 = Val r2' ∧ more d r1' r2'
      else reader_ok r1' ∧ ∀ r3, more d r1' r3 → same_out (run r3) (run r2)
    else run r2 = Val r1'
  end.
Proof.
  induction r1 as [r1 IH] using reader_ind. intros r2 Hm He.
  pose proof (more_ok _ _ _ Hm) as Hok2. pose proof (proj1 Hm) as Hok1.
  assert (He2 : r_err r2 = 0) by (by rewrite (more_err _ _ _ Hm)).
  rewrite (run_eq r1 Hok1 He), (run_eq r2 Hok2 He2), (more_idx _ _ _ Hm).
  destruct (r_idx r1 <? 0) eqn:Hi; [rewrite He, Hi; simpl; by eexists|].
  pose proof (item_agree _ _ _ Hm He) as Ha.
  destruct (processItem r1) as [[[] r1']|] eqn:E1; simpl in *; [|clear IH|by rewrite Ha].
  - destruct Ha as (r2' & -> & Hm'). destruct (item_consumes _ _ Hok1 E1) as (He' & Hl & _ & _).
    apply IH; [done|done|by rewrite He'].
  - destruct (Z.eqb_spec (r_err r1') 0) as [He'|Hne]; [|by rewrite (Ha Hne)].
    assert (reader_ok r1' ∧ r_idx r1' = r_idx r1) as [Hok Hidx].
    { destruct (item_stuck _ _ Hok1 E1 He') as [[-> _]|(cur & c & s & t & _ & _ & Hu & _ & ->)];
        [done|]. split; [|done]. apply (typed_more [] r1 r1); [by apply more_refl|by rewrite Hu]. }
    rewrite Hidx, Hi. split; [done|]. intros r3 Hm3.
    pose proof (item_feed _ _ _ _ _ Hm He E1 He' Hm3) as Hs.
    pose proof (more_ok _ _ _ Hm3) as Hok3.
    assert (He3 : r_err r3 = 0) by (by rewrite (more_err _ _ _ Hm3)).
    rewrite (run_eq r3 Hok3 He3), (more_idx _ _ _ Hm3), Hidx, Hi.
    destruct (processItem r3) as [[b3 r3']|] eqn:E3, (processItem r2) as [[b2 r2']|] eqn:E2;
      simpl in *; try done. destruct Hs as [<- Hs]. destruct b3; [|done].
    destruct (item_consumes _ _ Hok3 E3) as (He3' & _ & _ & _).
    apply run_same; [|by rewrite He3'].
    destruct Hs as [|[_ Hne]]; [done|by rewrite He3' in Hne].
Qed.

(** * Between the calls *)

(** A reader that waits for data: between two replies, or inside one. *)
Definition resting (r : redisReader) : Prop :=
  reader_ok r ∧ r_err r = 0 ∧ length (r_stack r) = 9%nat ∧
  (r_idx r = -1 ∧ r_reply r = None ∨ busy r ∧ same_out (run r) (Val r)).

(** The same with data that has arrived since. *)
Definition alive (r : redisReader) : Prop :=
  reader_ok r ∧ r_err r = 0 ∧ length (r_stack r) = 9%nat ∧
  (r_idx r = -1 ∧ r_reply r = None ∨
   busy r ∧ (r_len r = 0 → same_out (run r) (Val r))).

Lemma resting_alive r : resting r → alive r.
Proof. intros (? & ? & ? & [|[]]); (do 3 (split; [done|])); [by left|by right]. Qed.

Definition open_task (r : redisReader) : redisReader :=
  if r_idx r =? -1 then set_stack r (<[0%nat := root_task]> (r_stack r)) 0 else r.

Lemma open_task_more d r1 r2 : more d r1 r2 → more d (open_task r1) (open_task r2).
Proof.
  intros Hm. unfold open_task. rewrite (more_idx _ _ _ Hm). destruct (r_idx r1 =? -1); [|done].
  destruct Hm as (Hok & b & p & -> & Hb & Hd). split; [exact Hok|]. by exists b, p.
Qed.

Lemma set_reply_more d r1 r2 o : more d r1 r2 → more d (set_reply r1 o) (set_reply r2 o).
Proof.
  intros (Hok & b & p & -> & Hb & Hd). split; [exact Hok|]. by exists b, p.
Qed.

Lemma open_task_keeps r :
  r_err (open_task r) = r_err r ∧ unread (open_task r) = unread r ∧
  (reader_ok r → reader_ok (open_task r)).
Proof. unfold open_task. by destruct (r_idx r =? -1). Qed.

(** Ready to process items. *)
Definition active (r : redisReader) : Prop := reader_ok r ∧ r_err r = 0 ∧ busy r.

Lemma alive_active r : alive r → active (open_task r).
Proof.
  intros (Hok & He & Hs & Hr). destruct (open_task_keeps r) as (He' & _ & Hok').
  split; [auto|]. split; [congruence|]. unfold open_task.
  destruct (Z.eqb_spec (r_idx r) (-1)) as [|Hne]; [|by destruct Hr as [[]|[]]].
  split; [simpl; by rewrite length_insert|]. simpl. split; [done|by left].
Qed.

(** What the loop leaves when there is no error. *)
Lemma run_rests r : active r → ∀ r', run r = Val r' → r_err r' = 0 →
  reader_ok r' ∧ r_buf r' = r_buf r ∧ (length (unread r') <= length (unread r))%nat ∧
  length (r_stack r') = 9%nat ∧
  (r_idx r' = -1 ∧ is_Some (r_reply r') ∧ (length (unread r') < length (unread r))%nat ∨
   busy r' ∧ same_out (run r') (Val r')).
Proof.
  induction r as [r IH] using reader_ind. intros (Hok & He & Hb) r' Hrun He'.
  pose proof Hrun as Hrun0. rewrite run_eq in Hrun by done.
  destruct (Z.ltb_spec (r_idx r) 0) as [Hn|_]; [destruct Hb; lia|].
  destruct (processItem r) as [[[] r1]|] eqn:Hs; simpl in Hrun; [|injection Hrun as ->|done].
  - destruct (item_consumes _ _ Hok Hs) as (He1 & Hl & Hst & Hbuf). specialize (Hst Hb).
    assert (Hok1 : reader_ok r1) by (by eapply item_ok).
    destruct (decide (0 <= r_idx r1)) as [Hp|Hp].
    + assert (active r1) as Ha by (split; [done|]; split; [by rewrite He1|by apply stepped_busy]).
      destruct (IH r1 Hl Ha r' Hrun He') as (? & ? & ? & ? & [(? & ? & ?)|?]);
        split_and!; try congruence; try lia; [left; split_and!; (done || lia)|by right].
    + rewrite run_eq in Hrun by (done || by rewrite He1).
      destruct (Z.ltb_spec (r_idx r1) 0); [|lia]. injection Hrun as <-.
      destruct Hst as (? & ? & ?). split_and!; [done|done|lia|done|].
      left. split_and!; [lia|done|lia].
  - pose proof (run_feed [] r r (more_refl r Hok) He) as Hf. rewrite Hrun0, He' in Hf. simpl in Hf.
    destruct (item_stuck _ _ Hok Hs He') as [[-> _]|(cur & c & s & t & _ & _ & Hu & _ & ->)].
    + destruct (Z.ltb_spec (r_idx r) 0); [destruct Hb; lia|].
      split_and!; [done|done|done|apply Hb|]. right. split; [done|].
      rewrite Hrun0. left. by apply more_refl.
    + assert (more [] (typed r cur t) (typed r cur t)) as Hm
        by (apply typed_more; [by apply more_refl|by rewrite Hu]).
      assert (busy (typed r cur t)) as Hb'.
      { revert Hb. unfold busy, typed, set_task. simpl. by rewrite length_insert. }
      destruct (Z.ltb_spec (r_idx (typed r cur t)) 0); [destruct Hb'; lia|].
      destruct Hf as [Hok' Hf]. split_and!; [done|done| |apply Hb'|].
      { unfold typed, set_task, unread. simpl. rewrite !length_drop. lia. }
      right. split; [done|]. by apply Hf.
Qed.

(** * One call of [redisReaderGetReply] *)

(** Without the shortcut for an empty buffer and without the discarded prefix. *)
Definition next (r : redisReader) : outcome (bool * option nat * redisReader) :=
  r ← run (open_task r);
  if negb (r_err r =? 0) then Val (false, None, r)
  else if r_idx r =? -1 then Val (true, r_reply r, set_reply r None) else Val (true, None, r).

(** Readers that go on alike when [d] is added to the first. *)
Definition alike (d : bytes) (r1 r2 : redisReader) : Prop := more d (open_task r1) (open_task r2).

Definition same_reply (o1 o2 : outcome (bool * option nat * redisReader)) : Prop :=
  match o1, o2 with
  | Fault f, Fault g => f = g
  | Val (b1, o1, r1), Val (b2, o2, r2) =>
    b1 = b2 ∧ o1 = o2 ∧ (alike [] r1 r2 ∨ r1 = r2 ∧ r_err r1 ≠ 0)
  | _, _ => False
  end.

Definition trim (r : redisReader) : redisReader :=
  if 1024 <=? r_pos r then
    let b := range_of (r_buf r) (i32 (r_pos r)) (-1) in set_buf r b 0 (Z.of_nat (length b))
  else r.

Lemma trim_more r : reader_ok r → more [] r (trim r).
Proof.
  intros Hr. unfold trim. destruct (Z.leb_spec 1024 (r_pos r)) as [Hp|]; [|by apply more_refl].
  pose proof Hr as [(? & ? & ?) Hl].
  assert (range_of (r_buf r) (i32 (r_pos r)) (-1) = unread r) as ->.
  { unfold range_of, unread. rewrite i32_small by (unfold INT_MIN in *; lia).
    destruct (Z.ltb_spec (r_pos r) 0); [lia|]. simpl.
    rewrite take_ge; [done|]. rewrite length_drop. lia. }
  split; [done|]. exists (unread r), 0. split; [done|]. split; [|by rewrite app_nil_r].
  pose proof (unread_length _ Hr). unfold buf_ok, INT_MAX in *. lia.
Qed.

(** Nothing happens while nothing is unread. *)
Lemma run_empty r :
  alive r → r_len r = 0 → same_out (run (open_task r)) (Val (open_task r)).
Proof.
  intros Hr Hl. pose proof (alive_active r Hr) as (Hok & He & Hb).
  destruct Hr as (Hok0 & He0 & Hs & [[Hi _]|[Hb0 Hstuck]]).
  - assert (unread (open_task r) = []) as Hu.
    { pose proof (unread_length r Hok0) as Hu. destruct Hok0 as [(? & ? & ?) ?].
      destruct (open_task_keeps r) as (_ & -> & _). destruct (unread r); [done|].
      cbn [length] in Hu. lia. }
    assert (open_task r = set_stack r (<[0%nat := root_task]> (r_stack r)) 0) as Ho
      by (unfold open_task; by rewrite Hi).
    rewrite run_eq, processItem_eq, Hu, Ho by done. simpl. unfold cur_task, task_at. simpl.
    rewrite list_lookup_insert_eq by lia. simpl. left. rewrite <- Ho. by apply more_refl.
  - assert (open_task r = r) as ->; [|by apply Hstuck]. unfold open_task.
    destruct (Z.eqb_spec (r_idx r) (-1)); [destruct Hb0; lia|done].
Qed.

Lemma GetReply_next r : alive r → same_reply (redisReaderGetReply r) (next r).
Proof.
  intros Hr. pose proof (alive_active r Hr) as Ha. pose proof (run_rests _ Ha) as Hrest.
  unfold redisReaderGetReply, next. fold (open_task r).
  assert (r_err r = 0) as -> by apply Hr. change (negb (0 =? 0)) with false. cbv iota zeta.
  destruct (Z.eqb_spec (r_len r) 0) as [Hl|_].
  - pose proof (run_empty r Hr Hl) as Hs. destruct (run (open_task r)) as [r'|]; [|done].
    destruct Hs as [Hm|[-> Hne]]; [|by destruct Hne; apply Ha].
    assert (r_err r' = 0) as He by (rewrite <- (more_err _ _ _ Hm); apply Ha).
    assert (r_idx r' = -1 ∨ 0 <= r_idx r') as Hi.
    { rewrite <- (more_idx _ _ _ Hm). right. apply Ha. }
    simpl. rewrite He. simpl. destruct (Z.eqb_spec (r_idx r') (-1)) as [|].
    { rewrite <- (more_idx _ _ _ Hm) in *. destruct Ha as (_ & _ & _ & ? & _). lia. }
    simpl. split_and!; [done|done|]. left. unfold alike. apply more_sym in Hm.
    assert (open_task r' = r') as -> by (unfold open_task; by destruct (Z.eqb_spec (r_idx r') (-1))).
    done.
  - fold (run (open_task r)).
    destruct (run (open_task r)) as [r'|] eqn:Hrun; [|done]. cbn [mbind outcome_bind].
    destruct (Z.eqb_spec (r_err r') 0) as [He|He]; simpl; [|by split_and!; [| |right]].
    destruct (Hrest r' eq_refl He) as (Hok' & _). fold (trim r').
    pose proof (trim_more r' Hok') as Ht. rewrite (more_idx _ _ _ Ht).
    assert (r_reply (trim r') = r_reply r') as -> by (by destruct Ht as (_ & ? & ? & -> & _)).
    destruct (r_idx r' =? -1) eqn:Hi; simpl; (split_and!; [done|done|]; left; unfold alike).
    + by apply open_task_more, set_reply_more, more_sym.
    + apply open_task_more. by apply more_sym.
Qed.

(** * Calls in a row *)

Lemma resting_more r r' : more [] r r' → resting r → resting r'.
Proof.
  intros Hm (Hok & He & Hs & Hr). split; [by eapply more_ok|].
  rewrite (more_err _ _ _ Hm), (more_idx _ _ _ Hm).
  assert (r_stack r' = r_stack r ∧ r_reply r' = r_reply r) as [Hst Hrep]
    by (by destruct Hm as (_ & ? & ? & -> & _)).
  rewrite Hst, Hrep. split; [done|]. split; [done|]. destruct Hr as [|[Hb Hr]]; [by left|].
  right. split. { unfold busy. by rewrite Hst, Hrep, (more_idx _ _ _ Hm). }
  pose proof (run_same _ _ Hm He) as Hrun.
  destruct (run r) as [r1|], (run r') as [r2|]; simpl in *; try done.
  assert (r_err r1 = 0) as He1
    by (destruct Hr as [Hr|[-> Hr]]; [by rewrite <- (more_err _ _ _ Hr)|done]).
  destruct Hrun as [Hrun|[_ Hne]]; [|done]. destruct Hr as [Hr|[_ Hne]]; [|done].
  left. eapply (more_trans [] []), (more_trans [] [] _ _ _ Hr Hm). by apply more_sym.
Qed.

(** After a call: an error, or a reader that waits again. *)
Lemma next_rests r ok o r' :
  alive r → next r = Val (ok, o, r') →
  r_err r' ≠ 0 ∧ o = None ∨
  r_err r' = 0 ∧ resting r' ∧ (length (unread r') <= length (unread r))%nat ∧
  (o = None ∨ (length (unread r') < length (unread r))%nat).
Proof.
  intros Hr. pose proof (run_rests _ (alive_active r Hr)) as Hrest. unfold next.
  destruct (run (open_task r)) as [r1|]; simpl; [|done].
  destruct (Z.eqb_spec (r_err r1) 0) as [He|He]; simpl; [|intros [= <- <- <-]; by left].
  destruct (Hrest r1 eq_refl He) as (Hok & _ & Hle & Hs & Hcase).
  assert (unread (open_task r) = unread r) as Hu by apply open_task_keeps. rewrite Hu in Hcase, Hle.
  destruct (Z.eqb_spec (r_idx r1) (-1)) as [Hi|Hi].
  - intros [= <- <- <-]. right. split; [done|]. split; [by split_and!; [| | |left]|].
    split; [done|]. right. destruct Hcase as [(_ & _ & Hl)|[[_ [? _]] _]]; [done|lia].
  - intros [= <- <- <-]. right. split; [done|]. split; [|split; [done|by left]]. split_and!; [done..|].
    right. by destruct Hcase as [[? _]|].
Qed.

Lemma open_task_waiting r : 0 <= r_idx r → open_task r = r.
Proof. intros Hi. unfold open_task. by destruct (Z.eqb_spec (r_idx r) (-1)); [lia|]. Qed.

(** The answer of a call from what the loop left. *)
Definition answer (r : redisReader) : bool * option nat * redisReader :=
  if negb (r_err r =? 0) then (false, None, r)
  else if r_idx r =? -1 then (true, r_reply r, set_reply r None) else (true, None, r).

Lemma next_eq r : next r = (r' ← run (open_task r); Val (answer r')).
Proof.
  unfold next, answer. destruct (run (open_task r)) as [r'|]; simpl; [|done].
  by destruct (negb _), (r_idx r' =? -1).
Qed.

Lemma answer_more d r1 r2 :
  more d r1 r2 →
  let '(b1, o1, r1') := answer r1 in let '(b2, o2, r2') := answer r2 in
  b1 = b2 ∧ o1 = o2 ∧ more d r1' r2'.
Proof.
  intros Hm. unfold answer. rewrite (more_err _ _ _ Hm), (more_idx _ _ _ Hm).
  assert (r_reply r2 = r_reply r1) as -> by (by destruct Hm as (_ & ? & ? & -> & _)).
  destruct (negb _); [done|]. destruct (_ =? _); [|done]. split_and!; [done..|].
  by apply set_reply_more.
Qed.

Lemma same_out_reply o1 o2 :
  same_out o1 o2 → same_reply (r ← o1; Val (answer r)) (r ← o2; Val (answer r)).
Proof.
  destruct o1 as [r1|], o2 as [r2|]; simpl; try done. intros [Hm|[-> Hne]].
  - pose proof (answer_more _ _ _ Hm) as Ha.
    destruct (answer r1) as [[b1 o1] r1'], (answer r2) as [[b2 o2] r2'].
    destruct Ha as (-> & -> & Ha). split_and!; [done|done|]. left. by apply open_task_more.
  - unfold answer. destruct (Z.eqb_spec (r_err r2) 0); [done|]. simpl.
    split_and!; [done|done|by right].
Qed.

(** A call on a part of the data, and the next ones. *)
Lemma next_feed d r1 r2 :
  alive r1 → alike d r1 r2 →
  match next r1 with
  | Fault f => next r2 = Fault f
  | Val (ok, o, r1') =>
    if r_err r1' =? 0 then
      match o with
      | Some id => ∃ r2', next r2 = Val (ok, o, r2') ∧ alike d r1' r2'
      | None => ∀ r3, alike d r1' r3 → same_reply (next r3) (next r2)
      end
    else next r2 = Val (ok, o, r1')
  end.
Proof.
  intros Hr Hm. pose proof (alive_active r1 Hr) as Ha.
  pose proof (run_rests _ Ha) as Hrest. pose proof (run_feed d _ _ Hm (proj1 (proj2 Ha))) as Hf.
  rewrite !next_eq. destruct (run (open_task r1)) as [r1'|] eqn:Hrun; simpl; [|by rewrite Hf].
  unfold answer at 1. destruct (Z.eqb_spec (r_err r1') 0) as [He|He]; simpl.
  2: { destruct (Z.eqb_spec (r_err r1') 0); [done|]. rewrite Hf. unfold answer. simpl.
       by destruct (Z.eqb_spec (r_err r1') 0). }
  destruct (Hrest r1' eq_refl He) as (Hok & _ & _ & _ & Hcase).
  destruct (Z.eqb_spec (r_idx r1') (-1)) as [Hi|Hi]; simpl; rewrite He; simpl.
  - destruct (Z.ltb_spec (r_idx r1') 0); [|lia]. destruct Hf as (r2' & -> & Hm'). simpl.
    destruct Hcase as [(_ & [id Hid] & _)|[(_ & ? & _) _]]; [|lia]. rewrite Hid.
    unfold answer. rewrite (more_err _ _ _ Hm'), He, (more_idx _ _ _ Hm'), Hi. simpl.
    exists (set_reply r2' None).
    assert (r_reply r2' = Some id) as -> by (by destruct Hm' as (_ & ? & ? & -> & _)).
    split; [done|]. by apply open_task_more, set_reply_more.
  - destruct Hcase as [[? _]|[(_ & Hi' & _) _]]; [done|].
    destruct (Z.ltb_spec (r_idx r1') 0); [lia|]. destruct Hf as [_ Hf].
    intros r3 Hm3. unfold alike in Hm3. rewrite open_task_waiting in Hm3 by done.
    rewrite next_eq. by apply same_out_reply, Hf.
Qed.

(** * Sessions *)

(** Calls until there is no reply. *)
Fixpoint drain (fuel : nat) (r : redisReader) : outcome (list nat * redisReader) :=
  match fuel with
  | O => Fault OutOfFuel
  | S fuel =>
    '(_, o, r) ← redisReaderGetReply r;
    match o with
    | Some id => '(ids, r) ← drain fuel r; Val (id :: ids, r)
    | None => Val ([], r)
    end
  end.

Definition drain_all (r : redisReader) : outcome (list nat * redisReader) :=
  drain (S (length (unread r))) r.

(** The replies to a stream that arrives in pieces. *)
Fixpoint session (pieces : list bytes) (r : redisReader) : outcome (list nat * redisReader) :=
  match pieces with
  | [] => Val ([], r)
  | d :: pieces =>
    let '(_, r) := redisReaderFeed r d in
    '(ids, r) ← drain_all r;
    '(ids', r) ← session pieces r;
    Val (ids ++ ids', r)
  end.

(** The same calls without the shortcuts of [redisReaderGetReply]. *)
Fixpoint pump (fuel : nat) (r : redisReader) : outcome (list nat * redisReader) :=
  match fuel with
  | O => Fault OutOfFuel
  | S fuel =>
    '(_, o, r) ← next r;
    match o with
    | Some id => '(ids, r) ← pump fuel r; Val (id :: ids, r)
    | None => Val ([], r)
    end
  end.

Definition same_replies (o1 o2 : outcome (list nat * redisReader)) : Prop :=
  match o1, o2 with
  | Fault f, Fault g => f = g
  | Val (ids1, r1), Val (ids2, r2) =>
    ids1 = ids2 ∧ (alike [] r1 r2 ∨ r1 = r2 ∧ r_err r1 ≠ 0)
  | _, _ => False
  end.

Lemma open_task_buf r : r_buf (open_task r) = r_buf r.
Proof. unfold open_task. by destruct (r_idx r =? -1). Qed.

Lemma trim_shorter r : reader_ok r → (length (r_buf (trim r)) <= length (r_buf r))%nat.
Proof.
  intros Hr. unfold trim. destruct (1024 <=? r_pos r); [|done]. cbn [set_buf r_buf].
  unfold range_of. rewrite length_take, length_drop. lia.
Qed.

(** The same for the call itself, which does not enlarge the buffer. *)
Lemma GetReply_rests r ok o r' :
  alive r → redisReaderGetReply r = Val (ok, o, r') →
  r_err r' ≠ 0 ∧ o = None ∨
  r_err r' = 0 ∧ resting r' ∧ (length (r_buf r') <= length (r_buf r))%nat.
Proof.
  intros Hr. pose proof (alive_active r Hr) as Ha. pose proof (run_rests _ Ha) as Hrest.
  unfold redisReaderGetReply. fold (open_task r).
  assert (r_err r = 0) as -> by apply Hr. change (negb (0 =? 0)) with false. cbv iota zeta.
  destruct (Z.eqb_spec (r_len r) 0) as [Hl|_].
  { intros [= <- <- <-]. right. destruct Hr as (Hok & He & Hs & Hr). split; [done|]. split; [|done].
    split_and!; [done..|]. destruct Hr as [|[? Hr]]; [by left|right; auto]. }
  fold (run (open_task r)). rewrite open_task_buf in Hrest.
  destruct (run (open_task r)) as [r1|]; [|done]. cbn [mbind outcome_bind].
  destruct (Z.eqb_spec (r_err r1) 0) as [He|He]; simpl; [|intros [= <- <- <-]; by left].
  destruct (Hrest r1 eq_refl He) as (Hok & Hbuf & _ & Hs & Hcase). fold (trim r1).
  pose proof (trim_more r1 Hok) as Ht. pose proof (trim_shorter r1 Hok) as Hsh. rewrite Hbuf in Hsh.
  assert (r_stack (trim r1) = r_stack r1 ∧ r_idx (trim r1) = r_idx r1 ∧ r_err (trim r1) = r_err r1)
    as (Hst & Hidx & Herr) by (by destruct Ht as (_ & ? & ? & -> & _)).
  rewrite Hidx. destruct (Z.eqb_spec (r_idx r1) (-1)) as [Hi|Hi]; intros [= <- <- <-]; right.
  - split; [simpl; congruence|]. split; [|done].
    split_and!; [|simpl; congruence|simpl; congruence|left; simpl; by rewrite Hidx].
    apply (set_reply_more [] r1 _ None) in Ht. by eapply more_ok.
  - split; [congruence|]. split; [|done]. apply (resting_more r1); [done|].
    split_and!; [done..|]. right. by destruct Hcase as [[? _]|].
Qed.

Lemma same_replies_trans o1 o2 o3 :
  same_replies o1 o2 → same_replies o2 o3 → same_replies o1 o3.
Proof.
  destruct o1 as [[i1 r1]|], o2 as [[i2 r2]|], o3 as [[i3 r3]|]; simpl; try done; [|congruence].
  intros [-> H12] [-> H23]. split; [done|].
  destruct H12 as [H12|[-> H12]], H23 as [H23|[-> H23]]; [|by left|by left|by right].
  left. exact (more_trans [] [] _ _ _ H12 H23).
Qed.

Lemma same_replies_cons id o1 o2 :
  same_replies o1 o2 →
  same_replies ('(ids, r) ← o1; Val (id :: ids, r)) ('(ids, r) ← o2; Val (id :: ids, r)).
Proof.
  destruct o1 as [[i1 r1]|], o2 as [[i2 r2]|]; simpl; try done.
  intros [-> H]. by split.
Qed.

Lemma alike_unread d r1 r2 : alike d r1 r2 → unread r2 = unread r1 ++ d.
Proof.
  intros Hm. apply more_unread in Hm.
  pose proof (open_task_keeps r1) as (_ & H1 & _). pose proof (open_task_keeps r2) as (_ & H2 & _).
  congruence.
Qed.

Lemma next_same r1 r2 : alive r1 → alike [] r1 r2 → same_reply (next r1) (next r2).
Proof.
  intros Hr Hm. rewrite !next_eq. apply same_out_reply, run_same; [done|].
  by apply alive_active in Hr as (_ & ? & _).
Qed.

Lemma pump_same n m r1 r2 :
  alive r1 → alike [] r1 r2 → (length (unread r1) < n)%nat → (length (unread r2) < m)%nat →
  same_replies (pump n r1) (pump m r2).
Proof.
  revert m r1 r2. induction n as [|n IH]; intros m r1 r2 Hr Hm Hn Hm'; [lia|].
  destruct m as [|m]; [lia|]. simpl. pose proof (next_same r1 r2 Hr Hm) as Hs.
  pose proof (next_rests r1) as Hrest.
  destruct (next r1) as [[[b1 o1] r1']|], (next r2) as [[[b2 o2] r2']|]; simpl in *; try done.
  destruct Hs as (_ & <- & Hs). destruct (Hrest _ _ _ Hr eq_refl) as [[_ ->]|(He & Hr' & _ & Hl)].
  { done. }
  destruct o1 as [id|]; [|done]. destruct Hl as [|Hl]; [done|].
  destruct Hs as [Hs|[_ Hne]]; [|done]. apply same_replies_cons, IH; [by apply resting_alive|done|lia|].
  rewrite (alike_unread _ _ _ Hs), app_nil_r.
  rewrite (alike_unread _ _ _ Hm), app_nil_r in Hm'. lia.
Qed.

Lemma drain_pump n r :
  alive r → (length (unread r) < n)%nat → same_replies (drain n r) (pump n r).
Proof.
  revert r. induction n as [|n IH]; intros r Hr Hn; [lia|]. simpl.
  pose proof (GetReply_next r Hr) as Hs. pose proof (GetReply_rests r) as Hg.
  pose proof (next_rests r) as Hx.
  destruct (redisReaderGetReply r) as [[[b1 o1] r1]|], (next r) as [[[b2 o2] r2]|];
    simpl in *; try done.
  destruct Hs as (<- & <- & Hs). destruct (Hg _ _ _ Hr eq_refl) as [[_ ->]|(He & Hr1 & _)]; [done|].
  destruct o1 as [id|]; [|done]. destruct Hs as [Hs|[_ Hne]]; [|done].
  destruct (Hx _ _ _ Hr eq_refl) as [[_ ?]|(_ & _ & _ & [|Hl])]; [done|done|].
  pose proof (alike_unread _ _ _ Hs) as Hu. rewrite app_nil_r in Hu. rewrite Hu in Hl.
  apply same_replies_cons, (same_replies_trans _ (pump n r1)).
  - apply IH; [by apply resting_alive|lia].
  - apply pump_same; [by apply resting_alive|done|lia|rewrite Hu; lia].
Qed.

Definition prepend (ids : list nat) (o : outcome (list nat * redisReader))
    : outcome (list nat * redisReader) :=
  '(ids', r) ← o; Val (ids ++ ids', r).

Lemma prepend_nil o : prepend [] o = o.
Proof. by destruct o as [[]|]. Qed.
Lemma prepend_cons id ids o : prepend (id :: ids) o = ('(l, r) ← prepend ids o; Val (id :: l, r)).
Proof. by destruct o as [[]|]. Qed.

Lemma same_replies_refl ids r : reader_ok (open_task r) → same_replies (Val (ids, r)) (Val (ids, r)).
Proof. intros H. split; [done|]. left. by apply more_refl. Qed.

(** The replies to a part of the data, and then the replies to the rest. *)
Lemma pump_feed d n r1 m r2 :
  alive r1 → alike d r1 r2 → (length (unread r1) < n)%nat → (length (unread r2) < m)%nat →
  match pump n r1 with
  | Fault f => pump m r2 = Fault f
  | Val (ids, r1') =>
    if r_err r1' =? 0 then
      resting r1' ∧
      ∀ r3 k, alive r3 → alike d r1' r3 → (length (unread r3) < k)%nat →
        same_replies (prepend ids (pump k r3)) (pump m r2)
    else pump m r2 = Val (ids, r1')
  end.
Proof.
  revert m r1 r2. induction n as [|n IH]; intros m r1 r2 Hr Hm Hn Hm'; [lia|].
  destruct m as [|m]; [lia|]. simpl.
  pose proof (next_feed d r1 r2 Hr Hm) as Hf. pose proof (next_rests r1) as Hx.
  destruct (next r1) as [[[ok o] r1']|]; simpl; [|by rewrite Hf].
  destruct (Hx _ _ _ Hr eq_refl) as [[He ->]|(He & Hr1 & Hle & Hl)].
  { destruct (Z.eqb_spec (r_err r1') 0); [done|]. rewrite Hf. simpl.
    by destruct (Z.eqb_spec (r_err r1') 0). }
  rewrite He in Hf. simpl in Hf. destruct o as [id|]; simpl.
  - destruct Hl as [|Hl]; [done|]. destruct Hf as (r2' & -> & Hm2). simpl.
    pose proof (alike_unread _ _ _ Hm2) as Hu. pose proof (alike_unread _ _ _ Hm) as Hu0.
    assert (length (unread r2') < m)%nat as Hl2.
    { rewrite Hu, length_app. rewrite Hu0, length_app in Hm'. lia. }
    specialize (IH m r1' r2' (resting_alive _ Hr1) Hm2 ltac:(lia) Hl2).
    destruct (pump n r1') as [[ids r1'']|]; simpl; [|by rewrite IH].
    destruct (r_err r1'' =? 0); [|by rewrite IH].
    destruct IH as [Hrest IH]. split; [done|]. intros r3 k Hr3 Hm3 Hk. rewrite prepend_cons.
    by apply same_replies_cons, IH.
  - rewrite He. simpl. split; [done|]. intros r3 k Hr3 Hm3 Hk. rewrite prepend_nil.
    destruct k as [|k]; [lia|]. simpl. specialize (Hf r3 Hm3).
    pose proof (next_rests r3) as Hx3.
    destruct (next r3) as [[[b3 o3] r3']|], (next r2) as [[[b2 o2] r2']|]; simpl in *; try done.
    destruct Hf as (_ & <- & Hs). destruct o3 as [id|]; [|done].
    destruct (Hx3 _ _ _ Hr3 eq_refl) as [[_ ?]|(He3 & Hr3' & _ & [|Hl3])]; [done|done|].
    destruct Hs as [Hs|[_ Hne]]; [|done]. apply same_replies_cons, pump_same;
      [by apply resting_alive|done|lia|].
    pose proof (alike_unread _ _ _ Hs) as Hu. rewrite app_nil_r in Hu. rewrite Hu.
    pose proof (alike_unread _ _ _ Hm) as Hu0. pose proof (alike_unread _ _ _ Hm3) as Hu3.
    rewrite Hu3, length_app in Hl3. rewrite Hu0, length_app in Hm'. lia.
Qed.

(** * Feeding *)

Lemma feed_more r d :
  alive r → Z.of_nat (length (r_buf r)) + Z.of_nat (length d) <= INT_MAX →
  more d r (redisReaderFeed r d).2.
Proof.
  intros (Hok & He & _) Hfit. unfold redisReaderFeed. rewrite He.
  change (negb (0 =? 0)) with false. cbv iota.
  destruct (Nat.leb_spec 1 (length d)) as [Hd|Hd]; simpl.
  2: { destruct d; [by apply more_refl|cbn [length] in Hd; lia]. }
  split; [done|]. exists (r_buf r ++ d), (r_pos r). split; [done|].
  pose proof Hok as [(? & ? & ?) ?]. split; [unfold buf_ok; rewrite length_app; lia|].
  unfold unread. by rewrite drop_app_le by lia.
Qed.

Lemma feed_alive r d :
  resting r → Z.of_nat (length (r_buf r)) + Z.of_nat (length d) <= INT_MAX →
  alive (redisReaderFeed r d).2.
Proof.
  intros Hr Hfit. pose proof (feed_more r d (resting_alive _ Hr) Hfit) as Hm.
  destruct d as [|c d].
  { unfold redisReaderFeed. destruct (negb _); by apply resting_alive. }
  destruct Hr as (Hok & He & Hs & Hr). unfold redisReaderFeed in *. rewrite He in *. simpl in *.
  split_and!; [by eapply more_ok|done|done|]. destruct Hr as [Hr|[Hb Hr]]; [by left|].
  right. split; [done|]. simpl. rewrite length_app. cbn [length]. lia.
Qed.

Lemma feed_length r d :
  (length (r_buf (redisReaderFeed r d).2) <= length (r_buf r) + length d)%nat.
Proof.
  unfold redisReaderFeed. destruct (negb _); [simpl; lia|].
  destruct (1 <=? length d)%nat; simpl; rewrite ?length_app; lia.
Qed.

(** Emptying a reader keeps it resting, and its buffer within its size. *)
Lemma drain_rests n r ids r' :
  alive r → drain n r = Val (ids, r') →
  r_err r' ≠ 0 ∨ r_err r' = 0 ∧ resting r' ∧ (length (r_buf r') <= length (r_buf r))%nat.
Proof.
  revert r ids. induction n as [|n IH]; intros r ids Hr; simpl; [done|].
  pose proof (GetReply_rests r) as Hg.
  destruct (redisReaderGetReply r) as [[[ok o] r1]|]; simpl; [|done].
  destruct (Hg _ _ _ Hr eq_refl) as [[He ->]|(He & Hr1 & Hl)].
  { intros [= _ <-]. by left. }
  destruct o as [id|]; [|intros [= _ <-]; by right].
  destruct (drain n r1) as [[ids1 r2]|] eqn:Hd; simpl; [|done]. intros [= _ <-].
  destruct (IH r1 ids1 (resting_alive _ Hr1) Hd) as [|(? & ? & ?)]; [by left|].
  right. split_and!; [done|done|lia].
Qed.

(** A reader in error takes and gives nothing. *)
Lemma session_closed pieces r : r_err r ≠ 0 → session pieces r = Val ([], r).
Proof.
  intros He. assert (negb (r_err r =? 0) = true) as Hn by (by destruct (Z.eqb_spec (r_err r) 0)).
  induction pieces as [|d pieces IH]; simpl; [done|].
  unfold redisReaderFeed. rewrite Hn. unfold drain_all. simpl. unfold redisReaderGetReply.
  rewrite Hn. simpl. by rewrite IH.
Qed.

(** * The pieces of a stream *)

Lemma session_one d r : session [d] r = drain_all (redisReaderFeed r d).2.
Proof.
  simpl. destruct (redisReaderFeed r d) as [b r1]. simpl.
  destruct (drain_all r1) as [[ids r2]|]; simpl; [|done]. by rewrite app_nil_r.
Qed.

Lemma session_cons d pieces r :
  session (d :: pieces) r
  = ('(ids, r) ← drain_all (redisReaderFeed r d).2; prepend ids (session pieces r)).
Proof. simpl. by destruct (redisReaderFeed r d). Qed.

Lemma feed_app r d e :
  (redisReaderFeed (redisReaderFeed r d).2 e).2 = (redisReaderFeed r (d ++ e)).2.
Proof.
  unfold redisReaderFeed. destruct (negb (r_err r =? 0)) eqn:He; simpl; [by rewrite He|].
  destruct d as [|c d]; simpl; [by rewrite He|]. rewrite He.
  destruct e as [|c' e]; simpl; [by rewrite app_nil_r|].
  unfold set_buf. simpl. by rewrite <- !app_assoc.
Qed.

Lemma same_replies_sym o1 o2 : same_replies o1 o2 → same_replies o2 o1.
Proof.
  destruct o1 as [[i1 r1]|], o2 as [[i2 r2]|]; simpl; try done.
  intros [-> [H|[-> H]]]; (split; [done|]); [left; by apply more_sym|by right].
Qed.

Lemma same_replies_prepend ids o1 o2 :
  same_replies o1 o2 → same_replies (prepend ids o1) (prepend ids o2).
Proof.
  destruct o1 as [[i1 r1]|], o2 as [[i2 r2]|]; simpl; try done. intros [-> H]. by split.
Qed.

Lemma alike_refl r : resting r → alike [] r r.
Proof. intros Hr. apply more_refl. by apply resting_alive, alive_active in Hr as (? & _). Qed.

Lemma alike_err d r1 r2 : alike d r1 r2 → r_err r2 = r_err r1.
Proof.
  intros Hm. apply more_err in Hm. pose proof (open_task_keeps r1) as (H1 & _).
  pose proof (open_task_keeps r2) as (H2 & _). congruence.
Qed.

Lemma drain_all_pump r : alive r → same_replies (drain_all r) (pump (S (length (unread r))) r).
Proof. intros Hr. apply drain_pump; [done|lia]. Qed.

Lemma session_join pieces : ∀ d r,
  resting r →
  Z.of_nat (length (r_buf r)) + Z.of_nat (length (d ++ List.concat pieces)) <= INT_MAX →
  same_replies (session (d :: pieces) r) (session [d ++ List.concat pieces] r).
Proof.
  induction pieces as [|e pieces IH]; intros d r Hr Hfit; rewrite session_one.
  { simpl List.concat in *. rewrite app_nil_r in *. rewrite <- session_one, session_one.
    pose proof (feed_alive r d Hr Hfit) as Ha. unfold drain_all.
    destruct (drain _ _) as [[ids r']|] eqn:Hd; simpl; [|done]. split; [done|].
    destruct (drain_rests _ _ _ _ Ha Hd) as [|(_ & Hr' & _)]; [by right|left; by apply alike_refl]. }
  rewrite session_cons. simpl List.concat in *. set (D := e ++ List.concat pieces) in *.
  rewrite !length_app in Hfit.
  assert (Ha1 : alive (redisReaderFeed r d).2) by (apply feed_alive; [done|lia]).
  rewrite <- feed_app. pose proof (feed_length r d) as Hlen.
  set (r1 := (redisReaderFeed r d).2) in *.
  pose proof (feed_more r1 D Ha1 ltac:(lia)) as Hm. apply open_task_more in Hm.
  set (r2 := (redisReaderFeed r1 D).2) in *.
  assert (Ha2 : alive r2).
  { unfold r2, r1. rewrite feed_app. apply feed_alive; [done|]. rewrite length_app. lia. }
  pose proof (drain_all_pump r1 Ha1) as H1. pose proof (drain_all_pump r2 Ha2) as H2.
  pose proof (pump_feed D (S (length (unread r1))) r1 (S (length (unread r2))) r2 Ha1 Hm
                ltac:(lia) ltac:(lia)) as Hf.
  pose proof (drain_rests (S (length (unread r1))) r1) as Hrest. fold (drain_all r1) in Hrest.
  apply same_replies_sym in H2. eapply same_replies_trans; [|exact H2]. clear H2.
  destruct (drain_all r1) as [[ids a]|] eqn:Hd, (pump _ r1) as [[ids' b]|]; simpl in H1; try done.
  2: { rewrite Hf. simpl. by rewrite H1. }
  destruct H1 as [<- Hab]. cbn [mbind outcome_bind].
  destruct (Hrest _ _ Ha1 eq_refl) as [He|(He & Hra & Hlen')].
  - assert (r_err b ≠ 0) as Heb by (destruct Hab as [Hab|[<- _]]; [by rewrite (alike_err _ _ _ Hab)|done]).
    destruct (Z.eqb_spec (r_err b) 0); [done|]. rewrite Hf, session_closed by done. simpl.
    rewrite app_nil_r. split; [done|]. done.
  - destruct Hab as [Hab|[_ ?]]; [|done].
    rewrite (alike_err _ _ _ Hab), He in Hf. simpl in Hf. destruct Hf as [Hrb Hf].
    eapply same_replies_trans; [apply same_replies_prepend, IH; [done|fold D; lia]|].
    fold D. rewrite session_one.
    assert (Ha3 : alive (redisReaderFeed a D).2) by (apply feed_alive; [done|lia]).
    eapply same_replies_trans; [apply same_replies_prepend, drain_all_pump, Ha3|].
    apply Hf; [done| |lia].
    pose proof (feed_more a D (resting_alive _ Hra) ltac:(lia)) as Hma. apply open_task_more in Hma.
    exact (more_trans [] D _ _ _ (more_sym _ _ Hab) Hma).
Qed.

Lemma create_resting : resting redisReaderCreate.
Proof. split_and!; try done. by left. Qed.

(** What a caller sees of a session. *)
Definition same_session (o1 o2 : outcome (list nat * redisReader)) : Prop :=
  match o1, o2 with
  | Fault f, Fault g => f = g
  | Val (ids1, r1), Val (ids2, r2) =>
    ids1 = ids2 ∧ r_err r1 = r_err r2 ∧ r_errstr r1 = r_errstr r2 ∧ r_heap r1 = r_heap r2 ∧
    unread r1 = unread r2
  | _, _ => False
  end.

Lemma same_replies_session o1 o2 : same_replies o1 o2 → same_session o1 o2.
Proof.
  destruct o1 as [[i1 r1]|], o2 as [[i2 r2]|]; simpl; try done. intros [-> [H|[-> _]]]; [|done].
  pose proof (alike_unread _ _ _ H) as Hu. pose proof (alike_err _ _ _ H) as He.
  rewrite app_nil_r in Hu. split_and!; [done|done| | |done];
    destruct H as (_ & b & p & H & _); apply (f_equal (λ r, (r_errstr r, r_heap r))) in H;
    unfold open_task in H; destruct (r_idx r1 =? -1), (r_idx r2 =? -1); simpl in H; congruence.
Qed.

Lemma session_pieces (pieces : list bytes) :
  Z.of_nat (length (List.concat pieces)) <= INT_MAX →
  same_session (session pieces redisReaderCreate)
    (session [List.concat pieces] redisReaderCreate).
Proof.
  intros Hfit. destruct pieces as [|d pieces]; [done|].
  apply same_replies_session, session_join; [apply create_resting|exact Hfit].
Qed.

(** C6. The replies that the reader gives, the objects it builds and its error do not depend on how
    the stream is cut into pieces: feeding the pieces one by one, with all the replies fetched after
    each, is the same as feeding everything at once. *)
Theorem replies_of_pieces (pieces : list bytes) :
  Z.of_nat (length (List.concat pieces)) <= INT_MAX →
  same_session (session pieces redisReaderCreate)
    (session [List.concat pieces] redisReaderCreate).
Proof. apply session_pieces. Qed.

Lemma replies_of_pieces_witness :
  same_session (session [lit "*2" ++ [chr_cr]; [chr_nl] ++ lit "$"; lit "1" ++ crlf ++ lit "a" ++ crlf;
                         lit ":7" ++ crlf] redisReaderCreate)
    (session [lit "*2" ++ crlf ++ lit "$1" ++ crlf ++ lit "a" ++ crlf ++ lit ":7" ++ crlf]
       redisReaderCreate).
Proof.
  refine (replies_of_pieces [lit "*2" ++ [chr_cr]; [chr_nl] ++ lit "$"; lit "1" ++ crlf ++ lit "a" ++ crlf;
                         lit ":7" ++ crlf] _).
  vm_compute. discriminate.
Defined.
