(* ===== verification/HiredisParse.v ===== *)
(** What the reader makes of a well-formed stream: the replies whose encodings it consists of. *)
From Stdlib Require Import Ascii String ZArith Lia.
From stdpp Require Import base list.
From S2P Require Import Prelude Common SdsArgs Sds SdsProps Hiredis HiredisReader HiredisFeed HiredisDrain.
Local Open Scope Z_scope.
#[local] Set Warnings "-register-all".

(** * Replies and their encodings *)

Inductive resp :=
| RString (s : bytes)
| RStatus (s : bytes)
| RError (s : bytes)
| RInteger (z : Z)
| RNil
| RNilArray
| RArray (l : list resp).

Section RespInd.
Variable P : resp → Prop.
Hypotheses (Hstr : ∀ s, P (RString s)) (Hst : ∀ s, P (RStatus s)) (Herr : ∀ s, P (RError s))
  (Hint : ∀ z, P (RInteger z)) (Hnil : P RNil) (Hnila : P RNilArray)
  (Harr : ∀ l, Forall P l → P (RArray l)).

Fixpoint resp_ind' (v : resp) : P v :=
  match v with
  | RString s => Hstr s | RStatus s => Hst s | RError s => Herr s | RInteger z => Hint z
  | RNil => Hnil | RNilArray => Hnila
  | RArray l => Harr l ((fix go l : Forall P l :=
                           match l with
                           | [] => List.Forall_nil P
                           | v :: l => List.Forall_cons P v l (resp_ind' v) (go l)
                           end) l)
  end.
End RespInd.

Fixpoint enc (v : resp) : bytes :=
  match v with
  | RString s => resp_bulk s
  | RStatus s => lit "+" ++ s ++ crlf
  | RError s => lit "-" ++ s ++ crlf
  | RInteger z => lit ":" ++ dec_int z ++ crlf
  | RNil => lit "$-1" ++ crlf
  | RNilArray => lit "*-1" ++ crlf
  | RArray l => lit "*" ++ dec_nat (Z.of_nat (length l)) ++ crlf ++ List.concat (List.map enc l)
  end.

(** What the protocol and this reader allow at a depth: one-line texts, integers but the smallest
    one, and arrays down to the eighth level. *)
Fixpoint allowed (depth : nat) (v : resp) : Prop :=
  match v with
  | RStatus s | RError s => seek s = None
  | RInteger z => LLONG_MIN < z <= LLONG_MAX
  | RNilArray => (depth <= 7)%nat
  | RArray l => (depth <= 7)%nat ∧
                (fix go l := match l with [] => True | v :: l => allowed (S depth) v ∧ go l end) l
  | RString _ | RNil => True
  end.

(** The object [id] of the heap is the reply, and all its objects are in the range. *)
Fixpoint denotes (h : list reply_obj) (lo hi : nat) (v : resp) (id : nat) : Prop :=
  (lo <= id < hi)%nat ∧
  match v with
  | RString s => h !! id = Some (ObjString REDIS_REPLY_STRING s)
  | RStatus s => h !! id = Some (ObjString REDIS_REPLY_STATUS s)
  | RError s => h !! id = Some (ObjString REDIS_REPLY_ERROR s)
  | RInteger z => h !! id = Some (ObjInteger z)
  | RNil | RNilArray => h !! id = Some ObjNil
  | RArray l =>
    ∃ ids, length ids = length l ∧
      h !! id = Some (ObjArray (Z.of_nat (length l))
                        (match l with [] => None | _ => Some (List.map Some ids) end)) ∧
      (fix go l ids := match l, ids with
                       | v :: l, i :: ids => denotes h lo hi v i ∧ go l ids
                       | _, _ => True
                       end) l ids
  end.

(** * Numbers and lines *)

Lemma parse_digits_le s a b : 0 <= a → parse_digits s a = Some b → a <= b.
Proof.
  revert a. induction s as [|c s IH]; intros a Ha; simpl; [intros [= <-]; lia|].
  unfold c_isdigit. destruct (_ && _) eqn:Hd; [|done].
  apply andb_true_iff in Hd as [?%Z.leb_le ?%Z.leb_le].
  intros Hp%IH; lia.
Qed.

Lemma read_digits_dec s a b t :
  0 <= a → b <= LLONG_MAX → parse_digits s a = Some b →
  read_digits (s ++ chr_cr :: t) a = Val (Some b).
Proof.
  revert a. induction s as [|c s IH]; intros a Ha Hb; [by intros [= ->]|].
  cbn [parse_digits app read_digits]. destruct (c_isdigit c) eqn:Hd; [|done]. intros Hp.
  pose proof Hd as Hd'. unfold c_isdigit in Hd'.
  apply andb_true_iff in Hd' as [?%Z.leb_le ?%Z.leb_le].
  pose proof (parse_digits_le s (a * 10 + (byte_val c - 48)) b ltac:(lia) Hp).
  destruct (Ascii.eqb_spec c chr_cr) as [->|_]; [done|].
  unfold ll_arith, LLONG_MIN, LLONG_MAX in *.
  destruct (Z.leb_spec (- 2 ^ 63) (a * 10)); [|lia].
  destruct (Z.leb_spec (a * 10) (2 ^ 63 - 1)); [|lia]. cbn [andb mbind outcome_bind].
  destruct (Z.leb_spec (- 2 ^ 63) (a * 10 + (byte_val c - 48))); [|lia].
  destruct (Z.leb_spec (a * 10 + (byte_val c - 48)) (2 ^ 63 - 1)); [|lia].
  cbn [andb mbind outcome_bind]. apply IH; [lia|done|done].
Qed.

Lemma dec_nat_head n c s : dec_nat n = c :: s → c_isdigit c = true.
Proof. apply dec_digits_head. Qed.

Lemma readLongLong_nat n t :
  0 <= n <= LLONG_MAX → readLongLong (dec_nat n ++ chr_cr :: t) = Val n.
Proof.
  intros Hn. pose proof (parse_dec_nat n ltac:(unfold LLONG_MAX in Hn; lia)) as Hp.
  pose proof (read_digits_dec _ 0 n t ltac:(lia) ltac:(lia) Hp) as Hr.
  destruct (dec_nat n) as [|c s] eqn:E.
  - simpl in Hp. injection Hp as <-. done.
  - pose proof (dec_nat_head _ _ _ E) as Hc. unfold readLongLong. cbn [app] in *.
    destruct (Ascii.eqb_spec c "-") as [->|_]; [done|].
    destruct (Ascii.eqb_spec c "+") as [->|_]; [done|]. rewrite Hr. simpl. by destruct n.
Qed.

Lemma readLongLong_int z t :
  LLONG_MIN < z <= LLONG_MAX → readLongLong (dec_int z ++ chr_cr :: t) = Val z.
Proof.
  intros Hz. unfold dec_int. destruct (Z.ltb_spec z 0); [|apply readLongLong_nat; lia].
  unfold LLONG_MIN, LLONG_MAX in Hz.
  pose proof (parse_dec_nat (- z) ltac:(lia)) as Hp.
  assert (- z <= LLONG_MAX) as Hmax by (unfold LLONG_MAX; lia).
  pose proof (read_digits_dec _ 0 (- z) t (Z.le_refl 0) Hmax Hp) as Hr.
  change ((lit "-" ++ dec_nat (- z)) ++ chr_cr :: t)
    with (("-"%char : ascii) :: (dec_nat (- z) ++ chr_cr :: t)).
  unfold readLongLong. change (Ascii.eqb "-" "-") with true. cbv iota. rewrite Hr.
  cbn [mbind outcome_bind]. f_equal. lia.
Qed.

Lemma seek_cons c d s :
  seek (c :: d :: s)
  = if Ascii.eqb c chr_cr && Ascii.eqb d chr_nl then Some 0%nat else S <$> seek (d :: s).
Proof. done. Qed.

Lemma seek_line s t : seek s = None → seek (s ++ crlf ++ t) = Some (length s).
Proof.
  induction s as [|c [|d s] IH]; [done|..].
  - intros _. change ([c] ++ crlf ++ t) with (c :: chr_cr :: chr_nl :: t).
    rewrite seek_cons. by rewrite andb_false_r.
  - change ((c :: d :: s) ++ crlf ++ t) with (c :: d :: (s ++ crlf ++ t)).
    rewrite !seek_cons. destruct (_ && _); [done|]. intros Hs%fmap_None.
    specialize (IH Hs). change ((d :: s) ++ crlf ++ t) with (d :: (s ++ crlf ++ t)) in IH.
    by rewrite IH.
Qed.

Lemma seek_no_cr s : Forall (λ c, c ≠ chr_cr) s → seek s = None.
Proof.
  induction 1 as [|c [|d s] Hc Hs IH]; [done|done|]. rewrite seek_cons, IH.
  by destruct (Ascii.eqb_spec c chr_cr).
Qed.

Lemma dec_digits_no_cr k n acc :
  Forall (λ c, c ≠ chr_cr) acc → Forall (λ c, c ≠ chr_cr) (dec_digits k n acc).
Proof.
  revert n acc. induction k as [|k IH]; intros n acc Ha; simpl; [done|].
  pose proof (Z.mod_pos_bound n 10 ltac:(lia)) as Hm.
  assert (digit (n mod 10) ≠ chr_cr) as Hd.
  { intros Heq. pose proof (digit_isdigit _ Hm) as Hd. by rewrite Heq in Hd. }
  destruct (_ =? 0); [by constructor|]. apply IH. by constructor.
Qed.

Lemma dec_int_no_cr z : seek (dec_int z) = None.
Proof.
  apply seek_no_cr. unfold dec_int, dec_nat. destruct (z <? 0); [|by apply dec_digits_no_cr].
  constructor; [done|]. by apply dec_digits_no_cr.
Qed.

Lemma dec_nat_no_cr n : seek (dec_nat n) = None.
Proof. apply seek_no_cr. by apply dec_digits_no_cr. Qed.

(** * Objects and their places *)

(** The heap with [id] in the element of the parent that the task is for. *)
Definition fill (stack : list redisReadTask) (t : redisReadTask) (id : nat) (h : list reply_obj)
    : list reply_obj :=
  match t_parent t with
  | None => h
  | Some q =>
    match stack !! q ≫= t_obj with
    | Some po =>
      match h !! po with
      | Some (ObjArray n (Some l)) =>
        <[po := ObjArray n (Some (<[Z.to_nat (t_idx t) := Some id]> l))]> h
      | _ => h
      end
    | None => h
    end
  end.

(** The parent of the task at level [k], below it on the stack, has that element. *)
Definition room (k : nat) (stack : list redisReadTask) (h : list reply_obj) (t : redisReadTask) : Prop :=
  match t_parent t with
  | None => True
  | Some q => (q < k)%nat ∧
    ∃ po n l, stack !! q ≫= t_obj = Some po ∧ h !! po = Some (ObjArray n (Some l)) ∧
              0 <= t_idx t < Z.of_nat (length l)
  end.

Lemma fill_length stack t id h : length (fill stack t id h) = length h.
Proof.
  unfold fill. destruct (t_parent t); [|done]. destruct (_ ≫= _); [|done].
  destruct (h !! _) as [[| ? [|] | |]|]; by rewrite ?length_insert.
Qed.

(** The tasks from level [k] on do not matter. *)
Lemma fill_stack k stack stack' t t' id h :
  room k stack h t → take k stack' = take k stack → t_parent t' = t_parent t → t_idx t' = t_idx t →
  fill stack' t' id h = fill stack t id h.
Proof.
  unfold room, fill. intros Hr Hst -> ->. destruct (t_parent t) as [q|]; [|done].
  destruct Hr as [Hq _]. assert (stack' !! q = stack !! q) as ->; [|done].
  by rewrite <- (lookup_take_lt stack' k q), Hst, lookup_take_lt by lia.
Qed.

Lemma room_stack k stack stack' h t t' :
  room k stack h t → take k stack' = take k stack → t_parent t' = t_parent t → t_idx t' = t_idx t →
  room k stack' h t'.
Proof.
  unfold room. intros Hr Hst -> ->. destruct (t_parent t) as [q|]; [|done].
  destruct Hr as [Hq Hr]. split; [done|]. assert (stack' !! q = stack !! q) as ->; [|done].
  by rewrite <- (lookup_take_lt stack' k q), Hst, lookup_take_lt by lia.
Qed.

Lemma create_object_room r k t o :
  room k (r_stack r) (r_heap r) t →
  create_object r t o
  = Val (length (r_heap r),
         set_heap r (fill (r_stack r) t (length (r_heap r)) (r_heap r) ++ [o])).
Proof.
  unfold room, create_object, fill. destruct (t_parent t) as [q|]; [|done].
  intros (_ & po & n & l & Hpo & Hl & Hi). apply bind_Some in Hpo as (pt & Hq & Hpo).
  rewrite Hq. simpl. rewrite Hpo. simpl. pose proof (lookup_lt_Some _ _ _ Hl).
  rewrite lookup_app_l, Hl by done. simpl.
  destruct (Z.leb_spec 0 (t_idx t)); [|lia].
  destruct (Z.ltb_spec (t_idx t) (Z.of_nat (length l))); [|lia]. simpl.
  by rewrite insert_app_l.
Qed.

(** * A reply parsed at its level *)

(** At level [k], with task [t] that has taken no type yet, [b] to read. *)
Record at_level (r : redisReader) (k : nat) (t : redisReadTask) (b : bytes) : Prop := {
  al_ok : reader_ok r;
  al_err : r_err r = 0;
  al_stack : length (r_stack r) = 9%nat;
  al_idx : r_idx r = Z.of_nat k;
  al_task : r_stack r !! k = Some t;
  al_type : t_type t = -1;
  al_room : room k (r_stack r) (r_heap r) t;
  al_unread : unread r = b
}.

(** The same task with its reply made, before the move to the next task. *)
Record parsed (r : redisReader) (k : nat) (t : redisReadTask) (v : resp) (rest : bytes)
    (r' : redisReader) : Prop := {
  pa_ok : reader_ok r';
  pa_err : r_err r' = 0;
  pa_stack : length (r_stack r') = 9%nat;
  pa_idx : r_idx r' = Z.of_nat k;
  pa_task : ∃ t', r_stack r' !! k = Some t' ∧ t_idx t' = t_idx t ∧ t_parent t' = t_parent t;
  pa_below : take k (r_stack r') = take k (r_stack r);
  pa_unread : unread r' = rest;
  pa_reply : r_reply r' = if (k =? 0)%nat then Some (length (r_heap r)) else r_reply r;
  pa_heap : ∃ new, r_heap r' = fill (r_stack r) t (length (r_heap r)) (r_heap r) ++ new;
  pa_denotes : denotes (r_heap r') (length (r_heap r)) (length (r_heap r')) v (length (r_heap r))
}.

Definition parses (v : resp) : Prop :=
  ∀ r k t rest, at_level r k t (enc v ++ rest) → (k <= 8)%nat → allowed k v →
    ∃ r', run r = (x ← moveToNextTask r'; run x) ∧ parsed r k t v rest r'.

Lemma unread_set_pos r n :
  reader_ok r → unread (set_pos r (r_pos r + Z.of_nat n)) = drop n (unread r).
Proof.
  intros [(? & ? & ?) ?]. unfold unread. cbn [set_pos set_buf r_pos r_buf].
  by rewrite Z2Nat.inj_add, <- drop_drop, Nat2Z.id by lia.
Qed.

Section Step.
Context (r : redisReader) (k : nat) (t : redisReadTask) (c : ascii) (type : Z) (b : bytes).
Context (Hat : at_level r k t (c :: b)) (Hc : reply_type c = Some type).
Let t1 := mkTask type (t_elements t) (t_idx t) (t_obj t) (t_parent t).
Let r1 := typed r t type.

Lemma step_cur : cur_task r = Val t.
Proof.
  unfold cur_task, task_at. rewrite (al_idx _ _ _ _ Hat).
  destruct (Z.ltb_spec (Z.of_nat k) 0); [lia|]. rewrite Nat2Z.id. by rewrite (al_task _ _ _ _ Hat).
Qed.

Lemma step_item : processItem r = process_typed r1.
Proof.
  rewrite processItem_eq by apply Hat. rewrite step_cur. simpl.
  rewrite (al_type _ _ _ _ Hat), (al_unread _ _ _ _ Hat), Hc. done.
Qed.

Lemma step_typed :
  cur_task r1 = Val t1 ∧ reader_ok r1 ∧ r_err r1 = 0 ∧ unread r1 = b ∧ r_idx r1 = Z.of_nat k ∧
  r_stack r1 = <[k := t1]> (r_stack r) ∧ r_heap r1 = r_heap r ∧ r_reply r1 = r_reply r.
Proof.
  pose proof (al_ok _ _ _ _ Hat) as Hok. pose proof (al_unread _ _ _ _ Hat) as Hu.
  split; [by apply typed_cur, step_cur|].
  pose proof (typed_more [] r r t type (more_refl _ Hok) ltac:(by rewrite Hu)) as [Hok1 _].
  split; [done|]. split; [apply Hat|]. split.
  { unfold r1, typed, set_task, unread. simpl. unfold unread in Hu.
    rewrite Z2Nat.inj_add, <- drop_drop, Hu by (destruct Hok as [(? & ? & ?) ?]; lia). done. }
  unfold r1, typed, set_task. simpl. rewrite (al_idx _ _ _ _ Hat), Nat2Z.id. done.
Qed.

(** A step that makes the object [o] of [n] bytes. *)
Lemma step_object o n rest v cobj :
  process_typed r1
  = (x ← finish cobj (set_pos r1 (r_pos r1 + Z.of_nat n)); Val (true, x)) →
  (∀ r0, cobj r0 = create_object r0 t1 o) →
  b = take n b ++ rest → length (take n b) = n →
  (∀ h lo hi id, (lo <= id < hi)%nat → h !! id = Some o → denotes h lo hi v id) →
  ∃ r', run r = (x ← moveToNextTask r'; run x) ∧ parsed r k t v rest r'.
Proof.
  intros Hstep Hobj Hb Hn Hden.
  destruct step_typed as (_ & Hok1 & He1 & Hu1 & Hi1 & Hs1 & Hh1 & Hr1).
  pose proof (al_task _ _ _ _ Hat) as Ht. pose proof (lookup_lt_Some _ _ _ Ht) as Hlt.
  set (r0 := set_pos r1 (r_pos r1 + Z.of_nat n)) in *.
  assert (take k (r_stack r0) = take k (r_stack r)) as Htake.
  { change (r_stack r0) with (r_stack r1). rewrite Hs1. by rewrite take_insert_ge by lia. }
  assert (room k (r_stack r0) (r_heap r0) t1) as Hroom.
  { change (r_heap r0) with (r_heap r1). rewrite Hh1. eapply room_stack; [apply Hat|done..]. }
  assert (r_heap r0 = r_heap r) as Hh0 by done.
  assert (fill (r_stack r0) t1 (length (r_heap r0)) (r_heap r0)
          = fill (r_stack r) t (length (r_heap r)) (r_heap r)) as Hfill.
  { rewrite Hh0. eapply fill_stack; [apply Hat|done..]. }
  exists (reply_if_root (set_heap r0 (fill (r_stack r) t (length (r_heap r)) (r_heap r) ++ [o]))
            (length (r_heap r))).
  split.
  - rewrite run_eq by apply Hat. rewrite (al_idx _ _ _ _ Hat).
    destruct (Z.ltb_spec (Z.of_nat k) 0); [lia|]. rewrite step_item, Hstep.
    unfold finish. rewrite Hobj, (create_object_room _ _ _ _ Hroom), Hfill, Hh0.
    cbn [mbind outcome_bind]. by destruct (moveToNextTask _).
  - assert (r_idx r0 = Z.of_nat k) as Hi0 by done.
    assert (reader_ok r0 ∧ unread r0 = rest) as [Hok0 Hu0].
    { assert (Z.of_nat n <= r_len r1 - r_pos r1) as Hl.
      { rewrite <- unread_length, Hu1 by done. rewrite length_take in Hn. lia. }
      assert (0 <= Z.of_nat n <= r_len r1 - r_pos r1) as Hl' by (split; [lia|exact Hl]).
      pose proof (more_set_pos [] r1 r1 (more_refl _ Hok1) (Z.of_nat n) Hl') as [Hok0 _].
      split; [exact Hok0|].
      unfold r0. rewrite unread_set_pos, Hu1, Hb by done. by rewrite drop_app_length' by done. }
    unfold reply_if_root. change (r_idx (set_heap r0 _)) with (r_idx r0). rewrite Hi0.
    assert ((Z.of_nat k =? 0) = (k =? 0)%nat) as ->
      by (destruct (Z.eqb_spec (Z.of_nat k) 0), (Nat.eqb_spec k 0); (done || lia)).
    assert (length (r_stack r0) = 9%nat) as Hlen.
    { change (r_stack r0) with (r_stack r1). rewrite Hs1, length_insert. apply Hat. }
    assert (∃ t', r_stack r0 !! k = Some t' ∧ t_idx t' = t_idx t ∧ t_parent t' = t_parent t) as Htask.
    { exists t1. change (r_stack r0) with (r_stack r1). by rewrite Hs1, list_lookup_insert_eq. }
    assert (denotes (fill (r_stack r) t (length (r_heap r)) (r_heap r) ++ [o]) (length (r_heap r))
              (length (fill (r_stack r) t (length (r_heap r)) (r_heap r) ++ [o])) v
              (length (r_heap r))) as Hd.
    { rewrite length_app, fill_length. simpl. apply Hden; [lia|].
      rewrite lookup_app_r, fill_length, Nat.sub_diag by (rewrite fill_length; lia). done. }
    destruct (k =? 0)%nat eqn:Hk; split; simpl; rewrite ?Hk; try done; by eexists.
Qed.

(** A line of text or a number. *)
Lemma step_line s rest v o :
  (type =? REDIS_REPLY_ERROR) || (type =? REDIS_REPLY_STATUS) || (type =? REDIS_REPLY_INTEGER) = true →
  b = s ++ crlf ++ rest → seek s = None →
  (∀ r0, line_object t1 b (length s) r0 = create_object r0 t1 o) →
  (∀ h lo hi id, (lo <= id < hi)%nat → h !! id = Some o → denotes h lo hi v id) →
  ∃ r', run r = (x ← moveToNextTask r'; run x) ∧ parsed r k t v rest r'.
Proof.
  intros Htype Hb Hs Hobj Hden. destruct step_typed as (Hcur & Hok1 & _ & Hu1 & _).
  apply (step_object o (length s + 2) rest v (line_object t1 b (length s))); [|done| | |done].
  - unfold process_typed. rewrite Hcur. cbn [mbind outcome_bind t_type t1]. rewrite Htype.
    rewrite processLineItem_eq, Hcur, line_end_seek, Hu1, Hb, seek_line by done.
    cbn [mbind outcome_bind].
    by replace (Z.of_nat (length s) + 2) with (Z.of_nat (length s + 2)) by lia.
  - rewrite Hb, app_assoc, take_app_length' by (rewrite length_app; done). by rewrite <- app_assoc.
  - rewrite Hb, app_assoc, take_app_length' by (rewrite length_app; done). by rewrite length_app.
Qed.

(** A bulk string. *)
Lemma step_bulk s rest v :
  type = REDIS_REPLY_STRING → b = dec_nat (Z.of_nat (length s)) ++ crlf ++ s ++ crlf ++ rest →
  (∀ h lo hi id, (lo <= id < hi)%nat → h !! id = Some (ObjString REDIS_REPLY_STRING s) →
     denotes h lo hi v id) →
  ∃ r', run r = (x ← moveToNextTask r'; run x) ∧ parsed r k t v rest r'.
Proof.
  intros Htype Hb Hden. destruct step_typed as (Hcur & Hok1 & _ & Hu1 & _).
  set (n := length (dec_nat (Z.of_nat (length s)))) in *.
  pose proof (unread_int [] r1 r1 (more_refl _ Hok1)) as Hint. rewrite Hu1, Hb, !length_app in Hint.
  pose proof (unread_length _ Hok1) as Hlen. rewrite Hu1 in Hlen.
  assert (length b = n + 2 + (length s + 2) + length rest)%nat as Hlb
    by (rewrite Hb, !length_app; fold n; simpl; lia).
  assert (line_end r1 = Some n) as Hn
    by (rewrite line_end_seek, Hu1, Hb by done; apply seek_line, dec_nat_no_cr).
  assert (b = ((dec_nat (Z.of_nat (length s)) ++ crlf) ++ s ++ crlf) ++ rest) as Hb'
    by (by rewrite Hb, <- !app_assoc).
  assert (length ((dec_nat (Z.of_nat (length s)) ++ crlf) ++ s ++ crlf) = n + 2 + (length s + 2))%nat
    as Hpl by (rewrite !length_app; done).
  apply (step_object (ObjString REDIS_REPLY_STRING s) (n + 2 + (length s + 2)) rest v
           (λ r0, createStringObject r0 t1 s)); [| | | |done].
  - unfold process_typed. rewrite Hcur. cbn [mbind outcome_bind t_type t1]. rewrite Htype. simpl.
    rewrite processBulkItem_eq, Hcur, Hn. cbn [mbind outcome_bind].
    rewrite Hu1, Hb at 1. unfold crlf at 1. cbn [app].
    rewrite readLongLong_nat by (unfold LLONG_MAX, INT_MAX in *; lia). cbn [mbind outcome_bind].
    unfold bulk_rest. destruct (Z.ltb_spec (Z.of_nat (length s)) 0); [lia|].
    unfold ll_arith. unfold INT_MAX in Hint.
    destruct (Z.leb_spec LLONG_MIN (Z.of_nat (length s) + 2)); [|unfold LLONG_MIN in *; lia].
    destruct (Z.leb_spec (Z.of_nat (length s) + 2) LLONG_MAX); [|unfold LLONG_MAX in *; lia].
    cbn [andb mbind outcome_bind].
    rewrite (bulk_size r1) by (done || unfold LLONG_MAX; lia).
    destruct (Z.leb_spec (Z.of_nat n + 2 + (Z.of_nat (length s) + 2)) (r_len r1 - r_pos r1)); [|lia].
    rewrite mem_read_inside by (rewrite ?Hu1; lia). cbn [mbind outcome_bind].
    assert (take (Z.to_nat (Z.of_nat (length s))) (drop (Z.to_nat (Z.of_nat n + 2)) (unread r1)) = s)
      as ->.
    { rewrite Hu1, Hb'. rewrite Nat2Z.id, <- !app_assoc, app_assoc.
      rewrite drop_app_length' by (rewrite length_app; simpl; fold n; lia).
      by rewrite take_app_length. }
    rewrite u64_small by lia.
    by replace (Z.of_nat n + 2 + (Z.of_nat (length s) + 2))
      with (Z.of_nat (n + 2 + (length s + 2))) by lia.
  - intros r0. unfold createStringObject. cbn [t1 t_type]. by rewrite Htype.
  - by rewrite Hb' at 2; rewrite Hb', take_app_length' by done.
  - by rewrite Hb', take_app_length' by done.
Qed.

(** The null bulk string. *)
Lemma step_null rest v :
  type = REDIS_REPLY_STRING → b = lit "-1" ++ crlf ++ rest →
  (∀ h lo hi id, (lo <= id < hi)%nat → h !! id = Some ObjNil → denotes h lo hi v id) →
  ∃ r', run r = (x ← moveToNextTask r'; run x) ∧ parsed r k t v rest r'.
Proof.
  intros Htype Hb Hden. destruct step_typed as (Hcur & Hok1 & _ & Hu1 & _).
  apply (step_object ObjNil 4 rest v (λ r0, createNilObject r0 t1)); [|done| | |done].
  - unfold process_typed. rewrite Hcur. cbn [mbind outcome_bind t_type t1]. rewrite Htype. simpl.
    rewrite processBulkItem_eq, Hcur, line_end_seek, Hu1, Hb by done. done.
  - by rewrite Hb.
  - by rewrite Hb.
Qed.
End Step.

Lemma parses_line v c type s o :
  (∀ rest, enc v ++ rest = c :: s ++ crlf ++ rest) → reply_type c = Some type →
  (type =? REDIS_REPLY_ERROR) || (type =? REDIS_REPLY_STATUS) || (type =? REDIS_REPLY_INTEGER) = true →
  (∀ k, allowed k v → seek s = None ∧
     ∀ rest t1 r0, t_type t1 = type →
       line_object t1 (s ++ crlf ++ rest) (length s) r0 = create_object r0 t1 o) →
  (∀ h lo hi id, (lo <= id < hi)%nat → h !! id = Some o → denotes h lo hi v id) →
  parses v.
Proof.
  intros Henc Hc Htype Hall Hden r k t rest Hat _ Hv. rewrite Henc in Hat.
  destruct (Hall k Hv) as [Hs Hobj].
  by eapply (step_line r k t c type (s ++ crlf ++ rest) Hat Hc s rest v o); auto.
Qed.

Lemma parses_scalar v : match v with RArray _ | RNilArray => True | _ => parses v end.
Proof.
  destruct v as [s|s|s|z| | |]; try done.
  - intros r k t rest Hat _ _. unfold enc, resp_bulk in Hat. rewrite <- !app_assoc in Hat.
    eapply (step_bulk r k t "$" REDIS_REPLY_STRING _ Hat eq_refl s); done.
  - apply (parses_line _ "+" REDIS_REPLY_STATUS s (ObjString REDIS_REPLY_STATUS s)); try done.
    + intros rest. simpl. by rewrite <- app_assoc.
    + intros k Hs. split; [exact Hs|]. intros rest t1 r0 Ht. unfold line_object, createStringObject.
      rewrite Ht. simpl. by rewrite take_app_length.
  - apply (parses_line _ "-" REDIS_REPLY_ERROR s (ObjString REDIS_REPLY_ERROR s)); try done.
    + intros rest. simpl. by rewrite <- app_assoc.
    + intros k Hs. split; [exact Hs|]. intros rest t1 r0 Ht. unfold line_object, createStringObject.
      rewrite Ht. simpl. by rewrite take_app_length.
  - apply (parses_line _ ":" REDIS_REPLY_INTEGER (dec_int z) (ObjInteger z)); try done.
    + intros rest. simpl. by rewrite <- app_assoc.
    + intros k Hz. split; [apply dec_int_no_cr|]. intros rest t1 r0 Ht. unfold line_object.
      rewrite Ht. simpl. by rewrite readLongLong_int.
  - intros r k t rest Hat _ _.
    eapply (step_null r k t "$" REDIS_REPLY_STRING _ Hat eq_refl); done.
Qed.

(** * Arrays *)

Lemma move_loop_reply fuel r o :
  moveToNextTask_loop fuel (set_reply r o) = (x ← moveToNextTask_loop fuel r; Val (set_reply x o)).
Proof.
  revert r. induction fuel as [|fuel IH]; intros r; simpl;
    (destruct (r_idx r <? 0); [done|]); (destruct (r_idx r =? 0); [done|]); [done|].
  change (cur_task (set_reply r o)) with (cur_task r).
  change (task_at (set_reply r o)) with (task_at r).
  destruct (cur_task r) as [cur|]; simpl; [|done].
  destruct (task_at r (r_idx r - 1)) as [prv|]; simpl; [|done].
  destruct (negb _); [done|]. destruct (t_idx cur =? _); [by rewrite <- IH|].
  destruct (negb _); [done|]. by destruct (int_arith _).
Qed.

(** Arrays without elements are objects like the others. *)
Definition childless (m : Z) (cur : redisReadTask) (r : redisReader) : outcome (nat * redisReader) :=
  if m =? -1 then createNilObject r cur else createArrayObject r cur (i32 m).

Lemma multi_rest_childless m cur r : m <= 0 → multi_rest cur m r = finish (childless m cur) r.
Proof.
  intros Hm. unfold multi_rest, finish, childless.
  assert (∀ obj r1, same_fields r r1 →
    (x ← moveToNextTask r1; Val (if r_idx r =? 0 then set_reply x (Some obj) else x))
    = moveToNextTask (reply_if_root r1 obj)) as Hmv.
  { intros obj r1 (_ & _ & Hi & _). unfold reply_if_root. rewrite Hi.
    destruct (r_idx r =? 0); [|by destruct (moveToNextTask r1)].
    unfold moveToNextTask. change (r_idx (set_reply r1 (Some obj))) with (r_idx r1).
    by rewrite move_loop_reply. }
  destruct (m =? -1).
  - unfold createNilObject. destruct (create_object r cur ObjNil) as [[obj r1]|] eqn:E; [|done].
    apply create_object_fields in E. simpl in E. cbn [mbind outcome_bind]. rewrite <- (Hmv _ _ E).
    by destruct (moveToNextTask r1).
  - unfold createArrayObject.
    destruct (create_object r cur _) as [[obj r1]|] eqn:E; [|done].
    apply create_object_fields in E. simpl in E. cbn [mbind outcome_bind]. rewrite <- (Hmv _ _ E).
    destruct (Z.ltb_spec 0 m); [lia|]. by destruct (moveToNextTask r1).
Qed.

Section ArrayStep.
Context (r : redisReader) (k : nat) (t : redisReadTask) (b : bytes).
Context (Hat : at_level r k t ("*"%char :: b)) (Hk : (k <= 7)%nat).
Let t1 := mkTask REDIS_REPLY_ARRAY (t_elements t) (t_idx t) (t_obj t) (t_parent t).
Let r1 := typed r t REDIS_REPLY_ARRAY.

(** The line with the number of elements. *)
Lemma array_line s m rest :
  b = s ++ crlf ++ rest → seek s = None → readLongLong b = Val m →
  process_typed r1
  = (x ← multi_rest t1 m (set_pos r1 (r_pos r1 + Z.of_nat (length s + 2))); Val (true, x)).
Proof.
  intros Hb Hs Hm.
  destruct (step_typed r k t "*" REDIS_REPLY_ARRAY b Hat) as (Hcur & Hok1 & _ & Hu1 & Hi1 & _).
  unfold process_typed. fold r1 in Hcur, Hok1, Hu1, Hi1. rewrite Hcur.
  cbn [mbind outcome_bind t_type]. change (REDIS_REPLY_ARRAY =? REDIS_REPLY_STRING) with false.
  change (REDIS_REPLY_ARRAY =? REDIS_REPLY_ARRAY) with true. cbv iota.
  change ((REDIS_REPLY_ARRAY =? REDIS_REPLY_ERROR) || (REDIS_REPLY_ARRAY =? REDIS_REPLY_STATUS)
          || (REDIS_REPLY_ARRAY =? REDIS_REPLY_INTEGER)) with false. cbv iota.
  rewrite processMultiBulkItem_eq, Hcur, Hi1. cbn [mbind outcome_bind].
  destruct (Z.eqb_spec (Z.of_nat k) 8); [lia|].
  rewrite line_end_seek, Hu1, Hm by done. rewrite Hb, seek_line by done.
  cbn [mbind outcome_bind].
  by replace (Z.of_nat (length s) + 2) with (Z.of_nat (length s + 2)) by lia.
Qed.

Lemma array_childless s m rest v o :
  b = s ++ crlf ++ rest → seek s = None → readLongLong b = Val m → m <= 0 →
  (∀ r0, childless m t1 r0 = create_object r0 t1 o) →
  (∀ h lo hi id, (lo <= id < hi)%nat → h !! id = Some o → denotes h lo hi v id) →
  ∃ r', run r = (x ← moveToNextTask r'; run x) ∧ parsed r k t v rest r'.
Proof.
  intros Hb Hs Hm Hle Hobj Hden.
  apply (step_object r k t "*" REDIS_REPLY_ARRAY b Hat eq_refl o (length s + 2) rest v (childless m t1));
    [|done| | |done].
  - fold r1. rewrite (array_line s m rest Hb Hs Hm). by rewrite multi_rest_childless.
  - rewrite Hb, app_assoc, take_app_length' by (rewrite length_app; done). by rewrite <- app_assoc.
  - rewrite Hb, app_assoc, take_app_length' by (rewrite length_app; done). by rewrite length_app.
Qed.
End ArrayStep.

Lemma parses_nil_array : parses RNilArray.
Proof.
  intros r k t rest Hat _ Hk. simpl in Hk.
  by eapply (array_childless r k t _ Hat Hk (lit "-1") (-1) rest RNilArray ObjNil).
Qed.

Lemma parses_empty_array : parses (RArray []).
Proof.
  intros r k t rest Hat _ [Hk _].
  by eapply (array_childless r k t _ Hat Hk (lit "0") 0 rest (RArray []) (ObjArray 0 None));
    try done; intros h lo hi id ? ?; split; [|exists []].
Qed.

(** The objects of a part of the heap that does not change. *)
Lemma denotes_frame v : ∀ h h' lo hi lo' hi' id,
  (∀ i, (lo <= i < hi)%nat → h' !! i = h !! i) → (lo' <= lo)%nat → (hi <= hi')%nat →
  denotes h lo hi v id → denotes h' lo' hi' v id.
Proof.
  induction v as [s|s|s|z| | |l IH] using resp_ind';
    intros h h' lo hi lo' hi' id Hh Hlo Hhi; simpl; intros [Hid Hv];
    (split; [lia|]); try (by rewrite Hh).
  destruct Hv as (ids & Hlen & Hobj & Hids). exists ids.
  split; [done|]. split; [by rewrite Hh|]. clear Hobj Hlen. revert ids Hids.
  induction IH as [|v l Hv _ IHl]; intros [|i ids]; try done. intros [H1 H2].
  split; [by eapply Hv|by apply IHl].
Qed.

Fixpoint denotes_all (h : list reply_obj) (lo hi : nat) (l : list resp) (ids : list nat) : Prop :=
  match l, ids with
  | v :: l, i :: ids => denotes h lo hi v i ∧ denotes_all h lo hi l ids
  | _, _ => True
  end.

Lemma denotes_all_widen h l ids lo lo' hi :
  (lo' <= lo)%nat → denotes_all h lo hi l ids → denotes_all h lo' hi l ids.
Proof.
  intros Hlo. revert ids. induction l as [|v l IH]; intros [|i ids]; simpl; try done.
  intros [H1 H2]. split; [by eapply denotes_frame|by apply IH].
Qed.

(** The task of an element: [j] of [n], the array at level [k] being the object [id0]. *)
Record in_array (stack : list redisReadTask) (idx : Z) (k id0 : nat) (n j : Z) (te tk : redisReadTask)
    : Prop := {
  ia_idx : idx = Z.of_nat (S k);
  ia_task : stack !! S k = Some te;
  ia_parent : stack !! k = Some tk;
  ia_number : t_idx te = j;
  ia_type : t_type tk = REDIS_REPLY_ARRAY;
  ia_elements : t_elements tk = n;
  ia_obj : t_obj tk = Some id0
}.

Section Move.
Context (r : redisReader) (k id0 : nat) (n j : Z) (te tk : redisReadTask).
Context (Hin : in_array (r_stack r) (r_idx r) k id0 n j te tk).

Lemma move_tasks : cur_task r = Val te ∧ task_at r (r_idx r - 1) = Val tk.
Proof.
  unfold cur_task, task_at. rewrite (ia_idx _ _ _ _ _ _ _ _ Hin).
  destruct (Z.ltb_spec (Z.of_nat (S k)) 0); [lia|].
  destruct (Z.ltb_spec (Z.of_nat (S k) - 1) 0); [lia|].
  replace (Z.to_nat (Z.of_nat (S k) - 1)) with k by lia. rewrite Nat2Z.id.
  by rewrite (ia_task _ _ _ _ _ _ _ _ Hin), (ia_parent _ _ _ _ _ _ _ _ Hin).
Qed.

Lemma move_unfold :
  moveToNextTask r
  = (if j =? n - 1 then moveToNextTask (set_stack r (r_stack r) (Z.of_nat k))
     else if negb (j <? n) then Fault CheckFailed
     else i ← int_arith (j + 1);
          Val (set_task r (r_idx r) (mkTask (-1) (-1) i (t_obj te) (t_parent te)))).
Proof.
  destruct move_tasks as [Hcur Hprv]. unfold moveToNextTask at 1.
  pose proof (ia_idx _ _ _ _ _ _ _ _ Hin) as Hi.
  rewrite Hi at 1. rewrite Nat2Z.id. cbn [moveToNextTask_loop].
  rewrite Hcur, Hprv. cbn [mbind outcome_bind].
  rewrite (ia_type _ _ _ _ _ _ _ _ Hin), (ia_elements _ _ _ _ _ _ _ _ Hin),
    (ia_number _ _ _ _ _ _ _ _ Hin).
  destruct (Z.ltb_spec (r_idx r) 0); [lia|]. destruct (Z.eqb_spec (r_idx r) 0); [lia|].
  change (negb (REDIS_REPLY_ARRAY =? REDIS_REPLY_ARRAY)) with false. cbv iota.
  unfold moveToNextTask. cbn [r_idx set_stack]. rewrite Nat2Z.id.
  by replace (r_idx r - 1) with (Z.of_nat k) by lia.
Qed.
End Move.

(** The elements of an array, from number [length ids] on. *)
Lemma parse_elements l : Forall parses l → l ≠ [] → ∀ r k id0 n ids te tk rest,
  at_level r (S k) te (List.concat (List.map enc l) ++ rest) →
  in_array (r_stack r) (r_idx r) k id0 n (Z.of_nat (length ids)) te tk →
  t_parent te = Some k → (k <= 7)%nat → Forall (allowed (S k)) l →
  n = Z.of_nat (length ids + length l) → n <= INT_MAX →
  r_heap r !! id0 = Some (ObjArray n (Some (List.map Some ids ++ replicate (length l) None))) →
  ∃ r2 te2 ids' new,
    run r = (x ← moveToNextTask r2; run x) ∧
    reader_ok r2 ∧ r_err r2 = 0 ∧ length (r_stack r2) = 9%nat ∧
    take (S k) (r_stack r2) = take (S k) (r_stack r) ∧
    in_array (r_stack r2) (r_idx r2) k id0 n (n - 1) te2 tk ∧
    unread r2 = rest ∧ r_reply r2 = r_reply r ∧ length ids' = length l ∧
    r_heap r2 = <[id0 := ObjArray n (Some (List.map Some (ids ++ ids')))]> (r_heap r) ++ new ∧
    denotes_all (r_heap r2) (length (r_heap r)) (length (r_heap r2)) l ids'.
Proof.
  intros Hp. induction Hp as [|v l Hv Hl IH]; intros Hne r k id0 n ids te tk rest Hat Hin Hpar Hk
    Hall Hn Hmax Hobj; [done|].
  apply Forall_cons in Hall as [Hav Hal]. cbn [List.map List.concat] in Hat.
  rewrite <- app_assoc in Hat. pose proof (lookup_lt_Some _ _ _ Hobj) as Hid0.
  destruct (Hv r (S k) te _ Hat ltac:(lia) Hav) as (r1 & Hrun & Hpa).
  destruct (pa_task _ _ _ _ _ _ Hpa) as (te1 & Hte1 & Hidx1 & Hpar1).
  destruct (pa_heap _ _ _ _ _ _ Hpa) as (new1 & Hheap1).
  assert (Htk : r_stack r1 !! k = Some tk).
  { rewrite <- (lookup_take_lt _ (S k)) by lia. rewrite (pa_below _ _ _ _ _ _ Hpa).
    rewrite lookup_take_lt by lia. apply Hin. }
  assert (Hin1 : in_array (r_stack r1) (r_idx r1) k id0 n (Z.of_nat (length ids)) te1 tk).
  { destruct Hin. split; try done; [apply Hpa|congruence]. }
  assert (Hfill : fill (r_stack r) te (length (r_heap r)) (r_heap r)
    = <[id0 := ObjArray n (Some (List.map Some (ids ++ [length (r_heap r)])
                                  ++ replicate (length l) None))]> (r_heap r)).
  { unfold fill. rewrite Hpar, (ia_parent _ _ _ _ _ _ _ _ Hin). simpl.
    rewrite (ia_obj _ _ _ _ _ _ _ _ Hin), Hobj, (ia_number _ _ _ _ _ _ _ _ Hin), Nat2Z.id.
    rewrite insert_app_r_alt by (rewrite length_map; lia). rewrite length_map, Nat.sub_diag. simpl.
    by rewrite List.map_app, <- app_assoc. }
  rewrite Hfill in Hheap1.
  assert (Hden1 : denotes (r_heap r1) (length (r_heap r)) (length (r_heap r1)) v (length (r_heap r)))
    by apply Hpa.
  destruct l as [|v' l].
  - exists r1, te1, [length (r_heap r)], new1. split; [done|].
    assert (n - 1 = Z.of_nat (length ids)) as -> by (rewrite Hn; simpl; lia).
    split_and!; try apply Hpa; try done.
    rewrite Hheap1. simpl. by rewrite app_nil_r.
  - rewrite (move_unfold r1 k id0 n (Z.of_nat (length ids)) te1 tk Hin1) in Hrun.
    destruct (Z.eqb_spec (Z.of_nat (length ids)) (n - 1)); [subst n; simpl in *; lia|].
    destruct (Z.ltb_spec (Z.of_nat (length ids)) n); [|subst n; simpl in *; lia].
    rewrite int_arith_ok in Hrun by (unfold INT_MIN; lia). cbn [negb mbind outcome_bind] in Hrun.
    set (te' := mkTask (-1) (-1) (Z.of_nat (length ids) + 1) (t_obj te1) (t_parent te1)) in *.
    set (r1' := set_task r1 (r_idx r1) te') in *.
    assert (Hst' : r_stack r1' = <[S k := te']> (r_stack r1)).
    { unfold r1', set_task. simpl. by rewrite (ia_idx _ _ _ _ _ _ _ _ Hin1), Nat2Z.id. }
    pose proof (lookup_lt_Some _ _ _ Hte1) as Hlt.
    assert (Hheap1' : r_heap r1' !! id0 = Some (ObjArray n (Some (List.map Some (ids ++ [length (r_heap r)])
                                  ++ replicate (length (v' :: l)) None)))).
    { change (r_heap r1') with (r_heap r1). rewrite Hheap1, lookup_app_l by (by rewrite length_insert).
      by rewrite list_lookup_insert_eq. }
    assert (Hpar' : t_parent te' = Some k) by (simpl; congruence).
    assert (Hin' : in_array (r_stack r1') (r_idx r1') k id0 n
                     (Z.of_nat (length (ids ++ [length (r_heap r)]))) te' tk).
    { rewrite length_app. destruct Hin1. split; try done.
      - rewrite Hst'. by rewrite list_lookup_insert_eq.
      - rewrite Hst'. by rewrite list_lookup_insert_ne by lia.
      - simpl. lia. }
    destruct (IH ltac:(done) r1' k id0 n (ids ++ [length (r_heap r)]) te' tk rest)
      as (r2 & te2 & ids' & new & Hrun2 & Hok2 & He2 & Hs2 & Htake & Hin2 & Hu2 & Hr2 & Hlen & Hheap & Hden);
      try done.
    + split; try apply Hpa; try done.
      * rewrite Hst', length_insert. apply Hpa.
      * apply Hin'.
      * unfold room. rewrite Hpar'. split; [lia|].
        exists id0, n, (List.map Some (ids ++ [length (r_heap r)]) ++ replicate (length (v' :: l)) None).
        rewrite (ia_parent _ _ _ _ _ _ _ _ Hin'). split; [apply Hin'|]. split; [done|].
        rewrite (ia_number _ _ _ _ _ _ _ _ Hin'), !length_app, length_map, !length_app, length_replicate.
        simpl. lia.
    + rewrite length_app, Hn. simpl. lia.
    + exists r2, te2, (length (r_heap r) :: ids'), (new1 ++ new).
      split; [by rewrite Hrun|]. split_and!; try done.
      * rewrite Htake, Hst', take_insert_ge by lia. apply Hpa.
      * rewrite Hr2. change (r_reply r1') with (r_reply r1). by rewrite (pa_reply _ _ _ _ _ _ Hpa).
      * simpl. by rewrite Hlen.
      * rewrite Hheap. change (r_heap r1') with (r_heap r1). rewrite Hheap1.
        rewrite insert_app_l by (by rewrite length_insert). rewrite list_insert_insert_eq.
        by rewrite <- !app_assoc.
      * change (r_heap r1') with (r_heap r1) in Hheap, Hden. split.
        { eapply (denotes_frame v (r_heap r1)); [|done| |exact Hden1].
          - intros i Hi. rewrite Hheap, lookup_app_l by (rewrite length_insert; lia).
            by rewrite list_lookup_insert_ne by lia.
          - rewrite Hheap, length_app, length_insert. lia. }
        { eapply denotes_all_widen; [|exact Hden]. rewrite Hheap1, length_app, length_insert. lia. }
Qed.

Lemma enc_length v : (1 <= length (enc v))%nat.
Proof. destruct v; simpl; lia. Qed.

Lemma enc_all_length l : (length l <= length (List.concat (List.map enc l)))%nat.
Proof.
  induction l as [|v l IH]; simpl; [done|]. rewrite length_app. pose proof (enc_length v). lia.
Qed.

Lemma allowed_array k l : allowed k (RArray l) ↔ (k <= 7)%nat ∧ Forall (allowed (S k)) l.
Proof.
  simpl. enough (∀ l, (fix go l := match l with [] => True | v :: l => allowed (S k) v ∧ go l end) l
                      ↔ Forall (allowed (S k)) l) as -> by done.
  clear. induction l as [|v l IH]; [by split|]. rewrite Forall_cons. by rewrite IH.
Qed.

Lemma denotes_array h lo hi l ids id :
  (lo <= id < hi)%nat → length ids = length l → l ≠ [] →
  h !! id = Some (ObjArray (Z.of_nat (length l)) (Some (List.map Some ids))) →
  denotes_all h lo hi l ids → denotes h lo hi (RArray l) id.
Proof.
  intros Hid Hlen Hne Hobj Hall. split; [done|]. exists ids. split; [done|].
  split; [by destruct l|]. clear - Hall. revert ids Hall.
  induction l as [|v l IH]; intros [|i ids]; try done. intros [H1 H2]. split; [done|by apply IH].
Qed.

(** The array object is made, and its first element is next. *)
Record opened (r : redisReader) (k : nat) (t : redisReadTask) (l : list resp) (rest : bytes)
    (re : redisReader) (te tk : redisReadTask) : Prop := {
  op_at : at_level re (S k) te (List.concat (List.map enc l) ++ rest);
  op_in : in_array (r_stack re) (r_idx re) k (length (r_heap r)) (Z.of_nat (length l)) 0 te tk;
  op_parent : t_parent te = Some k;
  op_task : t_idx tk = t_idx t ∧ t_parent tk = t_parent t;
  op_below : take k (r_stack re) = take k (r_stack r);
  op_reply : r_reply re = if (k =? 0)%nat then Some (length (r_heap r)) else r_reply r;
  op_heap : r_heap re = fill (r_stack r) t (length (r_heap r)) (r_heap r)
              ++ [ObjArray (Z.of_nat (length l)) (Some (replicate (length l) None))]
}.

Section Open.
Context (r : redisReader) (k : nat) (t : redisReadTask) (l : list resp) (rest : bytes).
Context (Hat : at_level r k t (enc (RArray l) ++ rest)) (Hk : (k <= 7)%nat) (Hl : l ≠ []).
Let n := Z.of_nat (length l).
Let body := dec_nat n ++ crlf ++ List.concat (List.map enc l) ++ rest.
Let t1 := mkTask REDIS_REPLY_ARRAY (t_elements t) (t_idx t) (t_obj t) (t_parent t).
Let r0 := set_pos (typed r t REDIS_REPLY_ARRAY)
            (r_pos (typed r t REDIS_REPLY_ARRAY) + Z.of_nat (length (dec_nat n) + 2)).
Let id := length (r_heap r).
Let heap := fill (r_stack r) t id (r_heap r) ++ [ObjArray n (Some (replicate (length l) None))].
Let tk := mkTask REDIS_REPLY_ARRAY n (t_idx t) (Some id) (t_parent t).
Let re := reply_if_root (set_heap r0 heap) id.

Lemma open_at : at_level r k t ("*"%char :: body).
Proof.
  unfold body, n. change (enc (RArray l) ++ rest) with
    ("*"%char :: ((dec_nat (Z.of_nat (length l)) ++ crlf ++ List.concat (List.map enc l)) ++ rest)) in Hat.
  by rewrite <- !app_assoc in Hat.
Qed.

Lemma open_count : 0 < n <= INT_MAX.
Proof.
  pose proof (unread_int [] r r (more_refl _ (al_ok _ _ _ _ open_at))) as Hi.
  rewrite (al_unread _ _ _ _ open_at) in Hi. unfold body in Hi. cbn [length] in Hi.
  rewrite !length_app in Hi. pose proof (enc_all_length l). unfold n. destruct l; [done|].
  cbn [length] in *. lia.
Qed.

Lemma open_state :
  reader_ok r0 ∧ r_err r0 = 0 ∧ unread r0 = List.concat (List.map enc l) ++ rest ∧
  r_idx r0 = Z.of_nat k ∧ r_stack r0 = <[k := t1]> (r_stack r) ∧ r_heap r0 = r_heap r ∧
  r_reply r0 = r_reply r.
Proof.
  destruct (step_typed r k t "*" REDIS_REPLY_ARRAY body open_at)
    as (_ & Hok1 & He1 & Hu1 & Hi1 & Hs1 & Hh1 & Hr1).
  set (r1 := typed r t REDIS_REPLY_ARRAY) in *.
  assert (0 <= Z.of_nat (length (dec_nat n) + 2) <= r_len r1 - r_pos r1) as Hle.
  { rewrite <- unread_length, Hu1 by done. unfold body. rewrite !length_app.
    change (length crlf) with 2%nat. lia. }
  pose proof (more_set_pos [] r1 r1 (more_refl _ Hok1) _ Hle) as [Hok0 _].
  split; [exact Hok0|]. split; [done|]. split; [|done].
  unfold r0. rewrite unread_set_pos, Hu1 by done. unfold body. rewrite app_assoc.
  by rewrite drop_app_length' by (by rewrite length_app).
Qed.

Lemma open_multi :
  multi_rest t1 n r0
  = Val (set_stack re (<[S k := element_task (Z.of_nat k)]> (<[k := tk]> (r_stack r0)))
           (Z.of_nat (S k))).
Proof.
  pose proof open_count as Hn.
  destruct open_state as (_ & _ & _ & Hi0 & Hs0 & Hh0 & _).
  unfold multi_rest, createArrayObject. destruct (Z.eqb_spec n (-1)); [lia|].
  rewrite i32_small by (unfold INT_MIN, INT_MAX in *; lia).
  rewrite u64_small by (unfold INT_MAX in *; lia). destruct (Z.ltb_spec 0 n); [|lia].
  assert (Z.to_nat n = length l) as -> by (unfold n; lia).
  assert (take k (r_stack r0) = take k (r_stack r)) as Htake
    by (rewrite Hs0; by rewrite take_insert_ge by lia).
  assert (room k (r_stack r0) (r_heap r0) t1) as Hroom.
  { rewrite Hh0. eapply room_stack; [apply Hat|done..]. }
  rewrite (create_object_room _ _ _ _ Hroom), Hh0.
  rewrite (fill_stack k (r_stack r) (r_stack r0) t t1) by (apply Hat || done).
  unfold re. clearbody r0. unfold reply_if_root, set_task. simpl. rewrite Hi0, Nat2Z.id.
  replace (Z.to_nat (Z.of_nat k + 1)) with (S k) by lia.
  replace (Z.of_nat k + 1) with (Z.of_nat (S k)) by lia.
  by destruct (Z.of_nat k =? 0).
Qed.

Lemma open_array : ∃ re te tk, run r = run re ∧ opened r k t l rest re te tk.
Proof.
  pose proof open_count as Hn. pose proof open_at as Hat'.
  destruct open_state as (Hok0 & He0 & Hu0 & Hi0 & Hs0 & Hh0 & Hr0).
  pose proof (al_task _ _ _ _ Hat) as Ht. pose proof (lookup_lt_Some _ _ _ Ht) as Hlt.
  pose proof (al_stack _ _ _ _ Hat) as Hlen.
  eexists _, (element_task (Z.of_nat k)), tk. split.
  { rewrite run_eq by apply Hat. rewrite (al_idx _ _ _ _ Hat).
    destruct (Z.ltb_spec (Z.of_nat k) 0); [lia|].
    rewrite (step_item r k t "*" REDIS_REPLY_ARRAY body Hat' eq_refl).
    rewrite (array_line r k t body Hat' Hk (dec_nat n) n
               (List.concat (List.map enc l) ++ rest) eq_refl (dec_nat_no_cr n))
      by (apply (readLongLong_nat n (chr_nl :: _)); unfold INT_MAX, LLONG_MAX in *; lia).
    fold t1. fold r0. rewrite open_multi. cbn [mbind outcome_bind]. reflexivity. }
  assert (r_stack re = r_stack r0 ∧ r_heap re = heap ∧ r_err re = 0 ∧ reader_ok re ∧
          unread re = unread r0) as (Hsre & Hhre & Here & Hokre & Hure)
    by (unfold re, reply_if_root; by destruct (_ =? 0)).
  assert (r_reply re = if (k =? 0)%nat then Some id else r_reply r) as Hrre.
  { unfold re, reply_if_root. change (r_idx (set_heap r0 heap)) with (r_idx r0). rewrite Hi0.
    destruct (Z.eqb_spec (Z.of_nat k) 0), (Nat.eqb_spec k 0); (done || lia). }
  set (stack := <[S k := element_task (Z.of_nat k)]> (<[k := tk]> (r_stack r0))).
  assert (length stack = 9%nat) as Hl9 by (unfold stack; by rewrite !length_insert, Hs0, length_insert).
  assert (stack !! S k = Some (element_task (Z.of_nat k))) as HS.
  { apply list_lookup_insert_eq. rewrite length_insert, Hs0, length_insert. lia. }
  assert (stack !! k = Some tk) as HK.
  { unfold stack. rewrite list_lookup_insert_ne by lia. apply list_lookup_insert_eq.
    rewrite Hs0, length_insert. lia. }
  assert (t_parent (element_task (Z.of_nat k)) = Some k) as Hpar by (simpl; by rewrite Nat2Z.id).
  assert (heap !! id = Some (ObjArray n (Some (replicate (length l) None)))) as Hobj.
  { unfold heap. rewrite lookup_app_r, fill_length by (rewrite fill_length; done).
    by rewrite Nat.sub_diag. }
  split; try done.
  - split; try done; [|by rewrite <- Hu0, <- Hure]. unfold room. rewrite Hpar. split; [lia|].
    exists id, n, (replicate (length l) None).
    change (r_stack (set_stack re stack (Z.of_nat (S k)))) with stack. rewrite HK.
    split; [done|]. rewrite length_replicate. split; [|unfold n in Hn; simpl; lia].
    change (r_heap re !! id = Some (ObjArray n (Some (replicate (length l) None)))). by rewrite Hhre.
  - change (r_stack (set_stack re stack (Z.of_nat (S k)))) with stack. unfold stack.
    rewrite !take_insert_ge by lia. rewrite Hs0. by rewrite take_insert_ge by lia.
Qed.
End Open.

Lemma parses_array l : Forall parses l → parses (RArray l).
Proof.
  destruct (decide (l = [])) as [->|Hne]; [intros _; apply parses_empty_array|].
  intros Hp r k t rest Hat _ [Hk Hall]%allowed_array.
  destruct (open_array r k t l rest Hat Hk Hne) as (re & te & tk & Hrun & Hop).
  pose proof (open_count r k t l rest Hat Hk Hne) as Hn.
  pose proof (op_heap _ _ _ _ _ _ _ _ Hop) as Hh. set (id := length (r_heap r)) in *.
  set (heap := fill (r_stack r) t id (r_heap r)) in *.
  assert (length heap = id) as Hid by apply fill_length.
  assert (r_heap re !! id = Some (ObjArray (Z.of_nat (length l)) (Some (replicate (length l) None))))
    as Hobj by (by rewrite Hh, lookup_app_r, Hid, Nat.sub_diag by lia).
  destruct (parse_elements l Hp Hne re k id (Z.of_nat (length l)) [] te tk rest)
    as (r2 & te2 & ids' & new & Hrun2 & Hok2 & He2 & Hs2 & Htake & Hin2 & Hu2 & Hr2 & Hlen & Hheap & Hden);
    try apply Hop; try done; try lia.
  set (stack := r_stack r2) in *. exists (set_stack r2 stack (Z.of_nat k)).
  assert (r_heap r2 = heap ++ [ObjArray (Z.of_nat (length l)) (Some (List.map Some ids'))] ++ new) as Hheap2.
  { rewrite Hheap, Hh, insert_app_r_alt, Hid, Nat.sub_diag by lia. simpl. by rewrite <- app_assoc. }
  split.
  { rewrite Hrun, Hrun2, (move_unfold r2 k id _ _ te2 tk Hin2).
    by destruct (Z.eqb_spec (Z.of_nat (length l) - 1) (Z.of_nat (length l) - 1)). }
  split; try done.
  - exists tk. split; [apply Hin2|]. apply Hop.
  - change (take k stack = take k (r_stack r)).
    rewrite <- (op_below _ _ _ _ _ _ _ _ Hop).
    replace k with (Nat.min k (S k)) by lia. rewrite <- !take_take. by rewrite Htake.
  - by rewrite <- (op_reply _ _ _ _ _ _ _ _ Hop), <- Hr2.
  - by exists ([ObjArray (Z.of_nat (length l)) (Some (List.map Some ids'))] ++ new).
  - cbn [r_heap set_stack]. apply (denotes_array _ _ _ l ids'); try done.
    + rewrite Hheap2, length_app. cbn [length app]. lia.
    + by rewrite Hheap2, lookup_app_r, Hid, Nat.sub_diag by lia.
    + eapply denotes_all_widen; [|exact Hden]. rewrite Hh, length_app. lia.
Qed.

(** Whatever the reply, the reader makes it. *)
Lemma all_parse v : parses v.
Proof.
  induction v as [s|s|s|z| | |l IH] using resp_ind'; try exact (parses_scalar (RString s));
    [exact (parses_scalar (RStatus s))|exact (parses_scalar (RError s))|
     exact (parses_scalar (RInteger z))|exact (parses_scalar RNil)|exact parses_nil_array|].
  by apply parses_array.
Qed.
