(* ===== verification/HiredisStream.v ===== *)
(** The reader on streams of whole replies, and on streams that the protocol or the code's types do
    not cover. *)
From Stdlib Require Import Ascii String ZArith Lia.
From stdpp Require Import base list.
From S2P Require Import Prelude Common SdsArgs Sds SdsProps Hiredis HiredisReader HiredisFeed HiredisDrain HiredisParse.
Local Open Scope Z_scope.

(** * One reply *)

(** Between two replies. *)
Record idle (r : redisReader) : Prop := {
  id_ok : reader_ok r;
  id_err : r_err r = 0;
  id_stack : length (r_stack r) = 9%nat;
  id_idx : r_idx r = -1;
  id_reply : r_reply r = None
}.

Lemma idle_alive r : idle r → alive r.
Proof. intros []. split_and!; try done. by left. Qed.

Lemma idle_level r b : idle r → unread r = b → at_level (open_task r) 0 root_task b.
Proof.
  intros [Hok He Hs Hi Hr] Hu. unfold open_task. rewrite Hi. simpl.
  split; try done; simpl; [by rewrite length_insert|apply list_lookup_insert_eq; lia].
Qed.

Lemma next_reply r v rest :
  idle r → unread r = enc v ++ rest → allowed 0 v →
  ∃ r', next r = Val (true, Some (length (r_heap r)), r') ∧ idle r' ∧ unread r' = rest ∧
    (∃ new, r_heap r' = r_heap r ++ new) ∧
    denotes (r_heap r') (length (r_heap r)) (length (r_heap r')) v (length (r_heap r)).
Proof.
  intros Hid Hu Hv. pose proof (idle_level r _ Hid Hu) as Hat.
  destruct (all_parse v _ 0%nat _ rest Hat ltac:(lia) Hv) as (r1 & Hrun & Hpa).
  assert (moveToNextTask r1 = Val (set_stack r1 (r_stack r1) (-1))) as Hmove.
  { unfold moveToNextTask. pose proof (pa_idx _ _ _ _ _ _ Hpa) as Hi.
    destruct (Z.to_nat (r_idx r1)); simpl; by rewrite Hi. }
  rewrite Hmove in Hrun. cbn [mbind outcome_bind] in Hrun.
  rewrite (run_eq (set_stack r1 _ _)) in Hrun by apply Hpa. simpl in Hrun.
  assert (r_heap (open_task r) = r_heap r) as Hh by (unfold open_task; by destruct (_ =? _)).
  pose proof (pa_reply _ _ _ _ _ _ Hpa) as Hrep. pose proof (pa_heap _ _ _ _ _ _ Hpa) as Hnew.
  pose proof (pa_denotes _ _ _ _ _ _ Hpa) as Hden. rewrite Hh in *.
  exists (set_reply (set_stack r1 (r_stack r1) (-1)) None). split.
  { unfold next. rewrite Hrun. cbn [mbind outcome_bind set_stack r_err r_idx r_reply].
    by rewrite (pa_err _ _ _ _ _ _ Hpa), Hrep. }
  split; [by split; try apply Hpa|]. split; [apply Hpa|]. by split.
Qed.

Lemma next_nothing r : idle r → unread r = [] → next r = Val (true, None, open_task r).
Proof.
  intros Hid Hu. pose proof (idle_level r _ Hid Hu) as Hat. unfold next.
  rewrite run_eq by apply Hat. rewrite (al_idx _ _ _ _ Hat). simpl.
  rewrite processItem_eq by apply Hat. rewrite (al_unread _ _ _ _ Hat).
  unfold cur_task, task_at. rewrite (al_idx _ _ _ _ Hat). simpl.
  rewrite Nat2Z.id, (al_task _ _ _ _ Hat). simpl.
  by rewrite (al_err _ _ _ _ Hat), (al_idx _ _ _ _ Hat).
Qed.

(** * Replies in a row *)

Definition replies (h : list reply_obj) (vs : list resp) (ids : list nat) : Prop :=
  Forall2 (λ v id, denotes h 0 (length h) v id) vs ids.

Lemma pump_replies vs : ∀ n r,
  idle r → unread r = List.concat (List.map enc vs) → Forall (allowed 0) vs →
  (length vs < n)%nat →
  ∃ ids r' new, pump n r = Val (ids, r') ∧ r_err r' = 0 ∧ unread r' = [] ∧
    r_heap r' = r_heap r ++ new ∧ replies (r_heap r') vs ids.
Proof.
  induction vs as [|v vs IH]; intros n r Hid Hu Hall Hn; (destruct n as [|n]; [lia|]); simpl.
  - rewrite next_nothing by done. simpl. exists [], (open_task r), [].
    pose proof (idle_level r _ Hid Hu) as Hat. split; [done|]. split; [apply Hat|].
    split; [apply Hat|]. split; [|by constructor].
    rewrite app_nil_r. unfold open_task. by destruct (_ =? _).
  - apply Forall_cons in Hall as [Hv Hall]. simpl in Hn.
    destruct (next_reply r v _ Hid Hu Hv) as (r1 & -> & Hid1 & Hu1 & [new1 Hh1] & Hden).
    destruct (IH n r1 Hid1 Hu1 Hall ltac:(lia)) as (ids & r2 & new & Hp & He & Hu2 & Hh & Hrep).
    simpl. rewrite Hp. simpl. exists (length (r_heap r) :: ids), r2, (new1 ++ new).
    split_and!; [done..|by rewrite Hh, Hh1, <- app_assoc|]. constructor; [|done].
    eapply (denotes_frame v (r_heap r1)); [| | |exact Hden]; [|lia|rewrite Hh, length_app; lia].
    intros i Hi. rewrite Hh. by rewrite lookup_app_l by lia.
Qed.

(** A stream in one piece from a new reader. *)
Section Fresh.
Context (b : bytes) (Hfit : Z.of_nat (length b) <= INT_MAX).
Let r := (redisReaderFeed redisReaderCreate b).2.

Lemma fresh_idle : idle r ∧ unread r = b ∧ alive r.
Proof.
  assert (alive r) as Ha by (apply feed_alive; [apply create_resting|simpl; lia]).
  pose proof (feed_more redisReaderCreate b
                (resting_alive _ create_resting) ltac:(simpl; lia)) as Hm. fold r in Hm.
  pose proof (more_unread _ _ _ Hm) as Hu. split; [|split; [done|done]].
  split; [by eapply more_ok|by rewrite (more_err _ _ _ Hm)| |by rewrite (more_idx _ _ _ Hm)|];
    by destruct Hm as (_ & b' & p & -> & _).
Qed.

Lemma fresh_fault f : run (open_task r) = Fault f → session [b] redisReaderCreate = Fault f.
Proof.
  intros Hrun. destruct fresh_idle as (_ & _ & Ha). rewrite session_one. fold r.
  pose proof (GetReply_next r Ha) as Hs. rewrite next_eq, Hrun in Hs. simpl in Hs.
  unfold drain_all. simpl. by destruct (redisReaderGetReply r) as [[[]]|]; [|rewrite Hs].
Qed.
End Fresh.

Lemma session_replies vs pieces :
  Forall (allowed 0) vs → Z.of_nat (length (List.concat pieces)) <= INT_MAX →
  List.concat pieces = List.concat (List.map enc vs) →
  ∃ ids r, session pieces redisReaderCreate = Val (ids, r) ∧ r_err r = 0 ∧ unread r = [] ∧
    replies (r_heap r) vs ids.
Proof.
  intros Hall Hfit Heq. pose proof (session_pieces pieces Hfit) as Hs.
  destruct (fresh_idle _ Hfit) as (Hid & Hu & Ha).
  set (r1 := (redisReaderFeed redisReaderCreate (List.concat pieces)).2) in *.
  pose proof (enc_all_length vs) as Hlen. rewrite <- Heq in Hlen.
  destruct (pump_replies vs (S (length (unread r1))) r1 Hid) as (ids & r & new & Hp & He & Hur & _ & Hrep);
    [by rewrite Hu|done|rewrite Hu; lia|].
  pose proof (same_replies_session _ _ (drain_all_pump r1 Ha)) as Hd. rewrite Hp in Hd.
  rewrite session_one in Hs. fold r1 in Hs.
  destruct (drain_all r1) as [[ids1 r1']|]; [|done].
  destruct (session pieces redisReaderCreate) as [[ids2 r2']|]; [|done].
  destruct Hd as (-> & He1 & _ & Hh1 & Hu1), Hs as (-> & He2 & _ & Hh2 & Hu2).
  exists ids, r2'. split_and!; [done|congruence|congruence|]. by rewrite Hh2, Hh1.
Qed.

(** C5. A stream of well-formed replies, cut into pieces in any way, is read as exactly those
    replies in order: the reader ends without error and without unread data, and each object that it
    hands out is the tree of the reply, to any depth that the reader allows. *)
Theorem stream_replies (vs : list resp) (pieces : list bytes) :
  Forall (allowed 0) vs → Z.of_nat (length (List.concat pieces)) <= INT_MAX →
  List.concat pieces = List.concat (List.map enc vs) →
  ∃ ids r, session pieces redisReaderCreate = Val (ids, r) ∧ r_err r = 0 ∧ unread r = [] ∧
    Forall2 (λ v id, denotes (r_heap r) 0 (length (r_heap r)) v id) vs ids.
Proof. apply session_replies. Qed.

Definition sample_replies : list resp :=
  [RArray [RString (lit "a"); RArray [RInteger (-7); RNil]; RArray []]; RStatus (lit "OK"); RNilArray;
   RArray [RArray [RArray [RError (lit "ERR x")]]]].

Lemma stream_replies_witness :
  ∃ ids r, session [lit "*3" ++ crlf ++ lit "$1" ++ crlf ++ lit "a" ++ [chr_cr];
                    [chr_nl] ++ lit "*2" ++ crlf ++ lit ":-7" ++ crlf ++ lit "$-";
                    lit "1" ++ crlf ++ lit "*0" ++ crlf ++ lit "+OK" ++ crlf ++ lit "*-1" ++ crlf;
                    lit "*1" ++ crlf ++ lit "*1" ++ crlf ++ lit "*1" ++ crlf ++ lit "-ERR x" ++ crlf]
             redisReaderCreate = Val (ids, r) ∧ r_err r = 0 ∧ unread r = [] ∧
    Forall2 (λ v id, denotes (r_heap r) 0 (length (r_heap r)) v id) sample_replies ids.
Proof.
  apply (stream_replies sample_replies).
  - repeat constructor; unfold LLONG_MIN, LLONG_MAX; lia.
  - vm_compute. discriminate.
  - vm_compute. reflexivity.
Defined.

(** * Commands and their readers *)

Lemma resp_command_enc args : resp_command args = enc (RArray (List.map RString args)).
Proof.
  unfold resp_command. simpl. rewrite length_map. do 3 f_equal. rewrite List.map_map. done.
Qed.

Lemma allowed_words args : allowed 0 (RArray (List.map RString args)).
Proof.
  apply allowed_array. split; [lia|]. apply Forall_forall. intros v.
  rewrite list_elem_of_fmap. by intros (s & -> & _).
Qed.

(** C26. What [redisFormatCommandArgv] writes for an argument vector is, for a reader that gets it in
    any pieces, the one array of exactly those arguments, whatever bytes they contain. *)
Theorem command_roundtrip `{AllocLaws} argv argvlen args text n pieces :
  args_at argv argvlen args → Z.of_nat (length (resp_command args)) + 1 <= INT_MAX →
  redisFormatCommandArgv (Z.of_nat (length args)) argv argvlen = Val (Some (text, n)) →
  List.concat pieces = take (Z.to_nat n) text →
  ∃ id r, session pieces redisReaderCreate = Val ([id], r) ∧ r_err r = 0 ∧ unread r = [] ∧
    denotes (r_heap r) 0 (length (r_heap r)) (RArray (List.map RString args)) id.
Proof.
  intros Hat Hmax Hfmt Hp.
  destruct (redisFormatCommandArgv_spec argv argvlen args Hat ltac:(lia)) as [[Hn _]|Hv];
    [congruence|]. rewrite Hv in Hfmt.
  assert (text = resp_command args ++ [NUL] ∧ n = Z.of_nat (length (resp_command args))) as [-> ->]
    by (by simplify_eq).
  rewrite Nat2Z.id, take_app_length in Hp.
  destruct (session_replies [RArray (List.map RString args)] pieces) as (ids & r & Hs & He & Hu & Hr).
  - constructor; [apply allowed_words|done].
  - rewrite Hp. lia.
  - rewrite Hp, resp_command_enc. simpl. by rewrite app_nil_r.
  - inversion Hr as [|? id ? ids' Hid Hnil]; subst. inversion Hnil; subst. by exists id, r.
Qed.

Lemma command_roundtrip_witness :
  ∃ id r, session [lit "*2" ++ crlf ++ lit "$3" ++ crlf ++ lit "GE";
                   lit "T" ++ crlf ++ lit "$3" ++ crlf ++ lit "a b" ++ crlf] redisReaderCreate
            = Val ([id], r) ∧ r_err r = 0 ∧ unread r = [] ∧
    denotes (r_heap r) 0 (length (r_heap r)) (RArray [RString (lit "GET"); RString (lit "a b")]) id.
Proof.
  eapply (@command_roundtrip alloc_ref alloc_ref_laws [lit "GET"; lit "a b"] None
            [lit "GET"; lit "a b"]).
  - apply args_at_strlen. repeat constructor; by apply no_nul_check.
  - vm_compute. discriminate.
  - vm_compute. reflexivity.
  - vm_compute. reflexivity.
Defined.

(** * Numbers out of range *)

Lemma read_digits_overflow s a b t :
  0 <= a <= LLONG_MAX → LLONG_MAX < b → parse_digits s a = Some b →
  read_digits (s ++ chr_cr :: t) a = Fault SignedOverflow.
Proof.
  revert a. induction s as [|c s IH]; intros a Ha Hb; [intros [= ->]; lia|].
  cbn [parse_digits app read_digits]. destruct (c_isdigit c) eqn:Hd; [|done]. intros Hp.
  pose proof Hd as Hd'. unfold c_isdigit in Hd'.
  apply andb_true_iff in Hd' as [?%Z.leb_le ?%Z.leb_le].
  destruct (Ascii.eqb_spec c chr_cr) as [->|_]; [done|].
  unfold ll_arith, LLONG_MIN, LLONG_MAX in *.
  destruct (Z.leb_spec (- 2 ^ 63) (a * 10)); [|lia].
  destruct (Z.leb_spec (a * 10) (2 ^ 63 - 1)); [|done]. cbn [andb mbind outcome_bind].
  destruct (Z.leb_spec (- 2 ^ 63) (a * 10 + (byte_val c - 48))); [|lia].
  destruct (Z.leb_spec (a * 10 + (byte_val c - 48)) (2 ^ 63 - 1)); [|done].
  cbn [andb mbind outcome_bind]. apply IH; [lia|done|done].
Qed.

Lemma readLongLong_overflow z t :
  - 2 ^ 64 < z < 2 ^ 64 → ¬ LLONG_MIN < z <= LLONG_MAX →
  readLongLong (dec_int z ++ chr_cr :: t) = Fault SignedOverflow.
Proof.
  intros Hz Hr. unfold LLONG_MIN, LLONG_MAX in Hr. assert (0 <= 0 <= LLONG_MAX) as H0 by done.
  unfold dec_int. destruct (Z.ltb_spec z 0) as [Hneg|Hpos].
  - pose proof (parse_dec_nat (- z) ltac:(lia)) as Hp.
    pose proof (read_digits_overflow _ 0 (- z) t H0 ltac:(unfold LLONG_MAX; lia) Hp) as Hf.
    change ((lit "-" ++ dec_nat (- z)) ++ chr_cr :: t)
      with (("-"%char : ascii) :: (dec_nat (- z) ++ chr_cr :: t)).
    unfold readLongLong. change (Ascii.eqb "-" "-") with true. cbv iota. by rewrite Hf.
  - pose proof (parse_dec_nat z ltac:(lia)) as Hp.
    pose proof (read_digits_overflow _ 0 z t H0 ltac:(unfold LLONG_MAX; lia) Hp) as Hf.
    destruct (dec_nat z) as [|c s] eqn:E; [simpl in Hp; injection Hp; lia|].
    pose proof (dec_nat_head _ _ _ E) as Hc. unfold readLongLong. cbn [app] in *.
    destruct (Ascii.eqb_spec c "-") as [->|_]; [done|].
    destruct (Ascii.eqb_spec c "+") as [->|_]; [done|]. by rewrite Hf.
Qed.

(** A line whose object cannot be made. *)
Lemma step_line_fault r k t c type b s rest f :
  at_level r k t (c :: b) → reply_type c = Some type →
  (type =? REDIS_REPLY_ERROR) || (type =? REDIS_REPLY_STATUS) || (type =? REDIS_REPLY_INTEGER) = true →
  b = s ++ crlf ++ rest → seek s = None →
  (∀ r0, r_heap r0 = r_heap r → r_stack r0 = r_stack (typed r t type) →
     line_object (mkTask type (t_elements t) (t_idx t) (t_obj t) (t_parent t)) b (length s) r0
     = Fault f) →
  run r = Fault f.
Proof.
  intros Hat Hc Htype Hb Hs Hobj.
  destruct (step_typed r k t c type b Hat) as (Hcur & Hok1 & _ & Hu1 & _).
  rewrite run_eq by apply Hat. rewrite (al_idx _ _ _ _ Hat).
  destruct (Z.ltb_spec (Z.of_nat k) 0); [lia|].
  rewrite (step_item r k t c type b Hat Hc). unfold process_typed. rewrite Hcur.
  cbn [mbind outcome_bind t_type]. rewrite Htype.
  rewrite processLineItem_eq, Hcur, line_end_seek, Hu1, Hb, seek_line by done.
  cbn [mbind outcome_bind]. unfold finish. by rewrite <- Hb, Hobj.
Qed.

Lemma session_integer z :
  - 2 ^ 64 < z < 2 ^ 64 → ¬ LLONG_MIN < z <= LLONG_MAX →
  session [lit ":" ++ dec_int z ++ crlf] redisReaderCreate = Fault SignedOverflow.
Proof.
  intros Hz Hr. set (b := lit ":" ++ dec_int z ++ crlf).
  assert (Z.of_nat (length b) <= INT_MAX) as Hfit.
  { unfold b. rewrite !length_app. pose proof (dec_int_length z) as Hl. simpl length.
    unfold INT_MAX. lia. }
  destruct (fresh_idle b Hfit) as (Hid & Hu & _). apply fresh_fault; [done|].
  pose proof (idle_level _ _ Hid Hu) as Hat.
  eapply (step_line_fault _ 0 root_task ":" REDIS_REPLY_INTEGER (dec_int z ++ crlf) (dec_int z) []);
    [exact Hat|done|done|done|apply dec_int_no_cr|].
  intros r0 _ _. unfold line_object. cbn [t_type].
  change (REDIS_REPLY_INTEGER =? REDIS_REPLY_INTEGER) with true. cbv iota.
  unfold crlf. by rewrite readLongLong_overflow.
Qed.

(** C30. An integer reply is read as its value, except that the digits are accumulated in a [long long]
    before the sign is applied: beyond its range, and for the smallest [long long] already, the
    arithmetic overflows. *)
Theorem integer_replies (z : Z) :
  - 2 ^ 64 < z < 2 ^ 64 →
  match session [lit ":" ++ dec_int z ++ crlf] redisReaderCreate with
  | Val (ids, r) => LLONG_MIN < z <= LLONG_MAX ∧ r_err r = 0 ∧
                    ∃ id, ids = [id] ∧ r_heap r !! id = Some (ObjInteger z)
  | Fault f => ¬ (LLONG_MIN < z <= LLONG_MAX) ∧ f = SignedOverflow
  end.
Proof.
  intros Hz. destruct (decide (LLONG_MIN < z <= LLONG_MAX)) as [Hr|Hr];
    [|by rewrite session_integer].
  destruct (session_replies [RInteger z] [lit ":" ++ dec_int z ++ crlf]) as (ids & r & -> & He & _ & Hrep).
  - constructor; [exact Hr|done].
  - simpl. rewrite app_nil_r, length_app. pose proof (dec_int_length z) as Hl. simpl length.
    unfold INT_MAX. lia.
  - done.
  - split; [done|]. split; [done|].
    inversion Hrep as [|? id ? ids' Hid Hnil]; subst. inversion Hnil; subst.
    exists id. split; [done|]. apply Hid.
Qed.

Lemma integer_replies_witness :
  session [lit ":-9223372036854775808" ++ crlf] redisReaderCreate = Fault SignedOverflow ∧
  match session [lit ":9223372036854775807" ++ crlf] redisReaderCreate with
  | Val (ids, r) => ∃ id, ids = [id] ∧ r_heap r !! id = Some (ObjInteger LLONG_MAX)
  | Fault _ => False
  end.
Proof.
  pose proof (integer_replies (- 2 ^ 63) ltac:(lia)) as H1.
  pose proof (integer_replies (2 ^ 63 - 1) ltac:(lia)) as H2. split.
  - vm_compute. reflexivity.
  - vm_compute in H2 |- *. destruct H2 as (_ & _ & H2). exact H2.
Defined.

(** * Limits of the reader *)

Definition nested_headers (n : nat) : bytes := List.concat (replicate n (lit "*1" ++ crlf)).

(** What follows an error is dropped. *)
Lemma session_error b rest r :
  Z.of_nat (length (b ++ rest)) <= INT_MAX →
  session [b] redisReaderCreate = Val ([], r) → r_err r ≠ 0 →
  ∃ r', session [b ++ rest] redisReaderCreate = Val ([], r') ∧ r_err r' = r_err r ∧
        r_errstr r' = r_errstr r.
Proof.
  intros Hfit Hb He. pose proof (session_pieces [b; rest]) as Hs. simpl List.concat in Hs.
  rewrite app_nil_r in Hs. specialize (Hs Hfit). rewrite session_one in Hb.
  rewrite session_cons, Hb in Hs. cbn [mbind outcome_bind] in Hs.
  rewrite prepend_nil, session_closed in Hs by done.
  destruct (session [b ++ rest] redisReaderCreate) as [[ids r']|]; [|done].
  destruct Hs as (<- & ? & ? & _). by exists r'.
Qed.

Lemma nested_error :
  ∃ r, session [nested_headers 9] redisReaderCreate = Val ([], r) ∧ r_err r = REDIS_ERR_PROTOCOL ∧
       r_errstr r = lit "No support for nested multi bulk replies with depth > 7".
Proof. eexists. split; [vm_compute; reflexivity|]. by vm_compute. Qed.


