(* ===== verification/HiredisContext.v ===== *)
(** Blocking connections of hiredis: the context of [third-party/redis/deps/hiredis/hiredis.c] with
    its output buffer and its reply reader, over a network. *)
From Stdlib Require Import Ascii String ZArith Lia.
From stdpp Require Import base list.
From S2P Require Import Prelude Common SdsArgs Sds SdsProps Hiredis HiredisFormat HiredisReader.
Local Open Scope Z_scope.
#[local] Set Warnings "-register-all".

(** * The network

    The system calls on a descriptor and the calls of libssh2 on a channel.  A read fails with its
    negative result or delivers bytes (none at the end of the stream); a write returns its count. *)

Inductive errno_t := EAGAIN | F_EINTR | ECONNRESET | ErrnoOther (n : Z).
#[export] Instance errno_eq_dec : EqDecision errno_t.
Proof. solve_decision. Defined.

Inductive read_result := ReadFail (code : Z) | ReadData (d : bytes).

Class Network (N : Type) := {
  sock_read : Z → Z → N → read_result * N;
  sock_write : Z → bytes → N → Z * N;
  chan_read : Z → Z → N → read_result * N;
  chan_write : Z → bytes → N → Z * N;
  net_errno : N → errno_t;
  net_strerror : N → bytes
}.

(** How many system calls a loop is followed for. *)
Class Patience := patience : nat.

(** * [redisContext] *)

Definition REDIS_BLOCK : Z := 1.
Definition REDIS_ERR_IO : Z := 1.
Definition REDIS_ERR_OTHER : Z := 2.
Definition REDIS_ERR_EOF : Z := 3.
Definition REDIS_ERR_OOM : Z := 5.

Record redisContext := mkContext {
  c_err : Z;
  c_errstr : bytes;
  c_fd : Z;
  c_flags : Z;
  c_obuf : option sdshdr;
  c_reader : redisReader;
  c_channel : option Z
}.

Definition set_obuf (c : redisContext) (o : option sdshdr) : redisContext :=
  mkContext (c_err c) (c_errstr c) (c_fd c) (c_flags c) o (c_reader c) (c_channel c).
Definition set_reader (c : redisContext) (r : redisReader) : redisContext :=
  mkContext (c_err c) (c_errstr c) (c_fd c) (c_flags c) (c_obuf c) r (c_channel c).
Definition set_error (c : redisContext) (e : Z) (s : bytes) : redisContext :=
  mkContext e s (c_fd c) (c_flags c) (c_obuf c) (c_reader c) (c_channel c).

Definition blocking (c : redisContext) : bool := negb (Z.land (c_flags c) REDIS_BLOCK =? 0).

(** * Replies

    What a caller reaches from the pointer that it gets: the objects of the reader's heap as a
    tree.  An array without element vector has the empty list, whatever its count. *)

Inductive redisReply :=
| RpString (type : Z) (str : bytes)
| RpInteger (n : Z)
| RpNil
| RpArray (elements : Z) (element : list redisReply).

(** The task stack of the reader has nine levels. *)
Definition reply_levels : nat := 9.

Fixpoint reply_tree (fuel : nat) (h : list reply_obj) (id : nat) : outcome redisReply :=
  match fuel with
  | O => Fault OutOfFuel
  | S fuel =>
    match h !! id with
    | None => Fault OutOfBounds
    | Some (ObjString t s) => Val (RpString t s)
    | Some (ObjInteger n) => Val (RpInteger n)
    | Some ObjNil => Val RpNil
    | Some (ObjArray n None) => Val (RpArray n [])
    | Some (ObjArray n (Some l)) =>
      (fix go l := match l with
                   | [] => Val []
                   | e :: l => i ← deref e; t ← reply_tree fuel h i; ts ← go l; Val (t :: ts)
                   end) l ≫= λ ts, Val (RpArray n ts)
    end
  end.

(** The fields of [redisReply]; [calloc] leaves those of other types zero. *)
Definition rp_type (r : redisReply) : Z :=
  match r with
  | RpString t _ => t
  | RpInteger _ => REDIS_REPLY_INTEGER
  | RpNil => REDIS_REPLY_NIL
  | RpArray _ _ => REDIS_REPLY_ARRAY
  end.
Definition rp_integer (r : redisReply) : Z := match r with RpInteger n => n | _ => 0 end.
(** [str] with its [len] bytes *)
Definition rp_str (r : redisReply) : outcome bytes :=
  match r with RpString _ s => Val s | _ => Fault NullPointer end.
Definition rp_elements (r : redisReply) : Z := match r with RpArray n _ => n | _ => 0 end.
Definition rp_element (r : redisReply) (i : Z) : outcome redisReply :=
  match r with
  | RpArray _ [] => Fault NullPointer
  | RpArray _ l => if i <? 0 then Fault OutOfBounds else from_option_fault OutOfBounds (l !! Z.to_nat i)
  | _ => Fault NullPointer
  end.
(** The elements [0] to [elements - 1], as the loops over a reply visit them. *)
Definition rp_all (r : redisReply) : outcome (list redisReply) :=
  match r with
  | RpArray n l => if n =? Z.of_nat (length l) then Val l else Fault NullPointer
  | _ => Val []
  end.

(** * The context's functions

    [true] is [REDIS_OK], [false] is [REDIS_ERR]. *)

Section Context.
Context {N : Type} `{Network N} `{Alloc} `{Patience}.
Implicit Types (c : redisContext) (n : N).

(** [errstr] holds 127 characters. *)
Definition __redisSetError c (type : Z) (str : option bytes) n : outcome redisContext :=
  match str with
  | Some s => Val (set_error c type (take 127 (c_str s)))
  | None => if type =? REDIS_ERR_IO then Val (set_error c type (take 127 (net_strerror n)))
            else Fault CheckFailed
  end.

(** The context of a connection on [fd], as [redisContextInit] and the connecting function leave it. *)
Definition redisContextInit (fd flags : Z) (channel : option Z) : outcome (option redisContext) :=
  obuf ← sdsempty;
  match obuf with
  | None => Val None
  | Some s => Val (Some (mkContext 0 [] fd flags (Some s) redisReaderCreate channel))
  end.

Definition read_from c (size : Z) n : read_result * N :=
  match c_channel c with Some ch => chan_read ch size n | None => sock_read (c_fd c) size n end.
Definition write_to c (data : bytes) n : Z * N :=
  match c_channel c with Some ch => chan_write ch data n | None => sock_write (c_fd c) data n end.

(** [(errno == EAGAIN && !(c->flags & REDIS_BLOCK)) || (errno == F_EINTR)] *)
Definition try_again c n : bool :=
  (bool_decide (net_errno n = EAGAIN) && negb (blocking c)) || bool_decide (net_errno n = F_EINTR).

(** A negative count other than [-1] is passed on as a [size_t]. *)
Definition redisBufferRead c n : outcome (bool * redisContext * N) :=
  if negb (c_err c =? 0) then Val (false, c, n)
  else
    let '(r, n) := read_from c (1024 * 16) n in
    match r with
    | ReadFail code =>
      if negb (code =? -1) then Fault OutOfBounds
      else if try_again c n then Val (true, c, n)
      else c ← __redisSetError c REDIS_ERR_IO None n; Val (false, c, n)
    | ReadData [] =>
      c ← __redisSetError c REDIS_ERR_EOF (Some (lit "Server closed the connection")) n;
      Val (false, c, n)
    | ReadData d =>
      let '(ok, rd) := redisReaderFeed (c_reader c) d in
      let c := set_reader c rd in
      if (ok : bool) then Val (true, c, n)
      else c ← __redisSetError c (r_err rd) (Some (r_errstr rd)) n; Val (false, c, n)
    end.

(** The result also has [*done]. *)
Definition redisBufferWrite c n : outcome (bool * bool * redisContext * N) :=
  if negb (c_err c =? 0) then Val (false, false, c, n)
  else
    s ← deref (c_obuf c);
    '(ok, c, n) ←
      (if sdslen s >? 0 then
         data ← mem_read (sds_buf s) 0 (sdslen s);
         let '(nwritten, n) := write_to c data n in
         if nwritten =? -1 then
           if try_again c n then Val (true, c, n)
           else c ← __redisSetError c REDIS_ERR_IO None n; Val (false, c, n)
         else if nwritten >? 0 then
           if nwritten =? i32 (sdslen s) then
             o ← sdsempty; Val (true, set_obuf c o, n)
           else s ← sdsrange s (i32 nwritten) (-1); Val (true, set_obuf c (Some s), n)
         else Val (true, c, n)
       else Val (true, c, n));
    if negb ok then Val (false, false, c, n)
    else s ← deref (c_obuf c); Val (true, sdslen s =? 0, c, n).

(** The result also has [*nread] and what was stored in the buffer. *)
Definition redisReadToBuffer c (size : Z) n : outcome (bool * Z * bytes * redisContext * N) :=
  if negb (c_err c =? 0) then Val (false, -1, [], c, n)
  else
    let '(r, n) := read_from c size n in
    match r with
    | ReadFail code =>
      if code =? -1 then
        if try_again c n then Val (true, 0, [], c, n) else Val (false, -1, [], c, n)
      else Val (true, code, [], c, n)
    | ReadData d => Val (true, Z.of_nat (length d), d, c, n)
    end.

Definition redisWriteFromBuffer c (buf : bytes) n : outcome (bool * Z * redisContext * N) :=
  if negb (c_err c =? 0) then Val (false, -1, c, n)
  else
    let '(nwritten, n) := if strlen buf >? 0 then write_to c (c_str buf) n else (-1, n) in
    if nwritten =? -1 then Val (false, nwritten, c, n) else Val (true, nwritten, c, n).

(** ** Replies *)

Definition redisGetReplyFromReader c n : outcome (bool * option redisReply * redisContext * N) :=
  '(ok, o, rd) ← redisReaderGetReply (c_reader c);
  let c := set_reader c rd in
  if negb ok then c ← __redisSetError c (r_err rd) (Some (r_errstr rd)) n; Val (false, None, c, n)
  else
    match o with
    | None => Val (true, None, c, n)
    | Some id => t ← reply_tree reply_levels (r_heap rd) id; Val (true, Some t, c, n)
    end.

(** ["Write until done"] *)
Fixpoint write_loop (fuel : nat) c n : outcome (bool * redisContext * N) :=
  match fuel with
  | O => Fault OutOfFuel
  | S fuel =>
    '(ok, done, c, n) ← redisBufferWrite c n;
    if negb ok then Val (false, c, n)
    else if negb done then write_loop fuel c n else Val (true, c, n)
  end.

(** ["Read until there is a reply"] *)
Fixpoint read_loop (fuel : nat) c n : outcome (bool * option redisReply * redisContext * N) :=
  match fuel with
  | O => Fault OutOfFuel
  | S fuel =>
    '(ok, c, n) ← redisBufferRead c n;
    if negb ok then Val (false, None, c, n)
    else
      '(ok, aux, c, n) ← redisGetReplyFromReader c n;
      if negb ok then Val (false, None, c, n)
      else match aux with None => read_loop fuel c n | Some _ => Val (true, aux, c, n) end
  end.

(** [*reply] is set when the result is [REDIS_OK]. *)
Definition redisGetReply c n : outcome (bool * option redisReply * redisContext * N) :=
  '(ok, aux, c, n) ← redisGetReplyFromReader c n;
  if negb ok then Val (false, None, c, n)
  else
    match aux with
    | Some _ => Val (true, aux, c, n)
    | None =>
      if blocking c then
        '(ok, c, n) ← write_loop patience c n;
        if negb ok then Val (false, None, c, n) else read_loop patience c n
      else Val (true, None, c, n)
    end.

(** ** Commands *)

Definition __redisAppendCommand c (cmd : bytes) (len : Z) n : outcome (bool * redisContext * N) :=
  s ← deref (c_obuf c);
  newbuf ← sdscatlen s cmd len;
  match newbuf with
  | None => c ← __redisSetError c REDIS_ERR_OOM (Some (lit "Out of memory")) n; Val (false, c, n)
  | Some s => Val (true, set_obuf c (Some s), n)
  end.

Definition redisAppendFormattedCommand c (cmd : bytes) (len : Z) n : outcome (bool * redisContext * N) :=
  '(ok, c, n) ← __redisAppendCommand c cmd len n;
  if negb ok then Val (false, c, n) else Val (true, c, n).

Context (printf_num : bytes → va_val → bytes).

Definition redisvAppendCommand c (format : bytes) (ap : list va_val) n
    : outcome (bool * redisContext * N) :=
  r ← redisvFormatCommand printf_num format ap;
  match r with
  | FormatErr e =>
    if e =? -1 then
      c ← __redisSetError c REDIS_ERR_OOM (Some (lit "Out of memory")) n; Val (false, c, n)
    else if e =? -2 then
      c ← __redisSetError c REDIS_ERR_OTHER (Some (lit "Invalid format string")) n; Val (false, c, n)
    else Fault CheckFailed
  | FormatOk cmd len => __redisAppendCommand c cmd len n
  end.

Definition redisAppendCommand := redisvAppendCommand.

Definition redisAppendCommandArgv c (argc : Z) (argv : list bytes) (argvlen : option (list Z)) n
    : outcome (bool * redisContext * N) :=
  r ← redisFormatSdsCommandArgv argc argv argvlen;
  match r with
  | None => c ← __redisSetError c REDIS_ERR_OOM (Some (lit "Out of memory")) n; Val (false, c, n)
  | Some (cmd, len) => __redisAppendCommand c (sds_buf cmd) (u64 len) n
  end.

(** [None] is the null reply. *)
Definition __redisBlockForReply c n : outcome (option redisReply * redisContext * N) :=
  if blocking c then
    '(ok, reply, c, n) ← redisGetReply c n;
    if negb ok then Val (None, c, n) else Val (reply, c, n)
  else Val (None, c, n).

Definition redisvCommand c (format : bytes) (ap : list va_val) n
    : outcome (option redisReply * redisContext * N) :=
  '(ok, c, n) ← redisvAppendCommand c format ap n;
  if negb ok then Val (None, c, n) else __redisBlockForReply c n.

Definition redisCommand := redisvCommand.

Definition redisCommandArgv c (argc : Z) (argv : list bytes) (argvlen : option (list Z)) n
    : outcome (option redisReply * redisContext * N) :=
  '(ok, c, n) ← redisAppendCommandArgv c argc argv argvlen n;
  if negb ok then Val (None, c, n) else __redisBlockForReply c n.
End Context.
