(* ===== verification/HiredisAnswers.v ===== *)
(** Requests and their answers over a blocking context of hiredis: on a network that cuts both
    directions into pieces and interrupts calls, a command is sent whole and its reply arrives. *)
From Stdlib Require Import Ascii String ZArith Lia.
From stdpp Require Import base list.
From S2P Require Import Prelude Common SdsArgs Sds SdsProps Hiredis HiredisReader HiredisFeed HiredisDrain HiredisParse HiredisStream HiredisContext.
Local Open Scope Z_scope.

(** * Scripted networks

    What the calls on the network give, one after the other: [None] is an interrupted call; a read
    delivers a piece (the end of the stream after the last one), as much of it as fits; a write takes
    at most that many bytes (all of them after the last entry). *)
Record script := mkScript {
  ins : list (option bytes);
  outs : list (option nat);
  sent : bytes;
  failure : errno_t
}.

Definition script_read (size : Z) (n : script) : read_result * script :=
  match ins n with
  | [] => (ReadData [], n)
  | None :: l => (ReadFail (-1), mkScript l (outs n) (sent n) F_EINTR)
  | Some d :: l =>
    let k := Z.to_nat size in
    (ReadData (take k d),
     mkScript (if (k <? length d)%nat then Some (drop k d) :: l else l) (outs n) (sent n) (failure n))
  end.

Definition script_write (data : bytes) (n : script) : Z * script :=
  match outs n with
  | [] => (Z.of_nat (length data), mkScript (ins n) [] (sent n ++ data) (failure n))
  | None :: l => (-1, mkScript (ins n) l (sent n) F_EINTR)
  | Some k :: l =>
    (Z.of_nat (k `min` length data), mkScript (ins n) l (sent n ++ take k data) (failure n))
  end.

#[export] Instance script_network : Network script := {|
  sock_read _ := script_read;
  sock_write _ := script_write;
  chan_read _ := script_read;
  chan_write _ := script_write;
  net_errno := failure;
  net_strerror _ := lit "error"
|}.

Lemma read_from_script c size (n : script) : read_from c size n = script_read size n.
Proof. unfold read_from. by destruct (c_channel c). Qed.
Lemma write_to_script c data (n : script) : write_to c data n = script_write data n.
Proof. unfold write_to. by destruct (c_channel c). Qed.

(** * Replies as trees *)

Fixpoint reply_of (v : resp) : redisReply :=
  match v with
  | RString s => RpString REDIS_REPLY_STRING s
  | RStatus s => RpString REDIS_REPLY_STATUS s
  | RError s => RpString REDIS_REPLY_ERROR s
  | RInteger z => RpInteger z
  | RNil | RNilArray => RpNil
  | RArray l => RpArray (Z.of_nat (length l)) (List.map reply_of l)
  end.

Lemma denotes_tree v : ∀ k fuel h lo hi id,
  allowed k v → (k <= 8)%nat → (9 <= fuel + k)%nat → denotes h lo hi v id →
  reply_tree fuel h id = Val (reply_of v).
Proof.
  induction v as [s|s|s|z| | |l IH] using resp_ind'; intros k fuel h lo hi id Hal Hk Hf Hd;
    (destruct fuel as [|fuel]; [lia|]); try (destruct Hd as [_ Hd]; simpl; by rewrite Hd).
  apply allowed_array in Hal as [Hk7 Hall]. destruct Hd as (_ & ids & Hlen & Hh & Hall2).
  cbn [reply_tree reply_of]. rewrite Hh. clear Hh.
  assert (Hgo : (fix go (l : list (option nat)) := match l with
                   | [] => Val []
                   | e :: l => i ← deref e; t ← reply_tree fuel h i; ts ← go l; Val (t :: ts)
                   end) (List.map Some ids) = Val (List.map reply_of l)).
  { revert ids Hlen Hall2. induction l as [|w ws IHws]; intros [|i ids] Hlen Hall2; try done.
    apply Forall_cons in IH as [IHw IHl], Hall as [Hw Hws]. destruct Hall2 as [Hd Hall2].
    cbn [List.map]. change (deref (Some i)) with (Val i). cbn [mbind outcome_bind].
    rewrite (IHw (S k) fuel h lo hi i); [|done|lia|lia|done]. cbn [mbind outcome_bind].
    rewrite (IHws IHl Hws ids) by (done || (simpl in Hlen; lia)). done. }
  destruct l; [done|]. by rewrite Hgo.
Qed.

(** * Reading *)

Lemma alike_heap d r1 r2 : alike d r1 r2 → r_heap r2 = r_heap r1.
Proof.
  intros (_ & b & p & Heq & _).
  assert (∀ r, r_heap (open_task r) = r_heap r) as Ho
    by (intros r; unfold open_task; by destruct (_ =? _)).
  rewrite <- (Ho r2), Heq. simpl. apply Ho.
Qed.

(** The next reply, when the data [d] has come too, is the tree [t] and takes all the data. *)
Record expects (r : redisReader) (d : bytes) (t : redisReply) : Prop := {
  ex_room : Z.of_nat (length (r_buf r)) + Z.of_nat (length d) <= INT_MAX;
  ex_next : ∃ full id r', alike d r full ∧ next full = Val (true, Some id, r') ∧
                          unread r' = [] ∧ reply_tree reply_levels (r_heap r') id = Val t
}.

(** Between two requests. *)
Definition waiting (r : redisReader) : Prop :=
  idle r ∧ unread r = [] ∧ (length (r_buf r) < 1024)%nat.

Lemma GetReply_some r ok id r' :
  reader_ok r → redisReaderGetReply r = Val (ok, Some id, r') →
  r_idx r' = -1 ∧ r_reply r' = None ∧ r_pos r' < 1024.
Proof.
  intros Hr. unfold redisReaderGetReply. destruct (negb _); [done|]. destruct (r_len r =? 0); [done|].
  fold (open_task r). destruct (process_items _ _) as [r1|]; [|done]. cbn [mbind outcome_bind].
  destruct (negb _); [done|].
  set (r2 := if 1024 <=? r_pos r1 then _ else _).
  assert (r_pos r2 < 1024) as Hp.
  { unfold r2. destruct (Z.leb_spec 1024 (r_pos r1)); simpl; lia. }
  destruct (Z.eqb_spec (r_idx r2) (-1)) as [Hi|]; [|done]. by intros [= <- _ <-].
Qed.

Lemma next_true r ok o r' : next r = Val (ok, o, r') → r_err r' = 0 → ok = true.
Proof.
  rewrite next_eq. destruct (run (open_task r)) as [r1|]; simpl; [|done]. unfold answer.
  destruct (Z.eqb_spec (r_err r1) 0); simpl; [|by intros [= _ _ <-]].
  by destruct (_ =? _); intros [= <- _ _].
Qed.

Lemma waiting_intro r id ok r' :
  reader_ok r → redisReaderGetReply r = Val (ok, Some id, r') → resting r' → unread r' = [] →
  waiting r'.
Proof.
  intros Hok Hg (Hok' & He & Hs & _) Hu.
  destruct (GetReply_some _ _ _ _ Hok Hg) as (Hi & Hrep & Hp).
  split; [by split|]. split; [done|]. pose proof (unread_length r' Hok') as Hl. rewrite Hu in Hl.
  destruct Hok' as [_ Hlen]. simpl in Hl. lia.
Qed.

Lemma expects_step r d t :
  alive r → expects r d t →
  ∃ o r', redisReaderGetReply r = Val (true, o, r') ∧
    (o = None ∧ resting r' ∧ d ≠ [] ∧ expects r' d t ∨
     ∃ id, o = Some id ∧ waiting r' ∧ d = [] ∧ reply_tree reply_levels (r_heap r') id = Val t).
Proof.
  intros Hr [Hroom (full & id & rf & Hal & Hfull & Huf & Htree)].
  pose proof (GetReply_next r Hr) as Hs. pose proof (next_feed d r full Hr Hal) as Hf.
  pose proof (next_rests r) as Hx. pose proof (GetReply_rests r) as Hg.
  pose proof (waiting_intro r) as Hw. pose proof (next_true r) as Hok.
  destruct (redisReaderGetReply r) as [[[ok o] r']|], (next r) as [[[ok1 o1] r1]|] eqn:E1; simpl in Hs;
    try done; try congruence.
  destruct Hs as (-> & -> & Hs). destruct (Hx _ _ _ Hr eq_refl) as [[He ->]|(He & Hr1 & Hle & _)].
  { destruct (Z.eqb_spec (r_err r1) 0); [done|]. congruence. }
  rewrite He in Hf. simpl in Hf. specialize (Hok _ _ _ eq_refl He) as ->.
  destruct Hs as [Hs|[-> Hne]]; [|done]. exists o1, r'. split; [done|].
  assert (Hr' : resting r' ∧ (length (r_buf r') <= length (r_buf r))%nat).
  { destruct (Hg _ _ _ Hr eq_refl) as [[He' _]|(_ & ? & ?)]; [|done]. destruct He'.
    apply more_err in Hs. pose proof (open_task_keeps r1) as (? & _).
    pose proof (open_task_keeps r') as (? & _). congruence. }
  destruct Hr' as [Hr' Hbuf]. destruct o1 as [id0|].
  - right. exists id0. destruct Hf as (r2 & Hf & Hm2). rewrite Hfull in Hf. injection Hf as <- <-.
    pose proof (alike_unread _ _ _ Hm2) as Hu. rewrite Huf in Hu. symmetry in Hu.
    apply app_nil in Hu as [Hu ->]. split; [done|].
    pose proof (alike_unread _ _ _ Hs) as Hu'. rewrite app_nil_r, Hu in Hu'.
    split; [by eapply Hw; [apply Hr|..]|]. split; [done|].
    by rewrite <- (alike_heap _ _ _ Hs), <- (alike_heap _ _ _ Hm2).
  - left. split; [done|]. split; [done|]. split.
    { intros ->. pose proof (next_same r full Hr Hal) as Hn. rewrite E1, Hfull in Hn. by destruct Hn as (_ & ? & _). }
    assert (Hfit : Z.of_nat (length (r_buf r')) + Z.of_nat (length d) <= INT_MAX) by lia.
    split; [done|]. set (r3 := (redisReaderFeed r' d).2).
    pose proof (feed_more r' d (resting_alive _ Hr') Hfit) as Hm. apply open_task_more in Hm.
    fold r3 in Hm. specialize (Hf r3 (more_trans [] d _ _ _ (more_sym _ _ Hs) Hm)).
    rewrite Hfull in Hf. destruct (next r3) as [[[ok3 o3] r3']|] eqn:E3; [|done].
    destruct Hf as (-> & -> & Hf). exists r3, id, r3'. split; [done|]. split; [done|].
    destruct Hf as [Hf|[-> _]]; [|done].
    pose proof (alike_unread _ _ _ Hf) as Hu. rewrite app_nil_r in Hu.
    by rewrite <- Hu, <- (alike_heap _ _ _ Hf).
Qed.

Lemma more_cut p d r1 r2 r3 : more p r1 r2 → more (p ++ d) r1 r3 → more d r2 r3.
Proof.
  intros (_ & b & q & -> & Hb & Hd) (_ & b' & q' & -> & Hb' & Hd'). split; [by split|].
  exists b', q'. split; [done|]. split; [done|]. rewrite Hd'. unfold unread at 2. simpl.
  by rewrite Hd, <- app_assoc.
Qed.

Lemma expects_feed r p d t :
  resting r → expects r (p ++ d) t →
  alive (redisReaderFeed r p).2 ∧ expects (redisReaderFeed r p).2 d t.
Proof.
  intros Hr [Hroom (full & id & r' & Hal & Hfull)]. rewrite length_app in Hroom.
  assert (Hfit : Z.of_nat (length (r_buf r)) + Z.of_nat (length p) <= INT_MAX) by lia.
  split; [by apply feed_alive|]. split.
  - pose proof (feed_length r p). lia.
  - exists full, id, r'. split; [|done]. eapply more_cut; [|exact Hal].
    apply open_task_more, feed_more; [by apply resting_alive|done].
Qed.

Lemma waiting_resting r : waiting r → resting r.
Proof. intros ([] & _ & _). split_and!; [done..|]. by left. Qed.

(** A reader that waits expects any reply that it can read. *)
Lemma waiting_expects r v :
  waiting r → allowed 0 v → 1024 + Z.of_nat (length (enc v)) <= INT_MAX →
  expects r (enc v) (reply_of v).
Proof.
  intros (Hid & Hu & Hb) Hv Hmax. pose proof (idle_alive r Hid) as Ha.
  assert (Hfit : Z.of_nat (length (r_buf r)) + Z.of_nat (length (enc v)) <= INT_MAX) by lia.
  pose proof (feed_more r (enc v) Ha Hfit) as Hm. split; [lia|].
  set (full := (redisReaderFeed r (enc v)).2) in *.
  assert (Hidf : idle full).
  { destruct Hid. pose proof (more_ok _ _ _ Hm).
    by destruct Hm as (_ & b & p & -> & _). }
  pose proof (more_unread _ _ _ Hm) as Huf. rewrite Hu in Huf.
  destruct (next_reply full v [] Hidf) as (r' & Hn & _ & Hur & _ & Hd);
    [by rewrite app_nil_r|done|].
  exists full, (length (r_heap full)), r'. split; [by apply open_task_more|]. split; [done|].
  split; [done|]. eapply (denotes_tree v 0); [done|lia|unfold reply_levels; lia|exact Hd].
Qed.

(** * The loops of [redisGetReply] *)

Section Loops.
Context `{AllocLaws}.
Implicit Types (c : redisContext) (n : script).

(** Memory does not run out. *)
Definition memory : Prop := ∀ k, 0 <= k → is_Some (malloc k).

Lemma memory_enough : memory → ¬ out_of_memory.
Proof. intros Hm (k & Hk & Hn). destruct (Hm k Hk) as [b Hb]. congruence. Qed.

Lemma yields_some o t :
  memory → yields o t → ∃ s, o = Val (Some s) ∧ sds_ok s ∧ contents s = t.
Proof. intros Hm [[_ Ho]|Hy]; [by destruct (memory_enough Hm)|done]. Qed.

(** What a read can deliver: an interruption, or a piece that fits the buffer of the call. *)
Definition piece_ok (p : option bytes) : Prop :=
  match p with Some d => d ≠ [] ∧ Z.of_nat (length d) <= 1024 * 16 | None => True end.

Definition data (l : list (option bytes)) : bytes := List.concat (List.map (default []) l).

Lemma get_from_reader c n t d :
  alive (c_reader c) → expects (c_reader c) d t →
  ∃ o r', redisGetReplyFromReader c n = Val (true, o, set_reader c r', n) ∧
    (o = None ∧ resting r' ∧ d ≠ [] ∧ expects r' d t ∨ o = Some t ∧ waiting r' ∧ d = []).
Proof.
  intros Ha He. destruct (expects_step _ _ _ Ha He) as (o & r' & Hg & Hcase).
  unfold redisGetReplyFromReader. rewrite Hg. cbn [mbind outcome_bind negb].
  destruct Hcase as [(-> & Hr & Hd & Hex)|(id & -> & Hw & Hd & Ht)].
  - exists None, r'. split; [done|by left].
  - rewrite Ht. cbn [mbind outcome_bind]. exists (Some t), r'. split; [done|by right].
Qed.

(** What is left of the pieces [l] of a reply when all its data has come, before the pieces [later]. *)
Definition left_of (l later : list (option bytes)) n : Prop :=
  ∃ l0 l', l = l0 ++ l' ∧ ins n = l' ++ later ∧ data l' = [].

(** How the loop ends: with the reply, or at the end of the stream when the part [e] of it is missing. *)
Definition read_ends c (e : bytes) t (l later : list (option bytes)) (x : bool * option redisReply * redisContext * script) : Prop :=
  let '(ok, o, c', n') := x in
  match e with
  | [] => ok = true ∧ o = Some t ∧ (∃ r', c' = set_reader c r' ∧ waiting r') ∧ left_of l later n'
  | _ => ok = false ∧ o = None ∧ c_err c' = REDIS_ERR_EOF
  end.

Lemma left_of_cons p l later n : left_of l later n → left_of (p :: l) later n.
Proof. intros (l0 & l' & -> & ? & ?). by exists (p :: l0), l'. Qed.

(** A reply that does not come whole is the last thing that comes. *)
Definition last_when_cut (e : bytes) (later : list (option bytes)) : Prop := e ≠ [] → later = [].

Lemma read_loop_answers t e later l : ∀ fuel c n,
  ins n = l ++ later → last_when_cut e later →
  Forall piece_ok l → c_err c = 0 → resting (c_reader c) → data l ++ e ≠ [] →
  expects (c_reader c) (data l ++ e) t → (length l < fuel)%nat →
  ∃ x, read_loop fuel c n = Val x ∧ read_ends c e t l later x ∧ sent x.2 = sent n ∧ outs x.2 = outs n.
Proof.
  induction l as [|p l IH]; intros fuel c n Hins Hcut Hok Hc Hr Hne Hex Hf;
    (destruct fuel as [|fuel]; [simpl in Hf; lia|]); cbn [read_loop]; unfold redisBufferRead;
    rewrite Hc, read_from_script; change (negb (0 =? 0)) with false; cbv iota;
    unfold script_read; rewrite Hins; cbn [app].
  { rewrite (Hcut Hne). cbn [__redisSetError mbind outcome_bind negb]. eexists. split; [done|].
    by destruct e. }
  apply Forall_cons in Hok as [Hp Hok]. cbn [length] in Hf.
  assert (Hnext : ∀ c1 n1, c_err c1 = 0 → ins n1 = l ++ later → alive (c_reader c1) →
    (∀ r, set_reader c1 r = set_reader c r) →
    expects (c_reader c1) (data l ++ e) t → sent n1 = sent n → outs n1 = outs n →
    ∃ x, ('(ok, aux, c, n) ← redisGetReplyFromReader c1 n1;
          if negb ok then Val (false, None, c, n)
          else match aux with None => read_loop fuel c n | Some _ => Val (true, aux, c, n) end)
         = Val x ∧ read_ends c e t (p :: l) later x ∧ sent x.2 = sent n ∧ outs x.2 = outs n).
  { intros c1 n1 Hc1 Hn1 Ha1 Hset He1 Hs1 Ho1.
    destruct (get_from_reader c1 n1 t _ Ha1 He1) as (o & r' & -> & [(-> & Hr' & Hd & He')|(-> & Hw & Hd)]);
      cbn [mbind outcome_bind negb].
    - destruct (IH fuel (set_reader c1 r') n1) as ([[[ok o] c2] n2] & -> & Hx & Hs2 & Ho2); [done..|lia|].
      exists (ok, o, c2, n2). split; [done|]. rewrite <- Hs1, <- Ho1. split; [|done].
      unfold read_ends in *. destruct e; [|done]. destruct Hx as (? & ? & (r2 & -> & ?) & ?).
      split_and!; [done|done| |by apply left_of_cons]. exists r2. split; [apply Hset|done].
    - apply app_nil in Hd as [Hd ->]. eexists. split; [done|]. split; [|done].
      split_and!; [done|done| |]; [exists r'; split; [apply Hset|done]|].
      apply left_of_cons. by exists [], l. }
  destruct p as [d|].
  - destruct Hp as [Hd Hl]. rewrite take_ge by lia.
    destruct (Nat.ltb_spec (Z.to_nat (1024 * 16)) (length d)); [lia|].
    destruct d as [|x d]; [done|]. change (data (Some (x :: d) :: l)) with ((x :: d) ++ data l) in Hex.
    rewrite <- app_assoc in Hex. destruct (expects_feed _ (x :: d) _ t Hr Hex) as [Ha' He'].
    assert (Hfeed : (redisReaderFeed (c_reader c) (x :: d)).1 = true).
    { unfold redisReaderFeed. assert (r_err (c_reader c) = 0) as -> by apply Hr. done. }
    destruct (redisReaderFeed (c_reader c) (x :: d)) as [ok rd] eqn:E. simpl in Hfeed. subst ok.
    cbn [mbind outcome_bind negb].
    exact (Hnext (set_reader c rd) (mkScript (l ++ later) (outs n) (sent n) (failure n)) Hc eq_refl Ha'
             (λ _, eq_refl) He' eq_refl eq_refl).
  - change (negb (-1 =? -1)) with false. cbv iota. unfold try_again.
    cbn [net_errno script_network failure]. rewrite orb_true_r. cbn [mbind outcome_bind negb].
    exact (Hnext c (mkScript (l ++ later) (outs n) (sent n) F_EINTR) Hc eq_refl (resting_alive _ Hr)
             (λ _, eq_refl) Hex eq_refl eq_refl).
Qed.

(** The output buffer holds exactly the text [t]. *)
Definition holds (o : option sdshdr) (t : bytes) : Prop :=
  ∃ s, o = Some s ∧ sds_ok s ∧ contents s = t.

Lemma range_of_tail t k : (k < length t)%nat → range_of t (Z.of_nat k) (-1) = drop k t.
Proof.
  intros Hk. unfold range_of. destruct (Z.ltb_spec (Z.of_nat k) 0); [lia|]. simpl.
  rewrite take_ge; [by rewrite Nat2Z.id|]. rewrite length_drop. lia.
Qed.

Lemma holds_read s t :
  sds_ok s → contents s = t →
  sdslen s = Z.of_nat (length t) ∧ Z.of_nat (length t) <= INT_MAX ∧
  mem_read (sds_buf s) 0 (sdslen s) = Val t.
Proof.
  intros Hs Ht. destruct (sds_ok_inv s Hs) as (t' & j & -> & Hc & Hl). rewrite Hc in Ht. subst t'.
  rewrite sdslen_mk by lia. split; [done|]. split; [lia|]. by apply mem_read_prefix.
Qed.

(** What the loop leaves: nothing in the buffer, and [t] sent. *)
Definition written n t (o : option sdshdr) n' : Prop :=
  holds o [] ∧ ins n' = ins n ∧ sent n' = sent n ++ t ∧ (length (outs n') <= length (outs n))%nat.

Lemma write_loop_sends fuel : ∀ c n t,
  memory → c_err c = 0 → holds (c_obuf c) t → (length (outs n) < fuel)%nat →
  ∃ o n', write_loop fuel c n = Val (true, set_obuf c o, n') ∧ written n t o n'.
Proof.
  induction fuel as [|fuel IH]; intros c n t Hm Hc (s & Ho & Hs & Ht) Hf; [lia|].
  destruct (holds_read s t Hs Ht) as (Hlen & Hmax & Hread).
  cbn [write_loop]. unfold redisBufferWrite. rewrite Hc, Ho. change (negb (0 =? 0)) with false.
  cbv iota. change (deref (Some s)) with (Val s). cbn [mbind outcome_bind]. rewrite Hread, Hlen.
  assert (Hagain : ∀ n1, ins n1 = ins n → (length (outs n1) < fuel)%nat → (length (outs n1) <= length (outs n))%nat →
    ∀ o t1, holds o t1 → sent n1 ++ t1 = sent n ++ t →
    ∃ o' n', write_loop fuel (set_obuf c o) n1 = Val (true, set_obuf c o', n') ∧ written n t o' n').
  { intros n1 Hi1 Hf1 Hl1 o t1 Ho1 Hs1.
    destruct (IH (set_obuf c o) n1 t1) as (o' & n' & Hr & Hh & Hi & Hsent & Hout); [done..|].
    exists o', n'. split; [done|]. split; [done|]. rewrite Hi, Hsent. split_and!; [done|done|lia]. }
  assert (Hall : ∀ n1, ins n1 = ins n → sent n1 = sent n ++ t → (length (outs n1) <= length (outs n))%nat →
    ∃ o n', ('(ok, done, c, n) ← ('(ok, c, n) ← (o ← sdsempty; Val (true, set_obuf c o, n1));
               if negb ok then Val (false, false, c, n)
               else s ← deref (c_obuf c); Val (true, sdslen s =? 0, c, n));
             if negb ok then Val (false, c, n)
             else if negb done then write_loop fuel c n else Val (true, c, n))
            = Val (true, set_obuf c o, n') ∧ written n t o n').
  { intros n1 Hi1 Hs1 Hl1. destruct (yields_some _ [] Hm sdsempty_spec) as (e & -> & He & Hce).
    destruct (holds_read e [] He Hce) as (Hel & _ & _).
    cbn [mbind outcome_bind negb set_obuf c_obuf]. change (deref (Some e)) with (Val e).
    cbn [mbind outcome_bind]. rewrite Hel. simpl. exists (Some e), n1. split; [done|].
    split; [by exists e|done]. }
  destruct (Z.gtb_spec (Z.of_nat (length t)) 0) as [Hpos|Hzero].
  2: { destruct t; [|simpl in Hzero; lia]. cbn [mbind outcome_bind negb]. rewrite Ho.
       change (deref (Some s)) with (Val s). cbn [mbind outcome_bind]. rewrite Hlen. simpl.
       exists (c_obuf c), n. split; [by destruct c|]. split; [by exists s; rewrite Ho|].
       by rewrite app_nil_r. }
  (* The loop goes on with what is left. *)
  assert (Hrest : ∀ n1 o t1, ins n1 = ins n → (length (outs n1) < fuel)%nat → (length (outs n1) <= length (outs n))%nat → holds o t1 →
    t1 ≠ [] → sent n1 ++ t1 = sent n ++ t →
    ∃ o' n', ('(ok, done, c, n) ←
               (s ← deref (c_obuf (set_obuf c o)); Val (true, sdslen s =? 0, set_obuf c o, n1));
             if negb ok then Val (false, c, n)
             else if negb done then write_loop fuel c n else Val (true, c, n))
            = Val (true, set_obuf c o', n') ∧ written n t o' n').
  { intros n1 o t1 Hi1 Hf1 Hl1 Ho1 Hne1 Hs1. pose proof Ho1 as (e & -> & He & Hce).
    destruct (holds_read e t1 He Hce) as (Hel & _ & _). cbn [set_obuf c_obuf].
    change (deref (Some e)) with (Val e). cbn [mbind outcome_bind negb]. rewrite Hel.
    destruct t1; [done|]. destruct (Z.eqb_spec (Z.of_nat (length (a :: t1))) 0); [simpl in *; lia|].
    cbn [negb]. exact (Hagain n1 Hi1 Hf1 Hl1 (Some e) _ Ho1 Hs1). }
  assert (Hself : set_obuf c (c_obuf c) = c) by (by destruct c).
  assert (Hh : holds (c_obuf c) t) by (by exists s).
  assert (Hne : t ≠ []) by (by intros ->).
  pose proof (Hrest (script_write t n).2 (c_obuf c) t) as Hsame. rewrite Hself in Hsame.
  cbn [mbind outcome_bind]. rewrite write_to_script. revert Hsame. unfold script_write.
  destruct (outs n) as [|[k|] l] eqn:El; cbn [fst snd ins outs sent]; intros Hsame.
  - clear Hsame. destruct (Z.eqb_spec (Z.of_nat (length t)) (-1)); [lia|].
    destruct (Z.gtb_spec (Z.of_nat (length t)) 0); [|lia].
    rewrite i32_small, Z.eqb_refl by (unfold INT_MIN; lia). apply Hall; [done|done|]. simpl; lia.
  - cbn [length] in Hf. destruct (Z.eqb_spec (Z.of_nat (k `min` length t)) (-1)); [lia|].
    rewrite !i32_small by (unfold INT_MIN, INT_MAX in *; lia).
    destruct (Z.gtb_spec (Z.of_nat (k `min` length t)) 0) as [Hk|Hk].
    + clear Hsame. destruct (Z.eqb_spec (Z.of_nat (k `min` length t)) (Z.of_nat (length t))).
      { apply Hall; [done| |simpl; lia]. cbn [sent]. rewrite take_ge; [done|lia]. }
      rewrite Nat.min_l by lia.
      destruct (sdsrange_spec s t (Z.of_nat k) (-1)) as (s' & -> & Hs' & Ht');
        [done|done|unfold INT_MIN; lia|unfold INT_MIN, INT_MAX; lia|].
      rewrite range_of_tail in Ht' by lia. cbn [mbind outcome_bind negb].
      apply (Hrest _ (Some s') (drop k t)); cbn [ins outs sent]; [done|lia|simpl; lia|by exists s'| |].
      * intros E%(f_equal length). rewrite length_drop in E. simpl in E. lia.
      * by rewrite <- app_assoc, take_drop.
    + assert (k = 0%nat) as -> by lia. cbn [mbind outcome_bind negb].
      apply Hsame; [done|lia|simpl; lia|done|done|]. by rewrite app_nil_r.
  - cbn [length] in Hf. change (-1 =? -1) with true. cbv iota. unfold try_again.
    cbn [net_errno script_network failure]. rewrite orb_true_r. cbn [mbind outcome_bind negb].
    apply Hsame; [done|lia|simpl; lia|done|done|done].
Qed.

(** * Requests *)

(** Between two requests, without error. *)
Definition ready c : Prop :=
  c_err c = 0 ∧ blocking c = true ∧ holds (c_obuf c) [] ∧ waiting (c_reader c).

Context `{Patience}.

Lemma append_raw c n t0 t u :
  memory → holds (c_obuf c) t0 → Z.of_nat (length (t0 ++ t)) + SDS_MAX_PREALLOC <= INT_MAX →
  ∃ o, __redisAppendCommand c (t ++ u) (Z.of_nat (length t)) n = Val (true, set_obuf c o, n) ∧
    holds o (t0 ++ t).
Proof.
  intros Hm (s & Ho & Hs & Ht) Hmax. unfold __redisAppendCommand. rewrite Ho.
  change (deref (Some s)) with (Val s). cbn [mbind outcome_bind]. rewrite length_app in Hmax.
  assert (0 <= SDS_MAX_PREALLOC) by (unfold SDS_MAX_PREALLOC; lia).
  destruct (yields_some _ _ Hm (sdscatlen_spec s t0 t u Hs Ht ltac:(lia)))
    as (s' & Hcat & Hs' & Hcs).
  rewrite Hcat. cbn [mbind outcome_bind]. exists (Some s'). split; [done|]. by exists s'.
Qed.

Lemma append_command c n cmd t0 t :
  memory → holds (c_obuf c) t0 → sds_ok cmd → contents cmd = t →
  Z.of_nat (length (t0 ++ t)) + SDS_MAX_PREALLOC <= INT_MAX →
  ∃ o, __redisAppendCommand c (sds_buf cmd) (u64 (Z.of_nat (length t))) n
       = Val (true, set_obuf c o, n) ∧ holds o (t0 ++ t).
Proof.
  intros Hm Ho Hcmd Hct Hmax.
  destruct (sds_ok_inv cmd Hcmd) as (t' & j & -> & Hc & Hl). rewrite Hc in Hct. subst t'.
  assert (0 <= SDS_MAX_PREALLOC) by (unfold SDS_MAX_PREALLOC; lia). rewrite length_app in Hmax.
  rewrite u64_nonneg by lia. apply (append_raw c n t0 t (NUL :: j) Hm Ho). rewrite length_app. lia.
Qed.

(** The pieces [l] of the reply [v] come next, all but its end [e], and then [later]. *)
Record arrives n (v : resp) (e : bytes) (l later : list (option bytes)) : Prop := {
  ar_allowed : allowed 0 v;
  ar_fits : 1024 + Z.of_nat (length (enc v)) <= INT_MAX;
  ar_ins : ins n = l ++ later;
  ar_cut : last_when_cut e later;
  ar_pieces : Forall piece_ok l;
  ar_data : data l ++ e = enc v;
  ar_outs : (length (outs n) < patience)%nat;
  ar_turns : (length (ins n) < patience)%nat
}.

(** The network after the request [t] and the reply made of [l]. *)
Definition served n (t : bytes) (l later : list (option bytes)) n' : Prop :=
  sent n' = sent n ++ t ∧ left_of l later n' ∧ (length (outs n') <= length (outs n))%nat.

(** A reply that is cut ends the connection. *)
Definition reply_comes (e : bytes) (good bad : Prop) : Prop := match e with [] => good | _ => bad end.

Lemma get_reply c n t v e l later :
  memory → c_err c = 0 → blocking c = true → holds (c_obuf c) t → waiting (c_reader c) →
  arrives n v e l later →
  ∃ ok o c' n', redisGetReply c n = Val (ok, o, c', n') ∧ sent n' = sent n ++ t ∧
    reply_comes e (ok = true ∧ o = Some (reply_of v) ∧ ready c' ∧ served n t l later n')
      (ok = false ∧ o = None ∧ c_err c' = REDIS_ERR_EOF).
Proof.
  intros Hm Hc Hb Ho Hw [Hv Hmax Hl Hcut Hpieces Hdata Houts Hins].
  pose proof (waiting_expects _ v Hw Hv Hmax) as Hex.
  destruct (get_from_reader c n _ _ (resting_alive _ (waiting_resting _ Hw)) Hex)
    as (o & r' & Hg & [(-> & Hr' & Hne & Hex')|(_ & _ & Hnil)]).
  2: { pose proof (enc_length v) as Hlen. rewrite Hnil in Hlen. simpl in Hlen. lia. }
  unfold redisGetReply. rewrite Hg. cbn [mbind outcome_bind negb].
  change (blocking (set_reader c r')) with (blocking c). rewrite Hb.
  destruct (write_loop_sends patience (set_reader c r') n t Hm Hc Ho Houts)
    as (o & n1 & -> & Ho1 & Hi1 & Hs1 & Hout1). cbn [mbind outcome_bind negb].
  rewrite <- Hdata in Hex', Hne. rewrite Hl in Hi1, Hins. rewrite length_app in Hins.
  destruct (read_loop_answers (reply_of v) e later l patience (set_obuf (set_reader c r') o) n1)
    as ([[[ok o2] c2] n2] & -> & Hx & Hs2 & Hout2); [done..|lia|].
  exists ok, o2, c2, n2. split; [done|]. simpl in Hs2, Hout2. rewrite Hs2. split; [done|].
  unfold read_ends in Hx. unfold reply_comes, served. destruct e; [|done].
  destruct Hx as (-> & -> & (r2 & -> & Hw2) & Hd). rewrite Hs2, Hout2. by split_and!.
Qed.

Lemma data_app l1 l2 : data (l1 ++ l2) = data l1 ++ data l2.
Proof. unfold data. by rewrite map_app, concat_app. Qed.

(** What comes after a served request. *)
Lemma arrives_next n t l n' v e l2 later :
  served n t l (l2 ++ later) n' → Forall piece_ok l → (length (outs n) < patience)%nat →
  (length (l ++ l2 ++ later) < patience)%nat →
  allowed 0 v → 1024 + Z.of_nat (length (enc v)) <= INT_MAX → last_when_cut e later →
  Forall piece_ok l2 → data l2 ++ e = enc v →
  ∃ l', arrives n' v e (l' ++ l2) later ∧ (length l' <= length l)%nat ∧ data l' = [].
Proof.
  intros (_ & (l0 & l' & -> & Hi & Hd) & Ho) Hl Hpo Hpi Hv Hf Hcut Hp Hdata. exists l'.
  apply Forall_app in Hl as [_ Hl]. rewrite !length_app in *. split; [|split; [lia|done]].
  split; rewrite ?Hi, ?app_assoc; try done.
  - by apply Forall_app.
  - by rewrite data_app, Hd.
  - lia.
  - rewrite !length_app. lia.
Qed.

Lemma command_answered c n args argv argvlen v e :
  memory → ready c → args_at argv argvlen args →
  Z.of_nat (length (resp_command args)) + 1 + SDS_MAX_PREALLOC <= INT_MAX →
  arrives n v e (ins n) [] →
  ∃ o c' n', redisCommandArgv c (Z.of_nat (length args)) argv argvlen n = Val (o, c', n') ∧
    sent n' = sent n ++ resp_command args ∧
    reply_comes e (o = Some (reply_of v) ∧ ready c' ∧ data (ins n') = [])
      (o = None ∧ c_err c' = REDIS_ERR_EOF).
Proof.
  intros Hm (Hc & Hb & Ho & Hw) Hat Hfit Ha.
  destruct (redisFormatSdsCommandArgv_spec argv argvlen args Hat Hfit)
    as [[_ Hno]|(cmd & Hfmt & Hcmd & Hct)]; [by destruct (memory_enough Hm)|].
  destruct (append_command c n cmd [] (resp_command args) Hm Ho Hcmd Hct) as (o & Happ & Ho1); [cbn [app]; lia|].
  cbn [app] in Ho1.
  unfold redisCommandArgv, redisAppendCommandArgv. rewrite Hfmt. cbn [mbind outcome_bind].
  rewrite Happ. cbn [mbind outcome_bind negb]. unfold __redisBlockForReply.
  change (blocking (set_obuf c o)) with (blocking c). rewrite Hb.
  destruct (get_reply (set_obuf c o) n _ v e _ _ Hm Hc Hb Ho1 Hw Ha)
    as (ok & o2 & c2 & n2 & -> & Hs2 & Hcase). cbn [mbind outcome_bind]. unfold reply_comes in *.
  destruct e; destruct Hcase as (-> & -> & Hcase); cbn [negb].
  - destruct Hcase as (Hr & _ & (l0 & l' & _ & Hi & Hd) & _).
    exists (Some (reply_of v)), c2, n2. by rewrite Hi, app_nil_r.
  - exists None, c2, n2. split; [done|]. split; [exact Hs2|]. by split; [|exact Hcase].
Qed.
End Loops.

(** C8. A command over a blocking connection is answered: on a network that cuts both directions into
    pieces in any way and interrupts calls, [redisCommandArgv] sends exactly the encoded command and
    returns the reply as a tree once its last piece has come, and the connection is ready again; when
    the server closes before that, it returns the null reply and the context has the error
    [REDIS_ERR_EOF]. *)
Theorem command_is_answered `{AllocLaws} `{Patience} (c : redisContext) (n : script)
    (args argv : list bytes) (argvlen : option (list Z)) (v : resp) (missing : bytes) :
  memory → ready c → args_at argv argvlen args →
  Z.of_nat (length (resp_command args)) + 1 + SDS_MAX_PREALLOC <= INT_MAX →
  allowed 0 v → 1024 + Z.of_nat (length (enc v)) <= INT_MAX →
  Forall piece_ok (ins n) → data (ins n) ++ missing = enc v →
  (length (outs n) < patience)%nat → (length (ins n) < patience)%nat →
  ∃ o c' n', redisCommandArgv c (Z.of_nat (length args)) argv argvlen n = Val (o, c', n') ∧
    sent n' = sent n ++ resp_command args ∧
    match missing with
    | [] => o = Some (reply_of v) ∧ ready c' ∧ data (ins n') = []
    | _ => o = None ∧ c_err c' = REDIS_ERR_EOF
    end.
Proof.
  intros Hm Hr Hat Hfit Hv Hmax Hp Hd Ho Hi.
  assert (arrives n v missing (ins n) []) by (by split; rewrite ?app_nil_r).
  by apply command_answered.
Qed.

Definition sample_context : redisContext :=
  mkContext 0 [] 7 REDIS_BLOCK (Some (mk [] [])) redisReaderCreate None.

(** Interrupted calls, partial writes, and a reply cut inside its line end. *)
Definition sample_script : script :=
  mkScript [None; Some (lit "*2" ++ crlf ++ lit "$1" ++ [chr_cr]); None;
            Some ([chr_nl] ++ lit "x" ++ crlf ++ lit ":4"); Some crlf]
           [Some 3%nat; None; Some 0%nat] [] EAGAIN.

Lemma command_is_answered_witness :
  ∃ o c' n', @redisCommandArgv _ script_network alloc_ref 9%nat sample_context 2 [lit "GET"; lit "k"] None
               sample_script = Val (o, c', n') ∧
    sent n' = lit "*2" ++ crlf ++ lit "$3" ++ crlf ++ lit "GET" ++ crlf ++ lit "$1" ++ crlf ++ lit "k" ++ crlf ∧
    o = Some (RpArray 2 [RpString REDIS_REPLY_STRING (lit "x"); RpInteger 4]) ∧
    ready c' ∧ data (ins n') = [].
Proof.
  apply (@command_is_answered alloc_ref alloc_ref_laws 9%nat sample_context sample_script
           [lit "GET"; lit "k"] [lit "GET"; lit "k"] None (RArray [RString (lit "x"); RInteger 4]) []).
  - intros k Hk. cbn [malloc alloc_ref]. destruct (Z.ltb_spec k 0); [lia|by eexists].
  - split; [done|]. split; [done|]. split.
    + exists (mk [] []). split; [done|]. split; [|done]. apply sds_ok_mk. by vm_compute.
    + split; [|split; [done|simpl; lia]]. by split; [apply create_resting|..].
  - apply args_at_strlen. repeat constructor; by apply no_nul_check.
  - vm_compute. discriminate.
  - repeat constructor; unfold LLONG_MIN, LLONG_MAX; lia.
  - vm_compute. discriminate.
  - unfold sample_script. cbn [ins]. rewrite !Forall_cons. split_and!; try done; try (by apply Forall_nil); by vm_compute.
  - vm_compute. reflexivity.
  - unfold patience. simpl. lia.
  - unfold patience. simpl. lia.
Defined.
