(* ===== verification/Configs.v ===== *)
(** Connection configurations and their command-line form: [core/config/config.*] and the eight
    [config.h], [config.cpp] of the databases. *)
From Stdlib Require Import Ascii String ZArith Lia.
From stdpp Require Import base list.
From S2P Require Import Prelude Common SdsArgs.
Local Open Scope Z_scope.

(** What the configurations use of the file system and of the C library. *)
Class ConfigLib := {
  (** [common::file_system::prepare_path] *)
  prepare_path : bytes → bytes;
  (** [common::net::HostAndPort::createLocalHost] *)
  createLocalHost : Z → HostAndPort;
  (** [atof(s) * 1000000] as a [uint64_t] *)
  atof_usec : bytes → Z
}.

Class ConfigLaws `{ConfigLib} : Prop := {
  createLocalHost_port p : hp_port (createLocalHost p) = p;
  atof_usec_spec n : 0 <= n < 2 ^ 32 → atof_usec (dec_nat n) = n * 1000000
}.

(** [!strcmp(a, opt)] *)
Definition is_opt (a : bytes) (opt : string) : bool := bool_decide (c_str a = lit opt).

(** The loop that ends the [ConvertToString] functions: the arguments, separated by spaces. *)
Fixpoint join_args (argv : list bytes) (result : bytes) : bytes :=
  match argv with
  | [] => result
  | a :: rest =>
    let result := result ++ a in
    join_args rest (match rest with [] => result | _ => result ++ lit " " end)
  end.

(** [if (!s.empty()) { argv.push_back(opt); argv.push_back(s); }] *)
Definition opt_text (opt : string) (s : bytes) : list bytes :=
  match s with [] => [] | _ => [lit opt; s] end.
Definition opt_flag (opt : string) (b : bool) : list bytes := if b then [lit opt] else [].

(** * [LocalConfig] *)

Record LocalConfig := mkLocal {
  lc_delimiter : bytes;
  lc_ns_separator : bytes;
  lc_dbname : bytes;
  lc_create_if_missing : bool
}.

Definition default_delimiter : bytes := [chr_nl].
Definition default_ns_separator : bytes := lit ":".

Definition LocalConfig_Args (c : LocalConfig) : list bytes :=
  opt_text "-f" (lc_dbname c) ++ opt_text "-d" (lc_delimiter c) ++ opt_text "-ns" (lc_ns_separator c).

(** The [parseOptions] of the five embedded stores. *)
Fixpoint local_parseOptions (argv : list bytes) (cfg : LocalConfig) : LocalConfig :=
  match argv with
  | [] => cfg
  | a :: rest =>
    let flag_or_stop :=
      if is_opt a "-c"
      then local_parseOptions rest (mkLocal (lc_delimiter cfg) (lc_ns_separator cfg) (lc_dbname cfg) true)
      else cfg in
    match rest with
    | [] => flag_or_stop
    | v :: rest' =>
      if is_opt a "-d"
      then local_parseOptions rest' (mkLocal (c_str v) (lc_ns_separator cfg) (lc_dbname cfg) (lc_create_if_missing cfg))
      else if is_opt a "-ns"
      then local_parseOptions rest' (mkLocal (lc_delimiter cfg) (c_str v) (lc_dbname cfg) (lc_create_if_missing cfg))
      else if is_opt a "-f"
      then local_parseOptions rest' (mkLocal (lc_delimiter cfg) (lc_ns_separator cfg) (c_str v) (lc_create_if_missing cfg))
      else flag_or_stop
    end
  end.

Definition local_ToString (c : LocalConfig) : bytes :=
  join_args (LocalConfig_Args c ++ opt_flag "-c" (lc_create_if_missing c)) [].

Definition local_FromString (default_config : LocalConfig) (line : bytes) : outcome LocalConfig :=
  argv ← sdssplitargslong line;
  match argv with
  | Some argv => Val (local_parseOptions argv default_config)
  | None => Val default_config
  end.

Section LocalDefaults.
Context `{ConfigLib}.
Definition local_default (path : string) : LocalConfig :=
  mkLocal default_delimiter default_ns_separator (prepare_path (lit path)) false.
End LocalDefaults.

Module LeveldbConfig.
Definition parseOptions := local_parseOptions.
Definition Config `{ConfigLib} : LocalConfig := local_default "~/test.leveldb".
Definition ToString := local_ToString.
Definition FromString `{ConfigLib} := local_FromString Config.
End LeveldbConfig.

Module UnqliteConfig.
Definition parseOptions := local_parseOptions.
Definition Config `{ConfigLib} : LocalConfig := local_default "~/test.unqlite".
Definition ToString := local_ToString.
Definition FromString `{ConfigLib} := local_FromString Config.
End UnqliteConfig.

Module LmdbConfig.
Definition parseOptions := local_parseOptions.
Definition Config `{ConfigLib} : LocalConfig := local_default "~/test.lmdb".
Definition ToString := local_ToString.
Definition FromString `{ConfigLib} := local_FromString Config.
End LmdbConfig.

Module RocksdbConfig.
Definition parseOptions := local_parseOptions.
Definition Config `{ConfigLib} : LocalConfig := local_default "~/test.rocksdb".
Definition ToString := local_ToString.
Definition FromString `{ConfigLib} := local_FromString Config.
End RocksdbConfig.

Module UpscaledbConfig.
Definition parseOptions := local_parseOptions.
Definition Config `{ConfigLib} : LocalConfig := local_default "~/test.upscaledb".
Definition ToString := local_ToString.
Definition FromString `{ConfigLib} := local_FromString Config.
End UpscaledbConfig.

(** * [RemoteConfig] of SSDB and Memcached *)

Record RemoteConfig := mkRemote {
  rc_delimiter : bytes;
  rc_ns_separator : bytes;
  rc_host : HostAndPort;
  rc_user : bytes;
  rc_password : bytes
}.

Definition set_host (h : HostAndPort) (s : bytes) : HostAndPort := mkHostAndPort s (hp_port h).
Definition set_port (h : HostAndPort) (p : Z) : HostAndPort := mkHostAndPort (hp_host h) p.

Section Remote.
Context `{CommonLib} `{ConfigLib}.

Definition RemoteConfig_Args (host : HostAndPort) (delimiter ns_separator : bytes) : list bytes :=
  (if HostAndPort_isValid host
   then [lit "-h"; hp_host host; lit "-p"; ToString_uint (hp_port host)] else [])
  ++ opt_text "-d" delimiter ++ opt_text "-ns" ns_separator.

Fixpoint remote_parseOptions (argv : list bytes) (cfg : RemoteConfig) : RemoteConfig :=
  match argv with
  | a :: v :: rest =>
    let '(mkRemote d ns h u p) := cfg in
    if is_opt a "-h" then remote_parseOptions rest (mkRemote d ns (set_host h (c_str v)) u p)
    else if is_opt a "-p"
    then remote_parseOptions rest (mkRemote d ns (set_port h (FromString_uint16 (c_str v))) u p)
    else if is_opt a "-u" then remote_parseOptions rest (mkRemote d ns h (c_str v) p)
    else if is_opt a "-a" then remote_parseOptions rest (mkRemote d ns h u (c_str v))
    else if is_opt a "-d" then remote_parseOptions rest (mkRemote (c_str v) ns h u p)
    else if is_opt a "-ns" then remote_parseOptions rest (mkRemote d (c_str v) h u p)
    else cfg
  | _ => cfg
  end.

Definition remote_ToString (c : RemoteConfig) : bytes :=
  join_args (RemoteConfig_Args (rc_host c) (rc_delimiter c) (rc_ns_separator c)
             ++ opt_text "-u" (rc_user c) ++ opt_text "-a" (rc_password c)) [].

Definition remote_default (port : Z) : RemoteConfig :=
  mkRemote default_delimiter default_ns_separator (createLocalHost port) [] [].

Definition remote_FromString (default_config : RemoteConfig) (line : bytes) : outcome RemoteConfig :=
  argv ← sdssplitargslong line;
  match argv with
  | Some argv => Val (remote_parseOptions argv default_config)
  | None => Val default_config
  end.
End Remote.

Module SsdbConfig.
Definition DEFAULT_SSDB_SERVER_PORT : Z := 8888.
Definition parseOptions `{CommonLib} := remote_parseOptions.
Definition Config `{ConfigLib} : RemoteConfig := remote_default DEFAULT_SSDB_SERVER_PORT.
Definition ToString `{CommonLib} := remote_ToString.
Definition FromString `{CommonLib} `{ConfigLib} := remote_FromString Config.
End SsdbConfig.

Module MemcachedConfig.
Definition DEFAULT_MEMCACHED_SERVER_PORT : Z := 11211.
Definition parseOptions `{CommonLib} := remote_parseOptions.
Definition Config `{ConfigLib} : RemoteConfig := remote_default DEFAULT_MEMCACHED_SERVER_PORT.
Definition ToString `{CommonLib} := remote_ToString.
Definition FromString `{CommonLib} `{ConfigLib} := remote_FromString Config.
End MemcachedConfig.

(** * Redis *)

Module RedisConfig.
Definition DEFAULT_REDIS_SERVER_PORT : Z := 6379.

Record Config := mkConfig {
  delimiter : bytes;
  ns_separator : bytes;
  host : HostAndPort;
  hostsocket : bytes;
  interval : Z;
  dbnum : Z;
  interactive : Z;
  latency_mode : Z;
  latency_history : Z;
  cluster_mode : Z;
  cluster_reissue_command : Z;
  slave_mode : Z;
  getrdb_mode : Z;
  stat_mode : Z;
  scan_mode : Z;
  intrinsic_latency_mode : Z;
  intrinsic_latency_duration : Z;
  pattern : bytes;
  rdb_filename : bytes;
  bigkeys : Z;
  auth : bytes;
  eval : bytes;
  last_cmd_type : Z
}.

(** [Config::Config()] with [init] *)
Definition default `{ConfigLib} : Config :=
  mkConfig default_delimiter default_ns_separator (createLocalHost DEFAULT_REDIS_SERVER_PORT)
    [] 0 0 0 0 0 0 0 0 0 0 0 0 0 [] [] 0 [] [] (-1).

(** [copy] and the assignment: every member. *)
Definition copy (other : Config) : Config :=
  mkConfig (delimiter other) (ns_separator other) (host other) (hostsocket other) (interval other)
    (dbnum other) (interactive other) (latency_mode other) (latency_history other)
    (cluster_mode other) (cluster_reissue_command other) (slave_mode other) (getrdb_mode other)
    (stat_mode other) (scan_mode other) (intrinsic_latency_mode other)
    (intrinsic_latency_duration other) (pattern other) (rdb_filename other) (bigkeys other)
    (auth other) (eval other) (last_cmd_type other).

(** One member set. *)
Definition with_delimiter (x : bytes) (c : Config) : Config :=
  let '(mkConfig d ns h hs i db ia lm lh cm cr sl gr st sc im il pa rf bk au ev lt) := c in
  mkConfig x ns h hs i db ia lm lh cm cr sl gr st sc im il pa rf bk au ev lt.
Definition with_ns_separator (x : bytes) (c : Config) : Config :=
  let '(mkConfig d ns h hs i db ia lm lh cm cr sl gr st sc im il pa rf bk au ev lt) := c in
  mkConfig d x h hs i db ia lm lh cm cr sl gr st sc im il pa rf bk au ev lt.
Definition with_host (x : HostAndPort) (c : Config) : Config :=
  let '(mkConfig d ns h hs i db ia lm lh cm cr sl gr st sc im il pa rf bk au ev lt) := c in
  mkConfig d ns x hs i db ia lm lh cm cr sl gr st sc im il pa rf bk au ev lt.
Definition with_hostsocket (x : bytes) (c : Config) : Config :=
  let '(mkConfig d ns h hs i db ia lm lh cm cr sl gr st sc im il pa rf bk au ev lt) := c in
  mkConfig d ns h x i db ia lm lh cm cr sl gr st sc im il pa rf bk au ev lt.
Definition with_interval (x : Z) (c : Config) : Config :=
  let '(mkConfig d ns h hs i db ia lm lh cm cr sl gr st sc im il pa rf bk au ev lt) := c in
  mkConfig d ns h hs x db ia lm lh cm cr sl gr st sc im il pa rf bk au ev lt.
Definition with_dbnum (x : Z) (c : Config) : Config :=
  let '(mkConfig d ns h hs i db ia lm lh cm cr sl gr st sc im il pa rf bk au ev lt) := c in
  mkConfig d ns h hs i x ia lm lh cm cr sl gr st sc im il pa rf bk au ev lt.
Definition with_latency_mode (x : Z) (c : Config) : Config :=
  let '(mkConfig d ns h hs i db ia lm lh cm cr sl gr st sc im il pa rf bk au ev lt) := c in
  mkConfig d ns h hs i db ia x lh cm cr sl gr st sc im il pa rf bk au ev lt.
Definition with_latency_history (x : Z) (c : Config) : Config :=
  let '(mkConfig d ns h hs i db ia lm lh cm cr sl gr st sc im il pa rf bk au ev lt) := c in
  mkConfig d ns h hs i db ia lm x cm cr sl gr st sc im il pa rf bk au ev lt.
Definition with_cluster_mode (x : Z) (c : Config) : Config :=
  let '(mkConfig d ns h hs i db ia lm lh cm cr sl gr st sc im il pa rf bk au ev lt) := c in
  mkConfig d ns h hs i db ia lm lh x cr sl gr st sc im il pa rf bk au ev lt.
Definition with_cluster_reissue_command (x : Z) (c : Config) : Config :=
  let '(mkConfig d ns h hs i db ia lm lh cm cr sl gr st sc im il pa rf bk au ev lt) := c in
  mkConfig d ns h hs i db ia lm lh cm x sl gr st sc im il pa rf bk au ev lt.
Definition with_slave_mode (x : Z) (c : Config) : Config :=
  let '(mkConfig d ns h hs i db ia lm lh cm cr sl gr st sc im il pa rf bk au ev lt) := c in
  mkConfig d ns h hs i db ia lm lh cm cr x gr st sc im il pa rf bk au ev lt.
Definition with_getrdb_mode (x : Z) (c : Config) : Config :=
  let '(mkConfig d ns h hs i db ia lm lh cm cr sl gr st sc im il pa rf bk au ev lt) := c in
  mkConfig d ns h hs i db ia lm lh cm cr sl x st sc im il pa rf bk au ev lt.
Definition with_stat_mode (x : Z) (c : Config) : Config :=
  let '(mkConfig d ns h hs i db ia lm lh cm cr sl gr st sc im il pa rf bk au ev lt) := c in
  mkConfig d ns h hs i db ia lm lh cm cr sl gr x sc im il pa rf bk au ev lt.
Definition with_scan_mode (x : Z) (c : Config) : Config :=
  let '(mkConfig d ns h hs i db ia lm lh cm cr sl gr st sc im il pa rf bk au ev lt) := c in
  mkConfig d ns h hs i db ia lm lh cm cr sl gr st x im il pa rf bk au ev lt.
Definition with_intrinsic_latency (m x : Z) (c : Config) : Config :=
  let '(mkConfig d ns h hs i db ia lm lh cm cr sl gr st sc im il pa rf bk au ev lt) := c in
  mkConfig d ns h hs i db ia lm lh cm cr sl gr st sc m x pa rf bk au ev lt.
Definition with_pattern (x : bytes) (c : Config) : Config :=
  let '(mkConfig d ns h hs i db ia lm lh cm cr sl gr st sc im il pa rf bk au ev lt) := c in
  mkConfig d ns h hs i db ia lm lh cm cr sl gr st sc im il x rf bk au ev lt.
Definition with_rdb_filename (x : bytes) (c : Config) : Config :=
  let '(mkConfig d ns h hs i db ia lm lh cm cr sl gr st sc im il pa rf bk au ev lt) := c in
  mkConfig d ns h hs i db ia lm lh cm cr sl gr st sc im il pa x bk au ev lt.
Definition with_bigkeys (x : Z) (c : Config) : Config :=
  let '(mkConfig d ns h hs i db ia lm lh cm cr sl gr st sc im il pa rf bk au ev lt) := c in
  mkConfig d ns h hs i db ia lm lh cm cr sl gr st sc im il pa rf x au ev lt.
Definition with_auth (x : bytes) (c : Config) : Config :=
  let '(mkConfig d ns h hs i db ia lm lh cm cr sl gr st sc im il pa rf bk au ev lt) := c in
  mkConfig d ns h hs i db ia lm lh cm cr sl gr st sc im il pa rf bk x ev lt.
Definition with_eval (x : bytes) (c : Config) : Config :=
  let '(mkConfig d ns h hs i db ia lm lh cm cr sl gr st sc im il pa rf bk au ev lt) := c in
  mkConfig d ns h hs i db ia lm lh cm cr sl gr st sc im il pa rf bk au x lt.
Definition with_last_cmd_type (x : Z) (c : Config) : Config :=
  let '(mkConfig d ns h hs i db ia lm lh cm cr sl gr st sc im il pa rf bk au ev lt) := c in
  mkConfig d ns h hs i db ia lm lh cm cr sl gr st sc im il pa rf bk au ev x.

Section Options.
Context `{CommonLib} `{ConfigLib}.

(** The options with a value, tried when the option is not the last argument. *)
Definition valued_option (a v : bytes) (c : Config) : option Config :=
  if is_opt a "-h" then Some (with_host (set_host (host c) v) c)
  else if is_opt a "-p" then Some (with_host (set_port (host c) (FromString_uint16 v)) c)
  else if is_opt a "-s" then Some (with_hostsocket v c)
  else if is_opt a "-i" then Some (with_interval (atof_usec v) c)
  else if is_opt a "-n" then Some (with_dbnum (FromString_int v) c)
  else if is_opt a "-a" then Some (with_auth v c)
  else if is_opt a "--pattern" then Some (with_pattern v c)
  else if is_opt a "--intrinsic-latency" then Some (with_intrinsic_latency 1 (FromString_int v) c)
  else if is_opt a "--rdb" then Some (with_rdb_filename v (with_getrdb_mode 1 c))
  else if is_opt a "--eval" then Some (with_eval v c)
  else if is_opt a "-d" then Some (with_delimiter v c)
  else if is_opt a "-ns" then Some (with_ns_separator v c)
  else None.

Definition flag_option (a : bytes) (c : Config) : option Config :=
  if is_opt a "--latency" then Some (with_latency_mode 1 c)
  else if is_opt a "--latency-history" then Some (with_latency_history 1 (with_latency_mode 1 c))
  else if is_opt a "--slave" then Some (with_slave_mode 1 c)
  else if is_opt a "--stat" then Some (with_stat_mode 1 c)
  else if is_opt a "--scan" then Some (with_scan_mode 1 c)
  else if is_opt a "--bigkeys" then Some (with_bigkeys 1 c)
  else if is_opt a "-c" then Some (with_cluster_mode 1 c)
  else None.

(** The option names differ, so the order of the tests does not matter. *)
Fixpoint parseOptions (argv : list bytes) (c : Config) : Config :=
  match argv with
  | [] => c
  | a :: rest =>
    let flag_or_stop :=
      match flag_option a c with Some c => parseOptions rest c | None => c end in
    match rest with
    | [] => flag_or_stop
    | v :: rest' =>
      match valued_option a (c_str v) c with
      | Some c => parseOptions rest' c
      | None => flag_or_stop
      end
    end
  end.

Definition Args (c : Config) : list bytes :=
  RemoteConfig_Args (host c) (delimiter c) (ns_separator c)
  ++ opt_text "-s" (hostsocket c)
  ++ (if negb (interval c =? 0) then [lit "-i"; ToString_uint (interval c / 1000000)] else [])
  ++ (if negb (dbnum c =? 0) then [lit "-n"; ToString_int (dbnum c)] else [])
  ++ opt_text "-a" (auth c)
  ++ (if negb (latency_mode c =? 0)
      then if negb (latency_history c =? 0) then [lit "--latency-history"] else [lit "--latency"]
      else [])
  ++ opt_flag "--slave" (negb (slave_mode c =? 0))
  ++ opt_flag "--stat" (negb (stat_mode c =? 0))
  ++ opt_flag "--scan" (negb (scan_mode c =? 0))
  ++ opt_text "--pattern" (pattern c)
  ++ (if negb (intrinsic_latency_mode c =? 0)
      then [lit "--intrinsic-latency"; ToString_int (intrinsic_latency_mode c);
            ToString_int (intrinsic_latency_duration c)]
      else [])
  ++ (if negb (getrdb_mode c =? 0) then [lit "--rdb"; rdb_filename c] else [])
  ++ opt_flag "--bigkeys" (negb (bigkeys c =? 0))
  ++ opt_text "--eval" (eval c)
  ++ opt_flag "-c" (negb (cluster_mode c =? 0)).

Definition ToString (c : Config) : bytes := join_args (Args c) [].

Definition FromString (line : bytes) : outcome Config :=
  argv ← sdssplitargslong line;
  match argv with
  | Some argv => Val (parseOptions argv default)
  | None => Val default
  end.
End Options.
End RedisConfig.

(** * Lemmas *)

Lemma join_args_join argv result :
  join_args argv result = result ++ join_with [chr_sp] argv.
Proof.
  revert result. induction argv as [|a [|b rest] IH]; intros result.
  - simpl. by rewrite app_nil_r.
  - done.
  - change (join_args (a :: b :: rest) result) with (join_args (b :: rest) ((result ++ a) ++ lit " ")).
    rewrite IH. change (join_with [chr_sp] (a :: b :: rest))
      with (a ++ [chr_sp] ++ join_with [chr_sp] (b :: rest)).
    by rewrite <- !app_assoc.
Qed.

Lemma split_joined argv :
  forallb plain_word argv = true → sdssplitargslong (join_args argv []) = Val (Some argv).
Proof. rewrite join_args_join. apply split_plain_words. Qed.

(** Empty, or a word. *)
Definition word_or_empty (s : bytes) : bool := bool_decide (s = []) || plain_word s.

Lemma word_or_empty_no_nul s : word_or_empty s = true → no_nul s.
Proof.
  unfold word_or_empty. rewrite orb_true_iff, bool_decide_eq_true.
  intros [->|Hw]; [intros Hin; by apply elem_of_nil in Hin|by apply plain_word_no_nul].
Qed.

Lemma c_str_word s : word_or_empty s = true → c_str s = s.
Proof. intros Hw. by apply c_str_no_nul, word_or_empty_no_nul. Qed.

Lemma plain_word_or_empty s : plain_word s = true → word_or_empty s = true.
Proof. intros Hw. unfold word_or_empty. by rewrite Hw, orb_true_r. Qed.

Lemma plain_opt_text opt s :
  plain_word (lit opt) = true → word_or_empty s = true → forallb plain_word (opt_text opt s) = true.
Proof.
  intros Ho Hs. destruct s as [|c s]; [done|]. unfold word_or_empty in Hs. simpl in Hs.
  unfold opt_text. cbn [forallb]. by rewrite Ho, Hs.
Qed.

Lemma plain_opt_flag opt b : plain_word (lit opt) = true → forallb plain_word (opt_flag opt b) = true.
Proof. intros Ho. destruct b; simpl; [by rewrite Ho|done]. Qed.

(** * The embedded stores *)

Definition local_plain (c : LocalConfig) : bool :=
  plain_word (lc_dbname c) && plain_word (lc_delimiter c) && plain_word (lc_ns_separator c).

Lemma local_roundtrip default_config c :
  lc_create_if_missing default_config = false → local_plain c = true →
  local_FromString default_config (local_ToString c) = Val c.
Proof.
  intros Hd Hc. unfold local_plain in Hc. rewrite !andb_true_iff in Hc.
  destruct Hc as [[Hf Hdl] Hns]. unfold local_FromString, local_ToString.
  rewrite split_joined.
  - cbn [mbind outcome_bind]. f_equal. destruct c as [dl ns f cm], default_config as [? ? ? dcm].
    simpl in *. subst dcm. unfold LocalConfig_Args. simpl.
    destruct f as [|x f]; [done|]. destruct dl as [|y dl]; [done|]. destruct ns as [|z ns]; [done|].
    unfold opt_text. cbn [Z.eqb Pos.eqb negb app].
    pose proof (c_str_word _ (plain_word_or_empty _ Hf)) as Ef.
    pose proof (c_str_word _ (plain_word_or_empty _ Hdl)) as Ed.
    pose proof (c_str_word _ (plain_word_or_empty _ Hns)) as Es.
    cbn [local_parseOptions]. rewrite Ef, Ed, Es. by destruct cm.
  - unfold LocalConfig_Args. rewrite !forallb_app.
    rewrite !plain_opt_text, plain_opt_flag by (done || by apply plain_word_or_empty). done.
Qed.

(** * SSDB and Memcached *)

Section RemoteRoundtrip.
Context `{CommonLaws} `{ConfigLib}.

Definition host_plain (h : HostAndPort) : Prop :=
  HostAndPort_isValid h = true ∧ plain_word (hp_host h) = true ∧ 0 <= hp_port h < 2 ^ 16.

Lemma RemoteConfig_Args_plain h dl ns :
  host_plain h → word_or_empty dl = true → word_or_empty ns = true →
  forallb plain_word (RemoteConfig_Args h dl ns) = true.
Proof.
  intros (Hv & Hh & Hp) Hd Hn. unfold RemoteConfig_Args. rewrite Hv, !forallb_app.
  rewrite !plain_opt_text by done. cbn [forallb]. rewrite Hh, ToString_uint_spec by lia.
  by rewrite dec_nat_plain.
Qed.

Lemma port_roundtrip p : 0 <= p < 2 ^ 16 → FromString_uint16 (c_str (ToString_uint p)) = p.
Proof.
  intros Hp. rewrite ToString_uint_spec by lia.
  rewrite c_str_word by (apply plain_word_or_empty, dec_nat_plain). by apply FromString_uint16_spec.
Qed.

Definition remote_plain (c : RemoteConfig) : Prop :=
  host_plain (rc_host c) ∧ plain_word (rc_delimiter c) = true ∧ plain_word (rc_ns_separator c) = true ∧
  word_or_empty (rc_user c) = true ∧ word_or_empty (rc_password c) = true.

Lemma remote_roundtrip port c :
  remote_plain c → remote_FromString (remote_default port) (remote_ToString c) = Val c.
Proof.
  intros (Hh & Hd & Hn & Hu & Hp). unfold remote_FromString, remote_ToString.
  pose proof (plain_word_or_empty _ Hd) as Hd'. pose proof (plain_word_or_empty _ Hn) as Hn'.
  rewrite split_joined.
  - cbn [mbind outcome_bind]. f_equal. destruct c as [dl ns [h p] u pw]. simpl in *.
    destruct Hh as (Hv & Hh & Hport). simpl in *. unfold RemoteConfig_Args. rewrite Hv. simpl.
    pose proof (c_str_word _ Hd') as Ed. pose proof (c_str_word _ Hn') as En.
    pose proof (c_str_word _ (plain_word_or_empty _ Hh)) as Eh.
    pose proof (c_str_word _ Hu) as Eu. pose proof (c_str_word _ Hp) as Ep.
    rewrite Eh, port_roundtrip by done.
    destruct dl as [|x dl]; [done|]. destruct ns as [|y ns]; [done|].
    unfold opt_text. cbn [Z.eqb Pos.eqb negb app].
    destruct u as [|z u], pw as [|t pw]; cbn [app remote_parseOptions];
      rewrite ?Ed, ?En, ?Eu, ?Ep; done.
  - rewrite !forallb_app, RemoteConfig_Args_plain by done. by rewrite !plain_opt_text.
Qed.
End RemoteRoundtrip.

(** * Redis *)

Module RedisRoundtrip.
Import RedisConfig.
Section Roundtrip.
Context `{CommonLaws} `{ConfigLaws}.
Implicit Types c : Config.

Definition flag (z : Z) : Prop := z = 0 ∨ z = 1.

(** What the line can express. *)
Record representable c : Prop := {
  rp_host : host_plain (host c);
  rp_delimiter : plain_word (delimiter c) = true;
  rp_ns : plain_word (ns_separator c) = true;
  rp_texts : word_or_empty (hostsocket c) = true ∧ word_or_empty (auth c) = true ∧
             word_or_empty (pattern c) = true ∧ word_or_empty (eval c) = true;
  rp_interval : ∃ k, 0 <= k < 2 ^ 32 ∧ interval c = k * 1000000;
  rp_dbnum : INT_MIN <= dbnum c <= INT_MAX;
  rp_latency : flag (latency_mode c) ∧ flag (latency_history c) ∧
               (latency_mode c = 0 → latency_history c = 0);
  rp_flags : flag (slave_mode c) ∧ flag (stat_mode c) ∧ flag (scan_mode c) ∧ flag (bigkeys c) ∧
             flag (cluster_mode c);
  rp_rdb : getrdb_mode c = 0 ∧ rdb_filename c = [] ∨
           getrdb_mode c = 1 ∧ plain_word (rdb_filename c) = true;
  rp_intrinsic : intrinsic_latency_mode c = 0 ∧ intrinsic_latency_duration c = 0;
  rp_unsaved : interactive c = 0 ∧ cluster_reissue_command c = 0 ∧ last_cmd_type c = -1
}.

(** One segment of the line read back. *)
Lemma parse_valued opt s v rest c c' :
  valued_option (lit opt) v c = Some c' → c_str s = v →
  parseOptions (lit opt :: s :: rest) c = parseOptions rest c'.
Proof. intros Hv Hs. simpl. by rewrite Hs, Hv. Qed.

Lemma parse_text opt (f : bytes → Config → Config) (field : Config → bytes) s rest c :
  (∀ v, valued_option (lit opt) v c = Some (f v c)) → f [] c = c → word_or_empty s = true →
  parseOptions (opt_text opt s ++ rest) c = parseOptions rest (f s c).
Proof.
  intros Hv Hf Hs. destruct s as [|x s]; [by rewrite Hf|].
  apply (parse_valued opt _ (x :: s)); [apply Hv|by apply c_str_word].
Qed.

Lemma parse_flag1 opt rest c c' :
  flag_option (lit opt) c = Some c' → (∀ v, valued_option (lit opt) v c = None) →
  parseOptions (lit opt :: rest) c = parseOptions rest c'.
Proof. intros Hf Hv. simpl. rewrite Hf. destruct rest; [done|by rewrite Hv]. Qed.

Lemma parse_flag opt (f : Z → Config → Config) z rest c :
  flag_option (lit opt) c = Some (f 1 c) → (∀ v, valued_option (lit opt) v c = None) →
  f 0 c = c → flag z →
  parseOptions (opt_flag opt (negb (z =? 0)) ++ rest) c = parseOptions rest (f z c).
Proof.
  intros Hf Hv Hz0 [->| ->]; simpl; [by rewrite Hz0|]. by apply parse_flag1.
Qed.

Lemma parse_latency lm lh rest c :
  latency_mode c = 0 → latency_history c = 0 →
  flag lm → flag lh → (lm = 0 → lh = 0) →
  parseOptions ((if negb (lm =? 0)
                 then if negb (lh =? 0) then [lit "--latency-history"] else [lit "--latency"]
                 else []) ++ rest) c
  = parseOptions rest (with_latency_history lh (with_latency_mode lm c)).
Proof.
  intros Hm Hh [->| ->] [->| ->] Hl; cbn [Z.eqb Pos.eqb negb app].
  - destruct c. simpl in *. by subst.
  - by specialize (Hl eq_refl).
  - rewrite (parse_flag1 "--latency" _ c _ eq_refl) by done. destruct c. simpl in *. by subst.
  - by rewrite (parse_flag1 "--latency-history" _ c _ eq_refl) by done.
Qed.

Lemma parse_rdb m s rest c :
  getrdb_mode c = 0 → rdb_filename c = [] →
  m = 0 ∧ s = [] ∨ m = 1 ∧ plain_word s = true →
  parseOptions ((if negb (m =? 0) then [lit "--rdb"; s] else []) ++ rest) c
  = parseOptions rest (with_rdb_filename s (with_getrdb_mode m c)).
Proof.
  intros Hm Hs [[-> ->]|[-> Hp]]; cbn [Z.eqb Pos.eqb negb app].
  - destruct c. simpl in *. by subst.
  - by rewrite (parse_valued "--rdb" s s _ c _ eq_refl) by (by apply c_str_word, plain_word_or_empty).
Qed.

Lemma parse_interval k rest c :
  interval c = 0 → 0 <= k < 2 ^ 32 →
  parseOptions ((if negb (k * 1000000 =? 0)
                 then [lit "-i"; ToString_uint (k * 1000000 / 1000000)] else []) ++ rest) c
  = parseOptions rest (with_interval (k * 1000000) c).
Proof.
  intros Hi Hk. rewrite Z.div_mul by lia. destruct (Z.eqb_spec (k * 1000000) 0) as [E|E]; cbn [Z.eqb Pos.eqb negb app].
  - rewrite E. destruct c. simpl in *. by subst.
  - rewrite ToString_uint_spec by lia.
    rewrite (parse_valued "-i" (dec_nat k) (dec_nat k) rest c (with_interval (atof_usec (dec_nat k)) c))
      by (done || apply c_str_word, plain_word_or_empty, dec_nat_plain).
    by rewrite atof_usec_spec.
Qed.

Lemma parse_dbnum d rest c :
  dbnum c = 0 → INT_MIN <= d <= INT_MAX →
  parseOptions ((if negb (d =? 0) then [lit "-n"; ToString_int d] else []) ++ rest) c
  = parseOptions rest (with_dbnum d c).
Proof.
  intros Hi Hd. destruct (Z.eqb_spec d 0) as [->|E]; cbn [Z.eqb Pos.eqb negb app].
  - destruct c. simpl in *. by subst.
  - rewrite ToString_int_spec by done.
    rewrite (parse_valued "-n" (dec_int d) (dec_int d) rest c (with_dbnum (FromString_int (dec_int d)) c))
      by (done || apply c_str_word, plain_word_or_empty, dec_int_plain).
    by rewrite FromString_int_spec.
Qed.

Lemma Args_plain c : representable c → forallb plain_word (Args c) = true.
Proof.
  intros [Hh Hd Hn (Hs & Ha & Hp & He) (k & Hk & Hi) Hdb Hl Hf Hr (Hin & _) _]. unfold Args.
  rewrite Hin, Hi, !forallb_app, RemoteConfig_Args_plain, !plain_opt_text, !plain_opt_flag
    by (done || by apply plain_word_or_empty).
  rewrite Z.div_mul by lia.
  assert (forallb plain_word (if negb (k * 1000000 =? 0) then [lit "-i"; ToString_uint k] else []) = true)
    as ->.
  { destruct (k * 1000000 =? 0); [done|]. simpl. rewrite ToString_uint_spec by lia.
    by rewrite dec_nat_plain. }
  assert (forallb plain_word (if negb (dbnum c =? 0) then [lit "-n"; ToString_int (dbnum c)] else []) = true)
    as ->.
  { destruct (dbnum c =? 0); [done|]. simpl. rewrite ToString_int_spec by done.
    by rewrite dec_int_plain. }
  assert (forallb plain_word (if negb (getrdb_mode c =? 0) then [lit "--rdb"; rdb_filename c] else []) = true)
    as ->.
  { destruct Hr as [[-> _]|[-> Hw]]; [done|]. simpl. by rewrite Hw. }
  by destruct (negb (latency_mode c =? 0)), (negb (latency_history c =? 0)).
Qed.

Lemma redis_roundtrip c : representable c → FromString (ToString c) = Val c.
Proof.
  intros Hc. pose proof (Args_plain c Hc) as Hp. unfold FromString, ToString.
  rewrite split_joined by done. cbn [mbind outcome_bind]. f_equal.
  destruct Hc as [(Hv & Hw & Hport) Hd Hn (Hs & Ha & Hpt & He) (k & Hk & Hi) Hdb (Hlm & Hlh & Hl)
    (Hsl & Hst & Hsc & Hbk & Hcm) Hr (Hin & Hid) (Hia & Hcr & Hlt)].
  unfold Args, RemoteConfig_Args. rewrite Hv, Hin, Hi, <- !app_assoc.
  pose proof (plain_word_or_empty _ Hd) as Hd'. pose proof (plain_word_or_empty _ Hn) as Hn'.
  cbn [Z.eqb Pos.eqb negb app]. rewrite (parse_valued "-h" _ (hp_host (host c)) _ _ _ eq_refl)
    by (by apply c_str_word, plain_word_or_empty).
  rewrite (parse_valued "-p" _ (dec_nat (hp_port (host c))) _ _ _ eq_refl)
    by (rewrite ToString_uint_spec by lia; apply c_str_word, plain_word_or_empty, dec_nat_plain).
  rewrite FromString_uint16_spec by done.
  destruct (delimiter c) as [|x dl] eqn:Ed; [done|]. destruct (ns_separator c) as [|y ns] eqn:En; [done|].
  cbn [opt_text app].
  rewrite (parse_valued "-d" _ (x :: dl) _ _ _ eq_refl) by (by apply c_str_word).
  rewrite (parse_valued "-ns" _ (y :: ns) _ _ _ eq_refl) by (by apply c_str_word).
  rewrite (parse_text "-s" with_hostsocket hostsocket) by done.
  rewrite parse_interval by done. rewrite parse_dbnum by done.
  rewrite (parse_text "-a" with_auth auth) by done.
  rewrite parse_latency by done.
  rewrite (parse_flag "--slave" with_slave_mode), (parse_flag "--stat" with_stat_mode),
    (parse_flag "--scan" with_scan_mode) by done.
  rewrite (parse_text "--pattern" with_pattern pattern) by done.
  rewrite parse_rdb by done.
  rewrite (parse_flag "--bigkeys" with_bigkeys) by done.
  rewrite (parse_text "--eval" with_eval eval) by done.
  rewrite <- (app_nil_r (opt_flag "-c" _)), (parse_flag "-c" with_cluster_mode) by done.
  destruct c as [? ? [? ?]]. simpl in *. by subst.
Qed.

(** ** The intrinsic latency, which the line does not keep *)

Lemma dec_nat_first n : ∃ x r, dec_nat n = x :: r ∧ c_isdigit x = true.
Proof.
  pose proof (dec_nat_plain n) as Hp. destruct (dec_nat n) as [|x r] eqn:E; [done|].
  exists x, r. split; [done|]. by eapply dec_digits_head.
Qed.

(** A number is no option. *)
Lemma number_no_option n v c :
  valued_option (dec_nat n) v c = None ∧ flag_option (dec_nat n) c = None.
Proof.
  destruct (dec_nat_first n) as (x & r & E & Hx). rewrite E.
  assert (∀ opt, head (lit opt) = Some "-"%char → is_opt (x :: r) opt = false) as Ho.
  { intros opt Hh. unfold is_opt. rewrite bool_decide_eq_false. intros Eo.
    rewrite <- Eo in Hh. cbn in Hh. destruct (decide (x = NUL)) as [->|Hn]; [done|].
    destruct (Ascii.eqb_spec x NUL); [done|]. simpl in Hh. by injection Hh as ->. }
  unfold valued_option, flag_option. by rewrite !Ho.
Qed.

Lemma intrinsic_latency_lost mode duration rest c :
  INT_MIN <= mode <= INT_MAX → 0 <= duration <= INT_MAX →
  parseOptions ([lit "--intrinsic-latency"; ToString_int mode; ToString_int duration] ++ rest) c
  = with_intrinsic_latency 1 mode c.
Proof.
  intros Hm Hd. cbn [app]. rewrite !ToString_int_spec by (unfold INT_MIN in *; lia).
  rewrite (parse_valued "--intrinsic-latency" (dec_int mode) (dec_int mode) _ c
    (with_intrinsic_latency 1 (FromString_int (dec_int mode)) c))
    by (done || apply c_str_word, plain_word_or_empty, dec_int_plain).
  rewrite FromString_int_spec by done. unfold dec_int at 1.
  destruct (Z.ltb_spec duration 0); [lia|]. cbn [parseOptions].
  assert (∀ v c, valued_option (dec_nat duration) v c = None) as Hv by (intros; apply number_no_option).
  assert (∀ c, flag_option (dec_nat duration) c = None) as Hf
    by (intros; by apply (number_no_option duration [])).
  rewrite Hf. destruct rest; [done|]. by rewrite Hv.
Qed.
End Roundtrip.
End RedisRoundtrip.

(** * A concrete instance *)

Definition config_ref : ConfigLib := {|
  prepare_path p := p;
  createLocalHost p := mkHostAndPort (lit "localhost") p;
  atof_usec s := parse_int s * 1000000
|}.

Lemma config_ref_laws : @ConfigLaws config_ref.
Proof.
  split; [done|]. intros n Hn. cbn [atof_usec config_ref]. f_equal.
  rewrite <- (parse_dec_int n) at 2 by lia.
  unfold dec_int. by destruct (Z.ltb_spec n 0); [lia|].
Qed.

(** * Properties *)


Definition redis_sample : RedisConfig.Config :=
  let _ := config_ref in
  RedisConfig.with_rdb_filename (lit "/tmp/dump.rdb") (RedisConfig.with_getrdb_mode 1
    (RedisConfig.with_latency_history 1 (RedisConfig.with_latency_mode 1
      (RedisConfig.with_interval 3000000 (RedisConfig.with_dbnum (-4)
        (RedisConfig.with_auth (lit "secret") (@RedisConfig.default config_ref))))))).


(** The configurations of the embedded stores, of SSDB and of Memcached survive their command
    line: [FromString] of what [ToString] prints is the configuration. *)
Theorem store_config_roundtrip `{CommonLaws} `{ConfigLaws} (l : LocalConfig) (r : RemoteConfig) :
  local_plain l = true → remote_plain r →
  LeveldbConfig.FromString (LeveldbConfig.ToString l) = Val l ∧
  UnqliteConfig.FromString (UnqliteConfig.ToString l) = Val l ∧
  LmdbConfig.FromString (LmdbConfig.ToString l) = Val l ∧
  RocksdbConfig.FromString (RocksdbConfig.ToString l) = Val l ∧
  UpscaledbConfig.FromString (UpscaledbConfig.ToString l) = Val l ∧
  SsdbConfig.FromString (SsdbConfig.ToString r) = Val r ∧
  MemcachedConfig.FromString (MemcachedConfig.ToString r) = Val r.
Proof.
  intros Hl Hr. do 5 (split; [by apply local_roundtrip|]). split; by apply remote_roundtrip.
Qed.

(** The default LevelDB configuration and a remote one with a user. *)
Lemma store_config_roundtrip_witness :
  let l := @LeveldbConfig.Config config_ref in
  let r := mkRemote [chr_nl] (lit ":") (mkHostAndPort (lit "localhost") 8888) (lit "me") [] in
  @LeveldbConfig.FromString config_ref (LeveldbConfig.ToString l) = Val l ∧
  @SsdbConfig.FromString common_ref config_ref (@SsdbConfig.ToString common_ref r) = Val r.
Proof.
  intros l r.
  destruct (@store_config_roundtrip common_ref common_ref_laws config_ref config_ref_laws l r)
    as (Hl & _ & _ & _ & _ & Hr & _); [done| |by split].
  vm_compute. by repeat split.
Defined.

