(* ===== verification/Translators.v ===== *)
(** Command translators: the texts that the graphical interface sends for an operation on a key,
    [core/icommand_translator.*] and the eight [command_translator.cpp], and what the command tables
    make of them. *)
From Stdlib Require Import Ascii String ZArith Lia.
From stdpp Require Import base list strings.
From S2P Require Import Prelude Common Values Connection Commands Handlers KvTables RemoteTables RedisTable KvApi MemcachedApi Sessions SdsArgs Dispatch.
Local Open Scope Z_scope.

(** The title of the project, from the build configuration. *)
Class Project := project_title : bytes.

(** * [ICommandTranslator]

    An implementation gets the old contents of [*cmdstring] and returns the new one. *)

Record CommandTranslator := mkTranslator {
  CreateKeyCommandImpl : NDbKValue → bytes → Error * bytes;
  LoadKeyCommandImpl : NKey → value_type → bytes → Error * bytes;
  DeleteKeyCommandImpl : NKey → bytes → Error * bytes;
  RenameKeyCommandImpl : NKey → bytes → bytes → Error * bytes;
  ChangeKeyTTLCommandImpl : NKey → Z → bytes → Error * bytes
}.

(** [cmdstring] is [None] for a null pointer. *)
Definition with_cmdstring (impl : bytes → Error * bytes) (cmdstring : option bytes) : Error * option bytes :=
  match cmdstring with
  | None => (invalid_arguments, None)
  | Some s => let '(err, s) := impl s in (err, Some s)
  end.

Definition CreateKeyCommand (t : CommandTranslator) (key : NDbKValue) := with_cmdstring (CreateKeyCommandImpl t key).
Definition LoadKeyCommand (t : CommandTranslator) (key : NKey) (type : value_type) :=
  with_cmdstring (LoadKeyCommandImpl t key type).
Definition DeleteKeyCommand (t : CommandTranslator) (key : NKey) := with_cmdstring (DeleteKeyCommandImpl t key).
Definition RenameKeyCommand (t : CommandTranslator) (key : NKey) (new_name : bytes) :=
  with_cmdstring (RenameKeyCommandImpl t key new_name).
Definition ChangeKeyTTLCommand (t : CommandTranslator) (key : NKey) (ttl : Z) :=
  with_cmdstring (ChangeKeyTTLCommandImpl t key ttl).

Section Translators.
Context `{CommonLib} `{Project}.

(** The patterns with one or two key-like arguments. *)
Definition pattern1 (fmt : string) (k : bytes) (_ : bytes) : Error * bytes :=
  (no_error, MemSPrintf (lit fmt) [FStr k]).
Definition pattern2 (fmt : string) (k v : bytes) (_ : bytes) : Error * bytes :=
  (no_error, MemSPrintf (lit fmt) [FStr k; FStr v]).

Definition ttl_not_supported (database : string) (cmdstring : bytes) : Error * bytes :=
  (make_error_value
     (MemSPrintf (lit "Sorry, but now " ++ project_title ++ lit " not supported change ttl command for "
                  ++ lit database ++ lit ".") []) E_ERROR, cmdstring).

(** LevelDB, LMDB, RocksDB, UnQLite and UpscaleDB. *)
Definition kv_translator (database : string) : CommandTranslator := {|
  CreateKeyCommandImpl kv := pattern2 "SET %s %s" (KeyString kv) (ValueString kv);
  LoadKeyCommandImpl k _ := pattern1 "GET %s" (key_ k);
  DeleteKeyCommandImpl k := pattern1 "DEL %s" (key_ k);
  RenameKeyCommandImpl k n := pattern2 "RENAME %s %s" (key_ k) n;
  ChangeKeyTTLCommandImpl _ _ := ttl_not_supported database
|}.

Definition leveldb_translator := kv_translator "LevelDB".
Definition lmdb_translator := kv_translator "LMDB".
Definition rocksdb_translator := kv_translator "RocksDB".
Definition unqlite_translator := kv_translator "UnqLite".
Definition upscaledb_translator := kv_translator "UPSCALEDB".

Definition memcached_translator : CommandTranslator := {|
  CreateKeyCommandImpl kv := pattern2 "SET %s 0 0 %s" (KeyString kv) (ValueString kv);
  LoadKeyCommandImpl k _ := pattern1 "GET %s" (key_ k);
  DeleteKeyCommandImpl k := pattern1 "DEL %s" (key_ k);
  RenameKeyCommandImpl k n := pattern2 "RENAME %s %s" (key_ k) n;
  ChangeKeyTTLCommandImpl k ttl _ :=
    (no_error, MemSPrintf (lit "EXPIRE %s %d") [FStr (key_ k); FInt ttl])
|}.

Definition ssdb_translator : CommandTranslator := {|
  CreateKeyCommandImpl kv :=
    pattern2 (match NDbKValue_Type kv with
              | TYPE_ARRAY => "LPUSH %s %s" | TYPE_SET => "SADD %s %s" | TYPE_ZSET => "ZADD %s %s"
              | TYPE_HASH => "HMSET %s %s" | _ => "SET %s %s" end) (KeyString kv) (ValueString kv);
  LoadKeyCommandImpl k type :=
    pattern1 (match type with
              | TYPE_ARRAY => "LRANGE %s 0 -1" | TYPE_SET => "SMEMBERS %s"
              | TYPE_ZSET => "ZRANGE %s 0 -1" | TYPE_HASH => "HGET %s" | _ => "GET %s" end) (key_ k);
  DeleteKeyCommandImpl k := pattern1 "DEL %s" (key_ k);
  RenameKeyCommandImpl k n := pattern2 "RENAME %s %s" (key_ k) n;
  ChangeKeyTTLCommandImpl _ _ := ttl_not_supported "SSDB"
|}.

Definition redis_translator : CommandTranslator := {|
  CreateKeyCommandImpl kv :=
    pattern2 (match NDbKValue_Type kv with
              | TYPE_ARRAY => "LPUSH %s %s" | TYPE_SET => "SADD %s %s" | TYPE_ZSET => "ZADD %s %s"
              | TYPE_HASH => "HMSET %s %s" | _ => "SET %s %s" end) (KeyString kv) (ValueString kv);
  LoadKeyCommandImpl k type :=
    pattern1 (match type with
              | TYPE_ARRAY => "LRANGE %s 0 -1" | TYPE_SET => "SMEMBERS %s"
              | TYPE_ZSET => "ZRANGE %s 0 -1 WITHSCORES" | TYPE_HASH => "HGETALL %s"
              | _ => "GET %s" end) (key_ k);
  DeleteKeyCommandImpl k := pattern1 "DEL %s" (key_ k);
  RenameKeyCommandImpl k n := pattern2 "RENAME %s %s" (key_ k) n;
  ChangeKeyTTLCommandImpl k ttl _ :=
    (no_error, if ttl =? -1 then MemSPrintf (lit "PERSIST %s") [FStr (key_ k)]
               else MemSPrintf (lit "EXPIRE %s %d") [FStr (key_ k); FInt ttl])
|}.
End Translators.

(** * What becomes of the texts *)

(** The line, split into words and dispatched, runs [f] on exactly these arguments. *)
Definition reaches `{CommonLib} {F} (table : list (CommandHolder F)) (line : bytes) (f : F)
    (args : list bytes) : Prop :=
  ∃ argv, sdssplitargslong line = Val (Some argv) ∧
    Execute trace_run table (argc_of argv) (vec [] argv) [] = Val (no_error, [(f, argc_of args, args)]).

Section Reaches.
Context `{CommonLaws} {F : Type}.
Implicit Types (table : list (CommandHolder F)) (args : list bytes).

Lemma plain_words_c_str args : forallb plain_word args = true → List.map c_str args = args.
Proof.
  induction args as [|a args IH]; [done|]. simpl. intros Hp. apply andb_true_iff in Hp as [Ha Hp].
  rewrite IH by done. f_equal. by apply c_str_no_nul, plain_word_no_nul.
Qed.

(** The function that a one-word name runs with [n] arguments. *)
Definition word_fn table (w : string) (n : Z) : option F :=
  cmd ← word_entry table w; if in_range cmd n then Some (func_ cmd) else None.

Lemma reaches_word table w f args :
  table_ok table = true → word_fn table w (argc_of args) = Some f →
  forallb plain_word (lit w :: args) = true →
  reaches table (join_with [chr_sp] (lit w :: args)) f args.
Proof.
  unfold word_fn. intros Hok Hfn Hp. destruct (word_entry table w) as [cmd|] eqn:Hentry; [|done].
  simpl in Hfn. destruct (in_range cmd _) eqn:Hr; [|done]. injection Hfn as <-.
  exists (lit w :: args). split; [by apply split_plain_words|].
  pose proof Hp as Hp'. simpl in Hp'. apply andb_true_iff in Hp' as [Hw Ha].
  rewrite (word_line trace_run table cmd); [|done..|by apply plain_word_no_nul| |done].
  - unfold trace_run. unfold argc_of. rewrite Nat2Z.id, aget_range_vec_take by done.
    by rewrite plain_words_c_str, take_ge.
  - unfold in_range, argc_of in *. pose proof (Z.mod_pos_bound (required_arguments_count (info cmd)
      + optional_arguments_count (info cmd)) (2 ^ 16) ltac:(lia)). unfold MaxArgumentsCount, u16 in Hr.
    apply andb_true_iff in Hr as [_ Hr%Z.leb_le]. cbn [length]. unfold INT_MAX. lia.
Qed.

(** What a translator returned, and what becomes of it. *)
Definition translates (r : Error * option bytes) table (f : F) args : Prop :=
  ∃ line, r = (no_error, Some line) ∧ reaches table line f args.

Lemma translates_text w fmt fargs table f args :
  printf_ref fmt fargs = Some (join_with [chr_sp] (lit w :: args)) →
  table_ok table = true → word_fn table w (argc_of args) = Some f →
  forallb plain_word (lit w :: args) = true →
  translates (no_error, Some (MemSPrintf fmt fargs)) table f args.
Proof.
  intros Hfmt Hok Hf Hp. eexists. split; [done|].
  rewrite (MemSPrintf_spec _ _ _ Hfmt). by apply reaches_word.
Qed.
End Reaches.

Ltac plain :=
  cbn [forallb]; repeat match goal with Hp : plain_word ?x = true |- _ => rewrite Hp; clear Hp end;
  reflexivity.
Ltac translate w :=
  apply (translates_text w);
  [cbn [join_with app lit]; rewrite ?app_nil_r; by cbn; rewrite ?app_nil_r|assumption|assumption|plain].

Section Lines.
Context `{CommonLaws} `{Project}.

(** The four texts that every database has. *)
Definition basics_translated {F} (t : CommandTranslator) (table : list (CommandHolder F))
    (f_set f_get f_del f_rename : F) (k n v : bytes) : Prop :=
  translates (CreateKeyCommand t (mkNDbKValue (new_NKey k) (Some (VString v))) (Some [])) table f_set [k; v] ∧
  (∀ type, translates (LoadKeyCommand t (new_NKey k) type (Some [])) table f_get [k]) ∧
  translates (DeleteKeyCommand t (new_NKey k) (Some [])) table f_del [k] ∧
  translates (RenameKeyCommand t (new_NKey k) n (Some [])) table f_rename [k; n].

Lemma kv_translated {F} database (table : list (CommandHolder F)) f_set f_get f_del f_rename k n v :
  table_ok table = true → word_fn table "SET" 2 = Some f_set → word_fn table "GET" 1 = Some f_get →
  word_fn table "DEL" 1 = Some f_del → word_fn table "RENAME" 2 = Some f_rename →
  forallb plain_word [k; n; v] = true →
  basics_translated (kv_translator database) table f_set f_get f_del f_rename k n v.
Proof.
  intros Hok Hs Hg Hd Hn Hp. simpl in Hp. rewrite !andb_true_iff in Hp. destruct Hp as (Hk & Hpn & Hv & _).
  split_and!.
  - unfold CreateKeyCommand. cbn. unfold KeyString, ValueString, ConvertToString. cbn. rewrite toString_string. translate "SET".
  - intros type. translate "GET".
  - translate "DEL".
  - translate "RENAME".
Qed.

(** The first word of a line that an entry names. *)
Lemma names_line_first {F} (c : CommandHolder F) w args :
  holder_wf c = true → no_nul (lit w) → names_line c (lit w :: args) = true →
  is_prefix_b (lower (lit w) ++ [chr_sp]) (name_key c) = true.
Proof.
  intros Hwf Hw Hn. unfold names_line in Hn. apply andb_true_iff in Hn as [_ Hn].
  apply bool_decide_eq_true in Hn. unfold name_key. rewrite <- Hn. apply is_prefix_b_spec.
  destruct (holder_wf_inv _ Hwf) as (_ & _ & _ & Hwords). cbn [List.map].
  rewrite (c_str_no_nul (lit w)) by done. unfold lower.
  destruct Hwords as [-> | ->], args as [|a args]; cbn [take List.map join_with]; try (by exists []; rewrite app_nil_r).
  rewrite take_0. cbn [join_with]. rewrite !map_app. cbn [List.map].
  exists (List.map c_tolower (c_str a) ++ [chr_sp]). by rewrite <- !app_assoc.
Qed.

(** The text makes a line that no command of the table accepts. *)
Definition refused {F} (r : Error * option bytes) (table : list (CommandHolder F)) : Prop :=
  ∃ line argv e, r = (no_error, Some line) ∧ sdssplitargslong line = Val (Some argv) ∧
    Execute trace_run table (argc_of argv) (vec [] argv) [] = Val (e, []) ∧ isError e = true.

(** No name of the table begins with the word, or the one that does takes no [n] arguments. *)
Definition word_refused {F} (table : list (CommandHolder F)) (w : string) (n : Z) : bool :=
  forallb (λ c, negb (is_prefix_b (lower (lit w) ++ [chr_sp]) (name_key c))
                || ((name_words c =? 1)%nat && negb (in_range c n))) table.

Lemma refused_text {F} w fmt fargs (table : list (CommandHolder F)) args :
  printf_ref fmt fargs = Some (join_with [chr_sp] (lit w :: args)) →
  table_ok table = true → word_refused table w (argc_of args) = true → argc_of (lit w :: args) <= INT_MAX →
  forallb plain_word (lit w :: args) = true →
  refused (no_error, Some (MemSPrintf fmt fargs)) table.
Proof.
  intros Hfmt Hok Hrf Hmax Hp. pose proof Hp as Hp'. simpl in Hp'. apply andb_true_iff in Hp' as [Hw _].
  apply plain_word_no_nul in Hw. apply andb_true_iff in Hok as [Hwf _].
  exists (join_with [chr_sp] (lit w :: args)), (lit w :: args).
  rewrite (MemSPrintf_spec _ _ _ Hfmt), Execute_spec by done. unfold execute_spec.
  destruct (List.find _ table) as [c|] eqn:Hf.
  - apply find_some in Hf as [Hin Hn]. unfold word_refused in Hrf. rewrite forallb_forall in Hwf, Hrf.
    specialize (Hwf _ Hin). specialize (Hrf _ Hin). rewrite (names_line_first c w args) in Hrf by done.
    simpl in Hrf. apply andb_true_iff in Hrf as [Hone%Nat.eqb_eq Hr%negb_true_iff].
    rewrite Hone. replace (argc_of (lit w :: args) - Z.of_nat 1) with (argc_of args)
      by (unfold argc_of; cbn [length]; lia).
    rewrite Hr. eexists. split; [done|]. split; [by apply split_plain_words|]. split; [done|].
    apply isError_make_error.
  - eexists. split; [done|]. split; [by apply split_plain_words|]. split; [done|].
    apply isError_make_error.
Qed.


Lemma refused_create {F} w k ws text (table : list (CommandHolder F)) :
  text = join_with [chr_sp] ws → ws ≠ [] → table_ok table = true →
  word_refused table w (argc_of (k :: ws)) = true → (length ws <= 200)%nat →
  forallb plain_word (lit w :: k :: ws) = true →
  printf_ref (lit w ++ lit " %s %s") [FStr k; FStr text] = Some (lit w ++ lit " " ++ k ++ lit " " ++ text) →
  refused (no_error, Some (MemSPrintf (lit w ++ lit " %s %s") [FStr k; FStr text])) table.
Proof.
  intros -> Hne Hok Hrf Hl Hp Hfmt. apply (refused_text w _ _ _ (k :: ws)); [|done|done| |done].
  - rewrite Hfmt, join_with_cons by done. by rewrite (join_with_cons _ k) by done.
  - unfold argc_of, INT_MAX. cbn [length]. lia.
Qed.

(** ** Containers of Redis *)

Lemma value_words vs :
  forallb plain_word vs = true → vs ≠ [] →
  ConvertToString_array (List.map VString vs) (lit " ") = join_with [chr_sp] vs ∧
  ConvertToString_set (List.map VString vs) (lit " ") = join_with [chr_sp] vs.
Proof.
  intros Hp Hne. assert (Forall (λ s, s ≠ []) vs) as Hall.
  { apply Forall_forall. intros s Hs. rewrite forallb_forall in Hp.
    apply list_elem_of_In, Hp in Hs. by intros ->. }
  split; (destruct vs as [|v vs]; [done|]); exact (convert_elems_loop_strings (lit " ") (v :: vs) [] Hall).
Qed.

Lemma pair_words_text l :
  forallb plain_word (pair_words l) = true → l ≠ [] →
  ConvertToString_zset (string_pairs l) (lit " ") = join_with [chr_sp] (pair_words l) ∧
  ConvertToString_hash (string_pairs l) (lit " ") = join_with [chr_sp] (pair_words l).
Proof.
  intros Hp Hne. assert (Forall (λ p, p.1 ≠ [] ∧ p.2 ≠ []) l) as Hall.
  { clear Hne. induction l as [|[a b] l IH]; [constructor|]. simpl in Hp.
    apply andb_true_iff in Hp as [Ha Hp]. apply andb_true_iff in Hp as [Hb Hp].
    constructor; [split; intros ?; simpl in *; by subst|by apply IH]. }
  pose proof (convert_pairs_loop_strings (lit " ") l [] Hall) as Ht.
  assert (join_with (lit " ") (List.map (λ p, p.1 ++ lit " " ++ p.2) l) = join_with [chr_sp] (pair_words l)) as Hj.
  { clear -Hne. induction l as [|[a b] [|[a' b'] l] IH]; [done|by simpl|].
    change (pair_words ((a, b) :: (a', b') :: l)) with (a :: b :: pair_words ((a', b') :: l)).
    cbn [List.map fst snd] in *. rewrite (join_with_cons _ (a ++ lit " " ++ b)) by done. rewrite IH by done.
    rewrite (join_with_cons _ a), (join_with_cons _ b) by done. by rewrite <- !app_assoc. }
  rewrite app_nil_l, Hj in Ht. split; (destruct l as [|p l]; [done|exact Ht]).
Qed.

(** A text whose arguments are a key and the words of a value. *)
Lemma create_text {F} w (table : list (CommandHolder F)) f k ws text :
  text = join_with [chr_sp] ws → ws ≠ [] → no_nul (lit w) →
  printf_ref (lit w ++ lit " %s %s") [FStr k; FStr text] = Some (lit w ++ lit " " ++ k ++ lit " " ++ text) →
  table_ok table = true → word_fn table w (argc_of (k :: ws)) = Some f →
  forallb plain_word (lit w :: k :: ws) = true →
  translates (no_error, Some (MemSPrintf (lit w ++ lit " %s %s") [FStr k; FStr text])) table f (k :: ws).
Proof.
  intros -> Hne Hw Hfmt Hok Hf Hp. apply (translates_text w); [|done..].
  rewrite Hfmt, join_with_cons by done. by rewrite (join_with_cons _ k) by done.
Qed.

Lemma memcached_translated k n v ttl :
  forallb plain_word [k; n; v] = true → INT_MIN <= ttl <= INT_MAX →
  let t := memcached_translator in let table := Memcached.memcachedCommands in
  translates (CreateKeyCommand t (mkNDbKValue (new_NKey k) (Some (VString v))) (Some [])) table
    Memcached.f_set [k; lit "0"; lit "0"; v] ∧
  (∀ type, translates (LoadKeyCommand t (new_NKey k) type (Some [])) table Memcached.f_get [k]) ∧
  translates (DeleteKeyCommand t (new_NKey k) (Some [])) table Memcached.f_del [k] ∧
  translates (RenameKeyCommand t (new_NKey k) n (Some [])) table Memcached.f_rename [k; n] ∧
  translates (ChangeKeyTTLCommand t (new_NKey k) ttl (Some [])) table Memcached.f_expire [k; dec_int ttl].
Proof.
  intros Hp Httl. simpl in Hp. rewrite !andb_true_iff in Hp. destruct Hp as (Hk & Hpn & Hv & _).
  assert (table_ok Memcached.memcachedCommands = true) by (by vm_compute).
  assert (word_fn Memcached.memcachedCommands "SET" 4 = Some Memcached.f_set) by (by vm_compute).
  assert (word_fn Memcached.memcachedCommands "GET" 1 = Some Memcached.f_get) by (by vm_compute).
  assert (word_fn Memcached.memcachedCommands "DEL" 1 = Some Memcached.f_del) by (by vm_compute).
  assert (word_fn Memcached.memcachedCommands "RENAME" 2 = Some Memcached.f_rename) by (by vm_compute).
  assert (word_fn Memcached.memcachedCommands "EXPIRE" 2 = Some Memcached.f_expire) by (by vm_compute).
  pose proof (dec_int_plain ttl) as Hd. split_and!.
  - cbn. unfold KeyString, ValueString, ConvertToString. cbn. rewrite toString_string. translate "SET".
  - intros type. translate "GET".
  - translate "DEL".
  - translate "RENAME".
  - translate "EXPIRE".
Qed.

(** ** Redis *)

Lemma redis_table : table_ok Redis.redisCommands = true.
Proof. by vm_compute. Qed.

(** The number of words that a value may have. *)
Definition value_fits (ws : list bytes) : Prop := ws ≠ [] ∧ (length ws <= 200)%nat.

Lemma in_range_common w lo cmd k ws :
  word_entry Redis.redisCommands w = Some cmd → MinArgumentsCount (info cmd) = lo →
  MaxArgumentsCount (info cmd) = lo + 255 → func_ cmd = Redis.f_common_exec →
  lo <= argc_of (k :: ws) → (length ws <= 200)%nat → 0 <= lo →
  word_fn Redis.redisCommands w (argc_of (k :: ws)) = Some Redis.f_common_exec.
Proof.
  intros He Hlo Hhi Hf Hn Hl Hz. unfold word_fn. rewrite He. simpl. unfold in_range. rewrite Hlo, Hhi, Hf.
  unfold argc_of in *. cbn [length] in *.
  by destruct (Z.leb_spec lo (Z.of_nat (S (length ws)))), (Z.leb_spec (Z.of_nat (S (length ws))) (lo + 255)); try lia.
Qed.

Lemma redis_list_created k vs :
  forallb plain_word (k :: vs) = true → value_fits vs →
  translates (CreateKeyCommand redis_translator (mkNDbKValue (new_NKey k) (Some (VArray (List.map VString vs))))
                (Some [])) Redis.redisCommands Redis.f_common_exec (k :: vs) ∧
  translates (CreateKeyCommand redis_translator (mkNDbKValue (new_NKey k) (Some (VSet (List.map VString vs))))
                (Some [])) Redis.redisCommands Redis.f_common_exec (k :: vs).
Proof.
  intros Hp [Hne Hl]. pose proof Hp as Hp'. simpl in Hp'. apply andb_true_iff in Hp' as [_ Hv].
  destruct (value_words vs Hv Hne) as [Ha Hs].
  assert (2 <= argc_of (k :: vs)) as Hlo
    by (destruct vs; [done|]; unfold argc_of; cbn [length]; lia).
  split.
  - apply (create_text "LPUSH" _ _ k vs _ Ha Hne); [by apply no_nul_check| |exact redis_table| |exact Hp].
    + cbn. by rewrite app_nil_r.
    + eapply (in_range_common "LPUSH" 2); [vm_compute; reflexivity|reflexivity|reflexivity|reflexivity|done|done|lia].
  - apply (create_text "SADD" _ _ k vs _ Hs Hne); [by apply no_nul_check| |exact redis_table| |exact Hp].
    + cbn. by rewrite app_nil_r.
    + eapply (in_range_common "SADD" 2); [vm_compute; reflexivity|reflexivity|reflexivity|reflexivity|done|done|lia].
Qed.

Lemma redis_pairs_created k l :
  forallb plain_word (k :: pair_words l) = true → value_fits (pair_words l) →
  translates (CreateKeyCommand redis_translator (mkNDbKValue (new_NKey k) (Some (VZSet (string_pairs l))))
                (Some [])) Redis.redisCommands Redis.f_common_exec (k :: pair_words l) ∧
  translates (CreateKeyCommand redis_translator (mkNDbKValue (new_NKey k) (Some (VHash (string_pairs l))))
                (Some [])) Redis.redisCommands Redis.f_common_exec (k :: pair_words l).
Proof.
  intros Hp [Hne Hl]. pose proof Hp as Hp'. simpl in Hp'. apply andb_true_iff in Hp' as [_ Hv].
  assert (Hnl : l ≠ []) by (by intros ->). destruct (pair_words_text l Hv Hnl) as [Hz Hh].
  assert (3 <= argc_of (k :: pair_words l)) as Hlo.
  { destruct l as [|[a b] l]; [done|]. unfold argc_of. simpl length. lia. }
  split.
  - apply (create_text "ZADD" _ _ k _ _ Hz Hne); [by apply no_nul_check| |exact redis_table| |exact Hp].
    + cbn. by rewrite app_nil_r.
    + eapply (in_range_common "ZADD" 3); [vm_compute; reflexivity|reflexivity|reflexivity|reflexivity|done|done|lia].
  - apply (create_text "HMSET" _ _ k _ _ Hh Hne); [by apply no_nul_check| |exact redis_table| |exact Hp].
    + cbn. by rewrite app_nil_r.
    + eapply (in_range_common "HMSET" 3); [vm_compute; reflexivity|reflexivity|reflexivity|reflexivity|done|done|lia].
Qed.

(** The function and the further arguments that load a key of a type. *)
Definition redis_loader (type : value_type) : Redis.fn * list bytes :=
  match type with
  | TYPE_ARRAY => (Redis.f_lrange, [lit "0"; lit "-1"])
  | TYPE_SET => (Redis.f_smembers, [])
  | TYPE_ZSET => (Redis.f_zrange, [lit "0"; lit "-1"; lit "WITHSCORES"])
  | TYPE_HASH => (Redis.f_hgetall, [])
  | _ => (Redis.f_get, [])
  end.

Lemma redis_key_translated k n v ttl :
  forallb plain_word [k; n; v] = true → INT_MIN <= ttl <= INT_MAX →
  let t := redis_translator in let table := Redis.redisCommands in
  translates (CreateKeyCommand t (mkNDbKValue (new_NKey k) (Some (VString v))) (Some [])) table
    Redis.f_set [k; v] ∧
  (∀ type, translates (LoadKeyCommand t (new_NKey k) type (Some [])) table
             (redis_loader type).1 (k :: (redis_loader type).2)) ∧
  translates (DeleteKeyCommand t (new_NKey k) (Some [])) table Redis.f_del [k] ∧
  translates (RenameKeyCommand t (new_NKey k) n (Some [])) table Redis.f_rename [k; n] ∧
  (if ttl =? -1
   then translates (ChangeKeyTTLCommand t (new_NKey k) ttl (Some [])) table Redis.f_persist [k]
   else translates (ChangeKeyTTLCommand t (new_NKey k) ttl (Some [])) table Redis.f_expire [k; dec_int ttl]).
Proof.
  intros Hp Httl. simpl in Hp. rewrite !andb_true_iff in Hp. destruct Hp as (Hk & Hpn & Hv & _).
  pose proof redis_table as Hok.
  assert (word_fn Redis.redisCommands "SET" 2 = Some Redis.f_set) by (by vm_compute).
  assert (word_fn Redis.redisCommands "GET" 1 = Some Redis.f_get) by (by vm_compute).
  assert (word_fn Redis.redisCommands "LRANGE" 3 = Some Redis.f_lrange) by (by vm_compute).
  assert (word_fn Redis.redisCommands "SMEMBERS" 1 = Some Redis.f_smembers) by (by vm_compute).
  assert (word_fn Redis.redisCommands "ZRANGE" 4 = Some Redis.f_zrange) by (by vm_compute).
  assert (word_fn Redis.redisCommands "HGETALL" 1 = Some Redis.f_hgetall) by (by vm_compute).
  assert (word_fn Redis.redisCommands "DEL" 1 = Some Redis.f_del) by (by vm_compute).
  assert (word_fn Redis.redisCommands "RENAME" 2 = Some Redis.f_rename) by (by vm_compute).
  assert (word_fn Redis.redisCommands "EXPIRE" 2 = Some Redis.f_expire) by (by vm_compute).
  assert (word_fn Redis.redisCommands "PERSIST" 1 = Some Redis.f_persist) by (by vm_compute).
  pose proof (dec_int_plain ttl) as Hd. split_and!.
  - cbn. unfold KeyString, ValueString, ConvertToString. cbn. rewrite toString_string. translate "SET".
  - intros type. destruct type; cbn [redis_loader fst snd];
      [translate "GET"|translate "GET"|translate "GET"|translate "GET"|translate "LRANGE"|translate "SMEMBERS"
      |translate "ZRANGE"|translate "HGETALL"|translate "GET"..].
  - translate "DEL".
  - translate "RENAME".
  - unfold ChangeKeyTTLCommand. cbn [ChangeKeyTTLCommandImpl redis_translator with_cmdstring key_ new_NKey].
    destruct (ttl =? -1); [translate "PERSIST"|translate "EXPIRE"].
Qed.

Lemma ssdb_translated k n v :
  forallb plain_word [k; n; v] = true →
  let t := ssdb_translator in let table := Ssdb.ssdbCommands in
  translates (CreateKeyCommand t (mkNDbKValue (new_NKey k) (Some (VString v))) (Some [])) table Ssdb.f_set [k; v] ∧
  translates (LoadKeyCommand t (new_NKey k) TYPE_STRING (Some [])) table Ssdb.f_get [k] ∧
  translates (LoadKeyCommand t (new_NKey k) TYPE_ZSET (Some [])) table Ssdb.f_zrange [k; lit "0"; lit "-1"] ∧
  translates (DeleteKeyCommand t (new_NKey k) (Some [])) table Ssdb.f_del [k] ∧
  translates (RenameKeyCommand t (new_NKey k) n (Some [])) table Ssdb.f_rename [k; n].
Proof.
  intros Hp. simpl in Hp. rewrite !andb_true_iff in Hp. destruct Hp as (Hk & Hpn & Hv & _).
  assert (table_ok Ssdb.ssdbCommands = true) by (by vm_compute).
  assert (word_fn Ssdb.ssdbCommands "SET" 2 = Some Ssdb.f_set) by (by vm_compute).
  assert (word_fn Ssdb.ssdbCommands "GET" 1 = Some Ssdb.f_get) by (by vm_compute).
  assert (word_fn Ssdb.ssdbCommands "ZRANGE" 3 = Some Ssdb.f_zrange) by (by vm_compute).
  assert (word_fn Ssdb.ssdbCommands "DEL" 1 = Some Ssdb.f_del) by (by vm_compute).
  assert (word_fn Ssdb.ssdbCommands "RENAME" 2 = Some Ssdb.f_rename) by (by vm_compute).
  split_and!.
  - cbn. unfold KeyString, ValueString, ConvertToString. cbn. rewrite toString_string. translate "SET".
  - translate "GET".
  - translate "ZRANGE".
  - translate "DEL".
  - translate "RENAME".
Qed.
End Lines.

(** * Properties *)





(** The texts of the SSDB translator for lists, sets, sorted sets and hashes do not work: SSDB's
    table has no [LPUSH], [SADD], [ZADD], [HMSET], [LRANGE] and [SMEMBERS], and its [HGET] takes two
    arguments, so that the lines are answered with an error and reach no function. *)
Theorem ssdb_container_texts_refused `{CommonLaws} `{Project} (k : bytes) (vs : list bytes)
    (ps : list (bytes * bytes)) :
  forallb plain_word (k :: vs) = true → value_fits vs →
  forallb plain_word (k :: pair_words ps) = true → value_fits (pair_words ps) →
  let t := ssdb_translator in let table := Ssdb.ssdbCommands in
  let create x := CreateKeyCommand t (mkNDbKValue (new_NKey k) (Some x)) (Some []) in
  refused (create (VArray (List.map VString vs))) table ∧
  refused (create (VSet (List.map VString vs))) table ∧
  refused (create (VZSet (string_pairs ps))) table ∧
  refused (create (VHash (string_pairs ps))) table ∧
  refused (LoadKeyCommand t (new_NKey k) TYPE_ARRAY (Some [])) table ∧
  refused (LoadKeyCommand t (new_NKey k) TYPE_SET (Some [])) table ∧
  refused (LoadKeyCommand t (new_NKey k) TYPE_HASH (Some [])) table.
Proof.
  intros Hv [Hvn Hvl] Hq [Hqn Hql] t table create.
  pose proof Hv as Hv'. simpl in Hv'. apply andb_true_iff in Hv' as [Hk Hvs].
  pose proof Hq as Hq'. simpl in Hq'. apply andb_true_iff in Hq' as [_ Hps].
  destruct (value_words vs Hvs Hvn) as [Ha Hs].
  assert (Hpn : ps ≠ []) by (by intros ->). destruct (pair_words_text ps Hps Hpn) as [Hz Hh].
  assert (table_ok table = true) as Hok by (by vm_compute).
  split_and!.
  - apply (refused_create "LPUSH" k vs _ _ Ha); [done|done|vm_compute; reflexivity|done|done|cbn; by rewrite app_nil_r].
  - apply (refused_create "SADD" k vs _ _ Hs); [done|done|vm_compute; reflexivity|done|done|cbn; by rewrite app_nil_r].
  - apply (refused_create "ZADD" k _ _ _ Hz); [done|done|vm_compute; reflexivity|done|done|cbn; by rewrite app_nil_r].
  - apply (refused_create "HMSET" k _ _ _ Hh); [done|done|vm_compute; reflexivity|done|done|cbn; by rewrite app_nil_r].
  - apply (refused_text "LRANGE" _ _ _ [k; lit "0"; lit "-1"]);
      [by cbn|done|by vm_compute|by vm_compute|simpl; by rewrite Hk].
  - apply (refused_text "SMEMBERS" _ _ _ [k]);
      [cbn; by rewrite app_nil_r|done|by vm_compute|by vm_compute|simpl; by rewrite Hk].
  - apply (refused_text "HGET" _ _ _ [k]);
      [cbn; by rewrite app_nil_r|done|by vm_compute|by vm_compute|simpl; by rewrite Hk].
Qed.

Lemma ssdb_container_texts_refused_witness :
  @refused common_ref _
    (@LoadKeyCommand (@ssdb_translator common_ref (lit "FastoNoSQL")) (new_NKey (lit "h")) TYPE_HASH (Some []))
    Ssdb.ssdbCommands.
Proof.
  pose proof (@ssdb_container_texts_refused common_ref common_ref_laws (lit "FastoNoSQL")
    (lit "h") [lit "x"] [(lit "a", lit "1")]) as Hw.
  destruct Hw as (_ & _ & _ & _ & _ & _ & Hh);
    [vm_compute; reflexivity|split; [done|simpl; lia]|vm_compute; reflexivity|split; [done|simpl; lia]|exact Hh].
Defined.

(** Storing a key in Memcached through its translator does not store the value: the text
    [SET key 0 0 value] reaches the function [set], which takes its second argument, the flags [0],
    for the value, whatever the value is. *)
Theorem memcached_create_stores_flags {Cfg H W : Type} `{ConnectionTraits Cfg H W} `{CDBImpl Cfg H W}
    `{KvOps Cfg H W} `{MemOps Cfg H W} `{CommonLaws} (k v : bytes) (s : hst Cfg H W) :
  forallb plain_word [k; v] = true → IsConnected (conn s) = true →
  translates (CreateKeyCommand memcached_translator (mkNDbKValue (new_NKey k) (Some (VString v))) (Some []))
    Memcached.memcachedCommands Memcached.f_set [k; lit "0"; lit "0"; v] ∧
  let line := [lit "SET"; k; lit "0"; lit "0"; v] in
  Execute MemcachedApi.run Memcached.memcachedCommands (argc_of line) (vec [] line) s
  = set_answer k (lit "0") s.
Proof.
  intros Hp Hc. pose proof Hp as Hp'. simpl in Hp'. rewrite !andb_true_iff in Hp'. destruct Hp' as (Hk & Hv & _).
  split.
  - apply (memcached_translated k k v 0); [simpl; by rewrite Hk, Hv|by vm_compute].
  - etransitivity; [eapply (word_line MemcachedApi.run Memcached.memcachedCommands _ [] "SET" [k; lit "0"; lit "0"; v])|];
      [by vm_compute|vm_compute; reflexivity|by apply no_nul_check|by vm_compute|by vm_compute|].
    exact (set_body_spec _ _ k (lit "0") _ s Hc).
Qed.

Lemma memcached_create_stores_flags_witness :
  @Execute common_ref _ _ (@MemcachedApi.run _ _ _ ref_traits (@ref_impl common_ref) ref_kv ref_mem common_ref)
    Memcached.memcachedCommands 5 (vec [] [lit "SET"; lit "k"; lit "0"; lit "0"; lit "v"]) (ref_state ∅)
  = @set_answer _ _ _ ref_traits (@ref_impl common_ref) common_ref (lit "k") (lit "0") (ref_state ∅).
Proof.
  refine (proj2 (@memcached_create_stores_flags _ _ _ ref_traits (@ref_impl common_ref) ref_kv ref_mem
            common_ref common_ref_laws (lit "k") (lit "v") (ref_state ∅) _ _)); vm_compute; reflexivity.
Defined.
