(* ===== verification/SshInfo.v ===== *)
(** Settings of an SSH tunnel: [core/ssh_info.h], [core/ssh_info.cpp]. *)
From Stdlib Require Import Ascii String ZArith Lia.
From stdpp Require Import base list.
From S2P Require Import Prelude Common Texts Values Configs Hiredis.
Local Open Scope Z_scope.
#[local] Set Warnings "-register-all".

Inductive SupportedAuthenticationMetods := UNKNOWN | PASSWORD | PUBLICKEY.
#[export] Instance auth_method_eq_dec : EqDecision SupportedAuthenticationMetods.
Proof. solve_decision. Defined.

(** The value of the enumeration. *)
Definition method_value (m : SupportedAuthenticationMetods) : Z :=
  match m with UNKNOWN => 0 | PASSWORD => 1 | PUBLICKEY => 2 end.

Record SSHInfo := mkSSHInfo {
  ssh_host : HostAndPort;
  user_name : bytes;
  password : bytes;
  public_key : bytes;
  private_key : bytes;
  passphrase : bytes;
  current_method : SupportedAuthenticationMetods
}.

Definition DEFAULT_SSH_PORT : Z := 22.

(** [sshMethods] and the conversions of the enumeration. *)
Definition sshMethods : list (bytes * SupportedAuthenticationMetods) :=
  [(lit "0", UNKNOWN); (lit "1", PASSWORD); (lit "2", PUBLICKEY)].

Definition ConvertToString_method (m : SupportedAuthenticationMetods) : bytes :=
  match m with UNKNOWN => lit "0" | PASSWORD => lit "1" | PUBLICKEY => lit "2" end.
Definition ConvertFromString_method (text : bytes) : SupportedAuthenticationMetods :=
  match List.find (λ p, bool_decide (text = p.1)) sshMethods with Some p => p.2 | None => UNKNOWN end.

(** A text taken apart at its first colon, when it has one. *)
Definition split_colon (line : bytes) : option (bytes * bytes) :=
  delem ← find_first_of ":" line; Some (take delem line, drop (delem + 1) line).

Section SSHInfo.
Context `{CommonLib} `{ConfigLib}.
Implicit Types i : SSHInfo.

Definition SSHInfo_default : SSHInfo :=
  mkSSHInfo (createLocalHost DEFAULT_SSH_PORT) [] []
    (prepare_path (lit "~/.ssh/id_rsa.pub")) (prepare_path (lit "~/.ssh/id_rsa")) [] UNKNOWN.

Definition ssh_line (name : string) (v : bytes) : bytes := lit name ++ ":"%char :: v.

(** The fields with their names, in the order of the text. *)
Definition ssh_lines i : list bytes :=
  [ssh_line "host" (HostAndPort_ToString (ssh_host i)); ssh_line "user" (user_name i);
   ssh_line "password" (password i); ssh_line "publicKey" (public_key i); ssh_line "privateKey" (private_key i);
   ssh_line "passphrase" (passphrase i); ssh_line "currentMethod" (ConvertToString_method (current_method i))].

Definition SSHInfo_ToString i : bytes :=
  List.concat (List.map (λ l, l ++ crlf) (ssh_lines i)).

(** One line of the text. *)
Definition ssh_field i (line : bytes) : SSHInfo :=
  match split_colon line with
  | None => i
  | Some (field, value) =>
    let '(mkSSHInfo h u p pu pr pa m) := i in
    if bool_decide (field = lit "host") then mkSSHInfo (HostAndPort_FromString value) u p pu pr pa m
    else if bool_decide (field = lit "user") then mkSSHInfo h value p pu pr pa m
    else if bool_decide (field = lit "password") then mkSSHInfo h u value pu pr pa m
    else if bool_decide (field = lit "publicKey") then mkSSHInfo h u p value pr pa m
    else if bool_decide (field = lit "privateKey") then mkSSHInfo h u p pu value pa m
    else if bool_decide (field = lit "passphrase") then mkSSHInfo h u p pu pr value m
    else if bool_decide (field = lit "currentMethod") then
      mkSSHInfo h u p pu pr pa (ConvertFromString_method value)
    else i
  end.

(** [SSHInfo(const std::string& text)] *)
Definition SSHInfo_FromString (text : bytes) : SSHInfo :=
  List.fold_left ssh_field (lines_of crlf text) SSHInfo_default.

Definition SSHInfo_IsValid i : bool := negb (bool_decide (current_method i = UNKNOWN)).
Definition AuthMethod i : SupportedAuthenticationMetods := current_method i.
End SSHInfo.

(** * Round trip *)

Lemma find_first_of_at c s r : c ∉ s → find_first_of c (s ++ c :: r) = Some (length s).
Proof.
  induction s as [|x s IH]; intros Hs; simpl.
  - by rewrite Ascii.eqb_refl.
  - apply not_elem_of_cons in Hs as [Hx Hs]. destruct (Ascii.eqb_spec x c); [by subst|].
    by rewrite IH.
Qed.

Lemma split_colon_at f v : ":"%char ∉ f → split_colon (f ++ ":"%char :: v) = Some (f, v).
Proof.
  intros Hf. unfold split_colon. rewrite find_first_of_at by done. simpl.
  rewrite take_app_length. do 2 f_equal.
  rewrite Nat.add_1_r. change (f ++ ":"%char :: v) with (f ++ [":"%char] ++ v).
  replace (S (length f)) with (length (f ++ [":"%char])) by (rewrite length_app; simpl; lia).
  by rewrite app_assoc, drop_app_length.
Qed.

(** The line of a field, for the names that occur. *)
Lemma split_field (name : string) v :
  existsb (Ascii.eqb ":"%char) (lit name) = false →
  split_colon (ssh_line name v) = Some (lit name, v).
Proof.
  intros Hn. apply split_colon_at. intros Hin%list_elem_of_In.
  assert (existsb (Ascii.eqb ":"%char) (lit name) = true) by (apply existsb_exists; by exists ":"%char).
  congruence.
Qed.

Lemma method_roundtrip m : ConvertFromString_method (ConvertToString_method m) = m.
Proof. by destruct m. Qed.

(** The settings that survive: no field contains a carriage return, and the address converts to a
    text and back. *)
Record ssh_plain `{CommonLib} (i : SSHInfo) : Prop := {
  plain_fields : Forall (λ s, chr_cr ∉ s)
    [HostAndPort_ToString (ssh_host i); user_name i; password i; public_key i; private_key i; passphrase i];
  plain_address : HostAndPort_FromString (HostAndPort_ToString (ssh_host i)) = ssh_host i
}.

Lemma no_cr_name (s : string) v :
  existsb (Ascii.eqb chr_cr) (lit s) = false → chr_cr ∉ v → chr_cr ∉ ssh_line s v.
Proof.
  intros Hs Hv Hin. apply elem_of_app in Hin as [Hin|Hin];
    [|apply elem_of_cons in Hin as [|Hin]; done].
  apply list_elem_of_In in Hin.
  assert (existsb (Ascii.eqb chr_cr) (lit s) = true) by (apply existsb_exists; by exists chr_cr). congruence.
Qed.

Lemma ssh_info_roundtrip `{CommonLib} `{ConfigLib} (i : SSHInfo) :
  ssh_plain i → SSHInfo_FromString (SSHInfo_ToString i) = i.
Proof.
  intros [Hf Ha]. unfold SSHInfo_FromString, SSHInfo_ToString.
  rewrite <- (app_nil_r (List.concat _)). unfold crlf. rewrite lines_of_concat; [|..|by apply not_elem_of_nil].
  - unfold ssh_lines, ssh_field. cbn [List.fold_left].
    rewrite !split_field by done.
    destruct i as [h u p pu pr pa m]. simpl in *. unfold SSHInfo_default. simpl.
    by rewrite Ha, method_roundtrip.
  - rewrite !Forall_cons in Hf. destruct Hf as (? & ? & ? & ? & ? & ? & _).
    unfold ssh_lines. repeat (apply Forall_cons; split; [apply no_cr_name; [done|]|]); try done.
    destruct (current_method i); intros Hin%list_elem_of_In; simpl in Hin; by destruct Hin.
Qed.
