(* ===== verification/RedisReply.v ===== *)
(** What the Redis connection does with texts and replies: the helpers at the top of
    [core/redis/db_connection.cpp] and its conversions of replies to values and output objects. *)
From Stdlib Require Import Ascii String ZArith Lia.
From stdpp Require Import base list.
From S2P Require Import Prelude Common Texts Values Sds HiredisReader HiredisContext.
Local Open Scope Z_scope.
#[local] Set Warnings "-register-all".

(** * The common library, as far as only this connection calls it

    The containers keep their elements in an order of their own. *)
Class CommonRedis := {
  strcasestr : bytes → bytes → bool;
  c_strornull : bytes → option bytes;
  SNPrintf : Z → bytes → list fmt_arg → bytes;
  SetValue_insert : list value → value → list value;
  ZSetValue_insert : list (value * value) → value → value → list (value * value);
  HashValue_insert : list (value * value) → value → value → list (value * value)
}.

Class CommonRedisLaws `{CommonRedis} : Prop := {
  strcasestr_spec : ∀ s p, strcasestr s p = bool_decide (is_Some (find_sub (lower p) (lower s)));
  c_strornull_empty : c_strornull [] = None;
  c_strornull_text : ∀ s, s ≠ [] → c_strornull s = Some s;
  SNPrintf_spec : ∀ size fmt args t,
    printf_ref fmt args = Some t → Z.of_nat (length t) < size → SNPrintf size fmt args = t;
  SNPrintf_fits : ∀ size fmt args, 0 < size → Z.of_nat (length (SNPrintf size fmt args)) < size;
  SetValue_insert_elem : ∀ l v x, In x (SetValue_insert l v) ↔ In x l ∨ x = v;
  ZSetValue_insert_elem : ∀ l s m x, In x (ZSetValue_insert l s m) ↔ In x l ∨ x = (s, m);
  HashValue_insert_elem : ∀ l k v x,
    ¬ In k (List.map fst l) → In x (HashValue_insert l k v) ↔ In x l ∨ x = (k, v)
}.

Definition common_redis_ref : CommonRedis := {|
  strcasestr s p := bool_decide (is_Some (find_sub (lower p) (lower s)));
  c_strornull s := if decide (s = []) then None else Some s;
  SNPrintf size fmt args := take (Z.to_nat (size - 1)) (default [] (printf_ref fmt args));
  SetValue_insert l v := l ++ [v];
  ZSetValue_insert l s m := l ++ [(s, m)];
  HashValue_insert l k v := l ++ [(k, v)]
|}.

Lemma in_snoc {A} (l : list A) v x : In x (l ++ [v]) ↔ In x l ∨ x = v.
Proof. rewrite in_app_iff. simpl. intuition congruence. Qed.

Lemma common_redis_ref_laws : @CommonRedisLaws common_redis_ref.
Proof.
  split; try done; cbn.
  - intros s Hs. by rewrite decide_False.
  - intros size fmt args t Ht Hl. rewrite Ht. simpl. rewrite take_ge; [done|lia].
  - intros size fmt args Hs. rewrite length_take. lia.
  - intros. apply in_snoc.
  - intros. apply in_snoc.
  - intros. apply in_snoc.
Qed.

(** * The texts of [INFO] *)

Definition long_arith (z : Z) : outcome Z :=
  if (LLONG_MIN <=? z) && (z <=? LLONG_MAX) then Val z else Fault SignedOverflow.

Section Info.
Context `{Alloc} `{CommonRedis}.

(** [info] is the memory of the text with its terminator. *)
Definition getInfoField (info field : bytes) : outcome (option bytes) :=
  match find_sub field (c_str info) with
  | None => Val None
  | Some k =>
    let p := (k + length field + 1)%nat in
    n1 ← strchr_at info p chr_cr;
    n2 ← strchr_at info p ",";
    let n1 := match n1, n2 with
              | Some a, Some b => if (b <? a)%nat then Some b else Some a
              | _, _ => n1
              end in
    n1 ← deref n1;
    _ ← deref (malloc (Z.of_nat (n1 - p) + 1));
    result ← mem_read info (Z.of_nat p) (Z.of_nat (n1 - p));
    Val (Some result)
  end.

Definition getLongInfoField (info field : bytes) : outcome Z :=
  o ← getInfoField info field;
  Val (match o with None => LLONG_MIN | Some value => strtol value end).

(** [common::SNPrintf(buf + pos, len, ...)] *)
Definition snprintf_at (buf : bytes) (pos len : Z) (fmt : string) (args : list fmt_arg) : outcome bytes :=
  mem_write buf pos (SNPrintf len (lit fmt) args ++ [NUL]).

(** The division is one of integers, converted to [double] afterwards. *)
Definition bytesToHuman (buf : bytes) (len n : Z) : outcome bytes :=
  '(buf, s, n) ←
    (if n <? 0 then buf ← mem_write buf 0 (lit "-"); n ← long_arith (- n); Val (buf, 1, n)
     else Val (buf, 0, n));
  if n <? 1024 then snprintf_at buf s len "%lluB" [FInt n]
  else if n <? 1024 * 1024 then snprintf_at buf s len "%.2fK" [FDouble (n / 1024)]
  else if n <? 1024 * 1024 * 1024 then snprintf_at buf s len "%.2fM" [FDouble (n / (1024 * 1024))]
  else if n <? 1024 * 1024 * 1024 * 1024 then
    snprintf_at buf s len "%.2fG" [FDouble (n / (1024 * 1024 * 1024))]
  else Val buf.
End Info.

(** * Commands that cannot be sent ahead of the replies *)

Definition isPipeLineCommand (command : option bytes) : bool :=
  match command with
  | None => false
  | Some command =>
    negb (existsb (λ w, strcaseeq command (lit w))
            ["quit"; "exit"; "connect"; "help"; "?"; "shutdown"; "monitor"; "subscribe";
             "psubscribe"; "sync"; "psync"]%string)
  end.

(** * Replies to values *)

Definition RTYPE_STRING : Z := 0.
Definition RTYPE_LIST : Z := 1.
Definition RTYPE_SET : Z := 2.
Definition RTYPE_HASH : Z := 3.
Definition RTYPE_ZSET : Z := 4.
Definition RTYPE_NONE : Z := 5.

Section Replies.
Context `{CommonLib}.

Definition unknown_reply (type : Z) : bytes := MemSPrintf (lit "Unknown reply type: %d") [FInt type].

(** The value that is stored through [out] when there is no error. *)
Fixpoint valueFromReplay (r : redisReply) : outcome (Error * option value) :=
  match r with
  | RpNil => Val (no_error, Some VNull)
  | RpString t s =>
    if t =? REDIS_REPLY_ERROR then Val (make_error_value s E_ERROR, None)
    else if (t =? REDIS_REPLY_STATUS) || (t =? REDIS_REPLY_STRING) then Val (no_error, Some (VString s))
    else Val (make_error_value (unknown_reply t) E_ERROR, None)
  | RpInteger n => Val (no_error, Some (VInteger n))
  | RpArray n l =>
    if negb (n =? Z.of_nat (length l)) then Fault NullPointer
    else
      (fix go l arv := match l with
                       | [] => Val (no_error, Some (VArray arv))
                       | e :: l => '(er, val) ← valueFromReplay e;
                                   if isError er then Val (er, None)
                                   else val ← deref val; go l (arv ++ [val])
                       end) l []
  end.

(** The result and [*res]. *)
Definition toIntType (key type : bytes) (res : Z) : Error * Z :=
  if strcmp_eq type (lit "string") then (no_error, RTYPE_STRING)
  else if strcmp_eq type (lit "list") then (no_error, RTYPE_LIST)
  else if strcmp_eq type (lit "set") then (no_error, RTYPE_SET)
  else if strcmp_eq type (lit "hash") then (no_error, RTYPE_HASH)
  else if strcmp_eq type (lit "zset") then (no_error, RTYPE_ZSET)
  else if strcmp_eq type (lit "none") then (no_error, RTYPE_NONE)
  else (make_error_value (MemSPrintf (lit "Unknown type '%s' for key '%s'") [FStr type; FStr key]) E_ERROR,
        res).

(** For a context that is not null. *)
Definition cliPrintContextError (context : redisContext) : Error :=
  make_error_value (MemSPrintf (lit "Error: %s") [FStr (c_errstr context)]) E_ERROR.

(** [val->getAsList] *)
Definition getAsList (v : value) : option (list value) := match v with VArray l => Some l | _ => None end.
End Replies.

Section Containers.
Context `{CommonRedis}.

(** The loops over the array of a reply: elements, and pairs of elements with [i += 2]; a last
    element without partner is dropped. *)
Definition set_of_array (arr : list value) : list value := List.fold_left SetValue_insert arr [].

Fixpoint zset_of_array (arr : list value) (zset : list (value * value)) : list (value * value) :=
  match arr with
  | lmember :: lscore :: arr => zset_of_array arr (ZSetValue_insert zset lscore lmember)
  | _ => zset
  end.

Fixpoint hash_of_array (arr : list value) (hash : list (value * value)) : list (value * value) :=
  match arr with
  | lkey :: lvalue :: arr => hash_of_array arr (HashValue_insert hash lkey lvalue)
  | _ => hash
  end.
End Containers.

(** * Replies to output objects *)

Section Format.
Context `{CommonLib} `{CommonRedis}.
Variable delimiter : bytes.

(** [CliFormatReplyRaw(FastoObjectArray*, ...)]: an array inside an array becomes a child object. *)
Fixpoint CliFormatReplyRaw_array (ar : FastoObject) (r : redisReply) : outcome FastoObject :=
  match r with
  | RpNil => Val (FastoObjectArray_Append ar VNull)
  | RpString t s =>
    Val (FastoObjectArray_Append ar
           (if t =? REDIS_REPLY_ERROR then VError s
            else if (t =? REDIS_REPLY_STATUS) || (t =? REDIS_REPLY_STRING) then VString s
            else VError (unknown_reply t)))
  | RpInteger n => Val (FastoObjectArray_Append ar (VInteger n))
  | RpArray n l =>
    if negb (n =? Z.of_nat (length l)) then Fault NullPointer
    else
      child ← (fix go l child := match l with
                                 | [] => Val child
                                 | e :: l => child ← CliFormatReplyRaw_array child e; go l child
                                 end) l (new_FastoObjectArray [] delimiter);
      Val (AddChildren ar child)
  end.

(** [CliFormatReplyRaw(FastoObject*, ...)], with the value of [isAuth_]. *)
Definition CliFormatReplyRaw (out : FastoObject) (isAuth : bool) (r : redisReply)
    : outcome (Error * FastoObject * bool) :=
  match r with
  | RpNil => Val (no_error, AddChildren out (new_FastoObject VNull delimiter), isAuth)
  | RpString t s =>
    if t =? REDIS_REPLY_ERROR then
      Val (make_error_value s E_ERROR, out, if strcasestr (c_str s) (lit "NOAUTH") then false else isAuth)
    else if (t =? REDIS_REPLY_STATUS) || (t =? REDIS_REPLY_STRING) then
      Val (no_error, AddChildren out (new_FastoObject (VString s) delimiter), isAuth)
    else Val (make_error_value (unknown_reply t) E_ERROR, out, isAuth)
  | RpInteger n => Val (no_error, AddChildren out (new_FastoObject (VInteger n) delimiter), isAuth)
  | RpArray _ _ => out ← CliFormatReplyRaw_array out r; Val (no_error, out, isAuth)
  end.
End Format.

(** * Redirections of a cluster

    The text of the reply is cut in place: ["MOVED 3999 127.0.0.1:6381"]. *)

Definition is_redirection (s : bytes) : bool :=
  strncmp_eq s (lit "MOVED") 5 || strcmp_eq s (lit "ASK").

(** The slot and the address. *)
Definition redirection `{CommonLib} (str : bytes) : outcome (Z * HostAndPort) :=
  let m := str ++ [NUL] in
  s ← strchr_at m 0 " "; s ← deref s;
  p ← strchr_at m (s + 1) " "; p ← deref p;
  m ← mem_write m (Z.of_nat p) [NUL];
  let slot := FromString_int (c_str (drop (s + 1) m)) in
  s ← strchr_at m (p + 1) ":"; s ← deref s;
  m ← mem_write m (Z.of_nat s) [NUL];
  Val (slot, mkHostAndPort (c_str (drop (p + 1) m)) (FromString_uint16 (c_str (drop (s + 1) m)))).
