(* ===== verification/RedisApi.v ===== *)
(** The command functions of [core/redis/internal/commands_api.cpp]. *)
From Stdlib Require Import Ascii String ZArith Lia.
From stdpp Require Import base list strings.
From S2P Require Import Prelude Common Texts Values Connection Commands Handlers RedisTable.
Local Open Scope Z_scope.

(** The members of [redis::DBConnection] that the functions call besides those of [CDBConnection].  A
    [FastoObject* out] and a loaded key are passed in and returned. *)
Class RedisOps (Cfg H W : Type) := {
  redis_CommonExec : Z → argv_t → FastoObject → CDBConnection Cfg H W →
    outcome (Error * FastoObject * CDBConnection Cfg H W);
  redis_Auth : bytes → CDBConnection Cfg H W → outcome (Error * CDBConnection Cfg H W);
  redis_Help : Z → argv_t → FastoObject → CDBConnection Cfg H W →
    outcome (Error * FastoObject * CDBConnection Cfg H W);
  redis_Monitor : Z → argv_t → FastoObject → CDBConnection Cfg H W →
    outcome (Error * FastoObject * CDBConnection Cfg H W);
  redis_Subscribe : Z → argv_t → FastoObject → CDBConnection Cfg H W →
    outcome (Error * FastoObject * CDBConnection Cfg H W);
  redis_SlaveMode : FastoObject → CDBConnection Cfg H W →
    outcome (Error * FastoObject * CDBConnection Cfg H W);
  redis_Lrange : NKey → Z → Z → NDbKValue → CDBConnection Cfg H W →
    outcome (Error * NDbKValue * CDBConnection Cfg H W);
  redis_Smembers : NKey → NDbKValue → CDBConnection Cfg H W →
    outcome (Error * NDbKValue * CDBConnection Cfg H W);
  redis_Zrange : NKey → Z → Z → bool → NDbKValue → CDBConnection Cfg H W →
    outcome (Error * NDbKValue * CDBConnection Cfg H W);
  redis_Hgetall : NKey → NDbKValue → CDBConnection Cfg H W →
    outcome (Error * NDbKValue * CDBConnection Cfg H W)
}.

Module RedisApi.
Section Api.
Context {Cfg H W : Type} `{ConnectionTraits Cfg H W} `{CDBImpl Cfg H W} `{RedisOps Cfg H W} `{CommonLib}.
Local Abbreviation handler := (handler (hst Cfg H W)).

(** A member that writes to [out]. *)
Definition on_out (m : FastoObject → CDBConnection Cfg H W → outcome (Error * FastoObject * CDBConnection Cfg H W))
    (s : hst Cfg H W) : outcome (Error * hst Cfg H W) :=
  '(err, o, c) ← m (out s) (conn s); Val (err, mkHst c o).

Definition common_exec : handler := λ argc argv s,
  on_out (redis_CommonExec (argc + 1) (ashift argv (-1))) s.
Definition common_exec_off2 : handler := λ argc argv s,
  on_out (redis_CommonExec (argc + 2) (ashift argv (-2))) s.

Definition auth : handler := λ argc argv s,
  a ← aget_str argv 0;
  '(err, c) ← redis_Auth a (conn s);
  unless_error err (add_value OK_value) (with_conn s c).

Definition quit : handler := quit_body.
Definition select : handler := select_body.
Definition del : handler := del_body.
Definition set : handler := set_body.
Definition get : handler := get_body.

(** The end of the functions that load a container. *)
Definition answer_load (r : outcome (Error * NDbKValue * CDBConnection Cfg H W)) (s : hst Cfg H W)
    : outcome (Error * hst Cfg H W) :=
  '(err, key_loaded, c) ← r;
  if isError err then Val (err, with_conn s c) else answer_loaded key_loaded (with_conn s c).

Definition lrange : handler := λ argc argv s,
  k ← aget_str argv 0; a ← aget_str argv 1; b ← aget_str argv 2;
  answer_load (redis_Lrange (new_NKey k) (FromString_int a) (FromString_int b) NDbKValue_default (conn s)) s.

Definition smembers : handler := λ argc argv s,
  k ← aget_str argv 0;
  answer_load (redis_Smembers (new_NKey k) NDbKValue_default (conn s)) s.

(** [argc == 4 && strncmp(argv[3], "WITHSCORES", 10) == 0] *)
Definition with_scores (argc : Z) (argv : argv_t) : outcome bool :=
  if argc =? 4 then w ← aget_str argv 3; Val (strncmp_eq w (lit "WITHSCORES") 10) else Val false.

Definition zrange : handler := λ argc argv s,
  k ← aget_str argv 0; a ← aget_str argv 1; b ← aget_str argv 2;
  ws ← with_scores argc argv;
  answer_load (redis_Zrange (new_NKey k) (FromString_int a) (FromString_int b) ws NDbKValue_default (conn s)) s.

Definition hgetall : handler := λ argc argv s,
  k ← aget_str argv 0;
  answer_load (redis_Hgetall (new_NKey k) NDbKValue_default (conn s)) s.

Definition rename : handler := rename_body.

(** The answer is [0] with the error, or [1]. *)
Definition answer_ttl (key : NKey) (ttl : Z) (s : hst Cfg H W) : outcome (Error * hst Cfg H W) :=
  '(err, c) ← SetTTL key ttl (conn s);
  if isError err then Val (err, add_value (VUInteger 0) (with_conn s c))
  else Val (no_error, add_value (VUInteger 1) (with_conn s c)).

Definition persist : handler := λ argc argv s,
  k ← aget_str argv 0; answer_ttl (new_NKey k) NO_TTL s.

Definition expire : handler := λ argc argv s,
  k ← aget_str argv 0; t ← aget_str argv 1; answer_ttl (new_NKey k) (FromString_int t) s.

Definition help : handler := λ argc argv s, on_out (redis_Help argc argv) s.
Definition monitor : handler := λ argc argv s,
  on_out (redis_Monitor (argc + 1) (ashift argv (-1))) s.
Definition subscribe : handler := λ argc argv s,
  on_out (redis_Subscribe (argc + 1) (ashift argv (-1))) s.
Definition sync : handler := λ argc argv s, on_out redis_SlaveMode s.

Definition run (f : Redis.fn) : handler :=
  match f with
  | Redis.f_common_exec => common_exec | Redis.f_common_exec_off2 => common_exec_off2
  | Redis.f_select => select | Redis.f_del => del | Redis.f_get => get | Redis.f_lrange => lrange
  | Redis.f_smembers => smembers | Redis.f_zrange => zrange | Redis.f_hgetall => hgetall
  | Redis.f_set => set | Redis.f_rename => rename | Redis.f_persist => persist
  | Redis.f_expire => expire | Redis.f_quit => quit | Redis.f_auth => auth | Redis.f_help => help
  | Redis.f_monitor => monitor | Redis.f_subscribe => subscribe | Redis.f_sync => sync
  end.
End Api.

(** * Safety of the table *)

(** The members return when the arguments they are given can be read, and leave a value in a loaded
    key when they succeed. *)
Definition load_answers `{CommonLib} {C} (r : outcome (Error * NDbKValue * C)) : Prop :=
  ∃ e kv c, r = Val (e, kv, c) ∧ (isError e = false → is_Some (nkv_value kv)).

Class RedisReturns (Cfg H W : Type) `{RedisOps Cfg H W} `{CommonLib} : Prop := {
  CommonExec_returns argc p o (c : CDBConnection Cfg H W) : argv_ok argc p → is_val (redis_CommonExec argc p o c);
  Auth_returns a (c : CDBConnection Cfg H W) : is_val (redis_Auth a c);
  Help_returns argc p o (c : CDBConnection Cfg H W) : argv_ok argc p → is_val (redis_Help argc p o c);
  Monitor_returns argc p o (c : CDBConnection Cfg H W) : argv_ok argc p → is_val (redis_Monitor argc p o c);
  Subscribe_returns argc p o (c : CDBConnection Cfg H W) : argv_ok argc p → is_val (redis_Subscribe argc p o c);
  SlaveMode_returns o (c : CDBConnection Cfg H W) : is_val (redis_SlaveMode o c);
  Lrange_returns k a b kv (c : CDBConnection Cfg H W) : load_answers (redis_Lrange k a b kv c);
  Smembers_returns k kv (c : CDBConnection Cfg H W) : load_answers (redis_Smembers k kv c);
  Zrange_returns k a b ws kv (c : CDBConnection Cfg H W) : load_answers (redis_Zrange k a b ws kv c);
  Hgetall_returns k kv (c : CDBConnection Cfg H W) : load_answers (redis_Hgetall k kv c)
}.

(** One more than the largest constant index of [argv] a function reads. *)
Definition fn_min (f : Redis.fn) : Z :=
  match f with
  | Redis.f_select | Redis.f_get | Redis.f_smembers | Redis.f_hgetall | Redis.f_persist | Redis.f_auth => 1
  | Redis.f_set | Redis.f_rename | Redis.f_expire => 2
  | Redis.f_lrange | Redis.f_zrange => 3
  | _ => 0
  end.

(** The words of the name that a function takes back. *)
Definition fn_words (f : Redis.fn) (k : Z) : bool :=
  match f with
  | Redis.f_common_exec | Redis.f_monitor | Redis.f_subscribe => k =? 1
  | Redis.f_common_exec_off2 => k =? 2
  | _ => true
  end.

Section Safety.
Context {Cfg H W : Type} `{ConnectionTraits Cfg H W} `{CDBImpl Cfg H W} `{RedisOps Cfg H W} `{CommonLaws}
  `{!ImplReturns (Cfg := Cfg) (H := H) (W := W)} `{!GetLoads} `{!RedisReturns Cfg H W}.
Implicit Types s : hst Cfg H W.

Lemma on_out_val m s : (∀ o c, is_val (m o c)) → is_val (on_out m s).
Proof.
  intros Hm. unfold on_out. destruct (Hm (out s) (conn s)) as [[[e o] c] ->]. by eexists.
Qed.

Lemma answer_load_val r s : load_answers r → is_val (answer_load r s).
Proof.
  intros (e & kv & c & -> & Hv). unfold answer_load. cbn [mbind outcome_bind].
  destruct (isError e); [by eexists|]. unfold answer_loaded. destruct (Hv eq_refl) as [v ->]. by eexists.
Qed.

Lemma answer_ttl_val k t s : is_val (answer_ttl k t s).
Proof.
  unfold answer_ttl. destruct (SetTTL_returns k t (conn s)) as [[e c] ->]. cbn [mbind outcome_bind].
  destruct (isError e); by eexists.
Qed.

Hint Resolve answer_ttl_val : fasto.

Lemma run_safe f k hi : 0 <= k → fn_words f k = true → safe_handler k (fn_min f) hi (run f).
Proof.
  intros Hk Hw. destruct f; simpl in *; eauto with fasto zarith;
    try apply Z.eqb_eq in Hw; try subst k;
    intros argc p s Hp Hr; cbv delta [common_exec common_exec_off2 auth lrange smembers zrange hgetall persist
      expire help monitor subscribe sync] beta;
    repeat arg_step; auto with fasto;
    try (apply on_out_val; intros o c);
    try (apply answer_load_val);
    eauto using CommonExec_returns, Monitor_returns, Subscribe_returns, SlaveMode_returns, Lrange_returns,
      Smembers_returns, Hgetall_returns.
  - unfold with_scores. destruct (Z.eqb_spec argc 4) as [->|].
    + assert (is_val (aget_str p 3)) as [w ->]
        by (eapply aget_str_ok; [by eapply argv_ok_shift; [exact Hp|lia|lia]|lia]).
      cbn [mbind outcome_bind]. apply answer_load_val, Zrange_returns.
    + cbn [mbind outcome_bind]. apply answer_load_val, Zrange_returns.
  - destruct (Auth_returns x (conn s)) as [[e c] ->]. cbn [mbind outcome_bind]. auto with fasto.
  - apply Help_returns. eapply argv_ok_shift; [exact Hp|lia|lia].
Qed.

Lemma redis_table_safe : table_safe run Redis.redisCommands.
Proof.
  apply (table_safe_by run fn_min fn_words); [apply run_safe|]. by vm_compute.
Qed.
End Safety.
End RedisApi.
