(* ===== verification/RedisHelp.v ===== *)
(** The help of the Redis client: the table of [third-party/redis/src/help.h], in chunks of consecutive
    entries, and its output in [core/redis/db_connection.cpp]. *)
From Stdlib Require Import Ascii String ZArith Lia.
From stdpp Require Import base list strings.
From S2P Require Import Prelude Common Texts Values Translators SdsArgs Connection.
Local Open Scope Z_scope.

Definition commandGroups : list bytes := List.map lit
  ["generic"; "string"; "list"; "set"; "sorted_set"; "hash"; "pubsub"; "transactions"; "connection";
   "server"; "scripting"; "hyperloglog"; "cluster"; "geo"]%string.

Record commandHelp := mkHelp {
  help_name : bytes;
  help_params : bytes;
  help_summary : bytes;
  help_group : Z;
  help_since : bytes
}.

Definition Help (nm ps sm : string) (group : Z) (since : string) : commandHelp :=
  mkHelp (lit nm) (lit ps) (lit sm) group (lit since).

(** APPEND to CLUSTER REPLICATE. *)
Definition commandHelp_01 : list commandHelp := [
    Help "APPEND" "key value"
      "Append a value to a key" 1 "2.0.0";
    Help "AUTH" "password"
      "Authenticate to the server" 8 "1.0.0";
    Help "BGREWRITEAOF" "-"
      "Asynchronously rewrite the append-only file" 9 "1.0.0";
    Help "BGSAVE" "-"
      "Asynchronously save the dataset to disk" 9 "1.0.0";
    Help "BITCOUNT" "key [start end]"
      "Count set bits in a string" 1 "2.6.0";
    Help "BITOP" "operation destkey key [key ...]"
      "Perform bitwise operations between strings" 1 "2.6.0";
    Help "BITPOS" "key bit [start] [end]"
      "Find first bit set or clear in a string" 1 "2.8.7";
    Help "BLPOP" "key [key ...] timeout"
      "Remove and get the first element in a list, or block until one is available" 2 "2.0.0";
    Help "BRPOP" "key [key ...] timeout"
      "Remove and get the last element in a list, or block until one is available" 2 "2.0.0";
    Help "BRPOPLPUSH" "source destination timeout"
      "Pop a value from a list, push it to another list and return it; or block until one is available" 2 "2.2.0";
    Help "CLIENT GETNAME" "-"
      "Get the current connection name" 9 "2.6.9";
    Help "CLIENT KILL" "[ip:port] [ID client-id] [TYPE normal|master|slave|pubsub] [ADDR ip:port] [SKIPME yes/no]"
      "Kill the connection of a client" 9 "2.4.0";
    Help "CLIENT LIST" "-"
      "Get the list of client connections" 9 "2.4.0";
    Help "CLIENT PAUSE" "timeout"
      "Stop processing commands from clients for some time" 9 "2.9.50";
    Help "CLIENT REPLY" "ON|OFF|SKIP"
      "Instruct the server whether to reply to commands" 9 "3.2";
    Help "CLIENT SETNAME" "connection-name"
      "Set the current connection name" 9 "2.6.9";
    Help "CLUSTER ADDSLOTS" "slot [slot ...]"
      "Assign new hash slots to receiving node" 12 "3.0.0";
    Help "CLUSTER COUNT-FAILURE-REPORTS" "node-id"
      "Return the number of failure reports active for a given node" 12 "3.0.0";
    Help "CLUSTER COUNTKEYSINSLOT" "slot"
      "Return the number of local keys in the specified hash slot" 12 "3.0.0";
    Help "CLUSTER DELSLOTS" "slot [slot ...]"
      "Set hash slots as unbound in receiving node" 12 "3.0.0";
    Help "CLUSTER FAILOVER" "[FORCE|TAKEOVER]"
      "Forces a slave to perform a manual failover of its master." 12 "3.0.0";
    Help "CLUSTER FORGET" "node-id"
      "Remove a node from the nodes table" 12 "3.0.0";
    Help "CLUSTER GETKEYSINSLOT" "slot count"
      "Return local key names in the specified hash slot" 12 "3.0.0";
    Help "CLUSTER INFO" "-"
      "Provides info about Redis Cluster node state" 12 "3.0.0";
    Help "CLUSTER KEYSLOT" "key"
      "Returns the hash slot of the specified key" 12 "3.0.0";
    Help "CLUSTER MEET" "ip port"
      "Force a node cluster to handshake with another node" 12 "3.0.0";
    Help "CLUSTER NODES" "-"
      "Get Cluster config for the node" 12 "3.0.0";
    Help "CLUSTER REPLICATE" "node-id"
      "Reconfigure a node as a slave of the specified master node" 12 "3.0.0"].

(** CLUSTER RESET to EXPIRE. *)
Definition commandHelp_02 : list commandHelp := [
    Help "CLUSTER RESET" "[HARD|SOFT]"
      "Reset a Redis Cluster node" 12 "3.0.0";
    Help "CLUSTER SAVECONFIG" "-"
      "Forces the node to save cluster state on disk" 12 "3.0.0";
    Help "CLUSTER SET-CONFIG-EPOCH" "config-epoch"
      "Set the configuration epoch in a new node" 12 "3.0.0";
    Help "CLUSTER SETSLOT" "slot IMPORTING|MIGRATING|STABLE|NODE [node-id]"
      "Bind a hash slot to a specific node" 12 "3.0.0";
    Help "CLUSTER SLAVES" "node-id"
      "List slave nodes of the specified master node" 12 "3.0.0";
    Help "CLUSTER SLOTS" "-"
      "Get array of Cluster slot to node mappings" 12 "3.0.0";
    Help "COMMAND" "-"
      "Get array of Redis command details" 9 "2.8.13";
    Help "COMMAND COUNT" "-"
      "Get total number of Redis commands" 9 "2.8.13";
    Help "COMMAND GETKEYS" "-"
      "Extract keys given a full Redis command" 9 "2.8.13";
    Help "COMMAND INFO" "command-name [command-name ...]"
      "Get array of specific Redis command details" 9 "2.8.13";
    Help "CONFIG GET" "parameter"
      "Get the value of a configuration parameter" 9 "2.0.0";
    Help "CONFIG RESETSTAT" "-"
      "Reset the stats returned by INFO" 9 "2.0.0";
    Help "CONFIG REWRITE" "-"
      "Rewrite the configuration file with the in memory configuration" 9 "2.8.0";
    Help "CONFIG SET" "parameter value"
      "Set a configuration parameter to the given value" 9 "2.0.0";
    Help "DBSIZE" "-"
      "Return the number of keys in the selected database" 9 "1.0.0";
    Help "DEBUG OBJECT" "key"
      "Get debugging information about a key" 9 "1.0.0";
    Help "DEBUG SEGFAULT" "-"
      "Make the server crash" 9 "1.0.0";
    Help "DECR" "key"
      "Decrement the integer value of a key by one" 1 "1.0.0";
    Help "DECRBY" "key decrement"
      "Decrement the integer value of a key by the given number" 1 "1.0.0";
    Help "DEL" "key [key ...]"
      "Delete a key" 0 "1.0.0";
    Help "DISCARD" "-"
      "Discard all commands issued after MULTI" 7 "2.0.0";
    Help "DUMP" "key"
      "Return a serialized version of the value stored at the specified key." 0 "2.6.0";
    Help "ECHO" "message"
      "Echo the given string" 8 "1.0.0";
    Help "EVAL" "script numkeys key [key ...] arg [arg ...]"
      "Execute a Lua script server side" 10 "2.6.0";
    Help "EVALSHA" "sha1 numkeys key [key ...] arg [arg ...]"
      "Execute a Lua script server side" 10 "2.6.0";
    Help "EXEC" "-"
      "Execute all commands issued after MULTI" 7 "1.2.0";
    Help "EXISTS" "key [key ...]"
      "Determine if a key exists" 0 "1.0.0";
    Help "EXPIRE" "key seconds"
      "Set a key's time to live in seconds" 0 "1.0.0"].

(** EXPIREAT to HVALS. *)
Definition commandHelp_03 : list commandHelp := [
    Help "EXPIREAT" "key timestamp"
      "Set the expiration for a key as a UNIX timestamp" 0 "1.2.0";
    Help "FLUSHALL" "-"
      "Remove all keys from all databases" 9 "1.0.0";
    Help "FLUSHDB" "-"
      "Remove all keys from the current database" 9 "1.0.0";
    Help "GEOADD" "key longitude latitude member [longitude latitude member ...]"
      "Add one or more geospatial items in the geospatial index represented using a sorted set" 13 "";
    Help "GEODIST" "key member1 member2 [unit]"
      "Returns the distance between two members of a geospatial index" 13 "";
    Help "GEOHASH" "key member [member ...]"
      "Returns members of a geospatial index as standard geohash strings" 13 "";
    Help "GEOPOS" "key member [member ...]"
      "Returns longitude and latitude of members of a geospatial index" 13 "";
    Help "GEORADIUS" "key longitude latitude radius m|km|ft|mi [WITHCOORD] [WITHDIST] [WITHHASH] [COUNT count] [ASC|DESC]"
      "Query a sorted set representing a geospatial index to fetch members matching a given maximum distance from a point" 13 "";
    Help "GEORADIUSBYMEMBER" "key member radius m|km|ft|mi [WITHCOORD] [WITHDIST] [WITHHASH] [COUNT count] [ASC|DESC]"
      "Query a sorted set representing a geospatial index to fetch members matching a given maximum distance from a member" 13 "";
    Help "GET" "key"
      "Get the value of a key" 1 "1.0.0";
    Help "GETBIT" "key offset"
      "Returns the bit value at offset in the string value stored at key" 1 "2.2.0";
    Help "GETRANGE" "key start end"
      "Get a substring of the string stored at a key" 1 "2.4.0";
    Help "GETSET" "key value"
      "Set the string value of a key and return its old value" 1 "1.0.0";
    Help "HDEL" "key field [field ...]"
      "Delete one or more hash fields" 5 "2.0.0";
    Help "HEXISTS" "key field"
      "Determine if a hash field exists" 5 "2.0.0";
    Help "HGET" "key field"
      "Get the value of a hash field" 5 "2.0.0";
    Help "HGETALL" "key"
      "Get all the fields and values in a hash" 5 "2.0.0";
    Help "HINCRBY" "key field increment"
      "Increment the integer value of a hash field by the given number" 5 "2.0.0";
    Help "HINCRBYFLOAT" "key field increment"
      "Increment the float value of a hash field by the given amount" 5 "2.6.0";
    Help "HKEYS" "key"
      "Get all the fields in a hash" 5 "2.0.0";
    Help "HLEN" "key"
      "Get the number of fields in a hash" 5 "2.0.0";
    Help "HMGET" "key field [field ...]"
      "Get the values of all the given hash fields" 5 "2.0.0";
    Help "HMSET" "key field value [field value ...]"
      "Set multiple hash fields to multiple values" 5 "2.0.0";
    Help "HSCAN" "key cursor [MATCH pattern] [COUNT count]"
      "Incrementally iterate hash fields and associated values" 5 "2.8.0";
    Help "HSET" "key field value"
      "Set the string value of a hash field" 5 "2.0.0";
    Help "HSETNX" "key field value"
      "Set the value of a hash field, only if the field does not exist" 5 "2.0.0";
    Help "HSTRLEN" "key field"
      "Get the length of the value of a hash field" 5 "3.2.0";
    Help "HVALS" "key"
      "Get all the values in a hash" 5 "2.0.0"].

(** INCR to PFADD. *)
Definition commandHelp_04 : list commandHelp := [
    Help "INCR" "key"
      "Increment the integer value of a key by one" 1 "1.0.0";
    Help "INCRBY" "key increment"
      "Increment the integer value of a key by the given amount" 1 "1.0.0";
    Help "INCRBYFLOAT" "key increment"
      "Increment the float value of a key by the given amount" 1 "2.6.0";
    Help "INFO" "[section]"
      "Get information and statistics about the server" 9 "1.0.0";
    Help "KEYS" "pattern"
      "Find all keys matching the given pattern" 0 "1.0.0";
    Help "LASTSAVE" "-"
      "Get the UNIX time stamp of the last successful save to disk" 9 "1.0.0";
    Help "LINDEX" "key index"
      "Get an element from a list by its index" 2 "1.0.0";
    Help "LINSERT" "key BEFORE|AFTER pivot value"
      "Insert an element before or after another element in a list" 2 "2.2.0";
    Help "LLEN" "key"
      "Get the length of a list" 2 "1.0.0";
    Help "LPOP" "key"
      "Remove and get the first element in a list" 2 "1.0.0";
    Help "LPUSH" "key value [value ...]"
      "Prepend one or multiple values to a list" 2 "1.0.0";
    Help "LPUSHX" "key value"
      "Prepend a value to a list, only if the list exists" 2 "2.2.0";
    Help "LRANGE" "key start stop"
      "Get a range of elements from a list" 2 "1.0.0";
    Help "LREM" "key count value"
      "Remove elements from a list" 2 "1.0.0";
    Help "LSET" "key index value"
      "Set the value of an element in a list by its index" 2 "1.0.0";
    Help "LTRIM" "key start stop"
      "Trim a list to the specified range" 2 "1.0.0";
    Help "MGET" "key [key ...]"
      "Get the values of all the given keys" 1 "1.0.0";
    Help "MIGRATE" "host port key| destination-db timeout [COPY] [REPLACE] [KEYS key]"
      "Atomically transfer a key from a Redis instance to another one." 0 "2.6.0";
    Help "MONITOR" "-"
      "Listen for all requests received by the server in real time" 9 "1.0.0";
    Help "MOVE" "key db"
      "Move a key to another database" 0 "1.0.0";
    Help "MSET" "key value [key value ...]"
      "Set multiple keys to multiple values" 1 "1.0.1";
    Help "MSETNX" "key value [key value ...]"
      "Set multiple keys to multiple values, only if none of the keys exist" 1 "1.0.1";
    Help "MULTI" "-"
      "Mark the start of a transaction block" 7 "1.2.0";
    Help "OBJECT" "subcommand [arguments [arguments ...]]"
      "Inspect the internals of Redis objects" 0 "2.2.3";
    Help "PERSIST" "key"
      "Remove the expiration from a key" 0 "2.2.0";
    Help "PEXPIRE" "key milliseconds"
      "Set a key's time to live in milliseconds" 0 "2.6.0";
    Help "PEXPIREAT" "key milliseconds-timestamp"
      "Set the expiration for a key as a UNIX timestamp specified in milliseconds" 0 "2.6.0";
    Help "PFADD" "key element [element ...]"
      "Adds the specified elements to the specified HyperLogLog." 11 "2.8.9"].

(** PFCOUNT to SCRIPT FLUSH. *)
Definition commandHelp_05 : list commandHelp := [
    Help "PFCOUNT" "key [key ...]"
      "Return the approximated cardinality of the set(s) observed by the HyperLogLog at key(s)." 11 "2.8.9";
    Help "PFMERGE" "destkey sourcekey [sourcekey ...]"
      "Merge N different HyperLogLogs into a single one." 11 "2.8.9";
    Help "PING" "[message]"
      "Ping the server" 8 "1.0.0";
    Help "PSETEX" "key milliseconds value"
      "Set the value and expiration in milliseconds of a key" 1 "2.6.0";
    Help "PSUBSCRIBE" "pattern [pattern ...]"
      "Listen for messages published to channels matching the given patterns" 6 "2.0.0";
    Help "PTTL" "key"
      "Get the time to live for a key in milliseconds" 0 "2.6.0";
    Help "PUBLISH" "channel message"
      "Post a message to a channel" 6 "2.0.0";
    Help "PUBSUB" "subcommand [argument [argument ...]]"
      "Inspect the state of the Pub/Sub subsystem" 6 "2.8.0";
    Help "PUNSUBSCRIBE" "[pattern [pattern ...]]"
      "Stop listening for messages posted to channels matching the given patterns" 6 "2.0.0";
    Help "QUIT" "-"
      "Close the connection" 8 "1.0.0";
    Help "RANDOMKEY" "-"
      "Return a random key from the keyspace" 0 "1.0.0";
    Help "READONLY" "-"
      "Enables read queries for a connection to a cluster slave node" 12 "3.0.0";
    Help "READWRITE" "-"
      "Disables read queries for a connection to a cluster slave node" 12 "3.0.0";
    Help "RENAME" "key newkey"
      "Rename a key" 0 "1.0.0";
    Help "RENAMENX" "key newkey"
      "Rename a key, only if the new key does not exist" 0 "1.0.0";
    Help "RESTORE" "key ttl serialized-value [REPLACE]"
      "Create a key using the provided serialized value, previously obtained using DUMP." 0 "2.6.0";
    Help "ROLE" "-"
      "Return the role of the instance in the context of replication" 9 "2.8.12";
    Help "RPOP" "key"
      "Remove and get the last element in a list" 2 "1.0.0";
    Help "RPOPLPUSH" "source destination"
      "Remove the last element in a list, prepend it to another list and return it" 2 "1.2.0";
    Help "RPUSH" "key value [value ...]"
      "Append one or multiple values to a list" 2 "1.0.0";
    Help "RPUSHX" "key value"
      "Append a value to a list, only if the list exists" 2 "2.2.0";
    Help "SADD" "key member [member ...]"
      "Add one or more members to a set" 3 "1.0.0";
    Help "SAVE" "-"
      "Synchronously save the dataset to disk" 9 "1.0.0";
    Help "SCAN" "cursor [MATCH pattern] [COUNT count]"
      "Incrementally iterate the keys space" 0 "2.8.0";
    Help "SCARD" "key"
      "Get the number of members in a set" 3 "1.0.0";
    Help "SCRIPT DEBUG" "YES|SYNC|NO"
      "Set the debug mode for executed scripts." 10 "3.2.0";
    Help "SCRIPT EXISTS" "script [script ...]"
      "Check existence of scripts in the script cache." 10 "2.6.0";
    Help "SCRIPT FLUSH" "-"
      "Remove all the scripts from the script cache." 10 "2.6.0"].

(** SCRIPT KILL to SYNC. *)
Definition commandHelp_06 : list commandHelp := [
    Help "SCRIPT KILL" "-"
      "Kill the script currently in execution." 10 "2.6.0";
    Help "SCRIPT LOAD" "script"
      "Load the specified Lua script into the script cache." 10 "2.6.0";
    Help "SDIFF" "key [key ...]"
      "Subtract multiple sets" 3 "1.0.0";
    Help "SDIFFSTORE" "destination key [key ...]"
      "Subtract multiple sets and store the resulting set in a key" 3 "1.0.0";
    Help "SELECT" "index"
      "Change the selected database for the current connection" 8 "1.0.0";
    Help "SET" "key value [EX seconds] [PX milliseconds] [NX|XX]"
      "Set the string value of a key" 1 "1.0.0";
    Help "SETBIT" "key offset value"
      "Sets or clears the bit at offset in the string value stored at key" 1 "2.2.0";
    Help "SETEX" "key seconds value"
      "Set the value and expiration of a key" 1 "2.0.0";
    Help "SETNX" "key value"
      "Set the value of a key, only if the key does not exist" 1 "1.0.0";
    Help "SETRANGE" "key offset value"
      "Overwrite part of a string at key starting at the specified offset" 1 "2.2.0";
    Help "SHUTDOWN" "[NOSAVE|SAVE]"
      "Synchronously save the dataset to disk and then shut down the server" 9 "1.0.0";
    Help "SINTER" "key [key ...]"
      "Intersect multiple sets" 3 "1.0.0";
    Help "SINTERSTORE" "destination key [key ...]"
      "Intersect multiple sets and store the resulting set in a key" 3 "1.0.0";
    Help "SISMEMBER" "key member"
      "Determine if a given value is a member of a set" 3 "1.0.0";
    Help "SLAVEOF" "host port"
      "Make the server a slave of another instance, or promote it as master" 9 "1.0.0";
    Help "SLOWLOG" "subcommand [argument]"
      "Manages the Redis slow queries log" 9 "2.2.12";
    Help "SMEMBERS" "key"
      "Get all the members in a set" 3 "1.0.0";
    Help "SMOVE" "source destination member"
      "Move a member from one set to another" 3 "1.0.0";
    Help "SORT" "key [BY pattern] [LIMIT offset count] [GET pattern [GET pattern ...]] [ASC|DESC] [ALPHA] [STORE destination]"
      "Sort the elements in a list, set or sorted set" 0 "1.0.0";
    Help "SPOP" "key [count]"
      "Remove and return one or multiple random members from a set" 3 "1.0.0";
    Help "SRANDMEMBER" "key [count]"
      "Get one or multiple random members from a set" 3 "1.0.0";
    Help "SREM" "key member [member ...]"
      "Remove one or more members from a set" 3 "1.0.0";
    Help "SSCAN" "key cursor [MATCH pattern] [COUNT count]"
      "Incrementally iterate Set elements" 3 "2.8.0";
    Help "STRLEN" "key"
      "Get the length of the value stored in a key" 1 "2.2.0";
    Help "SUBSCRIBE" "channel [channel ...]"
      "Listen for messages published to the given channels" 6 "2.0.0";
    Help "SUNION" "key [key ...]"
      "Add multiple sets" 3 "1.0.0";
    Help "SUNIONSTORE" "destination key [key ...]"
      "Add multiple sets and store the resulting set in a key" 3 "1.0.0";
    Help "SYNC" "-"
      "Internal command used for replication" 9 "1.0.0"].

(** TIME to ZUNIONSTORE. *)
Definition commandHelp_07 : list commandHelp := [
    Help "TIME" "-"
      "Return the current server time" 9 "2.6.0";
    Help "TTL" "key"
      "Get the time to live for a key" 0 "1.0.0";
    Help "TYPE" "key"
      "Determine the type stored at key" 0 "1.0.0";
    Help "UNSUBSCRIBE" "[channel [channel ...]]"
      "Stop listening for messages posted to the given channels" 6 "2.0.0";
    Help "UNWATCH" "-"
      "Forget about all watched keys" 7 "2.2.0";
    Help "WAIT" "numslaves timeout"
      "Wait for the synchronous replication of all the write commands sent in the context of the current connection" 0 "3.0.0";
    Help "WATCH" "key [key ...]"
      "Watch the given keys to determine execution of the MULTI/EXEC block" 7 "2.2.0";
    Help "ZADD" "key [NX|XX] [CH] [INCR] score member [score member ...]"
      "Add one or more members to a sorted set, or update its score if it already exists" 4 "1.2.0";
    Help "ZCARD" "key"
      "Get the number of members in a sorted set" 4 "1.2.0";
    Help "ZCOUNT" "key min max"
      "Count the members in a sorted set with scores within the given values" 4 "2.0.0";
    Help "ZINCRBY" "key increment member"
      "Increment the score of a member in a sorted set" 4 "1.2.0";
    Help "ZINTERSTORE" "destination numkeys key [key ...] [WEIGHTS weight] [AGGREGATE SUM|MIN|MAX]"
      "Intersect multiple sorted sets and store the resulting sorted set in a new key" 4 "2.0.0";
    Help "ZLEXCOUNT" "key min max"
      "Count the number of members in a sorted set between a given lexicographical range" 4 "2.8.9";
    Help "ZRANGE" "key start stop [WITHSCORES]"
      "Return a range of members in a sorted set, by index" 4 "1.2.0";
    Help "ZRANGEBYLEX" "key min max [LIMIT offset count]"
      "Return a range of members in a sorted set, by lexicographical range" 4 "2.8.9";
    Help "ZRANGEBYSCORE" "key min max [WITHSCORES] [LIMIT offset count]"
      "Return a range of members in a sorted set, by score" 4 "1.0.5";
    Help "ZRANK" "key member"
      "Determine the index of a member in a sorted set" 4 "2.0.0";
    Help "ZREM" "key member [member ...]"
      "Remove one or more members from a sorted set" 4 "1.2.0";
    Help "ZREMRANGEBYLEX" "key min max"
      "Remove all members in a sorted set between the given lexicographical range" 4 "2.8.9";
    Help "ZREMRANGEBYRANK" "key start stop"
      "Remove all members in a sorted set within the given indexes" 4 "2.0.0";
    Help "ZREMRANGEBYSCORE" "key min max"
      "Remove all members in a sorted set within the given scores" 4 "1.2.0";
    Help "ZREVRANGE" "key start stop [WITHSCORES]"
      "Return a range of members in a sorted set, by index, with scores ordered from high to low" 4 "1.2.0";
    Help "ZREVRANGEBYLEX" "key max min [LIMIT offset count]"
      "Return a range of members in a sorted set, by lexicographical range, ordered from higher to lower strings." 4 "2.8.9";
    Help "ZREVRANGEBYSCORE" "key max min [WITHSCORES] [LIMIT offset count]"
      "Return a range of members in a sorted set, by score, with scores ordered from high to low" 4 "2.2.0";
    Help "ZREVRANK" "key member"
      "Determine the index of a member in a sorted set, with scores ordered from high to low" 4 "2.0.0";
    Help "ZSCAN" "key cursor [MATCH pattern] [COUNT count]"
      "Incrementally iterate sorted sets elements and associated scores" 4 "2.8.0";
    Help "ZSCORE" "key member"
      "Get the score associated with the given member in a sorted set" 4 "1.2.0";
    Help "ZUNIONSTORE" "destination numkeys key [key ...] [WEIGHTS weight] [AGGREGATE SUM|MIN|MAX]"
      "Add multiple sorted sets and store the resulting sorted set in a new key" 4 "2.0.0"].

Definition commandHelps : list commandHelp :=
  commandHelp_01 ++ commandHelp_02 ++ commandHelp_03 ++ commandHelp_04 ++ commandHelp_05 ++ commandHelp_06 ++ commandHelp_07.

(** [HIREDIS_MAJOR], [HIREDIS_MINOR] and [HIREDIS_PATCH] of [hiredis.h]. *)
Definition HIREDIS_VERSION : bytes := lit "0.13.3".

Section Output.
Context `{CommonLib} `{Project}.
Variable delimiter : bytes.

Definition add_text (out : FastoObject) (s : bytes) : FastoObject :=
  AddChildren out (new_FastoObject (VString s) delimiter).

Definition cliOutputCommandHelp (out : FastoObject) (help : commandHelp) (group : bool) : outcome FastoObject :=
  let out := add_text out (MemSPrintf (lit "name: %s %s" ++ [chr_nl] ++ lit "  summary: %s" ++ [chr_nl] ++ lit "  since: %s")
               [FStr (help_name help); FStr (help_params help); FStr (help_summary help); FStr (help_since help)]) in
  if group then
    g ← from_option_fault OutOfBounds (commandGroups !! Z.to_nat (help_group help));
    Val (add_text out (MemSPrintf (lit "group: %s") [FStr g]))
  else Val out.

Definition generic_help : bytes :=
  let nl := [chr_cr; chr_nl] in
  let q := [chr_dq] in
  project_title ++ lit " based on hiredis " ++ HIREDIS_VERSION ++ nl
  ++ lit "Type: " ++ q ++ lit "help @<group>" ++ q ++ lit " to get a list of commands in <group>" ++ nl
  ++ lit "      " ++ q ++ lit "help <command>" ++ q ++ lit " for help on <command>" ++ nl
  ++ lit "      " ++ q ++ lit "help <tab>" ++ q ++ lit " to get a list of possible help topics" ++ nl
  ++ lit "      " ++ q ++ lit "quit" ++ q ++ lit " to exit".

Definition cliOutputGenericHelp (out : FastoObject) : FastoObject := add_text out generic_help.

(** The words of the command's name: [entry->argv], which [RedisInit] prepares. *)
Definition entry_argv (help : commandHelp) : outcome (list bytes) :=
  o ← sdssplitargs (help_name help); Val (default [] o).

(** The words at [argv] from [j] on are these, up to case. *)
Fixpoint same_words (argv : argv_t) (j : Z) (words : list bytes) : outcome bool :=
  match words with
  | [] => Val true
  | w :: words => a ← aget argv j; if strcaseeq a w then same_words argv (j + 1) words else Val false
  end.

(** The index of the group with this name, or [-1]. *)
Fixpoint group_index (name : bytes) (groups : list bytes) (i : Z) : Z :=
  match groups with
  | [] => -1
  | g :: groups => if strcaseeq name g then i else group_index name groups (i + 1)
  end.

Fixpoint help_loop (entries : list commandHelp) (group argc : Z) (argv : argv_t) (out : FastoObject)
    : outcome FastoObject :=
  match entries with
  | [] => Val out
  | help :: entries =>
    out ← (if group =? -1 then
             words ← entry_argv help;
             if argc =? Z.of_nat (length words) then
               b ← same_words argv 0 words;
               if (b : bool) then cliOutputCommandHelp out help true else Val out
             else Val out
           else if group =? help_group help then cliOutputCommandHelp out help false
           else Val out);
    help_loop entries group argc argv out
  end.

(** Its results have no error. *)
Definition cliOutputHelp (argc : Z) (argv : argv_t) (out : FastoObject) : outcome (Error * FastoObject) :=
  if argc =? 0 then Val (no_error, cliOutputGenericHelp out)
  else
    group ← (if argc >? 0 then
               a ← aget argv 0;
               Val (match a with
                    | c :: name => if Ascii.eqb c "@" then group_index name commandGroups 0 else -1
                    | [] => -1
                    end)
             else Val (-1));
    out ← help_loop commandHelps group argc argv out;
    Val (no_error, out).
End Output.

(** * Lemmas *)

(** Every entry can be shown: its name splits into words and its group exists. *)
Definition entry_ok (help : commandHelp) : bool :=
  match entry_argv help with Val (_ :: _) => true | _ => false end
  && (0 <=? help_group help) && (help_group help <? Z.of_nat (length commandGroups)).

Lemma entries_ok : forallb entry_ok commandHelps = true.
Proof. by vm_compute. Qed.

Section Lemmas.
Context `{CommonLib} `{Project}.

Lemma cliOutputCommandHelp_val delimiter out help group :
  entry_ok help = true → is_val (cliOutputCommandHelp delimiter out help group).
Proof.
  unfold entry_ok, cliOutputCommandHelp. intros Hok. destruct group; [|by eexists].
  destruct (lookup_lt_is_Some_2 commandGroups (Z.to_nat (help_group help))) as [g ->]; [|by eexists].
  destruct (entry_argv help) as [[]|]; lia.
Qed.

Lemma same_words_val argc argv words j :
  argv_ok argc argv → 0 <= j → j + Z.of_nat (length words) <= argc → is_val (same_words argv j words).
Proof.
  intros Hp. revert j. induction words as [|w words IH]; intros j Hj Hl; simpl; [by eexists|].
  simpl in Hl. destruct (aget_ok argc argv j Hp) as [a ->]; [lia|]. cbn [mbind outcome_bind].
  destruct (strcaseeq a w); [apply IH; lia|by eexists].
Qed.

Lemma help_loop_val delimiter argc argv group entries out :
  forallb entry_ok entries = true → argv_ok argc argv →
  is_val (help_loop delimiter entries group argc argv out).
Proof.
  intros Hok Hp. revert out. induction entries as [|help entries IH]; intros out; cbn [help_loop forallb] in *;
    [by eexists|].
  apply andb_true_iff in Hok as [Hh Hok].
  apply outcome_bind_is_val; [|intros a; by apply IH].
  destruct (group =? -1).
  - pose proof Hh as Hh'. unfold entry_ok in Hh'. destruct (entry_argv help) as [words|]; [|done].
    cbn [mbind outcome_bind]. destruct (Z.eqb_spec argc (Z.of_nat (length words))); [|by eexists].
    destruct (same_words_val argc argv words 0) as [b ->]; [done|lia|lia|]. cbn [mbind outcome_bind].
    destruct b; [by apply cliOutputCommandHelp_val|by eexists].
  - destruct (group =? help_group help); [by apply cliOutputCommandHelp_val|by eexists].
Qed.

(** The help answers every line. *)
Lemma cliOutputHelp_val delimiter argc argv out :
  argv_ok argc argv → is_val (cliOutputHelp delimiter argc argv out).
Proof.
  intros Hp. unfold cliOutputHelp. destruct (Z.eqb_spec argc 0); [by eexists|].
  pose proof (proj1 Hp). destruct (aget_ok argc argv 0 Hp) as [a Ha]; [lia|].
  destruct (Z.gtb_spec argc 0); [|lia]. rewrite Ha. cbn [mbind outcome_bind].
  apply outcome_bind_is_val; [apply help_loop_val; [exact entries_ok|done]|intros o; by eexists].
Qed.
End Lemmas.
