(* ===== verification/RedisConn.v ===== *)
(** The Redis connection: [core/redis/db_connection.*] over the contexts of hiredis, without the special
    modes of the client. *)
From Stdlib Require Import Ascii String ZArith Lia.
From stdpp Require Import base list.
From S2P Require Import Prelude Common Texts Values Connection Translators SdsArgs Sds Hiredis HiredisFormat HiredisReader HiredisContext Configs SshInfo RedisReply RedisApi.
Local Open Scope Z_scope.
#[local] Set Warnings "-register-all".

(** * Surroundings *)

Inductive sockopt := SO_KEEPALIVE | TCP_KEEPIDLE | TCP_KEEPINTVL | TCP_KEEPCNT.

(** Connecting, which is left to the system and to libssh2, closing, socket options ([true] for
    success), and whether another thread has interrupted the connection since the last look. *)
Class RedisEnv (N : Type) := {
  redisConnectUnix : option bytes → N → option redisContext * N;
  redisConnect : option bytes → Z → option bytes → Z → option bytes → option bytes → option bytes →
    option bytes → option bytes → Z → N → option redisContext * N;
  redisFree : redisContext → N → N;
  setsockopt : Z → sockopt → Z → N → bool * N;
  poll_interrupt : N → bool * N
}.

(** [vsnprintf] of an [int] and of an [unsigned long long]. *)
Class CNumbers := {
  printf_num : bytes → va_val → bytes;
  printf_d : ∀ n, INT_MIN <= n <= INT_MAX → printf_num (lit "%d") (VaInt n) = dec_int n;
  printf_llu : ∀ n, 0 <= n < 2 ^ 64 → printf_num (lit "%llu") (VaLongLong n) = dec_nat n
}.

Definition c_numbers_ref : CNumbers.
Proof.
  refine {| printf_num spec v := match v with
                                 | VaInt n => dec_int n | VaLong n => dec_int n
                                 | VaLongLong n => dec_nat n | VaDouble s => s | _ => [] end |}; done.
Defined.

(** * The state

    [RConfig]: the configuration with the tunnel.  The state of the connection outside of
    [CDBConnection] is the network and the member [isAuth_]. *)

Record RConfig := mkRConfig { rc_config : RedisConfig.Config; ssh_info : SSHInfo }.
Record RWorld (N : Type) := mkRWorld { w_net : N; isAuth_ : bool }.
Arguments mkRWorld {N} _ _.
Arguments w_net {N} _.
Arguments isAuth_ {N} _.

Definition RConfig_default `{CommonLib} `{ConfigLib} : RConfig := mkRConfig RedisConfig.default SSHInfo_default.

Section Conn.
Context {N : Type} `{Network N} `{RedisEnv N} `{Alloc} `{Patience} `{CommonLib} `{CommonRedis}
  `{ConfigLib} `{CNumbers} `{Project}.
Local Abbreviation conn := (CDBConnection RConfig redisContext (RWorld N)).
Implicit Types (c : conn) (n : N).

(** ** Connecting *)

Definition REDIS_CLI_KEEPALIVE_INTERVAL : Z := 15.

(** On Linux; the texts of its errors go to a null pointer. *)
Definition anetKeepAlive (fd interval : Z) n : bool * N :=
  let '(ok, n) := setsockopt fd SO_KEEPALIVE 1 n in
  if negb ok then (false, n)
  else
    let '(ok, n) := setsockopt fd TCP_KEEPIDLE interval n in
    if negb ok then (false, n)
    else
      let val := Z.quot interval 3 in
      let val := if val =? 0 then 1 else val in
      let '(ok, n) := setsockopt fd TCP_KEEPINTVL val n in
      if negb ok then (false, n)
      else setsockopt fd TCP_KEEPCNT 3 n.

(** [context] is not null. *)
Definition CreateConnection (config : RConfig) n : Error * option redisContext * N :=
  let cfg := rc_config config in
  let sinfo := ssh_info config in
  let is_local := negb (bool_decide (RedisConfig.hostsocket cfg = [])) in
  let '(lcontext, n) :=
    if is_local then redisConnectUnix (c_strornull (RedisConfig.hostsocket cfg)) n
    else
      redisConnect (c_strornull (hp_host (RedisConfig.host cfg))) (hp_port (RedisConfig.host cfg))
        (c_strornull (hp_host (ssh_host sinfo))) (hp_port (ssh_host sinfo))
        (c_strornull (user_name sinfo)) (c_strornull (password sinfo))
        (c_strornull (public_key sinfo)) (c_strornull (private_key sinfo)) (c_strornull (passphrase sinfo))
        (method_value (current_method sinfo)) n in
  let place := if is_local then RedisConfig.hostsocket cfg else HostAndPort_ToString (RedisConfig.host cfg) in
  match lcontext with
  | None =>
    (make_error_value (MemSPrintf (lit "Could not connect to Redis at %s : no context") [FStr place]) E_ERROR,
     None, n)
  | Some ctx =>
    if negb (c_err ctx =? 0) then
      (make_error_value (MemSPrintf (lit "Could not connect to Redis at %s : %s")
         [FStr place; FStr (c_errstr ctx)]) E_ERROR, None, redisFree ctx n)
    else (no_error, Some ctx, n)
  end.

#[export] Instance redis_traits : ConnectionTraits RConfig redisContext (RWorld N) := {|
  traits_Connect config w :=
    let '(er, context, n) := CreateConnection config (w_net w) in
    if isError er then (er, None, mkRWorld n (isAuth_ w))
    else
      let n := match context with
               | Some ctx => (anetKeepAlive (c_fd ctx) REDIS_CLI_KEEPALIVE_INTERVAL n).2
               | None => n
               end in
      (no_error, context, mkRWorld n (isAuth_ w));
  (** the caller's pointer stays *)
  traits_Disconnect handle w :=
    (no_error, handle,
     match handle with Some h => mkRWorld (redisFree h (w_net w)) (isAuth_ w) | None => w end);
  traits_IsConnected handle w := match handle with Some _ => true | None => false end;
  config_default := RConfig_default;
  config_delimiter cfg := RedisConfig.delimiter (rc_config cfg);
  config_ns_separator cfg := RedisConfig.ns_separator (rc_config cfg)
|}.

(** ** Access to the parts of the state *)

(** A function on [connection_.handle_] and the network. *)
Definition on_handle {A} (f : redisContext → N → outcome (A * redisContext * N)) c : outcome (A * conn) :=
  let k := connection_ c in
  h ← deref (handle_ k);
  '(a, h, n) ← f h (w_net (world_ k));
  Val (a, set_connection c (mkConnection (config_ k) (Some h) (mkRWorld n (isAuth_ (world_ k))))).

Definition the_context c : outcome redisContext := deref (handle_ (connection_ c)).
Definition the_net c : N := w_net (world_ (connection_ c)).
Definition IsAuth c : bool := isAuth_ (world_ (connection_ c)).
Definition the_config c : RedisConfig.Config := rc_config (config_ (connection_ c)).

Definition set_net n c : conn :=
  let k := connection_ c in
  set_connection c (mkConnection (config_ k) (handle_ k) (mkRWorld n (isAuth_ (world_ k)))).
Definition set_isAuth (b : bool) c : conn :=
  let k := connection_ c in
  set_connection c (mkConnection (config_ k) (handle_ k) (mkRWorld (w_net (world_ k)) b)).
Definition set_config (f : RedisConfig.Config → RedisConfig.Config) c : conn :=
  let k := connection_ c in
  set_connection c (mkConnection (mkRConfig (f (rc_config (config_ k))) (ssh_info (config_ k)))
                      (handle_ k) (world_ k)).

(** [redisCommand(connection_.handle_, format, ...)] *)
Definition command (format : bytes) (ap : list va_val) c : outcome (option redisReply * conn) :=
  on_handle (λ h n, redisCommand printf_num h format ap n) c.

Definition context_error c : outcome Error := h ← the_context c; Val (cliPrintContextError h).

(** [reply->str] as a C string *)
Definition rp_cstr (r : redisReply) : outcome bytes := s ← rp_str r; Val (c_str s).

(** [make_error_value(std::string(reply->str, reply->len))] *)
Definition reply_error (r : redisReply) : outcome Error := s ← rp_str r; Val (make_error_value s E_ERROR).

Definition is_type (t : Z) (r : redisReply) : bool := rp_type r =? t.

(** ** Authentication and the selection of a database *)

Definition authContext (auth_str : option bytes) c : outcome (Error * conn) :=
  match auth_str with
  | None => Val (no_error, c)
  | Some auth =>
    '(reply, c) ← command (lit "AUTH %s") [VaStr auth] c;
    match reply with
    | Some r =>
      if is_type REDIS_REPLY_ERROR r then
        s ← rp_cstr r;
        Val (make_error_value (MemSPrintf (lit "Authentification error: %s") [FStr s]) E_ERROR, c)
      else Val (no_error, c)
    | None => e ← context_error c; Val (e, c)
    end
  end.

Definition Auth (password : bytes) c : outcome (Error * conn) :=
  if negb (IsConnected c) then Val (not_connected, c)
  else
    '(err, c) ← authContext (c_strornull password) c;
    if isError err then Val (err, set_isAuth false c)
    else Val (no_error, set_isAuth true (set_config (RedisConfig.with_auth password) c)).

Definition IsAuthenticated c : bool := if negb (IsConnected c) then false else IsAuth c.

(** [size] is not null; its value comes in and goes out. *)
Definition DBkcount (size : Z) c : outcome (Error * Z * conn) :=
  if negb (IsConnected c) then Val (not_connected, size, c)
  else
    '(reply, c) ← command (lit "DBSIZE") [] c;
    match reply with
    | Some (RpInteger n) => Val (no_error, u64 n, c)
    | _ => Val (make_error_value (lit "Couldn't determine DBSIZE!") E_ERROR, size, c)
    end.

(** The error of [DBkcount] is not looked at in a release build. *)
Definition Redis_SelectImpl (name : bytes) c : outcome (Error * option IDataBaseInfo * conn) :=
  let num := FromString_int name in
  '(reply, c) ← command (lit "SELECT %d") [VaInt num] c;
  match reply with
  | None => e ← context_error c; Val (e, None, c)
  | Some _ =>
    let c := set_config (RedisConfig.with_dbnum num) c in
    '(_, sz, c) ← DBkcount 0 c;
    Val (no_error, Some (mkIDataBaseInfo (ToString_int num) true sz []), c)
  end.

(** ** Keys and values *)

(** The text of a translator; [*cmdstring] starts empty. *)
Definition translated (r : Error * option bytes) : Error * bytes := (r.1, default [] r.2).

Fixpoint Redis_DeleteImpl (keys deleted_keys : list NKey) c : outcome (Error * list NKey * conn) :=
  match keys with
  | [] => Val (no_error, deleted_keys, c)
  | key :: keys =>
    let '(err, del_cmd) := translated (DeleteKeyCommand redis_translator key (Some [])) in
    if isError err then Val (err, deleted_keys, c)
    else
      '(reply, c) ← command del_cmd [] c;
      match reply with
      | None => e ← context_error c; Val (e, deleted_keys, c)
      | Some r =>
        let deleted := is_type REDIS_REPLY_INTEGER r && (rp_integer r =? 1) in
        Redis_DeleteImpl keys (if deleted then deleted_keys ++ [key] else deleted_keys) c
      end
  end.

Definition Redis_SetImpl (key added_key : NDbKValue) c : outcome (Error * NDbKValue * conn) :=
  '(reply, c) ← command (lit "SET %s %s") [VaStr (KeyString key); VaStr (ValueString key)] c;
  match reply with
  | None => e ← context_error c; Val (e, added_key, c)
  | Some r =>
    if is_type REDIS_REPLY_ERROR r then e ← reply_error r; Val (e, added_key, c)
    else Val (no_error, key, c)
  end.

Definition Redis_GetImpl (key : NKey) (loaded_key : NDbKValue) c : outcome (Error * NDbKValue * conn) :=
  '(reply, c) ← command (lit "GET %s") [VaStr (key_ key)] c;
  match reply with
  | None => e ← context_error c; Val (e, loaded_key, c)
  | Some r =>
    if is_type REDIS_REPLY_STRING r then
      s ← rp_cstr r; Val (no_error, mkNDbKValue key (Some (VString s)), c)
    else if is_type REDIS_REPLY_NIL r then Val (no_error, mkNDbKValue key (Some VNull), c)
    else if is_type REDIS_REPLY_ERROR r then e ← reply_error r; Val (e, loaded_key, c)
    else Val (no_error, mkNDbKValue key None, c)
  end.

(** A command whose only interesting reply is an error. *)
Definition plain_command (text : bytes) (after : redisReply → Error) c : outcome (Error * conn) :=
  '(reply, c) ← command text [] c;
  match reply with
  | None => e ← context_error c; Val (e, c)
  | Some r => if is_type REDIS_REPLY_ERROR r then e ← reply_error r; Val (e, c) else Val (after r, c)
  end.

Definition Redis_RenameImpl (key : NKey) (new_key : bytes) c : outcome (Error * conn) :=
  let '(err, rename_cmd) := translated (RenameKeyCommand redis_translator key new_key (Some [])) in
  if isError err then Val (err, c) else plain_command rename_cmd (λ _, no_error) c.

Definition Redis_SetTTLImpl (key : NKey) (ttl : Z) c : outcome (Error * conn) :=
  let '(err, ttl_cmd) := translated (ChangeKeyTTLCommand redis_translator key ttl (Some [])) in
  if isError err then Val (err, c)
  else
    plain_command ttl_cmd
      (λ r, if rp_integer r =? 0 then
              make_error_value (MemSPrintf (lit "%s does not exist or the timeout could not be set.")
                [FStr (c_str (key_ key))]) E_ERROR
            else no_error) c.

Definition Redis_QuitImpl c : outcome (Error * conn) :=
  '(reply, c) ← command (lit "QUIT") [] c;
  match reply with
  | None => e ← context_error c; Val (e, c)
  | Some _ => Val (no_error, (Disconnect c).2)
  end.

#[export] Instance redis_impl : CDBImpl RConfig redisContext (RWorld N) := {|
  SelectImpl := Redis_SelectImpl;
  DeleteImpl := Redis_DeleteImpl;
  SetImpl := Redis_SetImpl;
  GetImpl := Redis_GetImpl;
  RenameImpl := Redis_RenameImpl;
  SetTTLImpl := Redis_SetTTLImpl;
  QuitImpl := Redis_QuitImpl
|}.

(** [redis::DBConnection::Connect] hides the member of the base class. *)
Definition Redis_Connect (config : RConfig) c : outcome (Error * conn) :=
  let '(err, c) := Connect config c in
  if isError err then Val (err, c)
  else
    '(err, c) ← Auth (RedisConfig.auth (the_config c)) c;
    if isError err then Val (err, c)
    else
      '(err, _, c) ← Select (ToString_int (RedisConfig.dbnum (the_config c))) c;
      if isError err then Val (err, c) else Val (no_error, c).

(** ** Replies to the command line *)

Definition needed_reconnect : Error := make_error_value (lit "Needed reconnect.") E_ERROR.

(** [out] is not null. *)
Definition CliReadReply (out : FastoObject) c : outcome (Error * FastoObject * conn) :=
  if negb (IsConnected c) then Val (not_connected, out, c)
  else
    '(r, c) ← on_handle (λ h n, '(ok, reply, h, n) ← redisGetReply h n; Val ((ok, reply), h, n)) c;
    let '(ok, reply) := r in
    if negb (ok : bool) then
      h ← the_context c;
      if (c_err h =? REDIS_ERR_IO) && bool_decide (net_errno (the_net c) = ECONNRESET) then
        Val (needed_reconnect, out, c)
      else if c_err h =? REDIS_ERR_EOF then Val (needed_reconnect, out, c)
      else Val (cliPrintContextError h, out, c)
    else
      reply ← deref reply;
      let c := set_config (RedisConfig.with_last_cmd_type (rp_type reply)) c in
      moved ← (if negb (RedisConfig.cluster_mode (the_config c) =? 0) && is_type REDIS_REPLY_ERROR reply
               then s ← rp_str reply; Val (if is_redirection s then Some s else None)
               else Val None);
      match moved with
      | Some str =>
        '(slot, host) ← redirection str;
        let c := set_config (RedisConfig.with_host host) c in
        let redir := MemSPrintf (lit "-> Redirected to slot [%d] located at %s")
                       [FInt slot; FStr (HostAndPort_ToString host)] in
        let out := AddChildren out (new_FastoObject (VString redir) (Delimiter c)) in
        Val (no_error, out, set_config (RedisConfig.with_cluster_reissue_command 1) c)
      | None =>
        '(er, out, auth) ← CliFormatReplyRaw (Delimiter c) out (IsAuth c) reply;
        Val (er, out, set_isAuth auth c)
      end.

(** [redisAppendCommandArgv], with its result left aside. *)
Definition append_argv (argv : list bytes) (argvlen : option (list Z)) c : outcome conn :=
  '(_, c) ← on_handle (λ h n, redisAppendCommandArgv h (Z.of_nat (length argv)) argv argvlen n) c;
  Val c.

(** The words with the lengths that their sds headers have. *)
Definition append_words (argc : Z) (argv : argv_t) c : outcome conn :=
  words ← aget_raw_range argv 0 (Z.to_nat argc);
  _ ← (if argc >? 0 then deref (malloc (argc * 8)) else Val []);
  append_argv words (Some (List.map (λ w : bytes, Z.of_nat (length w)) words)) c.

Definition CommonExec (argc : Z) (argv : argv_t) (out : FastoObject) c : outcome (Error * FastoObject * conn) :=
  if negb (IsConnected c) then Val (not_connected, out, c)
  else
    c ← append_words argc argv c;
    '(err, out, c) ← CliReadReply out c;
    if isError err then Val (err, out, c) else Val (no_error, out, c).

(** [IsInterrupted()], which another thread may have set. *)
Definition look_interrupted c : bool * conn :=
  let '(b, n) := poll_interrupt (the_net c) in
  let c := set_net n c in
  let c := if (b : bool) then SetInterrupted true c else c in
  (IsInterrupted c, c).

Definition interrupted : Error := make_error_value (lit "Interrupted.") E_INTERRUPTED.

(** [while (true)]: until an error or an interruption. *)
Fixpoint listen_loop (fuel : nat) (out : FastoObject) c : outcome (Error * FastoObject * conn) :=
  match fuel with
  | O => Fault OutOfFuel
  | S fuel =>
    '(er, out, c) ← CliReadReply out c;
    if isError er then Val (er, out, c)
    else
      let '(stop, c) := look_interrupted c in
      if (stop : bool) then Val (interrupted, out, c) else listen_loop fuel out c
  end.

Definition Monitor (argc : Z) (argv : argv_t) (out : FastoObject) c : outcome (Error * FastoObject * conn) :=
  '(err, out, c) ← CommonExec argc argv out c;
  if isError err then Val (err, out, c) else listen_loop patience out c.

Definition Subscribe := Monitor.

(** ** Pipelines *)

(** [cmd->Cmd()->inputCommand()] *)
Definition Cmd_inputCommand (cmd : FastoObject) : outcome bytes :=
  match value_ cmd with VCommand input _ => Val input | _ => Fault NullPointer end.

(** The first loop: the commands that were sent. *)
Fixpoint pipeline_send (cmds valid_cmds : list FastoObject) c : outcome (list FastoObject * conn) :=
  match cmds with
  | [] => Val (valid_cmds, c)
  | cmd :: cmds =>
    command ← Cmd_inputCommand cmd;
    match c_strornull command with
    | None => pipeline_send cmds valid_cmds c
    | Some ccommand =>
      argv ← sdssplitargslong ccommand;
      match argv with
      | None => pipeline_send cmds valid_cmds c
      | Some argv =>
        first ← aget (Argv argv 0) 0;
        if isPipeLineCommand (Some first) then
          c ← append_argv argv None c;
          pipeline_send cmds (valid_cmds ++ [cmd]) c
        else pipeline_send cmds valid_cmds c
      end
    end
  end.

(** The second loop, from index [i]: the objects of [cmds] are changed in place. *)
Fixpoint pipeline_read (i n : nat) (cmds : list FastoObject) c : outcome (Error * list FastoObject * conn) :=
  match n with
  | O => Val (no_error, cmds, c)
  | S n =>
    cmd ← from_option_fault OutOfBounds (cmds !! i);
    '(er, cmd, c) ← CliReadReply cmd c;
    let cmds := <[i := cmd]> cmds in
    if isError er then Val (er, cmds, c) else pipeline_read (S i) n cmds c
  end.

Definition ExecuteAsPipeline (cmds : list FastoObject) c : outcome (Error * list FastoObject * conn) :=
  if bool_decide (cmds = []) then Val (make_error_value (lit "Invalid input command") E_ERROR, cmds, c)
  else if negb (IsConnected c) then Val (not_connected, cmds, c)
  else
    '(valid_cmds, c) ← pipeline_send cmds [] c;
    pipeline_read 0 (length valid_cmds) cmds c.

(** ** Containers *)

(** What the four functions do with the answer to their command; [convert] is applied to the value
    of the reply, [None] being its failure. *)
Definition load_container (convert : value → option value) (conversion_error : string) (key : NKey)
    (reply : option redisReply) (loaded_key : NDbKValue) c : outcome (Error * NDbKValue * conn) :=
  match reply with
  | None => e ← context_error c; Val (e, loaded_key, c)
  | Some r =>
    if is_type REDIS_REPLY_ARRAY r then
      '(err, val) ← valueFromReplay r;
      if isError err then Val (err, loaded_key, c)
      else
        val ← deref val;
        match convert val with
        | None => Val (make_error_value (lit conversion_error) E_ERROR, loaded_key, c)
        | Some v => let kv := mkNDbKValue key (Some v) in Val (no_error, kv, notify (OnKeyLoaded kv) c)
        end
    else if is_type REDIS_REPLY_ERROR r then e ← reply_error r; Val (e, loaded_key, c)
    else Val (no_error, loaded_key, c)
  end.

Definition Lrange (key : NKey) (start stop : Z) (loaded_key : NDbKValue) c : outcome (Error * NDbKValue * conn) :=
  if negb (IsConnected c) then Val (not_connected, loaded_key, c)
  else
    '(reply, c) ← command (lit "LRANGE %s %d %d") [VaStr (key_ key); VaInt start; VaInt stop] c;
    load_container Some EmptyString key reply loaded_key c.

Definition Smembers (key : NKey) (loaded_key : NDbKValue) c : outcome (Error * NDbKValue * conn) :=
  if negb (IsConnected c) then Val (not_connected, loaded_key, c)
  else
    '(reply, c) ← command (lit "SMEMBERS %s") [VaStr (key_ key)] c;
    load_container (λ v, VSet ∘ set_of_array <$> getAsList v) "Conversion error array to set" key reply loaded_key c.

(** The line is the format of the command. *)
Definition zrange_line (key : NKey) (start stop : Z) (withscores : bool) : bytes :=
  MemSPrintf (lit (if withscores then "ZRANGE %s %d %d WITHSCORES" else "ZRANGE %s %d %d"))
    [FStr (c_str (key_ key)); FInt start; FInt stop].

Definition Zrange (key : NKey) (start stop : Z) (withscores : bool) (loaded_key : NDbKValue) c
    : outcome (Error * NDbKValue * conn) :=
  if negb (IsConnected c) then Val (not_connected, loaded_key, c)
  else
    '(reply, c) ← command (zrange_line key start stop withscores) [] c;
    load_container (λ v, if withscores then (λ l, VZSet (zset_of_array l [])) <$> getAsList v else Some v)
      "Conversion error array to zset" key reply loaded_key c.

Definition Hgetall (key : NKey) (loaded_key : NDbKValue) c : outcome (Error * NDbKValue * conn) :=
  if negb (IsConnected c) then Val (not_connected, loaded_key, c)
  else
    '(reply, c) ← command (lit "HGETALL %s") [VaStr (key_ key)] c;
    load_container (λ v, (λ l, VHash (hash_of_array l [])) <$> getAsList v)
      "Conversion error array to hash" key reply loaded_key c.
End Conn.
