(* ===== verification/RedisModes.v ===== *)
(** The special modes of the Redis client: latency, replication, dump, big keys, statistics and scan,
    in [core/redis/db_connection.cpp]. *)
From Stdlib Require Import Ascii String ZArith Lia.
From stdpp Require Import base list.
From S2P Require Import Prelude Common Texts Values Connection Translators SdsArgs Sds Hiredis HiredisFormat HiredisReader HiredisContext Configs SshInfo RedisReply RedisApi RedisHelp RedisConn.
Local Open Scope Z_scope.
#[local] Set Warnings "-register-all".

(** The clock, pauses, and the file of a dump: [open] for writing, [write] with its count, [close]. *)
Class ModesEnv (N : Type) := {
  current_mstime : N → Z * N;
  msleep : Z → N → N;
  usleep : Z → N → N;
  open_file : bytes → N → option Z * N;
  write_file : Z → bytes → N → Z * N;
  close_file : Z → N → N
}.

(** [core/command/command.h] *)
Definition StableCommand (command : bytes) : bytes :=
  match last command with
  | Some c => if Ascii.eqb c chr_cr then removelast command else command
  | None => []
  end.

(** The new object; the caller attaches it to the parent when it is done with it. *)
Definition CreateCommand (parent : FastoObject) (input : bytes) (ct : command_logging) : option FastoObject :=
  let stable_input := StableCommand input in
  if bool_decide (stable_input = []) then None
  else Some (new_FastoObject (VCommand stable_input ct) (delimiter_ parent)).

Definition invalid_command : Error := make_error_value (lit "Invalid CreateCommand input argument") E_ERROR.
Definition io_error : Error := make_error_value (lit "I/O error") E_ERROR.

(** The last child of an object changed. *)
Definition update_last (f : FastoObject → FastoObject) (o : FastoObject) : FastoObject :=
  match last (childrens_ o) with
  | Some child => mkFastoObject (value_ o) (delimiter_ o) (removelast (childrens_ o) ++ [f child])
  | None => o
  end.

Definition div (a b : Z) : outcome Z := if b =? 0 then Fault DivisionByZero else Val (a / b).

Section Modes.
Context {N : Type} `{Network N} `{RedisEnv N} `{ModesEnv N} `{Alloc} `{Patience} `{CommonLib} `{CommonRedis}
  `{ConfigLib} `{CNumbers} `{Project}.
Local Abbreviation conn := (CDBConnection RConfig redisContext (RWorld N)).
Implicit Types (c : conn) (n : N) (o : FastoObject).

Definition add_string (cmd : FastoObject) (s : bytes) c : FastoObject :=
  AddChildren cmd (new_FastoObject (VString s) (Delimiter c)).

Definition on_net {A} (f : N → A * N) c : A * conn :=
  let '(a, n) := f (the_net c) in (a, set_net n c).

(** The common beginning of the modes, and their end with the command's object attached to [out]. *)
Definition with_command (out : FastoObject) (input : string) c
    (body : FastoObject → conn → outcome (Error * FastoObject * conn)) : outcome (Error * FastoObject * conn) :=
  match CreateCommand out (lit input) C_INNER with
  | None => Val (invalid_command, out, c)
  | Some cmd => '(err, cmd, c) ← body cmd c; Val (err, AddChildren out cmd, c)
  end.

(** ** Latency *)

Definition LATENCY_SAMPLE_RATE : Z := 10.
Definition LATENCY_HISTORY_DEFAULT_INTERVAL : Z := 15000.

(** [avg] is the quotient of [tot] and [count]. *)
Record latency_stats := mkLatency { l_min : Z; l_max : Z; l_tot : Z; l_count : Z }.

Definition latency_sample (s : latency_stats) (latency : Z) : latency_stats :=
  let count := u64 (l_count s + 1) in
  if count =? 1 then mkLatency latency latency latency count
  else mkLatency (if latency <? l_min s then latency else l_min s)
         (if latency >? l_max s then latency else l_max s) (u64 (l_tot s + latency)) count.

Definition latency_text (s : latency_stats) : bytes :=
  MemSPrintf (lit "min: %llu, max: %llu, avg: %s (%llu samples)")
    [FInt (l_min s); FInt (l_max s); FStr (ToString_ratio (l_tot s) (l_count s) 2); FInt (l_count s)].

(** [child]: an object has been added, the last of [cmd]. *)
Fixpoint latency_loop (fuel : nat) (history_interval : Z) (s : latency_stats) (history_start : Z)
    (child : bool) (cmd : FastoObject) c : outcome (Error * FastoObject * conn) :=
  let '(stop, c) := look_interrupted c in
  if (stop : bool) then Val (interrupted, cmd, c)
  else
    match fuel with
    | O => Fault OutOfFuel
    | S fuel =>
      let '(start, c) := on_net current_mstime c in
      '(reply, c) ← command (InputCommand cmd) [] c;
      match reply with
      | None => Val (io_error, cmd, c)
      | Some _ =>
        let '(cur_time, c) := on_net current_mstime c in
        let s := latency_sample s (u64 (cur_time - start)) in
        let buff := latency_text s in
        if negb child then latency_loop fuel history_interval s history_start true (add_string cmd buff c) c
        else
          let '(s, history_start, cmd) :=
            if negb (RedisConfig.latency_history (the_config c) =? 0)
               && (u64 (cur_time - history_start) >? history_interval)
            then (mkLatency 0 0 0 0, cur_time, add_string cmd buff c)
            else (s, history_start, update_last (λ o, SetValue o (VString buff)) cmd) in
          let c := set_net (msleep LATENCY_SAMPLE_RATE (the_net c)) c in
          latency_loop fuel history_interval s history_start true cmd c
      end
    end.

Definition LatencyMode (out : FastoObject) c : outcome (Error * FastoObject * conn) :=
  if negb (IsConnected c) then Val (not_connected, out, c)
  else
    with_command out "PING" c (λ cmd c,
      let interval := RedisConfig.interval (the_config c) in
      let history_interval := if negb (interval =? 0) then interval / 1000
                              else LATENCY_HISTORY_DEFAULT_INTERVAL in
      let '(history_start, c) := on_net current_mstime c in
      latency_loop patience history_interval (mkLatency 0 0 0 0) history_start false cmd c).

(** ** Replication

    [buf0] is what the stack holds before it is used as a buffer. *)

(** [buf], the pointer into it, and the byte read last. *)
Fixpoint sync_loop (fuel : nat) (buf : bytes) (p : Z) c : outcome (option (bytes * Z) * conn) :=
  match fuel with
  | O => Fault OutOfFuel
  | S fuel =>
    '(r, c) ← on_handle (λ h n, '(ok, nread, d, h, n) ← redisReadToBuffer h 1 n; Val ((ok, nread, d), h, n)) c;
    let '(ok, nread, d) := r in
    if negb ok then Val (None, c)
    else
      buf ← mem_write buf p d;
      if nread =? 0 then sync_loop fuel buf p c
      else
        ch ← from_option_fault OutOfBounds (buf !! Z.to_nat p);
        if Ascii.eqb ch chr_nl && negb (p =? 0) then Val (Some (buf, p), c)
        else sync_loop fuel buf (if Ascii.eqb ch chr_nl then p else p + 1) c
  end.

(** The payload is not null; it is set when there is no error. *)
Definition SendSync (buf0 : bytes) c : outcome (Error * Z * conn) :=
  '(ok, c) ← on_handle (λ h n, '(ok, _, h, n) ← redisWriteFromBuffer h (lit "SYNC" ++ crlf) n; Val (ok, h, n)) c;
  if negb ok then Val (make_error_value (lit "Error writing to master") E_ERROR, 0, c)
  else
    '(r, c) ← sync_loop patience buf0 0 c;
    match r with
    | None => Val (make_error_value (lit "Error reading bulk length while SYNCing") E_ERROR, 0, c)
    | Some (buf, p) =>
      buf ← mem_write buf p [NUL];
      first ← from_option_fault OutOfBounds (buf !! 0%nat);
      if Ascii.eqb first "-" then
        Val (make_error_value (MemSPrintf (lit "SYNC with master failed: %s") [FStr (c_str buf)]) E_ERROR, 0, c)
      else Val (no_error, strtoull (drop 1 buf), c)
    end.

(** ["Discard the payload"] *)
Fixpoint discard_loop (fuel : nat) (payload : Z) c : outcome (bool * conn) :=
  if payload =? 0 then Val (true, c)
  else
    match fuel with
    | O => Fault OutOfFuel
    | S fuel =>
      let size := if payload >? 1024 then 1024 else payload in
      '(r, c) ← on_handle (λ h n, '(ok, nread, _, h, n) ← redisReadToBuffer h size n; Val ((ok, nread), h, n)) c;
      let '(ok, nread) := r in
      if negb (ok : bool) then Val (false, c) else discard_loop fuel (u64 (payload - nread)) c
    end.

(** [while (!IsInterrupted())]: the stream of the master. *)
Fixpoint follow_loop (fuel : nat) (cmd : FastoObject) c : outcome (Error * FastoObject * conn) :=
  let '(stop, c) := look_interrupted c in
  if (stop : bool) then Val (interrupted, cmd, c)
  else
    match fuel with
    | O => Fault OutOfFuel
    | S fuel =>
      '(err, cmd, c) ← CliReadReply cmd c;
      if isError err then Val (err, cmd, c) else follow_loop fuel cmd c
    end.

Definition rdb_read_error : Error := make_error_value (lit "Error reading RDB payload while SYNCing") E_ERROR.

Definition SlaveMode (buf0 : bytes) (out : FastoObject) c : outcome (Error * FastoObject * conn) :=
  if negb (IsConnected c) then Val (not_connected, out, c)
  else
    '(err, payload, c) ← SendSync buf0 c;
    if isError err then Val (err, out, c)
    else
      with_command out "SYNC" c (λ cmd c,
        '(ok, c) ← discard_loop patience payload c;
        if negb ok then Val (rdb_read_error, cmd, c) else follow_loop patience cmd c).

(** ** Dump *)

(** [fd] is [None] when the dump goes to the output object, whose array [val] holds the pieces. *)
Fixpoint rdb_loop (fuel : nat) (payload : Z) (fd : option Z) (buf : bytes) (val : list value) c
    : outcome (Error * list value * conn) :=
  if payload =? 0 then Val (no_error, val, c)
  else
    match fuel with
    | O => Fault OutOfFuel
    | S fuel =>
      let size := if payload >? 4096 then 4096 else payload in
      '(r, c) ← on_handle (λ h n, '(ok, nread, d, h, n) ← redisReadToBuffer h size n; Val ((ok, nread, d), h, n)) c;
      let '(ok, nread, d) := r in
      if negb ok then Val (rdb_read_error, val, c)
      else
        buf ← mem_write buf 0 d;
        if nread =? 0 then rdb_loop fuel payload fd buf val c
        else
          '(nwritten, val, c) ←
            match fd with
            | Some f => data ← mem_read buf 0 nread;
                        let '(k, c) := on_net (write_file f data) c in Val (k, val, c)
            | None => if existsb (Ascii.eqb NUL) buf then Val (0, val ++ [VString (c_str buf)], c)
                      else Fault OutOfBounds
            end;
          if negb (nwritten =? nread) then
            let er := make_error_value (MemSPrintf (lit "Error writing data to file: %s")
                        [FStr (net_strerror (the_net c))]) E_ERROR in
            Val (er, val, match fd with Some f => set_net (close_file f (the_net c)) c | None => c end)
          else rdb_loop fuel (u64 (payload - nread)) fd buf val c
    end.

Definition GetRDB (sync_buf0 buf0 : bytes) (out : FastoObject) c : outcome (Error * FastoObject * conn) :=
  if negb (IsConnected c) then Val (not_connected, out, c)
  else
    '(err, payload, c) ← SendSync sync_buf0 c;
    if isError err then Val (err, out, c)
    else
      with_command out "RDM" c (λ cmd c,
        let filename := RedisConfig.rdb_filename (the_config c) in
        if bool_decide (filename = lit "-") then
          '(err, val, c) ← rdb_loop patience payload None buf0 [] c;
          Val (err, AddChildren cmd (new_FastoObject (VArray val) (Delimiter c)), c)
        else
          let '(fd, c) := on_net (open_file (c_str filename)) c in
          match fd with
          | None =>
            Val (make_error_value (MemSPrintf (lit "Error opening '%s': %s")
                   [FStr filename; FStr (net_strerror (the_net c))]) E_ERROR, cmd, c)
          | Some f =>
            '(err, _, c) ← rdb_loop patience payload (Some f) buf0 [] c;
            if isError err then Val (err, cmd, c)
            else Val (no_error, cmd, set_net (close_file f (the_net c)) c)
          end).

(** ** Scanning the keys *)

(** The error, [*it] and [*out]. *)
Definition SendScan (it : Z) c : outcome (Error * Z * option redisReply * conn) :=
  if negb (IsConnected c) then Val (not_connected, it, None, c)
  else
    '(reply, c) ← command (lit "SCAN %llu") [VaLongLong it] c;
    match reply with
    | None => Val (io_error, it, None, c)
    | Some r =>
      if is_type REDIS_REPLY_ERROR r then
        s ← rp_cstr r;
        Val (make_error_value (MemSPrintf (lit "SCAN error: %s") [FStr s]) E_ERROR, it, None, c)
      else if negb (is_type REDIS_REPLY_ARRAY r) then
        Val (make_error_value (lit "Non ARRAY response from SCAN!") E_ERROR, it, None, c)
      else if negb (rp_elements r =? 2) then
        Val (make_error_value (lit "Invalid element count from SCAN!") E_ERROR, it, None, c)
      else
        cursor ← rp_element r 0; s ← rp_cstr cursor;
        Val (no_error, FromString_uint64 s, Some r, c)
    end.

(** [redisAppendCommand(connection_.handle_, ...)], with its result left aside. *)
Definition append_format (format : bytes) (ap : list va_val) c : outcome conn :=
  '(_, c) ← on_handle (λ h n, redisAppendCommand printf_num h format ap n) c; Val c.

(** [redisGetReply]: the reply, or [None] when it fails. *)
Definition next_reply c : outcome (option redisReply * conn) :=
  '(r, c) ← on_handle (λ h n, '(ok, reply, h, n) ← redisGetReply h n; Val ((ok, reply), h, n)) c;
  let '(ok, reply) := r in
  if negb (ok : bool) then Val (None, c) else reply ← deref reply; Val (Some reply, c).

Definition get_error (what : string) (key : bytes) c : outcome Error :=
  h ← the_context c;
  Val (make_error_value (MemSPrintf (lit "Error getting " ++ lit what ++ lit " for key '%s' (%d: %s)")
         [FStr key; FInt (c_err h); FStr (c_errstr h)]) E_ERROR).

Fixpoint append_types (keys : list redisReply) c : outcome conn :=
  match keys with
  | [] => Val c
  | key :: keys => s ← rp_cstr key; c ← append_format (lit "TYPE %s") [VaStr s] c; append_types keys c
  end.

Fixpoint read_types (keys : list redisReply) (types : list Z) c : outcome (Error * list Z * conn) :=
  match keys with
  | [] => Val (no_error, types, c)
  | key :: keys =>
    '(reply, c) ← next_reply c;
    s ← rp_cstr key;
    match reply with
    | None => e ← get_error "type" s c; Val (e, types, c)
    | Some r =>
      if negb (is_type REDIS_REPLY_STATUS r) then
        Val (make_error_value (MemSPrintf (lit "Invalid reply type (%d) for TYPE on key '%s'!")
               [FInt (rp_type r); FStr s]) E_ERROR, types, c)
      else
        t ← rp_cstr r;
        let '(err, res) := toIntType s t 0 in
        if isError err then Val (err, types, c) else read_types keys (types ++ [res]) c
    end
  end.

(** The types of the keys, in order. *)
Definition GetKeyTypes (keys : redisReply) c : outcome (Error * list Z * conn) :=
  if negb (IsConnected c) then Val (not_connected, [], c)
  else l ← rp_all keys; c ← append_types l c; read_types l [] c.

Definition sizecmds : list bytes := List.map lit ["STRLEN"; "LLEN"; "SCARD"; "HLEN"; "ZCARD"]%string.
Definition typeName : list bytes := List.map lit ["string"; "list"; "set"; "hash"; "zset"]%string.
Definition typeunit : list bytes := List.map lit ["bytes"; "items"; "members"; "fields"; "members"]%string.

Definition at_type {A} (l : list A) (type : Z) : outcome A :=
  from_option_fault OutOfBounds (l !! Z.to_nat type).

Fixpoint append_sizes (keys : list (redisReply * Z)) c : outcome conn :=
  match keys with
  | [] => Val c
  | (key, type) :: keys =>
    if type =? RTYPE_NONE then append_sizes keys c
    else
      cmd ← at_type sizecmds type; s ← rp_cstr key;
      c ← append_format (lit "%s %s") [VaStr cmd; VaStr s] c;
      append_sizes keys c
  end.

Fixpoint read_sizes (keys : list (redisReply * Z)) (sizes : list Z) c : outcome (Error * list Z * conn) :=
  match keys with
  | [] => Val (no_error, sizes, c)
  | (key, type) :: keys =>
    if type =? RTYPE_NONE then read_sizes keys (sizes ++ [0]) c
    else
      '(reply, c) ← next_reply c;
      match reply with
      | None => s ← rp_cstr key; e ← get_error "size" s c; Val (e, sizes, c)
      | Some r =>
        read_sizes keys (sizes ++ [if is_type REDIS_REPLY_INTEGER r then u64 (rp_integer r) else 0]) c
      end
  end.

Definition GetKeySizes (keys : redisReply) (types : list Z) c : outcome (Error * list Z * conn) :=
  l ← rp_all keys;
  let keys := zip l types in
  c ← append_sizes keys c; read_sizes keys [] c.

(** ** Big keys *)

(** The statistics; the lists have one entry per type. *)
Record big_keys := mkBigKeys {
  biggest : list Z; counts : list Z; totalsize : list Z; maxkeys : list sdshdr;
  sampled : Z; totlen : Z
}.

(** One key; [None] for the failure of an allocation. *)
Definition count_key (b : big_keys) (key : redisReply) (type size : Z) : outcome (option big_keys) :=
  if type =? RTYPE_NONE then Val (Some b)
  else
    tot ← at_type (totalsize b) type; cnt ← at_type (counts b) type; big ← at_type (biggest b) type;
    s ← rp_str key;
    let i := Z.to_nat type in
    let b := mkBigKeys (biggest b) (<[i := u64 (cnt + 1)]> (counts b)) (<[i := u64 (tot + size)]> (totalsize b))
               (maxkeys b) (u64 (sampled b + 1)) (u64 (totlen b + Z.of_nat (length s))) in
    if big <? size then
      m ← at_type (maxkeys b) type;
      o ← sdscpy m (s ++ [NUL]);
      match o with
      | None => Val None
      | Some m => Val (Some (mkBigKeys (<[i := size]> (biggest b)) (counts b) (totalsize b)
                               (<[i := m]> (maxkeys b)) (sampled b) (totlen b)))
      end
    else Val (Some b).

Fixpoint count_keys (b : big_keys) (keys : list (redisReply * Z * Z)) : outcome (option big_keys) :=
  match keys with
  | [] => Val (Some b)
  | (key, type, size) :: keys =>
    o ← count_key b key type size;
    match o with None => Val None | Some b => count_keys b keys end
  end.

Definition storage_error : Error := make_error_value (lit "Failed to allocate storage for keys!") E_ERROR.

(** The [do ... while] loop: the error or the statistics. *)
Fixpoint scan_keys (fuel : nat) (total_keys it arrsize : Z) (b : big_keys) c
    : outcome (Error * big_keys * conn) :=
  match fuel with
  | O => Fault OutOfFuel
  | S fuel =>
    _ ← div (sampled b) total_keys;
    '(er, it, reply, c) ← SendScan it c;
    if isError er then Val (er, b, c)
    else
      reply ← deref reply;
      keys ← rp_element reply 1;
      let elements := rp_elements keys in
      let grow := elements >? arrsize in
      if grow && negb (bool_decide (is_Some (malloc (4 * elements)) ∧ is_Some (malloc (8 * elements)))) then
        Val (storage_error, b, c)
      else
        let arrsize := if grow then u32 elements else arrsize in
        '(er, types, c) ← GetKeyTypes keys c;
        if isError er then Val (er, b, c)
        else
          '(er, sizes, c) ← GetKeySizes keys types c;
          if isError er then Val (er, b, c)
          else
            l ← rp_all keys;
            o ← count_keys b (zip (zip l types) sizes);
            match o with
            | None => Val (make_error_value (lit "Failed to allocate memory for key!") E_ERROR, b, c)
            | Some b =>
              let interval := RedisConfig.interval (the_config c) in
              let c := if negb (sampled b =? 0) && (sampled b mod 100 =? 0) && negb (interval =? 0)
                       then set_net (usleep interval (the_net c)) c else c in
              if it =? 0 then Val (no_error, b, c) else scan_keys fuel total_keys it arrsize b c
            end
  end.

Fixpoint empty_sds (n : nat) : outcome (option (list sdshdr)) :=
  match n with
  | O => Val (Some [])
  | S n => o ← sdsempty; match o with
                         | None => Val None
                         | Some s => r ← empty_sds n; Val (option_map (cons s) r)
                         end
  end.

(** The two loops over the types that fill the output. *)
Fixpoint report_biggest (l : list (bytes * bytes * sdshdr * Z)) (cmd : FastoObject) c : outcome FastoObject :=
  match l with
  | [] => Val cmd
  | (name, unit, key, big) :: l =>
    let cmd := if sdslen key >? 0
               then add_string cmd (MemSPrintf (lit "Biggest %6s found '%s' has %llu %s")
                      [FStr name; FStr (c_str (sds_buf key)); FInt big; FStr unit]) c
               else cmd in
    report_biggest l cmd c
  end.

Fixpoint report_counts (l : list (bytes * bytes * Z * Z)) (sampled : Z) (cmd : FastoObject) c : FastoObject :=
  match l with
  | [] => cmd
  | (name, unit, cnt, tot) :: l =>
    let share := if negb (sampled =? 0) then 100 * (cnt / sampled) else 0 in
    let avg := if negb (cnt =? 0) then tot / cnt else 0 in
    report_counts l sampled
      (add_string cmd (MemSPrintf (lit "%llu %ss with %llu %s (%05.2f%% of keys, avg size %.2f)")
         [FInt cnt; FStr name; FInt tot; FStr unit; FDouble share; FDouble avg]) c) c
  end.

Definition FindBigKeys (out : FastoObject) c : outcome (Error * FastoObject * conn) :=
  if negb (IsConnected c) then Val (not_connected, out, c)
  else
    with_command out "FIND_BIG_KEYS" c (λ cmd c,
      '(er, total_keys, c) ← DBkcount 0 c;
      if isError er then Val (er, cmd, c)
      else
        o ← empty_sds 5;
        match o with
        | None =>
          Val (make_error_value (lit "Failed to allocate memory for largest key names!") E_ERROR, cmd, c)
        | Some keys =>
          let zeros := [0; 0; 0; 0; 0] in
          '(er, b, c) ← scan_keys patience total_keys 0 0 (mkBigKeys zeros zeros zeros keys 0 0) c;
          if isError er then Val (er, cmd, c)
          else
            _ ← (if negb (totlen b =? 0) then div (totlen b) (sampled b) else Val 0);
            cmd ← report_biggest (zip (zip (zip typeName typeunit) (maxkeys b)) (biggest b)) cmd c;
            Val (no_error,
                 report_counts (zip (zip (zip typeName typeunit) (counts b)) (totalsize b)) (sampled b) cmd c, c)
        end).

(** ** Statistics *)

(** [while (!reply)]: until a reply, or an error that is neither [REDIS_ERR_IO] nor [REDIS_ERR_EOF] by
    its bits. *)
Fixpoint info_loop (fuel : nat) (text : bytes) c : outcome ((Error + redisReply) * conn) :=
  match fuel with
  | O => Fault OutOfFuel
  | S fuel =>
    '(reply, c) ← command text [] c;
    h ← the_context c;
    if negb (c_err h =? 0) && (Z.land (c_err h) (Z.lor REDIS_ERR_IO REDIS_ERR_EOF) =? 0) then
      Val (inl (make_error_value (MemSPrintf (lit "ERROR: %s") [FStr (c_errstr h)]) E_ERROR), c)
    else match reply with None => info_loop fuel text c | Some r => Val (inr r, c) end
  end.

(** [SNPrintf(buf, sizeof(buf), ...)] with a buffer of 64 bytes, and what [buf] then reads as. *)
Definition stat_text (buf : bytes) (fmt : string) (args : list fmt_arg) : outcome (bytes * bytes) :=
  buf ← snprintf_at buf 0 64 fmt args; Val (buf, c_str buf).

(** The keys of the databases 0 to 19. *)
Fixpoint keys_loop (n : nat) (j : Z) (info buf : bytes) (aux : Z) : outcome (bytes * Z) :=
  match n with
  | O => Val (buf, aux)
  | S n =>
    '(buf, field) ← stat_text buf "db%d:keys" [FInt j];
    k ← getLongInfoField info field;
    aux ← (if k =? LLONG_MIN then Val aux else long_arith (aux + k));
    keys_loop n (j + 1) info buf aux
  end.

Definition shift_left_1 (z : Z) : outcome Z :=
  if z <? 0 then Fault SignedOverflow else long_arith (z * 2).

(** The line for one [INFO] text [str]; the result also has the new value of [requests]. *)
Definition stat_line (str : bytes) (requests : Z) : outcome (bytes * Z) :=
  let info := str ++ [NUL] in
  '(buf, aux) ← keys_loop 20 0 info (List.repeat NUL 64) 0;
  '(buf, t) ← stat_text buf "keys %ld" [FInt aux];
  let result := t in
  aux ← getLongInfoField info (lit "used_memory");
  buf ← bytesToHuman buf 64 aux;
  let result := result ++ lit " used_memory: " ++ c_str buf in
  aux ← getLongInfoField info (lit "connected_clients");
  '(buf, t) ← stat_text buf " connected_clients: %ld" [FInt aux];
  let result := result ++ t in
  aux ← getLongInfoField info (lit "blocked_clients");
  '(buf, t) ← stat_text buf " blocked_clients: %ld" [FInt aux];
  let result := result ++ t in
  aux ← getLongInfoField info (lit "total_commands_processed");
  more ← (if requests =? 0 then Val 0 else long_arith (aux - requests));
  '(buf, t) ← stat_text buf " total_commands_processed: %ld (+%ld)" [FInt aux; FInt more];
  let result := result ++ t in
  let requests := aux in
  aux ← getLongInfoField info (lit "total_connections_received");
  '(buf, t) ← stat_text buf " total_connections_received: %ld" [FInt aux];
  let result := result ++ t in
  a ← getLongInfoField info (lit "bgsave_in_progress");
  b ← getLongInfoField info (lit "aof_rewrite_in_progress");
  b ← shift_left_1 b;
  let aux := Z.lor a b in
  let result := result ++ (if aux =? 1 then lit " SAVE" else if aux =? 2 then lit " AOF"
                           else if aux =? 3 then lit " SAVE+AOF" else []) in
  Val (result, requests).

Fixpoint stat_loop (fuel : nat) (requests : Z) (cmd : FastoObject) c : outcome (Error * FastoObject * conn) :=
  let '(stop, c) := look_interrupted c in
  if (stop : bool) then Val (interrupted, cmd, c)
  else
    match fuel with
    | O => Fault OutOfFuel
    | S fuel =>
      '(r, c) ← info_loop patience (InputCommand cmd) c;
      match r with
      | inl err => Val (err, cmd, c)
      | inr reply =>
        s ← rp_cstr reply;
        if is_type REDIS_REPLY_ERROR reply then
          Val (make_error_value (MemSPrintf (lit "ERROR: %s") [FStr s]) E_ERROR, cmd, c)
        else
          '(result, requests) ← stat_line s requests;
          let cmd := add_string cmd result c in
          stat_loop fuel requests cmd (set_net (usleep (RedisConfig.interval (the_config c)) (the_net c)) c)
      end
    end.

Definition StatMode (out : FastoObject) c : outcome (Error * FastoObject * conn) :=
  if negb (IsConnected c) then Val (not_connected, out, c)
  else
    with_command out "INFO" c (λ cmd c,
      let c := if RedisConfig.interval (the_config c) =? 0
               then set_config (RedisConfig.with_interval 1000000) c else c in
      stat_loop patience 0 cmd c).

(** ** Scan *)

Fixpoint add_elements (l : list redisReply) (cmd : FastoObject) c : outcome FastoObject :=
  match l with
  | [] => Val cmd
  | e :: l => s ← rp_cstr e; add_elements l (add_string cmd s c) c
  end.

Fixpoint scan_loop (fuel : nat) (pattern : option bytes) (cur : Z) (cmd : FastoObject) c
    : outcome (Error * FastoObject * conn) :=
  match fuel with
  | O => Fault OutOfFuel
  | S fuel =>
    '(reply, c) ← match pattern with
                   | Some p => command (lit "SCAN %llu MATCH %s") [VaLongLong cur; VaStr p] c
                   | None => command (lit "SCAN %llu") [VaLongLong cur] c
                   end;
    match reply with
    | None => Val (io_error, cmd, c)
    | Some r =>
      if is_type REDIS_REPLY_ERROR r then
        s ← rp_cstr r;
        Val (make_error_value (MemSPrintf (lit "ERROR: %s") [FStr s]) E_ERROR, cmd, c)
      else
        cursor ← rp_element r 0; s ← rp_cstr cursor;
        let cur := strtoull s in
        keys ← rp_element r 1; l ← rp_all keys;
        cmd ← add_elements l cmd c;
        if cur =? 0 then Val (no_error, cmd, c) else scan_loop fuel pattern cur cmd c
    end
  end.

Definition ScanMode (out : FastoObject) c : outcome (Error * FastoObject * conn) :=
  if negb (IsConnected c) then Val (not_connected, out, c)
  else
    with_command out "SCAN" c (λ cmd c,
      scan_loop patience (c_strornull (RedisConfig.pattern (the_config c))) 0 cmd c).
End Modes.

(** * The members behind the command functions

    [stack_bytes]: what the stack holds where a buffer is placed. *)

Class Stack := stack_bytes : bytes.

#[export] Instance redis_ops {N : Type} `{Network N} `{RedisEnv N} `{ModesEnv N} `{Alloc} `{Patience}
    `{CommonLib} `{CommonRedis} `{ConfigLib} `{CNumbers} `{Project} `{Stack}
    : RedisOps RConfig redisContext (RWorld N) := {|
  redis_CommonExec := CommonExec;
  redis_Auth := Auth;
  redis_Help argc argv out c :=
    '(err, out) ← cliOutputHelp (Delimiter c) argc argv out; Val (err, out, c);
  redis_Monitor := Monitor;
  redis_Subscribe := Subscribe;
  redis_SlaveMode := SlaveMode stack_bytes;
  redis_Lrange := Lrange;
  redis_Smembers := Smembers;
  redis_Zrange := Zrange;
  redis_Hgetall := Hgetall
|}.
