(* ===== verification/RedisAnswers.v ===== *)
(** What a command line does over a Redis connection: the words that reach the server, and what its
    replies become. *)
From Stdlib Require Import Ascii String ZArith Lia.
From stdpp Require Import base list.
From S2P Require Import Prelude Common Texts Values Connection Commands Handlers RedisTable Translators SdsArgs Sds SdsProps Hiredis HiredisFormat HiredisReader HiredisFeed HiredisDrain HiredisParse HiredisStream HiredisContext HiredisAnswers Configs SshInfo RedisReply RedisApi RedisHelp RedisConn RedisModes.
Local Open Scope Z_scope.
#[local] Set Warnings "-register-all".

(** * Replies as output objects

    The object of an array: the values of its elements in order, without those that are arrays
    themselves, which become child objects. *)

Definition scalar_of (v : resp) : list value :=
  match v with
  | RString s | RStatus s => [VString s]
  | RError s => [VError s]
  | RInteger z => [VInteger z]
  | RNil | RNilArray => [VNull]
  | RArray _ => []
  end.

Fixpoint nested_of (delimiter : bytes) (v : resp) : list FastoObject :=
  match v with
  | RArray l => [mkFastoObject (VArray (List.concat (List.map scalar_of l))) delimiter
                   (List.concat (List.map (nested_of delimiter) l))]
  | _ => []
  end.

(** The error of a reply, and what it adds to the children of the output object. *)
Definition reply_result (v : resp) : Error := match v with RError s => make_error_value s E_ERROR | _ => no_error end.

Definition reply_objects (delimiter : bytes) (v : resp) : list FastoObject :=
  match v with
  | RError _ => []
  | RArray _ => nested_of delimiter v
  | _ => List.map (λ x, new_FastoObject x delimiter) (scalar_of v)
  end.

Definition add_objects (o : FastoObject) (l : list FastoObject) : FastoObject :=
  mkFastoObject (value_ o) (delimiter_ o) (childrens_ o ++ l).

Section Format.
Context `{CommonLib} `{CommonRedis}.
Variable delimiter : bytes.

Lemma format_array v : ∀ l d ch,
  CliFormatReplyRaw_array delimiter (mkFastoObject (VArray l) d ch) (reply_of v)
  = Val (mkFastoObject (VArray (l ++ scalar_of v)) d (ch ++ nested_of delimiter v)).
Proof.
  induction v as [s|s|s|z| | |vs IH] using resp_ind'; intros l d ch;
    cbn [reply_of CliFormatReplyRaw_array scalar_of nested_of FastoObjectArray_Append value_ delimiter_ childrens_];
    rewrite ?app_nil_r; try done.
  rewrite length_map, Z.eqb_refl. cbn [negb].
  assert (Hgo : ∀ l1 ch1,
    (fix go l child := match l with
                       | [] => Val child
                       | e :: l => child ← CliFormatReplyRaw_array delimiter child e; go l child
                       end) (List.map reply_of vs) (mkFastoObject (VArray l1) delimiter ch1)
    = Val (mkFastoObject (VArray (l1 ++ List.concat (List.map scalar_of vs))) delimiter
             (ch1 ++ List.concat (List.map (nested_of delimiter) vs)))).
  { induction vs as [|w vs IHvs]; intros l1 ch1; cbn [List.map List.concat]; [by rewrite !app_nil_r|].
    apply Forall_cons in IH as [IHw IHl]. rewrite IHw. cbn [mbind outcome_bind]. rewrite IHvs by done.
    by rewrite !app_assoc. }
  unfold new_FastoObjectArray. rewrite Hgo. done.
Qed.

(** A reply that is not an error adds its objects; an error is the result, and one that mentions
    [NOAUTH] takes the authentication back. *)
Lemma format_reply out auth v :
  CliFormatReplyRaw delimiter out auth (reply_of v)
  = Val (reply_result v, add_objects out (reply_objects delimiter v),
         match v with RError s => if strcasestr (c_str s) (lit "NOAUTH") then false else auth | _ => auth end).
Proof.
  assert (Hno : add_objects out [] = out) by (destruct out; unfold add_objects; by rewrite app_nil_r).
  destruct v as [s|s|s|z| | |l]; cbn [reply_of CliFormatReplyRaw reply_result reply_objects scalar_of List.map];
    try done.
  - cbn. by rewrite Hno.
  - destruct out as [w d ch].
    change (RpArray (Z.of_nat (length l)) (List.map reply_of l)) with (reply_of (RArray l)).
    assert (Hout : ∀ w, CliFormatReplyRaw_array delimiter (mkFastoObject w d ch) (reply_of (RArray l))
              = Val (mkFastoObject w d (ch ++ nested_of delimiter (RArray l)))).
    { intros w'. pose proof (format_array (RArray l) [] d ch) as Ha.
      cbn [reply_of CliFormatReplyRaw_array] in Ha |- *. destruct (negb _); [done|].
      match type of Ha with (mbind _ ?x) = _ => destruct x as [child|]; [|done] end.
      cbn [mbind outcome_bind AddChildren value_ delimiter_ childrens_] in Ha |- *. injection Ha as Ha.
      unfold AddChildren. simpl. by rewrite Ha. }
    rewrite Hout. done.
Qed.
End Format.

(** * A connection over a scripted network *)

Section Answers.
Context `{AllocLaws} `{Patience} `{CommonLaws} `{CommonRedis} `{ConfigLib} `{CNumbers} `{Project}
  `{RedisEnv script} `{ModesEnv script} `{Stack}.
Local Abbreviation rconn := (CDBConnection RConfig redisContext (RWorld script)).
Implicit Types (c : rconn) (h : redisContext) (n : script).

(** The connection [c] with another context and network. *)
Definition with_handle c h n : rconn :=
  set_connection c (mkConnection (config_ (connection_ c)) (Some h) (mkRWorld n (IsAuth c))).

(** The request [t] waits in the output buffer. *)
Definition requested h (t : bytes) : Prop :=
  c_err h = 0 ∧ blocking h = true ∧ holds (c_obuf h) t ∧ waiting (c_reader h).

Lemma append_argv_spec c h n t args argv argvlen :
  handle_ (connection_ c) = Some h → the_net c = n → length argv = length args →
  memory → requested h t → args_at argv argvlen args →
  Z.of_nat (length (t ++ resp_command args)) + 1 + SDS_MAX_PREALLOC <= INT_MAX →
  ∃ h', append_argv argv argvlen c = Val (with_handle c h' n) ∧ requested h' (t ++ resp_command args).
Proof.
  intros Hh Hn Hlen Hm (Hc & Hb & Ho & Hw) Hat Hfit. pose proof Hfit as Hall. rewrite length_app in Hfit.
  destruct (redisFormatSdsCommandArgv_spec argv argvlen args Hat ltac:(lia))
    as [[_ Hno]|(cmd & Hfmt & Hcmd & Hct)]; [by destruct (memory_enough Hm)|].
  destruct (append_command h n cmd t (resp_command args) Hm Ho Hcmd Hct) as (o & Happ & Ho1); [lia|].
  exists (set_obuf h o). unfold append_argv, on_handle. rewrite Hh. cbn [deref from_option_fault mbind outcome_bind].
  unfold redisAppendCommandArgv. rewrite Hlen, Hfmt. cbn [mbind outcome_bind].
  unfold the_net in Hn. rewrite Hn, Happ. cbn [mbind outcome_bind]. split; [done|]. by split_and!.
Qed.

Lemma with_last_cmd_type_keeps t (k : RedisConfig.Config) :
  RedisConfig.cluster_mode (RedisConfig.with_last_cmd_type t k) = RedisConfig.cluster_mode k ∧
  RedisConfig.delimiter (RedisConfig.with_last_cmd_type t k) = RedisConfig.delimiter k.
Proof. by destruct k. Qed.

Lemma set_last_cmd_type t c h n :
  let c' := set_config (RedisConfig.with_last_cmd_type t) (with_handle c h n) in
  RedisConfig.cluster_mode (the_config c') = RedisConfig.cluster_mode (the_config c) ∧
  Delimiter c' = Delimiter c ∧ IsAuth c' = IsAuth c.
Proof.
  destruct (with_last_cmd_type_keeps t (the_config c)) as [Hc Hd]. split; [exact Hc|].
  split; [exact Hd|done].
Qed.

(** The connection after the reply [v]: the type of the reply is remembered. *)
Definition after_reply c h n (v : resp) : rconn :=
  set_isAuth (match v with RError s => if strcasestr (c_str s) (lit "NOAUTH") then false else IsAuth c
                         | _ => IsAuth c end)
    (set_config (RedisConfig.with_last_cmd_type (rp_type (reply_of v))) (with_handle c h n)).

(** [o] is what a reply [v], asked for with the text [t], does; [e] is the part of it that is missing. *)
Definition answered (o : outcome (Error * FastoObject * rconn)) (out : FastoObject) c n (t : bytes) (v : resp)
    (e : bytes) (l later : list (option bytes)) : Prop :=
  ∃ h' n', sent n' = sent n ++ t ∧
    reply_comes e
      (o = Val (reply_result v, add_objects out (reply_objects (Delimiter c) v), after_reply c h' n' v)
       ∧ ready h' ∧ served n t l later n')
      (o = Val (needed_reconnect, out, with_handle c h' n')).

Lemma cli_read_reply out c h n t v e l later :
  handle_ (connection_ c) = Some h → the_net c = n → memory → requested h t → arrives n v e l later →
  RedisConfig.cluster_mode (the_config c) = 0 →
  answered (CliReadReply out c) out c n t v e l later.
Proof.
  intros Hh Hn Hm (Hc & Hb & Ho & Hw) Ha Hcl.
  destruct (get_reply h n t v e l later Hm Hc Hb Ho Hw Ha)
    as (ok & o & h' & n' & Hget & Hsent & Hcase).
  assert (IsConnected c = true) as Hcon.
  { unfold IsConnected, Connection_IsConnected. simpl. by rewrite Hh. }
  exists h', n'. split; [done|].
  assert (Hon : on_handle (λ h n, '(ok, reply, h, n) ← redisGetReply h n; Val ((ok, reply), h, n)) c
                = Val ((ok, o), with_handle c h' n')).
  { unfold on_handle. rewrite Hh. cbn [deref from_option_fault mbind outcome_bind].
    unfold the_net in Hn. by rewrite Hn, Hget. }
  unfold CliReadReply. rewrite Hcon, Hon. cbn [negb mbind outcome_bind]. unfold reply_comes in *.
  destruct e as [|x e].
  - destruct Hcase as (-> & -> & Hr & Hdn). split; [|done]. cbn [deref from_option_fault negb mbind outcome_bind].
    destruct (set_last_cmd_type (rp_type (reply_of v)) c h' n') as (-> & -> & ->).
    rewrite Hcl. cbn [Z.eqb negb andb mbind outcome_bind]. by rewrite format_reply.
  - destruct Hcase as (-> & -> & He). cbn [negb the_context]. unfold the_context, with_handle.
    cbn [set_connection connection_ handle_ deref from_option_fault mbind outcome_bind]. by rewrite He.
Qed.

Lemma the_net_with c h n : the_net (with_handle c h n) = n.
Proof. done. Qed.

Lemma isError_reply_result v : isError (reply_result v) = match v with RError _ => true | _ => false end.
Proof. destruct v; try done. apply isError_E_ERROR. Qed.

Lemma exec_answered args out c h n v e l later :
  handle_ (connection_ c) = Some h → the_net c = n → memory → ready h → arrives n v e l later →
  RedisConfig.cluster_mode (the_config c) = 0 →
  Z.of_nat (length (resp_command args)) + 1 + SDS_MAX_PREALLOC <= INT_MAX →
  answered (CommonExec (argc_of args) (vec [] args) out c) out c n (resp_command args) v e l later.
Proof.
  intros Hh Hn Hm Hr Ha Hcl Hfit.
  assert (IsConnected c = true) as Hcon.
  { unfold IsConnected, Connection_IsConnected. simpl. by rewrite Hh. }
  destruct (append_argv_spec c h n [] args args (Some (List.map (λ w : bytes, Z.of_nat (length w)) args)))
    as (h1 & Happ & Hreq); [done..|apply args_at_lengths|done|].
  assert (append_words (argc_of args) (vec [] args) c = Val (with_handle c h1 n)) as Hw.
  { unfold append_words, argc_of. rewrite Nat2Z.id.
    pose proof (aget_raw_range_at [] args) as Hx. change (Argv ([] ++ args) _) with (vec [] args) in Hx.
    rewrite Hx. cbn [mbind outcome_bind]. rewrite Happ.
    destruct (Z.gtb_spec (Z.of_nat (length args)) 0); [|done].
    destruct (Hm (Z.of_nat (length args) * 8)) as [b ->]; [lia|done]. }
  destruct (cli_read_reply out (with_handle c h1 n) h1 n _ v e l later eq_refl eq_refl Hm Hreq Ha Hcl)
    as (h' & n' & Hs & Hcase).
  exists h', n'. split; [done|]. unfold CommonExec. rewrite Hcon, Hw. cbn [negb mbind outcome_bind].
  unfold reply_comes in *. destruct e as [|x e].
  - destruct Hcase as (-> & Hr' & Hd). split; [|done]. cbn [mbind outcome_bind].
    rewrite isError_reply_result. by destruct v.
  - rewrite Hcase. cbn [mbind outcome_bind]. unfold needed_reconnect. by rewrite isError_make_error.
Qed.

(** * Command lines *)

Definition sends_line (f : Redis.fn) : bool :=
  match f with Redis.f_common_exec | Redis.f_common_exec_off2 => true | _ => false end.

Lemma sends_line_words cmd :
  In cmd Redis.redisCommands → RedisApi.fn_words (func_ cmd) (Z.of_nat (name_words cmd)) = true.
Proof.
  revert cmd. rewrite <- forallb_forall. by vm_compute.
Qed.

(** The state of a handler after a call that writes to the output. *)
Definition hst_of (o : outcome (Error * FastoObject * rconn)) : outcome (Error * hst RConfig redisContext (RWorld script)) :=
  '(e, o, c) ← o; Val (e, mkHst c o).

Lemma line_executes args cmd (s : hst RConfig redisContext (RWorld script)) :
  argc_of args <= INT_MAX → List.find (λ x, names_line x args) Redis.redisCommands = Some cmd →
  in_range cmd (argc_of args - Z.of_nat (name_words cmd)) = true → sends_line (func_ cmd) = true →
  Execute RedisApi.run Redis.redisCommands (argc_of args) (vec [] args) s
  = hst_of (CommonExec (argc_of args) (vec [] args) (out s) (conn s)).
Proof.
  intros Hmax Hf Hr Hs. rewrite Execute_spec by (done || by vm_compute). unfold execute_spec.
  rewrite Hf, Hr. apply find_some in Hf as [Hin Hn]. pose proof (sends_line_words cmd Hin) as Hw.
  unfold names_line in Hn. apply andb_true_iff in Hn as [Hlen%Nat.leb_le _].
  rewrite <- (ashift_vec [] args) by done. remember (name_words cmd) as k eqn:Hk. clear Hk.
  destruct (func_ cmd); try done; cbn [RedisApi.run RedisApi.fn_words] in *; apply Z.eqb_eq in Hw;
    rewrite Hw; unfold RedisApi.common_exec, RedisApi.common_exec_off2, RedisApi.on_out;
    rewrite ashift_ashift; rewrite ashift_0;
    match goal with |- context [redis_CommonExec ?x] => replace x with (argc_of args) by lia end; done.
Qed.

(** * Commands written as formats *)

Lemma command_spec format ap args c h n v e l later :
  handle_ (connection_ c) = Some h → the_net c = n → memory → ready h → arrives n v e l later →
  format_args printf_num format ap = Val (Some args) →
  Z.of_nat (length (resp_command args)) + 1 + SDS_MAX_PREALLOC <= INT_MAX →
  ∃ h' n', sent n' = sent n ++ resp_command args ∧
    reply_comes e
      (command format ap c = Val (Some (reply_of v), with_handle c h' n') ∧ ready h' ∧
       served n (resp_command args) l later n')
      (command format ap c = Val (None, with_handle c h' n') ∧ c_err h' = REDIS_ERR_EOF).
Proof.
  intros Hh Hn Hm (Hc & Hb & Ho & Hw) Ha Hf Hmax.
  assert (0 <= SDS_MAX_PREALLOC) by (unfold SDS_MAX_PREALLOC; lia).
  destruct (redisvFormatCommand_spec printf_num format ap args Hf ltac:(lia)) as [[_ Hno]|Hcmd];
    [by destruct (memory_enough Hm)|].
  destruct (append_raw h n [] (resp_command args) [NUL] Hm Ho) as (o & Happ & Ho1); [cbn [app]; lia|].
  cbn [app] in Ho1. destruct (get_reply (set_obuf h o) n _ v e l later Hm Hc Hb Ho1 Hw Ha)
    as (ok & r & h' & n' & Hget & Hsent & Hcase).
  exists h', n'. split; [done|].
  assert (Hrun : command format ap c = Val (if ok then r else None, with_handle c h' n')).
  { unfold command, on_handle. rewrite Hh. cbn [deref from_option_fault mbind outcome_bind].
    unfold the_net in Hn. rewrite Hn. unfold redisCommand, redisvCommand, redisvAppendCommand.
    rewrite Hcmd. cbn [mbind outcome_bind]. rewrite Happ. cbn [mbind outcome_bind negb].
    unfold __redisBlockForReply. change (blocking (set_obuf h o)) with (blocking h). rewrite Hb, Hget.
    cbn [mbind outcome_bind]. by destruct ok. }
  unfold reply_comes in *. destruct e.
  - destruct Hcase as (-> & -> & Hr & Hdn). done.
  - destruct Hcase as (-> & -> & He). done.
Qed.

(** The connection has a context between two requests. *)
Definition ready_conn c h n : Prop := handle_ (connection_ c) = Some h ∧ the_net c = n ∧ ready h.

Lemma ready_connected c h n : ready_conn c h n → IsConnected c = true.
Proof. intros (Hh & _ & _). unfold IsConnected, Connection_IsConnected. simpl. by rewrite Hh. Qed.

Lemma ready_with c h n : ready h → ready_conn (with_handle c h n) h n.
Proof. done. Qed.

(** A request fits the integers of the library. *)
Definition fits (args : list bytes) : Prop :=
  Z.of_nat (length (resp_command args)) + 1 + SDS_MAX_PREALLOC <= INT_MAX.

(** A command of words, strings and numbers, and its whole reply. *)
Lemma pieces_command ps c h n v l later :
  ready_conn c h n → memory → arrives n v [] l later → forallb HiredisFormat.piece_ok ps = true →
  fits (List.map (piece_text printf_num) ps) →
  ∃ h' n', command (pieces_format ps) (pieces_va ps) c = Val (Some (reply_of v), with_handle c h' n') ∧
    ready h' ∧ served n (resp_command (List.map (piece_text printf_num) ps)) l later n'.
Proof.
  intros (Hh & Hn & Hr) Hm Ha Hps Hf. pose proof (format_pieces printf_num ps [] Hps) as Hfmt.
  rewrite app_nil_r in Hfmt.
  destruct (command_spec _ _ _ c h n v [] l later Hh Hn Hm Hr Ha Hfmt Hf) as (h' & n' & _ & Hc).
  by exists h', n'.
Qed.

(** ** Keys as arguments *)

Lemma get_sent k kv c h n v l later :
  ready_conn c h n → memory → arrives n v [] l later → fits [lit "GET"; c_str (key_ k)] →
  ∃ h' n', ready h' ∧ served n (resp_command [lit "GET"; c_str (key_ k)]) l later n' ∧
    GetImpl k kv c =
      match v with
      | RString s => Val (no_error, mkNDbKValue k (Some (VString (c_str s))), with_handle c h' n')
      | RNil | RNilArray => Val (no_error, mkNDbKValue k (Some VNull), with_handle c h' n')
      | RError s => Val (make_error_value s E_ERROR, kv, with_handle c h' n')
      | _ => Val (no_error, mkNDbKValue k None, with_handle c h' n')
      end.
Proof.
  intros Hr Hm Ha Hf.
  destruct (pieces_command [Word (lit "GET"); Str (key_ k)] c h n v l later Hr Hm Ha eq_refl Hf)
    as (h' & n' & Hc & Hr' & Hs).
  exists h', n'. split; [done|]. split; [done|]. cbn [GetImpl redis_impl]. unfold Redis_GetImpl.
  change (lit "GET %s") with (pieces_format [Word (lit "GET"); Str (key_ k)]).
  change [VaStr (key_ k)] with (pieces_va [Word (lit "GET"); Str (key_ k)]). rewrite Hc.
  cbn [mbind outcome_bind]. by destruct v.
Qed.

Lemma set_sent kv kv0 c h n v l later :
  ready_conn c h n → memory → arrives n v [] l later →
  let args := [lit "SET"; c_str (KeyString kv); c_str (ValueString kv)] in
  fits args →
  ∃ h' n', ready h' ∧ served n (resp_command args) l later n' ∧
    SetImpl kv kv0 c =
      match v with
      | RError s => Val (make_error_value s E_ERROR, kv0, with_handle c h' n')
      | _ => Val (no_error, kv, with_handle c h' n')
      end.
Proof.
  cbv zeta. intros Hr Hm Ha Hf. set (ps := [Word (lit "SET"); Str (KeyString kv); Str (ValueString kv)]).
  destruct (pieces_command ps c h n v l later Hr Hm Ha eq_refl Hf) as (h' & n' & Hc & Hr' & Hs).
  exists h', n'. split; [done|]. split; [done|]. cbn [SetImpl redis_impl]. unfold Redis_SetImpl.
  change (lit "SET %s %s") with (pieces_format ps).
  change [VaStr (KeyString kv); VaStr (ValueString kv)] with (pieces_va ps). rewrite Hc.
  cbn [mbind outcome_bind]. by destruct v.
Qed.

(** ** Keys as formats *)

Lemma delete_text k : translated (DeleteKeyCommand redis_translator k (Some [])) = (no_error, lit "DEL " ++ key_ k).
Proof.
  unfold translated, DeleteKeyCommand, with_cmdstring, redis_translator, pattern1. cbn [DeleteKeyCommandImpl].
  by rewrite (MemSPrintf_spec _ _ (lit "DEL " ++ key_ k)) by (simpl; by rewrite app_nil_r).
Qed.

(** A word that a format leaves as it is. *)
Definition format_word (w : bytes) : bool := HiredisFormat.piece_ok (Word w).

(** The words of a line that is used as a format. *)
Lemma words_command ws c h n v l later :
  ready_conn c h n → memory → arrives n v [] l later → forallb format_word ws = true → fits ws →
  ∃ h' n', command (join_with [chr_sp] ws) [] c = Val (Some (reply_of v), with_handle c h' n') ∧
    ready h' ∧ served n (resp_command ws) l later n'.
Proof.
  intros Hr Hm Ha Hws Hf. set (ps := List.map Word ws).
  assert (Htext : List.map (piece_text printf_num) ps = ws).
  { unfold ps. rewrite map_map. apply map_id. }
  assert (Hfmt : pieces_format ps = join_with [chr_sp] ws).
  { unfold pieces_format, ps. rewrite map_map. cbn [piece_format]. by rewrite map_id. }
  assert (Hva : pieces_va ps = []).
  { unfold pieces_va, ps. clear. induction ws as [|w ws IH]; [done|exact IH]. }
  assert (Hok : forallb HiredisFormat.piece_ok ps = true).
  { unfold ps. rewrite forallb_forall in Hws |- *. intros p (w & <- & Hw)%in_map_iff. by apply Hws. }
  destruct (pieces_command ps c h n v l later Hr Hm Ha Hok) as (h' & n' & Hc & Hr' & Hs); [by rewrite Htext|].
  rewrite Htext in Hs. rewrite Hfmt, Hva in Hc. by exists h', n'.
Qed.

Lemma delete_sent ws acc c h n v l later :
  ready_conn c h n → memory → arrives n v [] l later → ws ≠ [] → forallb format_word ws = true →
  fits (lit "DEL" :: ws) →
  let key := new_NKey (join_with [chr_sp] ws) in
  ∃ h' n', ready h' ∧ served n (resp_command (lit "DEL" :: ws)) l later n' ∧
    DeleteImpl [key] acc c =
      Val (no_error, acc ++ match v with RInteger 1 => [key] | _ => [] end, with_handle c h' n').
Proof.
  cbv zeta. intros Hr Hm Ha Hne Hws Hf.
  destruct (words_command (lit "DEL" :: ws) c h n v l later Hr Hm Ha) as (h' & n' & Hc & Hr' & Hs);
    [by cbn [forallb]; rewrite Hws|done|].
  exists h', n'. split; [done|]. split; [done|]. cbn [DeleteImpl redis_impl Redis_DeleteImpl].
  rewrite delete_text. cbn [isError key_ new_NKey]. rewrite join_with_cons in Hc by done.
  change (lit "DEL " ++ join_with [chr_sp] ws) with (lit "DEL" ++ [chr_sp] ++ join_with [chr_sp] ws).
  rewrite Hc. cbn [mbind outcome_bind].
  f_equal. f_equal. f_equal. destruct v as [t|t|t|z| | |vs]; cbn [reply_of is_type rp_type rp_integer];
    try (by rewrite app_nil_r).
  unfold is_type. cbn [rp_type rp_integer]. rewrite Z.eqb_refl.
  destruct (Z.eqb_spec z 1) as [->|Hz]; [done|]. cbn [andb].
  destruct z as [|[]|]; try done; by rewrite app_nil_r.
Qed.

Lemma format_reads_missing w r :
  forallb plain_format_char w = true → no_nul r →
  format_args printf_num (lit "DEL " ++ w ++ lit "%s" ++ r) [] = Fault OutOfBounds.
Proof.
  intros Hw Hr. unfold format_args.
  assert (c_str (lit "DEL " ++ w ++ lit "%s" ++ r) = lit "DEL" ++ chr_sp :: w ++ lit "%s" ++ r) as ->.
  { rewrite c_str_no_nul; [done|]. unfold no_nul in *. intros Hin.
    apply elem_of_app in Hin as [Hin|Hin]; [by apply (no_nul_check (lit "DEL ")) in Hin|].
    apply elem_of_app in Hin as [Hin|Hin]; [by apply (chars_no_nul plain_format_char w) in Hin|].
    apply elem_of_app in Hin as [Hin|Hin]; [by apply (no_nul_check (lit "%s")) in Hin|done]. }
  rewrite !length_app. cbn [length lit].
  replace (length (lit "DEL ") + _)%nat with (length (lit "DEL") + S (length w + S (S (length r))))%nat
    by (simpl; lia).
  rewrite format_loop_plain by done.
  change (format_loop printf_num (S (length w + S (S (length r)))) (chr_sp :: w ++ lit "%s" ++ r) [] [] ([] ++ lit "DEL") true)
    with (format_loop printf_num (length w + S (S (length r))) (w ++ lit "%s" ++ r) [] [lit "DEL"] [] false).
  destruct w as [|x w]; [done|]. rewrite format_loop_plain by done. done.
Qed.

(** A key with a conversion makes the formatting read an argument that was not passed. *)
Lemma delete_faults w r acc c h :
  handle_ (connection_ c) = Some h → forallb plain_format_char w = true → no_nul r →
  DeleteImpl [new_NKey (w ++ lit "%s" ++ r)] acc c = Fault OutOfBounds.
Proof.
  intros Hh Hw Hr. cbn [DeleteImpl redis_impl Redis_DeleteImpl]. rewrite delete_text. cbn [isError key_ new_NKey].
  unfold command, on_handle. rewrite Hh. cbn [deref from_option_fault mbind outcome_bind].
  unfold redisCommand, redisvCommand, redisvAppendCommand, redisvFormatCommand.
  by rewrite format_reads_missing.
Qed.

(** ** The selection of a database *)

Lemma select_sent num c h n v v2 l l2 later :
  ready_conn c h n → memory → arrives n v [] l (l2 ++ later) →
  INT_MIN <= num <= INT_MAX → fits [lit "SELECT"; dec_int num] →
  allowed 0 v2 → 1024 + Z.of_nat (length (enc v2)) <= INT_MAX → Forall piece_ok l2 → data l2 = enc v2 →
  ∃ h1 n1 h2 n2 l', ready h2 ∧ served n (resp_command [lit "SELECT"; dec_int num]) l (l2 ++ later) n1 ∧
    data l' = [] ∧ served n1 (resp_command [lit "DBSIZE"]) (l' ++ l2) later n2 ∧
    SelectImpl (dec_int num) c =
      Val (no_error,
           Some (mkIDataBaseInfo (dec_int num) true (match v2 with RInteger z => u64 z | _ => 0 end) []),
           with_handle (set_config (RedisConfig.with_dbnum num) (with_handle c h1 n1)) h2 n2).
Proof.
  intros Hr Hm Ha Hnum Hf Hv2 Hf2 Hp2 Hd2.
  set (ps := [Word (lit "SELECT"); Int num]).
  assert (Htext : List.map (piece_text printf_num) ps = [lit "SELECT"; dec_int num])
    by (cbn; by rewrite printf_d).
  destruct (pieces_command ps c h n v l (l2 ++ later) Hr Hm Ha eq_refl) as (h1 & n1 & Hc & Hr1 & Hs1);
    [by rewrite Htext|]. rewrite Htext in Hs1.
  pose proof Ha as [_ _ Hins _ Hp _ Hpo Hpi]. rewrite Hins in Hpi.
  destruct (arrives_next n _ l n1 v2 [] l2 later Hs1 Hp Hpo Hpi Hv2 Hf2) as (l' & Ha2 & _ & Hd');
    [by intros []|done|by rewrite app_nil_r|].
  set (c1 := set_config (RedisConfig.with_dbnum num) (with_handle c h1 n1)).
  destruct (pieces_command [Word (lit "DBSIZE")] c1 h1 n1 v2 (l' ++ l2) later) as (h2 & n2 & Hc2 & Hr2 & Hs2);
    [done|done|done|done|by vm_compute|].
  exists h1, n1, h2, n2, l'. split; [done|]. split; [done|]. split; [done|]. split; [done|].
  cbn [SelectImpl redis_impl]. unfold Redis_SelectImpl. rewrite FromString_int_spec by done.
  change (lit "SELECT %d") with (pieces_format ps). change [VaInt num] with (pieces_va ps). rewrite Hc.
  cbn [mbind outcome_bind]. fold c1. unfold DBkcount. rewrite (ready_connected c1 h1 n1) by done.
  cbn [negb]. change (lit "DBSIZE") with (pieces_format [Word (lit "DBSIZE")]).
  change (@nil va_val) with (pieces_va [Word (lit "DBSIZE")]). rewrite Hc2. cbn [mbind outcome_bind].
  rewrite ToString_int_spec by done. by destruct v2.
Qed.

(** ** Containers *)

Lemma values_of_words ws :
  valueFromReplay (reply_of (RArray (List.map RString ws))) = Val (no_error, Some (VArray (List.map VString ws))).
Proof.
  cbn [reply_of valueFromReplay]. rewrite !length_map, Z.eqb_refl. cbn [negb].
  assert (Hgo : ∀ arv,
    (fix go l arv := match l with
                     | [] => Val (no_error, Some (VArray arv))
                     | e :: l => '(er, val) ← valueFromReplay e;
                                 if isError er then Val (er, None)
                                 else val ← deref val; go l (arv ++ [val])
                     end) (List.map reply_of (List.map RString ws)) arv
    = Val (no_error, Some (VArray (arv ++ List.map VString ws)))).
  { induction ws as [|w ws IH]; intros arv; [by rewrite app_nil_r|].
    cbn [List.map reply_of valueFromReplay mbind outcome_bind isError deref from_option_fault].
    change (REDIS_REPLY_STRING =? REDIS_REPLY_ERROR) with false.
    change ((REDIS_REPLY_STRING =? REDIS_REPLY_STATUS) || (REDIS_REPLY_STRING =? REDIS_REPLY_STRING)) with true.
    cbn [mbind outcome_bind isError]. change (isError no_error) with false. cbn [deref from_option_fault mbind outcome_bind].
    rewrite IH. by rewrite <- app_assoc. }
  by rewrite Hgo.
Qed.

Context `{!CommonRedisLaws}.

Lemma set_of_array_elem arr x : In x (set_of_array arr) ↔ In x arr.
Proof.
  unfold set_of_array. assert (∀ acc, In x (List.fold_left SetValue_insert arr acc) ↔ In x acc ∨ In x arr) as Hg.
  { induction arr as [|v arr IH]; intros acc; simpl; [tauto|]. rewrite IH, SetValue_insert_elem.
    intuition congruence. }
  rewrite Hg. simpl. tauto.
Qed.

Lemma zset_of_array_elem ps acc x :
  In x (zset_of_array (List.map VString (pair_words ps)) acc) ↔
  In x acc ∨ ∃ m s, In (m, s) ps ∧ x = (VString s, VString m).
Proof.
  revert acc. induction ps as [|[m s] ps IH]; intros acc.
  - cbn. split; [by left|]. intros [?|(? & ? & [] & _)]; done.
  - change (pair_words ((m, s) :: ps)) with ([m; s] ++ pair_words ps).
    cbn [List.map app zset_of_array]. rewrite IH, ZSetValue_insert_elem. split.
    + intros [[?| ->]|(m' & s' & ? & ->)]; [by left|right; exists m, s; split; [by left|done]|].
      right. exists m', s'. split; [by right|done].
    + intros [?|(m' & s' & [[= <- <-]|?] & ->)]; [by left; left|by left; right|].
      right. by exists m', s'.
Qed.

(** The keys of the pairs are different, and none is in the hash yet. *)
Lemma hash_of_array_elem ps acc x :
  List.NoDup (List.map fst ps) → (∀ k, In k (List.map fst ps) → ¬ In (VString k) (List.map fst acc)) →
  In x (hash_of_array (List.map VString (pair_words ps)) acc) ↔
  In x acc ∨ ∃ k v, In (k, v) ps ∧ x = (VString k, VString v).
Proof.
  revert acc. induction ps as [|[k v] ps IH]; intros acc Hd Hacc.
  - cbn. split; [by left|]. intros [?|(? & ? & [] & _)]; done.
  - change (pair_words ((k, v) :: ps)) with ([k; v] ++ pair_words ps).
    cbn [List.map app hash_of_array]. apply NoDup_cons_iff in Hd as [Hnin Hd].
    assert (Hk : ¬ In (VString k) (List.map fst acc)) by (apply Hacc; by left).
    assert (Hins : ∀ y, In y (HashValue_insert acc (VString k) (VString v)) ↔ In y acc ∨ y = (VString k, VString v))
      by (intros y; by apply HashValue_insert_elem).
    rewrite IH, Hins; [|done|].
    2: { intros k' Hk' (y & Hy & Hin)%in_map_iff. apply Hins in Hin as [Hin| ->].
         - apply (Hacc k'); [by right|]. rewrite <- Hy. by apply in_map.
         - simpl in Hy. injection Hy as ->. done. }
    split.
    + intros [[?| ->]|(k' & v' & ? & ->)]; [by left|right; exists k, v; split; [by left|done]|].
      right. exists k', v'. split; [by right|done].
    + intros [?|(k' & v' & [[= <- <-]|?] & ->)]; [by left; left|by left; right|].
      right. by exists k', v'.
Qed.

(** The answer of strings becomes the value of the key, and the observer is told. *)
Lemma load_words convert msg key ws v kv c :
  convert (VArray (List.map VString ws)) = Some v →
  load_container convert msg key (Some (reply_of (RArray (List.map RString ws)))) kv c =
  Val (no_error, mkNDbKValue key (Some v), notify (OnKeyLoaded (mkNDbKValue key (Some v))) c).
Proof.
  intros Hc. unfold load_container.
  change (is_type REDIS_REPLY_ARRAY (reply_of (RArray (List.map RString ws)))) with true.
  cbn match. rewrite values_of_words. cbn [mbind outcome_bind]. change (isError no_error) with false.
  cbn [deref from_option_fault mbind outcome_bind]. by rewrite Hc.
Qed.

Definition loaded (o : outcome (Error * NDbKValue * rconn)) (k : NKey) (v : value) c h n : Prop :=
  o = Val (no_error, mkNDbKValue k (Some v), notify (OnKeyLoaded (mkNDbKValue k (Some v))) (with_handle c h n)).

Lemma lrange_sent k start stop kv c h n ws l later :
  ready_conn c h n → memory → arrives n (RArray (List.map RString ws)) [] l later →
  INT_MIN <= start <= INT_MAX → INT_MIN <= stop <= INT_MAX →
  let args := [lit "LRANGE"; c_str (key_ k); dec_int start; dec_int stop] in
  fits args →
  ∃ h' n', ready h' ∧ served n (resp_command args) l later n' ∧
    loaded (Lrange k start stop kv c) k (VArray (List.map VString ws)) c h' n'.
Proof.
  cbv zeta. intros Hr Hm Ha Hs Ht Hf. set (ps := [Word (lit "LRANGE"); Str (key_ k); Int start; Int stop]).
  assert (Htext : List.map (piece_text printf_num) ps = [lit "LRANGE"; c_str (key_ k); dec_int start; dec_int stop])
    by (cbn; by rewrite !printf_d).
  destruct (pieces_command ps c h n _ l later Hr Hm Ha eq_refl) as (h' & n' & Hc & Hr' & Hsv);
    [by rewrite Htext|]. rewrite Htext in Hsv.
  exists h', n'. split; [done|]. split; [done|]. unfold loaded, Lrange.
  rewrite (ready_connected c h n) by done. cbn [negb].
  change (lit "LRANGE %s %d %d") with (pieces_format ps).
  change [VaStr (key_ k); VaInt start; VaInt stop] with (pieces_va ps). rewrite Hc.
  cbn [mbind outcome_bind]. by apply load_words.
Qed.

Lemma smembers_sent k kv c h n ws l later :
  ready_conn c h n → memory → arrives n (RArray (List.map RString ws)) [] l later →
  fits [lit "SMEMBERS"; c_str (key_ k)] →
  ∃ h' n' s, ready h' ∧ served n (resp_command [lit "SMEMBERS"; c_str (key_ k)]) l later n' ∧
    loaded (Smembers k kv c) k (VSet s) c h' n' ∧ ∀ x, In x s ↔ ∃ w, In w ws ∧ x = VString w.
Proof.
  intros Hr Hm Ha Hf. set (ps := [Word (lit "SMEMBERS"); Str (key_ k)]).
  destruct (pieces_command ps c h n _ l later Hr Hm Ha eq_refl Hf) as (h' & n' & Hc & Hr' & Hsv).
  exists h', n', (set_of_array (List.map VString ws)). split; [done|]. split; [done|]. split.
  - unfold loaded, Smembers. rewrite (ready_connected c h n) by done. cbn [negb].
    change (lit "SMEMBERS %s") with (pieces_format ps). change [VaStr (key_ k)] with (pieces_va ps).
    rewrite Hc. cbn [mbind outcome_bind]. by apply load_words.
  - intros x. rewrite set_of_array_elem, in_map_iff. split; intros (w & ? & ?); by exists w.
Qed.

Lemma hgetall_sent k kv c h n ps l later :
  ready_conn c h n → memory → arrives n (RArray (List.map RString (pair_words ps))) [] l later →
  List.NoDup (List.map fst ps) → fits [lit "HGETALL"; c_str (key_ k)] →
  ∃ h' n' s, ready h' ∧ served n (resp_command [lit "HGETALL"; c_str (key_ k)]) l later n' ∧
    loaded (Hgetall k kv c) k (VHash s) c h' n' ∧
    ∀ x, In x s ↔ ∃ f v, In (f, v) ps ∧ x = (VString f, VString v).
Proof.
  intros Hr Hm Ha Hd Hf. set (qs := [Word (lit "HGETALL"); Str (key_ k)]).
  destruct (pieces_command qs c h n _ l later Hr Hm Ha eq_refl Hf) as (h' & n' & Hc & Hr' & Hsv).
  exists h', n', (hash_of_array (List.map VString (pair_words ps)) []). split; [done|]. split; [done|]. split.
  - unfold loaded, Hgetall. rewrite (ready_connected c h n) by done. cbn [negb].
    change (lit "HGETALL %s") with (pieces_format qs). change [VaStr (key_ k)] with (pieces_va qs).
    rewrite Hc. cbn [mbind outcome_bind]. by apply load_words.
  - intros x. rewrite hash_of_array_elem by (done || by intros k' _ []). simpl. tauto.
Qed.

(** A number is a word of a format. *)
Lemma format_word_int z : format_word (dec_int z) = true.
Proof.
  unfold format_word. cbn [HiredisFormat.piece_ok]. apply andb_true_iff. split.
  - rewrite negb_true_iff, bool_decide_eq_false. apply dec_int_ne.
  - by apply dec_int_chars.
Qed.

Lemma zrange_sent k start stop kv c h n ps l later :
  ready_conn c h n → memory → arrives n (RArray (List.map RString (pair_words ps))) [] l later →
  format_word (key_ k) = true →
  let args := [lit "ZRANGE"; key_ k; dec_int start; dec_int stop; lit "WITHSCORES"] in
  fits args →
  ∃ h' n' s, ready h' ∧ served n (resp_command args) l later n' ∧
    loaded (Zrange k start stop true kv c) k (VZSet s) c h' n' ∧
    ∀ x, In x s ↔ ∃ m sc, In (m, sc) ps ∧ x = (VString sc, VString m).
Proof.
  cbv zeta. intros Hr Hm Ha Hk Hf.
  set (args := [lit "ZRANGE"; key_ k; dec_int start; dec_int stop; lit "WITHSCORES"]) in *.
  assert (Hws : forallb format_word args = true).
  { unfold args. cbn [forallb]. by rewrite Hk, !format_word_int. }
  destruct (words_command args c h n _ l later Hr Hm Ha Hws Hf) as (h' & n' & Hc & Hr' & Hsv).
  exists h', n', (zset_of_array (List.map VString (pair_words ps)) []). split; [done|]. split; [done|].
  split; [|intros x; rewrite zset_of_array_elem; simpl; tauto].
  unfold loaded, Zrange. rewrite (ready_connected c h n) by done. cbn [negb].
  assert (zrange_line k start stop true = join_with [chr_sp] args) as ->.
  { unfold zrange_line. apply MemSPrintf_spec. rewrite c_str_no_nul; [done|].
    unfold format_word in Hk. cbn [HiredisFormat.piece_ok] in Hk. apply andb_true_iff in Hk as [_ Hk].
    by apply (chars_no_nul plain_format_char). }
  rewrite Hc. cbn [mbind outcome_bind]. by apply load_words.
Qed.
End Answers.
