(* ===== verification/RedisSessions.v ===== *)
(** Sessions of the Redis client on a scripted network: pipelines, the reply to [SYNC], the search for
    big keys, and the properties of the Redis connection. *)
From Stdlib Require Import Ascii String ZArith Lia.
From stdpp Require Import base list.
From S2P Require Import Prelude Common Texts Values Connection Commands Handlers RedisTable Translators SdsArgs Sds SdsProps Hiredis HiredisFormat HiredisReader HiredisFeed HiredisDrain HiredisParse HiredisStream HiredisContext HiredisAnswers Configs SshInfo RedisReply RedisApi RedisHelp RedisConn RedisModes RedisAnswers.
Local Open Scope Z_scope.
#[local] Set Warnings "-register-all".

(** * What a pipeline should do *)

(** The words that the object [cmd] of a pipeline sends, if it is sent at all. *)
Inductive pipelined `{CommonRedis} (cmd : FastoObject) : option (list bytes) → Prop :=
| pl_empty input lg : value_ cmd = VCommand input lg → c_strornull input = None → pipelined cmd None
| pl_unsplit input lg s :
    value_ cmd = VCommand input lg → c_strornull input = Some s → sdssplitargslong s = Val None →
    pipelined cmd None
| pl_refused input lg s w ws :
    value_ cmd = VCommand input lg → c_strornull input = Some s → sdssplitargslong s = Val (Some (w :: ws)) →
    isPipeLineCommand (Some w) = false → pipelined cmd None
| pl_sent input lg s w ws :
    value_ cmd = VCommand input lg → c_strornull input = Some s → sdssplitargslong s = Val (Some (w :: ws)) →
    isPipeLineCommand (Some w) = true → Forall no_nul (w :: ws) → pipelined cmd (Some (w :: ws)).

Definition sent_words (l : list (option (list bytes))) : list (list bytes) := omap id l.
Definition requests (l : list (option (list bytes))) : bytes := List.concat (List.map resp_command (sent_words l)).

(** The replies go to the objects from the front, up to the first error. *)
Fixpoint pipeline_fill (d : bytes) (vs : list resp) (cmds : list FastoObject) : Error * list FastoObject :=
  match vs, cmds with
  | v :: vs, o :: cmds =>
    let o := add_objects o (reply_objects d v) in
    match v with
    | RError _ => (reply_result v, o :: cmds)
    | _ => let '(e, cmds) := pipeline_fill d vs cmds in (e, o :: cmds)
    end
  | _, _ => (no_error, cmds)
  end.

(** The replies [vs] as pieces, each reply beginning with a piece of its own. *)
Inductive replies : list resp → list (option bytes) → Prop :=
| replies_nil : replies [] []
| replies_cons v l vs ls :
    allowed 0 v → 1024 + Z.of_nat (length (enc v)) <= INT_MAX → Forall piece_ok l → data l = enc v →
    replies vs ls → replies (v :: vs) (l ++ ls).

Lemma insert_middle {A} (pre l : list A) x y : <[length pre := y]> (pre ++ x :: l) = pre ++ y :: l.
Proof. rewrite insert_app_r_alt, Nat.sub_diag by lia. done. Qed.

Section Sessions.
Context `{AllocLaws} `{Patience} `{CommonLaws} `{CommonRedis} `{ConfigLib} `{CNumbers} `{Project}
  `{RedisEnv script} `{ModesEnv script}.
Local Abbreviation rconn := (CDBConnection RConfig redisContext (RWorld script)).
Implicit Types (c : rconn) (h : redisContext) (n : script).

Lemma requests_cons o l : requests (o :: l) = default [] (option_map resp_command o) ++ requests l.
Proof. by destruct o. Qed.

Lemma pipeline_send_spec cmds ws : Forall2 pipelined cmds ws → ∀ c h n t valid,
  handle_ (connection_ c) = Some h → the_net c = n → memory → requested h t →
  Z.of_nat (length (t ++ requests ws)) + 1 + SDS_MAX_PREALLOC <= INT_MAX →
  ∃ h' valid' c', pipeline_send cmds valid c = Val (valid ++ valid', c') ∧
    length valid' = length (sent_words ws) ∧ handle_ (connection_ c') = Some h' ∧ the_net c' = n ∧
    IsAuth c' = IsAuth c ∧ the_config c' = the_config c ∧ requested h' (t ++ requests ws).
Proof.
  induction 1 as [|cmd o cmds ws Hp Hall IH]; intros c h n t valid Hh Hn Hm Hr Hf.
  { exists h, [], c. change (requests []) with (@nil ascii). rewrite !app_nil_r. by split_and!. }
  rewrite requests_cons in *. cbn [pipeline_send]. unfold Cmd_inputCommand.
  destruct Hp as [input lg -> Hi|input lg s -> Hi Hs|input lg s w l -> Hi Hs Hw|input lg s w l -> Hi Hs Hw Hnn];
    cbn [mbind outcome_bind]; rewrite Hi, ?Hs; cbn [mbind outcome_bind option_map default app] in *;
    [by eapply IH..| |].
  all: change (aget (Argv (w :: l) 0) 0) with (Val w : outcome bytes); cbn [mbind outcome_bind]; rewrite Hw.
  { by eapply IH. }
  change (id (resp_command (w :: l))) with (resp_command (w :: l)) in *.
  rewrite app_assoc in *. rewrite length_app in Hf.
  destruct (append_argv_spec c h n t (w :: l) (w :: l) None) as (h1 & Ha & Hr1);
    [done..|by apply args_at_strlen|lia|]. rewrite Ha. cbn [mbind outcome_bind].
  destruct (IH (with_handle c h1 n) h1 n (t ++ resp_command (w :: l)) (valid ++ [cmd]))
    as (h' & v' & c' & Hrun & Hl & Hh' & Hn' & Hau & Hcf & Hr'); [done..|by rewrite length_app; lia|].
  exists h', (cmd :: v'), c'. rewrite Hrun, <- app_assoc. change (sent_words (Some (w :: l) :: ws)) with ((w :: l) :: sent_words ws).
  split; [done|]. split; [simpl; by rewrite Hl|]. by split_and!.
Qed.

(** The pieces that wait, after some that have no data. *)
Definition waits n (ls : list (option bytes)) : Prop :=
  ∃ pre, ins n = pre ++ ls ∧ Forall piece_ok pre ∧ data pre = [].

Lemma replies_pieces vs ls : replies vs ls → Forall piece_ok ls.
Proof. induction 1; [by apply Forall_nil|by apply Forall_app]. Qed.

Lemma pipeline_read_spec vs ls : replies vs ls → ∀ pre cmds c h n t,
  handle_ (connection_ c) = Some h → the_net c = n → memory → requested h t → (vs = [] → t = []) →
  RedisConfig.cluster_mode (the_config c) = 0 → waits n ls →
  (length (ins n) < patience)%nat → (length (outs n) < patience)%nat → (length vs <= length cmds)%nat →
  ∃ c', pipeline_read (length pre) (length vs) (pre ++ cmds) c =
          Val ((pipeline_fill (Delimiter c) vs cmds).1, pre ++ (pipeline_fill (Delimiter c) vs cmds).2, c') ∧
        sent (the_net c') = sent n ++ t.
Proof.
  induction 1 as [|v l vs ls Hv Hmax Hl Hd Hrs IH];
    intros pre cmds c h n t Hh Hn Hm Hr Ht Hcl (p & Hins & Hp & Hpd) Hpi Hpo Hlen.
  { exists c. simpl. rewrite Hn, (Ht eq_refl), app_nil_r. done. }
  destruct cmds as [|o cmds]; [simpl in Hlen; lia|].
  assert (Harr : arrives n v [] (p ++ l) ls).
  { split; try done; [by rewrite <- app_assoc|by intros []|by apply Forall_app|by rewrite app_nil_r, data_app, Hpd]. }
  destruct (cli_read_reply o c h n t v [] (p ++ l) ls Hh Hn Hm Hr Harr Hcl) as (h' & n' & Hs & Hrun & Hr' & Hsv).
  cbn [length pipeline_read]. rewrite list_lookup_middle by done. cbn [from_option_fault mbind outcome_bind].
  rewrite Hrun. cbn [mbind outcome_bind]. rewrite isError_reply_result.
  rewrite insert_middle.
  set (o' := add_objects o (reply_objects (Delimiter c) v)).
  assert (Hgo : ∃ c', pipeline_read (S (length pre)) (length vs) (pre ++ o' :: cmds) (after_reply c h' n' v) =
            Val ((pipeline_fill (Delimiter c) vs cmds).1, pre ++ o' :: (pipeline_fill (Delimiter c) vs cmds).2, c') ∧
            sent (the_net c') = sent n ++ t).
  { destruct Hsv as (_ & (l0 & l1 & Hl01 & Hi & Hd1) & Ho).
    destruct (set_last_cmd_type (rp_type (reply_of v)) c h' n') as (Hc1 & Hc2 & _).
    assert (Hpl : Forall piece_ok (l0 ++ l1)) by (rewrite <- Hl01; by apply Forall_app).
    destruct (IH (pre ++ [o']) cmds (after_reply c h' n' v) h' n' []) as (c' & Hrun' & Hs'); try done.
    - by rewrite <- Hcl.
    - exists l1. split; [done|]. split; [|done]. by apply Forall_app in Hpl as [_ ?].
    - rewrite Hi. rewrite Hins, app_assoc, Hl01 in Hpi. rewrite !length_app in *. lia.
    - lia.
    - simpl in Hlen. lia.
    - change (Delimiter (after_reply c h' n' v)) with (Delimiter (set_config (RedisConfig.with_last_cmd_type (rp_type (reply_of v))) (with_handle c h' n'))) in Hrun'.
      rewrite Hc2 in Hrun'. rewrite length_app, <- !app_assoc, Nat.add_comm in Hrun'. exists c'. split; [exact Hrun'|].
      by rewrite Hs', Hs, app_nil_r. }
  destruct v as [s|s|s|z| | |vl]; try (destruct Hgo as (c' & Hgo & Hs'); exists c'; split; [|done];
    cbn [pipeline_fill]; rewrite Hgo; fold o'; by destruct (pipeline_fill _ vs cmds)).
  exists (after_reply c h' n' (RError s)). split; [done|]. exact Hs.
Qed.

(** A pipeline sends the commands that may be sent, together; their replies go to the first objects. *)
Lemma pipeline_spec c h n cmds ws vs ls :
  ready_conn c h n → memory → RedisConfig.cluster_mode (the_config c) = 0 →
  cmds ≠ [] → Forall2 pipelined cmds ws → replies vs ls → ins n = ls → length vs = length (sent_words ws) →
  Z.of_nat (length (requests ws)) + 1 + SDS_MAX_PREALLOC <= INT_MAX →
  (length (ins n) < patience)%nat → (length (outs n) < patience)%nat →
  ∃ c', ExecuteAsPipeline cmds c =
          Val ((pipeline_fill (Delimiter c) vs cmds).1, (pipeline_fill (Delimiter c) vs cmds).2, c') ∧
        sent (the_net c') = sent n ++ requests ws.
Proof.
  intros Hr Hm Hcl Hne Hall Hrs Hins Hlen Hf Hpi Hpo. unfold ExecuteAsPipeline.
  rewrite bool_decide_eq_false_2 by done. rewrite (ready_connected c h n) by done. cbn [negb].
  destruct Hr as (Hh & Hn & Hc & Hb & Ho & Hw).
  destruct (pipeline_send_spec cmds ws Hall c h n [] [] Hh Hn Hm) as (h' & v' & c1 & -> & Hl & Hh' & Hn' & _ & Hcf & Hr');
    [done|done|].
  cbn [mbind outcome_bind app]. rewrite Hl, <- Hlen. cbn [app] in Hr'.
  assert (Hd : Delimiter c1 = Delimiter c).
  { change (RedisConfig.delimiter (the_config c1) = RedisConfig.delimiter (the_config c)). by rewrite Hcf. }
  rewrite <- Hd.
  apply (pipeline_read_spec vs ls Hrs [] cmds c1 h' n (requests ws)); try done.
  - intros ->. unfold requests. by destruct (sent_words ws).
  - by rewrite Hcf.
  - exists []. by split_and!.
  - rewrite Hlen. clear -Hall. unfold sent_words. induction Hall as [|? [] ? ? ? ? IH];
      cbn [omap list_omap id length]; [lia..|cbn in IH |- *; lia].
Qed.

(** * The reply to [SYNC] *)

(** The network after the first byte of the piece [x :: d]. *)
Definition byte_read n (d : bytes) (later : list (option bytes)) : script :=
  mkScript (match d with [] => later | _ => Some d :: later end) (outs n) (sent n) (failure n).

Lemma read_byte c h n x d later :
  handle_ (connection_ c) = Some h → the_net c = n → c_err h = 0 → ins n = Some (x :: d) :: later →
  on_handle (λ h n, '(ok, nread, d, h, n) ← redisReadToBuffer h 1 n; Val ((ok, nread, d), h, n)) c
  = Val ((true, 1, [x]), with_handle c h (byte_read n d later)).
Proof.
  intros Hh Hn Hc Hi. unfold on_handle. rewrite Hh. cbn [deref from_option_fault mbind outcome_bind].
  unfold redisReadToBuffer. rewrite Hc. cbn [Z.eqb negb]. rewrite read_from_script. unfold the_net in Hn.
  rewrite Hn. unfold script_read. rewrite Hi. change (Z.to_nat 1) with 1%nat. unfold byte_read.
  destruct d as [|y d]; done.
Qed.

Lemma write_byte P R x : R ≠ [] →
  ∃ R', mem_write (P ++ R) (Z.of_nat (length P)) [x] = Val ((P ++ [x]) ++ R') ∧ length R = S (length R').
Proof.
  intros HR. destruct (mem_write_next P R [x]) as (R' & Hw & Hl); [destruct R; simpl; [done|lia]|].
  exists R'. split; [exact Hw|]. simpl in Hl. lia.
Qed.

(** What one byte that is not a newline does: it goes into the buffer. *)
Lemma sync_byte fuel c h n x d later P R :
  handle_ (connection_ c) = Some h → the_net c = n → c_err h = 0 → ins n = Some (x :: d) :: later →
  x ≠ chr_nl → R ≠ [] →
  ∃ R', length R = S (length R') ∧
    sync_loop (S fuel) (P ++ R) (Z.of_nat (length P)) c =
    sync_loop fuel ((P ++ [x]) ++ R') (Z.of_nat (length (P ++ [x]))) (with_handle c h (byte_read n d later)).
Proof.
  intros Hh Hn Hc Hi Hx HR. destruct (write_byte P R x HR) as (R' & Hw & Hl). exists R'. split; [done|].
  cbn [sync_loop]. rewrite (read_byte c h n x d later) by done. cbn [mbind outcome_bind negb].
  rewrite Hw. cbn [mbind outcome_bind]. change (1 =? 0) with false. cbn match.
  rewrite Nat2Z.id, <- app_assoc. cbn [app]. rewrite list_lookup_middle by done.
  cbn [from_option_fault mbind outcome_bind]. destruct (Ascii.eqb_spec x chr_nl); [done|]. cbn [andb].
  rewrite length_app. replace (Z.of_nat (length P + length [x])) with (Z.of_nat (length P) + 1) by (simpl; lia).
  done.
Qed.

(** A line that is too long for the buffer is written behind it. *)
Lemma sync_overflows R : ∀ fuel c h n P d later,
  handle_ (connection_ c) = Some h → the_net c = n → c_err h = 0 → ins n = Some d :: later →
  (length R < length d)%nat → chr_nl ∉ take (length R) d → (length R < fuel)%nat →
  sync_loop fuel (P ++ R) (Z.of_nat (length P)) c = Fault OutOfBounds.
Proof.
  induction R as [R IH] using (induction_ltof1 _ (@length ascii)). unfold ltof in IH.
  intros fuel c h n P d later Hh Hn Hc Hi Hd Hnl Hf. destruct fuel as [|fuel]; [lia|].
  destruct d as [|x d]; [simpl in Hd; lia|]. destruct (decide (R = [])) as [->|HR].
  - cbn [sync_loop]. rewrite (read_byte c h n x d later) by done. cbn [mbind outcome_bind negb].
    unfold mem_write. rewrite app_nil_r. cbn [length].
    destruct (Z.leb_spec (Z.of_nat (length P) + Z.of_nat 1) (Z.of_nat (length P))); [lia|].
    by rewrite andb_false_r.
  - assert (Hlen : length R = S (pred (length R))) by (destruct R; simpl; [done|lia]).
    assert (Htake : take (length R) (x :: d) = x :: take (pred (length R)) d) by (by rewrite Hlen).
    rewrite Htake in Hnl. apply not_elem_of_cons in Hnl as [Hx Hnl].
    destruct (sync_byte fuel c h n x d later P R) as (R' & Hl & ->); [done..|].
    assert (Hp : pred (length R) = length R') by lia. rewrite Hp in Hnl. simpl in Hd.
    apply (IH R' ltac:(lia) fuel _ h (byte_read n d later) _ d later); try done; try lia.
    destruct d as [|y d]; [simpl in Hd; lia|done].
Qed.

(** A line that fits is read up to its newline. *)
Lemma sync_reads w : ∀ fuel c h n P R rest later,
  handle_ (connection_ c) = Some h → the_net c = n → c_err h = 0 → ins n = Some (w ++ chr_nl :: rest) :: later →
  chr_nl ∉ w → P ++ w ≠ [] → (length w < length R)%nat → (length w < fuel)%nat →
  ∃ R' n', sync_loop fuel (P ++ R) (Z.of_nat (length P)) c =
    Val (Some ((P ++ w) ++ chr_nl :: R', Z.of_nat (length (P ++ w))), with_handle c h n') ∧
    sent n' = sent n ∧ ins n' = match rest with [] => later | _ => Some rest :: later end.
Proof.
  induction w as [|x w IH]; intros fuel c h n P R rest later Hh Hn Hc Hi Hnl Hne HR Hf;
    (destruct fuel as [|fuel]; [simpl in Hf; lia|]).
  - rewrite app_nil_r in *. destruct (write_byte P R chr_nl) as (R' & Hw & Hl); [intros ->; simpl in HR; lia|].
    exists R', (byte_read n rest later). split; [|done].
    cbn [sync_loop]. rewrite (read_byte c h n chr_nl rest later) by done. cbn [mbind outcome_bind negb].
    rewrite Hw. cbn [mbind outcome_bind]. change (1 =? 0) with false. cbn match.
    rewrite Nat2Z.id, <- app_assoc. cbn [app]. rewrite list_lookup_middle by done.
    cbn [from_option_fault mbind outcome_bind]. rewrite (Ascii.eqb_refl chr_nl).
    destruct (Z.eqb_spec (Z.of_nat (length P)) 0) as [E|_]; [|done]. destruct P; [done|simpl in E; lia].
  - apply not_elem_of_cons in Hnl as [Hx Hnl]. simpl in HR, Hf.
    destruct (sync_byte fuel c h n x (w ++ chr_nl :: rest) later P R) as (R' & Hl & ->);
      [done..|intros ->; simpl in HR; lia|].
    destruct (IH fuel (with_handle c h (byte_read n (w ++ chr_nl :: rest) later)) h
                (byte_read n (w ++ chr_nl :: rest) later) (P ++ [x]) R' rest later)
      as (R2 & n' & Hrun & Hs & Hi'); try done; try lia.
    + by destruct w.
    + rewrite <- app_assoc. by destruct P.
    + exists R2, n'. replace (P ++ x :: w) with ((P ++ [x]) ++ w) by (by rewrite <- app_assoc). by rewrite Hrun.
Qed.

Lemma sync_request c h n :
  handle_ (connection_ c) = Some h → the_net c = n → c_err h = 0 → outs n = [] →
  on_handle (λ h n, '(ok, _, h, n) ← redisWriteFromBuffer h (lit "SYNC" ++ crlf) n; Val (ok, h, n)) c
  = Val (true, with_handle c h (mkScript (ins n) [] (sent n ++ lit "SYNC" ++ crlf) (failure n))).
Proof.
  intros Hh Hn Hc Ho. unfold on_handle. rewrite Hh. cbn [deref from_option_fault mbind outcome_bind].
  unfold redisWriteFromBuffer. rewrite Hc. cbn [Z.eqb negb].
  change (strlen (lit "SYNC" ++ crlf) >? 0) with true. cbn match. rewrite write_to_script.
  unfold the_net in Hn. rewrite Hn. unfold script_write. by rewrite Ho.
Qed.

Lemma sync_payload c h n buf0 k later :
  handle_ (connection_ c) = Some h → the_net c = n → c_err h = 0 → outs n = [] →
  0 <= k < 2 ^ 64 → ins n = Some (lit "$" ++ dec_nat k ++ crlf) :: later →
  (22 < length buf0)%nat → (22 < patience)%nat →
  ∃ n', SendSync buf0 c = Val (no_error, k, with_handle c h n') ∧
    sent n' = sent n ++ lit "SYNC" ++ crlf ∧ ins n' = later.
Proof.
  intros Hh Hn Hc Ho Hk Hi Hb Hp. unfold SendSync. rewrite (sync_request c h n) by done.
  cbn [mbind outcome_bind negb]. set (n1 := mkScript _ _ _ _). pose proof (dec_nat_length k) as Hlen.
  destruct (sync_reads (lit "$" ++ dec_nat k ++ [chr_cr]) patience (with_handle c h n1) h n1 [] buf0 [] later)
    as (R' & n' & Hrun & Hs & Hi'); try done.
  - unfold n1. cbn [ins]. rewrite Hi, <- !app_assoc. done.
  - rewrite !not_elem_of_app. split; [|split].
    + intros Hin%list_elem_of_In. simpl in Hin. by destruct Hin as [|[]].
    + intros Hin%list_elem_of_In.
      assert (forallb (λ x, negb (Ascii.eqb x chr_nl)) (dec_nat k) = true) as Ha by (by apply dec_nat_chars).
      rewrite forallb_forall in Ha. by specialize (Ha _ Hin).
    + intros Hin%list_elem_of_In. simpl in Hin. by destruct Hin as [|[]].
  - rewrite !length_app. simpl. lia.
  - rewrite !length_app. simpl. lia.
  - exists n'. cbn [app length] in Hrun. change (Z.of_nat 0) with 0 in Hrun. rewrite Hrun.
    cbn [mbind outcome_bind]. set (w := lit "$" ++ dec_nat k ++ [chr_cr]) in *.
    assert (mem_write (w ++ chr_nl :: R') (Z.of_nat (length w)) [NUL] = Val (w ++ NUL :: R')) as ->
      by (change (chr_nl :: R') with ([chr_nl] ++ R'); by rewrite mem_write_app).
    assert (Hw : w ++ NUL :: R' = "$"%char :: dec_nat k ++ chr_cr :: NUL :: R')
      by (unfold w; by rewrite <- !app_assoc).
    rewrite Hw. cbn [mbind outcome_bind from_option_fault drop].
    change (((_ : ascii) :: _) !! 0%nat) with (Some "$"%char). cbn [mbind outcome_bind from_option_fault].
    change (Ascii.eqb "$" "-") with false. cbn match. rewrite drop_0.
    rewrite (strtoull_dec_nat k chr_cr) by done. by rewrite Hs.
Qed.

Lemma sync_faults c h n buf0 d later :
  handle_ (connection_ c) = Some h → the_net c = n → c_err h = 0 → outs n = [] →
  ins n = Some d :: later → (length buf0 < length d)%nat → chr_nl ∉ take (length buf0) d →
  (length buf0 < patience)%nat →
  SendSync buf0 c = Fault OutOfBounds.
Proof.
  intros Hh Hn Hc Ho Hi Hd Hnl Hp. unfold SendSync. rewrite (sync_request c h n) by done.
  cbn [mbind outcome_bind negb]. set (n1 := mkScript _ _ _ _).
  pose proof (sync_overflows buf0 patience (with_handle c h n1) h n1 [] d later) as Hov.
  cbn [app length] in Hov. change (Z.of_nat 0) with 0 in Hov. by rewrite Hov.
Qed.

(** * Big keys *)

Lemma empty_sds_some k : memory → ∃ l, empty_sds k = Val (Some l).
Proof.
  intros Hm. induction k as [|k [l IH]]; [by exists []|]. cbn [empty_sds].
  destruct (yields_some _ _ Hm (sdsempty_spec)) as (s & -> & _). cbn [mbind outcome_bind].
  rewrite IH. by exists (s :: l).
Qed.

(** The search in a database without keys divides by their number. *)
Lemma big_keys_empty out c h n l later :
  ready_conn c h n → memory → arrives n (RInteger 0) [] l later →
  FindBigKeys out c = Fault DivisionByZero.
Proof.
  intros Hr Hm Ha. unfold FindBigKeys. rewrite (ready_connected c h n) by done. cbn [negb].
  unfold with_command, CreateCommand. change (StableCommand (lit "FIND_BIG_KEYS")) with (lit "FIND_BIG_KEYS").
  rewrite bool_decide_eq_false_2 by done. unfold DBkcount. rewrite (ready_connected c h n) by done. cbn [negb].
  destruct (pieces_command [Word (lit "DBSIZE")] c h n _ l later Hr Hm Ha eq_refl) as (h' & n' & Hc & _);
    [by vm_compute|].
  change (lit "DBSIZE") with (pieces_format [Word (lit "DBSIZE")]).
  change (@nil va_val) with (pieces_va [Word (lit "DBSIZE")]). rewrite Hc. cbn [mbind outcome_bind reply_of].
  change (isError no_error) with false. cbn match. destruct (empty_sds_some 5 Hm) as [ks ->].
  cbn [mbind outcome_bind]. destruct Ha as [_ _ _ _ _ _ Ho _].
  destruct patience as [|p]; [lia|]. done.
Qed.
End Sessions.
