(* ===== verification/RedisProperties.v ===== *)
(** The properties of the Redis component, with concrete sessions. *)
From Stdlib Require Import Ascii String ZArith Lia.
From stdpp Require Import base list gmap.
From S2P Require Import Prelude Common Texts Values Connection Commands Handlers RedisTable Sessions Translators SdsArgs Sds SdsProps Hiredis HiredisFormat HiredisReader HiredisFeed HiredisDrain HiredisParse HiredisStream HiredisContext HiredisAnswers Configs SshInfo RedisReply RedisApi RedisHelp RedisConn RedisModes RedisAnswers RedisSessions.
Local Open Scope Z_scope.
#[local] Set Warnings "-register-all".

(** * A concrete client

    The allocator that never fails, the reference instances of the libraries, and a network that only
    follows its script. *)

Module Sample.
#[export] Instance env : RedisEnv script := {|
  redisConnectUnix _ n := (None, n);
  redisConnect _ _ _ _ _ _ _ _ _ _ n := (Some sample_context, n);
  redisFree _ n := n;
  setsockopt _ _ _ n := (true, n);
  poll_interrupt n := (true, n)
|}.
#[export] Instance modes : ModesEnv script := {|
  current_mstime n := (0, n);
  msleep _ n := n;
  usleep _ n := n;
  open_file _ n := (None, n);
  write_file _ _ n := (-1, n);
  close_file _ n := n
|}.
#[export] Existing Instances alloc_ref alloc_ref_laws common_ref common_ref_laws common_redis_ref
  common_redis_ref_laws config_ref c_numbers_ref.
#[export] Instance project : Project := lit "FastoNoSQL".
#[export] Instance stack : Stack := List.repeat "x"%char (Z.to_nat 4096).
#[export] Instance turns : Patience := Z.to_nat 5000.

Abbreviation rconn := (CDBConnection RConfig redisContext (RWorld script)).
Definition output : FastoObject := new_FastoObject VNull [chr_nl].
Definition connection (n : script) : rconn :=
  mkCDB (mkConnection RConfig_default (Some sample_context) (mkRWorld n true)) false (Some []).
(** Everything that is sent is taken at once; the answers come in these pieces. *)
Definition network (l : list (option bytes)) : script := mkScript l [] [] EAGAIN.

Lemma memory_ref : memory.
Proof. intros k Hk. cbn [malloc alloc_ref]. destruct (Z.ltb_spec k 0); [lia|by eexists]. Qed.

Lemma ready_sample : ready sample_context.
Proof.
  split; [done|]. split; [done|]. split.
  - exists (mk [] []). split; [done|]. split; [|done]. apply sds_ok_mk. by vm_compute.
  - split; [|split; [done|simpl; lia]]. by split; [apply create_resting|..].
Qed.

Lemma ready_connection n : ready_conn (connection n) sample_context n.
Proof. split; [done|]. split; [done|]. apply ready_sample. Qed.
End Sample.

Section Properties.
Context `{AllocLaws} `{Patience} `{CommonLaws} `{CommonRedisLaws} `{ConfigLib} `{CNumbers} `{Project}
  `{RedisEnv script} `{ModesEnv script} `{Stack}.
Local Abbreviation rconn := (CDBConnection RConfig redisContext (RWorld script)).
Implicit Types (c : rconn) (h : redisContext) (n : script).


(** The keys and values of [GET] and [SET] reach the server whole, up to their first zero byte,
    whatever characters they have; the answers are taken over, a reply string up to its first zero
    byte. *)
Theorem redis_get_set k kv kv0 c h n v l later :
  ready_conn c h n → memory → arrives n v [] l later →
  let get := [lit "GET"; c_str (key_ k)] in
  let set := [lit "SET"; c_str (KeyString kv); c_str (ValueString kv)] in
  fits get → fits set →
  (∃ h' n', ready h' ∧ served n (resp_command get) l later n' ∧
    GetImpl k kv0 c =
      match v with
      | RString s => Val (no_error, mkNDbKValue k (Some (VString (c_str s))), with_handle c h' n')
      | RNil | RNilArray => Val (no_error, mkNDbKValue k (Some VNull), with_handle c h' n')
      | RError s => Val (make_error_value s E_ERROR, kv0, with_handle c h' n')
      | _ => Val (no_error, mkNDbKValue k None, with_handle c h' n')
      end) ∧
  (∃ h' n', ready h' ∧ served n (resp_command set) l later n' ∧
    SetImpl kv kv0 c =
      match v with
      | RError s => Val (make_error_value s E_ERROR, kv0, with_handle c h' n')
      | _ => Val (no_error, kv, with_handle c h' n')
      end).
Proof. intros Hr Hm Ha get set Hg Hs. split; [by eapply get_sent|by eapply set_sent]. Qed.

(** Deleting uses the text of the key as a format: a key with blanks deletes the keys between the
    blanks, of which only a single success counts, and a key with a conversion makes the formatting
    read an argument that was never passed. *)
Theorem redis_delete_key_is_format ws acc c h n v l later w r :
  ready_conn c h n → memory → arrives n v [] l later → ws ≠ [] → forallb format_word ws = true →
  fits (lit "DEL" :: ws) → forallb plain_format_char w = true → no_nul r →
  (let key := new_NKey (join_with [chr_sp] ws) in
   ∃ h' n', ready h' ∧ served n (resp_command (lit "DEL" :: ws)) l later n' ∧
     DeleteImpl [key] acc c =
       Val (no_error, acc ++ match v with RInteger 1 => [key] | _ => [] end, with_handle c h' n')) ∧
  DeleteImpl [new_NKey (w ++ lit "%s" ++ r)] acc c = Fault OutOfBounds.
Proof.
  intros Hr Hm Ha Hne Hws Hf Hw Hn. split; [by eapply delete_sent|].
  destruct Hr as (Hh & _). by eapply delete_faults.
Qed.

(** Lists, sets, sorted sets and hashes are loaded with exactly the elements of the reply, and the
    client is told of the loaded key. *)
Theorem redis_containers_loaded k start stop kv c h n ws ps l later :
  ready_conn c h n → memory → INT_MIN <= start <= INT_MAX → INT_MIN <= stop <= INT_MAX →
  format_word (key_ k) = true →
  (arrives n (RArray (List.map RString ws)) [] l later →
   fits [lit "LRANGE"; c_str (key_ k); dec_int start; dec_int stop] →
   ∃ h' n', loaded (Lrange k start stop kv c) k (VArray (List.map VString ws)) c h' n' ∧
     served n (resp_command [lit "LRANGE"; c_str (key_ k); dec_int start; dec_int stop]) l later n') ∧
  (arrives n (RArray (List.map RString ws)) [] l later → fits [lit "SMEMBERS"; c_str (key_ k)] →
   ∃ h' n' s, loaded (Smembers k kv c) k (VSet s) c h' n' ∧
     served n (resp_command [lit "SMEMBERS"; c_str (key_ k)]) l later n' ∧
     ∀ x, In x s ↔ ∃ w, In w ws ∧ x = VString w) ∧
  (arrives n (RArray (List.map RString (pair_words ps))) [] l later →
   fits [lit "ZRANGE"; key_ k; dec_int start; dec_int stop; lit "WITHSCORES"] →
   ∃ h' n' s, loaded (Zrange k start stop true kv c) k (VZSet s) c h' n' ∧
     served n (resp_command [lit "ZRANGE"; key_ k; dec_int start; dec_int stop; lit "WITHSCORES"]) l later n' ∧
     ∀ x, In x s ↔ ∃ m sc, In (m, sc) ps ∧ x = (VString sc, VString m)) ∧
  (arrives n (RArray (List.map RString (pair_words ps))) [] l later → List.NoDup (List.map fst ps) →
   fits [lit "HGETALL"; c_str (key_ k)] →
   ∃ h' n' s, loaded (Hgetall k kv c) k (VHash s) c h' n' ∧
     served n (resp_command [lit "HGETALL"; c_str (key_ k)]) l later n' ∧
     ∀ x, In x s ↔ ∃ f v, In (f, v) ps ∧ x = (VString f, VString v)).
Proof.
  intros Hr Hm Hs Ht Hk. split; [|split; [|split]].
  - intros Ha Hf. destruct (lrange_sent k start stop kv c h n ws l later) as (h' & n' & ? & ? & ?); eauto.
  - intros Ha Hf. destruct (smembers_sent k kv c h n ws l later) as (h' & n' & s & ? & ? & ? & ?); eauto 8.
  - intros Ha Hf. destruct (zrange_sent k start stop kv c h n ps l later) as (h' & n' & s & ? & ? & ? & ?); eauto 8.
  - intros Ha Hd Hf. destruct (hgetall_sent k kv c h n ps l later) as (h' & n' & s & ? & ? & ? & ?); eauto 8.
Qed.


(** The number that a master announces after [SYNC] is read over the whole range of
    [unsigned long long]; a line of 4096 bytes or more is written behind the buffer on the stack. *)
Theorem redis_sync_reply c h n buf0 d later :
  handle_ (connection_ c) = Some h → the_net c = n → c_err h = 0 → outs n = [] →
  ins n = Some d :: later → length buf0 = 4096%nat → (4096 < patience)%nat →
  (∀ k, 0 <= k < 2 ^ 64 → d = lit "$" ++ dec_nat k ++ crlf →
     ∃ n', SendSync buf0 c = Val (no_error, k, with_handle c h n') ∧
       sent n' = sent n ++ lit "SYNC" ++ crlf ∧ ins n' = later) ∧
  ((4096 < length d)%nat → chr_nl ∉ take 4096 d → SendSync buf0 c = Fault OutOfBounds).
Proof.
  intros Hh Hn Hc Ho Hi Hb Hp. split.
  - intros k Hk ->. apply sync_payload with (h := h); (done || lia).
  - intros Hd Hnl. rewrite <- Hb in *. by apply sync_faults with (h := h) (n := n) (d := d) (later := later).
Qed.

(** Whatever the reply to [SELECT] is, an error included, the number becomes the current database
    and the call succeeds; the number of keys is that of the second reply, or zero. *)
Theorem redis_select_ignores_reply num c h n v v2 l l2 later :
  ready_conn c h n → memory → arrives n v [] l (l2 ++ later) →
  INT_MIN <= num <= INT_MAX → fits [lit "SELECT"; dec_int num] →
  allowed 0 v2 → 1024 + Z.of_nat (length (enc v2)) <= INT_MAX → Forall piece_ok l2 → data l2 = enc v2 →
  ∃ h1 n1 h2 n2 l', ready h2 ∧ served n (resp_command [lit "SELECT"; dec_int num]) l (l2 ++ later) n1 ∧
    data l' = [] ∧ served n1 (resp_command [lit "DBSIZE"]) (l' ++ l2) later n2 ∧
    SelectImpl (dec_int num) c =
      Val (no_error,
           Some (mkIDataBaseInfo (dec_int num) true (match v2 with RInteger z => u64 z | _ => 0 end) []),
           with_handle (set_config (RedisConfig.with_dbnum num) (with_handle c h1 n1)) h2 n2).
Proof. intros. by eapply select_sent. Qed.
End Properties.

Section Safety.
Context {Cfg H W : Type} `{ConnectionTraits Cfg H W} `{!CDBImpl Cfg H W} `{!RedisOps Cfg H W} `{CommonLaws}
  `{!ImplReturns (Cfg := Cfg) (H := H) (W := W)} `{!GetLoads} `{!RedisApi.RedisReturns Cfg H W}.

End Safety.

(** * The properties at work *)

Import Sample.

Ltac count := apply Nat.ltb_lt; vm_compute; reflexivity.
Ltac pieces := rewrite !Forall_cons; split_and!; try done; try (by apply Forall_nil); by vm_compute.
(** A reply without integers that has arrived in pieces. *)
Ltac arrived := split; [repeat constructor; unfold LLONG_MIN, LLONG_MAX; simpl; lia|by vm_compute|done|by intros []|
                        pieces|by vm_compute|count|count].


(** A key with a blank and a percent sign. *)
Lemma redis_get_set_witness :
  let net := network [Some (lit "$1" ++ crlf ++ lit "v" ++ crlf)] in
  ∃ h n h' n', GetImpl (new_NKey (lit "a %d")) (mkNDbKValue (new_NKey []) None) (connection net) =
      Val (no_error, mkNDbKValue (new_NKey (lit "a %d")) (Some (VString (lit "v"))), with_handle (connection net) h n) ∧
    SetImpl (mkNDbKValue (new_NKey (lit "a %d")) (Some (VString (lit "v")))) (mkNDbKValue (new_NKey []) None)
      (connection net) =
      Val (no_error, mkNDbKValue (new_NKey (lit "a %d")) (Some (VString (lit "v"))), with_handle (connection net) h' n').
Proof.
  intros net.
  destruct (redis_get_set (new_NKey (lit "a %d")) (mkNDbKValue (new_NKey (lit "a %d")) (Some (VString (lit "v"))))
    (mkNDbKValue (new_NKey []) None) (connection net) sample_context net (RString (lit "v"))
    [Some (lit "$1" ++ crlf ++ lit "v" ++ crlf)] [])
    as [(h & n & _ & _ & Hg) (h' & n' & _ & _ & Hs)].
  - apply ready_connection.
  - apply memory_ref.
  - arrived.
  - by vm_compute.
  - by vm_compute.
  - exists h, n, h', n'. split; [exact Hg|exact Hs].
Defined.

Lemma redis_delete_key_is_format_witness :
  let net := network [Some (lit ":2" ++ crlf)] in
  (∃ h n, sent n = lit "*3" ++ crlf ++ lit "$3" ++ crlf ++ lit "DEL" ++ crlf ++ lit "$1" ++ crlf ++ lit "a" ++ crlf
                     ++ lit "$1" ++ crlf ++ lit "b" ++ crlf ∧
     DeleteImpl [new_NKey (lit "a b")] [] (connection net) = Val (no_error, [], with_handle (connection net) h n)) ∧
  DeleteImpl [new_NKey (lit "100%s")] [] (connection net) = Fault OutOfBounds.
Proof.
  intros net.
  destruct (redis_delete_key_is_format [lit "a"; lit "b"] [] (connection net) sample_context net (RInteger 2)
    [Some (lit ":2" ++ crlf)] [] (lit "100") []) as [(h & n & _ & (Hs & _) & Hd) Hf].
  - apply ready_connection.
  - apply memory_ref.
  - arrived.
  - done.
  - by vm_compute.
  - by vm_compute.
  - by vm_compute.
  - by apply no_nul_check.
  - split; [|exact Hf]. exists h, n. split; [exact Hs|exact Hd].
Defined.

Lemma redis_containers_loaded_witness :
  let reply := lit "*2" ++ crlf ++ lit "$1" ++ crlf ++ lit "f" ++ crlf ++ lit "$1" ++ crlf ++ lit "v" ++ crlf in
  let net := network [Some reply] in
  ∃ h n s, loaded (Hgetall (new_NKey (lit "k")) (mkNDbKValue (new_NKey []) None) (connection net))
             (new_NKey (lit "k")) (VHash s) (connection net) h n ∧
    ∀ x, In x s ↔ ∃ f v, In (f, v) [(lit "f", lit "v")] ∧ x = (VString f, VString v).
Proof.
  intros reply net.
  destruct (redis_containers_loaded (new_NKey (lit "k")) 0 (-1) (mkNDbKValue (new_NKey []) None) (connection net)
    sample_context net [] [(lit "f", lit "v")] [Some reply] []) as (_ & _ & _ & Hh).
  - apply ready_connection.
  - apply memory_ref.
  - by vm_compute.
  - by vm_compute.
  - by vm_compute.
  - destruct Hh as (h & n & s & Hl & _ & Hs).
    + arrived.
    + repeat constructor. by intros [].
    + by vm_compute.
    + exists h, n, s. split; [exact Hl|exact Hs].
Defined.


Lemma redis_sync_reply_witness :
  let net d := network [Some d] in
  let big := lit "$18446744073709551615" ++ crlf in
  let long := List.repeat "$"%char (Z.to_nat 4097) in
  (∃ n, SendSync stack (connection (net big)) = Val (no_error, 2 ^ 64 - 1, with_handle (connection (net big)) sample_context n)) ∧
  SendSync stack (connection (net long)) = Fault OutOfBounds.
Proof.
  intros net big long. split.
  - destruct (redis_sync_reply (connection (net big)) sample_context (net big) stack big []) as [Hk _];
      [done..|by vm_compute|count|].
    destruct (Hk (2 ^ 64 - 1)) as (n & Hn & _); [lia|by vm_compute|]. exists n. exact Hn.
  - destruct (redis_sync_reply (connection (net long)) sample_context (net long) stack long []) as [_ Hf];
      [done..|by vm_compute|count|].
    apply Hf; [count|]. intros (i & Hi%list_elem_of_lookup_2 & _)%elem_of_take.
    by apply list_elem_of_In, repeat_spec in Hi.
Defined.

Lemma redis_select_ignores_reply_witness :
  let err := lit "-ERR DB index is out of range" ++ crlf in
  let net := network [Some err; Some (lit ":7" ++ crlf)] in
  ∃ h1 n1 h2 n2,
    SelectImpl (lit "99") (connection net) =
      Val (no_error, Some (mkIDataBaseInfo (lit "99") true 7 []),
           with_handle (set_config (RedisConfig.with_dbnum 99) (with_handle (connection net) h1 n1)) h2 n2).
Proof.
  intros err net.
  destruct (redis_select_ignores_reply 99 (connection net) sample_context net
    (RError (lit "ERR DB index is out of range")) (RInteger 7) [Some err] [Some (lit ":7" ++ crlf)] [])
    as (h1 & n1 & h2 & n2 & _ & _ & _ & _ & _ & Hs).
  - apply ready_connection.
  - apply memory_ref.
  - arrived.
  - by vm_compute.
  - by vm_compute.
  - repeat constructor; unfold LLONG_MIN, LLONG_MAX; simpl; lia.
  - by vm_compute.
  - pieces.
  - by vm_compute.
  - exists h1, n1, h2, n2. exact Hs.
Defined.

(** The functions of the connection over the database in memory. *)
#[export] Instance ref_redis : RedisOps bytes unit ref_store := {|
  redis_CommonExec _ _ o c := Val (no_error, o, c);
  redis_Auth _ c := Val (no_error, c);
  redis_Help _ _ o c := Val (no_error, o, c);
  redis_Monitor _ _ o c := Val (no_error, o, c);
  redis_Subscribe _ _ o c := Val (no_error, o, c);
  redis_SlaveMode o c := Val (ref_error "not supported", o, c);
  redis_Lrange k _ _ kv c := Val (ref_error "not supported", kv, c);
  redis_Smembers k kv c := Val (no_error, mkNDbKValue k (Some (VSet [])), c);
  redis_Zrange k _ _ _ kv c := Val (no_error, mkNDbKValue k (Some (VZSet [])), c);
  redis_Hgetall k kv c := Val (no_error, mkNDbKValue k (Some (VHash [])), c)
|}.

Lemma ref_redis_returns : RedisApi.RedisReturns bytes unit ref_store.
Proof.
  split; intros; try (by eexists); do 3 eexists; (split; [done|]); [|intros _; by eexists..].
  unfold ref_error. by rewrite isError_make_error.
Qed.

