(* ===== verification/ServerInfo.v ===== *)
(** Server information: the texts that [INFO] and its kin give, taken apart into sections and lines, and
    the numbers and texts in them.  The parts that the [server_info.cpp] of the databases share. *)
From Stdlib Require Import Ascii String ZArith Lia.
From stdpp Require Import base list.
From S2P Require Import Prelude Common Texts Values Configs Hiredis SshInfo.
Local Open Scope Z_scope.
#[local] Set Warnings "-register-all".

(** [float] with its conversions, and [ConvertVersionNumberFromString]. *)
Class InfoLib := {
  float : Type;
  float_zero : float;
  FromString_float : bytes → float;
  ToString_float : float → bytes;
  VersionNumberFromString : bytes → Z
}.

(** * The fields of a section

    A member of one of the structures derived from [IStateField]: how it is read and written. *)

Inductive cell `{InfoLib} (S : Type) :=
| CString (get : S → bytes) (set : bytes → S → S)
| CUInt (get : S → Z) (set : Z → S → S)
| CInt (get : S → Z) (set : Z → S → S)
| CFloat (get : S → float) (set : float → S → S).
Arguments CString {_ S} _ _.
Arguments CUInt {_ S} _ _.
Arguments CInt {_ S} _ _.
Arguments CFloat {_ S} _ _.

(** What [ValueByIndex] makes: a [StringValue], or a [FundamentalValue] of one of three types. *)
Inductive info_value `{InfoLib} := IString (s : bytes) | IUInt (n : Z) | IInt (n : Z) | IFloat (x : float).

(** The member with its label. *)
Abbreviation info_field S := (bytes * cell S)%type.

Section Fields.
Context `{InfoLib} `{CommonLib} {S : Type}.
Implicit Types (f : info_field S) (s : S).

(** [member_ = value], through [ConvertFromString] where it is not a text. *)
Definition assign (c : cell S) (value : bytes) s : S :=
  match c with
  | CString _ set => set value s
  | CUInt _ set => set (FromString_uint32 value) s
  | CInt _ set => set (FromString_int value) s
  | CFloat _ set => set (FromString_float value) s
  end.

(** [out << member_] *)
Definition print_cell (c : cell S) s : bytes :=
  match c with
  | CString get _ => get s
  | CUInt get _ => dec_nat (get s)
  | CInt get _ => dec_int (get s)
  | CFloat get _ => ToString_float (get s)
  end.

Definition cell_value (c : cell S) s : info_value :=
  match c with
  | CString get _ => IString (get s)
  | CUInt get _ => IUInt (get s)
  | CInt get _ => IInt (get s)
  | CFloat get _ => IFloat (get s)
  end.

(** [line.substr(0, delem)] and [line.substr(delem + 1)]; without a colon both are the line. *)
Definition field_value (line : bytes) : bytes * bytes :=
  match split_colon line with Some p => p | None => (line, line) end.

(** The chain of comparisons with the labels. *)
Definition read_line (fields : list (info_field S)) s (line : bytes) : S :=
  let '(field, value) := field_value line in
  match List.find (λ f, bool_decide (field = f.1)) fields with
  | Some f => assign f.2 value s
  | None => s
  end.

Definition read_section (fields : list (info_field S)) (text : bytes) s : S :=
  List.fold_left (read_line fields) (lines_of crlf text) s.

(** A structure before its constructor has read anything: its texts are empty, and its numbers are what
    the memory held where no initialiser is written. *)
Definition fresh (cells : list (cell S)) (raw : S) : S :=
  List.fold_left (λ s c, match c with CString _ set => set [] s | _ => s end) cells raw.

(** [operator<<] of the structure. *)
Definition print_section (fields : list (info_field S)) s : bytes :=
  List.concat (List.map (λ f, (f.1 ++ ":"%char :: print_cell f.2 s) ++ crlf) fields).

(** [ValueByIndex]: the switch over the members. *)
Definition ValueByIndex (cells : list (cell S)) (index : nat) s : option info_value :=
  option_map (λ c, cell_value c s) (cells !! index).
End Fields.

(** * Finding the sections *)

(** [fields[0].first] *)
Definition first_label {A} (fields : list (bytes * A)) : bytes :=
  match fields with (label, _) :: _ => label | [] => [] end.

(** [content.find(text, pos)] *)
Definition find_from (content text : bytes) (pos : nat) : option nat :=
  option_map (Nat.add pos) (find_sub text (drop pos content)).

(** [content.substr(i + 1, pos - i - 1)], whose count wraps around when [pos <= i]. *)
Definition part_between (content : bytes) (i pos : nat) : bytes :=
  if (pos <=? i)%nat then drop (i + 1) content else take (pos - i - 1) (drop (i + 1) content).

Section Sections.
Context {R : Type}.

(** The loop of [MakeRedisServerInfo] and [MakeMemcachedServerInfo] over the characters; [put j] stores
    the text of section [j].  [pos] is [None] for [npos].  Each turn moves on by a character or to the
    next section, so that [(length labels + 1) * (length content + 1)] turns are enough. *)
Fixpoint sections_loop (fuel : nat) (labels : list bytes) (put : nat → bytes → R → R) (content : bytes)
    (i j : nat) (word : bytes) (pos : option nat) (r : R) : outcome R :=
  match content !! i with
  | None => Val r
  | Some ch =>
    match fuel with
    | O => Fault OutOfFuel
    | S fuel =>
      let word := word ++ [ch] in
      label ← from_option_fault OutOfBounds (labels !! j);
      if bool_decide (word = label) then
        match labels !! (j + 1)%nat with
        | None => Val r
        | Some next =>
          match pos ≫= find_from content next with
          | Some p => sections_loop fuel labels put content p (j + 1) [] (Some p) (put j (part_between content i p) r)
          | None => sections_loop fuel labels put content (i + 1) j [] None r
          end
        end
      else sections_loop fuel labels put content (i + 1) j word pos r
    end
  end.

Definition sections_fuel (labels : list bytes) (content : bytes) : nat :=
  ((length labels + 1) * (length content + 1))%nat.

(** The loop of the other databases: what follows the label, when the text begins with it. *)
Fixpoint after_label (label word content : bytes) : option bytes :=
  match content with
  | [] => None
  | ch :: content =>
    let word := word ++ [ch] in
    if bool_decide (word = label) then Some content else after_label label word content
  end.
End Sections.

(** * Lemmas *)

(** Any label after the characters seen so far is only met at the beginning of the text. *)
Lemma after_label_prefix label word content rest :
  label = word ++ rest → rest ≠ [] →
  after_label label word content = if is_prefix_b rest content then Some (drop (length rest) content) else None.
Proof.
  revert word rest. induction content as [|c content IH]; intros word rest -> Hne; cbn [after_label].
  - by destruct rest.
  - destruct rest as [|x rest]; [done|]. cbn [is_prefix_b]. destruct (Ascii.eqb_spec x c) as [->|Hx]; cbn [andb].
    + destruct (decide (rest = [])) as [->|Hr].
      * rewrite bool_decide_eq_true_2 by done. by destruct content.
      * rewrite bool_decide_eq_false_2 by (intros E%app_inv_head; by destruct rest).
        rewrite (IH (word ++ [c]) rest) by (by rewrite <- ?app_assoc). done.
    + rewrite bool_decide_eq_false_2 by (intros E%app_inv_head; congruence).
      assert (Hnone : ∀ w', (∃ u, w' = word ++ c :: u) → ∀ t, after_label (word ++ x :: rest) w' t = None).
      { intros w' Hw' t. revert w' Hw'. induction t as [|y t IHt]; intros w' [u ->]; [done|].
        cbn [after_label]. rewrite bool_decide_eq_false_2.
        - apply IHt. exists (u ++ [y]). by rewrite <- app_assoc.
        - rewrite <- app_assoc. intros E%app_inv_head. simpl in E. congruence. }
      apply Hnone. by exists [].
Qed.

Lemma after_label_spec label content :
  label ≠ [] →
  after_label label [] content = if is_prefix_b label content then Some (drop (length label) content) else None.
Proof. intros Hne. by apply (after_label_prefix label []). Qed.

Section Total.
Context {R : Type} (labels : list bytes) (put : nat → bytes → R → R) (content : bytes).

(** The loop always ends. *)
Lemma sections_total fuel i j word pos r :
  (j < length labels)%nat → (i <= length content)%nat →
  ((length labels - j) * (length content + 1) + (length content - i) < fuel)%nat →
  is_val (sections_loop fuel labels put content i j word pos r).
Proof.
  revert i j word pos r. induction fuel as [|fuel IH]; intros i j word pos r Hj Hi Hf; [by apply Nat.nlt_0_r in Hf|].
  assert (Hstep : ∀ word pos r, (i < length content)%nat →
            is_val (sections_loop fuel labels put content (i + 1) j word pos r)) by (intros; apply IH; [done|lia|]; clear IH;
      generalize dependent ((length labels - j) * (length content + 1))%nat; intros; lia).
  cbn [sections_loop]. destruct (content !! i) as [ch|] eqn:Hc; [|by eexists].
  apply lookup_lt_Some in Hc. destruct (lookup_lt_is_Some_2 labels j Hj) as [label ->].
  cbn [from_option_fault mbind outcome_bind]. case_bool_decide; [|by apply Hstep].
  destruct (labels !! (j + 1)%nat) as [next|] eqn:Hn; [|by eexists]. apply lookup_lt_Some in Hn.
  destruct (pos ≫= find_from content next) as [p|] eqn:Hp; [|by apply Hstep].
  destruct pos as [p0|]; [|done]. cbn [mbind option_bind] in Hp. unfold find_from in Hp.
  destruct (find_sub next (drop p0 content)) as [k|] eqn:Hk; [|done]. injection Hp as <-.
  apply find_sub_bound in Hk. rewrite length_drop in Hk.
  destruct (decide (p0 + k <= length content)%nat); [apply IH; nia|].
  (* a label is not empty, so this cannot be; the text then ends *)
  destruct fuel; cbn [sections_loop]; rewrite lookup_ge_None_2 by lia; by eexists.
Qed.

Lemma sections_return r :
  labels ≠ [] → is_val (sections_loop (sections_fuel labels content) labels put content 0 0 [] (Some 0%nat) r).
Proof.
  intros Hne. apply sections_total; [destruct labels; simpl; [done|lia]|lia|].
  unfold sections_fuel. nia.
Qed.
End Total.

(** ** Reading back a section *)

Section ReadBack.
Context `{InfoLib} `{CommonLaws} {S : Type}.
Implicit Types (f : info_field S) (s acc : S).

(** The member takes the value it has in [s]. *)
Definition copy_cell (c : cell S) s acc : S :=
  match c with
  | CString get set => set (get s) acc
  | CUInt get set => set (get s) acc
  | CInt get set => set (get s) acc
  | CFloat get set => set (get s) acc
  end.
Definition copy_fields (fields : list (info_field S)) s acc : S :=
  List.fold_left (λ acc f, copy_cell f.2 s acc) fields acc.

(** A text inside of one line that starts no section. *)
Definition line_text (t : bytes) : Prop := (chr_cr ∉ t) ∧ ("#"%char ∉ t).
#[global] Instance line_text_dec t : Decision (line_text t).
Proof. unfold line_text. apply _. Defined.

(** The member survives its text. *)
Definition cell_fits s (c : cell S) : Prop :=
  match c with
  | CString get _ => line_text (get s)
  | CUInt get _ => 0 <= get s < 2 ^ 32
  | CInt get _ => INT_MIN <= get s <= INT_MAX
  | CFloat get _ => FromString_float (ToString_float (get s)) = get s ∧ line_text (ToString_float (get s))
  end.

Definition label_char (c : ascii) : bool :=
  negb (Ascii.eqb c ":" || Ascii.eqb c chr_cr || Ascii.eqb c "#").
Definition labels_ok (fields : list (info_field S)) : Prop :=
  List.NoDup (List.map fst fields) ∧
  forallb (λ l, (negb (bool_decide (l = [])) && forallb label_char l)) (List.map fst fields) = true.

Lemma not_char (P : ascii → bool) l c : forallb P l = true → P c = false → c ∉ l.
Proof. rewrite forallb_forall. intros Hl Hc Hin%list_elem_of_In. apply Hl in Hin. congruence. Qed.

Lemma cell_line s c : cell_fits s c → line_text (print_cell c s).
Proof.
  assert (Hnum : ∀ t, forallb (λ x, negb (Ascii.eqb x chr_cr || Ascii.eqb x "#")) t = true → line_text t).
  { intros t Ht. split; by apply (not_char _ _ _ Ht). }
  destruct c; cbn [cell_fits print_cell]; [done| | |by intros [_ ?]]; intros _; apply Hnum;
    [by apply dec_nat_chars|by apply dec_int_chars].
Qed.

Lemma assign_print s c acc : cell_fits s c → assign c (print_cell c s) acc = copy_cell c s acc.
Proof.
  destruct c; cbn [cell_fits print_cell assign copy_cell]; intros Hf; [done| | |].
  - by rewrite FromString_uint32_spec.
  - by rewrite FromString_int_spec.
  - by destruct Hf as [-> _].
Qed.

Lemma find_label fields f :
  List.NoDup (List.map fst fields) → In f fields →
  List.find (λ x : info_field S, bool_decide (f.1 = x.1)) fields = Some f.
Proof.
  induction fields as [|g fields IH]; intros Hd Hin; [done|]. cbn [List.map List.find] in *.
  destruct Hin as [->|Hin].
  - by rewrite bool_decide_eq_true_2.
  - apply NoDup_cons_iff in Hd as [Hg Hd]. rewrite bool_decide_eq_false_2; [by apply IH|].
    intros E. apply Hg. rewrite <- E. by apply in_map.
Qed.

Lemma label_facts fields f :
  labels_ok fields → In f fields → f.1 ≠ [] ∧ (":"%char ∉ f.1) ∧ line_text f.1.
Proof.
  intros [_ Hl] Hin. rewrite forallb_forall in Hl. specialize (Hl f.1 (in_map fst _ _ Hin)).
  apply andb_true_iff in Hl as [Hne Hc]. rewrite negb_true_iff, bool_decide_eq_false in Hne.
  split; [done|]. split; [|split]; (eapply not_char; [exact Hc|done]).
Qed.

Definition field_line s f : bytes := f.1 ++ ":"%char :: print_cell f.2 s.

Lemma read_field_line fields s f acc :
  labels_ok fields → In f fields → cell_fits s f.2 →
  read_line fields acc (field_line s f) = copy_cell f.2 s acc.
Proof.
  intros Hok Hin Hf. destruct (label_facts fields f Hok Hin) as (_ & Hc & _).
  unfold read_line, field_value, field_line. rewrite split_colon_at by done.
  rewrite find_label by (done || apply Hok). by apply assign_print.
Qed.

(** Reading what has been printed copies the members. *)
Lemma read_print fields s acc :
  labels_ok fields → Forall (λ f, cell_fits s f.2) fields →
  read_section fields (crlf ++ print_section fields s) acc = copy_fields fields s acc.
Proof.
  intros Hok Hf. unfold read_section, print_section.
  change (List.map (λ f, (f.1 ++ ":"%char :: print_cell f.2 s) ++ crlf) fields)
    with (List.map (λ f, field_line s f ++ [chr_cr; chr_nl]) fields).
  rewrite <- (map_map (field_line s) (λ l, l ++ [chr_cr; chr_nl])).
  assert (Hlines : lines_of crlf (crlf ++ List.concat (List.map (λ l, l ++ [chr_cr; chr_nl]) (List.map (field_line s) fields)))
                   = [] :: List.map (field_line s) fields).
  { pose proof (lines_of_concat chr_cr [chr_nl] ([] :: List.map (field_line s) fields) []) as Hl.
    cbn [List.map List.concat] in Hl. rewrite app_nil_r in Hl. apply Hl; [|by intros Hin%list_elem_of_In].
    constructor; [by intros Hin%list_elem_of_In|]. apply Forall_forall. intros l Hin.
    apply list_elem_of_In, in_map_iff in Hin as (f & <- & Hin). unfold field_line.
    destruct (label_facts fields f Hok Hin) as (_ & _ & Hcr & _).
    rewrite Forall_forall in Hf. apply list_elem_of_In, Hf, cell_line in Hin as [Hcr' _].
    rewrite not_elem_of_app, not_elem_of_cons. by split_and!. }
  rewrite Hlines. cbn [List.fold_left].
  assert (Hskip : read_line fields acc [] = acc).
  { unfold read_line, field_value. change (split_colon []) with (@None (bytes * bytes)). cbn match.
    destruct (List.find _ fields) as [f|] eqn:E; [|done]. apply find_some in E as [Hin E].
    apply bool_decide_eq_true in E. by destruct (label_facts fields f Hok Hin) as [? _]. }
  rewrite Hskip.
  assert (Hgo : ∀ fs acc, incl fs fields →
            List.fold_left (read_line fields) (List.map (field_line s) fs) acc = copy_fields fs s acc).
  { induction fs as [|f fs IH]; intros a Hin; [done|]. cbn [List.map List.fold_left].
    apply incl_cons_inv in Hin as [Hin Hfs]. rewrite read_field_line; [by apply IH|done..|].
    rewrite Forall_forall in Hf. by apply Hf, list_elem_of_In. }
  apply Hgo, incl_refl.
Qed.

(** The text of a structure alone, behind its label. *)
Lemma read_labelled fields s acc label :
  label ≠ [] → labels_ok fields → Forall (λ f, cell_fits s f.2) fields →
  option_map (λ part, read_section fields part acc) (after_label label [] (label ++ crlf ++ print_section fields s))
  = Some (copy_fields fields s acc).
Proof.
  intros Hne Hok Hf. rewrite after_label_spec by done. rewrite (proj2 (is_prefix_b_spec _ _)) by (by eexists). rewrite drop_app_length.
  cbn [option_map]. by rewrite read_print.
Qed.

Lemma print_section_line fields s :
  labels_ok fields → Forall (λ f, cell_fits s f.2) fields → "#"%char ∉ print_section fields s.
Proof.
  intros Hok Hf Hin. apply list_elem_of_In, in_concat in Hin as (l & (f & <- & Hin)%in_map_iff & Hc).
  destruct (label_facts fields f Hok Hin) as (_ & _ & _ & Hh).
  rewrite Forall_forall in Hf. apply list_elem_of_In, Hf, cell_line in Hin as [_ Hh'].
  apply list_elem_of_In in Hc. rewrite !elem_of_app, elem_of_cons in Hc.
  destruct Hc as [[?|[?|?]]|Hc]; try done. apply list_elem_of_In in Hc. by repeat destruct Hc as [Hc|Hc].
Qed.
End ReadBack.

(** ** Walking through the sections *)

Section Walk.
Context {R : Type} (labels : list bytes) (put : nat → bytes → R → R).

(** At the end of a label the loop looks for the next one. *)
Lemma walk_label u : ∀ w pre rest fuel i j pos r,
  labels !! j = Some (w ++ u) → u ≠ [] → i = length (pre ++ w) → (length u <= fuel)%nat →
  sections_loop fuel labels put (pre ++ w ++ u ++ rest) i j w pos r =
  match labels !! (j + 1)%nat with
  | None => Val r
  | Some next =>
    let content := pre ++ w ++ u ++ rest in
    let i := (length (pre ++ w ++ u) - 1)%nat in
    let fuel := (fuel - length u)%nat in
    match pos ≫= find_from content next with
    | Some p => sections_loop fuel labels put content p (j + 1) [] (Some p) (put j (part_between content i p) r)
    | None => sections_loop fuel labels put content (i + 1) j [] None r
    end
  end.
Proof.
  induction u as [|x u IH]; intros w pre rest fuel i j pos r Hl Hne -> Hf; [done|].
  destruct fuel as [|fuel]; [simpl in Hf; lia|]. cbn [sections_loop].
  assert (Hx : (pre ++ w ++ (x :: u) ++ rest) !! length (pre ++ w) = Some x).
  { rewrite app_assoc. by apply list_lookup_middle. }
  rewrite Hx, Hl. cbn [from_option_fault mbind outcome_bind].
  destruct (decide (u = [])) as [->|Hu].
  - rewrite bool_decide_eq_true_2 by done. cbn [length Nat.sub].
    replace (length (pre ++ w ++ [x]) - 1)%nat with (length (pre ++ w)) by (rewrite !length_app; simpl; lia).
    by rewrite Nat.sub_0_r.
  - rewrite bool_decide_eq_false_2 by (intros E%app_inv_head; by destruct u).
    pose proof (IH (w ++ [x]) pre rest fuel (length (pre ++ w) + 1)%nat j pos r) as IHw.
    rewrite <- !app_assoc in IHw. cbn [app] in IHw |- *. rewrite IHw; [done|done|done| |simpl in Hf; lia].
    rewrite !length_app. simpl. lia.
Qed.

(** A section up to the label of the next one. *)
Lemma walk_section pre label body next rest fuel j r :
  labels !! j = Some label → labels !! (j + 1)%nat = Some next → label ≠ [] →
  find_sub next (label ++ body ++ next ++ rest) = Some (length label + length body)%nat →
  (length label <= fuel)%nat →
  let content := pre ++ label ++ body ++ next ++ rest in
  sections_loop fuel labels put content (length pre) j [] (Some (length pre)) r =
  sections_loop (fuel - length label) labels put content (length (pre ++ label ++ body)) (j + 1) []
    (Some (length (pre ++ label ++ body))) (put j body r).
Proof.
  intros Hl Hn Hne Hfind Hf content. unfold content.
  rewrite (walk_label label [] pre (body ++ next ++ rest)); [|done|done|by rewrite app_nil_r|done].
  rewrite Hn. cbv zeta. cbn [mbind option_bind app]. unfold find_from. rewrite drop_app_length, Hfind.
  cbn [option_map]. rewrite <- !length_app, (app_assoc label).
  assert (Hlen : (length (pre ++ label ++ body) = length pre + length label + length body)%nat)
    by (rewrite !length_app; lia).
  replace (length pre + length (label ++ body))%nat with (length (pre ++ label ++ body))
    by (rewrite !length_app; lia).
  f_equal. f_equal. unfold part_between.
  assert (0 < length label)%nat by (destruct label; simpl; [done|lia]).
  assert (Hi : (length (pre ++ label) - 1 + 1 = length (pre ++ label))%nat) by (rewrite length_app; lia).
  destruct (Nat.leb_spec (length (pre ++ label ++ body)) (length (pre ++ label) - 1));
    [rewrite !length_app in *; lia|].
  rewrite Hi, <- (app_assoc label), (app_assoc pre label (body ++ next ++ rest)), drop_app_length.
  replace (length (pre ++ label ++ body) - (length (pre ++ label) - 1) - 1)%nat with (length body)
    by (rewrite !length_app in *; lia).
  by rewrite take_app_length.
Qed.

(** The last label ends the loop. *)
Lemma walk_last pre label rest fuel j r :
  labels !! j = Some label → labels !! (j + 1)%nat = None → label ≠ [] → (length label <= fuel)%nat →
  sections_loop fuel labels put (pre ++ label ++ rest) (length pre) j [] (Some (length pre)) r = Val r.
Proof.
  intros Hl Hn Hne Hf. rewrite (walk_label label [] pre rest); [|done|done|by rewrite app_nil_r|done].
  by rewrite Hn.
Qed.
End Walk.

(** The next label is found behind a section without the character labels begin with. *)
Lemma find_next_label label body next rest :
  "#"%char ∉ label → "#"%char ∉ body → is_prefix_b ("#"%char :: next) ("#"%char :: label ++ body ++ "#"%char :: next ++ rest) = false →
  find_sub ("#"%char :: next) (("#"%char :: label) ++ body ++ ("#"%char :: next) ++ rest)
  = Some (length ("#"%char :: label) + length body)%nat.
Proof.
  intros Hl Hb Hp. cbn [app find_sub] in *. rewrite Hp.
  pose proof (find_sub_first "#" next (label ++ body) rest) as Hf. rewrite <- app_assoc in Hf. cbn [app] in Hf.
  rewrite Hf by (rewrite not_elem_of_app; done). rewrite length_app. done.
Qed.

(** ** A whole text

    Sections, each a label without its ["#"] and what stands behind it, and the label of the last. *)

Definition section_text (s : bytes * bytes) : bytes := ("#"%char :: s.1) ++ s.2.

(** Neither begins with the other. *)
Definition diverge (a b : bytes) : bool := negb (is_prefix_b a b) && negb (is_prefix_b b a).
Fixpoint labels_diverge (l : list bytes) : bool :=
  match l with a :: (b :: _) as l => diverge a b && labels_diverge l | _ => true end.

Lemma diverge_prefix a : ∀ b t, diverge a b = true → is_prefix_b b (a ++ t) = false.
Proof.
  induction a as [|x a IH]; intros [|y b] t; cbn [diverge is_prefix_b]; try done.
  unfold diverge. cbn [is_prefix_b app]. destruct (Ascii.eqb_spec y x) as [->|Hne]; [|done].
  rewrite Ascii.eqb_refl. cbn [andb]. apply IH.
Qed.

Section WalkAll.
Context {R : Type} (put : nat → bytes → R → R) (last : bytes).

Fixpoint put_all (j : nat) (bodies : list bytes) (r : R) : R :=
  match bodies with [] => r | body :: bodies => put_all (j + 1) bodies (put j body r) end.

Lemma walk_all secs : ∀ before pre rest fuel r,
  let labels := before ++ List.map (cons "#"%char) (List.map fst secs ++ [last]) in
  let content := pre ++ List.concat (List.map section_text secs) ++ ("#"%char :: last) ++ rest in
  labels_diverge (List.map fst secs ++ [last]) = true →
  Forall (λ s, ("#"%char ∉ s.1) ∧ ("#"%char ∉ s.2)) secs →
  (length content - length pre <= fuel)%nat →
  sections_loop fuel labels put content (length pre) (length before) [] (Some (length pre)) r
  = Val (put_all (length before) (List.map snd secs) r).
Proof.
  induction secs as [|s secs IH]; intros before pre rest fuel r labels content Hd Hh Hf;
    subst labels content; cbn [List.map List.concat app put_all] in *.
  - apply (walk_last _ _ pre ("#"%char :: last)); [by apply list_lookup_middle| |done|].
    + apply lookup_ge_None_2. rewrite length_app. simpl. lia.
    + rewrite !length_app in Hf. cbn [length] in *. rewrite ?length_app in Hf. lia.
  - apply Forall_cons in Hh as [[Hl Hb] Hh].
    set (next := match secs with s' :: _ => s'.1 | [] => last end).
    assert (Htail : ∃ t, List.concat (List.map section_text secs) ++ "#"%char :: last ++ rest
                         = ("#"%char :: next) ++ t).
    { destruct secs as [|s' secs]; [by exists rest|]. eexists. subst next. unfold section_text at 1.
      cbn [List.map List.concat]. by rewrite <- !app_assoc. }
    assert (Hnext : diverge s.1 next && labels_diverge (List.map fst secs ++ [last]) = true).
    { subst next. destruct secs; exact Hd. }
    apply andb_true_iff in Hnext as [Hdv Hd']. destruct Htail as [t Ht].
    assert (Hc : pre ++ (section_text s ++ List.concat (List.map section_text secs)) ++ "#"%char :: last ++ rest
                 = pre ++ ("#"%char :: s.1) ++ s.2 ++ ("#"%char :: next) ++ t).
    { rewrite <- app_assoc, Ht. unfold section_text. by rewrite <- !app_assoc. }
    rewrite Hc in *.
    rewrite (walk_section _ _ pre ("#"%char :: s.1) s.2 ("#"%char :: next) t);
      [|by apply list_lookup_middle| |done| |].
    + replace (before ++ ("#"%char :: s.1) :: List.map (cons "#"%char) (List.map fst secs ++ [last]))
        with ((before ++ ["#"%char :: s.1]) ++ List.map (cons "#"%char) (List.map fst secs ++ [last]))
        by (by rewrite <- app_assoc).
      replace (length before + 1)%nat with (length (before ++ ["#"%char :: s.1])) by (by rewrite length_app).
      rewrite <- Ht in *.
      replace (pre ++ ("#"%char :: s.1) ++ s.2 ++ List.concat (List.map section_text secs) ++ "#"%char :: last ++ rest)
        with ((pre ++ ("#"%char :: s.1) ++ s.2) ++ List.concat (List.map section_text secs) ++ ("#"%char :: last) ++ rest)
        in * by (by rewrite <- !app_assoc).
      apply IH; [done|done|]. revert Hf. clear. rewrite !length_app. cbn [length]. rewrite !length_app. lia.
    + subst next. rewrite lookup_app_r by lia. replace (length before + 1 - length before)%nat with 1%nat by lia.
      by destruct secs.
    + apply find_next_label; [done|done|]. cbn [is_prefix_b]. rewrite Ascii.eqb_refl. by apply diverge_prefix.
    + rewrite !length_app in Hf. lia.
Qed.
End WalkAll.
