(* ===== verification/ConnectionTypes.v ===== *)
(** [core/connection_types]: the kinds of database, of server and of connection, their names, the help
    of the command line and the command line a new connection begins with. *)
From Stdlib Require Import Ascii String ZArith Lia.
From stdpp Require Import base list.
From S2P Require Import Prelude Common Texts Configs.
Local Open Scope Z_scope.

Inductive connectionTypes := REDIS | MEMCACHED | SSDB | LEVELDB | ROCKSDB | UNQLITE | LMDB | UPSCALEDB.
Inductive serverTypes := MASTER | SLAVE.
Inductive serverState := SUP | SDOWN.
Inductive serverConnectState := SCONNECTED | SDISCONNECTED.
Inductive serverMode := STANDALONE | SENTINEL | CLUSTER.
Inductive ConnectionMode :=
  LatencyMode | SlaveMode | GetRDBMode | PipeMode | FindBigKeysMode | StatMode | ScanMode | InteractiveMode.

#[global] Instance connectionTypes_eq_dec : EqDecision connectionTypes.
Proof. solve_decision. Defined.
#[global] Instance serverTypes_eq_dec : EqDecision serverTypes.
Proof. solve_decision. Defined.
#[global] Instance serverState_eq_dec : EqDecision serverState.
Proof. solve_decision. Defined.
#[global] Instance serverConnectState_eq_dec : EqDecision serverConnectState.
Proof. solve_decision. Defined.
#[global] Instance serverMode_eq_dec : EqDecision serverMode.
Proof. solve_decision. Defined.
#[global] Instance ConnectionMode_eq_dec : EqDecision ConnectionMode.
Proof. solve_decision. Defined.

(** With every database built in. *)
Definition compiled_types : list connectionTypes :=
  [REDIS; MEMCACHED; SSDB; LEVELDB; ROCKSDB; UNQLITE; LMDB; UPSCALEDB].

Definition IsRemoteType (type : connectionTypes) : bool :=
  bool_decide (type = REDIS) || bool_decide (type = MEMCACHED) || bool_decide (type = SSDB).

Definition IsCanSSHConnection (type : connectionTypes) : bool := bool_decide (type = REDIS).

(** * Names

    The enumerators in the order of their values, with the name at that place of the table. *)

Definition connnectionType : list (connectionTypes * bytes) := [
  (REDIS, lit "Redis"); (MEMCACHED, lit "Memcached"); (SSDB, lit "SSDB"); (LEVELDB, lit "LevelDB");
  (ROCKSDB, lit "RocksDB"); (UNQLITE, lit "UnQLite"); (LMDB, lit "LMDB"); (UPSCALEDB, lit "UpscaleDB")].
Definition connnectionMode : list (ConnectionMode * bytes) := [
  (LatencyMode, lit "Latency mode"); (SlaveMode, lit "Slave mode"); (GetRDBMode, lit "Get RDB mode");
  (PipeMode, lit "Pipe mode"); (FindBigKeysMode, lit "Find big keys mode"); (StatMode, lit "Stat mode");
  (ScanMode, lit "Scan mode"); (InteractiveMode, lit "Interactive mode")].
Definition serverTypes_names : list (serverTypes * bytes) := [(MASTER, lit "Master"); (SLAVE, lit "Slave")].
Definition serverState_names : list (serverState * bytes) := [(SUP, lit "Up"); (SDOWN, lit "Down")].
Definition serverModes_names : list (serverMode * bytes) :=
  [(STANDALONE, lit "Standalone"); (SENTINEL, lit "Sentinel"); (CLUSTER, lit "Cluster")].

Section Names.
Context {A : Type} `{EqDecision A}.

(** The loop of [ConvertFromString] over the table, with what it returns behind [NOTREACHED]. *)
Definition value_of_name (names : list (A * bytes)) (otherwise : A) (text : bytes) : A :=
  match List.find (λ x, bool_decide (text = x.2)) names with Some x => x.1 | None => otherwise end.

Definition name_of_value (names : list (A * bytes)) (v : A) : bytes :=
  match List.find (λ x, bool_decide (v = x.1)) names with Some x => x.2 | None => [] end.
End Names.

Definition connectionTypes_FromString : bytes → connectionTypes := value_of_name connnectionType REDIS.
Definition connectionTypes_ToString : connectionTypes → bytes := name_of_value connnectionType.
Definition serverTypes_FromString : bytes → serverTypes := value_of_name serverTypes_names MASTER.
Definition serverTypes_ToString : serverTypes → bytes := name_of_value serverTypes_names.
Definition serverState_FromString : bytes → serverState := value_of_name serverState_names SUP.
Definition serverState_ToString : serverState → bytes := name_of_value serverState_names.
Definition serverMode_ToString : serverMode → bytes := name_of_value serverModes_names.
Definition ConnectionMode_ToString : ConnectionMode → bytes := name_of_value connnectionMode.

(** * Command lines *)

Definition CommandLineHelpText (type : connectionTypes) : bytes :=
  lit (match type with
  | REDIS =>
    "<b>Usage: [OPTIONS] [cmd [arg [arg ...]]]</b><br/>" ++
    "<b>-h &lt;hostname&gt;</b>      Server hostname (default: 127.0.0.1).<br/>" ++
    "<b>-p &lt;port&gt;</b>          Server port (default: 6379).<br/>" ++
    "<b>-s &lt;socket&gt;</b>        Server socket (overrides hostname and port).<br/>" ++
    "<b>-a &lt;password&gt;</b>      Password to use when connecting to the server.<br/>" ++
    "<b>-i &lt;interval&gt; seconds per command.<br/>" ++
    "                   It is possible to specify sub-second times like <b>-i</b> 0.1.<br/>" ++
    "<b>-n &lt;db&gt;</b>            Database number.<br/>" ++
    "<b>-d &lt;delimiter&gt;</b>     Multi-bulk delimiter in for raw formatting (default: \n).<br/>" ++
    "<b>-ns &lt;separator&gt;</b>    Namespace separator.<br/>" ++
    "<b>-c</b>                 Enable cluster mode (follow -ASK and -MOVED redirections).<br/>" ++
    "<b>--latency</b>          Enter a special mode continuously sampling latency.<br/>" ++
    "<b>--latency-history</b>  Like <b>--latency</b> but tracking latency changes over time.<br/>" ++
    "                   Default time interval is 15 sec. Change it using <b>-i</b>.<br/>" ++
    "<b>--slave</b>            Simulate a slave showing commands received from the master.<br/>" ++
    "<b>--rdb &lt;filename&gt;</b>   Transfer an RDB dump from remote server to local file.<br/>" ++
    "<b>--bigkeys</b>          Sample Redis keys looking for big keys.<br/>" ++
    "<b>--scan</b>             List all keys using the SCAN command.<br/>" ++
    "<b>--pattern &lt;pat&gt;</b>    Useful with <b>--scan</b> to specify a SCAN pattern.<br/>" ++
    "<b>--intrinsic-latency &lt;sec&gt;</b> Run a test to measure intrinsic system latency.<br/>" ++
    "                   The test will run for the specified amount of seconds.<br/>" ++
    "<b>--eval &lt;file&gt;</b>      Send an EVAL command using the Lua script at <b>&lt;file&gt;</b>."
  | MEMCACHED =>
    "<b>Usage: [OPTIONS] [cmd [arg [arg ...]]]</b><br/>" ++
    "<b>-h &lt;hostname&gt;</b>      Server hostname (default: 127.0.0.1).<br/>" ++
    "<b>-p &lt;port&gt;</b>          Server port (default: 11211).<br/>" ++
    "<b>-u &lt;username&gt;</b>      Username to use when connecting to the server.<br/>" ++
    "<b>-a &lt;password&gt;</b>      Password to use when connecting to the server.<br/>" ++
    "<b>-d &lt;delimiter&gt;</b>     Multi-bulk delimiter in for raw formatting (default: \n).<br/>" ++
    "<b>-ns &lt;separator&gt;</b>    Namespace separator.<br/>"
  | SSDB =>
    "<b>Usage: [OPTIONS] [cmd [arg [arg ...]]]</b><br/>" ++
    "<b>-u &lt;username&gt;</b>      Username to use when connecting to the server.<br/>" ++
    "<b>-a &lt;password&gt;</b>      Password to use when connecting to the server.<br/>" ++
    "<b>-d &lt;delimiter&gt;</b>     Multi-bulk delimiter in for raw formatting (default: \n).<br/>" ++
    "<b>-ns &lt;separator&gt;</b>    Namespace separator.<br/>"
  | LEVELDB =>
    "<b>Usage: [OPTIONS] [cmd [arg [arg ...]]]</b><br/>" ++
    "<b>-f &lt;db&gt;</b>            Directory path to database.<br/>" ++
    "<b>-c </b>            Create database if missing.<br/>" ++
    "<b>-d &lt;delimiter&gt;</b>     Multi-bulk delimiter in for raw formatting (default: \n).<br/>" ++
    "<b>-ns &lt;separator&gt;</b>    Namespace separator.<br/>"
  | ROCKSDB =>
    "<b>Usage: [OPTIONS] [cmd [arg [arg ...]]]</b><br/>" ++
    "<b>-f &lt;db&gt;</b>            Directory path to database.<br/>" ++
    "<b>-c </b>            Create database if missing.<br/>" ++
    "<b>-d &lt;delimiter&gt;</b>     Multi-bulk delimiter in for raw formatting (default: \n).<br/>" ++
    "<b>-ns &lt;separator&gt;</b>    Namespace separator.<br/>"
  | UNQLITE =>
    "<b>Usage: [OPTIONS] [cmd [arg [arg ...]]]</b><br/>" ++
    "<b>-f &lt;db&gt;</b>            File path to database.<br/>" ++
    "<b>-c </b>            Create database if missing.<br/>" ++
    "<b>-d &lt;delimiter&gt;</b>     Multi-bulk delimiter in for raw formatting (default: \n).<br/>" ++
    "<b>-ns &lt;separator&gt;</b>    Namespace separator.<br/>"
  | LMDB =>
    "<b>Usage: [OPTIONS] [cmd [arg [arg ...]]]</b><br/>" ++
    "<b>-f &lt;db&gt;</b>            Directory path to database.<br/>" ++
    "<b>-c </b>            Create database if missing.<br/>" ++
    "<b>-d &lt;delimiter&gt;</b>     Multi-bulk delimiter in for raw formatting (default: \n).<br/>" ++
    "<b>-ns &lt;separator&gt;</b>    Namespace separator.<br/>"
  | UPSCALEDB =>
    "<b>Usage: [OPTIONS] [cmd [arg [arg ...]]]</b><br/>" ++
    "<b>-f &lt;db&gt;</b>            Directory path to database.<br/>" ++
    "<b>-c </b>            Create database if missing.<br/>" ++
    "<b>-d &lt;delimiter&gt;</b>     Multi-bulk delimiter in for raw formatting (default: \n).<br/>" ++
    "<b>-ns &lt;separator&gt;</b>    Namespace separator.<br/>"
  end)%string.

(** [create_if_missing] set in a new configuration. *)
Definition creating (c : LocalConfig) : LocalConfig :=
  mkLocal (lc_delimiter c) (lc_ns_separator c) (lc_dbname c) true.

Definition DefaultCommandLine `{CommonLib} `{ConfigLib} (type : connectionTypes) : bytes :=
  match type with
  | REDIS => RedisConfig.ToString RedisConfig.default
  | MEMCACHED => MemcachedConfig.ToString MemcachedConfig.Config
  | SSDB => SsdbConfig.ToString SsdbConfig.Config
  | LEVELDB => LeveldbConfig.ToString (creating LeveldbConfig.Config)
  | ROCKSDB => RocksdbConfig.ToString (creating RocksdbConfig.Config)
  | UNQLITE => UnqliteConfig.ToString (creating UnqliteConfig.Config)
  | LMDB => LmdbConfig.ToString (creating LmdbConfig.Config)
  | UPSCALEDB => UpscaledbConfig.ToString (creating UpscaledbConfig.Config)
  end.

(** * Lemmas *)

Lemma connection_names t :
  connectionTypes_FromString (connectionTypes_ToString t) = t.
Proof. by destruct t. Qed.

Lemma server_names t s :
  serverTypes_FromString (serverTypes_ToString t) = t ∧ serverState_FromString (serverState_ToString s) = s.
Proof. by destruct t, s. Qed.

(** Only Redis can be reached through SSH, and it is remote. *)
Lemma ssh_is_remote t : IsCanSSHConnection t = true → IsRemoteType t = true.
Proof. by destruct t. Qed.
