(* ===== verification/RedisInfo.v ===== *)
(** The server information of Redis: [core/redis/server_info]. *)
From Stdlib Require Import Ascii String ZArith Lia.
From stdpp Require Import base list.
From S2P Require Import Prelude Common Texts Values Configs Hiredis SshInfo ServerInfo.
Local Open Scope Z_scope.

Module RedisInfo.
Record Server := mkServer { redis_version_ : bytes; redis_git_sha1_ : bytes; redis_git_dirty_ : bytes;
  redis_build_id_ : bytes; redis_mode_ : bytes; os_ : bytes; arch_bits_ : Z; multiplexing_api_ : bytes;
  gcc_version_ : bytes; process_id_ : Z; run_id_ : bytes; tcp_port_ : Z; uptime_in_seconds_ : Z;
  uptime_in_days_ : Z; hz_ : Z; lru_clock_ : Z }.

Definition Server_default : Server := mkServer [] [] [] [] [] [] 0 [] [] 0 [] 0 0 0 0 0.

Definition Server_fields `{InfoLib} : list (info_field Server) := [
  (lit "redis_version", CString redis_version_ (λ v s, let '(mkServer a0 a1 a2 a3 a4 a5 a6 a7 a8 a9 a10 a11
    a12 a13 a14 a15) := s in mkServer v a1 a2 a3 a4 a5 a6 a7 a8 a9 a10 a11 a12 a13 a14 a15));
  (lit "redis_git_sha1", CString redis_git_sha1_ (λ v s, let '(mkServer a0 a1 a2 a3 a4 a5 a6 a7 a8 a9 a10
    a11 a12 a13 a14 a15) := s in mkServer a0 v a2 a3 a4 a5 a6 a7 a8 a9 a10 a11 a12 a13 a14 a15));
  (lit "redis_git_dirty", CString redis_git_dirty_ (λ v s, let '(mkServer a0 a1 a2 a3 a4 a5 a6 a7 a8 a9 a10
    a11 a12 a13 a14 a15) := s in mkServer a0 a1 v a3 a4 a5 a6 a7 a8 a9 a10 a11 a12 a13 a14 a15));
  (lit "redis_mode", CString redis_mode_ (λ v s, let '(mkServer a0 a1 a2 a3 a4 a5 a6 a7 a8 a9 a10 a11 a12
    a13 a14 a15) := s in mkServer a0 a1 a2 a3 v a5 a6 a7 a8 a9 a10 a11 a12 a13 a14 a15));
  (lit "os", CString os_ (λ v s, let '(mkServer a0 a1 a2 a3 a4 a5 a6 a7 a8 a9 a10 a11 a12 a13 a14 a15) := s
    in mkServer a0 a1 a2 a3 a4 v a6 a7 a8 a9 a10 a11 a12 a13 a14 a15));
  (lit "arch_bits", CUInt arch_bits_ (λ v s, let '(mkServer a0 a1 a2 a3 a4 a5 a6 a7 a8 a9 a10 a11 a12 a13
    a14 a15) := s in mkServer a0 a1 a2 a3 a4 a5 v a7 a8 a9 a10 a11 a12 a13 a14 a15));
  (lit "multiplexing_api", CString multiplexing_api_ (λ v s, let '(mkServer a0 a1 a2 a3 a4 a5 a6 a7 a8 a9
    a10 a11 a12 a13 a14 a15) := s in mkServer a0 a1 a2 a3 a4 a5 a6 v a8 a9 a10 a11 a12 a13 a14 a15));
  (lit "gcc_version", CString gcc_version_ (λ v s, let '(mkServer a0 a1 a2 a3 a4 a5 a6 a7 a8 a9 a10 a11 a12
    a13 a14 a15) := s in mkServer a0 a1 a2 a3 a4 a5 a6 a7 v a9 a10 a11 a12 a13 a14 a15));
  (lit "process_id", CUInt process_id_ (λ v s, let '(mkServer a0 a1 a2 a3 a4 a5 a6 a7 a8 a9 a10 a11 a12 a13
    a14 a15) := s in mkServer a0 a1 a2 a3 a4 a5 a6 a7 a8 v a10 a11 a12 a13 a14 a15));
  (lit "run_id", CString run_id_ (λ v s, let '(mkServer a0 a1 a2 a3 a4 a5 a6 a7 a8 a9 a10 a11 a12 a13 a14
    a15) := s in mkServer a0 a1 a2 a3 a4 a5 a6 a7 a8 a9 v a11 a12 a13 a14 a15));
  (lit "tcp_port", CUInt tcp_port_ (λ v s, let '(mkServer a0 a1 a2 a3 a4 a5 a6 a7 a8 a9 a10 a11 a12 a13 a14
    a15) := s in mkServer a0 a1 a2 a3 a4 a5 a6 a7 a8 a9 a10 v a12 a13 a14 a15));
  (lit "uptime_in_seconds", CUInt uptime_in_seconds_ (λ v s, let '(mkServer a0 a1 a2 a3 a4 a5 a6 a7 a8 a9
    a10 a11 a12 a13 a14 a15) := s in mkServer a0 a1 a2 a3 a4 a5 a6 a7 a8 a9 a10 a11 v a13 a14 a15));
  (lit "uptime_in_days", CUInt uptime_in_days_ (λ v s, let '(mkServer a0 a1 a2 a3 a4 a5 a6 a7 a8 a9 a10 a11
    a12 a13 a14 a15) := s in mkServer a0 a1 a2 a3 a4 a5 a6 a7 a8 a9 a10 a11 a12 v a14 a15));
  (lit "hz", CUInt hz_ (λ v s, let '(mkServer a0 a1 a2 a3 a4 a5 a6 a7 a8 a9 a10 a11 a12 a13 a14 a15) := s in
    mkServer a0 a1 a2 a3 a4 a5 a6 a7 a8 a9 a10 a11 a12 a13 v a15));
  (lit "lru_clock", CUInt lru_clock_ (λ v s, let '(mkServer a0 a1 a2 a3 a4 a5 a6 a7 a8 a9 a10 a11 a12 a13
    a14 a15) := s in mkServer a0 a1 a2 a3 a4 a5 a6 a7 a8 a9 a10 a11 a12 a13 a14 v))].

(** [redis_build_id_] is neither read nor printed. *)
Definition Server_values `{InfoLib} : list (cell Server) :=
  let cells := List.map snd Server_fields in
  take 3 cells ++ [CString redis_build_id_ (λ v s, let '(mkServer a0 a1 a2 a3 a4 a5 a6 a7 a8 a9 a10 a11 a12
    a13 a14 a15) := s in mkServer a0 a1 a2 v a4 a5 a6 a7 a8 a9 a10 a11 a12 a13 a14 a15)] ++ drop 3 cells.

Record Clients := mkClients { connected_clients_ : Z; client_longest_output_list_ : Z;
  client_biggest_input_buf_ : Z; blocked_clients_ : Z }.

Definition Clients_default : Clients := mkClients 0 0 0 0.

Definition Clients_fields `{InfoLib} : list (info_field Clients) := [
  (lit "connected_clients", CUInt connected_clients_ (λ v s, let '(mkClients a0 a1 a2 a3) := s in mkClients
    v a1 a2 a3));
  (lit "client_longest_output_list", CUInt client_longest_output_list_ (λ v s, let '(mkClients a0 a1 a2 a3)
    := s in mkClients a0 v a2 a3));
  (lit "client_biggest_input_buf", CUInt client_biggest_input_buf_ (λ v s, let '(mkClients a0 a1 a2 a3) := s
    in mkClients a0 a1 v a3));
  (lit "blocked_clients", CUInt blocked_clients_ (λ v s, let '(mkClients a0 a1 a2 a3) := s in mkClients a0
    a1 a2 v))].

Definition Clients_values `{InfoLib} : list (cell Clients) := List.map snd Clients_fields.

Record Memory `{InfoLib} := mkMemory { used_memory_ : Z; used_memory_human_ : bytes; used_memory_rss_ : Z;
  used_memory_peak_ : Z; used_memory_peak_human_ : bytes; used_memory_lua_ : Z; mem_fragmentation_ratio_ :
  float; mem_allocator_ : bytes }.

Arguments mkMemory {_} _ _ _ _ _ _ _ _.

Definition Memory_default `{InfoLib} : Memory := mkMemory 0 [] 0 0 [] 0 float_zero [].

Definition Memory_fields `{InfoLib} : list (info_field Memory) := [
  (lit "used_memory", CUInt used_memory_ (λ v s, let '(mkMemory a0 a1 a2 a3 a4 a5 a6 a7) := s in mkMemory v
    a1 a2 a3 a4 a5 a6 a7));
  (lit "used_memory_human", CString used_memory_human_ (λ v s, let '(mkMemory a0 a1 a2 a3 a4 a5 a6 a7) := s
    in mkMemory a0 v a2 a3 a4 a5 a6 a7));
  (lit "used_memory_rss", CUInt used_memory_rss_ (λ v s, let '(mkMemory a0 a1 a2 a3 a4 a5 a6 a7) := s in
    mkMemory a0 a1 v a3 a4 a5 a6 a7));
  (lit "used_memory_peak", CUInt used_memory_peak_ (λ v s, let '(mkMemory a0 a1 a2 a3 a4 a5 a6 a7) := s in
    mkMemory a0 a1 a2 v a4 a5 a6 a7));
  (lit "used_memory_peak_human", CString used_memory_peak_human_ (λ v s, let '(mkMemory a0 a1 a2 a3 a4 a5 a6
    a7) := s in mkMemory a0 a1 a2 a3 v a5 a6 a7));
  (lit "used_memory_lua", CUInt used_memory_lua_ (λ v s, let '(mkMemory a0 a1 a2 a3 a4 a5 a6 a7) := s in
    mkMemory a0 a1 a2 a3 a4 v a6 a7));
  (lit "mem_fragmentation_ratio", CFloat mem_fragmentation_ratio_ (λ v s, let '(mkMemory a0 a1 a2 a3 a4 a5
    a6 a7) := s in mkMemory a0 a1 a2 a3 a4 a5 v a7));
  (lit "mem_allocator", CString mem_allocator_ (λ v s, let '(mkMemory a0 a1 a2 a3 a4 a5 a6 a7) := s in
    mkMemory a0 a1 a2 a3 a4 a5 a6 v))].

Definition Memory_values `{InfoLib} : list (cell Memory) := List.map snd Memory_fields.

Record Persistence := mkPersistence { loading_ : Z; rdb_changes_since_last_save_ : Z;
  rdb_bgsave_in_progress_ : Z; rdb_last_save_time_ : Z; rdb_last_bgsave_status_ : bytes;
  rdb_last_bgsave_time_sec_ : Z; rdb_current_bgsave_time_sec_ : Z; aof_enabled_ : Z;
  aof_rewrite_in_progress_ : Z; aof_rewrite_scheduled_ : Z; aof_last_rewrite_time_sec_ : Z;
  aof_current_rewrite_time_sec_ : Z; aof_last_bgrewrite_status_ : bytes; aof_last_write_status_ : bytes }.

Definition Persistence_default : Persistence := mkPersistence 0 0 0 0 [] 0 0 0 0 0 0 0 [] [].

Definition Persistence_fields `{InfoLib} : list (info_field Persistence) := [
  (lit "loading", CUInt loading_ (λ v s, let '(mkPersistence a0 a1 a2 a3 a4 a5 a6 a7 a8 a9 a10 a11 a12 a13)
    := s in mkPersistence v a1 a2 a3 a4 a5 a6 a7 a8 a9 a10 a11 a12 a13));
  (lit "rdb_changes_since_last_save", CUInt rdb_changes_since_last_save_ (λ v s, let '(mkPersistence a0 a1
    a2 a3 a4 a5 a6 a7 a8 a9 a10 a11 a12 a13) := s in mkPersistence a0 v a2 a3 a4 a5 a6 a7 a8 a9 a10 a11 a12
    a13));
  (lit "rdb_bgsave_in_progress", CUInt rdb_bgsave_in_progress_ (λ v s, let '(mkPersistence a0 a1 a2 a3 a4 a5
    a6 a7 a8 a9 a10 a11 a12 a13) := s in mkPersistence a0 a1 v a3 a4 a5 a6 a7 a8 a9 a10 a11 a12 a13));
  (lit "rdb_last_save_time", CUInt rdb_last_save_time_ (λ v s, let '(mkPersistence a0 a1 a2 a3 a4 a5 a6 a7
    a8 a9 a10 a11 a12 a13) := s in mkPersistence a0 a1 a2 v a4 a5 a6 a7 a8 a9 a10 a11 a12 a13));
  (lit "rdb_last_bgsave_status", CString rdb_last_bgsave_status_ (λ v s, let '(mkPersistence a0 a1 a2 a3 a4
    a5 a6 a7 a8 a9 a10 a11 a12 a13) := s in mkPersistence a0 a1 a2 a3 v a5 a6 a7 a8 a9 a10 a11 a12 a13));
  (lit "rdb_last_bgsave_time_sec", CInt rdb_last_bgsave_time_sec_ (λ v s, let '(mkPersistence a0 a1 a2 a3 a4
    a5 a6 a7 a8 a9 a10 a11 a12 a13) := s in mkPersistence a0 a1 a2 a3 a4 v a6 a7 a8 a9 a10 a11 a12 a13));
  (lit "rdb_current_bgsave_time_sec", CInt rdb_current_bgsave_time_sec_ (λ v s, let '(mkPersistence a0 a1 a2
    a3 a4 a5 a6 a7 a8 a9 a10 a11 a12 a13) := s in mkPersistence a0 a1 a2 a3 a4 a5 v a7 a8 a9 a10 a11 a12
    a13));
  (lit "aof_enabled", CUInt aof_enabled_ (λ v s, let '(mkPersistence a0 a1 a2 a3 a4 a5 a6 a7 a8 a9 a10 a11
    a12 a13) := s in mkPersistence a0 a1 a2 a3 a4 a5 a6 v a8 a9 a10 a11 a12 a13));
  (lit "aof_rewrite_in_progress", CUInt aof_rewrite_in_progress_ (λ v s, let '(mkPersistence a0 a1 a2 a3 a4
    a5 a6 a7 a8 a9 a10 a11 a12 a13) := s in mkPersistence a0 a1 a2 a3 a4 a5 a6 a7 v a9 a10 a11 a12 a13));
  (lit "aof_rewrite_scheduled", CUInt aof_rewrite_scheduled_ (λ v s, let '(mkPersistence a0 a1 a2 a3 a4 a5
    a6 a7 a8 a9 a10 a11 a12 a13) := s in mkPersistence a0 a1 a2 a3 a4 a5 a6 a7 a8 v a10 a11 a12 a13));
  (lit "aof_last_rewrite_time_sec", CInt aof_last_rewrite_time_sec_ (λ v s, let '(mkPersistence a0 a1 a2 a3
    a4 a5 a6 a7 a8 a9 a10 a11 a12 a13) := s in mkPersistence a0 a1 a2 a3 a4 a5 a6 a7 a8 a9 v a11 a12 a13));
  (lit "aof_current_rewrite_time_sec", CInt aof_current_rewrite_time_sec_ (λ v s, let '(mkPersistence a0 a1
    a2 a3 a4 a5 a6 a7 a8 a9 a10 a11 a12 a13) := s in mkPersistence a0 a1 a2 a3 a4 a5 a6 a7 a8 a9 a10 v a12
    a13));
  (lit "aof_last_bgrewrite_status", CString aof_last_bgrewrite_status_ (λ v s, let '(mkPersistence a0 a1 a2
    a3 a4 a5 a6 a7 a8 a9 a10 a11 a12 a13) := s in mkPersistence a0 a1 a2 a3 a4 a5 a6 a7 a8 a9 a10 a11 v
    a13));
  (lit "aof_last_write_status", CString aof_last_write_status_ (λ v s, let '(mkPersistence a0 a1 a2 a3 a4 a5
    a6 a7 a8 a9 a10 a11 a12 a13) := s in mkPersistence a0 a1 a2 a3 a4 a5 a6 a7 a8 a9 a10 a11 a12 v))].

Definition Persistence_values `{InfoLib} : list (cell Persistence) := List.map snd Persistence_fields.

Record Stats := mkStats { total_connections_received_ : Z; total_commands_processed_ : Z;
  instantaneous_ops_per_sec_ : Z; rejected_connections_ : Z; sync_full_ : Z; sync_partial_ok_ : Z;
  sync_partial_err_ : Z; expired_keys_ : Z; evicted_keys_ : Z; keyspace_hits_ : Z; keyspace_misses_ : Z;
  pubsub_channels_ : Z; pubsub_patterns_ : Z; latest_fork_usec_ : Z }.

Definition Stats_default : Stats := mkStats 0 0 0 0 0 0 0 0 0 0 0 0 0 0.

Definition Stats_fields `{InfoLib} : list (info_field Stats) := [
  (lit "total_connections_received", CUInt total_connections_received_ (λ v s, let '(mkStats a0 a1 a2 a3 a4
    a5 a6 a7 a8 a9 a10 a11 a12 a13) := s in mkStats v a1 a2 a3 a4 a5 a6 a7 a8 a9 a10 a11 a12 a13));
  (lit "total_commands_processed", CUInt total_commands_processed_ (λ v s, let '(mkStats a0 a1 a2 a3 a4 a5
    a6 a7 a8 a9 a10 a11 a12 a13) := s in mkStats a0 v a2 a3 a4 a5 a6 a7 a8 a9 a10 a11 a12 a13));
  (lit "instantaneous_ops_per_sec", CUInt instantaneous_ops_per_sec_ (λ v s, let '(mkStats a0 a1 a2 a3 a4 a5
    a6 a7 a8 a9 a10 a11 a12 a13) := s in mkStats a0 a1 v a3 a4 a5 a6 a7 a8 a9 a10 a11 a12 a13));
  (lit "rejected_connections", CUInt rejected_connections_ (λ v s, let '(mkStats a0 a1 a2 a3 a4 a5 a6 a7 a8
    a9 a10 a11 a12 a13) := s in mkStats a0 a1 a2 v a4 a5 a6 a7 a8 a9 a10 a11 a12 a13));
  (lit "sync_full", CUInt sync_full_ (λ v s, let '(mkStats a0 a1 a2 a3 a4 a5 a6 a7 a8 a9 a10 a11 a12 a13) :=
    s in mkStats a0 a1 a2 a3 v a5 a6 a7 a8 a9 a10 a11 a12 a13));
  (lit "sync_partial_ok", CUInt sync_partial_ok_ (λ v s, let '(mkStats a0 a1 a2 a3 a4 a5 a6 a7 a8 a9 a10 a11
    a12 a13) := s in mkStats a0 a1 a2 a3 a4 v a6 a7 a8 a9 a10 a11 a12 a13));
  (lit "sync_partial_err", CUInt sync_partial_err_ (λ v s, let '(mkStats a0 a1 a2 a3 a4 a5 a6 a7 a8 a9 a10
    a11 a12 a13) := s in mkStats a0 a1 a2 a3 a4 a5 v a7 a8 a9 a10 a11 a12 a13));
  (lit "expired_keys", CUInt expired_keys_ (λ v s, let '(mkStats a0 a1 a2 a3 a4 a5 a6 a7 a8 a9 a10 a11 a12
    a13) := s in mkStats a0 a1 a2 a3 a4 a5 a6 v a8 a9 a10 a11 a12 a13));
  (lit "evicted_keys", CUInt evicted_keys_ (λ v s, let '(mkStats a0 a1 a2 a3 a4 a5 a6 a7 a8 a9 a10 a11 a12
    a13) := s in mkStats a0 a1 a2 a3 a4 a5 a6 a7 v a9 a10 a11 a12 a13));
  (lit "keyspace_hits", CUInt keyspace_hits_ (λ v s, let '(mkStats a0 a1 a2 a3 a4 a5 a6 a7 a8 a9 a10 a11 a12
    a13) := s in mkStats a0 a1 a2 a3 a4 a5 a6 a7 a8 v a10 a11 a12 a13));
  (lit "keyspace_misses", CUInt keyspace_misses_ (λ v s, let '(mkStats a0 a1 a2 a3 a4 a5 a6 a7 a8 a9 a10 a11
    a12 a13) := s in mkStats a0 a1 a2 a3 a4 a5 a6 a7 a8 a9 v a11 a12 a13));
  (lit "pubsub_channels", CUInt pubsub_channels_ (λ v s, let '(mkStats a0 a1 a2 a3 a4 a5 a6 a7 a8 a9 a10 a11
    a12 a13) := s in mkStats a0 a1 a2 a3 a4 a5 a6 a7 a8 a9 a10 v a12 a13));
  (lit "pubsub_patterns", CUInt pubsub_patterns_ (λ v s, let '(mkStats a0 a1 a2 a3 a4 a5 a6 a7 a8 a9 a10 a11
    a12 a13) := s in mkStats a0 a1 a2 a3 a4 a5 a6 a7 a8 a9 a10 a11 v a13));
  (lit "latest_fork_usec", CUInt latest_fork_usec_ (λ v s, let '(mkStats a0 a1 a2 a3 a4 a5 a6 a7 a8 a9 a10
    a11 a12 a13) := s in mkStats a0 a1 a2 a3 a4 a5 a6 a7 a8 a9 a10 a11 a12 v))].

Definition Stats_values `{InfoLib} : list (cell Stats) := List.map snd Stats_fields.

Record Replication := mkReplication { role_ : bytes; connected_slaves_ : Z; master_repl_offset_ : Z;
  backlog_active_ : Z; backlog_size_ : Z; backlog_first_byte_offset_ : Z; backlog_histen_ : Z }.

Definition Replication_default : Replication := mkReplication [] 0 0 0 0 0 0.

Definition Replication_fields `{InfoLib} : list (info_field Replication) := [
  (lit "role", CString role_ (λ v s, let '(mkReplication a0 a1 a2 a3 a4 a5 a6) := s in mkReplication v a1 a2
    a3 a4 a5 a6));
  (lit "connected_slaves", CUInt connected_slaves_ (λ v s, let '(mkReplication a0 a1 a2 a3 a4 a5 a6) := s in
    mkReplication a0 v a2 a3 a4 a5 a6));
  (lit "master_repl_offset", CUInt master_repl_offset_ (λ v s, let '(mkReplication a0 a1 a2 a3 a4 a5 a6) :=
    s in mkReplication a0 a1 v a3 a4 a5 a6));
  (lit "repl_backlog_active", CUInt backlog_active_ (λ v s, let '(mkReplication a0 a1 a2 a3 a4 a5 a6) := s
    in mkReplication a0 a1 a2 v a4 a5 a6));
  (lit "repl_backlog_size", CUInt backlog_size_ (λ v s, let '(mkReplication a0 a1 a2 a3 a4 a5 a6) := s in
    mkReplication a0 a1 a2 a3 v a5 a6));
  (lit "repl_backlog_first_byte_offset", CUInt backlog_first_byte_offset_ (λ v s, let '(mkReplication a0 a1
    a2 a3 a4 a5 a6) := s in mkReplication a0 a1 a2 a3 a4 v a6));
  (lit "repl_backlog_histlen", CUInt backlog_histen_ (λ v s, let '(mkReplication a0 a1 a2 a3 a4 a5 a6) := s
    in mkReplication a0 a1 a2 a3 a4 a5 v))].

Definition Replication_values `{InfoLib} : list (cell Replication) := List.map snd Replication_fields.

Record Cpu `{InfoLib} := mkCpu { used_cpu_sys_ : float; used_cpu_user_ : float; used_cpu_sys_children_ :
  float; used_cpu_user_children_ : float }.

Arguments mkCpu {_} _ _ _ _.

Definition Cpu_default `{InfoLib} : Cpu := mkCpu float_zero float_zero float_zero float_zero.

Definition Cpu_fields `{InfoLib} : list (info_field Cpu) := [
  (lit "used_cpu_sys", CFloat used_cpu_sys_ (λ v s, let '(mkCpu a0 a1 a2 a3) := s in mkCpu v a1 a2 a3));
  (lit "used_cpu_user", CFloat used_cpu_user_ (λ v s, let '(mkCpu a0 a1 a2 a3) := s in mkCpu a0 v a2 a3));
  (lit "used_cpu_sys_children", CFloat used_cpu_sys_children_ (λ v s, let '(mkCpu a0 a1 a2 a3) := s in mkCpu
    a0 a1 v a3));
  (lit "used_cpu_user_children", CFloat used_cpu_user_children_ (λ v s, let '(mkCpu a0 a1 a2 a3) := s in
    mkCpu a0 a1 a2 v))].

Definition Cpu_values `{InfoLib} : list (cell Cpu) := List.map snd Cpu_fields.

Definition redisServerFields : list (bytes * value_type) := [(lit "redis_version", TYPE_STRING);
  (lit "redis_git_sha1", TYPE_STRING); (lit "redis_git_dirty", TYPE_STRING); (lit "redis_build_id",
  TYPE_STRING); (lit "redis_mode", TYPE_STRING); (lit "os", TYPE_STRING); (lit "arch_bits", TYPE_UINTEGER);
  (lit "multiplexing_api", TYPE_STRING); (lit "gcc_version", TYPE_STRING); (lit "process_id",
  TYPE_UINTEGER); (lit "run_id", TYPE_STRING); (lit "tcp_port", TYPE_UINTEGER); (lit "uptime_in_seconds",
  TYPE_UINTEGER); (lit "uptime_in_days", TYPE_UINTEGER); (lit "hz", TYPE_UINTEGER); (lit "lru_clock",
  TYPE_UINTEGER)].

Definition redisClientFields : list (bytes * value_type) := [(lit "connected_clients", TYPE_UINTEGER);
  (lit "client_longest_output_list", TYPE_UINTEGER); (lit "client_biggest_input_buf", TYPE_UINTEGER);
  (lit "blocked_clients", TYPE_UINTEGER)].

Definition redisMemoryFields : list (bytes * value_type) := [(lit "used_memory", TYPE_UINTEGER);
  (lit "used_memory_human", TYPE_STRING); (lit "used_memory_rss", TYPE_UINTEGER); (lit "used_memory_peak",
  TYPE_UINTEGER); (lit "used_memory_peak_human", TYPE_STRING); (lit "used_memory_lua", TYPE_UINTEGER);
  (lit "mem_fragmentation_ratio", TYPE_DOUBLE); (lit "mem_allocator", TYPE_STRING)].

Definition redisPersistenceFields : list (bytes * value_type) := [(lit "loading", TYPE_UINTEGER);
  (lit "rdb_changes_since_last_save", TYPE_UINTEGER); (lit "rdb_bgsave_in_progress", TYPE_UINTEGER);
  (lit "rdb_last_save_time", TYPE_UINTEGER); (lit "rdb_last_bgsave_status", TYPE_STRING);
  (lit "rdb_last_bgsave_time_sec", TYPE_INTEGER); (lit "rdb_current_bgsave_time_sec", TYPE_INTEGER);
  (lit "aof_enabled", TYPE_UINTEGER); (lit "aof_rewrite_in_progress", TYPE_UINTEGER);
  (lit "aof_rewrite_scheduled", TYPE_UINTEGER); (lit "aof_last_rewrite_time_sec", TYPE_INTEGER);
  (lit "aof_current_rewrite_time_sec", TYPE_INTEGER); (lit "aof_last_bgrewrite_status", TYPE_STRING);
  (lit "aof_last_write_status", TYPE_STRING)].

Definition redisStatsFields : list (bytes * value_type) := [(lit "total_connections_received",
  TYPE_UINTEGER); (lit "total_commands_processed", TYPE_UINTEGER); (lit "instantaneous_ops_per_sec",
  TYPE_UINTEGER); (lit "rejected_connections", TYPE_UINTEGER); (lit "sync_full", TYPE_UINTEGER);
  (lit "sync_partial_ok", TYPE_UINTEGER); (lit "sync_partial_err", TYPE_UINTEGER); (lit "expired_keys",
  TYPE_UINTEGER); (lit "evicted_keys", TYPE_UINTEGER); (lit "keyspace_hits", TYPE_UINTEGER);
  (lit "keyspace_misses", TYPE_UINTEGER); (lit "pubsub_channels", TYPE_UINTEGER); (lit "pubsub_patterns",
  TYPE_UINTEGER); (lit "latest_fork_usec", TYPE_UINTEGER)].

Definition redisReplicationFields : list (bytes * value_type) := [(lit "role", TYPE_STRING);
  (lit "connected_slaves", TYPE_UINTEGER); (lit "master_repl_offset", TYPE_UINTEGER);
  (lit "repl_backlog_active", TYPE_UINTEGER); (lit "repl_backlog_size", TYPE_UINTEGER);
  (lit "repl_backlog_first_byte_offset", TYPE_UINTEGER); (lit "repl_backlog_histlen", TYPE_UINTEGER)].

Definition redisCpuFields : list (bytes * value_type) := [(lit "used_cpu_sys", TYPE_UINTEGER);
  (lit "used_cpu_user", TYPE_UINTEGER); (lit "used_cpu_sys_children", TYPE_UINTEGER);
  (lit "used_cpu_user_children", TYPE_UINTEGER)].

Definition redisKeySpaceFields : list (bytes * value_type) := [].

Definition InfoFields : list (bytes * list (bytes * value_type)) := [(lit "# Server", redisServerFields);
  (lit "# Clients", redisClientFields); (lit "# Memory", redisMemoryFields); (lit "# Persistence",
  redisPersistenceFields); (lit "# Stats", redisStatsFields); (lit "# Replication", redisReplicationFields);
  (lit "# CPU", redisCpuFields); (lit "# Keyspace", redisKeySpaceFields)].

Definition SupportedTypes : list value_type := [ TYPE_BOOLEAN; TYPE_INTEGER; TYPE_UINTEGER; TYPE_DOUBLE;
  TYPE_STRING; TYPE_ARRAY; TYPE_SET; TYPE_ZSET; TYPE_HASH].

Record ServerInfo `{InfoLib} := mkServerInfo {
  server_ : Server;
  clients_ : Clients;
  memory_ : Memory;
  persistence_ : Persistence;
  stats_ : Stats;
  replication_ : Replication;
  cpu_ : Cpu
}.
Arguments mkServerInfo {_} _ _ _ _ _ _ _.

Section Operations.
Context `{InfoLib} `{CommonLib}.
Implicit Types info : ServerInfo.

Definition ServerInfo_default : ServerInfo :=
  mkServerInfo Server_default Clients_default Memory_default Persistence_default Stats_default
    Replication_default Cpu_default.

(** The keyspace has no fields to show. *)
Definition ValueByIndexes (property field : nat) info : option info_value :=
  match property with
  | 0 => ValueByIndex Server_values field (server_ info)
  | 1 => ValueByIndex Clients_values field (clients_ info)
  | 2 => ValueByIndex Memory_values field (memory_ info)
  | 3 => ValueByIndex Persistence_values field (persistence_ info)
  | 4 => ValueByIndex Stats_values field (stats_ info)
  | 5 => ValueByIndex Replication_values field (replication_ info)
  | 6 => ValueByIndex Cpu_values field (cpu_ info)
  | _ => None
  end%nat.

Definition ToString info : bytes :=
  lit "# Server" ++ crlf ++ print_section Server_fields (server_ info) ++
  lit "# Clients" ++ crlf ++ print_section Clients_fields (clients_ info) ++
  lit "# Memory" ++ crlf ++ print_section Memory_fields (memory_ info) ++
  lit "# Persistence" ++ crlf ++ print_section Persistence_fields (persistence_ info) ++
  lit "# Stats" ++ crlf ++ print_section Stats_fields (stats_ info) ++
  lit "# Replication" ++ crlf ++ print_section Replication_fields (replication_ info) ++
  lit "# CPU" ++ crlf ++ print_section Cpu_fields (cpu_ info) ++
  lit "# Keyspace" ++ crlf.

Definition Version info : Z := VersionNumberFromString (redis_version_ (server_ info)).

(** The switch over the section: the constructors begin with the values of the default ones. *)
Definition put (j : nat) (part : bytes) info : ServerInfo :=
  let '(mkServerInfo s c m p st r u) := info in
  match j with
  | 0 => mkServerInfo (read_section Server_fields part Server_default) c m p st r u
  | 1 => mkServerInfo s (read_section Clients_fields part Clients_default) m p st r u
  | 2 => mkServerInfo s c (read_section Memory_fields part Memory_default) p st r u
  | 3 => mkServerInfo s c m (read_section Persistence_fields part Persistence_default) st r u
  | 4 => mkServerInfo s c m p (read_section Stats_fields part Stats_default) r u
  | 5 => mkServerInfo s c m p st (read_section Replication_fields part Replication_default) u
  | 6 => mkServerInfo s c m p st r (read_section Cpu_fields part Cpu_default)
  | _ => info
  end%nat.

Definition MakeRedisServerInfo (content : bytes) : outcome (option ServerInfo) :=
  if bool_decide (content = []) then Val None
  else
    let labels := List.map fst InfoFields in
    info ← sections_loop (sections_fuel labels content) labels put content 0 0 [] (Some 0%nat) ServerInfo_default;
    Val (Some info).
End Operations.

End RedisInfo.
