(* ===== verification/StoreInfos.v ===== *)
(** The server information of Memcached, SSDB and the embedded stores: one structure, [Stats], and its
    text; and [core/db_traits], the tables of every database by its type. *)
From Stdlib Require Import Ascii String ZArith Lia.
From stdpp Require Import base list.
From S2P Require Import Prelude Common Texts Values Configs Hiredis SshInfo ConnectionTypes ServerInfo RedisInfo.
Local Open Scope Z_scope.

Module MemcachedInfo.
Record Stats := mkStats { pid : Z; uptime : Z; time_ : Z; version : bytes; pointer_size : Z; rusage_user :
  Z; rusage_system : Z; curr_items : Z; total_items : Z; bytes_ : Z; curr_connections : Z; total_connections
  : Z; connection_structures : Z; cmd_get : Z; cmd_set : Z; get_hits : Z; get_misses : Z; evictions : Z;
  bytes_read : Z; bytes_written : Z; limit_maxbytes : Z; threads : Z }.

Definition Stats_fields `{InfoLib} : list (info_field Stats) := [
  (lit "pid", CUInt pid (λ v s, let '(mkStats a0 a1 a2 a3 a4 a5 a6 a7 a8 a9 a10 a11 a12 a13 a14 a15 a16 a17
    a18 a19 a20 a21) := s in mkStats v a1 a2 a3 a4 a5 a6 a7 a8 a9 a10 a11 a12 a13 a14 a15 a16 a17 a18 a19
    a20 a21));
  (lit "uptime", CUInt uptime (λ v s, let '(mkStats a0 a1 a2 a3 a4 a5 a6 a7 a8 a9 a10 a11 a12 a13 a14 a15
    a16 a17 a18 a19 a20 a21) := s in mkStats a0 v a2 a3 a4 a5 a6 a7 a8 a9 a10 a11 a12 a13 a14 a15 a16 a17
    a18 a19 a20 a21));
  (lit "time", CUInt time_ (λ v s, let '(mkStats a0 a1 a2 a3 a4 a5 a6 a7 a8 a9 a10 a11 a12 a13 a14 a15 a16
    a17 a18 a19 a20 a21) := s in mkStats a0 a1 v a3 a4 a5 a6 a7 a8 a9 a10 a11 a12 a13 a14 a15 a16 a17 a18
    a19 a20 a21));
  (lit "version", CString version (λ v s, let '(mkStats a0 a1 a2 a3 a4 a5 a6 a7 a8 a9 a10 a11 a12 a13 a14
    a15 a16 a17 a18 a19 a20 a21) := s in mkStats a0 a1 a2 v a4 a5 a6 a7 a8 a9 a10 a11 a12 a13 a14 a15 a16
    a17 a18 a19 a20 a21));
  (lit "pointer_size", CUInt pointer_size (λ v s, let '(mkStats a0 a1 a2 a3 a4 a5 a6 a7 a8 a9 a10 a11 a12
    a13 a14 a15 a16 a17 a18 a19 a20 a21) := s in mkStats a0 a1 a2 a3 v a5 a6 a7 a8 a9 a10 a11 a12 a13 a14
    a15 a16 a17 a18 a19 a20 a21));
  (lit "rusage_user", CUInt rusage_user (λ v s, let '(mkStats a0 a1 a2 a3 a4 a5 a6 a7 a8 a9 a10 a11 a12 a13
    a14 a15 a16 a17 a18 a19 a20 a21) := s in mkStats a0 a1 a2 a3 a4 v a6 a7 a8 a9 a10 a11 a12 a13 a14 a15
    a16 a17 a18 a19 a20 a21));
  (lit "rusage_system", CUInt rusage_system (λ v s, let '(mkStats a0 a1 a2 a3 a4 a5 a6 a7 a8 a9 a10 a11 a12
    a13 a14 a15 a16 a17 a18 a19 a20 a21) := s in mkStats a0 a1 a2 a3 a4 a5 v a7 a8 a9 a10 a11 a12 a13 a14
    a15 a16 a17 a18 a19 a20 a21));
  (lit "curr_items", CUInt curr_items (λ v s, let '(mkStats a0 a1 a2 a3 a4 a5 a6 a7 a8 a9 a10 a11 a12 a13
    a14 a15 a16 a17 a18 a19 a20 a21) := s in mkStats a0 a1 a2 a3 a4 a5 a6 v a8 a9 a10 a11 a12 a13 a14 a15
    a16 a17 a18 a19 a20 a21));
  (lit "total_items", CUInt total_items (λ v s, let '(mkStats a0 a1 a2 a3 a4 a5 a6 a7 a8 a9 a10 a11 a12 a13
    a14 a15 a16 a17 a18 a19 a20 a21) := s in mkStats a0 a1 a2 a3 a4 a5 a6 a7 v a9 a10 a11 a12 a13 a14 a15
    a16 a17 a18 a19 a20 a21));
  (lit "bytes", CUInt bytes_ (λ v s, let '(mkStats a0 a1 a2 a3 a4 a5 a6 a7 a8 a9 a10 a11 a12 a13 a14 a15 a16
    a17 a18 a19 a20 a21) := s in mkStats a0 a1 a2 a3 a4 a5 a6 a7 a8 v a10 a11 a12 a13 a14 a15 a16 a17 a18
    a19 a20 a21));
  (lit "curr_connections", CUInt curr_connections (λ v s, let '(mkStats a0 a1 a2 a3 a4 a5 a6 a7 a8 a9 a10
    a11 a12 a13 a14 a15 a16 a17 a18 a19 a20 a21) := s in mkStats a0 a1 a2 a3 a4 a5 a6 a7 a8 a9 v a11 a12 a13
    a14 a15 a16 a17 a18 a19 a20 a21));
  (lit "total_connections", CUInt total_connections (λ v s, let '(mkStats a0 a1 a2 a3 a4 a5 a6 a7 a8 a9 a10
    a11 a12 a13 a14 a15 a16 a17 a18 a19 a20 a21) := s in mkStats a0 a1 a2 a3 a4 a5 a6 a7 a8 a9 a10 v a12 a13
    a14 a15 a16 a17 a18 a19 a20 a21));
  (lit "connection_structures", CUInt connection_structures (λ v s, let '(mkStats a0 a1 a2 a3 a4 a5 a6 a7 a8
    a9 a10 a11 a12 a13 a14 a15 a16 a17 a18 a19 a20 a21) := s in mkStats a0 a1 a2 a3 a4 a5 a6 a7 a8 a9 a10
    a11 v a13 a14 a15 a16 a17 a18 a19 a20 a21));
  (lit "cmd_get", CUInt cmd_get (λ v s, let '(mkStats a0 a1 a2 a3 a4 a5 a6 a7 a8 a9 a10 a11 a12 a13 a14 a15
    a16 a17 a18 a19 a20 a21) := s in mkStats a0 a1 a2 a3 a4 a5 a6 a7 a8 a9 a10 a11 a12 v a14 a15 a16 a17 a18
    a19 a20 a21));
  (lit "cmd_set", CUInt cmd_set (λ v s, let '(mkStats a0 a1 a2 a3 a4 a5 a6 a7 a8 a9 a10 a11 a12 a13 a14 a15
    a16 a17 a18 a19 a20 a21) := s in mkStats a0 a1 a2 a3 a4 a5 a6 a7 a8 a9 a10 a11 a12 a13 v a15 a16 a17 a18
    a19 a20 a21));
  (lit "get_hits", CUInt get_hits (λ v s, let '(mkStats a0 a1 a2 a3 a4 a5 a6 a7 a8 a9 a10 a11 a12 a13 a14
    a15 a16 a17 a18 a19 a20 a21) := s in mkStats a0 a1 a2 a3 a4 a5 a6 a7 a8 a9 a10 a11 a12 a13 a14 v a16 a17
    a18 a19 a20 a21));
  (lit "get_misses", CUInt get_misses (λ v s, let '(mkStats a0 a1 a2 a3 a4 a5 a6 a7 a8 a9 a10 a11 a12 a13
    a14 a15 a16 a17 a18 a19 a20 a21) := s in mkStats a0 a1 a2 a3 a4 a5 a6 a7 a8 a9 a10 a11 a12 a13 a14 a15 v
    a17 a18 a19 a20 a21));
  (lit "evictions", CUInt evictions (λ v s, let '(mkStats a0 a1 a2 a3 a4 a5 a6 a7 a8 a9 a10 a11 a12 a13 a14
    a15 a16 a17 a18 a19 a20 a21) := s in mkStats a0 a1 a2 a3 a4 a5 a6 a7 a8 a9 a10 a11 a12 a13 a14 a15 a16 v
    a18 a19 a20 a21));
  (lit "bytes_read", CUInt bytes_read (λ v s, let '(mkStats a0 a1 a2 a3 a4 a5 a6 a7 a8 a9 a10 a11 a12 a13
    a14 a15 a16 a17 a18 a19 a20 a21) := s in mkStats a0 a1 a2 a3 a4 a5 a6 a7 a8 a9 a10 a11 a12 a13 a14 a15
    a16 a17 v a19 a20 a21));
  (lit "bytes_written", CUInt bytes_written (λ v s, let '(mkStats a0 a1 a2 a3 a4 a5 a6 a7 a8 a9 a10 a11 a12
    a13 a14 a15 a16 a17 a18 a19 a20 a21) := s in mkStats a0 a1 a2 a3 a4 a5 a6 a7 a8 a9 a10 a11 a12 a13 a14
    a15 a16 a17 a18 v a20 a21));
  (lit "limit_maxbytes", CUInt limit_maxbytes (λ v s, let '(mkStats a0 a1 a2 a3 a4 a5 a6 a7 a8 a9 a10 a11
    a12 a13 a14 a15 a16 a17 a18 a19 a20 a21) := s in mkStats a0 a1 a2 a3 a4 a5 a6 a7 a8 a9 a10 a11 a12 a13
    a14 a15 a16 a17 a18 a19 v a21));
  (lit "threads", CUInt threads (λ v s, let '(mkStats a0 a1 a2 a3 a4 a5 a6 a7 a8 a9 a10 a11 a12 a13 a14 a15
    a16 a17 a18 a19 a20 a21) := s in mkStats a0 a1 a2 a3 a4 a5 a6 a7 a8 a9 a10 a11 a12 a13 a14 a15 a16 a17
    a18 a19 a20 v))].

Definition Stats_values `{InfoLib} : list (cell Stats) := List.map snd Stats_fields.

Definition memcachedCommonFields : list (bytes * value_type) := [(lit "pid", TYPE_UINTEGER); (lit "uptime",
  TYPE_UINTEGER); (lit "time", TYPE_UINTEGER); (lit "version", TYPE_STRING); (lit "pointer_size",
  TYPE_UINTEGER); (lit "rusage_user", TYPE_UINTEGER); (lit "rusage_system", TYPE_UINTEGER);
  (lit "curr_items", TYPE_UINTEGER); (lit "total_items", TYPE_UINTEGER); (lit "bytes", TYPE_UINTEGER);
  (lit "curr_connections", TYPE_UINTEGER); (lit "total_connections", TYPE_UINTEGER);
  (lit "connection_structures", TYPE_UINTEGER); (lit "cmd_get", TYPE_UINTEGER); (lit "cmd_set",
  TYPE_UINTEGER); (lit "get_hits", TYPE_UINTEGER); (lit "get_misses", TYPE_UINTEGER); (lit "evictions",
  TYPE_UINTEGER); (lit "bytes_read", TYPE_UINTEGER); (lit "bytes_written", TYPE_UINTEGER);
  (lit "limit_maxbytes", TYPE_UINTEGER); (lit "threads", TYPE_UINTEGER)].

Definition InfoFields : list (bytes * list (bytes * value_type)) := [(lit "# Common",
  memcachedCommonFields)].

Definition SupportedTypes : list value_type := [ TYPE_BOOLEAN; TYPE_INTEGER; TYPE_UINTEGER; TYPE_DOUBLE;
  TYPE_STRING].

Record ServerInfo := mkServerInfo { stats_ : Stats }.

Section Operations.
Context `{InfoLib} `{CommonLib}.

(** [Stats() {}] *)
Definition Stats_new (raw : Stats) : Stats := fresh Stats_values raw.

Definition Stats_of_text (raw : Stats) (text : bytes) : Stats :=
  read_section Stats_fields text (fresh Stats_values raw).

Definition ValueByIndexes (property field : nat) (info : ServerInfo) : option info_value :=
  match property with O => ValueByIndex Stats_values field (stats_ info) | _ => None end.

Definition ToString (info : ServerInfo) : bytes :=
  lit "# Common" ++ crlf ++ print_section Stats_fields (stats_ info).

Definition Version (info : ServerInfo) : Z := VersionNumberFromString (version (stats_ info)).

Definition put (raw : Stats) (j : nat) (part : bytes) (info : ServerInfo) : ServerInfo :=
  match j with O => mkServerInfo (Stats_of_text raw part) | _ => info end.

Definition MakeMemcachedServerInfo (raw : Stats) (content : bytes) : outcome (option ServerInfo) :=
  if bool_decide (content = []) then Val None
  else
    let labels := List.map fst InfoFields in
    info ← sections_loop (sections_fuel labels content) labels (put raw) content 0 0 [] (Some 0%nat)
             (mkServerInfo (Stats_new raw));
    Val (Some info).

End Operations.

End MemcachedInfo.

Module SsdbInfo.
Record Stats := mkStats { version : bytes; links : Z; total_calls : Z; dbsize : Z; binlogs : bytes }.

Definition Stats_fields `{InfoLib} : list (info_field Stats) := [
  (lit "version", CString version (λ v s, let '(mkStats a0 a1 a2 a3 a4) := s in mkStats v a1 a2 a3 a4));
  (lit "links", CUInt links (λ v s, let '(mkStats a0 a1 a2 a3 a4) := s in mkStats a0 v a2 a3 a4));
  (lit "total_calls", CUInt total_calls (λ v s, let '(mkStats a0 a1 a2 a3 a4) := s in mkStats a0 a1 v a3
    a4));
  (lit "dbsize", CUInt dbsize (λ v s, let '(mkStats a0 a1 a2 a3 a4) := s in mkStats a0 a1 a2 v a4));
  (lit "binlogs", CString binlogs (λ v s, let '(mkStats a0 a1 a2 a3 a4) := s in mkStats a0 a1 a2 a3 v))].

Definition Stats_values `{InfoLib} : list (cell Stats) := List.map snd Stats_fields.

Definition SsdbCommonFields : list (bytes * value_type) := [(lit "version", TYPE_STRING); (lit "links",
  TYPE_UINTEGER); (lit "total_calls", TYPE_UINTEGER); (lit "dbsize", TYPE_UINTEGER); (lit "binlogs",
  TYPE_STRING)].

Definition InfoFields : list (bytes * list (bytes * value_type)) := [(lit "# Common", SsdbCommonFields)].

Definition SupportedTypes : list value_type := [ TYPE_BOOLEAN; TYPE_INTEGER; TYPE_UINTEGER; TYPE_DOUBLE;
  TYPE_STRING; TYPE_ARRAY; TYPE_SET; TYPE_ZSET; TYPE_HASH].

Record ServerInfo := mkServerInfo { stats_ : Stats }.

Section Operations.
Context `{InfoLib} `{CommonLib}.

(** [Stats() {}] *)
Definition Stats_new (raw : Stats) : Stats := fresh Stats_values raw.

Definition Stats_of_text (raw : Stats) (text : bytes) : Stats :=
  read_section Stats_fields text (fresh Stats_values raw).

Definition ValueByIndexes (property field : nat) (info : ServerInfo) : option info_value :=
  match property with O => ValueByIndex Stats_values field (stats_ info) | _ => None end.

Definition ToString (info : ServerInfo) : bytes :=
  lit "# Common" ++ crlf ++ print_section Stats_fields (stats_ info).

Definition Version (info : ServerInfo) : Z := VersionNumberFromString (version (stats_ info)).

Definition MakeSsdbServerInfo (raw : Stats) (content : bytes) : option ServerInfo :=
  if bool_decide (content = []) then None
  else Some (mkServerInfo (
    match after_label (first_label InfoFields) [] content with
    | Some part => Stats_of_text raw part
    | None => Stats_new raw
    end)).

End Operations.

End SsdbInfo.

Module LeveldbInfo.
Record Stats := mkStats { compactions_level : Z; file_size_mb : Z; time_sec : Z; read_mb : Z; write_mb : Z }.

Definition Stats_default : Stats := mkStats 0 0 0 0 0.

Definition Stats_fields `{InfoLib} : list (info_field Stats) := [
  (lit "compactions_level", CUInt compactions_level (λ v s, let '(mkStats a0 a1 a2 a3 a4) := s in mkStats v
    a1 a2 a3 a4));
  (lit "file_size_mb", CUInt file_size_mb (λ v s, let '(mkStats a0 a1 a2 a3 a4) := s in mkStats a0 v a2 a3
    a4));
  (lit "time_sec", CUInt time_sec (λ v s, let '(mkStats a0 a1 a2 a3 a4) := s in mkStats a0 a1 v a3 a4));
  (lit "read_mb", CUInt read_mb (λ v s, let '(mkStats a0 a1 a2 a3 a4) := s in mkStats a0 a1 a2 v a4));
  (lit "write_mb", CUInt write_mb (λ v s, let '(mkStats a0 a1 a2 a3 a4) := s in mkStats a0 a1 a2 a3 v))].

Definition Stats_values `{InfoLib} : list (cell Stats) := List.map snd Stats_fields.

Definition LeveldbCommonFields : list (bytes * value_type) := [(lit "compactions_level", TYPE_UINTEGER);
  (lit "file_size_mb", TYPE_UINTEGER); (lit "time_sec", TYPE_UINTEGER); (lit "read_mb", TYPE_UINTEGER);
  (lit "write_mb", TYPE_UINTEGER)].

Definition InfoFields : list (bytes * list (bytes * value_type)) := [(lit "# Stats", LeveldbCommonFields)].

Definition SupportedTypes : list value_type := [ TYPE_BOOLEAN; TYPE_INTEGER; TYPE_UINTEGER; TYPE_DOUBLE;
  TYPE_STRING].

Record ServerInfo := mkServerInfo { stats_ : Stats }.

Section Operations.
Context `{InfoLib} `{CommonLib}.

Definition Stats_of_text (raw : Stats) (text : bytes) : Stats :=
  read_section Stats_fields text (fresh Stats_values raw).

Definition ValueByIndexes (property field : nat) (info : ServerInfo) : option info_value :=
  match property with O => ValueByIndex Stats_values field (stats_ info) | _ => None end.

Definition ToString (info : ServerInfo) : bytes :=
  lit "# Stats" ++ crlf ++ print_section Stats_fields (stats_ info).

Definition Version (info : ServerInfo) : Z := 0.

Definition MakeLeveldbServerInfo (raw : Stats) (content : bytes) : option ServerInfo :=
  if bool_decide (content = []) then None
  else Some (mkServerInfo (
    match after_label (first_label InfoFields) [] content with
    | Some part => Stats_of_text raw part
    | None => Stats_default
    end)).

End Operations.

End LeveldbInfo.

Module RocksdbInfo.
Record Stats := mkStats { compactions_level : Z; file_size_mb : Z; time_sec : Z; read_mb : Z; write_mb : Z }.

Definition Stats_default : Stats := mkStats 0 0 0 0 0.

Definition Stats_fields `{InfoLib} : list (info_field Stats) := [
  (lit "compactions_level", CUInt compactions_level (λ v s, let '(mkStats a0 a1 a2 a3 a4) := s in mkStats v
    a1 a2 a3 a4));
  (lit "file_size_mb", CUInt file_size_mb (λ v s, let '(mkStats a0 a1 a2 a3 a4) := s in mkStats a0 v a2 a3
    a4));
  (lit "time_sec", CUInt time_sec (λ v s, let '(mkStats a0 a1 a2 a3 a4) := s in mkStats a0 a1 v a3 a4));
  (lit "read_mb", CUInt read_mb (λ v s, let '(mkStats a0 a1 a2 a3 a4) := s in mkStats a0 a1 a2 v a4));
  (lit "write_mb", CUInt write_mb (λ v s, let '(mkStats a0 a1 a2 a3 a4) := s in mkStats a0 a1 a2 a3 v))].

Definition Stats_values `{InfoLib} : list (cell Stats) := List.map snd Stats_fields.

Definition rockCommonFields : list (bytes * value_type) := [(lit "compactions_level", TYPE_UINTEGER);
  (lit "file_size_mb", TYPE_UINTEGER); (lit "time_sec", TYPE_UINTEGER); (lit "read_mb", TYPE_UINTEGER);
  (lit "write_mb", TYPE_UINTEGER)].

Definition InfoFields : list (bytes * list (bytes * value_type)) := [(lit "# Stats", rockCommonFields)].

Definition SupportedTypes : list value_type := [ TYPE_BOOLEAN; TYPE_INTEGER; TYPE_UINTEGER; TYPE_DOUBLE;
  TYPE_STRING].

Record ServerInfo := mkServerInfo { stats_ : Stats }.

Section Operations.
Context `{InfoLib} `{CommonLib}.

Definition Stats_of_text (raw : Stats) (text : bytes) : Stats :=
  read_section Stats_fields text (fresh Stats_values raw).

Definition ValueByIndexes (property field : nat) (info : ServerInfo) : option info_value :=
  match property with O => ValueByIndex Stats_values field (stats_ info) | _ => None end.

Definition ToString (info : ServerInfo) : bytes :=
  lit "# Stats" ++ crlf ++ print_section Stats_fields (stats_ info).

Definition Version (info : ServerInfo) : Z := 0.

Definition MakeRocksdbServerInfo (raw : Stats) (content : bytes) : option ServerInfo :=
  if bool_decide (content = []) then None
  else Some (mkServerInfo (
    match after_label (first_label InfoFields) [] content with
    | Some part => Stats_of_text raw part
    | None => Stats_default
    end)).

End Operations.

End RocksdbInfo.

Module UnqliteInfo.
Record Stats := mkStats { file_name : bytes }.

Definition Stats_default : Stats := mkStats [].

Definition Stats_fields `{InfoLib} : list (info_field Stats) := [
  (lit "file_name", CString file_name (λ v s, let '(mkStats a0) := s in mkStats v))].

Definition Stats_values `{InfoLib} : list (cell Stats) := List.map snd Stats_fields.

Definition unqliteCommonFields : list (bytes * value_type) := [(lit "file_name", TYPE_STRING)].

Definition InfoFields : list (bytes * list (bytes * value_type)) := [(lit "# Stats", unqliteCommonFields)].

Definition SupportedTypes : list value_type := [ TYPE_BOOLEAN; TYPE_INTEGER; TYPE_UINTEGER; TYPE_DOUBLE;
  TYPE_STRING].

Record ServerInfo := mkServerInfo { stats_ : Stats }.

Section Operations.
Context `{InfoLib} `{CommonLib}.

Definition Stats_of_text (raw : Stats) (text : bytes) : Stats :=
  read_section Stats_fields text (fresh Stats_values raw).

Definition ValueByIndexes (property field : nat) (info : ServerInfo) : option info_value :=
  match property with O => ValueByIndex Stats_values field (stats_ info) | _ => None end.

Definition ToString (info : ServerInfo) : bytes :=
  lit "# Stats" ++ crlf ++ print_section Stats_fields (stats_ info).

Definition Version (info : ServerInfo) : Z := 0.

Definition MakeUnqliteServerInfo (raw : Stats) (content : bytes) : option ServerInfo :=
  if bool_decide (content = []) then None
  else Some (mkServerInfo (
    match after_label (first_label InfoFields) [] content with
    | Some part => Stats_of_text raw part
    | None => Stats_default
    end)).

End Operations.

End UnqliteInfo.

Module LmdbInfo.
Record Stats := mkStats { db_path : bytes }.

Definition Stats_default : Stats := mkStats [].

Definition Stats_fields `{InfoLib} : list (info_field Stats) := [
  (lit "db_path", CString db_path (λ v s, let '(mkStats a0) := s in mkStats v))].

Definition Stats_values `{InfoLib} : list (cell Stats) := List.map snd Stats_fields.

Definition lmdbCommonFields : list (bytes * value_type) := [(lit "db_path", TYPE_STRING)].

Definition InfoFields : list (bytes * list (bytes * value_type)) := [(lit "# Stats", lmdbCommonFields)].

Definition SupportedTypes : list value_type := [ TYPE_BOOLEAN; TYPE_INTEGER; TYPE_UINTEGER; TYPE_DOUBLE;
  TYPE_STRING].

Record ServerInfo := mkServerInfo { stats_ : Stats }.

Section Operations.
Context `{InfoLib} `{CommonLib}.

Definition Stats_of_text (raw : Stats) (text : bytes) : Stats :=
  read_section Stats_fields text (fresh Stats_values raw).

Definition ValueByIndexes (property field : nat) (info : ServerInfo) : option info_value :=
  match property with O => ValueByIndex Stats_values field (stats_ info) | _ => None end.

Definition ToString (info : ServerInfo) : bytes :=
  lit "# Stats" ++ crlf ++ print_section Stats_fields (stats_ info).

Definition Version (info : ServerInfo) : Z := 0.

Definition MakeLmdbServerInfo (raw : Stats) (content : bytes) : option ServerInfo :=
  if bool_decide (content = []) then None
  else Some (mkServerInfo (
    match after_label (first_label InfoFields) [] content with
    | Some part => Stats_of_text raw part
    | None => Stats_default
    end)).

End Operations.

End LmdbInfo.

Module UpscaledbInfo.
Record Stats := mkStats { db_path : bytes }.

Definition Stats_default : Stats := mkStats [].

Definition Stats_fields `{InfoLib} : list (info_field Stats) := [
  (lit "db_path", CString db_path (λ v s, let '(mkStats a0) := s in mkStats v))].

Definition Stats_values `{InfoLib} : list (cell Stats) := List.map snd Stats_fields.

Definition lmdbCommonFields : list (bytes * value_type) := [(lit "db_path", TYPE_STRING)].

Definition InfoFields : list (bytes * list (bytes * value_type)) := [(lit "# Stats", lmdbCommonFields)].

Definition SupportedTypes : list value_type := [ TYPE_BOOLEAN; TYPE_INTEGER; TYPE_UINTEGER; TYPE_DOUBLE;
  TYPE_STRING].

Record ServerInfo := mkServerInfo { stats_ : Stats }.

Section Operations.
Context `{InfoLib} `{CommonLib}.

Definition Stats_of_text (raw : Stats) (text : bytes) : Stats :=
  read_section Stats_fields text (fresh Stats_values raw).

Definition ValueByIndexes (property field : nat) (info : ServerInfo) : option info_value :=
  match property with O => ValueByIndex Stats_values field (stats_ info) | _ => None end.

Definition ToString (info : ServerInfo) : bytes :=
  lit "# Stats" ++ crlf ++ print_section Stats_fields (stats_ info).

Definition Version (info : ServerInfo) : Z := 0.

Definition MakeUpscaleDBServerInfo (raw : Stats) (content : bytes) : option ServerInfo :=
  if bool_decide (content = []) then None
  else Some (mkServerInfo (
    match after_label (first_label InfoFields) [] content with
    | Some part => Stats_of_text raw part
    | None => Stats_default
    end)).

End Operations.

End UpscaledbInfo.

(** * [core/db_traits] *)

Definition SupportedTypesFromType (type : connectionTypes) : list value_type :=
  match type with
  | REDIS => RedisInfo.SupportedTypes
  | MEMCACHED => MemcachedInfo.SupportedTypes
  | SSDB => SsdbInfo.SupportedTypes
  | LEVELDB => LeveldbInfo.SupportedTypes
  | ROCKSDB => RocksdbInfo.SupportedTypes
  | UNQLITE => UnqliteInfo.SupportedTypes
  | LMDB => LmdbInfo.SupportedTypes
  | UPSCALEDB => UpscaledbInfo.SupportedTypes
  end.

Definition InfoFieldsFromType (type : connectionTypes) : list (bytes * list (bytes * value_type)) :=
  match type with
  | REDIS => RedisInfo.InfoFields
  | MEMCACHED => MemcachedInfo.InfoFields
  | SSDB => SsdbInfo.InfoFields
  | LEVELDB => LeveldbInfo.InfoFields
  | ROCKSDB => RocksdbInfo.InfoFields
  | UNQLITE => UnqliteInfo.InfoFields
  | LMDB => LmdbInfo.InfoFields
  | UPSCALEDB => UpscaledbInfo.InfoFields
  end.
