(* ===== verification/InfoProps.v ===== *)
(** What holds of the server information: its text is read back as it was, except for what the code
    forgets, and the tables of fields agree with the values shown. *)
From Stdlib Require Import Ascii String ZArith Lia.
From stdpp Require Import base list.
From S2P Require Import Prelude Common Texts Values Configs Hiredis SshInfo ConnectionTypes ServerInfo RedisInfo StoreInfos.
Local Open Scope Z_scope.

(** Every member survives its text. *)
Definition fits `{InfoLib} {S} (fields : list (info_field S)) (s : S) : Prop :=
  Forall (λ f, cell_fits s f.2) fields.

Definition labels_okb {S} (fields : list (bytes * S)) : bool :=
  bool_decide (NoDup (List.map fst fields)) &&
  forallb (λ l, (negb (bool_decide (l = [])) && forallb label_char l)) (List.map fst fields).

Lemma labels_okb_spec `{InfoLib} {S} (fields : list (info_field S)) : labels_okb fields = true → labels_ok fields.
Proof. intros [Hd Hl]%andb_true_iff. split; [|done]. apply bool_decide_eq_true in Hd. by apply NoDup_ListNoDup. Qed.

#[global] Hint Extern 1 (labels_ok _) => apply labels_okb_spec; vm_compute; reflexivity : core.

Section Redis.
Import RedisInfo.
Context `{InfoLib} `{CommonLaws}.

Record redis_fits (i : ServerInfo) : Prop := {
  fits_server : fits Server_fields (server_ i);
  fits_clients : fits Clients_fields (clients_ i);
  fits_memory : fits Memory_fields (memory_ i);
  fits_persistence : fits Persistence_fields (persistence_ i);
  fits_stats : fits Stats_fields (stats_ i);
  fits_replication : fits Replication_fields (replication_ i);
  fits_cpu : fits Cpu_fields (cpu_ i)
}.

Definition section_of {S} (label : string) (fields : list (info_field S)) (s : S) : bytes * bytes :=
  (lit label, crlf ++ print_section fields s).

Definition sections (i : ServerInfo) : list (bytes * bytes) := [
  section_of " Server" Server_fields (server_ i); section_of " Clients" Clients_fields (clients_ i);
  section_of " Memory" Memory_fields (memory_ i); section_of " Persistence" Persistence_fields (persistence_ i);
  section_of " Stats" Stats_fields (stats_ i); section_of " Replication" Replication_fields (replication_ i);
  section_of " CPU" Cpu_fields (cpu_ i)].

Lemma ToString_sections i :
  ToString i = List.concat (List.map section_text (sections i)) ++ ("#"%char :: lit " Keyspace") ++ crlf.
Proof.
  unfold ToString, sections, section_of, section_text. cbn [List.map List.concat fst snd].
  rewrite app_nil_r, <- !app_assoc. reflexivity.
Qed.

Lemma section_no_hash {S} label (fields : list (info_field S)) s :
  labels_ok fields → fits fields s → forallb (λ c, negb (Ascii.eqb c "#")) (lit label) = true →
  ("#"%char ∉ (section_of label fields s).1) ∧ ("#"%char ∉ (section_of label fields s).2).
Proof.
  intros Hok Hf Hl. cbn [section_of fst snd]. split.
  - eapply not_char; [exact Hl|done].
  - intros [Hin|Hin]%elem_of_app; [by repeat (apply elem_of_cons in Hin as [?|Hin]; [done|]); apply elem_of_nil in Hin|].
    by apply (print_section_line fields s) in Hin.
Qed.

(** [redis_build_id_] is not printed. *)
Definition forget_build (i : ServerInfo) : ServerInfo :=
  let '(mkServerInfo s c m p st r u) := i in
  let '(mkServer a0 a1 a2 a3 a4 a5 a6 a7 a8 a9 a10 a11 a12 a13 a14 a15) := s in
  mkServerInfo (mkServer a0 a1 a2 [] a4 a5 a6 a7 a8 a9 a10 a11 a12 a13 a14 a15) c m p st r u.

Lemma put_sections i : redis_fits i →
  put_all put 0 (List.map snd (sections i)) ServerInfo_default = forget_build i.
Proof.
  intros [Hs Hc Hm Hp Hst Hr Hu]. destruct i as [s c m p st r u].
  cbn [server_ clients_ memory_ persistence_ stats_ replication_ cpu_] in *.
  cbn [List.map sections section_of snd put_all put ServerInfo_default Nat.add
       server_ clients_ memory_ persistence_ stats_ replication_ cpu_].
  rewrite !read_print by auto.
  destruct s, c, m, p, st, r, u. reflexivity.
Qed.

Lemma redis_roundtrip_info i : redis_fits i → MakeRedisServerInfo (ToString i) = Val (Some (forget_build i)).
Proof.
  intros Hf. unfold MakeRedisServerInfo. rewrite bool_decide_eq_false_2 by done.
  rewrite ToString_sections.
  pose proof (walk_all put (lit " Keyspace") (sections i) [] [] crlf
    (sections_fuel (List.map fst InfoFields) (ToString i)) ServerInfo_default) as Hw.
  cbv zeta in Hw. rewrite ToString_sections in Hw. cbn [app length] in Hw.
  change (List.map (cons "#"%char) (List.map fst (sections i) ++ [lit " Keyspace"])) with (List.map fst InfoFields) in Hw.
  cbn [app]. rewrite Hw; [|vm_compute; reflexivity| |unfold sections_fuel; nia].
  - by rewrite put_sections.
  - destruct Hf. repeat constructor; apply section_no_hash; auto.
Qed.
End Redis.

(** ** The stores with one structure *)

Section Stores.
Context `{InfoLib} `{CommonLaws}.

Lemma content_not_empty label t : label ≠ [] → bool_decide (label ++ t = @nil ascii) = false.
Proof. intros Hne. apply bool_decide_eq_false_2. by intros [? _]%app_eq_nil. Qed.

(** A text that begins with the label, as [Make*ServerInfo] of these stores takes it. *)
Lemma labelled_part {S} (fields : list (info_field S)) cells s raw label (otherwise : S) :
  label ≠ [] → labels_ok fields → fits fields s → copy_fields fields s (fresh cells raw) = s →
  match after_label label [] (label ++ crlf ++ print_section fields s) with
  | Some part => read_section fields part (fresh cells raw)
  | None => otherwise
  end = s.
Proof.
  intros Hne Hok Hf Hc. pose proof (read_labelled fields s (fresh cells raw) label Hne Hok Hf) as Hr.
  destruct (after_label _ _ _); simpl in Hr; [|done]. injection Hr as ->. exact Hc.
Qed.

Lemma leveldb_info_back raw i : fits LeveldbInfo.Stats_fields (LeveldbInfo.stats_ i) →
  LeveldbInfo.MakeLeveldbServerInfo raw (LeveldbInfo.ToString i) = Some i.
Proof.
  intros Hf. unfold LeveldbInfo.MakeLeveldbServerInfo, LeveldbInfo.ToString. rewrite content_not_empty by done.
  destruct i as [[]], raw. do 2 f_equal. by apply labelled_part; auto.
Qed.

Lemma rocksdb_info_back raw i : fits RocksdbInfo.Stats_fields (RocksdbInfo.stats_ i) →
  RocksdbInfo.MakeRocksdbServerInfo raw (RocksdbInfo.ToString i) = Some i.
Proof.
  intros Hf. unfold RocksdbInfo.MakeRocksdbServerInfo, RocksdbInfo.ToString. rewrite content_not_empty by done.
  destruct i as [[]], raw. do 2 f_equal. by apply labelled_part; auto.
Qed.

Lemma unqlite_info_back raw i : fits UnqliteInfo.Stats_fields (UnqliteInfo.stats_ i) →
  UnqliteInfo.MakeUnqliteServerInfo raw (UnqliteInfo.ToString i) = Some i.
Proof.
  intros Hf. unfold UnqliteInfo.MakeUnqliteServerInfo, UnqliteInfo.ToString. rewrite content_not_empty by done.
  destruct i as [[]], raw. do 2 f_equal. by apply labelled_part; auto.
Qed.

Lemma lmdb_info_back raw i : fits LmdbInfo.Stats_fields (LmdbInfo.stats_ i) →
  LmdbInfo.MakeLmdbServerInfo raw (LmdbInfo.ToString i) = Some i.
Proof.
  intros Hf. unfold LmdbInfo.MakeLmdbServerInfo, LmdbInfo.ToString. rewrite content_not_empty by done.
  destruct i as [[]], raw. do 2 f_equal. by apply labelled_part; auto.
Qed.

Lemma upscaledb_info_back raw i : fits UpscaledbInfo.Stats_fields (UpscaledbInfo.stats_ i) →
  UpscaledbInfo.MakeUpscaleDBServerInfo raw (UpscaledbInfo.ToString i) = Some i.
Proof.
  intros Hf. unfold UpscaledbInfo.MakeUpscaleDBServerInfo, UpscaledbInfo.ToString. rewrite content_not_empty by done.
  destruct i as [[]], raw. do 2 f_equal. by apply labelled_part; auto.
Qed.

Lemma ssdb_info_back raw i : fits SsdbInfo.Stats_fields (SsdbInfo.stats_ i) →
  SsdbInfo.MakeSsdbServerInfo raw (SsdbInfo.ToString i) = Some i.
Proof.
  intros Hf. unfold SsdbInfo.MakeSsdbServerInfo, SsdbInfo.ToString. rewrite content_not_empty by done.
  destruct i as [[]], raw. do 2 f_equal. by apply labelled_part; auto.
Qed.

(** Memcached: with one label the loop stops before it stores anything. *)
Lemma memcached_info_unread raw content : content ≠ [] →
  MemcachedInfo.MakeMemcachedServerInfo raw content
  = Val (Some (MemcachedInfo.mkServerInfo (MemcachedInfo.Stats_new raw))).
Proof.
  intros Hne. unfold MemcachedInfo.MakeMemcachedServerInfo. rewrite bool_decide_eq_false_2 by done.
  assert (Hgo : ∀ fuel i word r v,
            sections_loop fuel [lit "# Common"] (MemcachedInfo.put raw) content i 0 word (Some 0%nat) r = Val v → v = r).
  { induction fuel as [|fuel IH]; intros i word r v; cbn [sections_loop]; destruct (content !! i); try congruence.
    cbn [from_option_fault lookup list_lookup Nat.add mbind outcome_bind].
    case_bool_decide; [congruence|]. apply IH. }
  destruct (sections_return [lit "# Common"] (MemcachedInfo.put raw) content
              (MemcachedInfo.mkServerInfo (MemcachedInfo.Stats_new raw))) as [v Hv]; [done|].
  change (List.map fst MemcachedInfo.InfoFields) with [lit "# Common"]. rewrite Hv.
  apply Hgo in Hv as ->. done.
Qed.
End Stores.

(** * Tables *)

Definition value_kind `{InfoLib} (v : info_value) : value_type :=
  match v with IString _ => TYPE_STRING | IUInt _ => TYPE_UINTEGER | IInt _ => TYPE_INTEGER | IFloat _ => TYPE_DOUBLE end.

Definition kinds_of `{InfoLib} {S} (cells : list (cell S)) (s : S) : list value_type :=
  List.map (λ c, value_kind (cell_value c s)) cells.

Lemma ValueByIndex_kind `{InfoLib} {S} (cells : list (cell S)) (s : S) field :
  option_map value_kind (ValueByIndex cells field s) = kinds_of cells s !! field.
Proof.
  unfold ValueByIndex, kinds_of. change (List.map ?f ?l) with (f <$> l).
  rewrite list_lookup_fmap. by destruct (cells !! field).
Qed.

Section Tables.
Context `{InfoLib}.

Lemma redis_table_kinds (i : RedisInfo.ServerInfo) property field label table :
  RedisInfo.InfoFields !! property = Some (label, table) →
  option_map value_kind (RedisInfo.ValueByIndexes property field i)
  = option_map (λ e, if bool_decide (property = 6%nat) then TYPE_DOUBLE else e.2) (table !! field).
Proof.
  intros Ht. do 8 (destruct property as [|property]; [injection Ht as _ <-;
    cbn [RedisInfo.ValueByIndexes]; rewrite ?ValueByIndex_kind; by do 17 (destruct field as [|field]; [done|])|]).
  by destruct property.
Qed.

Lemma memcached_table_kinds i field :
  option_map value_kind (MemcachedInfo.ValueByIndexes 0 field i)
  = option_map snd (MemcachedInfo.memcachedCommonFields !! field).
Proof. cbn [MemcachedInfo.ValueByIndexes]. rewrite ValueByIndex_kind. by do 23 (destruct field as [|field]; [done|]). Qed.

Lemma ssdb_table_kinds i field :
  option_map value_kind (SsdbInfo.ValueByIndexes 0 field i) = option_map snd (SsdbInfo.SsdbCommonFields !! field).
Proof. cbn [SsdbInfo.ValueByIndexes]. rewrite ValueByIndex_kind. by do 6 (destruct field as [|field]; [done|]). Qed.

Lemma leveldb_table_kinds i field :
  option_map value_kind (LeveldbInfo.ValueByIndexes 0 field i)
  = option_map snd (LeveldbInfo.LeveldbCommonFields !! field).
Proof. cbn [LeveldbInfo.ValueByIndexes]. rewrite ValueByIndex_kind. by do 6 (destruct field as [|field]; [done|]). Qed.

Lemma rocksdb_table_kinds i field :
  option_map value_kind (RocksdbInfo.ValueByIndexes 0 field i)
  = option_map snd (RocksdbInfo.rockCommonFields !! field).
Proof. cbn [RocksdbInfo.ValueByIndexes]. rewrite ValueByIndex_kind. by do 6 (destruct field as [|field]; [done|]). Qed.
End Tables.

(** [float] as its text, a version by the number before its first point. *)
Definition info_ref : InfoLib := {|
  float := bytes;
  float_zero := lit "0";
  FromString_float t := t;
  ToString_float t := t;
  VersionNumberFromString t := @FromString_int common_ref (List.hd [] (split_on "." t []))
|}.

(** * Properties *)

(** A text as INFO gives it. *)
Definition sample_text : bytes := List.concat (List.map (λ l, lit l ++ crlf) [
  "# Server"; "redis_version:3.2.1"; "os:Linux"; "arch_bits:64"; "# Clients"; "connected_clients:2"; "# Memory";
  "used_memory:1024"; "mem_fragmentation_ratio:1.5"; "# Persistence"; "rdb_last_bgsave_time_sec:-1"; "# Stats";
  "expired_keys:7"; "# Replication"; "role:master"; "# CPU"; "used_cpu_sys:0.25"; "# Keyspace";
  "db0:keys=1"]%string).

Definition sample_info : @RedisInfo.ServerInfo info_ref :=
  @RedisInfo.mkServerInfo info_ref
    (RedisInfo.mkServer (lit "3.2.1") [] [] (lit "5f7") [] (lit "Linux") 64 [] [] 0 [] 0 0 0 0 0)
    (RedisInfo.mkClients 2 0 0 0)
    (@RedisInfo.mkMemory info_ref 1024 [] 0 0 [] 0 (lit "1.5") [])
    (RedisInfo.mkPersistence 0 0 0 0 [] (-1) 0 0 0 0 0 0 [] [])
    (RedisInfo.mkStats 0 0 0 0 0 0 0 7 0 0 0 0 0 0)
    (RedisInfo.mkReplication (lit "master") 0 0 0 0 0 0)
    (@RedisInfo.mkCpu info_ref (lit "0.25") (lit "0") (lit "0") (lit "0")).

Example sample_read :
  @RedisInfo.MakeRedisServerInfo info_ref common_ref sample_text = Val (Some (forget_build sample_info)).
Proof. vm_compute. reflexivity. Qed.

#[global] Instance fits_dec {S} (fields : list (bytes * @cell info_ref S)) (s : S) :
  Decision (@fits info_ref S fields s).
Proof.
  apply Forall_dec. intros [l c]. destruct c; cbn [cell_fits snd]; try apply _.
Defined.

Ltac solve_fits := refine (bool_decide_unpack _ _); vm_compute; exact I.

(** C39. The text that the Redis server information prints is read back section by section, every member
    with its value; only the build id, which is neither printed nor read, is lost. *)
Theorem redis_info_roundtrip `{InfoLib} `{CommonLaws} (i : RedisInfo.ServerInfo) (Hf : redis_fits i) :
  RedisInfo.MakeRedisServerInfo (RedisInfo.ToString i) = Val (Some (forget_build i)).
Proof. by apply redis_roundtrip_info. Qed.

Lemma redis_info_roundtrip_witness :
  @redis_fits info_ref sample_info ∧
  @RedisInfo.MakeRedisServerInfo info_ref common_ref (@RedisInfo.ToString info_ref sample_info)
  = Val (Some (forget_build sample_info)).
Proof.
  assert (Hf : @redis_fits info_ref sample_info) by (constructor; solve_fits).
  split; [exact Hf|]. exact (@redis_info_roundtrip info_ref common_ref common_ref_laws sample_info Hf).
Defined.

(** The server information of SSDB and of the embedded stores survives its text, whatever the memory
    held before; that of Memcached is never read: a text that is not empty leaves the statistics as an
    uninitialised structure has them. *)
Theorem store_info_roundtrip `{InfoLib} `{CommonLaws} (content : bytes) (Hne : content ≠ []) :
  (∀ raw i, fits SsdbInfo.Stats_fields (SsdbInfo.stats_ i) →
     SsdbInfo.MakeSsdbServerInfo raw (SsdbInfo.ToString i) = Some i) ∧
  (∀ raw i, fits LeveldbInfo.Stats_fields (LeveldbInfo.stats_ i) →
     LeveldbInfo.MakeLeveldbServerInfo raw (LeveldbInfo.ToString i) = Some i) ∧
  (∀ raw i, fits RocksdbInfo.Stats_fields (RocksdbInfo.stats_ i) →
     RocksdbInfo.MakeRocksdbServerInfo raw (RocksdbInfo.ToString i) = Some i) ∧
  (∀ raw i, fits UnqliteInfo.Stats_fields (UnqliteInfo.stats_ i) →
     UnqliteInfo.MakeUnqliteServerInfo raw (UnqliteInfo.ToString i) = Some i) ∧
  (∀ raw i, fits LmdbInfo.Stats_fields (LmdbInfo.stats_ i) →
     LmdbInfo.MakeLmdbServerInfo raw (LmdbInfo.ToString i) = Some i) ∧
  (∀ raw i, fits UpscaledbInfo.Stats_fields (UpscaledbInfo.stats_ i) →
     UpscaledbInfo.MakeUpscaleDBServerInfo raw (UpscaledbInfo.ToString i) = Some i) ∧
  (∀ raw, MemcachedInfo.MakeMemcachedServerInfo raw content
     = Val (Some (MemcachedInfo.mkServerInfo (MemcachedInfo.Stats_new raw)))).
Proof.
  split_and!; intros.
  - by apply ssdb_info_back.
  - by apply leveldb_info_back.
  - by apply rocksdb_info_back.
  - by apply unqlite_info_back.
  - by apply lmdb_info_back.
  - by apply upscaledb_info_back.
  - by apply memcached_info_unread.
Qed.

Lemma store_info_roundtrip_witness :
  let stats := SsdbInfo.mkStats (lit "1.9.2") 3 100 4096 (lit "capacity 10") in
  let raw := SsdbInfo.mkStats [] 77 77 77 [] in
  lit "# Common" ≠ [] ∧
  @SsdbInfo.MakeSsdbServerInfo info_ref common_ref raw (@SsdbInfo.ToString info_ref (SsdbInfo.mkServerInfo stats))
  = Some (SsdbInfo.mkServerInfo stats).
Proof.
  split; [done|].
  apply (@store_info_roundtrip info_ref common_ref common_ref_laws (lit "# Common")); [done|].
  solve_fits.
Defined.

(** The value that each place of the tables of fields shows has the type the table declares; the
    processor times of Redis are the exception, declared as unsigned integers and shown as doubles. *)
Theorem info_tables_typed `{InfoLib} property field label table
    (Ht : RedisInfo.InfoFields !! property = Some (label, table)) :
  (∀ i, option_map value_kind (RedisInfo.ValueByIndexes property field i)
        = option_map (λ e, if bool_decide (property = 6%nat) then TYPE_DOUBLE else e.2) (table !! field)) ∧
  (∀ i, option_map value_kind (MemcachedInfo.ValueByIndexes 0 field i)
        = option_map snd (MemcachedInfo.memcachedCommonFields !! field)) ∧
  (∀ i, option_map value_kind (SsdbInfo.ValueByIndexes 0 field i)
        = option_map snd (SsdbInfo.SsdbCommonFields !! field)) ∧
  (∀ i, option_map value_kind (LeveldbInfo.ValueByIndexes 0 field i)
        = option_map snd (LeveldbInfo.LeveldbCommonFields !! field)) ∧
  (∀ i, option_map value_kind (RocksdbInfo.ValueByIndexes 0 field i)
        = option_map snd (RocksdbInfo.rockCommonFields !! field)).
Proof.
  split_and!; intros.
  - by eapply redis_table_kinds.
  - apply memcached_table_kinds.
  - apply ssdb_table_kinds.
  - apply leveldb_table_kinds.
  - apply rocksdb_table_kinds.
Qed.

Lemma info_tables_typed_witness :
  RedisInfo.InfoFields !! 2%nat = Some (lit "# Memory", RedisInfo.redisMemoryFields) ∧
  option_map value_kind (@RedisInfo.ValueByIndexes info_ref 2 6 sample_info) = Some TYPE_DOUBLE.
Proof.
  split; [reflexivity|].
  exact (proj1 (@info_tables_typed info_ref 2%nat 6%nat (lit "# Memory") RedisInfo.redisMemoryFields eq_refl) sample_info).
Defined.
