(* ===== verification/ConnSettings.v ===== *)
(** Connection settings: [core/connection_settings], the [connection_settings] of the databases and the
    three factories.  What a saved connection is made of, its text and the way back. *)
From Stdlib Require Import Ascii String ZArith Lia.
From stdpp Require Import base list.
From S2P Require Import Prelude Common Texts Values Configs Sds Hiredis SshInfo ConnectionTypes.
Local Open Scope Z_scope.
#[local] Set Warnings "-register-all".

(** [common::file_system::ascii_string_path], the checksum and base64 of the common library, and the
    directory of the logs that the settings of the program name. *)
Class SettingsLib := {
  ascii_string_path : Type;
  path_empty : ascii_string_path;
  path_of : bytes → ascii_string_path;
  path_text : ascii_string_path → bytes;
  path_fileName : ascii_string_path → bytes;
  path_directory : ascii_string_path → bytes;
  path_equals : ascii_string_path → ascii_string_path → bool;
  get_separator_string : bytes;
  crc64 : Z → bytes → Z;
  encode64 : bytes → bytes;
  decode64 : bytes → bytes;
  LoggingDirectory : bytes
}.

Class SettingsLaws `{SettingsLib} : Prop := {
  path_of_text : ∀ p, path_of (path_text p) = p;
  decode_encode : ∀ s, decode64 (encode64 s) = s;
  encode64_alphabet : ∀ s c, c ∈ encode64 s → c ≠ ","%char ∧ 32 < byte_val c
}.

Definition magicNumber : ascii := "030"%char.

Section Path.
Context `{SettingsLib}.

Definition ConnectionSettingsPath : Type := ascii_string_path.
Definition Path_new : ConnectionSettingsPath := path_empty.
Definition Path_of (path : bytes) : ConnectionSettingsPath := path_of path.
Definition Path_Equals (p path : ConnectionSettingsPath) : bool := path_equals p path.
Definition Path_Name (p : ConnectionSettingsPath) : bytes := path_fileName p.
Definition Path_Directory (p : ConnectionSettingsPath) : bytes := path_directory p.
Definition Path_ToString (p : ConnectionSettingsPath) : bytes := path_text p.
Definition Path_Root : ConnectionSettingsPath := Path_of get_separator_string.
End Path.

(** * The settings of each database *)


Module RedisSettings.
Section Settings.
Context `{CommonLib} `{ConfigLib}.
Record ConnectionSettings := mk { info_ : RedisConfig.Config }.
Definition new : ConnectionSettings := mk RedisConfig.default.
Definition SetHost (host : HostAndPort) (s : ConnectionSettings) : ConnectionSettings :=
  mk (RedisConfig.with_host host (info_ s)).
Definition Host (s : ConnectionSettings) : HostAndPort := RedisConfig.host (info_ s).
Definition SetCommandLine (line : bytes) (s : ConnectionSettings) : outcome ConnectionSettings :=
  c ← RedisConfig.FromString line; Val (mk c).
Definition CommandLine (s : ConnectionSettings) : bytes := RedisConfig.ToString (info_ s).
Definition Info (s : ConnectionSettings) : RedisConfig.Config := info_ s.
Definition SetInfo (info : RedisConfig.Config) (s : ConnectionSettings) : ConnectionSettings := mk info.
Definition Clone (s : ConnectionSettings) : ConnectionSettings := mk (info_ s).
End Settings.
End RedisSettings.

Module MemcachedSettings.
Section Settings.
Context `{CommonLib} `{ConfigLib}.
Record ConnectionSettings := mk { info_ : RemoteConfig }.
Definition new : ConnectionSettings := mk MemcachedConfig.Config.
Definition SetHost (host : HostAndPort) (s : ConnectionSettings) : ConnectionSettings :=
  let '(mkRemote d ns _ u p) := info_ s in mk (mkRemote d ns host u p).
Definition Host (s : ConnectionSettings) : HostAndPort := rc_host (info_ s).
Definition SetCommandLine (line : bytes) (s : ConnectionSettings) : outcome ConnectionSettings :=
  c ← MemcachedConfig.FromString line; Val (mk c).
Definition CommandLine (s : ConnectionSettings) : bytes := MemcachedConfig.ToString (info_ s).
Definition Info (s : ConnectionSettings) : RemoteConfig := info_ s.
Definition SetInfo (info : RemoteConfig) (s : ConnectionSettings) : ConnectionSettings := mk info.
Definition Clone (s : ConnectionSettings) : ConnectionSettings := mk (info_ s).
End Settings.
End MemcachedSettings.

Module SsdbSettings.
Section Settings.
Context `{CommonLib} `{ConfigLib}.
Record ConnectionSettings := mk { info_ : RemoteConfig }.
Definition new : ConnectionSettings := mk SsdbConfig.Config.
Definition SetHost (host : HostAndPort) (s : ConnectionSettings) : ConnectionSettings :=
  let '(mkRemote d ns _ u p) := info_ s in mk (mkRemote d ns host u p).
Definition Host (s : ConnectionSettings) : HostAndPort := rc_host (info_ s).
Definition SetCommandLine (line : bytes) (s : ConnectionSettings) : outcome ConnectionSettings :=
  c ← SsdbConfig.FromString line; Val (mk c).
Definition CommandLine (s : ConnectionSettings) : bytes := SsdbConfig.ToString (info_ s).
Definition Info (s : ConnectionSettings) : RemoteConfig := info_ s.
Definition SetInfo (info : RemoteConfig) (s : ConnectionSettings) : ConnectionSettings := mk info.
Definition Clone (s : ConnectionSettings) : ConnectionSettings := mk (info_ s).
End Settings.
End SsdbSettings.

Module LeveldbSettings.
Section Settings.
Context `{CommonLib} `{ConfigLib}.
Record ConnectionSettings := mk { info_ : LocalConfig }.
Definition new : ConnectionSettings := mk LeveldbConfig.Config.
Definition DBpath (s : ConnectionSettings) : bytes := lc_dbname (info_ s).
Definition FullAddress (s : ConnectionSettings) : bytes := lc_dbname (info_ s).
Definition SetCommandLine (line : bytes) (s : ConnectionSettings) : outcome ConnectionSettings :=
  c ← LeveldbConfig.FromString line; Val (mk c).
Definition CommandLine (s : ConnectionSettings) : bytes := LeveldbConfig.ToString (info_ s).
Definition Info (s : ConnectionSettings) : LocalConfig := info_ s.
Definition SetInfo (info : LocalConfig) (s : ConnectionSettings) : ConnectionSettings := mk info.
Definition Clone (s : ConnectionSettings) : ConnectionSettings := mk (info_ s).
End Settings.
End LeveldbSettings.

Module RocksdbSettings.
Section Settings.
Context `{CommonLib} `{ConfigLib}.
Record ConnectionSettings := mk { info_ : LocalConfig }.
Definition new : ConnectionSettings := mk RocksdbConfig.Config.
Definition DBpath (s : ConnectionSettings) : bytes := lc_dbname (info_ s).
Definition FullAddress (s : ConnectionSettings) : bytes := lc_dbname (info_ s).
Definition SetCommandLine (line : bytes) (s : ConnectionSettings) : outcome ConnectionSettings :=
  c ← RocksdbConfig.FromString line; Val (mk c).
Definition CommandLine (s : ConnectionSettings) : bytes := RocksdbConfig.ToString (info_ s).
Definition Info (s : ConnectionSettings) : LocalConfig := info_ s.
Definition SetInfo (info : LocalConfig) (s : ConnectionSettings) : ConnectionSettings := mk info.
Definition Clone (s : ConnectionSettings) : ConnectionSettings := mk (info_ s).
End Settings.
End RocksdbSettings.

Module UnqliteSettings.
Section Settings.
Context `{CommonLib} `{ConfigLib}.
Record ConnectionSettings := mk { info_ : LocalConfig }.
Definition new : ConnectionSettings := mk UnqliteConfig.Config.
Definition DBpath (s : ConnectionSettings) : bytes := lc_dbname (info_ s).
Definition FullAddress (s : ConnectionSettings) : bytes := lc_dbname (info_ s).
Definition SetCommandLine (line : bytes) (s : ConnectionSettings) : outcome ConnectionSettings :=
  c ← UnqliteConfig.FromString line; Val (mk c).
Definition CommandLine (s : ConnectionSettings) : bytes := UnqliteConfig.ToString (info_ s).
Definition Info (s : ConnectionSettings) : LocalConfig := info_ s.
Definition SetInfo (info : LocalConfig) (s : ConnectionSettings) : ConnectionSettings := mk info.
Definition Clone (s : ConnectionSettings) : ConnectionSettings := mk (info_ s).
End Settings.
End UnqliteSettings.

Module LmdbSettings.
Section Settings.
Context `{CommonLib} `{ConfigLib}.
Record ConnectionSettings := mk { info_ : LocalConfig }.
Definition new : ConnectionSettings := mk LmdbConfig.Config.
Definition DBpath (s : ConnectionSettings) : bytes := lc_dbname (info_ s).
Definition FullAddress (s : ConnectionSettings) : bytes := lc_dbname (info_ s).
Definition SetCommandLine (line : bytes) (s : ConnectionSettings) : outcome ConnectionSettings :=
  c ← LmdbConfig.FromString line; Val (mk c).
Definition CommandLine (s : ConnectionSettings) : bytes := LmdbConfig.ToString (info_ s).
Definition Info (s : ConnectionSettings) : LocalConfig := info_ s.
Definition SetInfo (info : LocalConfig) (s : ConnectionSettings) : ConnectionSettings := mk info.
Definition Clone (s : ConnectionSettings) : ConnectionSettings := mk (info_ s).
End Settings.
End LmdbSettings.

Module UpscaledbSettings.
Section Settings.
Context `{CommonLib} `{ConfigLib}.
Record ConnectionSettings := mk { info_ : LocalConfig }.
Definition new : ConnectionSettings := mk UpscaledbConfig.Config.
Definition DBpath (s : ConnectionSettings) : bytes := lc_dbname (info_ s).
Definition FullAddress (s : ConnectionSettings) : bytes := lc_dbname (info_ s).
Definition SetCommandLine (line : bytes) (s : ConnectionSettings) : outcome ConnectionSettings :=
  c ← UpscaledbConfig.FromString line; Val (mk c).
Definition CommandLine (s : ConnectionSettings) : bytes := UpscaledbConfig.ToString (info_ s).
Definition Info (s : ConnectionSettings) : LocalConfig := info_ s.
Definition SetInfo (info : LocalConfig) (s : ConnectionSettings) : ConnectionSettings := mk info.
Definition Clone (s : ConnectionSettings) : ConnectionSettings := mk (info_ s).
End Settings.
End UpscaledbSettings.

(** * The hierarchy

    [derived] is the object behind the virtual functions; the tunnel belongs to
    [IConnectionSettingsRemoteSSH], of which only Redis is a kind. *)

Inductive derived :=
| DRedis (s : RedisSettings.ConnectionSettings) (ssh_info_ : SSHInfo)
| DMemcached (s : MemcachedSettings.ConnectionSettings)
| DSsdb (s : SsdbSettings.ConnectionSettings)
| DLeveldb (s : LeveldbSettings.ConnectionSettings)
| DRocksdb (s : RocksdbSettings.ConnectionSettings)
| DUnqlite (s : UnqliteSettings.ConnectionSettings)
| DLmdb (s : LmdbSettings.ConnectionSettings)
| DUpscaledb (s : UpscaledbSettings.ConnectionSettings).

Section Derived.
Context `{CommonLib} `{ConfigLib}.

Definition derived_CommandLine (d : derived) : bytes :=
  match d with
  | DRedis s i => RedisSettings.CommandLine s
  | DMemcached s => MemcachedSettings.CommandLine s
  | DSsdb s => SsdbSettings.CommandLine s
  | DLeveldb s => LeveldbSettings.CommandLine s
  | DRocksdb s => RocksdbSettings.CommandLine s
  | DUnqlite s => UnqliteSettings.CommandLine s
  | DLmdb s => LmdbSettings.CommandLine s
  | DUpscaledb s => UpscaledbSettings.CommandLine s
  end.

Definition derived_SetCommandLine (line : bytes) (d : derived) : outcome derived :=
  match d with
  | DRedis s i => s ← RedisSettings.SetCommandLine line s; Val (DRedis s i)
  | DMemcached s => s ← MemcachedSettings.SetCommandLine line s; Val (DMemcached s)
  | DSsdb s => s ← SsdbSettings.SetCommandLine line s; Val (DSsdb s)
  | DLeveldb s => s ← LeveldbSettings.SetCommandLine line s; Val (DLeveldb s)
  | DRocksdb s => s ← RocksdbSettings.SetCommandLine line s; Val (DRocksdb s)
  | DUnqlite s => s ← UnqliteSettings.SetCommandLine line s; Val (DUnqlite s)
  | DLmdb s => s ← LmdbSettings.SetCommandLine line s; Val (DLmdb s)
  | DUpscaledb s => s ← UpscaledbSettings.SetCommandLine line s; Val (DUpscaledb s)
  end.

(** [dynamic_cast<IConnectionSettingsRemote*>], with the host. *)
Definition derived_Host (d : derived) : option HostAndPort :=
  match d with
  | DRedis s i => Some (RedisSettings.Host s)
  | DMemcached s => Some (MemcachedSettings.Host s)
  | DSsdb s => Some (SsdbSettings.Host s)
  | DLeveldb s => None
  | DRocksdb s => None
  | DUnqlite s => None
  | DLmdb s => None
  | DUpscaledb s => None
  end.

Definition derived_SetHost (host : HostAndPort) (d : derived) : derived :=
  match d with
  | DRedis s i => DRedis (RedisSettings.SetHost host s) i
  | DMemcached s => DMemcached (MemcachedSettings.SetHost host s)
  | DSsdb s => DSsdb (SsdbSettings.SetHost host s)
  | DLeveldb s => d
  | DRocksdb s => d
  | DUnqlite s => d
  | DLmdb s => d
  | DUpscaledb s => d
  end.

Definition derived_FullAddress (d : derived) : bytes :=
  match d with
  | DRedis s i => HostAndPort_ToString (RedisSettings.Host s)
  | DMemcached s => HostAndPort_ToString (MemcachedSettings.Host s)
  | DSsdb s => HostAndPort_ToString (SsdbSettings.Host s)
  | DLeveldb s => LeveldbSettings.FullAddress s
  | DRocksdb s => RocksdbSettings.FullAddress s
  | DUnqlite s => UnqliteSettings.FullAddress s
  | DLmdb s => LmdbSettings.FullAddress s
  | DUpscaledb s => UpscaledbSettings.FullAddress s
  end.
End Derived.

(** [IConnectionSettings] *)
Record IConnectionSettings `{SettingsLib} := mkIConnectionSettings {
  connection_path_ : ConnectionSettingsPath;
  type_ : connectionTypes;
  msinterval_ : Z
}.
Arguments mkIConnectionSettings {_} _ _ _.

(** [IConnectionSettingsBase] *)
Record Settings `{SettingsLib} := mkSettings {
  cs_base : IConnectionSettings;
  hash_ : bytes;
  cs_derived : derived
}.
Arguments mkSettings {_} _ _ _.

(** The value of an enumerator, and what [static_cast] makes of a number. *)
Definition type_value (t : connectionTypes) : Z :=
  match t with
  | REDIS => 0 | MEMCACHED => 1 | SSDB => 2 | LEVELDB => 3 | ROCKSDB => 4 | UNQLITE => 5 | LMDB => 6
  | UPSCALEDB => 7
  end.
Definition type_of_value (z : Z) : option connectionTypes :=
  List.find (λ t, type_value t =? z) compiled_types.

(** A [char] is signed. *)
Definition signed_char (c : ascii) : Z := if byte_val c <? 128 then byte_val c else byte_val c - 256.

(** [elText[0] - 48]: the terminator is at the place behind an empty text. *)
Definition type_of_text (elText : bytes) : option connectionTypes :=
  type_of_value (signed_char (List.hd NUL elText) - 48).

Section Base.
Context `{CommonLib} `{ConfigLib} `{SettingsLib}.
Implicit Types (b : IConnectionSettings) (s : Settings).

Definition IConnectionSettings_new (connectionPath : ConnectionSettingsPath) (type : connectionTypes) :
    IConnectionSettings := mkIConnectionSettings connectionPath type 0.
Definition SetPath (path : ConnectionSettingsPath) b : IConnectionSettings :=
  mkIConnectionSettings path (type_ b) (msinterval_ b).
Definition IsLoggingEnabled b : bool := negb (msinterval_ b =? 0).
Definition SetLoggingMsTimeInterval (mstime : Z) b : IConnectionSettings :=
  mkIConnectionSettings (connection_path_ b) (type_ b) mstime.
Definition IConnectionSettings_ToString b : bytes :=
  MemSPrintf (lit "%d,%s,%u")
    [FInt (type_value (type_ b)); FStr (Path_ToString (connection_path_ b)); FInt (msinterval_ b)].

Definition set_base b s : Settings := mkSettings b (hash_ s) (cs_derived s).
Definition set_derived (d : derived) s : Settings := mkSettings (cs_base s) (hash_ s) d.

Definition SetConnectionPathAndUpdateHash (name : ConnectionSettingsPath) s : Settings :=
  let b := SetPath name (cs_base s) in
  mkSettings b (ToString_uint (crc64 0 (Path_ToString (connection_path_ b)))) (cs_derived s).

Definition IConnectionSettingsBase_new (connectionPath : ConnectionSettingsPath) (type : connectionTypes)
    (d : derived) : Settings :=
  SetConnectionPathAndUpdateHash connectionPath
    (mkSettings (IConnectionSettings_new connectionPath type) [] d).

(** The last test of the function asks for LMDB a second time. *)
Definition LoggingPath s : bytes :=
  let prefix := LoggingDirectory ++ hash_ s in
  match type_ (cs_base s) with
  | REDIS => prefix ++ lit ".red"
  | MEMCACHED => prefix ++ lit ".mem"
  | SSDB => prefix ++ lit ".ssdb"
  | LEVELDB => prefix ++ lit ".leveldb"
  | ROCKSDB => prefix ++ lit ".rocksdb"
  | UNQLITE => prefix ++ lit ".unq"
  | LMDB => prefix ++ lit ".lmdb"
  | UPSCALEDB => []
  end.

Definition CommandLine s : bytes := derived_CommandLine (cs_derived s).
Definition SetCommandLine (line : bytes) s : outcome Settings :=
  d ← derived_SetCommandLine line (cs_derived s); Val (set_derived d s).

Definition IConnectionSettingsBase_ToString s : bytes :=
  IConnectionSettings_ToString (cs_base s) ++ ","%char :: CommandLine s.

(** [IConnectionSettingsRemoteSSH] *)
Definition SSHInfo_of s : option SSHInfo :=
  match cs_derived s with DRedis _ i => Some i | _ => None end.
Definition SetSSHInfo (info : SSHInfo) s : Settings :=
  match cs_derived s with DRedis r _ => set_derived (DRedis r info) s | _ => s end.
Definition IConnectionSettingsRemoteSSH_ToString s (i : SSHInfo) : bytes :=
  IConnectionSettingsBase_ToString s ++ ","%char :: SSHInfo_ToString i.

(** The virtual function. *)
Definition Settings_ToString s : bytes :=
  match SSHInfo_of s with
  | Some i => IConnectionSettingsRemoteSSH_ToString s i
  | None => IConnectionSettingsBase_ToString s
  end.

(** ** [ConnectionSettingsFactory] *)

Definition new_derived (type : connectionTypes) : derived :=
  match type with
  | REDIS => DRedis RedisSettings.new SSHInfo_default
  | MEMCACHED => DMemcached MemcachedSettings.new
  | SSDB => DSsdb SsdbSettings.new
  | LEVELDB => DLeveldb LeveldbSettings.new
  | ROCKSDB => DRocksdb RocksdbSettings.new
  | UNQLITE => DUnqlite UnqliteSettings.new
  | LMDB => DLmdb LmdbSettings.new
  | UPSCALEDB => DUpscaledb UpscaledbSettings.new
  end.

Definition CreateFromType (type : connectionTypes) (conName : ConnectionSettingsPath) : Settings :=
  IConnectionSettingsBase_new conName type (new_derived type).

Definition SetHost (host : HostAndPort) s : Settings := set_derived (derived_SetHost host (cs_derived s)) s.

(** The overload with a host, and the one for a tunnel. *)
Definition CreateFromType_host (type : connectionTypes) (conName : ConnectionSettingsPath) (host : HostAndPort) :
    option Settings :=
  if IsRemoteType type then Some (SetHost host (CreateFromType type conName)) else None.
Definition CreateSSHFromType (type : connectionTypes) (conName : ConnectionSettingsPath) (host : HostAndPort) :
    option Settings :=
  if IsCanSSHConnection type then Some (SetHost host (CreateFromType type conName)) else None.

(** The loop of [CreateFromString]; the text of the loop is what is still to be read. *)
Fixpoint create_loop (val : bytes) (commaCount : nat) (elText : bytes) (result : option Settings) :
    outcome (option Settings) :=
  match val with
  | [] => Val result
  | ch :: rest =>
    if negb (Ascii.eqb ch ",") then create_loop rest commaCount (elText ++ [ch]) result
    else
      match commaCount with
      | 0 =>
        match type_of_text elText with
        | None => Val None
        | Some crT => create_loop rest 1 [] (Some (CreateFromType crT Path_new))
        end
      | 1 =>
        r ← deref result;
        create_loop rest 2 [] (Some (SetConnectionPathAndUpdateHash (Path_of elText) r))
      | 2 =>
        r ← deref result;
        let r := set_base (SetLoggingMsTimeInterval (FromString_uint32 elText) (cs_base r)) r in
        if negb (IsRemoteType (type_ (cs_base r))) then r ← SetCommandLine rest r; Val (Some r)
        else create_loop rest 3 [] (Some r)
      | _ =>
        r ← deref result;
        r ← SetCommandLine elText r;
        Val (Some (match SSHInfo_of r with Some _ => SetSSHInfo (SSHInfo_FromString rest) r | None => r end))
      end%nat
  end.

Definition CreateFromString (val : bytes) : outcome (option Settings) :=
  if bool_decide (val = []) then Val None else create_loop val 0 [] None.
End Base.

(** * Clusters *)

Record IClusterSettingsBase `{SettingsLib} := mkCluster {
  cl_base : IConnectionSettings;
  clusters_nodes_ : list Settings
}.
Arguments mkCluster {_} _ _.

Section Cluster.
Context `{CommonLib} `{ConfigLib} `{SettingsLib}.
Implicit Types c : IClusterSettingsBase.

Definition ClusterSettings (connectionName : ConnectionSettingsPath) : IClusterSettingsBase :=
  mkCluster (IConnectionSettings_new connectionName REDIS) [].

Definition AddNode (node : option Settings) c : IClusterSettingsBase :=
  match node with None => c | Some n => mkCluster (cl_base c) (clusters_nodes_ c ++ [n]) end.

Definition node_text (s : Settings) : bytes := magicNumber :: Settings_ToString s.

Definition Cluster_ToString c : bytes :=
  IConnectionSettings_ToString (cl_base c) ++ ","%char :: List.concat (List.map node_text (clusters_nodes_ c)).

Fixpoint find_host (nodes : list Settings) (host : HostAndPort) : outcome (option Settings) :=
  match nodes with
  | [] => Val None
  | cur :: nodes =>
    match derived_Host (cs_derived cur) with
    | None => Fault CheckFailed
    | Some h =>
      if bool_decide (hp_host h = hp_host host) && (hp_port h =? hp_port host) then Val (Some cur)
      else find_host nodes host
    end
  end.
Definition FindSettingsByHost (host : HostAndPort) c : outcome (option Settings) :=
  find_host (clusters_nodes_ c) host.

(** [ClusterConnectionSettingsFactory] *)
Definition Cluster_CreateFromType (type : connectionTypes) (conName : ConnectionSettingsPath) :
    option IClusterSettingsBase :=
  match type with REDIS => Some (ClusterSettings conName) | _ => None end.

(** The loop over the texts of the nodes: the character at the last place ends a text like the magic
    number does, and is not part of it. *)
Fixpoint nodes_loop (text serText : bytes) (nodes : list Settings) : outcome (list Settings) :=
  match text with
  | [] => Val nodes
  | ch :: rest =>
    if Ascii.eqb ch magicNumber || bool_decide (rest = []) then
      ser ← CreateFromString serText;
      nodes_loop rest [] (match ser with Some s => nodes ++ [s] | None => nodes end)
    else nodes_loop rest (serText ++ [ch]) nodes
  end.

Fixpoint cluster_loop (val : bytes) (commaCount : nat) (elText : bytes) (result : option IClusterSettingsBase) :
    outcome (option IClusterSettingsBase) :=
  match val with
  | [] => Val result
  | ch :: rest =>
    if negb (Ascii.eqb ch ",") then cluster_loop rest commaCount (elText ++ [ch]) result
    else
      match commaCount with
      | 0 =>
        match type_of_text elText ≫= λ crT, Cluster_CreateFromType crT Path_new with
        | None => Val None
        | Some r => cluster_loop rest 1 [] (Some r)
        end
      | 1 =>
        r ← deref result;
        cluster_loop rest 2 [] (Some (mkCluster (SetPath (Path_of elText) (cl_base r)) (clusters_nodes_ r)))
      | _ =>
        r ← deref result;
        nodes ← nodes_loop (drop 1 rest) [] (clusters_nodes_ r);
        Val (Some (mkCluster (SetLoggingMsTimeInterval (FromString_uint32 elText) (cl_base r)) nodes))
      end%nat
  end.

Definition Cluster_CreateFromString (val : bytes) : outcome (option IClusterSettingsBase) :=
  if bool_decide (val = []) then Val None else cluster_loop val 0 [] None.
End Cluster.

(** * Sentinels *)

Record SentinelSettings `{SettingsLib} := mkSentinelSettings {
  sentinel : option Settings;
  sentinel_nodes : list Settings
}.
Arguments mkSentinelSettings {_} _ _.
Record ISentinelSettingsBase `{SettingsLib} := mkSentinels {
  st_base : IConnectionSettings;
  sentinel_nodes_ : list SentinelSettings
}.
Arguments mkSentinels {_} _ _.

Section Sentinel.
Context `{CommonLib} `{ConfigLib} `{SettingsLib}.
Implicit Types (s : SentinelSettings) (b : ISentinelSettingsBase).

Definition SentinelSettingsToString s : outcome bytes :=
  sent ← deref (sentinel s);
  Val (encode64 (Settings_ToString sent) ++
       ","%char :: encode64 (List.concat (List.map node_text (sentinel_nodes s)))).

(** The loop ends at the first comma or at the last character. *)
Fixpoint sentinel_text_loop (text elText : bytes) : outcome (option SentinelSettings) :=
  match text with
  | [] => Val None
  | ch :: rest =>
    if Ascii.eqb ch "," || bool_decide (rest = []) then
      sent ← CreateFromString (decode64 elText);
      match sent with
      | None => Val None
      | Some sent =>
        nodes ← nodes_loop (decode64 rest) [] [];
        Val (Some (mkSentinelSettings (Some sent) nodes))
      end
    else sentinel_text_loop rest (elText ++ [ch])
  end.

(** [false] is [None]. *)
Definition SentinelSettingsfromString (text : bytes) : outcome (option SentinelSettings) :=
  if bool_decide (text = []) then Val None else sentinel_text_loop text [].

Definition Sentinel_new (connectionName : ConnectionSettingsPath) : ISentinelSettingsBase :=
  mkSentinels (IConnectionSettings_new connectionName REDIS) [].
Definition AddSentinel (sent : SentinelSettings) b : ISentinelSettingsBase :=
  mkSentinels (st_base b) (sentinel_nodes_ b ++ [sent]).

Fixpoint sentinels_text (l : list SentinelSettings) : outcome bytes :=
  match l with
  | [] => Val []
  | s :: l => t ← SentinelSettingsToString s; r ← sentinels_text l; Val ((magicNumber :: t) ++ r)
  end.
Definition Sentinel_ToString b : outcome bytes :=
  t ← sentinels_text (sentinel_nodes_ b);
  Val (IConnectionSettings_ToString (st_base b) ++ ","%char :: t).

(** [SentinelConnectionSettingsFactory] *)
Definition Sentinel_CreateFromType (type : connectionTypes) (conName : ConnectionSettingsPath) :
    option ISentinelSettingsBase :=
  match type with REDIS => Some (Sentinel_new conName) | _ => None end.

Fixpoint sentinels_loop (text serText : bytes) (l : list SentinelSettings) : outcome (list SentinelSettings) :=
  match text with
  | [] => Val l
  | ch :: rest =>
    if Ascii.eqb ch magicNumber || bool_decide (rest = []) then
      sent ← SentinelSettingsfromString serText;
      sentinels_loop rest [] (match sent with Some s => l ++ [s] | None => l end)
    else sentinels_loop rest (serText ++ [ch]) l
  end.

Fixpoint sentinel_loop (val : bytes) (commaCount : nat) (elText : bytes) (result : option ISentinelSettingsBase) :
    outcome (option ISentinelSettingsBase) :=
  match val with
  | [] => Val result
  | ch :: rest =>
    if negb (Ascii.eqb ch ",") then sentinel_loop rest commaCount (elText ++ [ch]) result
    else
      match commaCount with
      | 0 =>
        match type_of_text elText ≫= λ crT, Sentinel_CreateFromType crT Path_new with
        | None => Val None
        | Some r => sentinel_loop rest 1 [] (Some r)
        end
      | 1 =>
        r ← deref result;
        sentinel_loop rest 2 [] (Some (mkSentinels (SetPath (Path_of elText) (st_base r)) (sentinel_nodes_ r)))
      | _ =>
        r ← deref result;
        l ← sentinels_loop (drop 1 rest) [] (sentinel_nodes_ r);
        Val (Some (mkSentinels (SetLoggingMsTimeInterval (FromString_uint32 elText) (st_base r)) l))
      end%nat
  end.

Definition Sentinel_CreateFromString (val : bytes) : outcome (option ISentinelSettingsBase) :=
  if bool_decide (val = []) then Val None else sentinel_loop val 0 [] None.
End Sentinel.
