(* ===== verification/ConnSettingsProps.v ===== *)
(** What holds of the connection settings: which saved settings come back, and how far clusters and
    sentinels do. *)
From Stdlib Require Import Ascii String ZArith Lia.
From stdpp Require Import base list.
From S2P Require Import Prelude Common Texts Values Configs Sds Hiredis SshInfo ConnectionTypes ConnSettings.
Import RedisRoundtrip.
Local Open Scope Z_scope.

(** * Well-formed settings *)

Definition derived_type (d : derived) : connectionTypes :=
  match d with
  | DRedis _ _ => REDIS | DMemcached _ => MEMCACHED | DSsdb _ => SSDB | DLeveldb _ => LEVELDB
  | DRocksdb _ => ROCKSDB | DUnqlite _ => UNQLITE | DLmdb _ => LMDB | DUpscaledb _ => UPSCALEDB
  end.

Section Wf.
Context `{CommonLib} `{ConfigLib} `{SettingsLib}.
Implicit Types (s : Settings) (d : derived).

Definition path_hash (p : ConnectionSettingsPath) : bytes := ToString_uint (crc64 0 (Path_ToString p)).

(** The type is that of the object, and the hash that of the path. *)
Record settings_wf s : Prop := {
  wf_type : type_ (cs_base s) = derived_type (cs_derived s);
  wf_hash : hash_ s = path_hash (connection_path_ (cs_base s))
}.

Lemma CreateFromType_wf t p : settings_wf (CreateFromType t p).
Proof. split; [by destruct t|done]. Qed.

Lemma SetPath_wf p s : settings_wf s → settings_wf (SetConnectionPathAndUpdateHash p s).
Proof. intros [Ht Hh]. by split. Qed.

Lemma SetInterval_wf ms s : settings_wf s → settings_wf (set_base (SetLoggingMsTimeInterval ms (cs_base s)) s).
Proof. intros [Ht Hh]. by split. Qed.

Lemma set_derived_wf d s : derived_type d = derived_type (cs_derived s) → settings_wf s → settings_wf (set_derived d s).
Proof. intros Hd [Ht Hh]. split; [by rewrite <- Ht in Hd; symmetry|done]. Qed.

Lemma SetSSHInfo_wf i s : settings_wf s → settings_wf (SetSSHInfo i s).
Proof. intros Hs. unfold SetSSHInfo. destruct (cs_derived s) eqn:E; try done. apply set_derived_wf; [by rewrite E|done]. Qed.

Lemma SetHost_wf h s : settings_wf s → settings_wf (SetHost h s).
Proof. intros Hs. apply set_derived_wf; [by destruct (cs_derived s)|done]. Qed.

Lemma derived_SetCommandLine_type line d d' :
  derived_SetCommandLine line d = Val d' → derived_type d' = derived_type d.
Proof.
  destruct d; cbn [derived_SetCommandLine]; intros Hs;
    match type of Hs with (mbind _ ?m = _) => destruct m as [s'|f]; cbn [mbind outcome_bind] in Hs end;
    try done; by injection Hs as <-.
Qed.

Lemma SetCommandLine_wf line s s' : settings_wf s → SetCommandLine line s = Val s' → settings_wf s'.
Proof.
  unfold SetCommandLine. intros Hs Hd. destruct (derived_SetCommandLine line (cs_derived s)) as [d|] eqn:E; [|done].
  injection Hd as <-. apply derived_SetCommandLine_type in E. by apply set_derived_wf.
Qed.

Lemma create_loop_wf val : ∀ k el result s,
  (∀ r, result = Some r → settings_wf r) → create_loop val k el result = Val (Some s) → settings_wf s.
Proof.
  induction val as [|ch val IH]; intros k el result s Hr; cbn [create_loop].
  { intros [= ->]. by apply Hr. }
  destruct (negb _); [by apply IH|]. destruct k as [|[|[|k]]].
  - destruct (type_of_text el) as [t|]; [|done]. apply IH. intros r [= <-]. apply CreateFromType_wf.
  - destruct result as [r|]; [|done]. apply IH. intros r' [= <-]. apply SetPath_wf. by apply Hr.
  - destruct result as [r|]; [|done]. cbn [deref from_option_fault mbind outcome_bind].
    pose proof (SetInterval_wf (FromString_uint32 el) r (Hr r eq_refl)) as Hw. destruct (negb _).
    + destruct (SetCommandLine _ _) as [r'|] eqn:E; [|done]. intros [= <-]. by apply SetCommandLine_wf in E.
    + apply IH. by intros r' [= <-].
  - destruct result as [r|]; [|done]. cbn [deref from_option_fault mbind outcome_bind].
    destruct (SetCommandLine _ _) as [r'|] eqn:E; [|done]. cbn [mbind outcome_bind].
    apply SetCommandLine_wf in E; [|by apply Hr]. intros [= <-].
    destruct (SSHInfo_of r'); [by apply SetSSHInfo_wf|done].
Qed.

Lemma CreateFromString_wf val s : CreateFromString val = Val (Some s) → settings_wf s.
Proof. unfold CreateFromString. case_bool_decide; [done|]. by apply create_loop_wf. Qed.
End Wf.

(** * Reading back one connection *)

Section Read.
Context `{CommonLaws} `{ConfigLaws} `{SettingsLaws}.
Implicit Types (s : Settings) (d : derived) (b : IConnectionSettings).

Lemma create_skip f : ∀ val k el result, ","%char ∉ f →
  create_loop (f ++ val) k el result = create_loop val k (el ++ f) result.
Proof.
  induction f as [|x f IH]; intros val k el result Hf; [by rewrite app_nil_r|].
  apply not_elem_of_cons in Hf as [Hx Hf]. cbn [app create_loop].
  destruct (Ascii.eqb_spec x ","); [by subst|]. cbn [negb]. rewrite IH by done. by rewrite <- app_assoc.
Qed.

Lemma cluster_skip f : ∀ val k el result, ","%char ∉ f →
  cluster_loop (f ++ val) k el result = cluster_loop val k (el ++ f) result.
Proof.
  induction f as [|x f IH]; intros val k el result Hf; [by rewrite app_nil_r|].
  apply not_elem_of_cons in Hf as [Hx Hf]. cbn [app cluster_loop].
  destruct (Ascii.eqb_spec x ","); [by subst|]. cbn [negb]. rewrite IH by done. by rewrite <- app_assoc.
Qed.

(** A base whose text can be read. *)
Definition base_plain b : Prop := (","%char ∉ Path_ToString (connection_path_ b)) ∧ 0 <= msinterval_ b < 2 ^ 32.

Lemma base_text b :
  IConnectionSettings_ToString b =
  dec_int (type_value (type_ b)) ++ ","%char :: Path_ToString (connection_path_ b) ++ ","%char :: dec_nat (msinterval_ b).
Proof.
  unfold IConnectionSettings_ToString. apply MemSPrintf_spec. cbn. by rewrite app_nil_r.
Qed.

Lemma type_text t : type_of_text (dec_int (type_value t)) = Some t.
Proof. by destruct t. Qed.

Lemma type_text_comma t : ","%char ∉ dec_int (type_value t).
Proof. intros Hin%list_elem_of_In. destruct t; vm_compute in Hin; intuition congruence. Qed.

Lemma dec_nat_comma n : ","%char ∉ dec_nat n.
Proof.
  intros Hin%list_elem_of_In. assert (Hd : forallb c_isdigit (dec_nat n) = true) by (by apply dec_nat_chars).
  rewrite forallb_forall in Hd. by apply Hd in Hin.
Qed.

(** The common beginning of the texts. *)
Lemma create_head b rest : base_plain b →
  create_loop (IConnectionSettings_ToString b ++ ","%char :: rest) 0 [] None =
  let r := mkSettings b (path_hash (connection_path_ b)) (new_derived (type_ b)) in
  if negb (IsRemoteType (type_ b)) then r ← SetCommandLine rest r; Val (Some r)
  else create_loop rest 3 [] (Some r).
Proof.
  intros [Hp Hm]. rewrite base_text, <- app_assoc. cbn [app]. rewrite create_skip by apply type_text_comma.
  cbn [create_loop app]. rewrite Ascii.eqb_refl, type_text. cbn [negb].
  rewrite <- app_assoc, create_skip by done. cbn [create_loop app]. rewrite Ascii.eqb_refl. cbn [negb deref from_option_fault mbind outcome_bind].
  rewrite create_skip by apply dec_nat_comma. cbn [create_loop app]. rewrite Ascii.eqb_refl.
  cbn [negb deref from_option_fault mbind outcome_bind]. rewrite FromString_uint32_spec by done.
  unfold Path_of, Path_ToString. rewrite path_of_text. destruct b as [p t ms].
  cbn [CreateFromType IConnectionSettingsBase_new IConnectionSettings_new SetConnectionPathAndUpdateHash SetPath
       set_base SetLoggingMsTimeInterval cs_base connection_path_ type_ msinterval_ hash_ cs_derived]. done.
Qed.

(** The information of the object can be read back: no comma ends the command line early. *)
Definition derived_plain d : Prop :=
  match d with
  | DRedis r i => representable (RedisSettings.info_ r) ∧ (","%char ∉ RedisSettings.CommandLine r) ∧ ssh_plain i
  | DMemcached r => ","%char ∉ MemcachedSettings.CommandLine r
  | DSsdb r => ","%char ∉ SsdbSettings.CommandLine r
  | DLeveldb r => local_plain (LeveldbSettings.info_ r) = true
  | DRocksdb r => local_plain (RocksdbSettings.info_ r) = true
  | DUnqlite r => local_plain (UnqliteSettings.info_ r) = true
  | DLmdb r => local_plain (LmdbSettings.info_ r) = true
  | DUpscaledb r => local_plain (UpscaledbSettings.info_ r) = true
  end.

Record settings_plain s : Prop := {
  sp_wf : settings_wf s;
  sp_base : base_plain (cs_base s);
  sp_derived : derived_plain (cs_derived s)
}.

(** What is read of the object: of Memcached and SSDB only that it exists, since the command line counts
    only in front of a further comma. *)
Definition kept d : derived :=
  match d with
  | DMemcached _ => DMemcached MemcachedSettings.new
  | DSsdb _ => DSsdb SsdbSettings.new
  | _ => d
  end.

Lemma create_skip_all f k el result : ","%char ∉ f → create_loop f k el result = Val result.
Proof. intros Hf. rewrite <- (app_nil_r f). by rewrite create_skip. Qed.

Lemma not_empty_base b rest : bool_decide (IConnectionSettings_ToString b ++ rest = []) = false.
Proof.
  apply bool_decide_eq_false_2. rewrite base_text. intros [E _]%app_eq_nil. by destruct (type_ b).
Qed.

(** The object of a local database behind its command line. *)
Lemma local_back s d :
  derived_type d = derived_type (cs_derived s) → IsRemoteType (derived_type d) = false →
  derived_SetCommandLine (CommandLine s) (new_derived (derived_type d)) = Val (cs_derived s) →
  SSHInfo_of s = None → settings_wf s → base_plain (cs_base s) →
  CreateFromString (Settings_ToString s) = Val (Some s).
Proof.
  intros Hd Hr Hc Hi [Ht Hh] Hb. unfold CreateFromString, Settings_ToString, IConnectionSettingsBase_ToString.
  rewrite Hi, not_empty_base, create_head by done. cbv zeta. rewrite Ht, <- Hd, Hr. cbn [negb].
  unfold SetCommandLine. cbn [cs_derived]. rewrite Hc. cbn [mbind outcome_bind]. unfold set_derived. cbn [cs_base hash_].
  rewrite <- Hh. by destruct s.
Qed.

Lemma remote_back s :
  IsRemoteType (type_ (cs_base s)) = true → ","%char ∉ CommandLine s → SSHInfo_of s = None →
  settings_wf s → base_plain (cs_base s) →
  CreateFromString (Settings_ToString s) = Val (Some (set_derived (new_derived (derived_type (cs_derived s))) s)).
Proof.
  intros Hr Hc Hi [Ht Hh] Hb. unfold CreateFromString, Settings_ToString, IConnectionSettingsBase_ToString.
  rewrite Hi, not_empty_base, create_head by done. cbv zeta. rewrite Hr. cbn [negb].
  rewrite create_skip_all by done. unfold set_derived. by rewrite Hh, Ht.
Qed.

(** Redis: the text of the tunnel is everything behind the command line. *)
Lemma redis_back s r i ssh :
  cs_derived s = DRedis r i → representable (RedisSettings.info_ r) → ","%char ∉ RedisSettings.CommandLine r →
  settings_wf s → base_plain (cs_base s) →
  CreateFromString (IConnectionSettingsBase_ToString s ++ ","%char :: ssh)
  = Val (Some (set_derived (DRedis r (SSHInfo_FromString ssh)) s)).
Proof.
  intros Hs Hr Hc [Ht Hh] Hb. unfold CreateFromString, IConnectionSettingsBase_ToString, CommandLine.
  rewrite <- app_assoc. cbn [app]. rewrite not_empty_base, create_head by done. cbv zeta.
  rewrite Hs in *. cbn [derived_type derived_CommandLine] in *. rewrite Ht. cbn [negb IsRemoteType].
  change (negb (IsRemoteType REDIS)) with false. cbn [negb].
  rewrite create_skip by done. cbn [app create_loop]. rewrite Ascii.eqb_refl. cbn [negb deref from_option_fault mbind outcome_bind].
  unfold SetCommandLine. cbn [cs_derived new_derived derived_SetCommandLine].
  unfold RedisSettings.SetCommandLine, RedisSettings.CommandLine in *. rewrite redis_roundtrip by done.
  cbn [mbind outcome_bind]. unfold set_derived, SSHInfo_of, SetSSHInfo. cbn [cs_derived cs_base hash_].
  unfold set_derived. cbn [cs_base hash_]. rewrite <- Hh. by destruct r.
Qed.

Tactic Notation "line_back" reference(a) reference(b) reference(c) reference(d) :=
  intros [?] [?] Hp; unfold a, b, c, d; rewrite local_roundtrip by done; reflexivity.

Lemma leveldb_line : ∀ r r', local_plain (LeveldbSettings.info_ r) = true →
  LeveldbSettings.SetCommandLine (LeveldbSettings.CommandLine r) r' = Val r.
Proof. line_back LeveldbSettings.SetCommandLine LeveldbSettings.CommandLine LeveldbConfig.FromString LeveldbConfig.ToString. Qed.

Lemma rocksdb_line : ∀ r r', local_plain (RocksdbSettings.info_ r) = true →
  RocksdbSettings.SetCommandLine (RocksdbSettings.CommandLine r) r' = Val r.
Proof. line_back RocksdbSettings.SetCommandLine RocksdbSettings.CommandLine RocksdbConfig.FromString RocksdbConfig.ToString. Qed.

Lemma unqlite_line : ∀ r r', local_plain (UnqliteSettings.info_ r) = true →
  UnqliteSettings.SetCommandLine (UnqliteSettings.CommandLine r) r' = Val r.
Proof. line_back UnqliteSettings.SetCommandLine UnqliteSettings.CommandLine UnqliteConfig.FromString UnqliteConfig.ToString. Qed.

Lemma lmdb_line : ∀ r r', local_plain (LmdbSettings.info_ r) = true →
  LmdbSettings.SetCommandLine (LmdbSettings.CommandLine r) r' = Val r.
Proof. line_back LmdbSettings.SetCommandLine LmdbSettings.CommandLine LmdbConfig.FromString LmdbConfig.ToString. Qed.

Lemma upscaledb_line : ∀ r r', local_plain (UpscaledbSettings.info_ r) = true →
  UpscaledbSettings.SetCommandLine (UpscaledbSettings.CommandLine r) r' = Val r.
Proof. line_back UpscaledbSettings.SetCommandLine UpscaledbSettings.CommandLine UpscaledbConfig.FromString UpscaledbConfig.ToString. Qed.

Ltac local_kind s E L :=
  first [ by unfold SSHInfo_of; rewrite E
        | unfold CommandLine; rewrite E; cbn [derived_CommandLine derived_SetCommandLine derived_type new_derived];
          rewrite L by done; reflexivity ].

Lemma settings_back s :
  settings_plain s → CreateFromString (Settings_ToString s) = Val (Some (set_derived (kept (cs_derived s)) s)).
Proof.
  intros [Hw Hb Hd]. pose proof (wf_type s Hw) as Ht.
  assert (Hsame : set_derived (cs_derived s) s = s) by (by destruct s).
  destruct (cs_derived s) as [r i|r|r|r|r|r|r|r] eqn:E; cbn [kept derived_plain derived_type] in *.
  - destruct Hd as (Hr & Hc & Hi). unfold Settings_ToString, SSHInfo_of. rewrite E.
    unfold IConnectionSettingsRemoteSSH_ToString. rewrite (redis_back s r i) by done. by rewrite ssh_info_roundtrip.
  - rewrite remote_back; rewrite ?Ht, ?E; try done; [by unfold CommandLine; rewrite E|by unfold SSHInfo_of; rewrite E].
  - rewrite remote_back; rewrite ?Ht, ?E; try done; [by unfold CommandLine; rewrite E|by unfold SSHInfo_of; rewrite E].
  - rewrite (local_back s (DLeveldb r)), Hsame; rewrite ?E; try done; local_kind s E leveldb_line.
  - rewrite (local_back s (DRocksdb r)), Hsame; rewrite ?E; try done; local_kind s E rocksdb_line.
  - rewrite (local_back s (DUnqlite r)), Hsame; rewrite ?E; try done; local_kind s E unqlite_line.
  - rewrite (local_back s (DLmdb r)), Hsame; rewrite ?E; try done; local_kind s E lmdb_line.
  - rewrite (local_back s (DUpscaledb r)), Hsame; rewrite ?E; try done; local_kind s E upscaledb_line.
Qed.

(** ** Clusters *)

(** What is left of the settings of a tunnel whose text misses its last character. *)
Definition no_method (i : SSHInfo) : SSHInfo :=
  mkSSHInfo (ssh_host i) (user_name i) (password i) (public_key i) (private_key i) (passphrase i) UNKNOWN.

Definition ssh_cut (i : SSHInfo) : bytes :=
  List.concat (List.map (λ l, l ++ crlf) (take 6 (ssh_lines i)))
  ++ ssh_line "currentMethod" (ConvertToString_method (current_method i)) ++ [chr_cr].

Lemma ssh_text_cut i : SSHInfo_ToString i = ssh_cut i ++ [chr_nl].
Proof.
  unfold SSHInfo_ToString, ssh_cut, ssh_lines. cbn [take List.map List.concat].
  rewrite app_nil_r. unfold crlf. rewrite <- !app_assoc. done.
Qed.

Lemma ssh_cut_back i : ssh_plain i → SSHInfo_FromString (ssh_cut i) = no_method i.
Proof.
  intros [Hf Ha]. unfold SSHInfo_FromString, ssh_cut. unfold crlf. rewrite lines_of_rest.
  - unfold ssh_lines, ssh_field. cbn [take List.fold_left]. rewrite !split_field by done.
    destruct i as [h u p pu pr pa m]. simpl in *. unfold SSHInfo_default. simpl. by rewrite Ha.
  - rewrite !Forall_cons in Hf. destruct Hf as (? & ? & ? & ? & ? & ? & _).
    unfold ssh_lines. cbn [take]. repeat (apply Forall_cons; split; [by apply no_cr_name|]). by apply Forall_nil.
  - apply find_sub_half; [done|]. apply no_cr_name; [done|]. intros Hin%list_elem_of_In.
    destruct (current_method i); simpl in Hin; by destruct Hin.
Qed.

Definition forget_method s : Settings :=
  match cs_derived s with DRedis r i => set_derived (DRedis r (no_method i)) s | _ => s end.

Fixpoint forget_last (l : list Settings) : list Settings :=
  match l with [] => [] | [s] => [forget_method s] | s :: l => s :: forget_last l end.

(** A Redis connection whose text does not contain the separator of the nodes. *)
Record node_plain s : Prop := {
  np_plain : settings_plain s;
  np_redis : derived_type (cs_derived s) = REDIS;
  np_text : magicNumber ∉ Settings_ToString s
}.

Definition cut_text s : bytes :=
  match SSHInfo_of s with
  | Some i => IConnectionSettingsBase_ToString s ++ ","%char :: ssh_cut i
  | None => []
  end.

Lemma node_whole s : node_plain s → CreateFromString (Settings_ToString s) = Val (Some s).
Proof.
  intros [Hs Hr _]. rewrite settings_back by done. do 2 f_equal.
  destruct s as [b h d]. cbn [cs_derived] in *. by destruct d.
Qed.

Lemma node_cut s : node_plain s →
  Settings_ToString s = cut_text s ++ [chr_nl] ∧ CreateFromString (cut_text s) = Val (Some (forget_method s)).
Proof.
  intros [[Hw Hb Hd] Hr _]. unfold Settings_ToString, cut_text, SSHInfo_of, forget_method.
  destruct (cs_derived s) as [r i|r|r|r|r|r|r|r] eqn:E; try done. destruct Hd as (Hrp & Hc & Hi). split.
  - unfold IConnectionSettingsRemoteSSH_ToString. rewrite ssh_text_cut, <- app_assoc. done.
  - rewrite (redis_back s r i) by done. by rewrite ssh_cut_back.
Qed.

Lemma nodes_until t : ∀ rest el nodes, magicNumber ∉ t →
  nodes_loop (t ++ magicNumber :: rest) el nodes =
  (ser ← CreateFromString (el ++ t);
   nodes_loop rest [] (match ser with Some s => nodes ++ [s] | None => nodes end)).
Proof.
  induction t as [|x t IH]; intros rest el nodes Ht.
  - cbn [app nodes_loop]. by rewrite Ascii.eqb_refl, app_nil_r.
  - apply not_elem_of_cons in Ht as [Hx Ht]. cbn [app nodes_loop].
    destruct (Ascii.eqb_spec x magicNumber); [by subst|]. rewrite bool_decide_eq_false_2 by (by destruct t).
    cbn [orb]. rewrite IH by done. by rewrite <- app_assoc.
Qed.

Lemma nodes_last t c : ∀ el nodes, magicNumber ∉ t →
  nodes_loop (t ++ [c]) el nodes =
  (ser ← CreateFromString (el ++ t); Val (match ser with Some s => nodes ++ [s] | None => nodes end)).
Proof.
  induction t as [|x t IH]; intros el nodes Ht.
  - cbn [app nodes_loop]. by rewrite (bool_decide_eq_true_2 ([] = [])), orb_true_r, app_nil_r.
  - apply not_elem_of_cons in Ht as [Hx Ht]. cbn [app nodes_loop].
    destruct (Ascii.eqb_spec x magicNumber); [by subst|]. rewrite bool_decide_eq_false_2 by (by destruct t).
    cbn [orb]. rewrite IH by done. by rewrite <- app_assoc.
Qed.

Lemma nodes_back l : ∀ nodes, Forall node_plain l →
  nodes_loop (drop 1 (List.concat (List.map node_text l))) [] nodes = Val (nodes ++ forget_last l).
Proof.
  induction l as [|s l IH]; intros nodes Hl; [by rewrite app_nil_r|].
  apply Forall_cons in Hl as [Hs Hl]. pose proof (np_text s Hs) as Hm. destruct l as [|s' l].
  - cbn [List.map List.concat node_text]. rewrite app_nil_r. unfold node_text. cbn [drop].
    destruct (node_cut s Hs) as [Ht Hc]. rewrite Ht in Hm |- *.
    rewrite drop_0, nodes_last by (intros ?; apply Hm, elem_of_app; by left).
    cbn [app]. rewrite Hc. done.
  - assert (Hn : drop 1 (List.concat (List.map node_text (s :: s' :: l)))
                 = Settings_ToString s ++ magicNumber :: drop 1 (List.concat (List.map node_text (s' :: l)))).
    { reflexivity. }
    rewrite Hn, nodes_until by done. cbn [app]. rewrite node_whole by done. cbn [mbind outcome_bind].
    rewrite IH by done. rewrite <- app_assoc. done.
Qed.

Lemma cluster_back (c : IClusterSettingsBase) :
  type_ (cl_base c) = REDIS → base_plain (cl_base c) → Forall node_plain (clusters_nodes_ c) →
  Cluster_CreateFromString (Cluster_ToString c)
  = Val (Some (mkCluster (cl_base c) (forget_last (clusters_nodes_ c)))).
Proof.
  intros Ht [Hp Hm] Hn. unfold Cluster_CreateFromString, Cluster_ToString. rewrite not_empty_base, base_text, Ht.
  rewrite <- app_assoc. cbn [app]. rewrite cluster_skip by apply type_text_comma. cbn [cluster_loop app].
  rewrite Ascii.eqb_refl, type_text. cbn [negb mbind option_bind Cluster_CreateFromType].
  rewrite <- app_assoc, cluster_skip by done. cbn [cluster_loop app]. rewrite Ascii.eqb_refl.
  cbn [negb deref from_option_fault mbind outcome_bind].
  rewrite cluster_skip by apply dec_nat_comma. cbn [cluster_loop app]. rewrite Ascii.eqb_refl.
  cbn [negb deref from_option_fault mbind outcome_bind clusters_nodes_ ClusterSettings cl_base].
  rewrite nodes_back by done. cbn [mbind outcome_bind app]. rewrite FromString_uint32_spec by done.
  unfold Path_of, Path_ToString. rewrite path_of_text. destruct c as [[p t ms] l]. cbn in Ht. by subst.
Qed.
End Read.

(** * Properties *)

(** Paths and digests as texts; base64 is not needed by the samples. *)
Definition hex_digits : bytes := lit "0123456789abcdef".
Definition hex_high (c : ascii) : ascii := default NUL (hex_digits !! (nat_of_ascii c / 16)%nat).
Definition hex_low (c : ascii) : ascii := default NUL (hex_digits !! (nat_of_ascii c mod 16)%nat).
Definition hex_index (c : ascii) : nat := default 0%nat (find_first_of c hex_digits).
Definition unhex_pair (a b : ascii) : ascii := ascii_of_nat (hex_index a * 16 + hex_index b).
Fixpoint hex_text (s : bytes) : bytes := match s with [] => [] | c :: s => hex_high c :: hex_low c :: hex_text s end.
Fixpoint unhex_text (s : bytes) : bytes := match s with a :: b :: s => unhex_pair a b :: unhex_text s | _ => [] end.

Definition settings_ref : SettingsLib := {|
  ascii_string_path := bytes;
  path_empty := [];
  path_of t := t;
  path_text p := p;
  path_fileName p := p;
  path_directory p := [];
  path_equals p q := bool_decide (p = q);
  get_separator_string := lit "/";
  crc64 c s := List.fold_left (λ a x, (a * 31 + byte_val x) mod 2 ^ 64) s c;
  encode64 := hex_text;
  decode64 := unhex_text;
  LoggingDirectory := lit "/log/"
|}.

Definition base64_char (x : ascii) : bool := negb (Ascii.eqb x ",") && (32 <? byte_val x).

Lemma hex_byte_facts c :
  unhex_pair (hex_high c) (hex_low c) = c ∧ base64_char (hex_high c) = true ∧ base64_char (hex_low c) = true.
Proof.
  pose proof (ascii_sweep (λ c, bool_decide (unhex_pair (hex_high c) (hex_low c) = c) &&
    (base64_char (hex_high c) && base64_char (hex_low c)))) as Hs.
  specialize (Hs ltac:(by vm_compute) c). apply andb_true_iff in Hs as [Hs Hc].
  apply andb_true_iff in Hc. by apply bool_decide_eq_true in Hs.
Qed.

Lemma settings_ref_laws : @SettingsLaws settings_ref.
Proof.
  split; cbn [path_of path_text decode64 encode64 settings_ref]; [done| |].
  - induction s as [|c s IH]; [done|]. cbn [hex_text unhex_text]. by rewrite IH, (proj1 (hex_byte_facts c)).
  - assert (Hb : ∀ x, base64_char x = true → x ≠ ","%char ∧ 32 < byte_val x).
    { intros x [Hc Hx]%andb_true_iff. rewrite negb_true_iff, Ascii.eqb_neq in Hc. split; [done|lia]. }
    induction s as [|x s IH]; intros c Hin; [by apply elem_of_nil in Hin|]. cbn [hex_text] in Hin.
    destruct (hex_byte_facts x) as (_ & Hh & Hl).
    apply elem_of_cons in Hin as [->|[->|Hin]%elem_of_cons]; [by apply Hb..|by apply IH].
Qed.

(** A Redis connection and one of LevelDB. *)
Definition sample_config : RedisConfig.Config :=
  RedisConfig.with_host (mkHostAndPort (lit "localhost") 6380)
    (RedisConfig.with_auth (lit "secret") (@RedisConfig.default config_ref)).
Definition sample_ssh : SSHInfo :=
  mkSSHInfo (mkHostAndPort (lit "gate") 22) (lit "me") [] [] [] [] PASSWORD.
Definition sample_redis : @Settings settings_ref :=
  @mkSettings settings_ref (@mkIConnectionSettings settings_ref (lit "/work/main") REDIS 500)
    (@path_hash common_ref settings_ref (lit "/work/main")) (DRedis (RedisSettings.mk sample_config) sample_ssh).

(** A character that a concrete text does not contain. *)
Ltac absent := refine (bool_decide_unpack _ _); vm_compute; exact I.

Lemma sample_redis_plain :
  @settings_plain common_ref settings_ref sample_redis.
Proof.
  split; [by split|split; [absent|by vm_compute]|].
  split; [|split; [absent|]].
  - constructor; simpl.
    + vm_compute. by repeat split.
    + by vm_compute.
    + by vm_compute.
    + split_and!; by vm_compute.
    + by exists 0.
    + by vm_compute.
    + split_and!; [by left..|done].
    + split_and!; by left.
    + by left.
    + done.
    + done.
  - split; [|by vm_compute]. absent.
Qed.



(** Whatever text the factory is given, the settings it makes are well formed: the type is that of
    the object behind them, and the hash, which names the log file, is that of the path. *)
Theorem factory_makes_wellformed `{CommonLib} `{ConfigLib} `{SettingsLib} (val : bytes) (s : Settings)
    (Hs : CreateFromString val = Val (Some s)) : settings_wf s.
Proof. by eapply CreateFromString_wf. Qed.

Definition sample_ssdb : @Settings settings_ref :=
  @mkSettings settings_ref (@mkIConnectionSettings settings_ref (lit "p") SSDB 0)
    (@path_hash common_ref settings_ref (lit "p")) (DSsdb (@SsdbSettings.new config_ref)).

Lemma factory_makes_wellformed_witness :
  @CreateFromString common_ref config_ref settings_ref (lit "2,p,0,-h host -p 1") = Val (Some sample_ssdb) ∧
  @settings_wf common_ref settings_ref sample_ssdb.
Proof.
  assert (Hc : @CreateFromString common_ref config_ref settings_ref (lit "2,p,0,-h host -p 1") = Val (Some sample_ssdb))
    by (vm_cast_no_check (@eq_refl (outcome (option (@Settings settings_ref))) (Val (Some sample_ssdb)))).
  split; [exact Hc|]. exact (@factory_makes_wellformed common_ref config_ref settings_ref _ _ Hc).
Defined.

Definition sample_cluster : @IClusterSettingsBase settings_ref :=
  @mkCluster settings_ref (@mkIConnectionSettings settings_ref (lit "/work") REDIS 0) [sample_redis; sample_redis].

(** The text of a cluster gives back all its nodes; the last character of the text is taken for a
    separator, so that the last node loses the authentication method of its tunnel. *)
Theorem cluster_roundtrip `{CommonLaws} `{ConfigLaws} `{SettingsLaws} (c : IClusterSettingsBase)
    (Ht : type_ (cl_base c) = REDIS) (Hb : base_plain (cl_base c)) (Hn : Forall node_plain (clusters_nodes_ c)) :
  Cluster_CreateFromString (Cluster_ToString c)
  = Val (Some (mkCluster (cl_base c) (forget_last (clusters_nodes_ c)))).
Proof. by apply cluster_back. Qed.

Lemma cluster_roundtrip_witness :
  Forall (@node_plain common_ref settings_ref) (clusters_nodes_ sample_cluster) ∧
  @Cluster_CreateFromString common_ref config_ref settings_ref (@Cluster_ToString common_ref settings_ref sample_cluster)
  = Val (Some (@mkCluster settings_ref (cl_base sample_cluster) [sample_redis; @forget_method settings_ref sample_redis])).
Proof.
  assert (Hr : @node_plain common_ref settings_ref sample_redis) by (split; [exact sample_redis_plain|done|absent]).
  assert (Hn : Forall (@node_plain common_ref settings_ref) (clusters_nodes_ sample_cluster))
    by (apply Forall_cons_2; [exact Hr|apply Forall_cons_2; [exact Hr|apply Forall_nil_2]]).
  split; [exact Hn|].
  assert (Hb : @base_plain settings_ref (cl_base sample_cluster)) by (split; [absent|by vm_compute]).
  exact (@cluster_roundtrip common_ref common_ref_laws config_ref config_ref_laws settings_ref settings_ref_laws
           sample_cluster eq_refl Hb Hn).
Defined.
