(* ===== verification/NativeKv.v ===== *)
(** Keys in the order of their bytes, and what the connections of the stores with native libraries have in common. *)
From Stdlib Require Import Ascii String ZArith Lia.
From stdpp Require Import base list strings gmap sorting.
From S2P Require Import Prelude Common Texts Values Connection Translators.
Local Open Scope Z_scope.

(** Both sides of an equation evaluated by the machine. *)
Ltac by_running := match goal with |- _ = ?r => vm_cast_no_check (eq_refl r) end.

(** By the values of the bytes, a prefix first. *)
Fixpoint str_ltb (a b : bytes) : bool :=
  match a, b with
  | [], [] => false
  | [], _ :: _ => true
  | _ :: _, [] => false
  | x :: a, y :: b =>
    (byte_val x <? byte_val y) || (Ascii.eqb x y && str_ltb a b)
  end.

Definition str_lt (a b : bytes) : Prop := str_ltb a b = true.
Definition str_le (a b : bytes) : Prop := str_ltb b a = false.

#[export] Instance str_lt_dec : RelDecision str_lt := λ a b, decide (str_ltb a b = true).
#[export] Instance str_le_dec : RelDecision str_le := λ a b, decide (str_ltb b a = false).

Lemma byte_val_inj x y : byte_val x = byte_val y → x = y.
Proof.
  unfold byte_val. intros H. rewrite <- (ascii_nat_embedding x), <- (ascii_nat_embedding y). f_equal. lia.
Qed.

(** One step of the comparison. *)
Lemma str_lt_cons x a y b : str_lt (x :: a) (y :: b) ↔ byte_val x < byte_val y ∨ x = y ∧ str_lt a b.
Proof.
  unfold str_lt. cbn [str_ltb]. rewrite orb_true_iff, andb_true_iff, Z.ltb_lt, Ascii.eqb_eq. done.
Qed.

Lemma str_lt_nil_r a : ¬ str_lt a [].
Proof. by destruct a. Qed.

#[export] Instance str_lt_trans : Transitive str_lt.
Proof.
  intros a b c. revert b c. induction a as [|x a IH]; intros [|y b] [|z c]; try (done || by intros ?%str_lt_nil_r).
  rewrite !str_lt_cons. intros [Hxy|[-> Hab]] [Hyz|[-> Hbc]]; [left; lia|left; lia|left; lia|right; eauto].
Qed.

Lemma str_lt_irrefl a : ¬ str_lt a a.
Proof. induction a as [|x a IH]; [done|]. rewrite str_lt_cons. intros [?|[_ ?]]; [lia|done]. Qed.

Lemma str_trichotomy a b : str_lt a b ∨ a = b ∨ str_lt b a.
Proof.
  revert b. induction a as [|x a IH]; intros [|y b]; [auto|by left|by right; right|].
  rewrite !str_lt_cons. destruct (Z.lt_trichotomy (byte_val x) (byte_val y)) as [?|[->%byte_val_inj|?]]; [auto| |auto].
  destruct (IH b) as [?|[->|?]]; auto.
Qed.

Lemma str_le_not a b : str_le a b ↔ ¬ str_lt b a.
Proof. unfold str_le, str_lt. by destruct (str_ltb b a). Qed.

Lemma str_le_lt a b : str_le a b ↔ str_lt a b ∨ a = b.
Proof.
  rewrite str_le_not. split.
  - destruct (str_trichotomy a b) as [?|[?|?]]; auto. done.
  - intros [Hab| ->] Hba; [by destruct (str_lt_irrefl a); etrans|by destruct (str_lt_irrefl b)].
Qed.

#[export] Instance str_le_trans : Transitive str_le.
Proof. intros a b c [?| ->]%str_le_lt [?| ->]%str_le_lt; apply str_le_lt; eauto using str_lt_trans. Qed.

#[export] Instance str_le_total : Total str_le.
Proof. intros a b. rewrite !str_le_lt. destruct (str_trichotomy a b) as [?|[?|?]]; auto. Qed.

Lemma str_lt_le_trans a b c : str_lt a b → str_le b c → str_lt a c.
Proof. intros ? [?| ->]%str_le_lt; [by etrans|done]. Qed.

Lemma str_le_lt_trans a b c : str_le a b → str_lt b c → str_lt a c.
Proof. intros [?| ->]%str_le_lt ?; [by etrans|done]. Qed.

(** * Records in order *)

Abbreviation kv_map := (@gmap (list ascii) (@list_eq_dec ascii Ascii.eq_dec) (@list_countable ascii Ascii.eq_dec Ascii.countable) (list ascii)).
Implicit Types (m : kv_map) (l : list bytes).
Definition sorted_keys m : list bytes := merge_sort str_le (elements (dom m)).
Definition sorted_records m : list (bytes * bytes) := List.map (λ k, (k, default [] (m !! k))) (sorted_keys m).


(** Those not before [start], when there is one. *)
Definition from (start : option bytes) (k : bytes) : bool :=
  match start with None => true | Some s => negb (str_ltb k s) end.
Definition records_from (start : option bytes) m : list (bytes * bytes) :=
  List.filter (λ kv, from start kv.1) (sorted_records m).

Abbreviation ascending := (StronglySorted str_lt).

Lemma elem_of_sorted_keys k m : k ∈ sorted_keys m ↔ is_Some (m !! k).
Proof. unfold sorted_keys. rewrite merge_sort_Permutation, elem_of_elements. apply elem_of_dom. Qed.

Lemma length_sorted_keys m : length (sorted_keys m) = size m.
Proof. unfold sorted_keys. rewrite merge_sort_Permutation. apply size_dom. Qed.

Lemma sorted_NoDup_ascending l : StronglySorted str_le l → NoDup l → ascending l.
Proof.
  induction 1 as [|k l Hs IH Hk]; intros Hn; [constructor|]. apply NoDup_cons in Hn as [Hin Hn].
  constructor; [by apply IH|]. apply Forall_forall. intros j Hj.
  rewrite Forall_forall in Hk. by destruct (proj1 (str_le_lt k j) (Hk j Hj)) as [?| ->].
Qed.

Lemma sorted_keys_ascending m : ascending (sorted_keys m).
Proof.
  apply sorted_NoDup_ascending; [apply StronglySorted_merge_sort; apply _|].
  unfold sorted_keys. rewrite merge_sort_Permutation. apply NoDup_elements.
Qed.

Lemma map_fst_sorted_records m : (sorted_records m).*1 = sorted_keys m.
Proof. unfold sorted_records. induction (sorted_keys m) as [|k l IH]; simpl; by f_equal. Qed.

Lemma map_fst_records_from s m : (records_from s m).*1 = List.filter (from s) (sorted_keys m).
Proof.
  unfold records_from, sorted_records. induction (sorted_keys m) as [|k l IH]; simpl; [done|].
  destruct (from s k); simpl; by f_equal.
Qed.

(** ** Filters of ascending lists *)

Lemma ascending_filter f l : ascending l → ascending (List.filter f l).
Proof.
  induction 1 as [|k l Hs IH Hk]; simpl; [constructor|]. destruct (f k); [|done].
  constructor; [done|]. rewrite Forall_forall in *. intros j Hj%list_elem_of_In.
  apply Hk. apply list_elem_of_In. by apply filter_In in Hj as [? _].
Qed.

(** A limit from above cuts an ascending list. *)
Lemma filter_below_none e l : ascending l → match l with k :: _ => str_ltb k e = false | [] => True end →
  List.filter (λ k, str_ltb k e) l = [].
Proof.
  intros Hl He. destruct l as [|k l]; [done|]. simpl. rewrite He. inversion_clear Hl as [|? ? Hs Hk]. clear Hs.
  induction Hk as [|j l Hj Hl IH]; [done|]. simpl.
  assert (str_ltb j e = false) as ->; [|done].
  apply str_le_not. apply str_le_not in He. intros Hje. apply He. by etrans.
Qed.

Definition above (p : option bytes) (k : bytes) : bool :=
  match p with None => true | Some p => str_ltb p k end.

Lemma filter_all f l : (∀ k, k ∈ l → f k = true) → List.filter f l = l.
Proof.
  induction l as [|k l IH]; intros Hf; [done|]. simpl. rewrite Hf by set_solver. f_equal. apply IH. set_solver.
Qed.

(** The ranges of keys that [Keys] gives: with the start, and without. *)
Definition in_range (key_start key_end : bytes) (k : bytes) : bool :=
  negb (str_ltb k key_start) && str_ltb k key_end.

Definition strictly_between (key_start key_end : bytes) (k : bytes) : bool :=
  str_ltb key_start k && str_ltb k key_end.

Lemma filter_filter (f g : bytes → bool) l : List.filter f (List.filter g l) = List.filter (λ k, g k && f k) l.
Proof. induction l as [|k l IH]; simpl; [done|]. destruct (g k); simpl; [destruct (f k); by rewrite IH|done]. Qed.

(** The keys above one of them are those behind it. *)
Lemma filter_above_next p l : ascending l → ∀ k rest,
  List.filter (above p) l = k :: rest → List.filter (above (Some k)) l = rest.
Proof.
  induction 1 as [|j l Hs IH Hj]; intros k rest; [done|]. simpl.
  rewrite Forall_forall in Hj.
  assert (Hl : List.filter (above (Some j)) l = l) by (apply filter_all; intros i Hi; by apply Hj).
  destruct (above p j) eqn:Hp.
  - intros [= <- <-]. simpl in *. destruct (str_ltb j j) eqn:E; [by destruct (str_lt_irrefl j)|].
    rewrite Hl. symmetry. apply filter_all. intros i Hi. specialize (Hj i Hi).
    destruct p as [p|]; [|done]. simpl in *. unfold str_lt in Hj. by apply (str_lt_trans p j i).
  - intros Hk. destruct (str_ltb k j) eqn:E; [|by apply IH]. exfalso.
    assert (Hin : k ∈ l).
    { apply list_elem_of_In. apply (filter_In (above p)). rewrite Hk. by left. }
    destruct (str_lt_irrefl j). transitivity k; [by apply Hj|done].
Qed.

(** * Cursors

    The keys a cursor passes, from where it stands, when [next] is the key behind a position. *)
Fixpoint walk (next : option bytes → option bytes) (fuel : nat) (at_key : option bytes) : list bytes :=
  match fuel with
  | O => []
  | S fuel => match next at_key with None => [] | Some k => k :: walk next fuel (Some k) end
  end.

(** The key behind a position in the order of keys. *)
Definition next_key m (p : option bytes) : option bytes := head (List.filter (above p) (sorted_keys m)).

Lemma walk_above m next fuel : (∀ p, next p = next_key m p) → ∀ p,
  walk next fuel p = take fuel (List.filter (above p) (sorted_keys m)).
Proof.
  intros Hn. induction fuel as [|fuel IH]; intros p; [done|]. cbn [walk]. rewrite Hn. unfold next_key.
  destruct (List.filter (above p) (sorted_keys m)) as [|k rest] eqn:E; [done|]. simpl. f_equal.
  rewrite IH. f_equal. by apply (filter_above_next p); [apply sorted_keys_ascending|].
Qed.

Lemma walk_sorted m next : (∀ p, next p = next_key m p) → walk next (size m) None = sorted_keys m.
Proof.
  intros Hn. rewrite (walk_above m) by done. rewrite filter_all by done.
  rewrite <- length_sorted_keys. apply take_ge. lia.
Qed.

(** * Deleting keys one by one *)

Lemma ascending_NoDup l : ascending l → NoDup l.
Proof.
  induction 1 as [|k l Hs IH Hk]; constructor; [|done]. intros Hin. rewrite Forall_forall in Hk.
  by destruct (str_lt_irrefl k (Hk k Hin)).
Qed.

Lemma ascending_le l : ascending l → StronglySorted str_le l.
Proof.
  induction 1 as [|k l Hs IH Hk]; constructor; [done|]. eapply Forall_impl; [done|]. intros j ?. apply str_le_lt. by left.
Qed.

#[export] Instance str_le_antisymm : AntiSymm (=) str_le.
Proof.
  intros a b [Hab| ->]%str_le_lt Hba; [|done]. apply str_le_not in Hba. done.
Qed.

Lemma ascending_unique l1 l2 : ascending l1 → ascending l2 → (∀ k, k ∈ l1 ↔ k ∈ l2) → l1 = l2.
Proof.
  intros H1 H2 Hk. apply (StronglySorted_unique str_le); [by apply ascending_le..|].
  apply NoDup_Permutation; [by apply ascending_NoDup..|done].
Qed.

Lemma elem_of_filter_bool f l k : k ∈ List.filter f l ↔ k ∈ l ∧ f k = true.
Proof. by rewrite !list_elem_of_In, filter_In. Qed.

(** Deleting a key changes nothing above it. *)
Lemma filter_above_delete m k :
  List.filter (above (Some k)) (sorted_keys (delete k m)) = List.filter (above (Some k)) (sorted_keys m).
Proof.
  apply ascending_unique; [apply ascending_filter, sorted_keys_ascending..|]. intros j.
  rewrite !elem_of_filter_bool, !elem_of_sorted_keys. destruct (decide (j = k)) as [->|Hj].
  - simpl. pose proof (str_lt_irrefl k). unfold str_lt in *. naive_solver.
  - by rewrite lookup_delete_ne.
Qed.

Definition delete_keys l m : kv_map := List.fold_left (λ m k, delete k m) l m.

Lemma lookup_delete_keys l : ∀ m k, delete_keys l m !! k = if decide (k ∈ l) then None else m !! k.
Proof.
  unfold delete_keys. induction l as [|j l IH]; intros m k; cbn [List.fold_left].
  { by rewrite decide_False by set_solver. }
  rewrite IH. destruct (decide (k ∈ l)); [by rewrite decide_True by set_solver|].
  destruct (decide (k = j)) as [->|]; [by rewrite lookup_delete_eq, decide_True by set_solver|].
  rewrite lookup_delete_ne, decide_False by set_solver. done.
Qed.

Lemma delete_sorted_keys m : delete_keys (sorted_keys m) m = ∅.
Proof.
  apply map_eq. intros k. rewrite lookup_delete_keys, lookup_empty. case_decide as Hk; [done|].
  rewrite elem_of_sorted_keys in Hk. by apply eq_None_not_Some.
Qed.


(** * Shared code

    [GetInner], [SetInner] and [DelInner] of the database, which look at the connection first, and
    [DBkcount]; [GetInner] also returns what [*ret_val] receives. *)
Class InnerOps (Cfg H W : Type) := {
  GetInner : bytes → CDBConnection Cfg H W → Error * bytes * CDBConnection Cfg H W;
  SetInner : bytes → bytes → CDBConnection Cfg H W → Error * CDBConnection Cfg H W;
  DelInner : bytes → CDBConnection Cfg H W → Error * CDBConnection Cfg H W;
  inner_DBkcount : CDBConnection Cfg H W → Error * Z * CDBConnection Cfg H W
}.

Section Impl.
Context {Cfg H W : Type} `{ConnectionTraits Cfg H W} `{InnerOps Cfg H W} `{CommonLib} `{Project}.
Implicit Types c : CDBConnection Cfg H W.

(** The error of [DBkcount] is not looked at in a release build; the count is 0 then. *)
Definition inner_SelectImpl (name : bytes) c : outcome (Error * option IDataBaseInfo * CDBConnection Cfg H W) :=
  let '(err, kcount, c) := inner_DBkcount c in
  let kcount := if isError err then 0 else kcount in
  Val (no_error, Some (mkIDataBaseInfo name true kcount []), c).

(** A key that cannot be deleted is passed over. *)
Fixpoint inner_DeleteImpl (keys deleted_keys : list NKey) c :
    outcome (Error * list NKey * CDBConnection Cfg H W) :=
  match keys with
  | [] => Val (no_error, deleted_keys, c)
  | key :: keys =>
    let '(err, c) := DelInner (key_ key) c in
    inner_DeleteImpl keys (if isError err then deleted_keys else deleted_keys ++ [key]) c
  end.

Definition inner_SetImpl (key added_key : NDbKValue) c : outcome (Error * NDbKValue * CDBConnection Cfg H W) :=
  let '(err, c) := SetInner (KeyString key) (ValueString key) c in
  if isError err then Val (err, added_key, c) else Val (no_error, key, c).

Definition inner_GetImpl (key : NKey) (loaded_key : NDbKValue) c :
    outcome (Error * NDbKValue * CDBConnection Cfg H W) :=
  let '(err, value_str, c) := GetInner (key_ key) c in
  if isError err then Val (err, loaded_key, c)
  else Val (no_error, mkNDbKValue key (Some (VString value_str)), c).

Definition inner_RenameImpl (key : NKey) (new_key : bytes) c : outcome (Error * CDBConnection Cfg H W) :=
  let '(err, value_str, c) := GetInner (key_ key) c in
  if isError err then Val (err, c)
  else
    let '(err, c) := DelInner (key_ key) c in
    if isError err then Val (err, c)
    else
      let '(err, c) := SetInner new_key value_str c in
      if isError err then Val (err, c) else Val (no_error, c).

(** The name of the database in the text differs. *)
Definition inner_SetTTLImpl (database : string) (key : NKey) (ttl : Z) c :
    outcome (Error * CDBConnection Cfg H W) :=
  Val (make_error_value (lit "Sorry, but now " ++ project_title ++ lit " for " ++ lit database ++
                         lit " not supported TTL commands.") E_ERROR, c).

Definition inner_QuitImpl c : outcome (Error * CDBConnection Cfg H W) :=
  let '(err, c) := Disconnect c in
  if isError err then Val (err, c) else Val (no_error, c).

Definition inner_impl (database : string) : CDBImpl Cfg H W := {|
  SelectImpl := inner_SelectImpl;
  DeleteImpl := inner_DeleteImpl;
  SetImpl := inner_SetImpl;
  GetImpl := inner_GetImpl;
  RenameImpl := inner_RenameImpl;
  SetTTLImpl := inner_SetTTLImpl database;
  QuitImpl := inner_QuitImpl
|}.
End Impl.

(** What [common::file_system] says of paths. *)
Class NativeFiles (W : Type) := {
  is_directory : bytes → W → bool;
  get_dir_path : bytes → bytes
}.

(** * Access to the parts of a connection *)

Section Access.
Context {Cfg H W : Type}.
Implicit Types c : CDBConnection Cfg H W.

Definition native_world c : W := world_ (connection_ c).
Definition set_world (w : W) c : CDBConnection Cfg H W :=
  let k := connection_ c in set_connection c (mkConnection (config_ k) (handle_ k) w).

(** [connection_.handle_], which [IsConnected] has found not to be null. *)
Definition on_open {A} `{ConnectionTraits Cfg H W} `{CommonLib} (otherwise : Error → A) (f : H → A) c : A :=
  match IsConnected c, handle_ (connection_ c) with
  | true, Some h => f h
  | _, _ => otherwise not_connected
  end.
End Access.

(** * Cursors *)

(** The loop of [Keys] over a cursor: both limits are excluded. *)
Fixpoint keys_between_loop (keys : list bytes) (key_start key_end : bytes) (limit : Z) (ret : list bytes) :
    list bytes :=
  match keys with
  | [] => ret
  | key :: keys =>
    if limit >? Z.of_nat (length ret) then
      keys_between_loop keys key_start key_end limit
        (if str_ltb key_start key && str_ltb key key_end then ret ++ [key] else ret)
    else ret
  end.

Lemma keys_between_loop_take ks ke limit : 0 <= limit → ∀ keys ret, Z.of_nat (length ret) <= limit →
  keys_between_loop keys ks ke limit ret = take (Z.to_nat limit) (ret ++ List.filter (strictly_between ks ke) keys).
Proof.
  intros Hlim. induction keys as [|k keys IH]; intros ret Hret; cbn [keys_between_loop].
  { simpl. rewrite app_nil_r. symmetry. apply take_ge. lia. }
  rewrite Z.gtb_ltb. destruct (Z.ltb_spec (Z.of_nat (length ret)) limit).
  - rewrite IH; [|destruct (str_ltb ks k && _); rewrite ?length_app; simpl; lia]. simpl. unfold strictly_between at 2.
    destruct (str_ltb ks k && str_ltb k ke); [by rewrite <- app_assoc|done].
  - rewrite take_app_le, take_ge by lia. done.
Qed.

(** * Specification

    A store is a finite map.  When the library cannot fail, the results are those of the map; [broken] says
    that it can, and then an operation may end in an error, which leaves the map as it was.  Only renaming,
    which deletes before it writes, may lose the key. *)

Section Spec.
Context `{CommonLib} (broken : Prop).

(** A key that is missing may be reported as deleted. *)
Inductive deletes : list NKey → list NKey → kv_map → kv_map → Prop :=
| deletes_nil m : deletes [] [] m m
| deletes_key k ks ds m m' : deletes ks ds (delete (key_ k) m) m' → deletes (k :: ks) (k :: ds) m m'
| deletes_skip k ks ds m m' :
    m !! key_ k = None ∨ broken → deletes ks ds m m' → deletes (k :: ks) ds m m'.

(** One operation on a connected store: result, notification and the map behind it. *)
Inductive kv_step m : cdb_op → Error * client_event → kv_map → Prop :=
| kv_select nm n : n = Z.of_nat (size m) ∨ broken →
    kv_step m (OpSelect nm) (no_error, OnCurrentDataBaseChanged (Some (mkIDataBaseInfo nm true n []))) m
| kv_delete ks ds m' : deletes ks ds m m' → kv_step m (OpDelete ks) (no_error, OnKeysRemoved ds) m'
| kv_set kv : kv_step m (OpSet kv) (no_error, OnKeyAdded kv) (<[KeyString kv := ValueString kv]> m)
| kv_set_error kv e a : isError e = true → broken → kv_step m (OpSet kv) (e, OnKeyAdded a) m
| kv_get k v : m !! key_ k = Some v → kv_step m (OpGet k) (no_error, OnKeyLoaded (mkNDbKValue k (Some (VString v)))) m
| kv_get_error k e (l : NDbKValue) : isError e = true → m !! key_ k = None ∨ broken → kv_step m (OpGet k) (e, OnKeyLoaded l) m
| kv_rename k n v : m !! key_ k = Some v →
    kv_step m (OpRename k n) (no_error, OnKeyRenamed k n) (<[n := v]> (delete (key_ k) m))
| kv_rename_error k n e : isError e = true → m !! key_ k = None ∨ broken →
    kv_step m (OpRename k n) (e, OnKeyRenamed k n) m
| kv_rename_lost k n v e : m !! key_ k = Some v → isError e = true → broken →
    kv_step m (OpRename k n) (e, OnKeyRenamed k n) (delete (key_ k) m)
| kv_ttl k t e : isError e = true → kv_step m (OpSetTTL k t) (e, OnKeyTTLChanged k t) m.

Inductive kv_steps m : list cdb_op → list (Error * client_event) → kv_map → Prop :=
| kv_done : kv_steps m [] [] m
| kv_more op ops r rs m1 m2 : kv_step m op r m1 → kv_steps m1 ops rs m2 → kv_steps m (op :: ops) (r :: rs) m2.
End Spec.

(** * Refinement

    What the three accesses promise; [content] is the map of an open store. *)
Section Open.
Context {Cfg H W : Type} `{ConnectionTraits Cfg H W} `{CommonLib} (content : H → W → kv_map).

(** The connection is open, and its store contains [m]. *)
Record open_at (m : kv_map) (c : CDBConnection Cfg H W) : Prop := {
  open_connected : IsConnected c = true;
  open_content : ∃ h, handle_ (connection_ c) = Some h ∧ content h (native_world c) = m
}.

(** An open connection is taken apart, and put together. *)
Lemma open_handle m c : open_at m c →
  ∃ h, handle_ (connection_ c) = Some h ∧ content h (native_world c) = m ∧
       ∀ A (o : Error → A) f, on_open o f c = f h.
Proof.
  intros [Hc (h & Hh & Hm)]. exists h. split_and!; [done..|]. intros A o f. unfold on_open. by rewrite Hc, Hh.
Qed.

Lemma open_set_world m c h w : (∀ h w, traits_IsConnected (Some h) w = true) →
  handle_ (connection_ c) = Some h → content h w = m → open_at m (set_world w c).
Proof. intros Hc Hh Hm. split; [|by exists h]. unfold IsConnected, Connection_IsConnected. simpl. by rewrite Hh. Qed.
End Open.

Class InnerLaws (Cfg H W : Type) `{ConnectionTraits Cfg H W} `{!InnerOps Cfg H W} `{CommonLib} := {
  content : H → W → kv_map;
  (** The library has calls that fail. *)
  broken : Prop;
  GetInner_law m k c e v c' :
    open_at content m c → GetInner k c = (e, v, c') →
    open_at content m c' ∧ (if isError e then m !! k = None ∨ broken else m !! k = Some v);
  SetInner_law m k v c e c' :
    open_at content m c → SetInner k v c = (e, c') →
    open_at content (if isError e then m else <[k := v]> m) c' ∧ (isError e = true → broken);
  DelInner_law m k c e c' :
    open_at content m c → DelInner k c = (e, c') →
    open_at content (if isError e then m else delete k m) c' ∧ (isError e = true → m !! k = None ∨ broken);
  DBkcount_law m c e n c' :
    open_at content m c → inner_DBkcount c = (e, n, c') →
    open_at content m c' ∧ (if isError e then broken else n = Z.of_nat (size m))
}.

(** A session of operations on an open connection takes the steps of the specification. *)
Definition session_refines {Cfg H W} `{ConnectionTraits Cfg H W} `{CDBImpl Cfg H W} `{CommonLib}
    (content : H → W → kv_map) (broken : Prop) : Prop :=
  ∀ ops m (c : CDBConnection Cfg H W), Forall (λ op, op ≠ OpQuit) ops → open_at content m c →
  ∃ rs c' m', run_ops ops c = Val (rs, c') ∧ kv_steps broken m ops rs m' ∧ open_at content m' c'.

Section Refinement.
Context {Cfg H W : Type} `{ConnectionTraits Cfg H W} `{!InnerOps Cfg H W} `{CommonLaws} `{Project}
  `{!InnerLaws Cfg H W} (database : string).
Implicit Types c : CDBConnection Cfg H W.

Local Instance impl : CDBImpl Cfg H W := inner_impl database.
Local Abbreviation opened := (open_at content).

Lemma open_notify m ev c : opened m c → opened m (notify ev c).
Proof. intros [Hc Hm]. by split. Qed.

Lemma DeleteImpl_deletes m ks : ∀ ds c, opened m c →
  ∃ gone m' c', inner_DeleteImpl ks ds c = Val (no_error, ds ++ gone, c') ∧ deletes broken ks gone m m' ∧ opened m' c'.
Proof.
  revert m. induction ks as [|k ks IH]; intros m ds c Hc; cbn [inner_DeleteImpl].
  - exists [], m, c. rewrite app_nil_r. split_and!; [done|constructor|done].
  - destruct (DelInner (key_ k) c) as [e c1] eqn:E. apply (DelInner_law m) in E as [E Hb]; [|done].
    destruct (isError e).
    + destruct (IH m ds c1 E) as (gone & m' & c' & -> & Hd & Ho). exists gone, m', c'.
      split_and!; [done|by constructor; [apply Hb|]|done].
    + destruct (IH _ (ds ++ [k]) c1 E) as (gone & m' & c' & -> & Hd & Ho). exists (k :: gone), m', c'.
      rewrite <- app_assoc. split_and!; [done|by constructor|done].
Qed.

(** Each operation does one step of the specification. *)
Definition does_step (op : cdb_op) m c : Prop :=
  ∃ e ev c' m', run_op op c = Val (e, ev, c') ∧ kv_step broken m op (e, ev) m' ∧ opened m' c'.

Lemma select_step m nm c : opened m c → does_step (OpSelect nm) m c.
Proof.
  intros Ho. pose proof (open_connected _ _ _ Ho) as Hcon. unfold does_step. cbn [run_op]. unfold Select. rewrite Hcon.
  cbn [negb SelectImpl impl inner_impl]. unfold inner_SelectImpl.
  destruct (inner_DBkcount c) as [[e n] c1] eqn:E. apply (DBkcount_law m) in E as [E Hn]; [|done].
  cbn [mbind outcome_bind]. do 4 eexists. split_and!; [done| |by apply open_notify].
  constructor. destruct (isError e); auto.
Qed.

Lemma set_step m kv c : opened m c → does_step (OpSet kv) m c.
Proof.
  intros Ho. pose proof (open_connected _ _ _ Ho) as Hcon. unfold does_step. cbn [run_op]. unfold Set_. rewrite Hcon.
  cbn [negb SetImpl impl inner_impl]. unfold inner_SetImpl.
  destruct (SetInner _ _ c) as [e c1] eqn:E. apply (SetInner_law m) in E as [E Hb]; [|done].
  destruct (isError e) eqn:He; cbn [mbind outcome_bind]; rewrite ?He; do 4 eexists.
  - split_and!; [done|by constructor; [|apply Hb]|done].
  - split_and!; [done|constructor|by apply open_notify].
Qed.

Lemma get_step m k c : opened m c → does_step (OpGet k) m c.
Proof.
  intros Ho. pose proof (open_connected _ _ _ Ho) as Hcon. unfold does_step. cbn [run_op]. unfold Get. rewrite Hcon.
  cbn [negb GetImpl impl inner_impl]. unfold inner_GetImpl.
  destruct (GetInner _ c) as [[e v] c1] eqn:E. apply (GetInner_law m) in E as [E Hv]; [|done].
  destruct (isError e) eqn:He; cbn [mbind outcome_bind]; rewrite ?He; do 4 eexists.
  - split_and!; [done|by constructor|done].
  - split_and!; [done|by constructor|by apply open_notify].
Qed.

Lemma rename_step m k n c : opened m c → does_step (OpRename k n) m c.
Proof.
  intros Ho. pose proof (open_connected _ _ _ Ho) as Hcon. unfold does_step. cbn [run_op]. unfold Rename. rewrite Hcon.
  cbn [negb RenameImpl impl inner_impl]. unfold inner_RenameImpl.
  destruct (GetInner _ c) as [[e v] c1] eqn:E. apply (GetInner_law m) in E as [E Hv]; [|done].
  destruct (isError e) eqn:He; cbn [mbind outcome_bind].
  { rewrite He. do 4 eexists. split_and!; [done|by constructor|done]. }
  destruct (DelInner _ c1) as [e2 c2] eqn:E2. apply (DelInner_law m) in E2 as [E2 Hb2]; [|done].
  destruct (isError e2) eqn:He2; cbn [mbind outcome_bind].
  { rewrite He2. do 4 eexists. split_and!; [done|by constructor; [|apply Hb2]|done]. }
  destruct (SetInner _ _ c2) as [e3 c3] eqn:E3. apply (SetInner_law (delete (key_ k) m)) in E3 as [E3 Hb3]; [|done].
  destruct (isError e3) eqn:He3; cbn [mbind outcome_bind].
  { rewrite He3. do 4 eexists. split_and!; [done|by eapply kv_rename_lost; [..|apply Hb3]|done]. }
  do 4 eexists. split_and!; [done|by constructor|by apply open_notify].
Qed.

Lemma run_op_step m op c : op ≠ OpQuit → opened m c → does_step op m c.
Proof.
  intros Hq Ho. pose proof (open_connected _ _ _ Ho) as Hcon.
  destruct op as [nm|ks|kv|k|k n|k t|]; [by apply select_step| |by apply set_step|by apply get_step|by apply rename_step| |done];
    unfold does_step; cbn [run_op]; unfold Delete, SetTTL; rewrite Hcon; cbn [negb DeleteImpl SetTTLImpl impl inner_impl].
  - destruct (DeleteImpl_deletes m ks [] c Ho) as (gone & m' & c' & -> & Hd & Ho'). cbn [mbind outcome_bind app].
    do 4 eexists. split_and!; [done|by constructor|by apply open_notify].
  - unfold inner_SetTTLImpl. cbn [mbind outcome_bind]. rewrite isError_make_error.
    do 4 eexists. split_and!; [done|constructor; apply isError_make_error|done].
Qed.

Lemma run_ops_steps : session_refines content broken.
Proof.
  intros ops. induction ops as [|op ops IH]; intros m c Hq Ho.
  - exists [], c, m. split_and!; [done|constructor|done].
  - apply Forall_cons in Hq as [Hop Hq]. destruct (run_op_step m op c Hop Ho) as (e & ev & c1 & m1 & Hr & Hs & Ho1).
    destruct (IH m1 c1 Hq Ho1) as (rs & c' & m' & Hrs & Hss & Ho'). exists ((e, ev) :: rs), c', m'.
    cbn [run_ops]. rewrite Hr. cbn [mbind outcome_bind]. rewrite Hrs. split_and!; [done|by econstructor|done].
Qed.
End Refinement.
