(* ===== verification/LsmConn.v ===== *)
(** The connections of LevelDB and RocksDB: [core/leveldb/db_connection.cpp] and
    [core/rocksdb/db_connection.cpp], over the interface that the two libraries share. *)
From Stdlib Require Import Ascii String ZArith Lia.
From stdpp Require Import base list strings gmap sorting.
From S2P Require Import Prelude Common Texts Values Commands Connection Translators KvApi Configs ServerInfo StoreInfos NativeKv.
Local Open Scope Z_scope.
#[local] Set Warnings "-register-all".

(** A [Status]: [None] when it is ok, its text otherwise. *)
Abbreviation status := (option bytes).

(** The library.  An iterator is the records it passes, in order, from the first one or from the first
    one not before a key; [lsm_status] is its status after so many of them.  [lsm_Open] is given
    [options.create_if_missing]. *)
Class LsmLib (H W : Type) := {
  lsm_Open : bool → bytes → W → status * option H * W;
  lsm_close : H → W → W;
  lsm_Get : H → bytes → W → status * bytes;
  lsm_Put : H → bytes → bytes → W → status * W;
  lsm_Delete : H → bytes → W → status * W;
  lsm_MultiGet : H → list bytes → W → list status * list bytes;
  lsm_Merge : H → bytes → bytes → W → status * W;
  lsm_Seek : H → option bytes → W → list (bytes * bytes);
  lsm_status : H → option bytes → nat → W → status;
  lsm_GetProperty : H → bytes → W → option bytes
}.

Section Lsm.
Context {H W : Type} `{LsmLib H W} `{NativeFiles W} `{CommonLib} `{ConfigLib}.
Local Abbreviation conn := (CDBConnection LocalConfig H W).
Implicit Types (c : conn) (w : W).

Definition status_error (text : string) (s : bytes) : Error :=
  make_error_value (MemSPrintf (lit text) [FStr s]) E_ERROR.

(** ** Connecting *)

Definition lsm_CreateConnection (failed : string) (config : LocalConfig) w : Error * option H * W :=
  let folder := lc_dbname config in
  let folder := if is_directory folder w then folder else get_dir_path folder in
  let '(st, lcontext, w) := lsm_Open (lc_create_if_missing config) folder w in
  match st with
  | Some text => (status_error failed text, None, w)
  | None => (no_error, lcontext, w)
  end.

Definition lsm_TestConnection (failed : string) (settings : option LocalConfig) w : Error * W :=
  match settings with
  | None => (invalid_arguments, w)
  | Some config =>
    let '(er, ldb, w) := lsm_CreateConnection failed config w in
    if isError er then (er, w)
    else (no_error, match ldb with Some h => lsm_close h w | None => w end)
  end.

Definition lsm_traits (failed : string) (default : LocalConfig) : ConnectionTraits LocalConfig H W := {|
  traits_Connect config w :=
    let '(er, context, w) := lsm_CreateConnection failed config w in
    if isError er then (er, None, w) else (no_error, context, w);
  traits_Disconnect handle w := (no_error, None, match handle with Some h => lsm_close h w | None => w end);
  traits_IsConnected handle w := match handle with Some _ => true | None => false end;
  config_default := default;
  config_delimiter := lc_delimiter;
  config_ns_separator := lc_ns_separator
|}.

Context `{ConnectionTraits LocalConfig H W}.

(** ** Records *)

(** An access through the handle that has a status. *)
Definition lsm_call (text : string) (f : H → W → status * W) c : Error * conn :=
  on_open (λ e, (e, c))
    (λ h, let '(st, w) := f h (native_world c) in
          let c := set_world w c in
          match st with Some t => (status_error text t, c) | None => (no_error, c) end) c.

Definition lsm_DelInner (key : bytes) : conn → Error * conn :=
  lsm_call "del function error: %s" (λ h w, lsm_Delete h key w).
Definition lsm_SetInner (key value : bytes) : conn → Error * conn :=
  lsm_call "set function error: %s" (λ h w, lsm_Put h key value w).

Definition lsm_GetInner (key : bytes) c : Error * bytes * conn :=
  on_open (λ e, (e, [], c))
    (λ h, let '(st, value) := lsm_Get h key (native_world c) in
          match st with
          | Some t => (status_error "get function error: %s" t, value, c)
          | None => (no_error, value, c)
          end) c.

Definition lsm_DBkcount c : Error * Z * conn :=
  on_open (λ e, (e, 0, c))
    (λ h, let sz := length (lsm_Seek h None (native_world c)) in
          match lsm_status h None sz (native_world c) with
          | Some t => (status_error "Couldn't determine DBKCOUNT error: %s" t, 0, c)
          | None => (no_error, Z.of_nat sz, c)
          end) c.

(** The loop of [Keys]; it also counts the records passed. *)
Fixpoint lsm_keys_loop (entries : list (bytes * bytes)) (key_end : bytes) (limit : Z) (ret : list bytes)
    (passed : nat) : list bytes * nat :=
  match entries with
  | [] => (ret, passed)
  | (key, _) :: entries =>
    if str_ltb key key_end then
      if Z.of_nat (length ret) <? limit then lsm_keys_loop entries key_end limit (ret ++ [key]) (S passed)
      else (ret, passed)
    else (ret, passed)
  end.

Definition lsm_Keys (key_start key_end : bytes) (limit : Z) (ret : list bytes) c : Error * list bytes * conn :=
  on_open (λ e, (e, ret, c))
    (λ h, let w := native_world c in
          let '(ret, passed) := lsm_keys_loop (lsm_Seek h (Some key_start) w) key_end limit ret 0 in
          match lsm_status h (Some key_start) passed w with
          | Some t => (status_error "Keys function error: %s" t, ret, c)
          | None => (no_error, ret, c)
          end) c.

Definition lsm_Help (argc : Z) (argv : argv_t) c : Error * conn := (NotSupported (lit "HELP"), c).

(** The iterator keeps to the state it was made in. *)
Fixpoint lsm_flush_loop (h : H) (entries : list (bytes * bytes)) w : status * W :=
  match entries with
  | [] => (None, w)
  | (key, _) :: entries =>
    let '(st, w) := lsm_Delete h key w in
    match st with Some t => (Some t, w) | None => lsm_flush_loop h entries w end
  end.

Definition lsm_Flushdb c : Error * conn :=
  on_open (λ e, (e, c))
    (λ h, let w := native_world c in
          let entries := lsm_Seek h None w in
          let '(st, w') := lsm_flush_loop h entries w in
          let c := set_world w' c in
          match st with
          | Some t => (status_error "del function error: %s" t, c)
          | None =>
            match lsm_status h None (length entries) w with
            | Some t => (status_error "Keys function error: %s" t, c)
            | None => (no_error, c)
            end
          end) c.

(** ** Statistics

    The blanks of [strtok] end the numbers, and the first five are stored. *)
Definition blank_tokens (s : bytes) : list bytes := split_on " " (c_str s) [].

Definition lsm_property (property : string) (header : bytes) c : Error * option (list bytes) :=
  on_open (λ e, (e, None))
    (λ h, match lsm_GetProperty h (lit property) (native_world c) with
          | None => (make_error_value (lit "info function failed") E_ERROR, None)
          | Some rets =>
            (no_error,
             Some (if (length header + 1 <? length rets)%nat then blank_tokens (drop (length header + 1) rets) else []))
          end) c.

Definition numbers_at (tokens : list bytes) (pos : nat) : Z :=
  match tokens !! pos with Some t => FromString_uint32 t | None => 0 end.
End Lsm.

(** * LevelDB *)

Module LeveldbConn.
Section Conn.
Context {H W : Type} `{LsmLib H W} `{NativeFiles W} `{CommonLib} `{ConfigLib} `{Project}.
Local Abbreviation conn := (CDBConnection LocalConfig H W).

Definition LEVELDB_HEADER_STATS : bytes :=
  lit "                               Compactions" ++ [chr_nl] ++
  lit "Level  Files Size(MB) Time(sec) Read(MB) Write(MB)" ++ [chr_nl] ++
  lit "--------------------------------------------------" ++ [chr_nl].

Definition CreateConnection := lsm_CreateConnection (H := H) (W := W) "Fail connect to server: %s!".
Definition TestConnection := lsm_TestConnection (H := H) (W := W) "Fail connect to server: %s!".

#[local] Instance traits : ConnectionTraits LocalConfig H W :=
  lsm_traits "Fail connect to server: %s!" LeveldbConfig.Config.

Definition VersionApi (major minor : Z) : bytes := MemSPrintf (lit "%d.%d") [FInt major; FInt minor].

Definition DBkcount : conn → Error * Z * conn := lsm_DBkcount.
Definition DelInner : bytes → conn → Error * conn := lsm_DelInner.
Definition SetInner : bytes → bytes → conn → Error * conn := lsm_SetInner.
Definition GetInner : bytes → conn → Error * bytes * conn := lsm_GetInner.
Definition Keys : bytes → bytes → Z → list bytes → conn → Error * list bytes * conn := lsm_Keys.
Definition Help : Z → argv_t → conn → Error * conn := lsm_Help.
Definition Flushdb : conn → Error * conn := lsm_Flushdb.

(** [statsout] is not null. *)
Definition Info (args : option bytes) (c : conn) : Error * LeveldbInfo.Stats * conn :=
  let '(e, tokens) := lsm_property "leveldb.stats" LEVELDB_HEADER_STATS c in
  match tokens with
  | None => (e, LeveldbInfo.Stats_default, c)
  | Some t =>
    (no_error,
     LeveldbInfo.mkStats (numbers_at t 0) (numbers_at t 1) (numbers_at t 2) (numbers_at t 3) (numbers_at t 4), c)
  end.

#[local] Instance inner : InnerOps LocalConfig H W := {|
  NativeKv.GetInner := GetInner; NativeKv.SetInner := SetInner; NativeKv.DelInner := DelInner; inner_DBkcount := DBkcount
|}.
Definition SelectImpl := inner_SelectImpl (Cfg := LocalConfig) (H := H) (W := W).
Definition DeleteImpl := inner_DeleteImpl (Cfg := LocalConfig) (H := H) (W := W).
Definition SetImpl := inner_SetImpl (Cfg := LocalConfig) (H := H) (W := W).
Definition GetImpl := inner_GetImpl (Cfg := LocalConfig) (H := H) (W := W).
Definition RenameImpl := inner_RenameImpl (Cfg := LocalConfig) (H := H) (W := W).
Definition SetTTLImpl := inner_SetTTLImpl (Cfg := LocalConfig) (H := H) (W := W) "LevelDB".
Definition QuitImpl := inner_QuitImpl (Cfg := LocalConfig) (H := H) (W := W).

#[local] Instance impl : CDBImpl LocalConfig H W := inner_impl "LevelDB".
#[local] Instance kv `{InfoLib} : KvOps LocalConfig H W := {|
  kv_stats := LeveldbInfo.Stats;
  Stats_ToString s := LeveldbInfo.ToString (LeveldbInfo.mkServerInfo s);
  kv_Info a c := Val (Info a c); kv_Keys := Keys; kv_DBkcount := DBkcount; kv_Help := Help
|}.
#[local] Instance flush : FlushOps LocalConfig H W := {| kv_Flushdb := Flushdb |}.
End Conn.
End LeveldbConn.

(** * RocksDB *)

Module RocksdbConn.
Section Conn.
Context {H W : Type} `{LsmLib H W} `{NativeFiles W} `{CommonLib} `{ConfigLib} `{Project}.
Local Abbreviation conn := (CDBConnection LocalConfig H W).

Definition ROCKSDB_HEADER_STATS : bytes :=
  [chr_nl] ++ lit "** Compaction Stats [default] **" ++ [chr_nl] ++
  lit "Level    Files   Size(MB) Score Read(GB)  Rn(GB) Rnp1(GB) Write(GB) Wnew(GB) Moved(GB) W-Amp Rd(MB/s) Wr(MB/s) Comp(sec) Comp(cnt) Avg(sec) Stall(cnt)  KeyIn KeyDrop"
  ++ [chr_nl] ++ List.repeat "-"%char 165 ++ [chr_nl].

Definition CreateConnection := lsm_CreateConnection (H := H) (W := W) "Fail open database: %s!".
Definition TestConnection := lsm_TestConnection (H := H) (W := W) "Fail open database: %s!".

#[local] Instance traits : ConnectionTraits LocalConfig H W :=
  lsm_traits "Fail open database: %s!" RocksdbConfig.Config.

Definition DBkcount : conn → Error * Z * conn := lsm_DBkcount.
Definition DelInner : bytes → conn → Error * conn := lsm_DelInner.
Definition SetInner : bytes → bytes → conn → Error * conn := lsm_SetInner.
Definition GetInner : bytes → conn → Error * bytes * conn := lsm_GetInner.
Definition Keys : bytes → bytes → Z → list bytes → conn → Error * list bytes * conn := lsm_Keys.
Definition Help : Z → argv_t → conn → Error * conn := lsm_Help.
Definition Flushdb : conn → Error * conn := lsm_Flushdb.

Definition Info (args : option bytes) (c : conn) : Error * RocksdbInfo.Stats * conn :=
  let '(e, tokens) := lsm_property "rocksdb.stats" ROCKSDB_HEADER_STATS c in
  match tokens with
  | None => (e, RocksdbInfo.Stats_default, c)
  | Some t =>
    (no_error,
     RocksdbInfo.mkStats (numbers_at t 0) (numbers_at t 1) (numbers_at t 2) (numbers_at t 3) (numbers_at t 4), c)
  end.

(** One key that is found makes the call a success. *)
Definition Mget (keys ret : list bytes) (c : conn) : Error * list bytes * conn :=
  on_open (λ e, (e, ret, c))
    (λ h, let '(sts, ret) := lsm_MultiGet h keys (native_world c) in
          if existsb (λ st, match st with None => true | Some _ => false end) sts then (no_error, ret, c)
          else (make_error_value (lit "mget function unknown error") E_ERROR, ret, c)) c.

Definition Merge (key value : bytes) : conn → Error * conn :=
  lsm_call "merge function error: %s" (λ h w, lsm_Merge h key value w).

#[local] Instance inner : InnerOps LocalConfig H W := {|
  NativeKv.GetInner := GetInner; NativeKv.SetInner := SetInner; NativeKv.DelInner := DelInner; inner_DBkcount := DBkcount
|}.
Definition SelectImpl := inner_SelectImpl (Cfg := LocalConfig) (H := H) (W := W).
Definition DeleteImpl := inner_DeleteImpl (Cfg := LocalConfig) (H := H) (W := W).
Definition SetImpl := inner_SetImpl (Cfg := LocalConfig) (H := H) (W := W).
Definition GetImpl := inner_GetImpl (Cfg := LocalConfig) (H := H) (W := W).
Definition RenameImpl := inner_RenameImpl (Cfg := LocalConfig) (H := H) (W := W).
(** The text names SSDB. *)
Definition SetTTLImpl := inner_SetTTLImpl (Cfg := LocalConfig) (H := H) (W := W) "SSDB".
Definition QuitImpl := inner_QuitImpl (Cfg := LocalConfig) (H := H) (W := W).

#[local] Instance impl : CDBImpl LocalConfig H W := inner_impl "SSDB".
#[local] Instance kv `{InfoLib} : KvOps LocalConfig H W := {|
  kv_stats := RocksdbInfo.Stats;
  Stats_ToString s := RocksdbInfo.ToString (RocksdbInfo.mkServerInfo s);
  kv_Info a c := Val (Info a c); kv_Keys := Keys; kv_DBkcount := DBkcount; kv_Help := Help
|}.
#[local] Instance flush : FlushOps LocalConfig H W := {| kv_Flushdb := Flushdb |}.
#[local] Instance rocks : RocksOps LocalConfig H W := {| rocks_Mget := Mget; rocks_Merge := Merge |}.
End Conn.
End RocksdbConn.
