(* ===== verification/LmdbConn.v ===== *)
(** The connection of LMDB: [core/lmdb/db_connection.cpp]. *)
From Stdlib Require Import Ascii String ZArith Lia.
From stdpp Require Import base list strings gmap.
From S2P Require Import Prelude Common Texts Values Commands Connection Translators KvApi Configs RedisReply ServerInfo StoreInfos NativeKv.
Local Open Scope Z_scope.
#[local] Set Warnings "-register-all".

(** The library: environments [E], transactions [T], databases by number.  A cursor is the key it stands
    at, [None] before it is used; [mdb_entries] is the number of records that [mdb_stat] gives, and bounds
    the loops over a cursor.  [create_directory] is of the common library. *)
Class LmdbLib (E T W : Type) := {
  mdb_env_create : W → Z * E * W;
  mdb_env_open : E → option bytes → W → Z * W;
  mdb_env_close : E → W → W;
  mdb_txn_begin : E → bool → W → Z * option T * W;
  mdb_txn_commit : T → W → Z * W;
  mdb_txn_abort : option T → W → W;
  mdb_dbi_open : T → Z * Z * T;
  mdb_dbi_close : E → Z → W → W;
  mdb_get : T → Z → bytes → Z * bytes;
  mdb_put : T → Z → bytes → bytes → Z * T;
  mdb_del : T → Z → bytes → Z * T;
  mdb_cursor_open : T → Z → Z;
  mdb_cursor_next : T → Z → option bytes → option bytes;
  mdb_entries : T → Z → nat;
  mdb_strerror : Z → bytes;
  create_directory : option bytes → bool → W → Error * W
}.

Definition LMDB_OK : Z := 0.
Definition EACCES : Z := 13.

(** [struct lmdb] *)
Record lmdb (E : Type) := mkLmdb { env : E; dbir : Z }.
Arguments mkLmdb {E} _ _.
Arguments env {E} _.
Arguments dbir {E} _.

Module LmdbConn.
Section Conn.
Context {E T W : Type} `{LmdbLib E T W} `{NativeFiles W} `{CommonLib} `{CommonRedis} `{ConfigLib} `{Project}.
Local Abbreviation conn := (CDBConnection LocalConfig (lmdb E) W).
Implicit Types (c : conn) (w : W) (t : T).

Definition rc_error (text : string) (rc : Z) : Error :=
  make_error_value (MemSPrintf (lit text) [FStr (mdb_strerror rc)]) E_ERROR.

(** ** Connecting *)

(** An environment that could not be opened is not closed. *)
Definition lmdb_open (dbname : option bytes) (create_if_missing : bool) w : Z * option (lmdb E) * W :=
  let '(ready, w) :=
    if create_if_missing then
      let '(err, w) := create_directory dbname true w in
      (negb (isError err) && is_directory (default [] dbname) w, w)
    else (true, w) in
  if negb ready then (EACCES, None, w)
  else
    let '(rc, e, w) := mdb_env_create w in
    if negb (rc =? LMDB_OK) then (rc, None, w)
    else
      let '(rc, w) := mdb_env_open e dbname w in
      if negb (rc =? LMDB_OK) then (rc, None, w)
      else
        let '(rc, txn, w) := mdb_txn_begin e false w in
        match txn with
        | Some t =>
          if negb (rc =? LMDB_OK) then (rc, None, w)
          else
            let '(rc, dbi, t) := mdb_dbi_open t in
            let w := mdb_txn_abort (Some t) w in
            if negb (rc =? LMDB_OK) then (rc, None, w) else (rc, Some (mkLmdb e dbi), w)
        | None => (rc, None, w)
        end.

Definition lmdb_close (context : option (lmdb E)) w : W :=
  match context with
  | None => w
  | Some l => mdb_env_close (env l) (mdb_dbi_close (env l) (dbir l) w)
  end.

Definition CreateConnection (config : LocalConfig) w : Error * option (lmdb E) * W :=
  let folder := lc_dbname config in
  let folder := if is_directory folder w then folder else get_dir_path folder in
  let '(st, lcontext, w) := lmdb_open (c_strornull folder) (lc_create_if_missing config) w in
  if negb (st =? LMDB_OK) then (rc_error "Fail open database: %s" st, None, w) else (no_error, lcontext, w).

Definition TestConnection (settings : option LocalConfig) w : Error * W :=
  match settings with
  | None => (invalid_arguments, w)
  | Some config =>
    let '(er, ldb, w) := CreateConnection config w in
    if isError er then (er, w) else (no_error, lmdb_close ldb w)
  end.

#[local] Instance traits : ConnectionTraits LocalConfig (lmdb E) W := {|
  traits_Connect config w :=
    let '(er, context, w) := CreateConnection config w in
    if isError er then (er, None, w) else (no_error, context, w);
  traits_Disconnect handle w := (no_error, None, lmdb_close handle w);
  traits_IsConnected handle w := match handle with Some _ => true | None => false end;
  config_default := LmdbConfig.Config;
  config_delimiter := lc_delimiter;
  config_ns_separator := lc_ns_separator
|}.

Definition CurDb c : Z := match handle_ (connection_ c) with Some h => dbir h | None => 0 end.

(** ** Records *)

Definition Info (args : option bytes) c : Error * LmdbInfo.Stats * conn :=
  if negb (IsConnected c) then (not_connected, LmdbInfo.Stats_default, c)
  else (no_error, LmdbInfo.mkStats (lc_dbname (config_ (connection_ c))), c).

(** The transaction of an operation with a cursor: without one the error, and the transaction aborted. *)
Definition cursor_txn (h : lmdb E) (rdonly : bool) w : Z * option T * W :=
  let '(rc, txn, w) := mdb_txn_begin (env h) rdonly w in
  let rc := match txn with
            | Some t => if rc =? LMDB_OK then mdb_cursor_open t (dbir h) else rc
            | None => rc
            end in
  if negb (rc =? LMDB_OK) then (rc, None, mdb_txn_abort txn w) else (rc, txn, w).

(** The keys that [mdb_cursor_get(MDB_NEXT)] passes. *)
Definition cursor_keys (h : lmdb E) t : list bytes :=
  walk (mdb_cursor_next t (dbir h)) (mdb_entries t (dbir h)) None.

Definition DBkcount c : Error * Z * conn :=
  on_open (λ e, (e, 0, c))
    (λ h, let '(rc, txn, w) := cursor_txn h true (native_world c) in
          match txn with
          | None => (rc_error "DBKCOUNT function error: %s" rc, 0, set_world w c)
          | Some t => (no_error, Z.of_nat (length (cursor_keys h t)), set_world (mdb_txn_abort (Some t) w) c)
          end) c.

(** A change in a transaction of its own. *)
Definition write_txn (h : lmdb E) (f : T → Z * T) w : Z * W :=
  let '(rc, txn, w) := mdb_txn_begin (env h) false w in
  match txn with
  | Some t =>
    if rc =? LMDB_OK then
      let '(rc, t) := f t in
      if rc =? LMDB_OK then mdb_txn_commit t w else (rc, mdb_txn_abort (Some t) w)
    else (rc, w)
  | None => (rc, w)
  end.

Definition SetInner (key value : bytes) c : Error * conn :=
  on_open (λ e, (e, c))
    (λ h, let '(rc, w) := write_txn h (λ t, mdb_put t (dbir h) key value) (native_world c) in
          let c := set_world w c in
          if negb (rc =? LMDB_OK) then (rc_error "set function error: %s" rc, c) else (no_error, c)) c.

Definition GetInner (key : bytes) c : Error * bytes * conn :=
  on_open (λ e, (e, [], c))
    (λ h, let '(rc, txn, w) := mdb_txn_begin (env h) true (native_world c) in
          let '(rc, mval) := match txn with
                             | Some t => if rc =? LMDB_OK then mdb_get t (dbir h) key else (rc, [])
                             | None => (rc, [])
                             end in
          let c := set_world (mdb_txn_abort txn w) c in
          if negb (rc =? LMDB_OK) then (rc_error "get function error: %s" rc, [], c) else (no_error, mval, c)) c.

Definition DelInner (key : bytes) c : Error * conn :=
  on_open (λ e, (e, c))
    (λ h, let '(rc, w) := write_txn h (λ t, mdb_del t (dbir h) key) (native_world c) in
          let c := set_world w c in
          if negb (rc =? LMDB_OK) then (rc_error "delete function error: %s" rc, c) else (no_error, c)) c.

Definition Keys (key_start key_end : bytes) (limit : Z) (ret : list bytes) c : Error * list bytes * conn :=
  on_open (λ e, (e, ret, c))
    (λ h, let '(rc, txn, w) := cursor_txn h true (native_world c) in
          match txn with
          | None => (rc_error "Keys function error: %s" rc, ret, set_world w c)
          | Some t =>
            (no_error, keys_between_loop (cursor_keys h t) key_start key_end limit ret,
             set_world (mdb_txn_abort (Some t) w) c)
          end) c.

Definition Help (argc : Z) (argv : argv_t) c : Error * conn := (NotSupported (lit "HELP"), c).

(** Deletes what the cursor stands at; the result is that of the last deletion with the transaction and
    the number of records. *)
Fixpoint flush_loop (fuel : nat) (h : lmdb E) t (at_key : option bytes) (sz : nat) : Z * T * nat :=
  match fuel with
  | O => (LMDB_OK, t, sz)
  | S fuel =>
    match mdb_cursor_next t (dbir h) at_key with
    | None => (LMDB_OK, t, sz)
    | Some key =>
      let '(rc, t) := mdb_del t (dbir h) key in
      if negb (rc =? LMDB_OK) then (rc, t, S sz) else flush_loop fuel h t (Some key) (S sz)
    end
  end.

Definition Flushdb c : Error * conn :=
  on_open (λ e, (e, c))
    (λ h, let '(rc, txn, w) := cursor_txn h false (native_world c) in
          match txn with
          | None => (rc_error "flushdb function error: %s" rc, set_world w c)
          | Some t =>
            let '(rc, t, sz) := flush_loop (mdb_entries t (dbir h)) h t None 0 in
            if negb (rc =? LMDB_OK) then
              (rc_error "del function error: %s" rc, set_world (mdb_txn_abort (Some t) w) c)
            else if (sz =? 0)%nat then (no_error, set_world (mdb_txn_abort (Some t) w) c)
            else
              let '(rc, w) := mdb_txn_commit t w in
              let c := set_world w c in
              if negb (rc =? LMDB_OK) then (rc_error "commit function error: %s" rc, c) else (no_error, c)
          end) c.

#[local] Instance inner : InnerOps LocalConfig (lmdb E) W := {|
  NativeKv.GetInner := GetInner; NativeKv.SetInner := SetInner; NativeKv.DelInner := DelInner; inner_DBkcount := DBkcount
|}.
Definition SelectImpl := inner_SelectImpl (Cfg := LocalConfig) (H := lmdb E) (W := W).
Definition DeleteImpl := inner_DeleteImpl (Cfg := LocalConfig) (H := lmdb E) (W := W).
Definition SetImpl := inner_SetImpl (Cfg := LocalConfig) (H := lmdb E) (W := W).
Definition GetImpl := inner_GetImpl (Cfg := LocalConfig) (H := lmdb E) (W := W).
Definition RenameImpl := inner_RenameImpl (Cfg := LocalConfig) (H := lmdb E) (W := W).
Definition SetTTLImpl := inner_SetTTLImpl (Cfg := LocalConfig) (H := lmdb E) (W := W) "LMDB".
Definition QuitImpl := inner_QuitImpl (Cfg := LocalConfig) (H := lmdb E) (W := W).

#[local] Instance impl : CDBImpl LocalConfig (lmdb E) W := inner_impl "LMDB".
#[local] Instance kv `{InfoLib} : KvOps LocalConfig (lmdb E) W := {|
  kv_stats := LmdbInfo.Stats;
  Stats_ToString s := LmdbInfo.ToString (LmdbInfo.mkServerInfo s);
  kv_Info a c := Val (Info a c); kv_Keys := Keys; kv_DBkcount := DBkcount; kv_Help := Help
|}.
#[local] Instance flush : FlushOps LocalConfig (lmdb E) W := {| kv_Flushdb := Flushdb |}.
End Conn.
End LmdbConn.
