(* ===== verification/UnqliteConn.v ===== *)
(** The connection of UnQLite: [core/unqlite/db_connection.cpp]. *)
From Stdlib Require Import Ascii String ZArith Lia.
From stdpp Require Import base list strings gmap.
From S2P Require Import Prelude Common Texts Values Commands Connection Translators KvApi Configs RedisReply ServerInfo StoreInfos NativeKv.
Local Open Scope Z_scope.
#[local] Set Warnings "-register-all".

(** The results of the library that the source names; their numbers are the library's. *)
Inductive unqlite_rc :=
| UNQLITE_OK | UNQLITE_NOMEM | UNQLITE_ABORT | UNQLITE_IOERR | UNQLITE_CORRUPT | UNQLITE_LOCKED
| UNQLITE_BUSY | UNQLITE_DONE | UNQLITE_PERM | UNQLITE_NOTIMPLEMENTED | UNQLITE_NOTFOUND
| UNQLITE_NOOP | UNQLITE_INVALID | UNQLITE_EOF | UNQLITE_UNKNOWN | UNQLITE_LIMIT | UNQLITE_EXISTS
| UNQLITE_EMPTY | UNQLITE_COMPILE_ERR | UNQLITE_VM_ERR | UNQLITE_FULL | UNQLITE_CANTOPEN
| UNQLITE_READ_ONLY | UNQLITE_LOCKERR.

(** The library: handles [H], cursors [C].  A cursor is part of the state of the library, and the loops
    over one are bounded by [unqlite_entries], the number of records.  [unqlite_kv_fetch_callback] and
    [unqlite_kv_cursor_key_callback] say what the callback is given, when it is called. *)
Class UnqliteLib (H C W : Type) := {
  rc_value : unqlite_rc → Z;
  unqlite_open : bool → option bytes → W → Z * option H * W;
  unqlite_close : option H → W → W;
  unqlite_kv_store : H → bytes → bytes → W → Z * W;
  unqlite_kv_delete : H → bytes → W → Z * W;
  unqlite_kv_fetch_callback : H → bytes → W → Z * option bytes;
  unqlite_kv_cursor_init : H → W → Z * C * W;
  unqlite_kv_cursor_first_entry : C → W → W;
  unqlite_kv_cursor_valid_entry : C → W → bool;
  unqlite_kv_cursor_next_entry : C → W → W;
  unqlite_kv_cursor_key_callback : C → W → option bytes;
  unqlite_kv_cursor_release : H → C → W → W;
  unqlite_entries : H → W → nat
}.

Module UnqliteConn.
Section Conn.
Context {H C W : Type} `{UnqliteLib H C W} `{NativeFiles W} `{CommonLib} `{CommonRedis} `{ConfigLib} `{Project}.
Local Abbreviation conn := (CDBConnection LocalConfig H W).
Implicit Types (c : conn) (w : W) (cur : C).

Definition strerrors : list (unqlite_rc * string) := [
  (UNQLITE_NOMEM, "Out of memory");
  (UNQLITE_ABORT, "Another thread have released this instance");
  (UNQLITE_IOERR, "IO error");
  (UNQLITE_CORRUPT, "Corrupt pointer");
  (UNQLITE_LOCKED, "Forbidden Operation");
  (UNQLITE_BUSY, "The database file is locked");
  (UNQLITE_DONE, "Operation done");
  (UNQLITE_PERM, "Permission error");
  (UNQLITE_NOTIMPLEMENTED, "Method not implemented by the underlying Key/Value storage engine");
  (UNQLITE_NOTFOUND, "No such record");
  (UNQLITE_NOOP, "No such method");
  (UNQLITE_INVALID, "Invalid parameter");
  (UNQLITE_EOF, "End Of Input");
  (UNQLITE_UNKNOWN, "Unknown configuration option");
  (UNQLITE_LIMIT, "Database limit reached");
  (UNQLITE_EXISTS, "Record exists");
  (UNQLITE_EMPTY, "Empty record");
  (UNQLITE_COMPILE_ERR, "Compilation error");
  (UNQLITE_VM_ERR, "Virtual machine error");
  (UNQLITE_FULL, "Full database (unlikely)");
  (UNQLITE_CANTOPEN, "Unable to open the database file");
  (UNQLITE_READ_ONLY, "Read only Key/Value storage engine");
  (UNQLITE_LOCKERR, "Locking protocol error")
].

Fixpoint strerror_in (table : list (unqlite_rc * string)) (unqlite_error : Z) : bytes :=
  match table with
  | [] => MemSPrintf (lit "Unknown error %d") [FInt unqlite_error]
  | (rc, text) :: table =>
    if unqlite_error =? rc_value rc then lit text else strerror_in table unqlite_error
  end.

Definition unqlite_strerror (unqlite_error : Z) : bytes :=
  if unqlite_error =? rc_value UNQLITE_OK then [] else strerror_in strerrors unqlite_error.

Definition failed (rc : Z) : bool := negb (rc =? rc_value UNQLITE_OK).
Definition rc_error (text : string) (rc : Z) : Error :=
  make_error_value (MemSPrintf (lit text) [FStr (unqlite_strerror rc)]) E_ERROR.

(** ** Connecting *)

Definition CreateConnection (config : LocalConfig) w : Error * option H * W :=
  let '(st, lcontext, w) := unqlite_open (lc_create_if_missing config) (c_strornull (lc_dbname config)) w in
  if failed st then (rc_error "Fail open database: %s!" st, None, w) else (no_error, lcontext, w).

Definition TestConnection (settings : option LocalConfig) w : Error * W :=
  match settings with
  | None => (invalid_arguments, w)
  | Some config =>
    let '(er, ldb, w) := CreateConnection config w in
    if isError er then (er, w) else (no_error, unqlite_close ldb w)
  end.

#[local] Instance traits : ConnectionTraits LocalConfig H W := {|
  traits_Connect config w :=
    let '(er, context, w) := CreateConnection config w in
    if isError er then (er, None, w) else (no_error, context, w);
  traits_Disconnect handle w := (no_error, None, unqlite_close handle w);
  traits_IsConnected handle w := match handle with Some _ => true | None => false end;
  config_default := UnqliteConfig.Config;
  config_delimiter := lc_delimiter;
  config_ns_separator := lc_ns_separator
|}.

(** ** Records *)

Definition Info (args : option bytes) c : Error * UnqliteInfo.Stats * conn :=
  if negb (IsConnected c) then (not_connected, UnqliteInfo.Stats_default, c)
  else (no_error, UnqliteInfo.mkStats (lc_dbname (config_ (connection_ c))), c).

Fixpoint count_loop (fuel : nat) cur (sz : Z) w : Z * W :=
  match fuel with
  | O => (sz, w)
  | S fuel =>
    if unqlite_kv_cursor_valid_entry cur w then count_loop fuel cur (sz + 1) (unqlite_kv_cursor_next_entry cur w)
    else (sz, w)
  end.

Definition DBkcount c : Error * Z * conn :=
  on_open (λ e, (e, 0, c))
    (λ h, let entries := unqlite_entries h (native_world c) in
          let '(rc, cur, w) := unqlite_kv_cursor_init h (native_world c) in
          if failed rc then (rc_error "DBKCOUNT function error: %s" rc, 0, set_world w c)
          else
            let '(sz, w) := count_loop entries cur 0 (unqlite_kv_cursor_first_entry cur w) in
            (no_error, sz, set_world (unqlite_kv_cursor_release h cur w) c)) c.

Definition SetInner (key value : bytes) c : Error * conn :=
  on_open (λ e, (e, c))
    (λ h, let '(rc, w) := unqlite_kv_store h key value (native_world c) in
          let c := set_world w c in
          if failed rc then (rc_error "set function error: %s" rc, c) else (no_error, c)) c.

Definition DelInner (key : bytes) c : Error * conn :=
  on_open (λ e, (e, c))
    (λ h, let '(rc, w) := unqlite_kv_delete h key (native_world c) in
          let c := set_world w c in
          if failed rc then (rc_error "delete function error: %s" rc, c) else (no_error, c)) c.

Definition GetInner (key : bytes) c : Error * bytes * conn :=
  on_open (λ e, (e, [], c))
    (λ h, let '(rc, value) := unqlite_kv_fetch_callback h key (native_world c) in
          let ret_val := default [] value in
          if failed rc then (rc_error "get function error: %s" rc, ret_val, c) else (no_error, ret_val, c)) c.

Definition cursor_key cur w : bytes := default [] (unqlite_kv_cursor_key_callback cur w).

Fixpoint keys_loop (fuel : nat) cur (key_start key_end : bytes) (limit : Z) (ret : list bytes) w : list bytes * W :=
  match fuel with
  | O => (ret, w)
  | S fuel =>
    if unqlite_kv_cursor_valid_entry cur w && (limit >? Z.of_nat (length ret)) then
      let key := cursor_key cur w in
      let ret := if str_ltb key_start key && str_ltb key key_end then ret ++ [key] else ret in
      keys_loop fuel cur key_start key_end limit ret (unqlite_kv_cursor_next_entry cur w)
    else (ret, w)
  end.

Definition Keys (key_start key_end : bytes) (limit : Z) (ret : list bytes) c : Error * list bytes * conn :=
  on_open (λ e, (e, ret, c))
    (λ h, let entries := unqlite_entries h (native_world c) in
          let '(rc, cur, w) := unqlite_kv_cursor_init h (native_world c) in
          if failed rc then (rc_error "Keys function error: %s" rc, ret, set_world w c)
          else
            let '(ret, w) :=
              keys_loop entries cur key_start key_end limit ret (unqlite_kv_cursor_first_entry cur w) in
            (no_error, ret, set_world (unqlite_kv_cursor_release h cur w) c)) c.

Definition Help (argc : Z) (argv : argv_t) c : Error * conn := (NotSupported (lit "HELP"), c).

(** When a record cannot be deleted, the cursor is not released. *)
Fixpoint flush_loop (fuel : nat) cur c : Error * conn :=
  match fuel with
  | O => (no_error, c)
  | S fuel =>
    if unqlite_kv_cursor_valid_entry cur (native_world c) then
      let '(err, c) := DelInner (cursor_key cur (native_world c)) c in
      if isError err then (err, c)
      else flush_loop fuel cur (set_world (unqlite_kv_cursor_next_entry cur (native_world c)) c)
    else (no_error, c)
  end.

Definition Flushdb c : Error * conn :=
  on_open (λ e, (e, c))
    (λ h, let entries := unqlite_entries h (native_world c) in
          let '(rc, cur, w) := unqlite_kv_cursor_init h (native_world c) in
          if failed rc then (rc_error "FlushDB function error: %s" rc, set_world w c)
          else
            let '(err, c) := flush_loop entries cur (set_world (unqlite_kv_cursor_first_entry cur w) c) in
            if isError err then (err, c)
            else (no_error, set_world (unqlite_kv_cursor_release h cur (native_world c)) c)) c.

#[local] Instance inner : InnerOps LocalConfig H W := {|
  NativeKv.GetInner := GetInner; NativeKv.SetInner := SetInner; NativeKv.DelInner := DelInner; inner_DBkcount := DBkcount
|}.
Definition SelectImpl := inner_SelectImpl (Cfg := LocalConfig) (H := H) (W := W).
Definition DeleteImpl := inner_DeleteImpl (Cfg := LocalConfig) (H := H) (W := W).
Definition SetImpl := inner_SetImpl (Cfg := LocalConfig) (H := H) (W := W).
Definition GetImpl := inner_GetImpl (Cfg := LocalConfig) (H := H) (W := W).
Definition RenameImpl := inner_RenameImpl (Cfg := LocalConfig) (H := H) (W := W).
Definition SetTTLImpl := inner_SetTTLImpl (Cfg := LocalConfig) (H := H) (W := W) "UnqLite".
Definition QuitImpl := inner_QuitImpl (Cfg := LocalConfig) (H := H) (W := W).

#[local] Instance impl : CDBImpl LocalConfig H W := inner_impl "UnqLite".
#[local] Instance kv `{InfoLib} : KvOps LocalConfig H W := {|
  kv_stats := UnqliteInfo.Stats;
  Stats_ToString s := UnqliteInfo.ToString (UnqliteInfo.mkServerInfo s);
  kv_Info a c := Val (Info a c); kv_Keys := Keys; kv_DBkcount := DBkcount; kv_Help := Help
|}.
#[local] Instance flush : FlushOps LocalConfig H W := {| kv_Flushdb := Flushdb |}.
End Conn.
End UnqliteConn.
