(* ===== verification/UpscaledbConn.v ===== *)
(** The connection of UpscaleDB: [core/upscaledb/db_connection.cpp]. *)
From Stdlib Require Import Ascii String ZArith Lia.
From stdpp Require Import base list strings gmap.
From S2P Require Import Prelude Common Texts Values Commands Connection Translators KvApi Configs RedisReply ServerInfo StoreInfos NativeKv.
Local Open Scope Z_scope.
#[local] Set Warnings "-register-all".

Inductive ups_direction := UPS_CURSOR_FIRST | UPS_CURSOR_NEXT.

Definition UPS_SUCCESS : Z := 0.

(** The library: environments [E], databases [D], cursors [C], which are part of its state.
    [ups_cursor_move] is given what [key] holds and says what it holds then.  [ups_entries], the number of
    records, bounds the loops over a cursor. *)
Class UpscaledbLib (E D C W : Type) := {
  ups_env_create : option bytes → W → Z * E * W;
  ups_env_open : option bytes → W → Z * E * W;
  ups_env_create_db : E → Z → W → Z * D * W;
  ups_db_close : D → W → W;
  ups_env_close : E → W → W;
  ups_strerror : Z → bytes;
  UPS_KEY_NOT_FOUND : Z;
  ups_db_count : D → W → Z * Z;
  ups_db_insert : D → bytes → bytes → W → Z * W;
  ups_db_find : D → bytes → W → Z * bytes;
  ups_db_erase : D → bytes → W → Z * W;
  ups_cursor_create : D → W → Z * C * W;
  ups_cursor_move : C → ups_direction → bytes → W → Z * bytes * W;
  ups_cursor_close : C → W → W;
  ups_entries : D → W → nat
}.

(** [struct upscaledb] *)
Record upscaledb (E D : Type) := mkUpscaledb { env : E; db : D; cur_db : Z }.
Arguments mkUpscaledb {E D} _ _ _.
Arguments env {E D} _.
Arguments db {E D} _.
Arguments cur_db {E D} _.

Module UpscaledbConn.
Section Conn.
Context {E D C W : Type} `{UpscaledbLib E D C W} `{NativeFiles W} `{CommonLib} `{CommonRedis} `{ConfigLib} `{Project}.
Local Abbreviation native := (upscaledb E D).
Local Abbreviation conn := (CDBConnection LocalConfig native W).
Implicit Types (c : conn) (w : W) (cur : C).

Definition st_error (text : string) (st : Z) : Error :=
  make_error_value (MemSPrintf (lit text) [FStr (ups_strerror st)]) E_ERROR.
Definition failed (st : Z) : bool := negb (st =? UPS_SUCCESS).

(** ** Connecting *)

(** The database is created in an environment that was opened, too; what was opened is not closed when a
    later step fails. *)
Definition upscaledb_open (dbpath : option bytes) (db : Z) (create_if_missing : bool) w : Z * option native * W :=
  let '(st, e, w) := if create_if_missing then ups_env_create dbpath w else ups_env_open dbpath w in
  if failed st then (st, None, w)
  else
    let '(st, d, w) := ups_env_create_db e db w in
    if failed st then (st, None, w) else (UPS_SUCCESS, Some (mkUpscaledb e d db), w).

Definition upscaledb_close (context : option native) w : W :=
  match context with
  | None => w
  | Some l => ups_env_close (env l) (ups_db_close (db l) w)
  end.

Definition CreateConnection (config : LocalConfig) w : Error * option native * W :=
  let '(st, lcontext, w) :=
    upscaledb_open (c_strornull (lc_dbname config)) 1 (lc_create_if_missing config) w in
  if failed st then (st_error "Fail open database: %s" st, None, w) else (no_error, lcontext, w).

Definition TestConnection (settings : option LocalConfig) w : Error * W :=
  match settings with
  | None => (invalid_arguments, w)
  | Some config =>
    let '(er, scaledb, w) := CreateConnection config w in
    if isError er then (er, w) else (no_error, upscaledb_close scaledb w)
  end.

#[local] Instance traits : ConnectionTraits LocalConfig native W := {|
  traits_Connect config w :=
    let '(er, context, w) := CreateConnection config w in
    if isError er then (er, None, w) else (no_error, context, w);
  traits_Disconnect handle w := (no_error, None, upscaledb_close handle w);
  traits_IsConnected handle w := match handle with Some _ => true | None => false end;
  config_default := UpscaledbConfig.Config;
  config_delimiter := lc_delimiter;
  config_ns_separator := lc_ns_separator
|}.

Definition CurDb c : Z := match handle_ (connection_ c) with Some h => cur_db h | None => 0 end.

(** ** Records *)

Definition Info (args : option bytes) c : Error * UpscaledbInfo.Stats * conn :=
  if negb (IsConnected c) then (not_connected, UpscaledbInfo.Stats_default, c)
  else (no_error, UpscaledbInfo.mkStats (lc_dbname (config_ (connection_ c))), c).

Definition DBkcount c : Error * Z * conn :=
  on_open (λ e, (e, 0, c))
    (λ h, let '(st, sz) := ups_db_count (db h) (native_world c) in
          if failed st then (st_error "dbkcount function error: %s" st, 0, c) else (no_error, sz, c)) c.

Definition SetInner (key value : bytes) c : Error * conn :=
  on_open (λ e, (e, c))
    (λ h, let '(st, w) := ups_db_insert (db h) key value (native_world c) in
          let c := set_world w c in
          if failed st then (st_error "set function error: %s" st, c) else (no_error, c)) c.

Definition GetInner (key : bytes) c : Error * bytes * conn :=
  on_open (λ e, (e, [], c))
    (λ h, let '(st, rec) := ups_db_find (db h) key (native_world c) in
          if failed st then (st_error "get function error: %s" st, [], c) else (no_error, rec, c)) c.

Definition DelInner (key : bytes) c : Error * conn :=
  on_open (λ e, (e, c))
    (λ h, let '(st, w) := ups_db_erase (db h) key (native_world c) in
          let c := set_world w c in
          if failed st then (st_error "delete function error: %s" st, c) else (no_error, c)) c.

Definition not_found (st : Z) : bool := st =? UPS_KEY_NOT_FOUND.

(** A cursor at the first record, with what [key] holds; otherwise the result of the function, and a cursor
    that could not be moved is not closed. *)
Definition first_record (error_text : string) (d : D) w : Error * option (C * bytes) * W :=
  let '(st, cur, w) := ups_cursor_create d w in
  if failed st then (st_error "Keys function error: %s" st, None, w)
  else
    let '(st, key, w) := ups_cursor_move cur UPS_CURSOR_FIRST [] w in
    if not_found st then (no_error, None, ups_cursor_close cur w)
    else if failed st then (st_error error_text st, None, w)
    else (no_error, Some (cur, key), w).

(** The cursor moves before the key is looked at; at the end of the database [key] holds what it held. *)
Fixpoint keys_loop (fuel : nat) cur (key_start key_end : bytes) (limit : Z) (key : bytes) (ret : list bytes) w
    : Error * list bytes * W :=
  match fuel with
  | O => (no_error, ret, ups_cursor_close cur w)
  | S fuel =>
    let '(st, key, w) := ups_cursor_move cur UPS_CURSOR_NEXT key w in
    if failed st && negb (not_found st) then (st_error "Keys function error: %s" st, ret, ups_cursor_close cur w)
    else
      let ret := if str_ltb key_start key && str_ltb key key_end then ret ++ [key] else ret in
      if (st =? UPS_SUCCESS) && (limit >? Z.of_nat (length ret)) then
        keys_loop fuel cur key_start key_end limit key ret w
      else (no_error, ret, ups_cursor_close cur w)
  end.

Definition Keys (key_start key_end : bytes) (limit : Z) (ret : list bytes) c : Error * list bytes * conn :=
  on_open (λ e, (e, ret, c))
    (λ h, let entries := ups_entries (db h) (native_world c) in
          let '(err, found, w) := first_record "Keys function error: %s" (db h) (native_world c) in
          match found with
          | None => (err, ret, set_world w c)
          | Some (cur, key) =>
            let '(err, ret, w) := keys_loop entries cur key_start key_end limit key ret w in
            (err, ret, set_world w c)
          end) c.

Definition Help (argc : Z) (argv : argv_t) c : Error * conn := (NotSupported (lit "HELP"), c).

(** What erasing says is not looked at. *)
Fixpoint flush_loop (fuel : nat) (d : D) cur (key : bytes) w : Error * W :=
  match fuel with
  | O => (no_error, ups_cursor_close cur w)
  | S fuel =>
    let '(st, key, w) := ups_cursor_move cur UPS_CURSOR_NEXT key w in
    if failed st && negb (not_found st) then (st_error "flushdb function error: %s" st, ups_cursor_close cur w)
    else
      let w := snd (ups_db_erase d key w) in
      if st =? UPS_SUCCESS then flush_loop fuel d cur key w else (no_error, ups_cursor_close cur w)
  end.

(** Each turn but the last erases a record. *)
Definition Flushdb c : Error * conn :=
  on_open (λ e, (e, c))
    (λ h, let entries := ups_entries (db h) (native_world c) in
          let '(err, found, w) := first_record "flushdb function error: %s" (db h) (native_world c) in
          match found with
          | None => (err, set_world w c)
          | Some (cur, key) =>
            let '(err, w) := flush_loop (S entries) (db h) cur key w in (err, set_world w c)
          end) c.

#[local] Instance inner : InnerOps LocalConfig native W := {|
  NativeKv.GetInner := GetInner; NativeKv.SetInner := SetInner; NativeKv.DelInner := DelInner; inner_DBkcount := DBkcount
|}.
Definition SelectImpl := inner_SelectImpl (Cfg := LocalConfig) (H := native) (W := W).
Definition DeleteImpl := inner_DeleteImpl (Cfg := LocalConfig) (H := native) (W := W).
Definition SetImpl := inner_SetImpl (Cfg := LocalConfig) (H := native) (W := W).
Definition GetImpl := inner_GetImpl (Cfg := LocalConfig) (H := native) (W := W).
Definition RenameImpl := inner_RenameImpl (Cfg := LocalConfig) (H := native) (W := W).
Definition SetTTLImpl := inner_SetTTLImpl (Cfg := LocalConfig) (H := native) (W := W) "UPSCALEDB".
Definition QuitImpl := inner_QuitImpl (Cfg := LocalConfig) (H := native) (W := W).

#[local] Instance impl : CDBImpl LocalConfig native W := inner_impl "UPSCALEDB".
#[local] Instance kv `{InfoLib} : KvOps LocalConfig native W := {|
  kv_stats := UpscaledbInfo.Stats;
  Stats_ToString s := UpscaledbInfo.ToString (UpscaledbInfo.mkServerInfo s);
  kv_Info a c := Val (Info a c); kv_Keys := Keys; kv_DBkcount := DBkcount; kv_Help := Help
|}.
#[local] Instance flush : FlushOps LocalConfig native W := {| kv_Flushdb := Flushdb |}.
End Conn.
End UpscaledbConn.
