(* ===== verification/LsmProps.v ===== *)
(** What LevelDB and RocksDB connections do, when the library keeps what its documentation says of records
    and iterators: every access is one on a finite map, keys come in order, and flushing empties the store. *)
From Stdlib Require Import Ascii String ZArith Lia.
From stdpp Require Import base list strings gmap sorting.
From S2P Require Import Prelude Common Texts Values Connection Translators Configs RedisReply NativeKv LsmConn.
Local Open Scope Z_scope.

Definition ok (st : status) : bool := match st with None => true | Some _ => false end.

(** The documented behaviour of the library.  An iterator whose status is ok has passed the first records
    in order, and where it stands is right, too. *)
Class LsmLaws (H W : Type) `{!LsmLib H W} := {
  lsm_content : H → W → kv_map;
  lsm_Get_law h k w v : lsm_Get h k w = (None, v) → lsm_content h w !! k = Some v;
  lsm_Put_law h k v w st w' : lsm_Put h k v w = (st, w') →
    lsm_content h w' = if ok st then <[k := v]> (lsm_content h w) else lsm_content h w;
  lsm_Delete_law h k w st w' : lsm_Delete h k w = (st, w') →
    lsm_content h w' = if ok st then delete k (lsm_content h w) else lsm_content h w;
  lsm_Seek_law h s n w : lsm_status h s n w = None →
    take (S n) (lsm_Seek h s w) = take (S n) (records_from s (lsm_content h w))
}.

Section LsmLaws.
Context {H W : Type} `{!LsmLib H W} `{!LsmLaws H W} `{CommonLaws}
  (failed : string) (default : LocalConfig).
Local Abbreviation conn := (CDBConnection LocalConfig H W).
Implicit Types (c : conn) (w : W) (m : kv_map).

Context `{!NativeFiles W} `{!ConfigLib}.
Local Instance lsm_trait : ConnectionTraits LocalConfig H W := lsm_traits failed default.
Local Abbreviation opened := (open_at lsm_content).

(** Calls that fail although they need not: reading a record that is there, writing, deleting, iterating. *)
Inductive lsm_broken : Prop :=
| broken_get h k w v t v' : lsm_content h w !! k = Some v → lsm_Get h k w = (Some t, v') → lsm_broken
| broken_put h k v w t w' : lsm_Put h k v w = (Some t, w') → lsm_broken
| broken_delete h k w t w' : lsm_Delete h k w = (Some t, w') → lsm_broken
| broken_status h s n w t : lsm_status h s n w = Some t → lsm_broken.
Local Hint Constructors lsm_broken : core.

Lemma lsm_opened_set_world m c h w : handle_ (connection_ c) = Some h → lsm_content h w = m → opened m (set_world w c).
Proof. by apply open_set_world. Qed.

Lemma lsm_call_law text (f : H → W → status * W) (g : kv_map → kv_map) m c e c' :
  (∀ h w st w', f h w = (st, w') →
     lsm_content h w' = (if ok st then g (lsm_content h w) else lsm_content h w) ∧ (ok st = false → lsm_broken)) →
  opened m c → lsm_call text f c = (e, c') →
  opened (if isError e then m else g m) c' ∧ (isError e = true → lsm_broken).
Proof.
  intros Hf Ho. destruct (open_handle _ m c Ho) as (h & Hh & Hm & Hw). unfold lsm_call. rewrite Hw.
  destruct (f h (native_world c)) as [st w'] eqn:E. apply Hf in E as [E Hb]. rewrite Hm in E.
  destruct st as [t|]; simpl in E; intros [= <- <-].
  - unfold status_error. rewrite isError_make_error. split; [by eapply lsm_opened_set_world|auto].
  - split; [by eapply lsm_opened_set_world|done].
Qed.

Lemma sought s w h : lsm_status h s (length (lsm_Seek h s w)) w = None →
  lsm_Seek h s w = records_from s (lsm_content h w).
Proof.
  intros Hs. pose proof (lsm_Seek_law _ _ _ _ Hs) as E. rewrite (take_ge (lsm_Seek h s w)) in E by lia.
  rewrite E. apply take_ge. apply (f_equal length) in E. rewrite length_take in E. lia.
Qed.

Lemma records_from_start m : records_from None m = sorted_records m.
Proof. unfold records_from, from. induction (sorted_records m); simpl; by f_equal. Qed.

Lemma length_sorted_records m : length (sorted_records m) = size m.
Proof. unfold sorted_records. by rewrite List.length_map, length_sorted_keys. Qed.

Lemma lsm_DBkcount_size m c e n c' : opened m c → lsm_DBkcount c = (e, n, c') →
  c' = c ∧ (if isError e then lsm_broken else n = Z.of_nat (size m)).
Proof.
  intros Ho. destruct (open_handle _ m c Ho) as (h & _ & Hm & Hw). unfold lsm_DBkcount. rewrite Hw.
  destruct (lsm_status _ _ _ _) as [t|] eqn:E; intros [= <- <- <-]; (split; [done|]).
  - unfold status_error. rewrite isError_make_error. eauto.
  - simpl. by rewrite (sought _ _ _ E), Hm, records_from_start, length_sorted_records.
Qed.

Context `{!Project}.
#[local] Instance lsm_inner : InnerOps LocalConfig H W := {|
  GetInner := lsm_GetInner; SetInner := lsm_SetInner; DelInner := lsm_DelInner; inner_DBkcount := lsm_DBkcount
|}.

Program Instance lsm_inner_laws : InnerLaws LocalConfig H W := {| content := lsm_content; broken := lsm_broken |}.
Next Obligation.
  intros m k c e v c' Ho. simpl. destruct (open_handle _ m c Ho) as (h & _ & Hm & Hw).
  unfold lsm_GetInner. rewrite Hw. destruct (lsm_Get h k _) as [[t|] v'] eqn:E; intros [= <- <- <-]; (split; [done|]).
  - unfold status_error. rewrite isError_make_error. rewrite <- Hm.
    destruct (lsm_content h (native_world c) !! k) eqn:Hk; [right; eauto|by left].
  - simpl. rewrite <- Hm. by apply lsm_Get_law.
Qed.
Next Obligation.
  intros m k v c e c'. apply lsm_call_law. intros h w st w' E. split; [by apply lsm_Put_law|]. destruct st; [eauto|done].
Qed.
Next Obligation.
  intros m k c e c' Ho E. eapply (lsm_call_law _ _ (delete k)) in E; [destruct E; split; eauto| |done].
  intros h w st w' Q. split; [by apply lsm_Delete_law|]. destruct st; [eauto|done].
Qed.
Next Obligation. intros m c e n c' Ho E. by destruct (lsm_DBkcount_size m c e n c' Ho E) as [-> ?]. Qed.

(** ** Keys in a range *)

(** The loop keeps the first keys below the end, and looks at no more than one record behind them. *)
Lemma lsm_keys_loop_take ke limit : 0 <= limit → ∀ entries full ret p r q,
  ascending (full.*1) → lsm_keys_loop entries ke limit ret p = (r, q) →
  (p <= q)%nat ∧
  (take (S (q - p)) entries = take (S (q - p)) full → Z.of_nat (length ret) <= limit →
   r = take (Z.to_nat limit) (ret ++ List.filter (λ k, str_ltb k ke) (full.*1))).
Proof.
  intros Hlim. induction entries as [|[k v] entries IH]; intros full ret p r q Ha; cbn [lsm_keys_loop].
  { intros [= <- <-]. split; [done|]. rewrite Nat.sub_diag. destruct full as [|x full]; [|done]. intros _ Hret.
    simpl. rewrite app_nil_r. symmetry. apply take_ge. lia. }
  destruct (str_ltb k ke) eqn:Hk.
  2:{ intros [= <- <-]. split; [done|]. rewrite Nat.sub_diag. destruct full as [|x full]; [done|].
      intros [= <-] Hret. rewrite filter_below_none by done. rewrite app_nil_r. symmetry. apply take_ge. lia. }
  destruct (Z.ltb_spec (Z.of_nat (length ret)) limit).
  2:{ intros [= <- <-]. split; [done|]. intros _ Hret. rewrite take_app_le, take_ge by lia. done. }
  intros Hr. destruct full as [|[k' v'] full].
  { destruct (IH [] (ret ++ [k]) (S p) r q ltac:(constructor) Hr) as [? _]. split; [lia|]. done. }
  inversion_clear Ha as [|? ? Ha' Hk']. destruct (IH full (ret ++ [k]) (S p) r q Ha' Hr) as [Hq Hres].
  split; [lia|]. replace (S (q - p)) with (S (S (q - S p))) by lia. intros E Hret.
  rewrite !(firstn_cons (S _)) in E. injection E as <- <- E.
  rewrite Hres; [|done|rewrite length_app; simpl; lia]. cbn [fmap list_fmap List.map fst List.filter]. rewrite Hk.
  by rewrite <- app_assoc.
Qed.

Lemma lsm_Keys_range m c ks ke limit e ret c' : 0 <= limit → opened m c →
  lsm_Keys ks ke limit [] c = (e, ret, c') →
  c' = c ∧ if isError e then lsm_broken else ret = take (Z.to_nat limit) (List.filter (in_range ks ke) (sorted_keys m)).
Proof.
  intros Hlim Ho. destruct (open_handle _ m c Ho) as (h & Hh & Hm & Hw). unfold lsm_Keys. rewrite Hw.
  destruct (lsm_keys_loop _ _ _ _ _) as [r q] eqn:Hr.
  destruct (lsm_status h (Some ks) q _) as [t|] eqn:Hs; intros [= <- <- <-]; (split; [done|]).
  { unfold status_error. rewrite isError_make_error. eauto. }
  simpl. apply lsm_Seek_law in Hs. rewrite Hm in Hs.
  destruct (lsm_keys_loop_take ke limit Hlim _ (records_from (Some ks) m) _ _ _ _ ltac:(rewrite map_fst_records_from;
    apply ascending_filter, sorted_keys_ascending) Hr) as [_ Hres].
  rewrite Nat.sub_0_r in Hres. rewrite Hres; [|done|simpl; lia]. rewrite map_fst_records_from, filter_filter. done.
Qed.

(** ** Flushing *)

Lemma lsm_flush_loop_delete h entries : ∀ w st w', lsm_flush_loop h entries w = (st, w') →
  if ok st then lsm_content h w' = delete_keys (entries.*1) (lsm_content h w) else lsm_broken.
Proof.
  induction entries as [|[k v] entries IH]; intros w st w'; cbn [lsm_flush_loop]; [by intros [= <- <-]|].
  destruct (lsm_Delete h k w) as [[t|] w1] eqn:E; [intros [= <- <-]; simpl; eauto|]. intros Hr. apply IH in Hr.
  destruct (ok st); [|done]. rewrite Hr. apply lsm_Delete_law in E. simpl in E. by rewrite E.
Qed.

Lemma lsm_Flushdb_empties m c e c' : opened m c → lsm_Flushdb c = (e, c') →
  if isError e then lsm_broken else opened ∅ c'.
Proof.
  intros Ho. destruct (open_handle _ m c Ho) as (h & Hh & Hm & Hw). unfold lsm_Flushdb. rewrite Hw.
  destruct (lsm_flush_loop _ _ _) as [st w'] eqn:Hf. apply lsm_flush_loop_delete in Hf.
  destruct st as [t|]; [intros [= <- <-]; unfold status_error; by rewrite isError_make_error|].
  destruct (lsm_status _ _ _ _) as [t|] eqn:Hs; intros [= <- <-].
  { unfold status_error. rewrite isError_make_error. eauto. }
  simpl in *. apply (lsm_opened_set_world _ _ h); [done|]. rewrite Hf, (sought _ _ _ Hs), Hm.
  rewrite records_from_start, map_fst_sorted_records. apply delete_sorted_keys.
Qed.
End LsmLaws.
