(* ===== verification/LmdbProps.v ===== *)
(** What an LMDB connection does, when the library keeps what its documentation says of transactions and
    cursors: changes are made as a whole or not at all, and the accesses are those of a finite map. *)
From Stdlib Require Import Ascii String ZArith Lia.
From stdpp Require Import base list strings gmap sorting.
From S2P Require Import Prelude Common Texts Values Connection Translators Configs RedisReply NativeKv LmdbConn.
Local Open Scope Z_scope.

(** The documented behaviour of the library: [txn_map] is what a transaction sees of a database.  Nothing
    changes an environment but a commit that succeeds. *)
Class LmdbLaws (E T W : Type) `{!LmdbLib E T W} := {
  env_map : E → Z → W → kv_map;
  txn_map : T → Z → kv_map;
  txn_env : T → E;
  txn_begin_law e rd w rc txn w' : mdb_txn_begin e rd w = (rc, txn, w') →
    (∀ e' d, env_map e' d w' = env_map e' d w) ∧
    (rc = LMDB_OK → ∃ t, txn = Some t ∧ txn_env t = e ∧ ∀ d, txn_map t d = env_map e d w);
  txn_commit_law t w rc w' : mdb_txn_commit t w = (rc, w') → ∀ d,
    env_map (txn_env t) d w' = if rc =? LMDB_OK then txn_map t d else env_map (txn_env t) d w;
  txn_abort_law txn w e d : env_map e d (mdb_txn_abort txn w) = env_map e d w;
  mdb_get_law t d k v : mdb_get t d k = (LMDB_OK, v) → txn_map t d !! k = Some v;
  mdb_put_law t d k v rc t' : mdb_put t d k v = (rc, t') →
    txn_env t' = txn_env t ∧ (rc = LMDB_OK → txn_map t' d = <[k := v]> (txn_map t d));
  mdb_del_law t d k rc t' : mdb_del t d k = (rc, t') →
    txn_env t' = txn_env t ∧ (rc = LMDB_OK → txn_map t' d = delete k (txn_map t d));
  cursor_next_law t d p : mdb_cursor_next t d p = next_key (txn_map t d) p;
  entries_law t d : mdb_entries t d = size (txn_map t d)
}.

Import LmdbConn.

Section LmdbLaws.
Context {E T W : Type} `{!LmdbLib E T W} `{!LmdbLaws E T W} `{CommonLaws} `{!CommonRedis} `{!NativeFiles W}
  `{!ConfigLib} `{!Project}.
Local Abbreviation conn := (CDBConnection LocalConfig (lmdb E) W).
Implicit Types (c : conn) (w : W) (m : kv_map) (t : T).

Definition lmdb_content (h : lmdb E) w : kv_map := env_map (env h) (dbir h) w.
Local Existing Instance traits.
Local Abbreviation opened := (open_at lmdb_content).

(** Calls that fail although they need not. *)
Inductive lmdb_broken : Prop :=
| broken_begin e rd w rc txn w' : mdb_txn_begin e rd w = (rc, txn, w') → rc ≠ LMDB_OK → lmdb_broken
| broken_commit t w rc w' : mdb_txn_commit t w = (rc, w') → rc ≠ LMDB_OK → lmdb_broken
| broken_cursor t d : mdb_cursor_open t d ≠ LMDB_OK → lmdb_broken
| broken_get t d k v rc v' : txn_map t d !! k = Some v → mdb_get t d k = (rc, v') → rc ≠ LMDB_OK → lmdb_broken
| broken_put t d k v rc t' : mdb_put t d k v = (rc, t') → rc ≠ LMDB_OK → lmdb_broken
| broken_del t d k v rc t' : txn_map t d !! k = Some v → mdb_del t d k = (rc, t') → rc ≠ LMDB_OK → lmdb_broken.
Local Hint Constructors lmdb_broken : core.

Lemma lmdb_opened_set_world m c h w : handle_ (connection_ c) = Some h → lmdb_content h w = m → opened m (set_world w c).
Proof. by apply open_set_world. Qed.

Lemma lmdb_rc_error_is text rc : isError (rc_error text rc) = true.
Proof. apply isError_make_error. Qed.

(** What a change [f] of a transaction makes of the database; [P] is what its failing means. *)
Definition txn_change (d : Z) (f : T → Z * T) (g : kv_map → kv_map) (P : kv_map → Prop) : Prop :=
  ∀ t rc t', f t = (rc, t') →
    txn_env t' = txn_env t ∧ (if rc =? LMDB_OK then txn_map t' d = g (txn_map t d) else P (txn_map t d)).

(** A change in a transaction happens as a whole or not at all. *)
Lemma write_txn_atomic h f g (P : kv_map → Prop) w rc w' : txn_change (dbir h) f g P →
  write_txn h f w = (rc, w') →
  lmdb_content h w' = (if rc =? LMDB_OK then g (lmdb_content h w) else lmdb_content h w) ∧
  (rc ≠ LMDB_OK → P (lmdb_content h w) ∨ lmdb_broken).
Proof.
  intros Hf. unfold write_txn, lmdb_content. destruct (mdb_txn_begin _ _ _) as [[rc0 txn] w0] eqn:Eb.
  destruct (txn_begin_law _ _ _ _ _ _ Eb) as [Hw Ht]. destruct (Z.eqb_spec rc0 LMDB_OK) as [->|Hn].
  - destruct (Ht eq_refl) as (t & -> & He & Hm). destruct (f t) as [rc1 t1] eqn:Ef.
    destruct (Hf _ _ _ Ef) as [He1 Hm1]. destruct (Z.eqb_spec rc1 LMDB_OK) as [->|Hn1].
    + intros Ec. pose proof (txn_commit_law _ _ _ _ Ec (dbir h)) as Hc. rewrite He1, He in Hc.
      rewrite Hc, Hm1, Hm, Hw. split; [done|]. intros Hrc. right. eauto.
    + intros [= <- <-]. rewrite txn_abort_law, Hw. rewrite Hm in Hm1. destruct (Z.eqb_spec rc1 LMDB_OK); [done|]. auto.
  - assert (lmdb_broken) by eauto.
    destruct txn as [t|]; intros [= <- <-]; rewrite Hw; (destruct (Z.eqb_spec rc0 LMDB_OK); [done|]); auto.
Qed.

(** A transaction with a cursor sees the content. *)
Lemma cursor_txn_law h rd w rc txn w' : cursor_txn h rd w = (rc, txn, w') →
  lmdb_content h w' = lmdb_content h w ∧
  match txn with
  | Some t => txn_env t = env h ∧ txn_map t (dbir h) = lmdb_content h w
  | None => lmdb_broken
  end.
Proof.
  unfold cursor_txn, lmdb_content. destruct (mdb_txn_begin _ _ _) as [[rc0 txn0] w0] eqn:Eb.
  destruct (txn_begin_law _ _ _ _ _ _ Eb) as [Hw Ht].
  destruct (Z.eqb_spec rc0 LMDB_OK) as [->|Hn].
  - destruct (Ht eq_refl) as (t & -> & He & Hm).
    destruct (Z.eqb_spec (mdb_cursor_open t (dbir h)) LMDB_OK) as [Hc|Hc]; cbn [negb];
      intros [= <- <- <-]; rewrite ?txn_abort_law; eauto.
  - assert (negb (match txn0 with Some _ | _ => rc0 end =? LMDB_OK) = true) as Q.
    { by destruct txn0, (Z.eqb_spec rc0 LMDB_OK). }
    destruct txn0 as [t|]; rewrite Q; intros [= <- <- <-]; rewrite txn_abort_law; eauto.
Qed.

Lemma cursor_keys_sorted h t : cursor_keys h t = sorted_keys (txn_map t (dbir h)).
Proof. unfold cursor_keys. rewrite entries_law. apply walk_sorted. intros p. apply cursor_next_law. Qed.

Lemma write_law text h f g (P : kv_map → Prop) m c e c' : txn_change (dbir h) f g P →
  handle_ (connection_ c) = Some h → lmdb_content h (native_world c) = m →
  (let '(rc, w) := write_txn h f (native_world c) in
   if negb (rc =? LMDB_OK) then (rc_error text rc, set_world w c) else (no_error, set_world w c)) = (e, c') →
  opened (if isError e then m else g m) c' ∧ (isError e = true → P m ∨ lmdb_broken).
Proof.
  intros Hf Hh Hm. destruct (write_txn h f _) as [rc w] eqn:Q. apply (write_txn_atomic _ _ _ _ _ _ _ Hf) in Q as [Hw Hb].
  rewrite Hm in Hw, Hb. destruct (Z.eqb_spec rc LMDB_OK); intros [= <- <-]; rewrite ?lmdb_rc_error_is.
  - split; [by eapply lmdb_opened_set_world|done].
  - split; [by eapply lmdb_opened_set_world|auto].
Qed.

Lemma lmdb_DBkcount_size m c e n c' : opened m c → DBkcount c = (e, n, c') →
  opened m c' ∧ (if isError e then lmdb_broken else n = Z.of_nat (size m)).
Proof.
  intros Ho. destruct (open_handle _ m c Ho) as (h & Hh & Hm & Hw). unfold DBkcount. rewrite Hw.
  destruct (cursor_txn h true _) as [[rc txn] w] eqn:Q. apply cursor_txn_law in Q as [Ew Et]. rewrite Hm in Ew, Et.
  destruct txn as [t|]; intros [= <- <- <-].
  - destruct Et as [_ Et]. split.
    + apply (lmdb_opened_set_world _ _ h); [done|]. unfold lmdb_content in *. by rewrite txn_abort_law.
    + simpl. by rewrite cursor_keys_sorted, Et, length_sorted_keys.
  - rewrite lmdb_rc_error_is. split; [by apply (lmdb_opened_set_world _ _ h)|done].
Qed.

Local Existing Instance inner.

Program Instance lmdb_inner_laws : InnerLaws LocalConfig (lmdb E) W := {| content := lmdb_content; broken := lmdb_broken |}.
Next Obligation.
  intros m k c e v c' Ho. simpl. destruct (open_handle _ m c Ho) as (h & Hh & Hm & Hw).
  unfold GetInner. rewrite Hw. destruct (mdb_txn_begin _ _ _) as [[rc txn] w] eqn:Q.
  destruct (txn_begin_law _ _ _ _ _ _ Q) as [Ew Et].
  destruct (match txn with Some _ => _ | None => _ end) as [rc1 v1] eqn:E1.
  intros Hr. assert (opened m (set_world (mdb_txn_abort txn w) c)) as Ho'.
  { apply (lmdb_opened_set_world _ _ h); [done|]. unfold lmdb_content in *. by rewrite txn_abort_law, Ew. }
  destruct (Z.eqb_spec rc LMDB_OK) as [->|Hn].
  - destruct (Et eq_refl) as (t & -> & _ & Htm). unfold lmdb_content in Hm. rewrite <- Htm in Hm.
    destruct (Z.eqb_spec rc1 LMDB_OK) as [->|Hn]; injection Hr as <- <- <-; (split; [done|]).
    + simpl. rewrite <- Hm. by apply mdb_get_law.
    + rewrite lmdb_rc_error_is. destruct (m !! k) eqn:Hk; [right|by left]. rewrite <- Hm in Hk. eauto.
  - assert (lmdb_broken) by eauto. assert (rc1 = rc) as -> by (destruct txn; by injection E1 as ->).
    destruct (Z.eqb_spec rc LMDB_OK); [done|]. injection Hr as <- <- <-. rewrite lmdb_rc_error_is. auto.
Qed.
Next Obligation.
  intros m k v c e c' Ho. simpl. destruct (open_handle _ m c Ho) as (h & Hh & Hm & Hw). unfold SetInner. rewrite Hw.
  intros Q. apply (write_law _ h _ (insert k v) (λ _, lmdb_broken) m) in Q; [|intros t rc t' Hp|done..].
  - destruct Q as [? Hb]. split; [done|]. intros He. by destruct (Hb He).
  - destruct (mdb_put_law _ _ _ _ _ _ Hp) as [? Hm']. split; [done|]. destruct (Z.eqb_spec rc LMDB_OK); eauto.
Qed.
Next Obligation.
  intros m k c e c' Ho. simpl. destruct (open_handle _ m c Ho) as (h & Hh & Hm & Hw). unfold DelInner. rewrite Hw.
  intros Q. apply (write_law _ h _ (delete k) (λ m, m !! k = None ∨ lmdb_broken) m) in Q; [|intros t rc t' Hp|done..].
  - destruct Q as [? Hb]. split; [done|]. intros He. destruct (Hb He); auto.
  - destruct (mdb_del_law _ _ _ _ _ Hp) as [? Hm']. split; [done|]. destruct (Z.eqb_spec rc LMDB_OK); [by apply Hm'|].
    destruct (txn_map t (dbir h) !! k) eqn:Hk; [right; eauto|by left].
Qed.
Next Obligation. intros m c e n c' Ho Q. by destruct (lmdb_DBkcount_size m c e n c' Ho Q) as [? ?]. Qed.

Lemma lmdb_Keys_between m c ks ke limit e ret c' : 0 <= limit → opened m c →
  Keys ks ke limit [] c = (e, ret, c') →
  opened m c' ∧
  if isError e then lmdb_broken
  else ret = take (Z.to_nat limit) (List.filter (strictly_between ks ke) (sorted_keys m)).
Proof.
  intros Hlim Ho. destruct (open_handle _ m c Ho) as (h & Hh & Hm & Hw). unfold Keys. rewrite Hw.
  destruct (cursor_txn h true _) as [[rc txn] w] eqn:Q. apply cursor_txn_law in Q as [Ew Et]. rewrite Hm in Ew, Et.
  destruct txn as [t|]; intros [= <- <- <-].
  - destruct Et as [_ Et]. split.
    + apply (lmdb_opened_set_world _ _ h); [done|]. unfold lmdb_content in *. by rewrite txn_abort_law.
    + simpl. by rewrite keys_between_loop_take, cursor_keys_sorted, Et.
  - rewrite lmdb_rc_error_is. split; [by apply (lmdb_opened_set_world _ _ h)|done].
Qed.

(** ** Flushing

    The cursor goes on to the next of the keys that were there, whatever has been deleted behind it. *)
Lemma flush_loop_deletes h fuel : ∀ t p sz rc t' sz', flush_loop fuel h t p sz = (rc, t', sz') →
  if rc =? LMDB_OK then
    txn_env t' = txn_env t ∧
    let gone := take fuel (List.filter (above p) (sorted_keys (txn_map t (dbir h)))) in
    txn_map t' (dbir h) = delete_keys gone (txn_map t (dbir h)) ∧ sz' = (sz + length gone)%nat
  else lmdb_broken.
Proof.
  induction fuel as [|fuel IH]; intros t p sz rc t' sz'; cbn [flush_loop].
  { intros [= <- <- <-]. simpl. split_and!; [done..|lia]. }
  rewrite cursor_next_law. unfold next_key.
  destruct (List.filter (above p) (sorted_keys (txn_map t (dbir h)))) as [|k rest] eqn:Hk; cbn [head].
  { intros [= <- <- <-]. simpl. split_and!; [done..|lia]. }
  destruct (mdb_del t (dbir h) k) as [rc1 t1] eqn:Hd. destruct (mdb_del_law _ _ _ _ _ Hd) as [He Hm].
  destruct (Z.eqb_spec rc1 LMDB_OK) as [->|Hn]; cbn [negb].
  2:{ intros [= <- <- <-]. destruct (Z.eqb_spec rc1 LMDB_OK); [done|].
      assert (k ∈ sorted_keys (txn_map t (dbir h))) as [v Hv]%elem_of_sorted_keys; [|eauto].
      eapply (elem_of_filter_bool (above p)). rewrite Hk. by left. }
  intros Hr. apply IH in Hr. destruct (rc =? LMDB_OK); [|done]. destruct Hr as (He' & Hm' & Hsz).
  rewrite Hm in Hm', Hsz by done.
  rewrite filter_above_delete, (filter_above_next p _ (sorted_keys_ascending _) _ _ Hk) in Hm', Hsz.
  split_and!; [congruence|by rewrite Hm'|rewrite Hsz; simpl; lia].
Qed.

Lemma lmdb_Flushdb_empties m c e c' : opened m c → Flushdb c = (e, c') →
  if isError e then lmdb_broken else opened ∅ c'.
Proof.
  intros Ho. destruct (open_handle _ m c Ho) as (h & Hh & Hm & Hw). unfold Flushdb. rewrite Hw.
  destruct (cursor_txn h false _) as [[rc txn] w] eqn:Q. apply cursor_txn_law in Q as [Ew Et]. rewrite Hm in Ew, Et.
  destruct txn as [t|]; [|intros [= <- <-]; by rewrite lmdb_rc_error_is]. destruct Et as [He Et].
  destruct (flush_loop _ h t None 0) as [[rc1 t1] sz] eqn:Hf. apply flush_loop_deletes in Hf.
  destruct (Z.eqb_spec rc1 LMDB_OK) as [->|Hn]; cbn [negb]; [|intros [= <- <-]; by rewrite lmdb_rc_error_is].
  destruct Hf as (He1 & Hm1 & Hsz).
  rewrite filter_all, entries_law, Et, <- length_sorted_keys, take_ge in Hm1, Hsz by done.
  rewrite delete_sorted_keys in Hm1. simpl in Hsz. subst sz. destruct (Nat.eqb_spec (length (sorted_keys m)) 0) as [Hz|Hz].
  - intros [= <- <-]. simpl. apply (lmdb_opened_set_world _ _ h); [done|]. unfold lmdb_content in *. rewrite txn_abort_law, Ew.
    rewrite length_sorted_keys in Hz. by apply map_size_empty_inv.
  - destruct (mdb_txn_commit t1 w) as [rc2 w2] eqn:Hc. pose proof (txn_commit_law _ _ _ _ Hc (dbir h)) as Hw2.
    rewrite He1, He in Hw2. destruct (Z.eqb_spec rc2 LMDB_OK) as [->|Hn]; cbn [negb]; intros [= <- <-].
    + simpl. apply (lmdb_opened_set_world _ _ h); [done|]. by rewrite <- Hm1.
    + rewrite lmdb_rc_error_is. eauto.
Qed.
End LmdbLaws.
