(* ===== verification/UnqliteProps.v ===== *)
(** What an UnQLite connection does, when the library keeps what its documentation says of records and
    cursors; the order of a cursor is the library's own. *)
From Stdlib Require Import Ascii String ZArith Lia.
From stdpp Require Import base list strings gmap sorting.
From S2P Require Import Prelude Common Texts Values Connection Translators Configs RedisReply NativeKv UnqliteConn.
Local Open Scope Z_scope.

(** The documented behaviour of the library: [unqlite_map] is the content, and [cursor_rest] are the keys
    from the one a cursor stands at. *)
Class UnqliteLaws (H C W : Type) `{!UnqliteLib H C W} := {
  unqlite_map : H → W → kv_map;
  cursor_rest : C → W → list bytes;
  cursor_of : C → H;
  store_law h k v w rc w' : unqlite_kv_store h k v w = (rc, w') →
    unqlite_map h w' = if rc =? rc_value UNQLITE_OK then <[k := v]> (unqlite_map h w) else unqlite_map h w;
  delete_law h k w rc w' : unqlite_kv_delete h k w = (rc, w') →
    unqlite_map h w' = if rc =? rc_value UNQLITE_OK then delete k (unqlite_map h w) else unqlite_map h w;
  fetch_law h k w v : unqlite_kv_fetch_callback h k w = (rc_value UNQLITE_OK, v) →
    unqlite_map h w !! k = Some (default [] v);
  init_law h w rc cur w' : unqlite_kv_cursor_init h w = (rc, cur, w') →
    unqlite_map h w' = unqlite_map h w ∧ (rc = rc_value UNQLITE_OK → cursor_of cur = h);
  first_law cur w : let w' := unqlite_kv_cursor_first_entry cur w in
    (∀ h, unqlite_map h w' = unqlite_map h w) ∧
    cursor_rest cur w' ≡ₚ sorted_keys (unqlite_map (cursor_of cur) w);
  valid_law cur w : unqlite_kv_cursor_valid_entry cur w = match cursor_rest cur w with [] => false | _ => true end;
  next_law cur w : let w' := unqlite_kv_cursor_next_entry cur w in
    (∀ h, unqlite_map h w' = unqlite_map h w) ∧ cursor_rest cur w' = tl (cursor_rest cur w);
  key_law cur w k : head (cursor_rest cur w) = Some k → unqlite_kv_cursor_key_callback cur w = Some k;
  release_law h cur w h' : unqlite_map h' (unqlite_kv_cursor_release h cur w) = unqlite_map h' w;
  unqlite_entries_law h w : unqlite_entries h w = size (unqlite_map h w)
}.

Import UnqliteConn.

Section UnqliteLaws.
Context {H C W : Type} `{!UnqliteLib H C W} `{!UnqliteLaws H C W} `{CommonLaws} `{!CommonRedis} `{!NativeFiles W}
  `{!ConfigLib} `{!Project}.
Local Abbreviation conn := (CDBConnection LocalConfig H W).
Implicit Types (c : conn) (w : W) (m : kv_map) (cur : C).
Local Existing Instance traits.
Local Abbreviation opened := (open_at unqlite_map).

(** Calls that fail although they need not. *)
Inductive unqlite_broken : Prop :=
| broken_fetch h k w v rc v' : unqlite_map h w !! k = Some v → unqlite_kv_fetch_callback h k w = (rc, v') →
    failed rc = true → unqlite_broken
| broken_store h k v w rc w' : unqlite_kv_store h k v w = (rc, w') → failed rc = true → unqlite_broken
| broken_delete h k w v rc w' : unqlite_map h w !! k = Some v → unqlite_kv_delete h k w = (rc, w') →
    failed rc = true → unqlite_broken
| broken_init h w rc cur w' : unqlite_kv_cursor_init h w = (rc, cur, w') → failed rc = true → unqlite_broken.
Local Hint Constructors unqlite_broken : core.

Lemma unqlite_opened_set_world m c h w : handle_ (connection_ c) = Some h → unqlite_map h w = m → opened m (set_world w c).
Proof. by apply open_set_world. Qed.

Lemma unqlite_rc_error_is text rc : isError (rc_error text rc) = true.
Proof. apply isError_make_error. Qed.

Lemma count_loop_counts cur fuel : ∀ sz w, (length (cursor_rest cur w) <= fuel)%nat →
  ∃ w', count_loop fuel cur sz w = (sz + Z.of_nat (length (cursor_rest cur w)), w') ∧
        ∀ h, unqlite_map h w' = unqlite_map h w.
Proof.
  induction fuel as [|fuel IH]; intros sz w Hl; cbn [count_loop].
  { exists w. split; [|done]. f_equal. lia. }
  rewrite valid_law. destruct (cursor_rest cur w) as [|k rest] eqn:Hr.
  { exists w. split; [|done]. f_equal. simpl. lia. }
  destruct (next_law cur w) as [Hm Hn]. rewrite Hr in Hn. simpl in Hn, Hl.
  destruct (IH (sz + 1) (unqlite_kv_cursor_next_entry cur w)) as (w' & -> & Hw'); [rewrite Hn; lia|].
  exists w'. rewrite Hn. split; [f_equal; simpl; lia|]. intros h. by rewrite Hw', Hm.
Qed.

Lemma unqlite_keys_loop_between cur ks ke limit fuel : 0 <= limit → ∀ ret w,
  (length (cursor_rest cur w) <= fuel)%nat → Z.of_nat (length ret) <= limit →
  ∃ w', keys_loop fuel cur ks ke limit ret w =
          (take (Z.to_nat limit) (ret ++ List.filter (strictly_between ks ke) (cursor_rest cur w)), w') ∧
        ∀ h, unqlite_map h w' = unqlite_map h w.
Proof.
  intros Hlim. induction fuel as [|fuel IH]; intros ret w Hl Hret; cbn [keys_loop].
  { exists w. split; [|done]. f_equal. destruct (cursor_rest cur w); [|simpl in Hl; lia]. simpl. rewrite app_nil_r.
    symmetry. apply take_ge. lia. }
  rewrite valid_law, Z.gtb_ltb. destruct (cursor_rest cur w) as [|k rest] eqn:Hr.
  { exists w. split; [|done]. simpl. rewrite app_nil_r, take_ge by lia. done. }
  destruct (Z.ltb_spec (Z.of_nat (length ret)) limit); cbn [andb].
  2:{ exists w. split; [|done]. rewrite take_app_le, take_ge by lia. done. }
  unfold cursor_key. rewrite (key_law cur w k) by by rewrite Hr. cbn [default].
  destruct (next_law cur w) as [Hm Hn]. rewrite Hr in Hn. simpl in Hn, Hl.
  match goal with |- context [keys_loop fuel cur ks ke limit ?r _] => set (ret' := r) end.
  destruct (IH ret' (unqlite_kv_cursor_next_entry cur w)) as (w' & -> & Hw'); [rewrite Hn; lia| |].
  { unfold ret'. simpl. destruct (_ && _); rewrite ?length_app; simpl; lia. }
  exists w'. split; [|intros h; by rewrite Hw', Hm]. rewrite Hn. subst ret'. f_equal. simpl.
  unfold strictly_between at 2. destruct (str_ltb ks k && str_ltb k ke); [by rewrite <- app_assoc|done].
Qed.

(** A cursor at the first entry, and the content behind it. *)
Lemma cursor_at_first h w rc cur w1 m : unqlite_kv_cursor_init h w = (rc, cur, w1) → failed rc = false →
  unqlite_map h w = m → let w2 := unqlite_kv_cursor_first_entry cur w1 in
  unqlite_map h w2 = m ∧ cursor_rest cur w2 ≡ₚ sorted_keys m ∧
  (length (cursor_rest cur w2) <= unqlite_entries h w)%nat.
Proof.
  intros Hi Hf <-. destruct (init_law _ _ _ _ _ Hi) as [Hm Hc]. destruct (first_law cur w1) as [Hm1 Hp].
  unfold failed in Hf. apply negb_false_iff, Z.eqb_eq in Hf. rewrite (Hc Hf), Hm in Hp.
  split_and!; [by rewrite Hm1|done|]. by rewrite Hp, unqlite_entries_law, length_sorted_keys.
Qed.

Lemma unqlite_DBkcount_size m c e n c' : opened m c → DBkcount c = (e, n, c') →
  opened m c' ∧ (if isError e then unqlite_broken else n = Z.of_nat (size m)).
Proof.
  intros Ho. destruct (open_handle _ m c Ho) as (h & Hh & Hm & Hw). unfold DBkcount. rewrite Hw.
  destruct (unqlite_kv_cursor_init h _) as [[rc cur] w] eqn:E. destruct (failed rc) eqn:Hf.
  { intros [= <- <- <-]. rewrite unqlite_rc_error_is. split; [|eauto]. apply (unqlite_opened_set_world _ _ h); [done|].
    by destruct (init_law _ _ _ _ _ E) as [-> _]. }
  destruct (cursor_at_first _ _ _ _ _ _ E Hf Hm) as (Hm2 & Hp & Hl).
  destruct (count_loop_counts cur _ 0 _ Hl) as (w' & -> & Hw'). intros [= <- <- <-]. split.
  - apply (unqlite_opened_set_world _ _ h); [done|]. by rewrite release_law, Hw'.
  - simpl. by rewrite Hp, length_sorted_keys.
Qed.

Lemma unqlite_Keys_between m c ks ke limit e ret c' : 0 <= limit → opened m c →
  Keys ks ke limit [] c = (e, ret, c') →
  opened m c' ∧
  if isError e then unqlite_broken
  else ∃ order, order ≡ₚ sorted_keys m ∧ ret = take (Z.to_nat limit) (List.filter (strictly_between ks ke) order).
Proof.
  intros Hlim Ho. destruct (open_handle _ m c Ho) as (h & Hh & Hm & Hw). unfold Keys. rewrite Hw.
  destruct (unqlite_kv_cursor_init h _) as [[rc cur] w] eqn:E. destruct (failed rc) eqn:Hf.
  { intros [= <- <- <-]. rewrite unqlite_rc_error_is. split; [|eauto]. apply (unqlite_opened_set_world _ _ h); [done|].
    by destruct (init_law _ _ _ _ _ E) as [-> _]. }
  destruct (cursor_at_first _ _ _ _ _ _ E Hf Hm) as (Hm2 & Hp & Hl).
  destruct (unqlite_keys_loop_between cur ks ke limit _ Hlim [] _ Hl) as (w' & -> & Hw'); [done|].
  intros [= <- <- <-]. split.
  - apply (unqlite_opened_set_world _ _ h); [done|]. by rewrite release_law, Hw'.
  - simpl. by eexists.
Qed.

(** An access that changes a record. *)
Lemma unqlite_change_law text h (g : kv_map → kv_map) m c rc w e c' :
  handle_ (connection_ c) = Some h →
  unqlite_map h w = (if rc =? rc_value UNQLITE_OK then g m else m) →
  (if failed rc then (rc_error text rc, set_world w c) else (no_error, set_world w c)) = (e, c') →
  opened (if isError e then m else g m) c' ∧ (isError e = true → failed rc = true).
Proof.
  intros Hh Hm. unfold failed. destruct (rc =? _); intros [= <- <-]; rewrite ?unqlite_rc_error_is;
    (split; [by eapply unqlite_opened_set_world|done]).
Qed.

Local Existing Instance inner.

Program Instance unqlite_inner_laws : InnerLaws LocalConfig H W := {| content := unqlite_map; broken := unqlite_broken |}.
Next Obligation.
  intros m k c e v c' Ho. simpl. destruct (open_handle _ m c Ho) as (h & Hh & Hm & Hw).
  unfold GetInner. rewrite Hw. destruct (unqlite_kv_fetch_callback h k _) as [rc v'] eqn:E.
  destruct (failed rc) eqn:Hf; intros [= <- <- <-]; (split; [done|]).
  - rewrite unqlite_rc_error_is, <- Hm. destruct (unqlite_map h (native_world c) !! k) eqn:Hk; [right; eauto|by left].
  - simpl. unfold failed in Hf. apply negb_false_iff, Z.eqb_eq in Hf. subst rc. apply fetch_law in E. by rewrite <- Hm.
Qed.
Next Obligation.
  intros m k v c e c' Ho. simpl. destruct (open_handle _ m c Ho) as (h & Hh & Hm & Hw). unfold SetInner. rewrite Hw.
  destruct (unqlite_kv_store h k v _) as [rc w] eqn:E. intros Q. apply (unqlite_change_law _ h (insert k v) m) in Q as [? Hb].
  - split; [done|]. intros He. specialize (Hb He). eauto.
  - done.
  - apply store_law in E. by rewrite Hm in E.
Qed.
Next Obligation.
  intros m k c e c' Ho. simpl. destruct (open_handle _ m c Ho) as (h & Hh & Hm & Hw). unfold DelInner. rewrite Hw.
  destruct (unqlite_kv_delete h k _) as [rc w] eqn:E. intros Q. apply (unqlite_change_law _ h (delete k) m) in Q as [? Hb].
  - split; [done|]. intros He. specialize (Hb He). rewrite <- Hm.
    destruct (unqlite_map h (native_world c) !! k) eqn:Hk; [right; eauto|by left].
  - done.
  - apply delete_law in E. by rewrite Hm in E.
Qed.
Next Obligation. intros m c e n c' Ho E. by destruct (unqlite_DBkcount_size m c e n c' Ho E) as [? ?]. Qed.
End UnqliteLaws.
