(* ===== verification/UpscaledbProps.v ===== *)
(** What an UpscaleDB connection does, when the library keeps what its documentation says of records and
    cursors. *)
From Stdlib Require Import Ascii String ZArith Lia.
From stdpp Require Import base list strings gmap sorting.
From S2P Require Import Prelude Common Texts Values Connection Translators Configs RedisReply NativeKv UpscaledbConn.
Local Open Scope Z_scope.

(** The documented behaviour of the library: [ups_map] is the content, [cursor_pos] the key a cursor
    stands at.  A move that finds nothing leaves [key] as it was. *)
Class UpscaledbLaws (E D C W : Type) `{!UpscaledbLib E D C W} := {
  ups_map : D → W → kv_map;
  cursor_pos : C → W → option bytes;
  cursor_db : C → D;
  not_found_law : UPS_KEY_NOT_FOUND ≠ UPS_SUCCESS;
  insert_law d k v w st w' : ups_db_insert d k v w = (st, w') →
    ups_map d w' = if st =? UPS_SUCCESS then <[k := v]> (ups_map d w) else ups_map d w;
  erase_law d k w st w' : ups_db_erase d k w = (st, w') →
    ups_map d w' = if st =? UPS_SUCCESS then delete k (ups_map d w) else ups_map d w;
  find_law d k w v : ups_db_find d k w = (UPS_SUCCESS, v) → ups_map d w !! k = Some v;
  count_law d w n : ups_db_count d w = (UPS_SUCCESS, n) → n = Z.of_nat (size (ups_map d w));
  create_law d w st cur w' : ups_cursor_create d w = (st, cur, w') →
    ups_map d w' = ups_map d w ∧ (st = UPS_SUCCESS → cursor_db cur = d);
  move_law cur dir key w st key' w' : ups_cursor_move cur dir key w = (st, key', w') →
    let m := ups_map (cursor_db cur) w in
    let p := match dir with UPS_CURSOR_FIRST => None | UPS_CURSOR_NEXT => cursor_pos cur w end in
    (∀ d, ups_map d w' = ups_map d w) ∧
    (st = UPS_SUCCESS → next_key m p = Some key' ∧ cursor_pos cur w' = Some key') ∧
    (st = UPS_KEY_NOT_FOUND → next_key m p = None ∧ key' = key);
  close_law cur w d : ups_map d (ups_cursor_close cur w) = ups_map d w;
  ups_entries_law d w : ups_entries d w = size (ups_map d w)
}.

Import UpscaledbConn.

Section UpscaledbLaws.
Context {E D C W : Type} `{!UpscaledbLib E D C W} `{!UpscaledbLaws E D C W} `{CommonLaws} `{!CommonRedis}
  `{!NativeFiles W} `{!ConfigLib} `{!Project}.
Local Abbreviation conn := (CDBConnection LocalConfig (upscaledb E D) W).
Implicit Types (c : conn) (w : W) (m : kv_map) (cur : C).
Local Existing Instance traits.

Definition ups_content (h : upscaledb E D) w : kv_map := ups_map (db h) w.
Local Abbreviation opened := (open_at ups_content).

(** Calls that fail although they need not. *)
Inductive ups_broken : Prop :=
| broken_find d k w v st v' : ups_map d w !! k = Some v → ups_db_find d k w = (st, v') → failed st = true → ups_broken
| broken_insert d k v w st w' : ups_db_insert d k v w = (st, w') → failed st = true → ups_broken
| broken_erase d k w v st w' : ups_map d w !! k = Some v → ups_db_erase d k w = (st, w') → failed st = true → ups_broken
| broken_count d w st n : ups_db_count d w = (st, n) → failed st = true → ups_broken
| broken_create d w st cur w' : ups_cursor_create d w = (st, cur, w') → failed st = true → ups_broken
| broken_move cur dir key w st key' w' : ups_cursor_move cur dir key w = (st, key', w') →
    failed st = true → not_found st = false → ups_broken.
Local Hint Constructors ups_broken : core.

Lemma ups_opened_set_world m c h w : handle_ (connection_ c) = Some h → ups_content h w = m → opened m (set_world w c).
Proof. by apply open_set_world. Qed.

Lemma st_error_is text st : isError (st_error text st) = true.
Proof. apply isError_make_error. Qed.

Lemma failed_false st : failed st = false ↔ st = UPS_SUCCESS.
Proof. unfold failed. by rewrite negb_false_iff, Z.eqb_eq. Qed.

Lemma first_record_law text d w e found w' : first_record text d w = (e, found, w') →
  ups_map d w' = ups_map d w ∧
  match found with
  | Some (cur, key) => cursor_db cur = d ∧ cursor_pos cur w' = Some key ∧ next_key (ups_map d w) None = Some key
  | None => if isError e then ups_broken else next_key (ups_map d w) None = None
  end.
Proof.
  unfold first_record. destruct (ups_cursor_create d w) as [[st cur] w1] eqn:Hc. destruct (create_law _ _ _ _ _ Hc) as [Hm1 Hd].
  destruct (failed st) eqn:Hs.
  { intros [= <- <- <-]. rewrite st_error_is. eauto. }
  apply failed_false in Hs.
  destruct (ups_cursor_move cur _ [] w1) as [[st1 key] w2] eqn:Hv. destruct (move_law _ _ _ _ _ _ _ Hv) as (Hm & Hok & Hnf).
  rewrite (Hd Hs), Hm1 in Hok, Hnf. destruct (not_found st1) eqn:Hn.
  { intros [= <- <- <-]. rewrite close_law, Hm, Hm1. apply Z.eqb_eq in Hn. split; [done|]. simpl. by apply Hnf. }
  destruct (failed st1) eqn:Hs1; intros [= <- <- <-]; rewrite Hm, Hm1; (split; [done|]).
  - rewrite st_error_is. eauto.
  - apply failed_false in Hs1. destruct (Hok Hs1) as [? ?]. by rewrite Hd.
Qed.

Fixpoint last_key (l : list bytes) (k : bytes) : bytes :=
  match l with [] => k | k' :: l => last_key l k' end.

Lemma last_key_last l k : last_key l k = List.last l k.
Proof.
  revert k. induction l as [|j l IH]; intros k; [done|]. cbn [last_key]. rewrite IH. clear IH.
  destruct l as [|i l]; [done|]. cbn [List.last]. revert i. induction l as [|x l IH]; intros i; [done|]. apply IH.
Qed.

(** From a record on, the loop sees the keys behind it, and then the last key once more. *)
Lemma keys_loop_behind cur ks ke limit m fuel : ∀ key rest ret w e ret' w',
  ups_map (cursor_db cur) w = m → cursor_pos cur w = Some key →
  List.filter (above (Some key)) (sorted_keys m) = rest → (length rest < fuel)%nat →
  Z.of_nat (length ret) < limit →
  keys_loop fuel cur ks ke limit key ret w = (e, ret', w') →
  ups_map (cursor_db cur) w' = m ∧
  if isError e then ups_broken
  else ret' = take (Z.to_nat limit) (ret ++ List.filter (strictly_between ks ke) (rest ++ [last_key rest key])).
Proof.
  induction fuel as [|fuel IH]; intros key rest ret w e ret' w' Hm Hp Hr Hl Hret; [lia|]. cbn [keys_loop].
  destruct (ups_cursor_move cur _ key w) as [[st key'] w1] eqn:Hv. destruct (move_law _ _ _ _ _ _ _ Hv) as (Hm1 & Hok & Hnf).
  rewrite Hm, Hp in Hok, Hnf. unfold next_key in Hok, Hnf. rewrite Hr in Hok, Hnf.
  destruct (failed st) eqn:Hf; cbn [andb].
  - destruct (not_found st) eqn:Hn; cbn [negb].
    2:{ intros [= <- <- <-]. rewrite close_law, Hm1, st_error_is. eauto. }
    apply Z.eqb_eq in Hn. destruct (Hnf Hn) as [Hh ->]. destruct rest; [|done].
    destruct (Z.eqb_spec st UPS_SUCCESS) as [->|]; [by destruct not_found_law|]. cbn [andb].
    intros [= <- <- <-]. rewrite close_law, Hm1. split; [done|]. simpl. unfold strictly_between.
    destruct (_ && _); rewrite ?app_nil_r, take_ge; rewrite ?length_app; simpl; try lia; done.
  - apply failed_false in Hf as ->. rewrite Z.eqb_refl. cbn [andb].
    destruct (Hok eq_refl) as [Hh Hp1]. destruct rest as [|k rest]; [done|]. injection Hh as ->.
    destruct (Z.gtb_spec limit (Z.of_nat (length (if str_ltb ks key' && str_ltb key' ke then ret ++ [key'] else ret)))) as [Hg|Hg].
    + intros Hk. apply (IH _ rest) in Hk as [Hm' Hres]; [|by rewrite Hm1|done| |simpl in Hl; lia|lia].
      2:{ by apply (filter_above_next (Some key)); [apply sorted_keys_ascending|]. }
      split; [done|]. destruct (isError e); [done|]. rewrite Hres. f_equal. simpl List.app. cbn [List.filter last_key].
      unfold strictly_between at 2. destruct (str_ltb ks key' && str_ltb key' ke); [by rewrite <- app_assoc|done].
    + intros [= <- <- <-]. rewrite close_law, Hm1. split; [done|]. simpl isError. simpl List.app. cbn [List.filter].
      unfold strictly_between at 1. destruct (str_ltb ks key' && str_ltb key' ke); [|lia].
      rewrite length_app in Hg. simpl in Hg. rewrite (cons_middle key' ret (List.filter _ _)), app_assoc.
      assert (length (ret ++ [key']) = Z.to_nat limit) as <- by (rewrite length_app; simpl; lia).
      by rewrite take_app_length.
Qed.

(** The keys that [Keys] looks at: the first one is passed over, the last one is looked at twice. *)
Definition looked_at m : list bytes :=
  match sorted_keys m with [] => [] | k :: rest => rest ++ [last_key rest k] end.

Lemma ups_Keys_seen m c ks ke limit e ret c' : 0 < limit → opened m c →
  Keys ks ke limit [] c = (e, ret, c') →
  opened m c' ∧
  if isError e then ups_broken
  else ret = take (Z.to_nat limit) (List.filter (strictly_between ks ke) (looked_at m)).
Proof.
  intros Hlim Ho. destruct (open_handle _ m c Ho) as (h & Hh & Hm & Hw). unfold Keys. rewrite Hw.
  destruct (first_record _ _ _) as [[e1 found] w] eqn:Hf. apply first_record_law in Hf as [Hm1 Hf].
  fold (ups_content h (native_world c)) in Hm1, Hf. rewrite Hm in Hm1, Hf. unfold looked_at.
  destruct found as [[cur key]|].
  - destruct Hf as (Hd & Hp & Hk). destruct (keys_loop _ _ _ _ _ _ _ _) as [[e2 r2] w2] eqn:Hl. intros [= <- <- <-].
    unfold next_key in Hk. rewrite (filter_all (above None)) in Hk by done.
    destruct (sorted_keys m) as [|k rest] eqn:Hs; [done|]. injection Hk as ->.
    apply (keys_loop_behind _ _ _ _ m _ _ rest) in Hl as [Hm' Hres]; [|by rewrite Hd|done| | |].
    + rewrite Hd in Hm'. split; [by apply (ups_opened_set_world _ _ h)|by apply Hres].
    + apply (filter_above_next None); [apply sorted_keys_ascending|]. rewrite filter_all by done. done.
    + unfold ups_content in Hm. rewrite ups_entries_law, Hm, <- length_sorted_keys, Hs. simpl. lia.
    + done.
  - intros [= <- <- <-]. split; [by apply (ups_opened_set_world _ _ h)|]. destruct (isError e1); [done|].
    unfold next_key in Hf. rewrite (filter_all (above None)) in Hf by done.
    destruct (sorted_keys m); [|done]. by rewrite firstn_nil.
Qed.

(** An access that changes a record. *)
Lemma ups_change_law text h (g : kv_map → kv_map) m c st w e c' :
  handle_ (connection_ c) = Some h →
  ups_content h w = (if st =? UPS_SUCCESS then g m else m) →
  (if failed st then (st_error text st, set_world w c) else (no_error, set_world w c)) = (e, c') →
  opened (if isError e then m else g m) c' ∧ (isError e = true → failed st = true).
Proof.
  intros Hh Hm. unfold failed. destruct (st =? _); intros [= <- <-]; rewrite ?st_error_is;
    (split; [by eapply ups_opened_set_world|done]).
Qed.

Local Existing Instance inner.

Program Instance ups_inner_laws : InnerLaws LocalConfig (upscaledb E D) W :=
  {| content := ups_content; broken := ups_broken |}.
Next Obligation.
  intros m k c e v c' Ho. simpl. destruct (open_handle _ m c Ho) as (h & Hh & Hm & Hw).
  unfold GetInner. rewrite Hw. destruct (ups_db_find (db h) k _) as [st v'] eqn:Q.
  destruct (failed st) eqn:Hf; intros [= <- <- <-]; (split; [done|]).
  - rewrite st_error_is, <- Hm. destruct (ups_content h (native_world c) !! k) eqn:Hk; [right; eauto|by left].
  - simpl. apply failed_false in Hf as ->. apply find_law in Q. by rewrite <- Hm.
Qed.
Next Obligation.
  intros m k v c e c' Ho. simpl. destruct (open_handle _ m c Ho) as (h & Hh & Hm & Hw). unfold SetInner. rewrite Hw.
  destruct (ups_db_insert (db h) k v _) as [st w] eqn:Q. intros Q1. apply (ups_change_law _ h (insert k v) m) in Q1 as [? Hb].
  - split; [done|]. intros He. specialize (Hb He). eauto.
  - done.
  - apply insert_law in Q. unfold ups_content in *. by rewrite Hm in Q.
Qed.
Next Obligation.
  intros m k c e c' Ho. simpl. destruct (open_handle _ m c Ho) as (h & Hh & Hm & Hw). unfold DelInner. rewrite Hw.
  destruct (ups_db_erase (db h) k _) as [st w] eqn:Q. intros Q1. apply (ups_change_law _ h (delete k) m) in Q1 as [? Hb].
  - split; [done|]. intros He. specialize (Hb He). rewrite <- Hm.
    destruct (ups_content h (native_world c) !! k) eqn:Hk; [right; eauto|by left].
  - done.
  - apply erase_law in Q. unfold ups_content in *. by rewrite Hm in Q.
Qed.
Next Obligation.
  intros m c e n c' Ho. simpl. destruct (open_handle _ m c Ho) as (h & Hh & Hm & Hw). unfold DBkcount. rewrite Hw.
  destruct (ups_db_count (db h) _) as [st sz] eqn:Q. destruct (failed st) eqn:Hf; intros [= <- <- <-]; (split; [done|]).
  - rewrite st_error_is. eauto.
  - simpl. apply failed_false in Hf as ->. apply count_law in Q. unfold ups_content in Hm. by rewrite Q, Hm.
Qed.
End UpscaledbLaws.
