(* ===== verification/NativeSessions.v ===== *)
(** The connections of the five embedded stores together: that sessions on them are sessions on a finite
    map, what [Keys] and [Flushdb] do on each, and libraries in memory at which the theorems are tried out. *)
From Stdlib Require Import Ascii String ZArith Lia.
From stdpp Require Import base list strings gmap sorting.
From S2P Require Import Prelude Common Texts Values Connection Translators Configs RedisReply NativeKv LsmConn LmdbConn UnqliteConn UpscaledbConn LsmProps LmdbProps UnqliteProps UpscaledbProps.
Local Open Scope Z_scope.
#[local] Set Warnings "-register-all".

(** * Libraries in memory *)

Section Memory.
Implicit Types m : kv_map.

Definition mem_files {W} : NativeFiles W := {| is_directory _ _ := true; get_dir_path p := p |}.

Definition mem_lsm : LsmLib unit kv_map := {|
  lsm_Open _ _ m := (None, Some tt, m);
  lsm_close _ m := m;
  lsm_Get _ k m := match m !! k with Some v => (None, v) | None => (Some (lit "NotFound: "), []) end;
  lsm_Put _ k v m := (None, <[k := v]> m);
  lsm_Delete _ k m := (None, delete k m);
  lsm_MultiGet _ ks m :=
    (List.map (λ k, if m !! k is Some _ then None else Some (lit "NotFound: ")) ks, List.map (λ k, default [] (m !! k)) ks);
  lsm_Merge _ k v m := (Some (lit "Not implemented: "), m);
  lsm_Seek _ s m := records_from s m;
  lsm_status _ _ _ _ := None;
  lsm_GetProperty _ _ _ := None
|}.

Program Definition mem_lsm_laws : @LsmLaws unit kv_map mem_lsm := {| lsm_content _ m := m |}.
Next Obligation. intros [] k m v. simpl. by destruct (m !! k); intros [= <-]. Qed.
Next Obligation. by intros [] k v m st m' [= <- <-]. Qed.
Next Obligation. by intros [] k m st m' [= <- <-]. Qed.
Next Obligation. done. Qed.

Definition MDB_NOTFOUND : Z := -30798.

Definition mem_lmdb : LmdbLib unit kv_map kv_map := {|
  mdb_env_create m := (0, tt, m);
  mdb_env_open _ _ m := (0, m);
  mdb_env_close _ m := m;
  mdb_txn_begin _ _ m := (0, Some m, m);
  mdb_txn_commit t _ := (0, t);
  mdb_txn_abort _ m := m;
  mdb_dbi_open t := (0, 1, t);
  mdb_dbi_close _ _ m := m;
  mdb_get t _ k := match t !! k with Some v => (0, v) | None => (MDB_NOTFOUND, []) end;
  mdb_put t _ k v := (0, <[k := v]> t);
  mdb_del t _ k := if t !! k is Some _ then (0, delete k t) else (MDB_NOTFOUND, t);
  mdb_cursor_open _ _ := 0;
  mdb_cursor_next t _ p := next_key t p;
  mdb_entries t _ := size t;
  mdb_strerror _ := lit "MDB_NOTFOUND: No matching key/data pair found";
  create_directory _ _ m := (no_error, m)
|}.

Program Definition mem_lmdb_laws : @LmdbLaws unit kv_map kv_map mem_lmdb :=
  {| env_map _ _ m := m; txn_map t _ := t; txn_env _ := tt |}.
Next Obligation. intros [] rd m rc txn m' [= <- <- <-]. split; [done|]. intros _. by exists m. Qed.
Next Obligation. by intros t m rc m' [= <- <-]. Qed.
Next Obligation. done. Qed.
Next Obligation. intros t d k v. simpl. by destruct (t !! k); intros [= <-]. Qed.
Next Obligation. by intros t d k v rc t' [= <- <-]. Qed.
Next Obligation. intros t d k rc t'. simpl. by destruct (t !! k); intros [= <- <-]. Qed.
Next Obligation. done. Qed.
Next Obligation. done. Qed.

Definition mem_rc (rc : unqlite_rc) : Z :=
  match rc with UNQLITE_OK => 0 | UNQLITE_NOMEM => -1 | UNQLITE_NOTFOUND => -6 | _ => -25 end.

(** The rest of the one cursor is kept beside the records. *)
Definition mem_unqlite : UnqliteLib unit unit (kv_map * list bytes) := {|
  rc_value := mem_rc;
  unqlite_open _ _ w := (0, Some tt, w);
  unqlite_close _ w := w;
  unqlite_kv_store _ k v w := (0, (<[k := v]> w.1, w.2));
  unqlite_kv_delete _ k w := if w.1 !! k is Some _ then (0, (delete k w.1, w.2)) else (-6, w);
  unqlite_kv_fetch_callback _ k w := match w.1 !! k with Some v => (0, Some v) | None => (-6, None) end;
  unqlite_kv_cursor_init _ w := (0, tt, w);
  unqlite_kv_cursor_first_entry _ w := (w.1, List.rev (sorted_keys w.1));
  unqlite_kv_cursor_valid_entry _ w := match w.2 with [] => false | _ => true end;
  unqlite_kv_cursor_next_entry _ w := (w.1, tl w.2);
  unqlite_kv_cursor_key_callback _ w := head w.2;
  unqlite_kv_cursor_release _ _ w := w;
  unqlite_entries _ w := size w.1
|}.

Program Definition mem_unqlite_laws : @UnqliteLaws unit unit (kv_map * list bytes) mem_unqlite :=
  {| unqlite_map _ w := w.1; cursor_rest _ w := w.2; cursor_of _ := tt |}.
Next Obligation. by intros [] k v w rc w' [= <- <-]. Qed.
Next Obligation. intros [] k w rc w'. simpl. by destruct (w.1 !! k); intros [= <- <-]. Qed.
Next Obligation. intros [] k w v. simpl. by destruct (w.1 !! k); intros [= <-]. Qed.
Next Obligation. by intros [] w rc [] w' [= <- <-]. Qed.
Next Obligation. intros [] w. simpl. split; [done|]. symmetry. apply Permutation_rev. Qed.
Next Obligation. done. Qed.
Next Obligation. done. Qed.
Next Obligation. done. Qed.
Next Obligation. done. Qed.
Next Obligation. done. Qed.

(** The position of the one cursor is kept beside the records. *)
Definition mem_ups : UpscaledbLib unit unit unit (kv_map * option bytes) := {|
  ups_env_create _ w := (0, tt, w);
  ups_env_open _ w := (0, tt, w);
  ups_env_create_db _ _ w := (0, tt, w);
  ups_db_close _ w := w;
  ups_env_close _ w := w;
  ups_strerror _ := lit "Key not found";
  UPS_KEY_NOT_FOUND := -11;
  ups_db_count _ w := (0, Z.of_nat (size w.1));
  ups_db_insert _ k v w := (0, (<[k := v]> w.1, w.2));
  ups_db_find _ k w := match w.1 !! k with Some v => (0, v) | None => (-11, []) end;
  ups_db_erase _ k w := if w.1 !! k is Some _ then (0, (delete k w.1, w.2)) else (-11, w);
  ups_cursor_create _ w := (0, tt, (w.1, None));
  ups_cursor_move _ dir key w :=
    match next_key w.1 (match dir with UPS_CURSOR_FIRST => None | UPS_CURSOR_NEXT => w.2 end) with
    | Some k => (0, k, (w.1, Some k))
    | None => (-11, key, w)
    end;
  ups_cursor_close _ w := w;
  ups_entries _ w := size w.1
|}.

Program Definition mem_ups_laws : @UpscaledbLaws unit unit unit (kv_map * option bytes) mem_ups :=
  {| ups_map _ w := w.1; cursor_pos _ w := w.2; cursor_db _ := tt |}.
Next Obligation. done. Qed.
Next Obligation. by intros [] k v w st w' [= <- <-]. Qed.
Next Obligation. intros [] k w st w'. simpl. by destruct (w.1 !! k); intros [= <- <-]. Qed.
Next Obligation. intros [] k w v. simpl. by destruct (w.1 !! k); intros [= <-]. Qed.
Next Obligation. by intros [] w n [= <-]. Qed.
Next Obligation. by intros [] w st [] w' [= <- <-]. Qed.
Next Obligation.
  intros [] dir key w st key' w'. simpl. destruct (next_key _ _); intros [= <- <- <-]; by split_and!.
Qed.
Next Obligation. done. Qed.
Next Obligation. done. Qed.
End Memory.

(** * The five stores *)

Section Stores.
Context `{CommonLaws} `{!CommonRedis} `{!ConfigLib} `{!Project}.
Context {HL WL : Type} `{!LsmLib HL WL} `{!LsmLaws HL WL} `{!NativeFiles WL}.
Context {EM TM WM : Type} `{!LmdbLib EM TM WM} `{!LmdbLaws EM TM WM} `{!NativeFiles WM}.
Context {HU CU WU : Type} `{!UnqliteLib HU CU WU} `{!UnqliteLaws HU CU WU} `{!NativeFiles WU}.
Context {EP DP CP WP : Type} `{!UpscaledbLib EP DP CP WP} `{!UpscaledbLaws EP DP CP WP} `{!NativeFiles WP}.

Abbreviation leveldb_open := (@open_at LocalConfig HL WL LeveldbConn.traits lsm_content).
Abbreviation rocksdb_open := (@open_at LocalConfig HL WL RocksdbConn.traits lsm_content).
Abbreviation lmdb_opened := (@open_at LocalConfig (lmdb EM) WM LmdbConn.traits lmdb_content).
Abbreviation unqlite_opened := (@open_at LocalConfig HU WU UnqliteConn.traits unqlite_map).
Abbreviation upscaledb_opened := (@open_at LocalConfig (upscaledb EP DP) WP UpscaledbConn.traits ups_content).


(** C37. On LevelDB and RocksDB [Keys] gives the first [limit] keys of the store, in the order of their
    bytes, that are not before [key_start] and before [key_end]; it changes nothing, and only a library
    that fails makes it fail. *)
Theorem ordered_keys_in_range ks ke limit m (Hlimit : 0 <= limit) :
  (∀ c e ret c', leveldb_open m c → @LeveldbConn.Keys HL WL _ _ _ _ ks ke limit [] c = (e, ret, c') →
     c' = c ∧
     if isError e then lsm_broken else ret = take (Z.to_nat limit) (List.filter (in_range ks ke) (sorted_keys m))) ∧
  (∀ c e ret c', rocksdb_open m c → @RocksdbConn.Keys HL WL _ _ _ _ ks ke limit [] c = (e, ret, c') →
     c' = c ∧
     if isError e then lsm_broken else ret = take (Z.to_nat limit) (List.filter (in_range ks ke) (sorted_keys m))).
Proof. split; intros c e ret c'; by apply lsm_Keys_range. Qed.

(** On LMDB [Keys] gives the first [limit] keys strictly between [key_start] and [key_end], in the order
    of their bytes; on UnQLite it gives [limit] of them, in an order of the library's.  A key equal to
    [key_start] is left out, unlike on LevelDB. *)
Theorem cursor_keys_between ks ke limit m (Hlimit : 0 <= limit) :
  (∀ c e ret c', lmdb_opened m c → LmdbConn.Keys ks ke limit [] c = (e, ret, c') →
     lmdb_opened m c' ∧
     if isError e then lmdb_broken
     else ret = take (Z.to_nat limit) (List.filter (strictly_between ks ke) (sorted_keys m))) ∧
  (∀ c e ret c', unqlite_opened m c → UnqliteConn.Keys ks ke limit [] c = (e, ret, c') →
     unqlite_opened m c' ∧
     if isError e then unqlite_broken
     else ∃ order, order ≡ₚ sorted_keys m ∧ ret = take (Z.to_nat limit) (List.filter (strictly_between ks ke) order)).
Proof. split; intros c e ret c'; [by apply lmdb_Keys_between|by apply unqlite_Keys_between]. Qed.

(** On UpscaleDB [Keys] passes over the first key of the store and looks at the last one twice: it gives
    the first [limit] of the keys strictly between [key_start] and [key_end] among the others in order
    followed by the last; of a store of one key it gives that key. *)
Theorem upscaledb_keys_shifted ks ke limit m c e ret c' (Hlimit : 0 < limit) (Hopen : upscaledb_opened m c)
    (Hkeys : UpscaledbConn.Keys ks ke limit [] c = (e, ret, c')) :
  upscaledb_opened m c' ∧
  if isError e then ups_broken
  else ret = take (Z.to_nat limit) (List.filter (strictly_between ks ke)
               match sorted_keys m with [] => [] | k :: rest => rest ++ [List.last rest k] end).
Proof.
  apply (ups_Keys_seen m) in Hkeys; [|done..]. unfold looked_at in Hkeys.
  destruct (sorted_keys m) as [|k rest]; [done|]. by rewrite <- last_key_last.
Qed.

(** [Flushdb] that reports success leaves LevelDB, RocksDB and LMDB stores empty, and only a library that
    fails makes it fail. *)
Theorem flushdb_empties m :
  (∀ c e c', leveldb_open m c → @LeveldbConn.Flushdb HL WL _ _ _ _ c = (e, c') →
     if isError e then lsm_broken else leveldb_open ∅ c') ∧
  (∀ c e c', rocksdb_open m c → @RocksdbConn.Flushdb HL WL _ _ _ _ c = (e, c') →
     if isError e then lsm_broken else rocksdb_open ∅ c') ∧
  (∀ c e c', lmdb_opened m c → LmdbConn.Flushdb c = (e, c') →
     if isError e then lmdb_broken else lmdb_opened ∅ c').
Proof.
  split_and!; intros c e c'; [by apply lsm_Flushdb_empties..|by apply lmdb_Flushdb_empties].
Qed.
End Stores.

(** * The libraries in memory do not fail

    With them only the results of the finite map are left. *)
Lemma mem_lsm_works : ¬ @lsm_broken unit kv_map mem_lsm mem_lsm_laws.
Proof.
  intros [[] k m v t v' Hk Hg|[] k v m t m' Hp|[] k m t m' Hd|[] s n m t Hs]; try done.
  simpl in *. by rewrite Hk in Hg.
Qed.

Lemma mem_lmdb_works : ¬ @lmdb_broken unit kv_map kv_map mem_lmdb mem_lmdb_laws.
Proof.
  intros [e rd m rc txn m' Hb|t m rc m' Hc|t d Hc|t d k v rc v' Hk Hg|t d k v rc t' Hp|t d k v rc t' Hk Hd]; simpl in *.
  - by injection Hb as <- <- <-.
  - by injection Hc as <- <-.
  - done.
  - rewrite Hk in Hg. by injection Hg as <- <-.
  - by injection Hp as <- <-.
  - rewrite Hk in Hd. by injection Hd as <- <-.
Qed.

(** A connection to each, with three records. *)
Definition sample_map : kv_map :=
  <[lit "a" := lit "1"]> (<[lit "b" := lit "2"]> (<[lit "c" := lit "3"]> ∅)).
Definition sample_on {H W} (h : H) (w : W) : CDBConnection LocalConfig H W :=
  mkCDB (mkConnection (@LeveldbConfig.Config config_ref) (Some h) w) false (Some []).
Definition sample_key (s : string) : NKey := mkNKey (lit s) (-1).
Definition sample_ops : list cdb_op :=
  [OpRename (sample_key "a") (lit "d"); OpGet (sample_key "d"); OpGet (sample_key "a"); OpDelete [sample_key "b"]].

Definition sample_lsm : CDBConnection LocalConfig unit kv_map := sample_on tt sample_map.
Definition sample_lmdb : CDBConnection LocalConfig (lmdb unit) kv_map := sample_on (mkLmdb tt 1) sample_map.
Definition sample_unqlite : CDBConnection LocalConfig unit (kv_map * list bytes) := sample_on tt (sample_map, []).
Definition sample_ups : CDBConnection LocalConfig (upscaledb unit unit) (kv_map * option bytes) :=
  sample_on (mkUpscaledb tt tt 1) (sample_map, None).

Section Witnesses.
Local Existing Instances common_ref common_ref_laws common_redis_ref config_ref mem_lsm mem_lsm_laws mem_files
  mem_lmdb mem_lmdb_laws mem_unqlite mem_unqlite_laws mem_ups mem_ups_laws.
Local Instance sample_project : Project := lit "FastoNoSQL".


Lemma ordered_keys_in_range_witness :
  (sample_lsm = sample_lsm ∧
   if isError no_error then @lsm_broken unit kv_map mem_lsm mem_lsm_laws
   else [lit "a"] = take 1 (List.filter (in_range (lit "a") (lit "c")) (sorted_keys sample_map))) ∧
  (sample_lsm = sample_lsm ∧
   if isError no_error then @lsm_broken unit kv_map mem_lsm mem_lsm_laws
   else [lit "a"; lit "b"] = take 5 (List.filter (in_range (lit "a") (lit "c")) (sorted_keys sample_map))).
Proof.
  split.
  - apply (proj1 (ordered_keys_in_range (HL := unit) (WL := kv_map) (lit "a") (lit "c") 1 sample_map ltac:(done))
      sample_lsm no_error [lit "a"] sample_lsm); [split; [done|by exists tt]|by_running].
  - apply (proj2 (ordered_keys_in_range (HL := unit) (WL := kv_map) (lit "a") (lit "c") 5 sample_map ltac:(done))
      sample_lsm no_error [lit "a"; lit "b"] sample_lsm); [split; [done|by exists tt]|by_running].
Defined.

Lemma cursor_keys_between_witness :
  (@open_at _ _ _ LmdbConn.traits lmdb_content sample_map sample_lmdb ∧
   if isError no_error then @lmdb_broken unit kv_map kv_map mem_lmdb mem_lmdb_laws
   else [lit "b"] = take 5 (List.filter (strictly_between (lit "a") (lit "c")) (sorted_keys sample_map))) ∧
  (@open_at _ _ _ UnqliteConn.traits unqlite_map sample_map sample_unqlite ∧
   if isError no_error then @unqlite_broken unit unit _ mem_unqlite mem_unqlite_laws
   else ∃ order, order ≡ₚ sorted_keys sample_map ∧
          [lit "c"] = take 1 (List.filter (strictly_between (lit "a") (lit "d")) order)).
Proof.
  split.
  - apply (proj1 (cursor_keys_between (EM := unit) (TM := kv_map) (WM := kv_map)
      (HU := unit) (CU := unit) (WU := kv_map * list bytes) (lit "a") (lit "c") 5 sample_map ltac:(done))
      sample_lmdb no_error [lit "b"] sample_lmdb);
      [split; [done|by exists (mkLmdb tt 1)]|by_running].
  - destruct (proj2 (cursor_keys_between (EM := unit) (TM := kv_map) (WM := kv_map)
      (HU := unit) (CU := unit) (WU := kv_map * list bytes) (lit "a") (lit "d") 1 sample_map ltac:(done))
      sample_unqlite no_error [lit "c"]
      (@sample_on unit _ tt (sample_map, [lit "b"; lit "a"]))) as [_ Hres];
      [split; [done|by exists tt]|by_running|].
    split; [split; [done|by exists tt]|exact Hres].
Defined.

Lemma upscaledb_keys_shifted_witness :
  ∃ c', @open_at _ _ _ UpscaledbConn.traits ups_content sample_map c' ∧
  if isError no_error then @ups_broken unit unit unit _ mem_ups mem_ups_laws
  else [lit "b"; lit "c"; lit "c"] =
       take 9 (List.filter (strictly_between [] (lit "d"))
         match sorted_keys sample_map with [] => [] | k :: rest => rest ++ [List.last rest k] end).
Proof.
  exists (sample_on (mkUpscaledb tt tt 1) (sample_map, Some (lit "c"))).
  apply (upscaledb_keys_shifted (EP := unit) (DP := unit) (CP := unit) (WP := kv_map * option bytes)
    [] (lit "d") 9 sample_map sample_ups no_error [lit "b"; lit "c"; lit "c"]);
    [done|split; [done|by exists (mkUpscaledb tt tt 1)]|by_running].
Defined.

Lemma flushdb_empties_witness :
  (if isError no_error then @lsm_broken unit kv_map mem_lsm mem_lsm_laws
   else @open_at _ _ _ LeveldbConn.traits lsm_content ∅ (sample_on tt ∅)) ∧
  (if isError no_error then @lmdb_broken unit kv_map kv_map mem_lmdb mem_lmdb_laws
   else @open_at _ _ _ LmdbConn.traits lmdb_content ∅ (sample_on (mkLmdb tt 1) ∅)).
Proof.
  split.
  - apply (proj1 (flushdb_empties (HL := unit) (WL := kv_map) (EM := unit) (TM := kv_map) (WM := kv_map) sample_map)
      sample_lsm no_error (sample_on tt ∅)); [split; [done|by exists tt]|by_running].
  - apply (proj2 (proj2 (flushdb_empties (HL := unit) (WL := kv_map) (EM := unit) (TM := kv_map) (WM := kv_map)
      sample_map)) sample_lmdb no_error (sample_on (mkLmdb tt 1) ∅)); [split; [done|by exists (mkLmdb tt 1)]|by_running].
Defined.
End Witnesses.
