(* ===== verification/SsdbClient.v ===== *)
(** The SSDB client: [third-party/ssdb/src/SSDB_impl.cpp] and [Status] of [SSDB.h], over the link to the
    server. *)
From Stdlib Require Import Ascii String ZArith Lia.
From stdpp Require Import base list strings gmap.
From S2P Require Import Prelude Common Texts NativeKv.
Local Open Scope Z_scope.

(** A link, [net/link.h]: a request is sent as a list of words, and a response is one, or nothing when
    sending or receiving fails. *)
Class SsdbLink (L W : Type) := {
  link_connect : bytes → Z → W → option L * W;
  link_request : L → list bytes → W → option (list bytes) * W;
  link_delete : L → W → W
}.

(** * [Status] *)

Definition Status : Type := bytes.
Definition Status_of (resp : option (list bytes)) : Status :=
  match resp with Some (code :: _) => code | _ => lit "error" end.
Definition ok (s : Status) : bool := bool_decide (s = lit "ok").
Definition error (s : Status) : bool := negb (ok s).

Definition _read_list (ret : list bytes) (resp : option (list bytes)) : Status * list bytes :=
  let s := Status_of resp in
  (s, if ok s then ret ++ tl (default [] resp) else ret).

Definition _read_int64 (ret : Z) (resp : option (list bytes)) : Status * Z :=
  let s := Status_of resp in
  if ok s then
    match default [] resp with _ :: v :: _ => (s, strtol v) | _ => (lit "server_error", ret) end
  else (s, ret).

Definition _read_str (ret : bytes) (resp : option (list bytes)) : Status * bytes :=
  let s := Status_of resp in
  if ok s then
    match default [] resp with _ :: v :: _ => (s, v) | _ => (lit "server_error", ret) end
  else (s, ret).

(** * Words

    [str] of the integer types, and the words of a [std::map], which is in the order of its keys. *)
Definition str (v : Z) : bytes := dec_int v.
Definition str_opt (v : option Z) : bytes := match v with Some v => str v | None => [] end.
Definition map_words (kvs : kv_map) : list bytes := List.concat (List.map (λ kv, [kv.1; kv.2]) (sorted_records kvs)).

Section Client.
Context {L W : Type} `{SsdbLink L W}.

(** * [ClientImpl] *)

Definition connect (ip : bytes) (port : Z) (w : W) : option L * W := link_connect ip port w.
Definition request (l : L) (req : list bytes) (w : W) : option (list bytes) * W := link_request l req w.

Definition with_response {A} (l : L) (req : list bytes) (read : option (list bytes) → Status * A) (w : W)
    : Status * A * W :=
  let '(resp, w) := request l req w in (read resp, w).

Definition status_only (l : L) (req : list bytes) (w : W) : Status * W :=
  let '(resp, w) := request l req w in (Status_of resp, w).

Definition auth (password : bytes) (l : L) (w : W) : Status * W :=
  status_only l [lit "auth"; password] w.
Definition dbsize (ret : Z) (l : L) (w : W) : Status * Z * W :=
  with_response l [lit "dbsize"] (_read_int64 ret) w.
Definition get (key : bytes) (val : bytes) (l : L) (w : W) : Status * bytes * W :=
  with_response l [lit "get"; key] (_read_str val) w.
Definition set (key val : bytes) (l : L) (w : W) : Status * W :=
  status_only l [lit "set"; key; val] w.
Definition setx (key val : bytes) (ttl : Z) (l : L) (w : W) : Status * W :=
  status_only l [lit "setx"; key; val; str ttl] w.
Definition del (key : bytes) (l : L) (w : W) : Status * W :=
  status_only l [lit "del"; key] w.
Definition incr (key : bytes) (incrby : Z) (ret : Z) (l : L) (w : W) : Status * Z * W :=
  with_response l [lit "incr"; key; str incrby] (_read_int64 ret) w.
Definition keys (key_start key_end : bytes) (limit : Z) (ret : list bytes) (l : L) (w : W) : Status * list bytes * W :=
  with_response l [lit "keys"; key_start; key_end; str limit] (_read_list ret) w.
Definition scan (key_start key_end : bytes) (limit : Z) (ret : list bytes) (l : L) (w : W) : Status * list bytes * W :=
  with_response l [lit "scan"; key_start; key_end; str limit] (_read_list ret) w.
Definition rscan (key_start key_end : bytes) (limit : Z) (ret : list bytes) (l : L) (w : W) : Status * list bytes * W :=
  with_response l [lit "rscan"; key_start; key_end; str limit] (_read_list ret) w.
Definition multi_get (keys : list bytes) (ret : list bytes) (l : L) (w : W) : Status * list bytes * W :=
  with_response l (lit "multi_get" :: keys) (_read_list ret) w.
Definition multi_set (kvs : kv_map) (l : L) (w : W) : Status * W :=
  status_only l (lit "multi_set" :: map_words kvs) w.
Definition multi_del (keys : list bytes) (l : L) (w : W) : Status * W :=
  status_only l (lit "multi_del" :: keys) w.
Definition hget (name key : bytes) (val : bytes) (l : L) (w : W) : Status * bytes * W :=
  with_response l [lit "hget"; name; key] (_read_str val) w.
Definition hset (name key val : bytes) (l : L) (w : W) : Status * W :=
  status_only l [lit "hset"; name; key; val] w.
Definition hdel (name key : bytes) (l : L) (w : W) : Status * W :=
  status_only l [lit "hdel"; name; key] w.
Definition hincr (name key : bytes) (incrby : Z) (ret : Z) (l : L) (w : W) : Status * Z * W :=
  with_response l [lit "hincr"; name; key; str incrby] (_read_int64 ret) w.
Definition hsize (name : bytes) (ret : Z) (l : L) (w : W) : Status * Z * W :=
  with_response l [lit "hsize"; name] (_read_int64 ret) w.
Definition hclear (name : bytes) (ret : Z) (l : L) (w : W) : Status * Z * W :=
  with_response l [lit "hclear"; name] (_read_int64 ret) w.
Definition hkeys (name key_start key_end : bytes) (limit : Z) (ret : list bytes) (l : L) (w : W) : Status * list bytes * W :=
  with_response l [lit "hkeys"; name; key_start; key_end; str limit] (_read_list ret) w.
Definition hgetall (name : bytes) (ret : list bytes) (l : L) (w : W) : Status * list bytes * W :=
  with_response l [lit "hgetall"; name] (_read_list ret) w.
Definition hscan (name key_start key_end : bytes) (limit : Z) (ret : list bytes) (l : L) (w : W) : Status * list bytes * W :=
  with_response l [lit "hscan"; name; key_start; key_end; str limit] (_read_list ret) w.
Definition hrscan (name key_start key_end : bytes) (limit : Z) (ret : list bytes) (l : L) (w : W) : Status * list bytes * W :=
  with_response l [lit "hrscan"; name; key_start; key_end; str limit] (_read_list ret) w.
Definition multi_hget (name : bytes) (keys : list bytes) (ret : list bytes) (l : L) (w : W) : Status * list bytes * W :=
  with_response l (lit "multi_hget" :: name :: keys) (_read_list ret) w.
Definition multi_hset (name : bytes) (kvs : kv_map) (l : L) (w : W) : Status * W :=
  status_only l (lit "multi_hset" :: name :: map_words kvs) w.
Definition zget (name key : bytes) (ret : Z) (l : L) (w : W) : Status * Z * W :=
  with_response l [lit "zget"; name; key] (_read_int64 ret) w.
Definition zset (name key : bytes) (score : Z) (l : L) (w : W) : Status * W :=
  status_only l [lit "zset"; name; key; str score] w.
Definition zdel (name key : bytes) (l : L) (w : W) : Status * W :=
  status_only l [lit "zdel"; name; key] w.
Definition zincr (name key : bytes) (incrby : Z) (ret : Z) (l : L) (w : W) : Status * Z * W :=
  with_response l [lit "zincr"; name; key; str incrby] (_read_int64 ret) w.
Definition zsize (name : bytes) (ret : Z) (l : L) (w : W) : Status * Z * W :=
  with_response l [lit "zsize"; name] (_read_int64 ret) w.
Definition zclear (name : bytes) (ret : Z) (l : L) (w : W) : Status * Z * W :=
  with_response l [lit "zclear"; name] (_read_int64 ret) w.
Definition zrank (name key : bytes) (ret : Z) (l : L) (w : W) : Status * Z * W :=
  with_response l [lit "zrank"; name; key] (_read_int64 ret) w.
Definition zrrank (name key : bytes) (ret : Z) (l : L) (w : W) : Status * Z * W :=
  with_response l [lit "zrrank"; name; key] (_read_int64 ret) w.
Definition zrange (name : bytes) (offset limit : Z) (ret : list bytes) (l : L) (w : W) : Status * list bytes * W :=
  with_response l [lit "zrange"; name; str offset; str limit] (_read_list ret) w.
Definition zrrange (name : bytes) (offset limit : Z) (ret : list bytes) (l : L) (w : W) : Status * list bytes * W :=
  with_response l [lit "zrrange"; name; str offset; str limit] (_read_list ret) w.
Definition zkeys (name key_start : bytes) (score_start score_end : option Z) (limit : Z) (ret : list bytes) (l : L) (w : W) : Status * list bytes * W :=
  with_response l [lit "zkeys"; name; key_start; str_opt score_start; str_opt score_end; str limit] (_read_list ret) w.
Definition zscan (name key_start : bytes) (score_start score_end : option Z) (limit : Z) (ret : list bytes) (l : L) (w : W) : Status * list bytes * W :=
  with_response l [lit "zscan"; name; key_start; str_opt score_start; str_opt score_end; str limit] (_read_list ret) w.
Definition zrscan (name key_start : bytes) (score_start score_end : option Z) (limit : Z) (ret : list bytes) (l : L) (w : W) : Status * list bytes * W :=
  with_response l [lit "zrscan"; name; key_start; str_opt score_start; str_opt score_end; str limit] (_read_list ret) w.
Definition multi_zget (name : bytes) (keys : list bytes) (ret : list bytes) (l : L) (w : W) : Status * list bytes * W :=
  with_response l (lit "multi_zget" :: name :: keys) (_read_list ret) w.
Definition multi_zset (name : bytes) (kss : gmap bytes Z) (l : L) (w : W) : Status * W :=
  status_only l (lit "multi_zset" :: name :: map_words (str <$> kss)) w.
Definition multi_zdel (name : bytes) (keys : list bytes) (l : L) (w : W) : Status * W :=
  status_only l (lit "multi_zdel" :: name :: keys) w.
Definition qpush (name item : bytes) (l : L) (w : W) : Status * W :=
  status_only l [lit "qpush"; name; item] w.
Definition qpop (name : bytes) (val : bytes) (l : L) (w : W) : Status * bytes * W :=
  with_response l [lit "qpop"; name] (_read_str val) w.
Definition qslice (name : bytes) (begin_ end_ : Z) (ret : list bytes) (l : L) (w : W) : Status * list bytes * W :=
  with_response l [lit "qslice"; name; str begin_; str end_] (_read_list ret) w.
Definition qclear (name : bytes) (ret : Z) (l : L) (w : W) : Status * Z * W :=
  with_response l [lit "qclear"; name] (_read_int64 ret) w.

(** Reads from the third word on, although there may be one. *)
Definition info (args : bytes) (ret : list bytes) (l : L) (w : W) : outcome (Status * list bytes * W) :=
  let '(resp, w) := request l [lit "info"; args] w in
  let s := Status_of resp in
  if ok s then
    match default [] resp with
    | _ :: _ :: words => Val (s, ret ++ words, w)
    | _ => Fault OutOfBounds
    end
  else Val (s, ret, w).
End Client.
