(* ===== verification/SsdbConn.v ===== *)
(** The connection of SSDB: [core/ssdb/db_connection.cpp]. *)
From Stdlib Require Import Ascii String ZArith Lia.
From stdpp Require Import base list strings gmap.
From S2P Require Import Prelude Common Texts Values Commands Connection Translators KvApi SsdbApi Configs ServerInfo StoreInfos NativeKv SsdbClient.
Local Open Scope Z_scope.
#[local] Set Warnings "-register-all".

Module SsdbConn.
Section Conn.
Context {L W : Type} `{SsdbLink L W} `{CommonLib} `{ConfigLib} `{Project}.
Local Abbreviation conn := (CDBConnection RemoteConfig L W).
Implicit Types (c : conn) (w : W).

(** ** Connecting *)

Definition CreateConnection (config : RemoteConfig) w : Error * option L * W :=
  let '(lcontext, w) := connect (hp_host (rc_host config)) (hp_port (rc_host config)) w in
  match lcontext with
  | None => (make_error_value (lit "Fail connect to server!") E_ERROR, None, w)
  | Some l => (no_error, Some l, w)
  end.

Definition TestConnection (settings : option RemoteConfig) w : Error * W :=
  match settings with
  | None => (invalid_arguments, w)
  | Some config =>
    let '(er, ssdb, w) := CreateConnection config w in
    if isError er then (er, w) else (no_error, match ssdb with Some l => link_delete l w | None => w end)
  end.

#[local] Instance traits : ConnectionTraits RemoteConfig L W := {|
  traits_Connect config w :=
    let '(er, context, w) := CreateConnection config w in
    if isError er then (er, None, w) else (no_error, context, w);
  traits_Disconnect handle w := (no_error, None, match handle with Some l => link_delete l w | None => w end);
  traits_IsConnected handle w := match handle with Some _ => true | None => false end;
  config_default := SsdbConfig.Config;
  config_delimiter := rc_delimiter;
  config_ns_separator := rc_ns_separator
|}.

Definition VersionApi : bytes := lit "1.9.3".

(** ** Requests

    Each member calls one of the client, and its error is the code of the status. *)
Definition code_error (text : string) (s : Status) : Error :=
  make_error_value (MemSPrintf (lit text) [FStr s]) E_ERROR.

Definition ssdb_call (text : string) (f : L → W → Status * W) c : Error * conn :=
  on_open (λ e, (e, c))
    (λ l, let '(st, w) := f l (native_world c) in
          let c := set_world w c in
          if error st then (code_error text st, c) else (no_error, c)) c.

Definition ssdb_read {A} (text : string) (f : A → L → W → Status * A * W) (ret : A) c : Error * A * conn :=
  on_open (λ e, (e, ret, c))
    (λ l, let '(st, ret, w) := f ret l (native_world c) in
          let c := set_world w c in
          if error st then (code_error text st, ret, c) else (no_error, ret, c)) c.

(** The local variable is stored only when the call succeeded. *)
Definition DBsize (size : Z) c : Error * Z * conn :=
  let '(er, ret, c) := ssdb_read "Couldn't determine DBSIZE error: %s" SsdbClient.dbsize 0 c in
  (er, if isError er then size else ret, c).

Definition DBkcount c : Error * Z * conn :=
  let '(er, ret, c) :=
    ssdb_read "Couldn't determine DBKCOUNT error: %s" (SsdbClient.keys [] [] ULLONG_MAX) [] c in
  (er, if isError er then 0 else Z.of_nat (length ret), c).

Definition Auth (password : bytes) : conn → Error * conn :=
  ssdb_call "password function error: %s" (SsdbClient.auth password).
Definition Setx (key val : bytes) (ttl : Z) : conn → Error * conn :=
  ssdb_call "setx function error: %s" (SsdbClient.setx key val ttl).
Definition SetInner (key val : bytes) : conn → Error * conn :=
  ssdb_call "set function error: %s" (SsdbClient.set key val).
Definition GetInner (key : bytes) (ret_val : bytes) : conn → Error * bytes * conn :=
  ssdb_read "get function error: %s" (SsdbClient.get key) ret_val.
Definition DelInner (key : bytes) : conn → Error * conn :=
  ssdb_call "del function error: %s" (SsdbClient.del key).
Definition Incr (key : bytes) (incrby : Z) (ret : Z) : conn → Error * Z * conn :=
  ssdb_read "Incr function error: %s" (SsdbClient.incr key incrby) ret.
Definition Keys (key_start key_end : bytes) (limit : Z) (ret : list bytes) : conn → Error * list bytes * conn :=
  ssdb_read "Keys function error: %s" (SsdbClient.keys key_start key_end limit) ret.
Definition Scan (key_start key_end : bytes) (limit : Z) (ret : list bytes) : conn → Error * list bytes * conn :=
  ssdb_read "scan function error: %s" (SsdbClient.scan key_start key_end limit) ret.
Definition Rscan (key_start key_end : bytes) (limit : Z) (ret : list bytes) : conn → Error * list bytes * conn :=
  ssdb_read "rscan function error: %s" (SsdbClient.rscan key_start key_end limit) ret.
Definition MultiGet (keys : list bytes) (ret : list bytes) : conn → Error * list bytes * conn :=
  ssdb_read "multi_get function error: %s" (SsdbClient.multi_get keys) ret.
Definition MultiSet (kvs : kv_map) : conn → Error * conn :=
  ssdb_call "multi_set function error: %s" (SsdbClient.multi_set kvs).
Definition MultiDel (keys : list bytes) : conn → Error * conn :=
  ssdb_call "multi_del function error: %s" (SsdbClient.multi_del keys).
Definition Hget (name key : bytes) (ret_val : bytes) : conn → Error * bytes * conn :=
  ssdb_read "hget function error: %s" (SsdbClient.hget name key) ret_val.
Definition Hgetall (name : bytes) (ret : list bytes) : conn → Error * list bytes * conn :=
  ssdb_read "hgetall function error: %s" (SsdbClient.hgetall name) ret.
Definition Hset (name key val : bytes) : conn → Error * conn :=
  ssdb_call "hset function error: %s" (SsdbClient.hset name key val).
Definition Hdel (name key : bytes) : conn → Error * conn :=
  ssdb_call "hdel function error: %s" (SsdbClient.hdel name key).
Definition Hincr (name key : bytes) (incrby : Z) (ret : Z) : conn → Error * Z * conn :=
  ssdb_read "hincr function error: %s" (SsdbClient.hincr name key incrby) ret.
Definition Hsize (name : bytes) (ret : Z) : conn → Error * Z * conn :=
  ssdb_read "hset function error: %s" (SsdbClient.hsize name) ret.
Definition Hclear (name : bytes) (ret : Z) : conn → Error * Z * conn :=
  ssdb_read "hclear function error: %s" (SsdbClient.hclear name) ret.
Definition Hkeys (name key_start key_end : bytes) (limit : Z) (ret : list bytes) : conn → Error * list bytes * conn :=
  ssdb_read "hkeys function error: %s" (SsdbClient.hkeys name key_start key_end limit) ret.
Definition Hscan (name key_start key_end : bytes) (limit : Z) (ret : list bytes) : conn → Error * list bytes * conn :=
  ssdb_read "hscan function error: %s" (SsdbClient.hscan name key_start key_end limit) ret.
Definition Hrscan (name key_start key_end : bytes) (limit : Z) (ret : list bytes) : conn → Error * list bytes * conn :=
  ssdb_read "hrscan function error: %s" (SsdbClient.hrscan name key_start key_end limit) ret.
Definition MultiHget (name : bytes) (keys : list bytes) (ret : list bytes) : conn → Error * list bytes * conn :=
  ssdb_read "hrscan function error: %s" (SsdbClient.multi_hget name keys) ret.
Definition MultiHset (name : bytes) (kvs : kv_map) : conn → Error * conn :=
  ssdb_call "multi_hset function error: %s" (SsdbClient.multi_hset name kvs).
Definition Zget (name key : bytes) (ret : Z) : conn → Error * Z * conn :=
  ssdb_read "zget function error: %s" (SsdbClient.zget name key) ret.
Definition Zset (name key : bytes) (score : Z) : conn → Error * conn :=
  ssdb_call "zset function error: %s" (SsdbClient.zset name key score).
Definition Zdel (name key : bytes) : conn → Error * conn :=
  ssdb_call "Zdel function error: %s" (SsdbClient.zdel name key).
Definition Zincr (name key : bytes) (incrby : Z) (ret : Z) : conn → Error * Z * conn :=
  ssdb_read "Zincr function error: %s" (SsdbClient.zincr name key incrby) ret.
Definition Zsize (name : bytes) (ret : Z) : conn → Error * Z * conn :=
  ssdb_read "zsize function error: %s" (SsdbClient.zsize name) ret.
Definition Zclear (name : bytes) (ret : Z) : conn → Error * Z * conn :=
  ssdb_read "zclear function error: %s" (SsdbClient.zclear name) ret.
Definition Zrank (name key : bytes) (ret : Z) : conn → Error * Z * conn :=
  ssdb_read "zrank function error: %s" (SsdbClient.zrank name key) ret.
Definition Zrrank (name key : bytes) (ret : Z) : conn → Error * Z * conn :=
  ssdb_read "zrrank function error: %s" (SsdbClient.zrrank name key) ret.
Definition Zrange (name : bytes) (offset limit : Z) (ret : list bytes) : conn → Error * list bytes * conn :=
  ssdb_read "zrange function error: %s" (SsdbClient.zrange name offset limit) ret.
Definition Zrrange (name : bytes) (offset limit : Z) (ret : list bytes) : conn → Error * list bytes * conn :=
  ssdb_read "zrrange function error: %s" (SsdbClient.zrrange name offset limit) ret.
Definition Zkeys (name key_start : bytes) (score_start score_end : option Z) (limit : Z) (ret : list bytes) : conn → Error * list bytes * conn :=
  ssdb_read "zkeys function error: %s" (SsdbClient.zkeys name key_start score_start score_end limit) ret.
Definition Zscan (name key_start : bytes) (score_start score_end : option Z) (limit : Z) (ret : list bytes) : conn → Error * list bytes * conn :=
  ssdb_read "zscan function error: %s" (SsdbClient.zscan name key_start score_start score_end limit) ret.
Definition Zrscan (name key_start : bytes) (score_start score_end : option Z) (limit : Z) (ret : list bytes) : conn → Error * list bytes * conn :=
  ssdb_read "zrscan function error: %s" (SsdbClient.zrscan name key_start score_start score_end limit) ret.
Definition MultiZget (name : bytes) (keys : list bytes) (ret : list bytes) : conn → Error * list bytes * conn :=
  ssdb_read "multi_zget function error: %s" (SsdbClient.multi_zget name keys) ret.
Definition MultiZset (name : bytes) (kss : gmap bytes Z) : conn → Error * conn :=
  ssdb_call "multi_zset function error: %s" (SsdbClient.multi_zset name kss).
Definition MultiZdel (name : bytes) (keys : list bytes) : conn → Error * conn :=
  ssdb_call "multi_zdel function error: %s" (SsdbClient.multi_zdel name keys).
Definition Qpush (name item : bytes) : conn → Error * conn :=
  ssdb_call "qpush function error: %s" (SsdbClient.qpush name item).
Definition Qpop (name : bytes) (ret_val : bytes) : conn → Error * bytes * conn :=
  ssdb_read "qpop function error: %s" (SsdbClient.qpop name) ret_val.
Definition Qslice (name : bytes) (begin_ end_ : Z) (ret : list bytes) : conn → Error * list bytes * conn :=
  ssdb_read "qslice function error: %s" (SsdbClient.qslice name begin_ end_) ret.
Definition Qclear (name : bytes) (ret : Z) : conn → Error * Z * conn :=
  ssdb_read "qclear function error: %s" (SsdbClient.qclear name) ret.

Definition Help (argc : Z) (argv : argv_t) c : Error * conn := (NotSupported (lit "HELP"), c).

(** A label and the word behind it. *)
Definition info_word (label value : bytes) (s : SsdbInfo.Stats) : SsdbInfo.Stats :=
  let '(SsdbInfo.mkStats v l t d b) := s in
  if bool_decide (label = lit "version") then SsdbInfo.mkStats value l t d b
  else if bool_decide (label = lit "links") then SsdbInfo.mkStats v (FromString_uint32 value) t d b
  else if bool_decide (label = lit "total_calls") then SsdbInfo.mkStats v l (FromString_uint32 value) d b
  else if bool_decide (label = lit "dbsize") then SsdbInfo.mkStats v l t (FromString_uint32 value) b
  else if bool_decide (label = lit "binlogs") then SsdbInfo.mkStats v l t d value
  else s.

Definition info_labels : list bytes :=
  [lit "version"; lit "links"; lit "total_calls"; lit "dbsize"; lit "binlogs"].

(** The word behind a label is read only when the label is one of these. *)
Fixpoint info_loop (ret : list bytes) (s : SsdbInfo.Stats) : outcome SsdbInfo.Stats :=
  match ret with
  | [] => Val s
  | [label] => if bool_decide (label ∈ info_labels) then Fault OutOfBounds else Val s
  | label :: value :: ret => info_loop ret (info_word label value s)
  end.

(** [raw] is what the memory of the numbers held. *)
Definition Info `{InfoLib} (raw : SsdbInfo.Stats) (args : option bytes) c : outcome (Error * SsdbInfo.Stats * conn) :=
  on_open (λ e, Val (e, (SsdbInfo.Stats_new raw), c))
    (λ l, '(st, ret, w) ← SsdbClient.info (default [] args) [] l (native_world c);
          let c := set_world w c in
          if error st then Val (code_error "info function error: %s" st, (SsdbInfo.Stats_new raw), c)
          else lstatsout ← info_loop ret (SsdbInfo.Stats_new raw); Val (no_error, lstatsout, c)) c.

Fixpoint flush_loop (ret : list bytes) c : Error * conn :=
  match ret with
  | [] => (no_error, c)
  | key :: ret =>
    let '(err, c) := DelInner key c in
    if isError err then (err, c) else flush_loop ret c
  end.

(** Asks for the first zero keys. *)
Definition Flushdb c : Error * conn :=
  let '(er, ret, c) := ssdb_read "Flushdb function error: %s" (SsdbClient.keys [] [] 0) [] c in
  if isError er then (er, c) else flush_loop ret c.

(** ** The interfaces *)

#[local] Instance inner : InnerOps RemoteConfig L W := {|
  NativeKv.GetInner key := GetInner key [];
  NativeKv.SetInner := SetInner;
  NativeKv.DelInner := DelInner;
  inner_DBkcount := DBkcount
|}.
Definition SelectImpl := inner_SelectImpl (Cfg := RemoteConfig) (H := L) (W := W).
Definition DeleteImpl := inner_DeleteImpl (Cfg := RemoteConfig) (H := L) (W := W).
Definition SetImpl := inner_SetImpl (Cfg := RemoteConfig) (H := L) (W := W).
Definition GetImpl := inner_GetImpl (Cfg := RemoteConfig) (H := L) (W := W).
Definition RenameImpl := inner_RenameImpl (Cfg := RemoteConfig) (H := L) (W := W).
Definition SetTTLImpl := inner_SetTTLImpl (Cfg := RemoteConfig) (H := L) (W := W) "SSDB".
Definition QuitImpl := inner_QuitImpl (Cfg := RemoteConfig) (H := L) (W := W).

#[local] Instance impl : CDBImpl RemoteConfig L W := inner_impl "SSDB".
#[local] Instance kv `{InfoLib} (raw : SsdbInfo.Stats) : KvOps RemoteConfig L W := {|
  kv_stats := SsdbInfo.Stats;
  Stats_ToString s := SsdbInfo.ToString (SsdbInfo.mkServerInfo s);
  kv_Info := Info raw; kv_Keys := Keys; kv_DBkcount := DBkcount; kv_Help := Help
|}.

#[local] Instance ops : SsdbOps RemoteConfig L W := {|
  ssdb_unit call :=
    match call with
    | C_Auth p => Auth p | C_Setx k v t => Setx k v t | C_MultiSet m => MultiSet m | C_MultiDel ks => MultiDel ks
    | C_Hset n k v => Hset n k v | C_Hdel n k => Hdel n k | C_MultiHset n m => MultiHset n m
    | C_Zset n k s => Zset n k s | C_Zdel n k => Zdel n k | C_MultiZset n m => MultiZset n m
    | C_MultiZdel n ks => MultiZdel n ks | C_Qpush n i => Qpush n i | C_Flushdb => Flushdb
    end;
  ssdb_int call :=
    match call with
    | C_DBsize => DBsize 0 | C_Incr k i => Incr k i 0 | C_Hincr n k i => Hincr n k i 0 | C_Hsize n => Hsize n 0
    | C_Hclear n => Hclear n 0 | C_Zget n k => Zget n k 0 | C_Zincr n k i => Zincr n k i 0 | C_Zsize n => Zsize n 0
    | C_Zclear n => Zclear n 0 | C_Zrank n k => Zrank n k 0 | C_Zrrank n k => Zrrank n k 0 | C_Qclear n => Qclear n 0
    end;
  ssdb_string call := match call with C_Hget n k => Hget n k [] | C_Qpop n => Qpop n [] end;
  ssdb_list call :=
    match call with
    | C_Scan a b l => Scan a b l [] | C_Rscan a b l => Rscan a b l [] | C_MultiGet ks => MultiGet ks []
    | C_Hgetall n => Hgetall n [] | C_Hkeys n a b l => Hkeys n a b l [] | C_Hscan n a b l => Hscan n a b l []
    | C_Hrscan n a b l => Hrscan n a b l [] | C_MultiHget n ks => MultiHget n ks []
    | C_Zrange n o l => Zrange n o l [] | C_Zrrange n o l => Zrrange n o l []
    | C_Zkeys n k s e l => Zkeys n k (Some s) (Some e) l [] | C_Zscan n k s e l => Zscan n k (Some s) (Some e) l []
    | C_Zrscan n k s e l => Zrscan n k (Some s) (Some e) l [] | C_MultiZget n ks => MultiZget n ks []
    | C_Qslice n b e => Qslice n b e []
    end
|}.
End Conn.
End SsdbConn.
