(* ===== verification/MemcachedConn.v ===== *)
(** The connection of Memcached: [core/memcached/db_connection.cpp]. *)
From Stdlib Require Import Ascii String ZArith Lia.
From stdpp Require Import base list strings gmap.
From S2P Require Import Prelude Common Texts Values Commands Connection Translators KvApi MemcachedApi Configs RedisReply ServerInfo StoreInfos NativeKv.
Local Open Scope Z_scope.
#[local] Set Warnings "-register-all".

(** The results of the library that the source names, and the others. *)
Inductive memcached_return :=
| MEMCACHED_SUCCESS
| MEMCACHED_ERROR
| MEMCACHED_END
| MEMCACHED_OTHER (code : Z).

(** The members of [memcached_stat_st] that are read. *)
Record memcached_stat_st := mkStat {
  st_pid : Z; st_uptime : Z; st_time : Z; st_version : bytes; st_pointer_size : Z; st_rusage_user_seconds : Z;
  st_rusage_system_seconds : Z; st_curr_items : Z; st_total_items : Z; st_bytes : Z; st_curr_connections : Z;
  st_total_connections : Z; st_connection_structures : Z; st_cmd_get : Z; st_cmd_set : Z; st_get_hits : Z;
  st_get_misses : Z; st_evictions : Z; st_bytes_read : Z; st_bytes_written : Z; st_limit_maxbytes : Z;
  st_threads : Z
}.

(** The library: handles [H].  Values come as the memory returned, null or not, and the flags.
    [memcached_dump] calls the function it is given on keys, with the vector that the function appends to.
    [memcached_increment] is given the offset, and says the value behind it. *)
Class MemcachedLib (H W : Type) := {
  memcached_new : W → option H * W;
  memcached_free : H → W → W;
  memcached_set_sasl_auth_data : H → option bytes → option bytes → W → memcached_return * W;
  memcached_server_add : H → option bytes → Z → W → memcached_return * W;
  memcached_version : H → W → memcached_return * W;
  (** [servers], when there are some, and whether their state is [MEMCACHED_SERVER_STATE_CONNECTED] *)
  memcached_servers_connected : H → W → option bool;
  memcached_strerror : memcached_return → bytes;
  libmemcached_util_ping : option bytes → Z → W → memcached_return * W;
  libmemcached_util_ping2 : option bytes → Z → bytes → bytes → W → memcached_return * W;
  memcached_dump : H → (bytes → list bytes → memcached_return * list bytes) → list bytes → W →
                   memcached_return * list bytes * W;
  memcached_stat : H → option bytes → W → memcached_return * memcached_stat_st * W;
  memcached_add : H → bytes → bytes → Z → Z → W → memcached_return * W;
  memcached_replace : H → bytes → bytes → Z → Z → W → memcached_return * W;
  memcached_append : H → bytes → bytes → Z → Z → W → memcached_return * W;
  memcached_prepend : H → bytes → bytes → Z → Z → W → memcached_return * W;
  memcached_set : H → bytes → bytes → Z → Z → W → memcached_return * W;
  memcached_increment : H → bytes → Z → W → memcached_return * Z * W;
  memcached_decrement : H → bytes → Z → W → memcached_return * Z * W;
  memcached_delete : H → bytes → Z → W → memcached_return * W;
  memcached_get : H → bytes → W → memcached_return * option bytes * Z * W;
  memcached_flush : H → Z → W → memcached_return * W
}.

Definition failed (rc : memcached_return) : bool := match rc with MEMCACHED_SUCCESS => false | _ => true end.

Module MemcachedConn.

(** * [KeysHolder] *)
Definition addKey (key_start key_end : bytes) (limit : Z) (received_key : bytes) (r : list bytes)
    : memcached_return * list bytes :=
  if Z.of_nat (length r) <? limit then
    (MEMCACHED_SUCCESS,
     if str_ltb key_start received_key && str_ltb received_key key_end then r ++ [received_key] else r)
  else (MEMCACHED_END, r).

Section Conn.
Context {H W : Type} `{MemcachedLib H W} `{CommonLib} `{CommonRedis} `{ConfigLib} `{Project}.
Local Abbreviation conn := (CDBConnection RemoteConfig H W).
Implicit Types (c : conn) (w : W).

Definition rc_error (text : string) (rc : memcached_return) : Error :=
  make_error_value (MemSPrintf (lit text) [FStr (memcached_strerror rc)]) E_ERROR.

(** * Connecting *)

Definition CreateConnection (config : RemoteConfig) w : Error * option H * W :=
  let '(memc, w) := memcached_new w in
  match memc with
  | None => (make_error_value (lit "Init error") E_ERROR, None, w)
  | Some memc =>
    let user := rc_user config in
    let password := rc_password config in
    let '(rc, w) :=
      if negb (bool_decide (user = [])) && negb (bool_decide (password = [])) then
        memcached_set_sasl_auth_data memc (c_strornull user) (c_strornull password) w
      else (MEMCACHED_SUCCESS, w) in
    if failed rc then (rc_error "Couldn't setup SASL auth: %s" rc, None, memcached_free memc w)
    else
      let '(rc, w) := memcached_server_add memc (c_strornull (hp_host (rc_host config))) (hp_port (rc_host config)) w in
      if failed rc then (rc_error "Couldn't add server: %s" rc, None, memcached_free memc w)
      else
        let '(error, w) := memcached_version memc w in
        if failed error then (rc_error "Connect to server error: %s" error, None, memcached_free memc w)
        else (no_error, Some memc, w)
  end.

Definition TestConnection (settings : option RemoteConfig) w : Error * W :=
  match settings with
  | None => (invalid_arguments, w)
  | Some inf =>
    let host := c_strornull (hp_host (rc_host inf)) in
    let hostport := hp_port (rc_host inf) in
    let '(rc, w) :=
      match c_strornull (rc_user inf), c_strornull (rc_password inf) with
      | Some user, Some passwd => libmemcached_util_ping2 host hostport user passwd w
      | _, _ => libmemcached_util_ping host hostport w
      end in
    if failed rc then (rc_error "Couldn't ping server: %s" rc, w) else (no_error, w)
  end.

(** [Disconnect] sets a copy of the handle to null. *)
#[local] Instance traits : ConnectionTraits RemoteConfig H W := {|
  traits_Connect config w :=
    let '(er, context, w) := CreateConnection config w in
    if isError er then (er, None, w) else (no_error, context, w);
  traits_Disconnect handle w := (no_error, handle, match handle with Some h => memcached_free h w | None => w end);
  traits_IsConnected handle w :=
    match handle with None => false | Some h => default false (memcached_servers_connected h w) end;
  config_default := MemcachedConfig.Config;
  config_delimiter := rc_delimiter;
  config_ns_separator := rc_ns_separator
|}.

(** * Keys *)

Definition Keys (key_start key_end : bytes) (limit : Z) (ret : list bytes) c : Error * list bytes * conn :=
  on_open (λ e, (e, ret, c))
    (λ h, let '(result, ret, w) := memcached_dump h (addKey key_start key_end limit) ret (native_world c) in
          let c := set_world w c in
          match result with
          | MEMCACHED_ERROR => (rc_error "Keys function error: %s" result, ret, c)
          | _ => (no_error, ret, c)
          end) c.

Definition description (e : Error) : bytes := match e with Some v => e_text v | None => [] end.

(** The keys between ["a"] and ["z"]. *)
Definition DBkcount c : Error * Z * conn :=
  if negb (IsConnected c) then (not_connected, 0, c)
  else
    let '(err, ret, c) := Keys (lit "a") (lit "z") ULLONG_MAX [] c in
    if isError err then
      (make_error_value (MemSPrintf (lit "Couldn't determine DBKCOUNT error: %s") [FStr (description err)]) E_ERROR, 0, c)
    else (no_error, Z.of_nat (length ret), c).

(** The numbers are stored in 32 bits; [raw] is what the memory of a new [Stats] held. *)
Definition Info `{InfoLib} (raw : MemcachedInfo.Stats) (args : option bytes) c : outcome (Error * MemcachedInfo.Stats * conn) :=
  on_open (λ e, Val (e, (MemcachedInfo.Stats_new raw), c))
    (λ h, let '(error, st, w) := memcached_stat h args (native_world c) in
          let c := set_world w c in
          if failed error then Val (rc_error "Stats function error: %s" error, (MemcachedInfo.Stats_new raw), c)
          else
            Val (no_error,
                 MemcachedInfo.mkStats (u32 (st_pid st)) (u32 (st_uptime st)) (u32 (st_time st)) (st_version st)
                   (u32 (st_pointer_size st)) (u32 (st_rusage_user_seconds st))
                   (u32 (st_rusage_system_seconds st)) (u32 (st_curr_items st)) (u32 (st_total_items st))
                   (u32 (st_bytes st)) (u32 (st_curr_connections st)) (u32 (st_total_connections st))
                   (u32 (st_connection_structures st)) (u32 (st_cmd_get st)) (u32 (st_cmd_set st))
                   (u32 (st_get_hits st)) (u32 (st_get_misses st)) (u32 (st_evictions st))
                   (u32 (st_bytes_read st)) (u32 (st_bytes_written st)) (u32 (st_limit_maxbytes st))
                   (u32 (st_threads st)), c)) c.

(** * Records *)

(** A call through the handle that has a result. *)
Definition mem_call (text : string) (f : H → W → memcached_return * W) c : Error * conn :=
  on_open (λ e, (e, c))
    (λ h, let '(error, w) := f h (native_world c) in
          let c := set_world w c in
          if failed error then (rc_error text error, c) else (no_error, c)) c.

Definition AddIfNotExist (key value : bytes) (expiration flags : Z) : conn → Error * conn :=
  mem_call "Add function error: %s" (λ h, memcached_add h key value expiration flags).
Definition Replace (key value : bytes) (expiration flags : Z) : conn → Error * conn :=
  mem_call "Replace function error: %s" (λ h, memcached_replace h key value expiration flags).
Definition Append (key value : bytes) (expiration flags : Z) : conn → Error * conn :=
  mem_call "Append function error: %s" (λ h, memcached_append h key value expiration flags).
Definition Prepend (key value : bytes) (expiration flags : Z) : conn → Error * conn :=
  mem_call "Prepend function error: %s" (λ h, memcached_prepend h key value expiration flags).

(** The offset passed is 0; [value] is where the new value is stored. *)
Definition Incr (key : bytes) (value : Z) : conn → Error * conn :=
  mem_call "Incr function error: %s"
    (λ h w, let '(error, value, w) := memcached_increment h key 0 w in (error, w)).
Definition Decr (key : bytes) (value : Z) : conn → Error * conn :=
  mem_call "Decr function error: %s"
    (λ h w, let '(error, value, w) := memcached_decrement h key 0 w in (error, w)).

Definition DelInner (key : bytes) (expiration : Z) : conn → Error * conn :=
  mem_call "Delete function error: %s" (λ h, memcached_delete h key expiration).
Definition SetInner (key value : bytes) (expiration flags : Z) : conn → Error * conn :=
  mem_call "Set function error: %s" (λ h, memcached_set h key value expiration flags).
Definition Flushdb (expiration : Z) : conn → Error * conn :=
  mem_call "Flushdb function error: %s" (λ h, memcached_flush h expiration).
Definition VersionServer : conn → Error * conn :=
  mem_call "Get server version error: %s" memcached_version.

Definition GetInner (key : bytes) c : outcome (Error * bytes * conn) :=
  on_open (λ e, Val (e, [], c))
    (λ h, let '(error, value, flags, w) := memcached_get h key (native_world c) in
          let c := set_world w c in
          if failed error then Val (rc_error "Get function error: %s" error, [], c)
          else match value with None => Fault CheckFailed | Some v => Val (no_error, v, c) end) c.

(** A null value has length 0; the memory of the value is not freed. *)
Definition ExpireInner (key : bytes) (expiration : Z) c : Error * conn :=
  on_open (λ e, (e, c))
    (λ h, let '(error, value, flags, w) := memcached_get h key (native_world c) in
          if failed error then (rc_error "EXPIRE function error: %s" error, set_world w c)
          else
            let '(error, w) := memcached_set h key (default [] value) expiration flags w in
            let c := set_world w c in
            if failed error then (rc_error "EXPIRE function error: %s" error, c) else (no_error, c)) c.

Definition Help (argc : Z) (argv : argv_t) c : Error * conn := (NotSupported (lit "HELP"), c).

(** * The virtual members *)

Definition SelectImpl (name : bytes) c : outcome (Error * option IDataBaseInfo * conn) :=
  let '(err, kcount, c) := DBkcount c in
  let kcount := if isError err then 0 else kcount in
  Val (no_error, Some (mkIDataBaseInfo name true kcount []), c).

Fixpoint DeleteImpl (keys deleted_keys : list NKey) c : outcome (Error * list NKey * conn) :=
  match keys with
  | [] => Val (no_error, deleted_keys, c)
  | key :: keys =>
    let '(err, c) := DelInner (key_ key) 0 c in
    DeleteImpl keys (if isError err then deleted_keys else deleted_keys ++ [key]) c
  end.

Definition GetImpl (key : NKey) (loaded_key : NDbKValue) c : outcome (Error * NDbKValue * conn) :=
  '(err, value_str, c) ← GetInner (key_ key) c;
  if isError err then Val (err, loaded_key, c)
  else Val (no_error, mkNDbKValue key (Some (VString value_str)), c).

Definition SetImpl (key added_key : NDbKValue) c : outcome (Error * NDbKValue * conn) :=
  let '(err, c) := SetInner (KeyString key) (ValueString key) 0 0 c in
  if isError err then Val (err, added_key, c) else Val (no_error, key, c).

Definition RenameImpl (key : NKey) (new_key : bytes) c : outcome (Error * conn) :=
  '(err, value_str, c) ← GetInner (key_ key) c;
  if isError err then Val (err, c)
  else
    let '(err, c) := DelInner (key_ key) 0 c in
    if isError err then Val (err, c)
    else
      let '(err, c) := SetInner new_key value_str 0 0 c in
      if isError err then Val (err, c) else Val (no_error, c).

Definition SetTTLImpl (key : NKey) (ttl : Z) c : outcome (Error * conn) := Val (ExpireInner (key_ key) ttl c).

Definition QuitImpl c : outcome (Error * conn) :=
  let '(err, c) := Disconnect c in
  if isError err then Val (err, c) else Val (no_error, c).

#[local] Instance impl : CDBImpl RemoteConfig H W := {|
  Connection.SelectImpl := SelectImpl;
  Connection.DeleteImpl := DeleteImpl;
  Connection.SetImpl := SetImpl;
  Connection.GetImpl := GetImpl;
  Connection.RenameImpl := RenameImpl;
  Connection.SetTTLImpl := SetTTLImpl;
  Connection.QuitImpl := QuitImpl
|}.

#[local] Instance kv `{InfoLib} (raw : MemcachedInfo.Stats) : KvOps RemoteConfig H W := {|
  kv_stats := MemcachedInfo.Stats;
  Stats_ToString s := MemcachedInfo.ToString (MemcachedInfo.mkServerInfo s);
  kv_Info := Info raw; kv_Keys := Keys; kv_DBkcount := DBkcount; kv_Help := Help
|}.

#[local] Instance ops : MemOps RemoteConfig H W := {|
  mem_AddIfNotExist := AddIfNotExist; mem_Replace := Replace; mem_Append := Append; mem_Prepend := Prepend;
  mem_Incr := Incr; mem_Decr := Decr; mem_Flushdb := Flushdb; mem_VersionServer := VersionServer
|}.
End Conn.
End MemcachedConn.
