(* ===== verification/RemoteProps.v ===== *)
(** What the connections of Memcached and SSDB do, when the server below them keeps what is documented. *)
From Stdlib Require Import Ascii String ZArith Lia.
From stdpp Require Import base list strings gmap sorting.
From S2P Require Import Prelude Common Texts Values Connection Translators Configs RedisReply SsdbApi NativeKv SsdbClient SsdbConn MemcachedConn.
Local Open Scope Z_scope.
#[local] Set Warnings "-register-all".

(** * SSDB

    A server keeps a map: reading, writing and deleting single records, and the keys of the store without
    limits, none of them or all in order. *)
Class SsdbLaws (L W : Type) `{!SsdbLink L W} := {
  ssdb_map : L → W → kv_map;
  get_law l k w resp w' : link_request l [lit "get"; k] w = (resp, w') →
    ssdb_map l w' = ssdb_map l w ∧
    (ok (Status_of resp) = true → ∃ v rest, resp = Some (lit "ok" :: v :: rest) ∧ ssdb_map l w !! k = Some v);
  set_law l k v w resp w' : link_request l [lit "set"; k; v] w = (resp, w') →
    ssdb_map l w' = if ok (Status_of resp) then <[k := v]> (ssdb_map l w) else ssdb_map l w;
  del_law l k w resp w' : link_request l [lit "del"; k] w = (resp, w') →
    ssdb_map l w' = if ok (Status_of resp) then delete k (ssdb_map l w) else ssdb_map l w;
  keys_law l n w resp w' : n = 0 ∨ n = ULLONG_MAX →
    link_request l [lit "keys"; []; []; str n] w = (resp, w') →
    ssdb_map l w' = ssdb_map l w ∧
    (ok (Status_of resp) = true → tl (default [] resp) = if n =? 0 then [] else sorted_keys (ssdb_map l w))
}.

Section Ssdb.
Context {L W : Type} `{!SsdbLink L W} `{!SsdbLaws L W} `{CommonLaws} `{!ConfigLib} `{!Project}.
Local Abbreviation conn := (CDBConnection RemoteConfig L W).
Implicit Types (c : conn) (w : W) (m : kv_map).
Local Existing Instance SsdbConn.traits.
Local Abbreviation opened := (open_at ssdb_map).

(** Requests that fail although they need not. *)
Inductive ssdb_broken : Prop :=
| broken_get l k w v resp w' : ssdb_map l w !! k = Some v → link_request l [lit "get"; k] w = (resp, w') →
    error (Status_of resp) = true → ssdb_broken
| broken_set l k v w resp w' : link_request l [lit "set"; k; v] w = (resp, w') →
    error (Status_of resp) = true → ssdb_broken
| broken_del l k w resp w' : link_request l [lit "del"; k] w = (resp, w') →
    error (Status_of resp) = true → ssdb_broken
| broken_keys l w resp w' n : link_request l [lit "keys"; []; []; str n] w = (resp, w') →
    error (Status_of resp) = true → ssdb_broken.
Local Hint Constructors ssdb_broken : core.

Lemma code_error_is text s : isError (SsdbConn.code_error text s) = true.
Proof. apply isError_make_error. Qed.

Lemma ssdb_set_world m c l w : handle_ (connection_ c) = Some l → ssdb_map l w = m → opened m (set_world w c).
Proof. by apply open_set_world. Qed.

(** A member that only has a status. *)
Lemma ssdb_call_law text req (g : kv_map → kv_map) m c e c' :
  (∀ l w resp w', link_request l req w = (resp, w') →
     ssdb_map l w' = (if ok (Status_of resp) then g (ssdb_map l w) else ssdb_map l w) ∧
     (error (Status_of resp) = true → ssdb_broken)) →
  opened m c → SsdbConn.ssdb_call text (λ l w, status_only l req w) c = (e, c') →
  opened (if isError e then m else g m) c' ∧ (isError e = true → ssdb_broken).
Proof.
  intros Hf Ho. destruct (open_handle _ m c Ho) as (l & Hl & Hm & Hw). unfold SsdbConn.ssdb_call. rewrite Hw.
  unfold status_only, request. destruct (link_request l req _) as [resp w'] eqn:E. apply Hf in E as [E Hb]. rewrite Hm in E.
  unfold error in *. destruct (ok (Status_of resp)); intros [= <- <-].
  - split; [by eapply ssdb_set_world|done].
  - rewrite code_error_is. split; [by eapply ssdb_set_world|auto].
Qed.

(** The keys of the store, none or all. *)
Lemma ssdb_keys_law text n m c e ret c' : n = 0 ∨ n = ULLONG_MAX → opened m c →
  SsdbConn.ssdb_read text (SsdbClient.keys [] [] n) [] c = (e, ret, c') →
  opened m c' ∧ if isError e then ssdb_broken else ret = if n =? 0 then [] else sorted_keys m.
Proof.
  intros Hn Ho. destruct (open_handle _ m c Ho) as (l & Hl & Hm & Hw). unfold SsdbConn.ssdb_read. rewrite Hw.
  unfold SsdbClient.keys, with_response, request. destruct (link_request l _ _) as [resp w'] eqn:E.
  destruct (keys_law _ _ _ _ _ Hn E) as [Ew Er]. rewrite Hm in Ew, Er. unfold _read_list.
  destruct (ok (Status_of resp)) eqn:Hok; unfold error; rewrite Hok; cbn [negb]; intros [= <- <- <-].
  - split; [by eapply ssdb_set_world|]. simpl. by apply Er.
  - rewrite code_error_is. split; [by eapply ssdb_set_world|]. eapply broken_keys; [done|]. unfold error. by rewrite Hok.
Qed.

Local Existing Instance SsdbConn.inner.

Program Instance ssdb_inner_laws : InnerLaws RemoteConfig L W := {| content := ssdb_map; broken := ssdb_broken |}.
Next Obligation.
  intros m k c e v c' Ho. simpl. destruct (open_handle _ m c Ho) as (l & Hl & Hm & Hw).
  unfold SsdbConn.GetInner, SsdbConn.ssdb_read. rewrite Hw. unfold SsdbClient.get, with_response, request.
  destruct (link_request l _ _) as [resp w'] eqn:E. destruct (get_law _ _ _ _ _ E) as [Ew Er]. rewrite Hm in Ew, Er.
  unfold _read_str. cbv zeta. destruct (ok (Status_of resp)) eqn:Hok.
  - destruct (Er eq_refl) as (x & rest & -> & Hx). cbn [default Status_of] in *.
    intros [= <- <- <-]. split; [by eapply ssdb_set_world|done].
  - unfold error. rewrite Hok. cbn [negb]. intros [= <- <- <-]. rewrite code_error_is.
    split; [by eapply ssdb_set_world|]. rewrite <- Hm. destruct (ssdb_map l (native_world c) !! k) eqn:Hk; [right|by left].
    eapply broken_get; [done..|]. unfold error. by rewrite Hok.
Qed.
Next Obligation.
  intros m k v c e c' Ho. apply (ssdb_call_law _ _ (insert k v)); [|done]. intros l w resp w' E.
  split; [by apply set_law|eauto].
Qed.
Next Obligation.
  intros m k c e c' Ho E. apply (ssdb_call_law _ _ (delete k) m) in E as [? ?]; [by split; [|right; auto]| |done].
  intros l w resp w' Q. split; [by apply del_law|eauto].
Qed.
Next Obligation.
  intros m c e n c' Ho. simpl. unfold SsdbConn.DBkcount. destruct (SsdbConn.ssdb_read _ _ _ c) as [[e1 ret] c1] eqn:E.
  apply (ssdb_keys_law _ _ m) in E as [? Hr]; [|by right|done]. intros [= <- <- <-]. split; [done|].
  destruct (isError e1); [done|]. rewrite Hr. simpl. by rewrite length_sorted_keys.
Qed.

Lemma Flushdb_keeps m c e c' : opened m c → SsdbConn.Flushdb c = (e, c') →
  opened m c' ∧ (isError e = true → ssdb_broken).
Proof.
  intros Ho. unfold SsdbConn.Flushdb. destruct (SsdbConn.ssdb_read _ _ _ c) as [[e1 ret] c1] eqn:E.
  apply (ssdb_keys_law _ _ m) in E as [? Hr]; [|by left|done].
  destruct (isError e1) eqn:He; [by intros [= <- <-]|]. simpl in Hr. subst ret. by intros [= <- <-].
Qed.
End Ssdb.

(** * Memcached

    A server keeps a map: reading, writing and deleting without expiration; [memcached_dump] shows the
    callback the keys, in an order of the server's, until it does not succeed; adding the offset 0 to a
    number changes nothing.  The connection is not lost. *)
Fixpoint dump_keys (f : bytes → list bytes → memcached_return * list bytes) (keys r : list bytes) : list bytes :=
  match keys with
  | [] => r
  | k :: keys => let '(rc, r) := f k r in if failed rc then r else dump_keys f keys r
  end.

Class MemcachedLaws (H W : Type) `{!MemcachedLib H W} := {
  mem_map : H → W → kv_map;
  mem_get_law h k w rc v flags w' : memcached_get h k w = (rc, v, flags, w') →
    mem_map h w' = mem_map h w ∧ (failed rc = false → is_Some v ∧ mem_map h w !! k = v);
  mem_set_law h k v w rc w' : memcached_set h k v 0 0 w = (rc, w') →
    mem_map h w' = if failed rc then mem_map h w else <[k := v]> (mem_map h w);
  mem_delete_law h k w rc w' : memcached_delete h k 0 w = (rc, w') →
    mem_map h w' = if failed rc then mem_map h w else delete k (mem_map h w);
  mem_dump_law h f r w rc r' w' : memcached_dump h f r w = (rc, r', w') →
    mem_map h w' = mem_map h w ∧
    (rc ≠ MEMCACHED_ERROR → ∃ keys, keys ≡ₚ sorted_keys (mem_map h w) ∧ r' = dump_keys f keys r);
  mem_increment_law h k w rc n w' : memcached_increment h k 0 w = (rc, n, w') → mem_map h w' = mem_map h w;
  mem_decrement_law h k w rc n w' : memcached_decrement h k 0 w = (rc, n, w') → mem_map h w' = mem_map h w;
  mem_connected_law h w : memcached_servers_connected h w = Some true
}.

Section Memcached.
Context {H W : Type} `{!MemcachedLib H W} `{!MemcachedLaws H W} `{CommonLaws} `{!CommonRedis} `{!ConfigLib} `{!Project}.
Local Abbreviation conn := (CDBConnection RemoteConfig H W).
Implicit Types (c : conn) (w : W) (m : kv_map).
Local Existing Instance MemcachedConn.traits.
Local Abbreviation opened := (open_at mem_map).

(** Calls that fail although they need not. *)
Inductive mem_broken : Prop :=
| mem_broken_get h k w v rc v' flags w' : mem_map h w !! k = Some v → memcached_get h k w = (rc, v', flags, w') →
    failed rc = true → mem_broken
| mem_broken_set h k v w rc w' : memcached_set h k v 0 0 w = (rc, w') → failed rc = true → mem_broken
| mem_broken_delete h k w v rc w' : mem_map h w !! k = Some v → memcached_delete h k 0 w = (rc, w') →
    failed rc = true → mem_broken
| mem_broken_dump h f r w r' w' : memcached_dump h f r w = (MEMCACHED_ERROR, r', w') → mem_broken.
Local Hint Constructors mem_broken : core.

Lemma mem_error_is text rc : isError (MemcachedConn.rc_error text rc) = true.
Proof. apply isError_make_error. Qed.

Lemma mem_set_world m c h w : handle_ (connection_ c) = Some h → mem_map h w = m → opened m (set_world w c).
Proof. apply open_set_world. intros h' w'. simpl. by rewrite mem_connected_law. Qed.

(** A call that only has a result. *)
Lemma mem_call_law text (f : H → W → memcached_return * W) (m' : kv_map) m c e c' :
  opened m c → MemcachedConn.mem_call text f c = (e, c') →
  (∀ h rc w', f h (native_world c) = (rc, w') → mem_map h (native_world c) = m →
     mem_map h w' = if failed rc then m else m') →
  opened (if isError e then m else m') c' ∧
  (isError e = true → ∃ h rc w', f h (native_world c) = (rc, w') ∧ failed rc = true ∧ mem_map h (native_world c) = m).
Proof.
  intros Ho. destruct (open_handle _ m c Ho) as (h & Hh & Hm & Hw). unfold MemcachedConn.mem_call. rewrite Hw.
  destruct (f h (native_world c)) as [rc w'] eqn:E. intros Hr Hf. specialize (Hf _ _ _ E Hm).
  destruct (failed rc) eqn:Hfail; injection Hr as <- <-.
  - rewrite mem_error_is. split; [by eapply mem_set_world|eauto 6].
  - split; [by eapply mem_set_world|done].
Qed.

(** The accesses, with [GetInner] where it does not fail a [CHECK]; the count is that of the map, and not
    what the code counts. *)
Definition mem_get (key : bytes) c : Error * bytes * conn :=
  match MemcachedConn.GetInner key c with Val r => r | Fault _ => (no_error, [], c) end.
Definition mem_inner : InnerOps RemoteConfig H W := {|
  GetInner := mem_get;
  SetInner k v := MemcachedConn.SetInner k v 0 0;
  DelInner k := MemcachedConn.DelInner k 0;
  inner_DBkcount c :=
    (no_error, match handle_ (connection_ c) with Some h => Z.of_nat (size (mem_map h (native_world c))) | None => 0 end, c)
|}.
Local Existing Instance mem_inner.

Lemma GetInner_returns key c : MemcachedConn.GetInner key c = Val (mem_get key c).
Proof.
  unfold mem_get, MemcachedConn.GetInner, on_open. destruct (IsConnected c); [|done].
  destruct (handle_ (connection_ c)) as [h|]; [|done].
  destruct (memcached_get h key _) as [[[rc v] flags] w] eqn:E. destruct (failed rc) eqn:Hf; [done|].
  by destruct (mem_get_law _ _ _ _ _ _ _ E) as [_ [[x ->] _]].
Qed.

Program Instance mem_inner_laws : InnerLaws RemoteConfig H W := {| content := mem_map; broken := mem_broken |}.
Next Obligation.
  intros m k c e v c' Ho. simpl. destruct (open_handle _ m c Ho) as (h & Hh & Hm & Hw).
  unfold mem_get, MemcachedConn.GetInner. rewrite Hw. destruct (memcached_get h k _) as [[[rc x] flags] w] eqn:E.
  destruct (mem_get_law _ _ _ _ _ _ _ E) as [Ew Ex]. rewrite Hm in Ew, Ex. destruct (failed rc) eqn:Hf.
  - intros [= <- <- <-]. rewrite mem_error_is. split; [by eapply mem_set_world|].
    destruct (m !! k) eqn:Hk; [right|by left]. rewrite <- Hm in Hk. eauto.
  - destruct (Ex eq_refl) as [[y ->] Hk]. intros [= <- <- <-]. split; [by eapply mem_set_world|done].
Qed.
Next Obligation.
  intros m k v c e c' Ho E. apply (mem_call_law _ _ (<[k := v]> m) m) in E as [? Hb]; [|done|].
  - split; [done|]. intros He. destruct (Hb He) as (h & rc & w' & Q & Hf & _). eauto.
  - intros h rc w' Q Hm. rewrite (mem_set_law _ _ _ _ _ _ Q). by rewrite Hm.
Qed.
Next Obligation.
  intros m k c e c' Ho E. apply (mem_call_law _ _ (delete k m) m) in E as [? Hb]; [|done|].
  - split; [done|]. intros He. destruct (Hb He) as (h & rc & w' & Q & Hf & Hm).
    destruct (m !! k) eqn:Hk; [right|by left]. rewrite <- Hm in Hk. eauto.
  - intros h rc w' Q Hm. rewrite (mem_delete_law _ _ _ _ _ Q). by rewrite Hm.
Qed.
Next Obligation.
  intros m c e n c' Ho. simpl. destruct (open_handle _ m c Ho) as (h & Hh & Hm & _). rewrite Hh, Hm.
  by intros [= <- <- <-].
Qed.

(** Operations other than selecting, times to live and quitting are those of the accesses. *)
Definition plain_op (op : cdb_op) : Prop :=
  match op with OpSelect _ | OpSetTTL _ _ | OpQuit => False | _ => True end.

Lemma mem_run_op op c : plain_op op →
  @run_op _ _ _ MemcachedConn.traits MemcachedConn.impl _ op c = @run_op _ _ _ MemcachedConn.traits (inner_impl "") _ op c.
Proof.
  destruct op as [|ks|kv|k|k n| |]; try done; intros _; cbn [run_op];
    unfold Get, Rename; cbn [Connection.GetImpl Connection.RenameImpl MemcachedConn.impl inner_impl].
  - unfold MemcachedConn.GetImpl, inner_GetImpl. rewrite GetInner_returns. done.
  - unfold MemcachedConn.RenameImpl, inner_RenameImpl. rewrite GetInner_returns. done.
Qed.

Lemma mem_run_ops ops c : Forall plain_op ops →
  @run_ops _ _ _ MemcachedConn.traits MemcachedConn.impl _ ops c = @run_ops _ _ _ MemcachedConn.traits (inner_impl "") _ ops c.
Proof.
  intros Hops. revert c. induction Hops as [|op ops Hop Hops IH]; intros c; [done|]. cbn [run_ops]. rewrite mem_run_op by done.
  destruct (@run_op _ _ _ _ (inner_impl "") _ op c) as [[[e ev] c1]|]; [|done]. cbn [mbind outcome_bind]. by rewrite IH.
Qed.
(** ** Keys and counters *)

Lemma filter_Permutation_length (f : bytes → bool) l1 l2 :
  l1 ≡ₚ l2 → length (List.filter f l1) = length (List.filter f l2).
Proof.
  induction 1 as [|k l1 l2 Hp IH|j k l|l1 l2 l3 Ha IHa Hb IHb]; simpl; [done| | |by rewrite IHa].
  - destruct (f k); simpl; by rewrite IH.
  - by destruct (f j), (f k).
Qed.

Lemma dump_keys_addKey ks ke limit keys : 0 <= limit → ∀ r, Z.of_nat (length r) <= limit →
  dump_keys (MemcachedConn.addKey ks ke limit) keys r =
  take (Z.to_nat limit) (r ++ List.filter (strictly_between ks ke) keys).
Proof.
  intros Hl. induction keys as [|k keys IH]; intros r Hr; cbn [dump_keys].
  { simpl. rewrite app_nil_r, take_ge by lia. done. }
  unfold MemcachedConn.addKey. destruct (Z.ltb_spec (Z.of_nat (length r)) limit); cbn [failed].
  - rewrite IH; [|destruct (str_ltb ks k && _); rewrite ?length_app; simpl; lia]. simpl. unfold strictly_between at 2.
    destruct (str_ltb ks k && str_ltb k ke); [by rewrite <- app_assoc|done].
  - rewrite take_app_le, take_ge by lia. done.
Qed.

Lemma mem_Keys_between m c ks ke limit e ret c' : 0 <= limit → opened m c →
  MemcachedConn.Keys ks ke limit [] c = (e, ret, c') →
  opened m c' ∧
  if isError e then mem_broken
  else ∃ order, order ≡ₚ sorted_keys m ∧ ret = take (Z.to_nat limit) (List.filter (strictly_between ks ke) order).
Proof.
  intros Hl Ho. destruct (open_handle _ m c Ho) as (h & Hh & Hm & Hw). unfold MemcachedConn.Keys. rewrite Hw.
  destruct (memcached_dump h _ [] _) as [[rc r] w] eqn:E. destruct (mem_dump_law _ _ _ _ _ _ _ E) as [Ew Er].
  rewrite Hm in Ew, Er. intros Hr.
  assert (rc = MEMCACHED_ERROR ∨ rc ≠ MEMCACHED_ERROR) as [->|Hn] by (destruct rc; auto).
  - injection Hr as <- <- <-. rewrite mem_error_is. split; [by eapply mem_set_world|eauto].
  - destruct (Er Hn) as (order & Hp & ->). rewrite dump_keys_addKey in Hr by done.
    assert (Hr' : (no_error, take (Z.to_nat limit) (List.filter (strictly_between ks ke) order), set_world w c) = (e, ret, c'))
      by (destruct rc; done).
    injection Hr' as <- <- <-. split; [by eapply mem_set_world|]. simpl. by exists order.
Qed.

Lemma mem_DBkcount_between m c e n c' : Z.of_nat (size m) <= ULLONG_MAX → opened m c →
  MemcachedConn.DBkcount c = (e, n, c') →
  opened m c' ∧
  if isError e then mem_broken
  else n = Z.of_nat (length (List.filter (strictly_between (lit "a") (lit "z")) (sorted_keys m))).
Proof.
  intros Hs Ho. unfold MemcachedConn.DBkcount. rewrite (open_connected _ _ _ Ho). cbn [negb].
  destruct (MemcachedConn.Keys _ _ _ _ c) as [[e1 r] c1] eqn:E. apply (mem_Keys_between m) in E as [? Hr]; [|done..].
  destruct (isError e1); intros [= <- <- <-].
  - rewrite isError_make_error. done.
  - split; [done|]. simpl. destruct Hr as (order & Hp & ->).
    assert (Hle := List.filter_length_le (strictly_between (lit "a") (lit "z")) order).
    rewrite (Permutation_length Hp), length_sorted_keys in Hle. rewrite take_ge.
    + by rewrite (filter_Permutation_length _ _ _ Hp).
    + revert Hs. generalize ULLONG_MAX. intros u Hs. lia.
Qed.

(** The number added is 0, whatever was asked for. *)
Lemma mem_counters_keep m k n c e c' : opened m c →
  MemcachedConn.Incr k n c = (e, c') ∨ MemcachedConn.Decr k n c = (e, c') → opened m c'.
Proof.
  intros Ho [E|E]; apply (mem_call_law _ _ m m) in E as [? _]; try done; try by destruct (isError e).
  - intros h rc w' Q Hm. destruct (memcached_increment h k 0 _) as [[rc1 v] w1] eqn:Qi. injection Q as <- <-.
    rewrite (mem_increment_law _ _ _ _ _ _ Qi), Hm. by destruct (failed rc1).
  - intros h rc w' Q Hm. destruct (memcached_decrement h k 0 _) as [[rc1 v] w1] eqn:Qi. injection Q as <- <-.
    rewrite (mem_decrement_law _ _ _ _ _ _ Qi), Hm. by destruct (failed rc1).
Qed.
End Memcached.
