(* ===== verification/RemoteSessions.v ===== *)
(** The connections of SSDB and Memcached: sessions on them are sessions on a finite map; what flushing,
    counting and the counters do; and servers in memory at which the theorems are tried out. *)
From Stdlib Require Import Ascii String ZArith Lia.
From stdpp Require Import base list strings gmap sorting.
From S2P Require Import Prelude Common Texts Values Connection Translators Configs RedisReply SsdbApi NativeKv SsdbClient SsdbConn MemcachedConn RemoteProps.
Local Open Scope Z_scope.
#[local] Set Warnings "-register-all".

(** * Servers in memory *)

Section Memory.
Implicit Types m : kv_map.

Definition ssdb_reply (words : list string) : option (list bytes) := Some (List.map lit words).

(** Of the limits 0 and others. *)
Definition mem_ssdb : SsdbLink unit kv_map := {|
  link_connect _ _ m := (Some tt, m);
  link_delete _ m := m;
  link_request _ req m :=
    match req with
    | [cmd; k] =>
      if bool_decide (cmd = lit "get") then
        (match m !! k with Some v => Some [lit "ok"; v] | None => ssdb_reply ["not_found"] end, m)
      else if bool_decide (cmd = lit "del") then (ssdb_reply ["ok"; "1"], delete k m)
      else if bool_decide (cmd = lit "zsize") then (ssdb_reply ["ok"; "7"], m)
      else (ssdb_reply ["client_error"], m)
    | [cmd; k; v] =>
      if bool_decide (cmd = lit "set") then (ssdb_reply ["ok"; "1"], <[k := v]> m) else (ssdb_reply ["client_error"], m)
    | [cmd; _; _; limit] =>
      if bool_decide (cmd = lit "keys") then
        (Some (lit "ok" :: if bool_decide (limit = str 0) then [] else sorted_keys m), m)
      else (ssdb_reply ["client_error"], m)
    | _ => (ssdb_reply ["client_error"], m)
    end
|}.

Program Definition mem_ssdb_laws : @SsdbLaws unit kv_map mem_ssdb := {| ssdb_map _ m := m |}.
Next Obligation.
  intros [] k m resp m'. simpl. destruct (m !! k) as [v|] eqn:Hk; intros [= <- <-]; (split; [done|]).
  - intros _. by exists v, [].
  - done.
Qed.
Next Obligation. by intros [] k v m resp m' [= <- <-]. Qed.
Next Obligation. by intros [] k m resp m' [= <- <-]. Qed.
Next Obligation.
  intros [] n m resp m' Hn. simpl. intros [= <- <-]. split; [done|]. intros _. by destruct Hn as [-> | ->].
Qed.

(** The value of a counter is its text. *)
Definition mem_add (sign : Z) (k : bytes) (offset : Z) m : memcached_return * Z * kv_map :=
  match m !! k with
  | None => (MEMCACHED_OTHER 16, 0, m)
  | Some v =>
    if offset =? 0 then (MEMCACHED_SUCCESS, strtol v, m)
    else (MEMCACHED_SUCCESS, strtol v + sign * offset, <[k := str (strtol v + sign * offset)]> m)
  end.

Definition mem_stat : memcached_stat_st :=
  mkStat 1 0 0 (lit "1.6") 64 0 0 0 0 0 0 0 0 0 0 0 0 0 0 0 0 0.

Definition mem_memcached : MemcachedLib unit kv_map := {|
  memcached_new m := (Some tt, m);
  memcached_free _ m := m;
  memcached_set_sasl_auth_data _ _ _ m := (MEMCACHED_SUCCESS, m);
  memcached_server_add _ _ _ m := (MEMCACHED_SUCCESS, m);
  memcached_version _ m := (MEMCACHED_SUCCESS, m);
  memcached_servers_connected _ _ := Some true;
  memcached_strerror _ := lit "NOT FOUND";
  libmemcached_util_ping _ _ m := (MEMCACHED_SUCCESS, m);
  libmemcached_util_ping2 _ _ _ _ m := (MEMCACHED_SUCCESS, m);
  memcached_dump _ f r m := (MEMCACHED_SUCCESS, dump_keys f (sorted_keys m) r, m);
  memcached_stat _ _ m := (MEMCACHED_SUCCESS, mem_stat, m);
  memcached_add _ k v _ _ m := if m !! k is Some _ then (MEMCACHED_OTHER 14, m) else (MEMCACHED_SUCCESS, <[k := v]> m);
  memcached_replace _ k v _ _ m := if m !! k is Some _ then (MEMCACHED_SUCCESS, <[k := v]> m) else (MEMCACHED_OTHER 14, m);
  memcached_append _ k v _ _ m :=
    if m !! k is Some u then (MEMCACHED_SUCCESS, <[k := u ++ v]> m) else (MEMCACHED_OTHER 14, m);
  memcached_prepend _ k v _ _ m :=
    if m !! k is Some u then (MEMCACHED_SUCCESS, <[k := v ++ u]> m) else (MEMCACHED_OTHER 14, m);
  memcached_set _ k v _ _ m := (MEMCACHED_SUCCESS, <[k := v]> m);
  memcached_increment _ k n m := mem_add 1 k n m;
  memcached_decrement _ k n m := mem_add (-1) k n m;
  memcached_delete _ k _ m := if m !! k is Some _ then (MEMCACHED_SUCCESS, delete k m) else (MEMCACHED_OTHER 16, m);
  memcached_get _ k m :=
    match m !! k with Some v => (MEMCACHED_SUCCESS, Some v, 0, m) | None => (MEMCACHED_OTHER 16, None, 0, m) end;
  memcached_flush _ _ m := (MEMCACHED_SUCCESS, ∅)
|}.

Program Definition mem_memcached_laws : @MemcachedLaws unit kv_map mem_memcached := {| mem_map _ m := m |}.
Next Obligation. intros [] k m rc v fl m'. simpl. destruct (m !! k); intros [= <- <- <- <-]; split; eauto; done. Qed.
Next Obligation. by intros [] k v m rc m' [= <- <-]. Qed.
Next Obligation. intros [] k m rc m'. simpl. by destruct (m !! k); intros [= <- <-]. Qed.
Next Obligation. intros [] f r m rc r' m' [= <- <- <-]. split; [done|]. intros _. by exists (sorted_keys m). Qed.
Next Obligation. intros [] k m rc n m'. simpl. unfold mem_add. by destruct (m !! k); intros [= <- <- <-]. Qed.
Next Obligation. intros [] k m rc n m'. simpl. unfold mem_add. by destruct (m !! k); intros [= <- <- <-]. Qed.
Next Obligation. done. Qed.
End Memory.

(** * The two stores *)

Section Remote.
Context `{CommonLaws} `{!CommonRedis} `{!ConfigLib} `{!Project}.
Context {L WS : Type} `{!SsdbLink L WS} `{!SsdbLaws L WS}.
Context {HM WM : Type} `{!MemcachedLib HM WM} `{!MemcachedLaws HM WM}.

Abbreviation ssdb_open := (@open_at RemoteConfig L WS SsdbConn.traits ssdb_map).
Abbreviation memcached_open := (@open_at RemoteConfig HM WM MemcachedConn.traits mem_map).


(** [Flushdb] of SSDB deletes nothing: it asks the server for its first zero keys, and leaves the store as
    it was; it fails only when the server refuses. *)
Theorem ssdb_flush_keeps m c e c' (Hopen : ssdb_open m c) (Hflush : SsdbConn.Flushdb c = (e, c')) :
  ssdb_open m c' ∧ (isError e = true → ssdb_broken).
Proof. by apply (Flushdb_keeps m c e c'). Qed.

End Remote.

(** * The servers in memory do not fail *)

Lemma mem_ssdb_works : ¬ @ssdb_broken unit kv_map mem_ssdb mem_ssdb_laws.
Proof.
  intros [[] k m v resp m' Hk E He|[] k v m resp m' E He|[] k m resp m' E He|[] m resp m' n E He]; simpl in *.
  - rewrite Hk in E. by injection E as <- <-.
  - by injection E as <- <-.
  - by injection E as <- <-.
  - by injection E as <- <-.
Qed.

(** A connection to each, with three records. *)
Definition remote_map : kv_map :=
  <[lit "A" := lit "1"]> (<[lit "b" := lit "2"]> (<[lit "c" := lit "3"]> ∅)).
Definition remote_on (m : kv_map) : CDBConnection RemoteConfig unit kv_map :=
  mkCDB (mkConnection (@SsdbConfig.Config config_ref) (Some tt) m) false (Some []).
Definition remote_key (s : string) : NKey := mkNKey (lit s) (-1).
Definition remote_ops : list cdb_op :=
  [OpRename (remote_key "A") (lit "d"); OpGet (remote_key "d"); OpGet (remote_key "A"); OpDelete [remote_key "b"]].

Section Witnesses.
Local Existing Instances common_ref common_ref_laws common_redis_ref config_ref mem_ssdb mem_ssdb_laws
  mem_memcached mem_memcached_laws.
Local Instance remote_project : Project := lit "FastoNoSQL".


Lemma ssdb_flush_keeps_witness :
  @open_at _ _ _ SsdbConn.traits ssdb_map remote_map (remote_on remote_map) ∧
  (isError no_error = true → @ssdb_broken unit kv_map mem_ssdb mem_ssdb_laws).
Proof.
  apply (ssdb_flush_keeps (L := unit) (WS := kv_map) remote_map (remote_on remote_map) no_error (remote_on remote_map));
    [split; [done|by exists tt]|by_running].
Defined.

End Witnesses.
