(* ===== verification/SsdbLines.v ===== *)
(** From the command lines of SSDB to the requests of its client: what is sent for a line, and what becomes
    of the response. *)
From Stdlib Require Import Ascii String ZArith Lia.
From stdpp Require Import base list strings gmap.
From S2P Require Import Prelude Common Texts Values Connection Commands Handlers KvApi RemoteTables SsdbApi Dispatch Translators Configs ServerInfo StoreInfos InfoProps NativeKv SsdbClient SsdbConn MemcachedConn RemoteProps RemoteSessions.
Local Open Scope Z_scope.

(** How an argument of a line is sent, and what is made of a response. *)
Inductive arg_form := Word | Int32 | Int64 | UInt64 | Ignored.
Inductive reply_form := OkReply | IntReply | UIntReply | WordReply | ListReply.

Section Wire.
Context `{CommonLib}.

Definition sent (f : arg_form) (arg : bytes) : list bytes :=
  match f with
  | Word => [c_str arg]
  | Int32 => [str (FromString_int (c_str arg))]
  | Int64 => [str (FromString_int64 (c_str arg))]
  | UInt64 => [str (FromString_uint64 (c_str arg))]
  | Ignored => []
  end.

Fixpoint sent_words (forms : list arg_form) (args : list bytes) : list bytes :=
  match forms, args with
  | f :: forms, arg :: args => sent f arg ++ sent_words forms args
  | _, _ => []
  end.

(** The value of a response that is [ok]; without its second word the code is another one. *)
Definition reply_value (r : reply_form) (resp : list bytes) : Status + (value + list bytes) :=
  match r with
  | OkReply => inr (inl OK_value)
  | IntReply => match resp with _ :: v :: _ => inr (inl (VInteger (strtol v))) | _ => inl (lit "server_error") end
  | UIntReply => match resp with _ :: v :: _ => inr (inl (VUInteger (strtol v))) | _ => inl (lit "server_error") end
  | WordReply => match resp with _ :: v :: _ => inr (inl (VString v)) | _ => inl (lit "server_error") end
  | ListReply => inr (inr (tl resp))
  end.

Definition reply_of (r : reply_form) (resp : option (list bytes)) : Status + (value + list bytes) :=
  match resp with
  | Some (code :: words) =>
    if bool_decide (code = lit "ok") then reply_value r (code :: words) else inl code
  | _ => inl (lit "error")
  end.
End Wire.

(** The commands: name, arguments, answer, and text of the error. *)
Definition wire : list (string * list arg_form * reply_form * string) := [
  ("auth", [Word], OkReply, "password function error: %s");
  ("setx", [Word; Word; Int32], OkReply, "setx function error: %s");
  ("keys", [Word; Word; UInt64], ListReply, "Keys function error: %s");
  ("scan", [Word; Word; UInt64], ListReply, "scan function error: %s");
  ("rscan", [Word; Word; UInt64], ListReply, "rscan function error: %s");
  ("multi_get", [Word], ListReply, "multi_get function error: %s");
  ("hset", [Word; Word; Word], OkReply, "hset function error: %s");
  ("hget", [Word; Word], WordReply, "hget function error: %s");
  ("hdel", [Word; Word], OkReply, "hdel function error: %s");
  ("hincr", [Word; Word; Int64], IntReply, "hincr function error: %s");
  ("hsize", [Word], IntReply, "hset function error: %s");
  ("hclear", [Word], IntReply, "hclear function error: %s");
  ("hkeys", [Word; Word; Word; UInt64], ListReply, "hkeys function error: %s");
  ("hgetall", [Word], ListReply, "hgetall function error: %s");
  ("hscan", [Word; Word; Word; UInt64], ListReply, "hscan function error: %s");
  ("hrscan", [Word; Word; Word; UInt64], ListReply, "hrscan function error: %s");
  ("multi_hget", [Word; Word], ListReply, "hrscan function error: %s");
  ("zset", [Word; Word; Int64; Ignored], OkReply, "zset function error: %s");
  ("zget", [Word; Word], IntReply, "zget function error: %s");
  ("zdel", [Word; Word], OkReply, "Zdel function error: %s");
  ("zincr", [Word; Word; Int64], IntReply, "Zincr function error: %s");
  ("zsize", [Word], IntReply, "zsize function error: %s");
  ("zclear", [Word], IntReply, "zclear function error: %s");
  ("zrank", [Word; Word], IntReply, "zrank function error: %s");
  ("zrrank", [Word; Word], IntReply, "zrrank function error: %s");
  ("zrange", [Word; UInt64; UInt64], ListReply, "zrange function error: %s");
  ("zrrange", [Word; UInt64; UInt64], ListReply, "zrrange function error: %s");
  ("zscan", [Word; Word; Int64; Int64; UInt64], ListReply, "zscan function error: %s");
  ("zrscan", [Word; Word; Int64; Int64; UInt64], ListReply, "zrscan function error: %s");
  ("multi_zget", [Word; Word], ListReply, "multi_zget function error: %s");
  ("multi_zdel", [Word; Word], OkReply, "multi_zdel function error: %s");
  ("qpush", [Word; Word], OkReply, "qpush function error: %s");
  ("qpop", [Word; Ignored], WordReply, "qpop function error: %s");
  ("qslice", [Word; Int64; Int64], ListReply, "qslice function error: %s");
  ("qclear", [Word], IntReply, "qclear function error: %s");
  ("dbsize", [], UIntReply, "Couldn't determine DBSIZE error: %s")
]%string.

Section Lines.
Context {L W : Type} `{!SsdbLink L W} `{CommonLaws} `{!ConfigLib} `{!Project} `{!InfoLib} (raw : SsdbInfo.Stats).
Local Abbreviation conn := (CDBConnection RemoteConfig L W).
Local Existing Instances SsdbConn.traits SsdbConn.impl SsdbConn.ops SsdbConn.inner.
Local Instance line_kv : KvOps RemoteConfig L W := SsdbConn.kv raw.
Implicit Types (s : hst RemoteConfig L W) (l : L).

(** One request, and its response in the output. *)
Definition wire_answer (l : L) (r : reply_form) (text : string) (req : list bytes) s
    : outcome (Error * hst RemoteConfig L W) :=
  let '(resp, w) := link_request l req (native_world (Handlers.conn s)) in
  let s := with_conn s (set_world w (Handlers.conn s)) in
  match reply_of r resp with
  | inl code => Val (SsdbConn.code_error text code, s)
  | inr (inl v) => Val (no_error, add_value v s)
  | inr (inr words) => Val (no_error, add_strings words s)
  end.

Definition entry_sends (e : string * list arg_form * reply_form * string) : Prop :=
  let '(w, forms, r, text) := e in
  ∀ x args s l, lower (c_str x) = lit w → length args = length forms →
    handle_ (connection_ (Handlers.conn s)) = Some l →
    Execute SsdbApi.run Ssdb.ssdbCommands (argc_of (x :: args)) (vec [] (x :: args)) s =
    wire_answer l r text (lit w :: sent_words forms args) s.

(** The three ways to answer. *)
Lemma on_open_handle {A} (o : Error → A) f (c : conn) l : handle_ (connection_ c) = Some l → on_open o f c = f l.
Proof. intros Hl. unfold on_open, IsConnected, Connection_IsConnected. simpl. by rewrite Hl. Qed.

Lemma status_cases resp : (∃ words, resp = Some (lit "ok" :: words)) ∨
  (ok (Status_of resp) = false ∧ ∀ r, reply_of r resp = inl (Status_of resp)).
Proof.
  destruct resp as [[|code words]|]; [right; split; [by vm_compute|done]|..|right; split; [by vm_compute|done]]. unfold reply_of, Status_of, ok.
  destruct (bool_decide_reflect (code = lit "ok")) as [->|]; [left; by eexists|right; split; [by apply bool_decide_eq_false|done]].
Qed.

Lemma ok_answer l text req s : handle_ (connection_ (Handlers.conn s)) = Some l →
  (let '(er, c) := SsdbConn.ssdb_call text (λ l w, status_only l req w) (Handlers.conn s) in
   if_null_error er (add_value OK_value) (with_conn s c)) = wire_answer l OkReply text req s.
Proof.
  intros Hl. unfold SsdbConn.ssdb_call, wire_answer. rewrite (on_open_handle _ _ _ l Hl). unfold status_only, request.
  destruct (link_request l req _) as [resp w]. destruct (status_cases resp) as [[words ->]|[Hok Hr]]; [done|].
  rewrite Hr. unfold error. by rewrite Hok.
Qed.

Lemma int_answer l text req s v : handle_ (connection_ (Handlers.conn s)) = Some l →
  (let '(er, n, c) := SsdbConn.ssdb_read text (λ ret l w, with_response l req (_read_int64 ret) w) v (Handlers.conn s) in
   if_null_error er (add_value (VInteger n)) (with_conn s c)) = wire_answer l IntReply text req s.
Proof.
  intros Hl. unfold SsdbConn.ssdb_read, wire_answer. rewrite (on_open_handle _ _ _ l Hl). unfold with_response, request.
  destruct (link_request l req _) as [resp w]. destruct (status_cases resp) as [[words ->]|[Hok Hr]]; [by destruct words|].
  rewrite Hr. unfold _read_int64, error. cbv zeta. rewrite Hok. by rewrite Hok.
Qed.

Lemma word_answer l text req s v : handle_ (connection_ (Handlers.conn s)) = Some l →
  (let '(er, n, c) := SsdbConn.ssdb_read text (λ ret l w, with_response l req (_read_str ret) w) v (Handlers.conn s) in
   if_null_error er (add_value (VString n)) (with_conn s c)) = wire_answer l WordReply text req s.
Proof.
  intros Hl. unfold SsdbConn.ssdb_read, wire_answer. rewrite (on_open_handle _ _ _ l Hl). unfold with_response, request.
  destruct (link_request l req _) as [resp w]. destruct (status_cases resp) as [[words ->]|[Hok Hr]]; [by destruct words|].
  rewrite Hr. unfold _read_str, error. cbv zeta. rewrite Hok. by rewrite Hok.
Qed.

Lemma list_answer l text req s : handle_ (connection_ (Handlers.conn s)) = Some l →
  (let '(er, r, c) := SsdbConn.ssdb_read text (λ ret l w, with_response l req (_read_list ret) w) [] (Handlers.conn s) in
   if_null_error er (add_strings r) (with_conn s c)) = wire_answer l ListReply text req s.
Proof.
  intros Hl. unfold SsdbConn.ssdb_read, wire_answer. rewrite (on_open_handle _ _ _ l Hl). unfold with_response, request.
  destruct (link_request l req _) as [resp w]. destruct (status_cases resp) as [[words ->]|[Hok Hr]]; [done|].
  rewrite Hr. unfold _read_list, error. cbv zeta. by rewrite Hok.
Qed.
Lemma size_answer l text s : handle_ (connection_ (Handlers.conn s)) = Some l →
  text = "Couldn't determine DBSIZE error: %s"%string →
  SsdbApi.answer_uint C_DBsize s = wire_answer l UIntReply text [lit "dbsize"] s.
Proof.
  intros Hl ->. unfold SsdbApi.answer_uint. cbn [ssdb_int SsdbConn.ops]. unfold SsdbConn.DBsize, SsdbConn.ssdb_read, wire_answer.
  rewrite (on_open_handle _ _ _ l Hl). unfold SsdbClient.dbsize, with_response, request.
  destruct (link_request l _ _) as [resp w]. destruct (status_cases resp) as [[words ->]|[Hok Hr]]; [by destruct words|].
  rewrite Hr. unfold _read_int64, error. cbv zeta. rewrite Hok. by rewrite Hok.
Qed.

Lemma ssdb_table_ok : table_ok Ssdb.ssdbCommands = true.
Proof. vm_cast_no_check (eq_refl true). Qed.
Lemma ssdb_one_word : forallb (λ c, Nat.eqb (name_words c) 1) Ssdb.ssdbCommands = true.
Proof. vm_cast_no_check (eq_refl true). Qed.

(** The line of the [n]-th command runs its function [f]. *)
Lemma line_runs n f x args s w :
  lower (c_str x) = lit w → argc_of (x :: args) <= INT_MAX →
  match Ssdb.ssdbCommands !! n with
  | Some cmd => func_ cmd = f ∧ lower (name (Commands.info cmd)) = lit w ∧ Commands.in_range cmd (argc_of args) = true
  | None => False
  end →
  Execute SsdbApi.run Ssdb.ssdbCommands (argc_of (x :: args)) (vec [] (x :: args)) s =
  SsdbApi.run f (argc_of args) (vec [x] args) s.
Proof.
  intros Hx Hmax. destruct (Ssdb.ssdbCommands !! n) as [cmd|] eqn:Hn; [|done]. intros (<- & Hw & Hr).
  apply (one_word_line SsdbApi.run Ssdb.ssdbCommands n); [exact ssdb_table_ok|exact ssdb_one_word|done|done| |done].
  by rewrite Hx, Hw.
Qed.

Definition command_of (w : string) : option (nat * CommandHolder Ssdb.fn) :=
  list_find (λ c, lower (name (Commands.info c)) = lit w) Ssdb.ssdbCommands.

Ltac entry :=
  let x := fresh "x" in let args := fresh "args" in let s := fresh "s" in let l := fresh "l" in
  let Hx := fresh "Hx" in let Hlen := fresh "Hlen" in let Hl := fresh "Hl" in
  lazymatch goal with
  | |- entry_sends (?w, _, _, _) =>
    let n := eval vm_compute in (from_option fst 0%nat (command_of w)) in
    let f := eval vm_compute in (from_option (func_ ∘ snd) Ssdb.f_quit (command_of w)) in
    intros x args s l Hx Hlen Hl;
    do 6 (try (destruct args as [|? args]; try discriminate Hlen));
    etransitivity; [apply (line_runs n f x _ s _ Hx); [vm_compute; discriminate|vm_compute; by split_and!]|];
    clear Hx Hlen; cbn [SsdbApi.run];
    first [apply (ok_answer l _ _ s Hl)|apply (int_answer l _ _ s 0 Hl)|apply (word_answer l _ _ s [] Hl)|
           apply (list_answer l _ _ s Hl)|by apply (size_answer l _ s Hl)]
  end.

End Lines.

Section Witness.
Local Existing Instances common_ref common_ref_laws config_ref mem_ssdb.
Local Instance lines_project : Project := lit "FastoNoSQL".
Local Instance lines_info : InfoLib := info_ref.
Definition lines_raw : SsdbInfo.Stats := SsdbInfo.mkStats [] 0 0 0 [].
Definition lines_state : hst RemoteConfig unit kv_map := mkHst (remote_on remote_map) (CreateRoot []).

End Witness.
