(* ===== verification/Events.v ===== *)
(** What the server objects and the drivers send each other: [core/events/events_info.h],
    [core/events/events_info.cpp] and [core/events/events.h]; and the pointers they share. *)
From Stdlib Require Import Ascii String ZArith Lia.
From stdpp Require Import base list.
From S2P Require Import Prelude Common Values ConnectionTypes.
Local Open Scope Z_scope.
#[local] Set Warnings "-register-all".

(** * Shared objects

    A [QObject*] that sends or receives events, and an [IDataBaseInfoSPtr], which is shared by the driver,
    the server and the events between them: a place in the store of the database informations. *)
Definition QObject : Type := nat.
Definition IDataBaseInfoSPtr : Type := nat.
Definition info_store : Type := list IDataBaseInfo.

(** * Requests

    The members that the structures add to [EventInfoBase].  A null [inf] is [None]. *)
Definition property_t : Type := bytes * bytes.

Inductive request_info :=
| ConnectInfoRequest
| ShutDownInfoRequest
| BackupInfoRequest (path : bytes)
| ExportInfoRequest (path : bytes)
| ChangePasswordRequest (old_password new_password : bytes)
| ChangeMaxConnectionRequest (max_connection : Z)
| ProcessConfigArgsInfoRequest
| DiscoveryInfoRequest
| DisConnectInfoRequest
| ExecuteInfoRequest (text : bytes) (repeat msec_repeat_interval : Z) (history silence : bool)
| LoadDatabasesInfoRequest
| LoadDatabaseContentRequest (inf : option IDataBaseInfoSPtr) (pattern : bytes) (count_keys cursor_in : Z)
| ClearDatabaseRequest (inf : option IDataBaseInfoSPtr)
| SetDefaultDatabaseRequest (inf : option IDataBaseInfoSPtr)
| ServerInfoRequest
| ServerInfoHistoryRequest
| ClearServerHistoryRequest
| ServerPropertyInfoRequest
| ChangeServerPropertyInfoRequest (new_item : property_t).

(** [EventInfoBase] with the members of the structure behind it. *)
Record EventInfo := mkEventInfo {
  ei_sender : QObject;
  ei_time_start : Z;
  ei_error : Error;
  ei_info : request_info
}.

(** The constructor without a time reads the clock, which is given here. *)
Definition EventInfoBase (sender : QObject) (now : Z) (er : Error) (info : request_info) : EventInfo :=
  mkEventInfo sender now er info.
Definition ElapsedTime (now : Z) (e : EventInfo) : Z := now - ei_time_start e.

Section Events.
(** [SI]: what an [IServerInfoSPtr] points to. *)
Context {SI : Type}.

(** [ServerInfoSnapShoot] *)
Record ServerInfoSnapShoot := mkSnapShoot { ss_msec : Z; ss_info : option SI }.
Definition isValid (s : ServerInfoSnapShoot) : bool := (0 <? ss_msec s) && bool_decide (is_Some (ss_info s)).

(** What a response adds to its request; [is_change] is not initialised by the constructor, which is
    [None]. *)
Inductive responce_info :=
| PlainResponce
| DiscoveryInfoResponce (sinfo : option SI) (dbinfo : option IDataBaseInfoSPtr)
| LoadDatabasesInfoResponce (databases : list IDataBaseInfoSPtr)
| LoadDatabaseContentResponce (keys : list NDbKValue) (cursor_out db_keys_count : Z)
| ServerInfoResponce (info : option SI)
| ServerInfoHistoryResponce (infos : list ServerInfoSnapShoot)
| ServerPropertyInfoResponce (properties : list property_t)
| ChangeServerPropertyInfoResponce (is_change : option bool).

(** A response is made from its request: the sender, the time and the error are those of the request. *)
Definition responce_of (info : request_info) : responce_info :=
  match info with
  | DiscoveryInfoRequest => DiscoveryInfoResponce None None
  | LoadDatabasesInfoRequest => LoadDatabasesInfoResponce []
  | LoadDatabaseContentRequest _ _ _ _ => LoadDatabaseContentResponce [] 0 0
  | ServerInfoRequest => ServerInfoResponce None
  | ServerInfoHistoryRequest => ServerInfoHistoryResponce []
  | ServerPropertyInfoRequest => ServerPropertyInfoResponce []
  | ChangeServerPropertyInfoRequest _ => ChangeServerPropertyInfoResponce None
  | _ => PlainResponce
  end.

Record Responce := mkResponce { rs_request : EventInfo; rs_info : responce_info }.
Definition new_Responce (request : EventInfo) : Responce := mkResponce request (responce_of (ei_info request)).

Definition setErrorInfo (er : Error) (r : Responce) : Responce :=
  let e := rs_request r in mkResponce (mkEventInfo (ei_sender e) (ei_time_start e) er (ei_info e)) (rs_info r).
Definition errorInfo (r : Responce) : Error := ei_error (rs_request r).
Definition set_info (i : responce_info) (r : Responce) : Responce := mkResponce (rs_request r) i.

(** * Events

    [common::qt::Event] of a value: its sender, and the value.  The root objects of the outputs are named by
    numbers, the completed ones come with their tree. *)
Inductive qevent :=
| RequestEvent (sender : QObject) (value : EventInfo)
| ResponceEvent (sender : QObject) (value : Responce)
| ProgressResponceEvent (sender : QObject) (progress : Z)
| EnterModeEvent (sender : QObject) (time_start : Z) (mode : ConnectionMode)
| LeaveModeEvent (sender : QObject) (time_start : Z) (mode : ConnectionMode) (er : Error)
| CommandRootCreatedEvent (sender : QObject) (time_start : Z) (root : nat)
| CommandRootCompleatedEvent (sender : QObject) (time_start : Z) (root : nat) (tree : FastoObject).

(** [uint8_t] *)
Definition ProgressInfoResponce (pr : Z) : Z := pr mod 2 ^ 8.
End Events.
Arguments ServerInfoSnapShoot : clear implicits.
Arguments responce_info : clear implicits.
Arguments Responce : clear implicits.
Arguments qevent : clear implicits.
