(* ===== verification/DriverBase.v ===== *)
(** The state of a driver and what its handlers are built of: [core/driver/idriver.h], the root objects of
    [core/driver/root_locker.cpp] and [core/driver/first_child_update_root_locker.cpp], and the execution of
    a command in [core/driver/idriver.cpp]. *)
From Stdlib Require Import Ascii String ZArith Lia.
From stdpp Require Import base list.
From S2P Require Import Prelude Common Texts Values Connection SdsArgs Commands Configs RedisReply RedisModes Translators ConnectionTypes ConnSettings Events.
Local Open Scope Z_scope.
#[local] Set Warnings "-register-all".

(** * Surroundings

    The clock, pauses, whether another thread has called [Interrupt] since the last look, and files.  [F]
    is an open or closed [common::file_system::File] for writing, [R] one that is read. *)
Class DriverEnv (U F R : Type) := {
  env_mstime : U → Z * U;
  env_msleep : Z → U → U;
  env_poll : U → bool * U;
  fs_dir_path : bytes → bytes;
  fs_create_directory : bytes → U → Error * U;
  fs_is_directory : bytes → U → bool;
  fs_is_file_exist : bytes → U → bool;
  fs_remove_file : bytes → U → Error * U;
  fs_copy_file : bytes → bytes → U → Error * U;
  File_new : bytes → F;
  File_isOpened : F → U → bool;
  File_open_append : F → U → F * U;
  File_write : F → bytes → U → U;
  File_flush : F → U → U;
  File_truncate : F → U → bool * U;
  File_open_read : bytes → U → option R;
  (** the position of a file that is read: [isEof], and [readLine] with its result and the line *)
  File_isEof : R → bool;
  File_readLine : R → bool * bytes * R;
  (** a bound on the lines that are left *)
  File_lines : R → nat
}.

(** * Signals

    A child is named by its root and the numbers of the children on the way to it. *)
Section Signals.
Context {SI : Type}.
Inductive signal :=
| ChildAdded (root : nat) (child : list nat)
| ItemUpdated (root : nat) (item : list nat) (val : value)
| SnapShootTaken (shot : ServerInfoSnapShoot SI)
| KeyRemoved (db : option IDataBaseInfoSPtr) (key : NKey)
| KeyAdded (db : option IDataBaseInfoSPtr) (key : NDbKValue)
| KeyRenamed (db : option IDataBaseInfoSPtr) (key : NKey) (new_name : bytes)
| KeyLoaded (db : option IDataBaseInfoSPtr) (key : NDbKValue)
| KeyTTLChanged (db : option IDataBaseInfoSPtr) (key : NKey) (ttl : Z)
| Disconnected
| Printed (input : bytes) (ct : command_logging).
End Signals.
Arguments signal : clear implicits.

(** * The members of a driver's [DBConnection] that [IDriver] needs

    [impl_events] takes what the connection told its client, which is the driver. *)
Class DriverConn `{SettingsLib} (C : Type) := {
  impl_IsConnected : C → bool;
  impl_IsAuthenticated : C → bool;
  impl_IsInterrupted : C → bool;
  impl_SetInterrupted : bool → C → C;
  impl_Delimiter : C → bytes;
  impl_NsSeparator : C → bytes;
  impl_events : C → list client_event * C;
  impl_SyncConnect : Settings → C → outcome (Error * C);
  impl_SyncDisconnect : C → outcome (Error * C);
  impl_Execute : Z → argv_t → FastoObject → C → outcome (Error * FastoObject * C)
}.

(** * [IDriver]

    [infos_] is the store of the shared database informations, [env_] the surroundings; [posted_] are the
    events in the queues of their receivers, [emitted_] the signals, in order; [roots_] is the number of
    root objects made. *)
Record IDriver `{SettingsLib} (C SI U F : Type) := mkIDriver {
  id_ : QObject;
  settings_ : Settings;
  impl_ : C;
  server_info_ : option SI;
  current_database_info_ : option IDataBaseInfoSPtr;
  timer_info_id_ : Z;
  log_file_ : option F;
  infos_ : info_store;
  env_ : U;
  posted_ : list (QObject * qevent SI);
  emitted_ : list (signal SI);
  roots_ : nat
}.
Arguments mkIDriver {_ C SI U F} _ _ _ _ _ _ _ _ _ _ _ _.
Arguments id_ {_ C SI U F} _.
Arguments settings_ {_ C SI U F} _.
Arguments impl_ {_ C SI U F} _.
Arguments server_info_ {_ C SI U F} _.
Arguments current_database_info_ {_ C SI U F} _.
Arguments timer_info_id_ {_ C SI U F} _.
Arguments log_file_ {_ C SI U F} _.
Arguments infos_ {_ C SI U F} _.
Arguments env_ {_ C SI U F} _.
Arguments posted_ {_ C SI U F} _.
Arguments emitted_ {_ C SI U F} _.
Arguments roots_ {_ C SI U F} _.

Section Driver.
Context `{SettingsLib} {C SI U F R : Type} `{!DriverConn C} `{!DriverEnv U F R} `{CommonLib} `{!CommonRedis}.
Local Abbreviation driver := (IDriver C SI U F).
Implicit Types d : driver.

(** Updates of one member. *)
Definition with_impl (c : C) d : driver :=
  mkIDriver (id_ d) (settings_ d) c (server_info_ d) (current_database_info_ d) (timer_info_id_ d) (log_file_ d)
    (infos_ d) (env_ d) (posted_ d) (emitted_ d) (roots_ d).
Definition with_infos (server : option SI) (db : option IDataBaseInfoSPtr) (infos : info_store) d : driver :=
  mkIDriver (id_ d) (settings_ d) (impl_ d) server db (timer_info_id_ d) (log_file_ d) infos (env_ d) (posted_ d)
    (emitted_ d) (roots_ d).
Definition with_log (timer : Z) (log : option F) d : driver :=
  mkIDriver (id_ d) (settings_ d) (impl_ d) (server_info_ d) (current_database_info_ d) timer log (infos_ d) (env_ d)
    (posted_ d) (emitted_ d) (roots_ d).
Definition with_env (o : U) d : driver :=
  mkIDriver (id_ d) (settings_ d) (impl_ d) (server_info_ d) (current_database_info_ d) (timer_info_id_ d) (log_file_ d)
    (infos_ d) o (posted_ d) (emitted_ d) (roots_ d).
Definition with_out (posted : list (QObject * qevent SI)) (emitted : list (signal SI)) (roots : nat) d : driver :=
  mkIDriver (id_ d) (settings_ d) (impl_ d) (server_info_ d) (current_database_info_ d) (timer_info_id_ d) (log_file_ d)
    (infos_ d) (env_ d) posted emitted roots.

(** ** Handlers

    A handler runs on the driver and may fail. *)
Definition D (A : Type) : Type := driver → outcome (A * driver).
Definition ret {A} (a : A) : D A := λ d, Val (a, d).
Definition bind {A B} (f : A → D B) (m : D A) : D B := λ d, '(a, d) ← m d; f a d.
Definition lift {A} (m : outcome A) : D A := λ d, a ← m; Val (a, d).
Definition gets {A} (f : driver → A) : D A := λ d, Val (f d, d).
Definition modify (f : driver → driver) : D unit := λ d, Val (tt, f d).
End Driver.
Arguments D {_} C SI U F A.

Declare Scope driver_scope.
Delimit Scope driver_scope with D.
Notation "x ⟵ m ; k" := (bind (λ x, k) m) (at level 20, m at level 100, k at level 200, right associativity) : driver_scope.
Notation "' p ⟵ m ; k" := (bind (λ x, match x with p => k end) m)
  (at level 20, p pattern, m at level 100, k at level 200, right associativity) : driver_scope.
Notation "m ;; k" := (bind (λ _, k) m) (at level 100, k at level 200, right associativity) : driver_scope.
Local Open Scope driver_scope.

Section Steps.
Context `{SettingsLib} {C SI U F R : Type} `{!DriverConn C} `{!DriverEnv U F R} `{CommonLib} `{!CommonRedis}.
Local Abbreviation driver := (IDriver C SI U F).
Local Abbreviation D := (D C SI U F).
Implicit Types d : driver.

(** ** Effects *)

Definition on_env {A} (f : U → A * U) : D A := λ d, let '(a, o) := f (env_ d) in Val (a, with_env o d).
Definition to_env (f : U → U) : D unit := modify (λ d, with_env (f (env_ d)) d).
Definition current_mstime : D Z := on_env env_mstime.
Definition emit (s : signal SI) : D unit := modify (λ d, with_out (posted_ d) (emitted_ d ++ [s]) (roots_ d) d).
(** [qApp->postEvent] *)
Definition Reply (reciver : QObject) (ev : qevent SI) : D unit :=
  modify (λ d, with_out (posted_ d ++ [(reciver, ev)]) (emitted_ d) (roots_ d) d).
Definition self : D QObject := gets id_.

(** [NotifyProgress] and [notifyProgressImpl] *)
Definition NotifyProgress (reciver : QObject) (value : Z) : D unit :=
  me ⟵ self; Reply reciver (ProgressResponceEvent me (ProgressInfoResponce value)).

Definition reply_responce (reciver : QObject) (res : Responce SI) : D unit :=
  me ⟵ self; Reply reciver (ResponceEvent me res).

(** ** The shared database informations *)

Definition new_info (info : IDataBaseInfo) : D IDataBaseInfoSPtr := λ d,
  Val (length (infos_ d), with_infos (server_info_ d) (current_database_info_ d) (infos_ d ++ [info]) d).
Definition deref_info (p : option IDataBaseInfoSPtr) : D IDataBaseInfo := λ d,
  match p with
  | None => Fault NullPointer
  | Some p => match infos_ d !! p with Some info => Val (info, d) | None => Fault NullPointer end
  end.
Definition set_current_database (p : option IDataBaseInfoSPtr) : D unit :=
  modify (λ d, with_infos (server_info_ d) p (infos_ d) d).

(** ** The client of the connection *)

(** [info->Clone()] of a null pointer fails. *)
Definition OnCurrentDataBaseChanged_ (info : option IDataBaseInfo) : D unit :=
  match info with
  | None => lift (Fault NullPointer)
  | Some info => p ⟵ new_info info; set_current_database (Some p)
  end.

Fixpoint each {A} (f : A → D unit) (l : list A) : D unit :=
  match l with [] => ret tt | a :: l => f a;; each f l end.

Definition on_client_event (ev : client_event) : D unit :=
  db ⟵ gets current_database_info_;
  match ev with
  | OnCurrentDataBaseChanged info => OnCurrentDataBaseChanged_ info
  | OnKeysRemoved keys => each (λ key, emit (KeyRemoved db key)) keys
  | OnKeyAdded key => emit (KeyAdded db key)
  | OnKeyLoaded key => emit (KeyLoaded db key)
  | OnKeyRenamed key new_key => emit (KeyRenamed db key new_key)
  | OnKeyTTLChanged key ttl => emit (KeyTTLChanged db key ttl)
  | OnQuited => emit Disconnected
  end.

(** A call of a member of the connection; what it tells its client on the way does not depend on what the
    client does. *)
Definition on_impl {A} (f : C → outcome (A * C)) : D A := λ d,
  '(a, c) ← f (impl_ d);
  let '(evs, c) := impl_events c in
  (each on_client_event evs;; ret a) (with_impl c d).

(** ** Simple members *)

Definition IsConnected : D bool := gets (λ d, impl_IsConnected (impl_ d)).
Definition IsAuthenticated : D bool := gets (λ d, impl_IsAuthenticated (impl_ d)).
(** Another thread may have called [Interrupt] since the last look. *)
Definition IsInterrupted : D bool :=
  b ⟵ on_env env_poll;
  (if b : bool then modify (λ d, with_impl (impl_SetInterrupted true (impl_ d)) d) else ret tt);;
  gets (λ d, impl_IsInterrupted (impl_ d)).
Definition SetInterrupted (b : bool) : D unit := modify (λ d, with_impl (impl_SetInterrupted b (impl_ d)) d).
Definition Interrupt : D unit := SetInterrupted true.
Definition Type_ : D connectionTypes := gets (λ d, type_ (cs_base (settings_ d))).
Definition ConnectionPath : D ConnectionSettingsPath := gets (λ d, connection_path_ (cs_base (settings_ d))).

(** The members without arguments: what was found out last. *)
Definition CurrentServerInfo_ : D (option SI) :=
  connected ⟵ IsConnected;
  if connected : bool then
    i ⟵ gets server_info_; match i with None => lift (Fault CheckFailed) | Some i => ret (Some i) end
  else ret None.
Definition CurrentDatabaseInfo_ : D (option IDataBaseInfoSPtr) :=
  connected ⟵ IsConnected;
  if connected : bool then
    i ⟵ gets current_database_info_; match i with None => lift (Fault CheckFailed) | Some i => ret (Some i) end
  else ret None.

(** ** Commands *)

(** [core/command/command.h]; without a parent the delimiter is empty. *)
Definition CreateCommandFast (input : bytes) (ct : command_logging) : option FastoObject :=
  let stable_input := StableCommand input in
  if bool_decide (stable_input = []) then None else Some (new_FastoObject (VCommand stable_input ct) []).

(** [CommandLogger::Print] *)
Definition LOG_COMMAND (cmd : FastoObject) : D unit :=
  match value_ cmd with VCommand input ct => emit (Printed input ct) | _ => ret tt end.

(** [cmd] is [None] for a null pointer; the object comes back with what the command added to it. *)
Definition Execute (cmd : option FastoObject) : D (Error * option FastoObject) :=
  match cmd with
  | None => ret (invalid_arguments, None)
  | Some o =>
    match c_strornull (InputCommand o) with
    | None => ret (invalid_arguments, cmd)
    | Some ccommand =>
      LOG_COMMAND o;;
      argv ⟵ lift (sdssplitargslong ccommand);
      match argv with
      | None => ret (invalid_arguments, cmd)
      | Some args =>
        r ⟵ on_impl (λ c, '(err, o, c) ← impl_Execute (argc_of args) (vec [] args) o c; Val (err, o, c));
        ret (r.1, Some r.2)
      end
    end
  end.

(** ** Roots

    [RootLocker] and [FirstChildUpdateRootLocker], whose [commands_] are counted and whose [watched_cmds_] are
    the numbers of children of the root. *)
Record Locker := mkLocker {
  lk_root : nat;
  lk_tree : FastoObject;
  lk_receiver : QObject;
  lk_tstart : Z;
  lk_silence : bool;
  lk_watch : option (nat * list nat)
}.

Definition RootLocker (receiver : QObject) (text : bytes) (silence : bool) (watch : option nat) : D Locker :=
  tstart ⟵ current_mstime;
  root ⟵ gets roots_;
  modify (λ d, with_out (posted_ d) (emitted_ d) (S root) d);;
  (if silence then ret tt
   else now ⟵ current_mstime; me ⟵ self; Reply receiver (CommandRootCreatedEvent me now root));;
  ret (mkLocker root (CreateRoot text) receiver tstart silence ((λ n, (n, [])) <$> watch)).

Definition RootLocker_delete (lk : Locker) : D unit :=
  if lk_silence lk then ret tt
  else me ⟵ self; Reply (lk_receiver lk) (CommandRootCompleatedEvent me (lk_tstart lk) (lk_root lk) (lk_tree lk)).

Definition with_tree (tree : FastoObject) (lk : Locker) : Locker :=
  mkLocker (lk_root lk) tree (lk_receiver lk) (lk_tstart lk) (lk_silence lk) (lk_watch lk).
Definition with_watched (n : nat) (watched : list nat) (lk : Locker) : Locker :=
  mkLocker (lk_root lk) (lk_tree lk) (lk_receiver lk) (lk_tstart lk) (lk_silence lk) (Some (n, watched)).

(** The object at a place below another one, and that object changed there. *)
Fixpoint object_at (o : FastoObject) (path : list nat) : option FastoObject :=
  match path with
  | [] => Some o
  | i :: path => child ← childrens_ o !! i; object_at child path
  end.
Fixpoint update_at (f : FastoObject → FastoObject) (path : list nat) (o : FastoObject) : FastoObject :=
  match path with
  | [] => f o
  | i :: path => mkFastoObject (value_ o) (delimiter_ o) (alter (update_at f path) i (childrens_ o))
  end.

(** The objects below an object, each one before what is below it: the order in which they were added. *)
Fixpoint below (fuel : nat) (path : list nat) (o : FastoObject) : list (list nat * FastoObject) :=
  match fuel with
  | O => []
  | S fuel =>
    List.concat (imap (λ i child, (path ++ [i], child) :: below fuel (path ++ [i]) child) (childrens_ o))
  end.
Fixpoint height (o : FastoObject) : nat := S (foldr Nat.max 0%nat (List.map height (childrens_ o))).

Definition is_command (o : FastoObject) : bool := bool_decide (FastoObject_Type o = TYPE_COMMAND).

(** [FindWatchedCmd] *)
Definition FindWatchedCmd (lk : Locker) (watched : list nat) (cmd : FastoObject) : option nat :=
  List.find (λ w, match childrens_ (lk_tree lk) !! w with
                  | Some wcmd => bool_decide (InputCommand wcmd = InputCommand cmd) | None => false end) watched.

(** [FindCmdChildNode]: the place of the first child of the watched command. *)
Definition FindCmdChildNode (lk : Locker) (watched : list nat) (path : list nat) : option (list nat) :=
  match object_at (lk_tree lk) (removelast path) with
  | Some parent =>
    if is_command parent then
      w ← FindWatchedCmd lk watched parent;
      wcmd ← childrens_ (lk_tree lk) !! w;
      match childrens_ wcmd with [] => None | _ => Some [w; 0%nat] end
    else None
  | None => None
  end.

(** [ChildrenAdded] of the object at [path]. *)
Definition ChildrenAdded (lk : Locker) (path : list nat) (child : FastoObject) : D Locker :=
  match lk_watch lk with
  | None => emit (ChildAdded (lk_root lk) path);; ret lk
  | Some (n, watched) =>
    if is_command child then
      if (length watched =? n)%nat then ret lk
      else emit (ChildAdded (lk_root lk) path);; ret (with_watched n (watched ++ [List.last path 0%nat]) lk)
    else
      match FindCmdChildNode lk watched path with
      | None => ret lk
      | Some watched_child =>
        if bool_decide (watched_child = path) then emit (ChildAdded (lk_root lk) path);; ret lk
        else
          emit (ItemUpdated (lk_root lk) watched_child (value_ child));;
          ret (with_tree (update_at (λ o, SetValue o (value_ child)) watched_child (lk_tree lk)) lk)
      end
  end.

Fixpoint children_added (l : list (list nat * FastoObject)) (lk : Locker) : D Locker :=
  match l with
  | [] => ret lk
  | (path, child) :: l => lk ⟵ ChildrenAdded lk path child; children_added l lk
  end.

(** [CreateCommand] under the root, and [Execute]: the command is added before it is executed, what the
    command adds is told to the root in the order it was added. *)
Definition run_under_root (lk : Locker) (command : bytes) (ct : command_logging) : D (Error * Locker) :=
  match CreateCommand (lk_tree lk) command ct with
  | None => r ⟵ Execute None; ret (r.1, lk)
  | Some o =>
    let n := length (childrens_ (lk_tree lk)) in
    let tree := lk_tree lk in
    lk ⟵ ChildrenAdded (with_tree (AddChildren tree o) lk) [n] o;
    '(err, o') ⟵ Execute (Some o);
    let o' := default o o' in
    let lk := with_tree (AddChildren tree o') lk in
    lk ⟵ children_added (below (height o') [n] o') lk;
    ret (err, lk)
  end.
End Steps.
