(* ===== verification/Driver.v ===== *)
(** The driver: [core/driver/idriver.cpp]. *)
From Stdlib Require Import Ascii String ZArith Lia SpecFloat.
From stdpp Require Import base list.
From S2P Require Import Prelude Common Texts Values Connection SdsArgs Commands Configs RedisReply RedisModes Translators ConnectionTypes ConnSettings Events DriverBase.
Local Open Scope Z_scope.
Local Open Scope driver_scope.
#[local] Set Warnings "-register-all".

(** * Stamps of the log *)

(** The texts of times and the reading of stamps. *)
Class TimeLib := {
  ToString_time : Z → bytes;
  FromBytes_time : bytes → Z
}.

Definition stamp_magicNumber : ascii := "030"%char.

Definition createStamp `{TimeLib} (time : Z) : bytes := stamp_magicNumber :: ToString_time time ++ [chr_nl].

(** [None]: no stamp, or one of the time 0. *)
Definition getStamp `{TimeLib} (stamp : bytes) : option Z :=
  match stamp with
  | c :: stamp =>
    if Ascii.eqb c stamp_magicNumber then
      match last stamp with
      | None => None
      | Some e =>
        let stamp := if Ascii.eqb e chr_nl then removelast stamp else stamp in
        let time := FromBytes_time stamp in
        if time =? 0 then None else Some time
      end
    else None
  | [] => None
  end.

(** * Progress

    [double], as the format of 64 bits. *)
Definition double : Type := spec_float.
Definition double_of (z : Z) : double := binary_normalize 53 1024 z 0 false.
Definition double_add : double → double → double := SFadd 53 1024.
Definition double_div : double → double → double := SFdiv 53 1024.

(** Conversion to [int] cuts off the fraction; it is undefined outside of [int]. *)
Definition int_of_double (x : double) : outcome Z :=
  match x with
  | S754_zero _ => Val 0
  | S754_finite s m e =>
    let a := if 0 <=? e then Z.pos m * 2 ^ e else Z.pos m / 2 ^ (- e) in
    let z := if s then - a else a in
    if (INT_MIN <=? z) && (z <=? INT_MAX) then Val z else Fault SignedOverflow
  | _ => Fault SignedOverflow
  end.

(** * Handlers that are not virtual, or may be overridden *)

Section Handlers.
Context `{SettingsLib} {C SI U F R : Type} `{!DriverConn C} `{!DriverEnv U F R} `{CommonLib} `{!CommonRedis}
  `{!Project} `{!TimeLib}.
Local Abbreviation driver := (IDriver C SI U F).
Local Abbreviation D := (D C SI U F).
Implicit Types (d : driver) (sender : QObject) (ev : EventInfo).

Definition error_text (text : string) : Error := make_error_value (lit text) E_ERROR.

Definition set_error (er : Error) (res : Responce SI) : Responce SI :=
  if isError er then setErrorInfo er res else res.

Definition replyNotImplementedYet (eventCommandText : string) sender ev : D unit :=
  NotifyProgress sender 0;;
  let res := new_Responce ev in
  let patternResult :=
    MemSPrintf (lit "Sorry, but now " ++ project_title ++ lit " not supported %s command.") [FStr (lit eventCommandText)] in
  let er := make_error_value patternResult E_ERROR in
  reply_responce sender (setErrorInfo er res);;
  NotifyProgress sender 100.

Definition HandleConnectEvent sender ev : D unit :=
  NotifyProgress sender 0;;
  let res := new_Responce ev in
  NotifyProgress sender 25;;
  settings ⟵ gets settings_;
  er ⟵ on_impl (impl_SyncConnect settings);
  NotifyProgress sender 75;;
  reply_responce sender (set_error er res);;
  NotifyProgress sender 100.

Definition HandleDisconnectEvent sender ev : D unit :=
  NotifyProgress sender 0;;
  let res := new_Responce ev in
  NotifyProgress sender 50;;
  er ⟵ on_impl impl_SyncDisconnect;
  reply_responce sender (set_error er res);;
  NotifyProgress sender 100.

(** ** Execution of lines *)

Definition interrupted_exec : Error := make_error_value (lit "Interrupted exec.") E_INTERRUPTED.

(** The inner loop: the error it jumps out with, the progress, and the root. *)
Fixpoint commands_loop sender (silence : bool) (step : double) (commands : list bytes) (cur_progress : double) (lk : Locker)
    : D (option Error * double * Locker) :=
  match commands with
  | [] => ret (None, cur_progress, lk)
  | command :: commands =>
    stop ⟵ IsInterrupted;
    if stop : bool then ret (Some interrupted_exec, cur_progress, lk)
    else
      let cur_progress := double_add cur_progress step in
      value ⟵ lift (int_of_double cur_progress);
      NotifyProgress sender value;;
      '(err, lk) ⟵ (if silence then '(err, _) ⟵ Execute (CreateCommandFast command C_USER); ret (err, lk)
                    else run_under_root lk command C_USER);
      if isError err then ret (Some err, cur_progress, lk)
      else commands_loop sender silence step commands cur_progress lk
  end.

(** The outer loop, [n] times. *)
Fixpoint repeat_loop sender (silence : bool) (step : double) (commands : list bytes) (msec_repeat_interval : Z) (n : nat)
    (cur_progress : double) (lk : Locker) : D (option Error * Locker) :=
  match n with
  | O => ret (None, lk)
  | S n =>
    start_ts ⟵ current_mstime;
    '(stop, cur_progress, lk) ⟵ commands_loop sender silence step commands cur_progress lk;
    match stop with
    | Some _ => ret (stop, lk)
    | None =>
      finished_ts ⟵ current_mstime;
      let diff := finished_ts - start_ts in
      (if msec_repeat_interval >? diff then to_env (env_msleep (msec_repeat_interval - diff)) else ret tt);;
      repeat_loop sender silence step commands msec_repeat_interval n cur_progress lk
    end
  end.

Definition exec_step (commands : list bytes) (rounds : Z) : double :=
  double_div (double_of 99) (double_of (u64 (Z.of_nat (length commands) * rounds))).

Definition HandleExecuteEvent sender ev : D unit :=
  NotifyProgress sender 0;;
  let res := new_Responce ev in
  match ei_info ev with
  | ExecuteInfoRequest inputLine repeat msec_repeat_interval history silence =>
    let finish res := reply_responce sender res;; NotifyProgress sender 100 in
    if bool_decide (inputLine = []) then finish (setErrorInfo (error_text "Empty command line.") res)
    else
      let commands := Tokenize inputLine (lit nl) in
      match commands with
      | [] => finish (setErrorInfo (error_text "Invaid command line.") res)
      | _ =>
        lk ⟵ RootLocker sender inputLine silence (if history then None else Some (length commands));
        let rounds := u64 (repeat + 1) in
        '(stop, lk) ⟵ repeat_loop sender silence (exec_step commands rounds) commands msec_repeat_interval
                        (Z.to_nat rounds) (double_of 0) lk;
        finish (match stop with Some err => setErrorInfo err res | None => res end);;
        RootLocker_delete lk
      end
  | _ => ret tt
  end.

(** ** Requests without an implementation *)

Definition HandleLoadServerPropertyEvent := replyNotImplementedYet "server property".
Definition HandleServerPropertyChangeEvent := replyNotImplementedYet "change server property".
Definition HandleShutdownEvent := replyNotImplementedYet "shutdown".
Definition HandleBackupEvent := replyNotImplementedYet "backup server".
Definition HandleExportEvent := replyNotImplementedYet "export server".
Definition HandleChangePasswordEvent := replyNotImplementedYet "change password".
Definition HandleChangeMaxConnectionEvent := replyNotImplementedYet "change maximum connection".
Definition HandleClearDatabaseEvent := replyNotImplementedYet "clear database".
Definition HandleSetDefaultDatabaseEvent := replyNotImplementedYet "set default database".

(** ** Databases *)

(** [CHECK] of the shared pointer. *)
Definition the_database : D IDataBaseInfoSPtr :=
  curdb ⟵ CurrentDatabaseInfo_;
  match curdb with None => lift (Fault CheckFailed) | Some p => ret p end.

Definition HandleLoadDatabaseInfosEvent sender ev : D unit :=
  NotifyProgress sender 0;;
  let res := new_Responce ev in
  NotifyProgress sender 50;;
  curdb ⟵ the_database;
  reply_responce sender (set_info (LoadDatabasesInfoResponce [curdb]) res);;
  NotifyProgress sender 100.
End Handlers.

(** * The virtual members of a driver

    Those that every driver has, and the handlers that it may have of its own. *)
Class DriverVirtuals `{SettingsLib} (C SI U F : Type) := {
  SI_ToString : SI → bytes;
  CurrentServerInfo : D C SI U F (Error * option SI);
  CurrentDataBaseInfo : D C SI U F (Error * option IDataBaseInfo);
  MakeServerInfoFromString : bytes → outcome (option SI);
  v_HandleProcessCommandLineArgsEvent : QObject → EventInfo → D C SI U F unit;
  v_HandleLoadDatabaseContentEvent : QObject → EventInfo → D C SI U F unit;
  v_HandleLoadServerPropertyEvent : QObject → EventInfo → D C SI U F unit;
  v_HandleServerPropertyChangeEvent : QObject → EventInfo → D C SI U F unit;
  v_HandleShutdownEvent : QObject → EventInfo → D C SI U F unit;
  v_HandleBackupEvent : QObject → EventInfo → D C SI U F unit;
  v_HandleExportEvent : QObject → EventInfo → D C SI U F unit;
  v_HandleChangePasswordEvent : QObject → EventInfo → D C SI U F unit;
  v_HandleChangeMaxConnectionEvent : QObject → EventInfo → D C SI U F unit;
  v_HandleLoadDatabaseInfosEvent : QObject → EventInfo → D C SI U F unit;
  v_HandleClearDatabaseEvent : QObject → EventInfo → D C SI U F unit;
  v_HandleSetDefaultDatabaseEvent : QObject → EventInfo → D C SI U F unit
}.

Section Dispatch.
Context `{SettingsLib} {C SI U F R : Type} `{!DriverConn C} `{!DriverEnv U F R} `{!DriverVirtuals C SI U F}
  `{CommonLib} `{!CommonRedis} `{!ConfigLib} `{!Project} `{!TimeLib}.
Local Abbreviation driver := (IDriver C SI U F).
Local Abbreviation D := (D C SI U F).
Implicit Types (d : driver) (sender : QObject) (ev : EventInfo).

Definition HandleLoadServerInfoEvent sender ev : D unit :=
  NotifyProgress sender 0;;
  let res := new_Responce ev in
  NotifyProgress sender 50;;
  '(err, info) ⟵ CurrentServerInfo;
  NotifyProgress sender 75;;
  reply_responce sender (if isError err then setErrorInfo err res else set_info (ServerInfoResponce info) res);;
  NotifyProgress sender 100.

(** ** The history of the log *)

(** Nothing is added before the first stamp; 0 is no time. *)
Definition add_snapshot (stamp : Z) (dataInfo : bytes) (infos : list (ServerInfoSnapShoot SI))
    : outcome (list (ServerInfoSnapShoot SI)) :=
  if stamp =? 0 then Val infos
  else info ← MakeServerInfoFromString dataInfo; Val (infos ++ [mkSnapShoot stamp info]).

(** [while (!readFile.isEof())] *)
Fixpoint history_loop (fuel : nat) (file : R) (curStamp : Z) (dataInfo : bytes) (infos : list (ServerInfoSnapShoot SI))
    : outcome (list (ServerInfoSnapShoot SI)) :=
  match fuel with
  | O => Fault OutOfFuel
  | S fuel =>
    if File_isEof file then Val infos
    else
      let '(res, data, file) := File_readLine file in
      if negb res || File_isEof file then
        add_snapshot curStamp dataInfo infos
      else
        match getStamp data with
        | Some tmpStamp =>
          infos ← add_snapshot curStamp dataInfo infos;
          history_loop fuel file tmpStamp [] infos
        | None => history_loop fuel file curStamp (dataInfo ++ data) infos
        end
  end.

Definition logging_path : D bytes := gets (λ d, LoggingPath (settings_ d)).

Definition HandleLoadServerInfoHistoryEvent sender ev : D unit :=
  let res := new_Responce ev in
  path ⟵ logging_path;
  u ⟵ gets env_;
  res ⟵ match File_open_read path u with
        | Some file =>
          infos ⟵ lift (history_loop (S (File_lines file)) file 0 [] []);
          ret (set_info (ServerInfoHistoryResponce infos) res)
        | None => ret (setErrorInfo (error_text "History file not found") res)
        end;
  reply_responce sender res.

(** An open log is emptied, otherwise the file is removed. *)
Definition HandleClearServerHistoryEvent sender ev : D unit :=
  let res := new_Responce ev in
  log ⟵ gets log_file_;
  u ⟵ gets env_;
  let opened := match log with Some f => File_isOpened f u | None => false end in
  done ⟵ match log, opened with
         | Some f, true => on_env (File_truncate f)
         | _, _ =>
           path ⟵ logging_path;
           if fs_is_file_exist path u then err ⟵ on_env (fs_remove_file path); ret (negb (isError err)) else ret true
         end;
  reply_responce sender (if done : bool then res else setErrorInfo (error_text "Clear file error!") res).

(** ** Discovery *)

Definition ServerDiscoveryInfo : D (Error * option SI * option IDataBaseInfo) :=
  '(er, lsinfo) ⟵ CurrentServerInfo;
  if isError er then ret (er, None, None)
  else
    '(er, ldbinfo) ⟵ CurrentDataBaseInfo;
    if isError er then ret (er, None, None) else ret (er, lsinfo, ldbinfo).

(** A shared pointer of a null pointer is null. *)
Definition reset_database (db : option IDataBaseInfo) : D unit :=
  match db with Some db => p ⟵ new_info db; set_current_database (Some p) | None => set_current_database None end.

Definition HandleDiscoveryInfoEvent sender ev : D unit :=
  NotifyProgress sender 0;;
  let res := new_Responce ev in
  NotifyProgress sender 50;;
  connected ⟵ IsConnected;
  res ⟵ (if connected : bool then
           '(err, info, db) ⟵ ServerDiscoveryInfo;
           if isError err then ret (setErrorInfo err res)
           else
             modify (λ d, with_infos info (current_database_info_ d) (infos_ d) d);;
             reset_database db;;
             sinfo ⟵ gets server_info_; dbinfo ⟵ gets current_database_info_;
             ret (set_info (DiscoveryInfoResponce sinfo dbinfo) res)
         else
           ret (setErrorInfo (error_text "Not connected to server, impossible to get discovery info!") res));
  NotifyProgress sender 75;;
  reply_responce sender res;;
  NotifyProgress sender 100.

(** ** Events *)

(** [customEvent]: an event of another kind is not handled. *)
Definition handle_request (sender : QObject) (v : EventInfo) : D unit :=
  match ei_info v with
  | ConnectInfoRequest => HandleConnectEvent sender v
  | ShutDownInfoRequest => v_HandleShutdownEvent sender v
  | ProcessConfigArgsInfoRequest => v_HandleProcessCommandLineArgsEvent sender v
  | DisConnectInfoRequest => HandleDisconnectEvent sender v
  | ExecuteInfoRequest _ _ _ _ _ => HandleExecuteEvent sender v
  | LoadDatabasesInfoRequest => v_HandleLoadDatabaseInfosEvent sender v
  | ServerInfoRequest => HandleLoadServerInfoEvent sender v
  | ServerInfoHistoryRequest => HandleLoadServerInfoHistoryEvent sender v
  | ClearServerHistoryRequest => HandleClearServerHistoryEvent sender v
  | ServerPropertyInfoRequest => v_HandleLoadServerPropertyEvent sender v
  | ChangeServerPropertyInfoRequest _ => v_HandleServerPropertyChangeEvent sender v
  | BackupInfoRequest _ => v_HandleBackupEvent sender v
  | ExportInfoRequest _ => v_HandleExportEvent sender v
  | ChangePasswordRequest _ _ => v_HandleChangePasswordEvent sender v
  | ChangeMaxConnectionRequest _ => v_HandleChangeMaxConnectionEvent sender v
  | LoadDatabaseContentRequest _ _ _ _ => v_HandleLoadDatabaseContentEvent sender v
  | ClearDatabaseRequest _ => v_HandleClearDatabaseEvent sender v
  | SetDefaultDatabaseRequest _ => v_HandleSetDefaultDatabaseEvent sender v
  | DiscoveryInfoRequest => HandleDiscoveryInfoEvent sender v
  end.

Definition customEvent (event : qevent SI) : D unit :=
  SetInterrupted false;;
  match event with
  | RequestEvent sender v => handle_request sender v
  | _ => ret tt
  end.

(** ** The thread *)

(** [startTimer] gives a timer that is not 0. *)
Definition Init (startTimer : Z → Z) : D unit :=
  s ⟵ gets settings_;
  if IsLoggingEnabled (cs_base s)
  then modify (λ d, with_log (startTimer (msinterval_ (cs_base s))) (log_file_ d) d) else ret tt.

Definition Clear : D unit :=
  modify (λ d, with_log 0 (log_file_ d) d);;
  _ ⟵ on_impl impl_SyncDisconnect; ret tt.

(** The log file, created when there is none, and opened when it is not. *)
Definition create_log : D (option F) :=
  log ⟵ gets log_file_;
  match log with
  | Some f => ret (Some f)
  | None =>
    path ⟵ logging_path;
    let dir := fs_dir_path path in
    _ ⟵ on_env (fs_create_directory dir);
    u ⟵ gets env_;
    ret (if fs_is_directory dir u then Some (File_new path) else None)
  end.
Definition open_log : D (option F) :=
  log ⟵ create_log;
  u ⟵ gets env_;
  log ⟵ match log with
        | Some f => if File_isOpened f u then ret (Some f) else f ⟵ on_env (File_open_append f); ret (Some f)
        | None => ret None
        end;
  modify (λ d, with_log (timer_info_id_ d) log d);;
  u ⟵ gets env_;
  ret (match log with Some f => if File_isOpened f u then Some f else None | None => None end).

Definition timerEvent (timerId : Z) : D unit :=
  id ⟵ gets timer_info_id_; s ⟵ gets settings_; connected ⟵ IsConnected;
  if (id =? timerId) && IsLoggingEnabled (cs_base s) && connected then
    log ⟵ open_log;
    match log with
    | None => ret tt
    | Some f =>
      time ⟵ current_mstime;
      let stamp := createStamp time in
      '(er, info) ⟵ CurrentServerInfo;
      if isError er then ret tt
      else
        emit (SnapShootTaken (mkSnapShoot time info));;
        to_env (File_write f stamp);;
        match info with
        | None => lift (Fault NullPointer)
        | Some i => to_env (File_write f (SI_ToString i));; to_env (File_flush f)
        end
    end
  else ret tt.
End Dispatch.
