(* ===== verification/StoreDrivers.v ===== *)
(** The drivers of the embedded stores, of Memcached and of SSDB: [core/leveldb/driver.cpp] and the files of the
    same name.  They differ in little: what they share is defined once, over the interfaces of the
    connections. *)
From Stdlib Require Import Ascii String ZArith Lia.
From stdpp Require Import base list.
From S2P Require Import Prelude Common Texts Values Connection SdsArgs Commands Handlers Configs RedisReply RedisModes Translators ConnectionTypes ServerInfo StoreInfos ConnSettings KvApi MemcachedApi SsdbApi KvTables RemoteTables NativeKv LsmConn LmdbConn UnqliteConn UpscaledbConn SsdbClient SsdbConn MemcachedConn Events DriverBase Driver.
Local Open Scope Z_scope.
Local Open Scope driver_scope.
#[local] Set Warnings "-register-all".

(** The elements of an [ArrayValue] as strings, [getString]: whether there is one, and which. *)
Class ValueLib := {
  getAsString : value → option bytes;
  getAsInteger : value → option Z;
  createEmptyValueFromType : value_type → option value
}.
Class ValueLaws `{ValueLib} : Prop := {
  getAsString_string s : getAsString (VString s) = Some s;
  getAsInteger_integer n : getAsInteger (VInteger n) = Some n;
  empty_string : createEmptyValueFromType TYPE_STRING = Some (VString [])
}.

Definition ArrayValue_getString `{ValueLib} (l : list value) (i : nat) : option bytes := v ← l !! i; getAsString v.

(** [dynamic_cast<FastoObjectArray* >]: the objects of the commands that are looked at hold arrays only when
    they are of that class. *)
Definition as_array (o : FastoObject) : option (list value) :=
  match value_ o with VArray l => Some l | _ => None end.

(** * What the drivers share *)

Section Store.
Context `{settings_lib : SettingsLib} {Cfg H W SI U F R : Type} `{!ConnectionTraits Cfg H W} `{!CDBImpl Cfg H W} `{!KvOps Cfg H W}
  `{!DriverEnv U F R} `{CommonLib} `{!CommonRedis} `{!Project} `{!TimeLib} `{!ValueLib}.
Local Abbreviation conn := (CDBConnection Cfg H W).
Implicit Types (c : conn) (sender : QObject) (ev : EventInfo).

Definition client_take c : list client_event * conn :=
  (default [] (client_ c), mkCDB (connection_ c) (interrupted_ c) ((λ _, []) <$> client_ c)).

(** The members over the connection; [config] is [Info] of the settings, which are of the driver's type, or
    else a [CHECK] fails. *)
Definition store_conn (config : Settings → option Cfg) {Fn} (run : Fn → handler (hst Cfg H W))
    (commands : list (CommandHolder Fn)) : DriverConn conn := {|
  impl_IsConnected := Connection.IsConnected;
  impl_IsAuthenticated := Connection.IsConnected;
  impl_IsInterrupted := Connection.IsInterrupted;
  impl_SetInterrupted := Connection.SetInterrupted;
  impl_Delimiter := Connection.Delimiter;
  impl_NsSeparator := Connection.NsSeparator;
  impl_events := client_take;
  impl_SyncConnect s c := match config s with None => Fault CheckFailed | Some cfg => Val (Connection.Connect cfg c) end;
  impl_SyncDisconnect c := Val (Connection.Disconnect c);
  impl_Execute argc argv o c := '(err, s) ← Commands.Execute run commands argc argv (mkHst c o); Val (err, out s, Handlers.conn s)
|}.

Context `{!DriverConn conn}.
Local Abbreviation D := (D conn SI U F).

Definition store_CurrentServerInfo (request : string) (mk : kv_stats → SI) : D (Error * option SI) :=
  (match CreateCommandFast (lit request) C_INNER with
   | Some cmd => LOG_COMMAND cmd | None => lift (Fault NullPointer) end);;
  '(err, cm) ⟵ on_impl (λ c, '(err, cm, c) ← kv_Info None c; Val (err, cm, c));
  if isError err then ret (err, None) else ret (no_error, Some (mk cm)).

Definition store_CurrentDataBaseInfo (name : conn → bytes) : D (Error * option IDataBaseInfo) :=
  on_impl (λ c, '(err, info, c) ← Select (name c) c; Val (err, info, c)).

(** The keys that are strings, with empty values. *)
Definition content_keys (ar : list value) : list NDbKValue :=
  List.map (λ k, mkNDbKValue (new_NKey k) (createEmptyValueFromType TYPE_STRING)) (omap getAsString ar).

(** What is made of the command's output; [check]: more than one child fails a [CHECK]. *)
Definition store_content_reply (check : bool) (cmd : option FastoObject) (res : Responce SI) : D (Responce SI) :=
  match childrens_ (default (CreateRoot []) cmd) with
  | [] => ret res
  | child :: rest =>
    (if check && negb (bool_decide (rest = [])) then lift (Fault CheckFailed) else ret tt);;
    match as_array child with
    | None => ret res
    | Some ar =>
      r ⟵ on_impl (λ c, let '(err, n, c) := kv_DBkcount c in Val (err, n, c));
      ret (set_info (LoadDatabaseContentResponce (content_keys ar) 0 r.2) res)
    end
  end.

Definition store_HandleLoadDatabaseContentEvent (check : bool) sender ev : D unit :=
  match ei_info ev with
  | LoadDatabaseContentRequest inf pattern count_keys cursor_in =>
    NotifyProgress sender 0;;
    let res := new_Responce ev in
    let patternResult := MemSPrintf (lit "KEYS a z %d") [FInt count_keys] in
    let cmd := CreateCommandFast patternResult C_INNER in
    NotifyProgress sender 50;;
    '(er, cmd) ⟵ Execute cmd;
    res ⟵ (if isError er then ret (setErrorInfo er res) else store_content_reply check cmd res);
    NotifyProgress sender 75;;
    reply_responce sender res;;
    NotifyProgress sender 100
  | _ => ret tt
  end.

Definition store_HandleClearDatabaseEvent (Flushdb : conn → Error * conn) sender ev : D unit :=
  NotifyProgress sender 0;;
  let res := new_Responce ev in
  NotifyProgress sender 50;;
  er ⟵ on_impl (λ c, Val (Flushdb c));
  NotifyProgress sender 75;;
  reply_responce sender (set_error er res);;
  NotifyProgress sender 100.

Definition store_HandleProcessCommandLineArgsEvent sender ev : D unit := ret tt.

(** The members that a driver has of its own, and those of [IDriver]. *)
Definition store_virtuals (to_string : SI → bytes) (info : D (Error * option SI)) (database : D (Error * option IDataBaseInfo))
    (make : bytes → outcome (option SI)) (content clear : QObject → EventInfo → D unit) : DriverVirtuals conn SI U F := {|
  SI_ToString := to_string;
  CurrentServerInfo := info;
  CurrentDataBaseInfo := database;
  MakeServerInfoFromString := make;
  v_HandleProcessCommandLineArgsEvent := store_HandleProcessCommandLineArgsEvent;
  v_HandleLoadDatabaseContentEvent := content;
  v_HandleLoadServerPropertyEvent := HandleLoadServerPropertyEvent;
  v_HandleServerPropertyChangeEvent := HandleServerPropertyChangeEvent;
  v_HandleShutdownEvent := HandleShutdownEvent;
  v_HandleBackupEvent := HandleBackupEvent;
  v_HandleExportEvent := HandleExportEvent;
  v_HandleChangePasswordEvent := HandleChangePasswordEvent;
  v_HandleChangeMaxConnectionEvent := HandleChangeMaxConnectionEvent;
  v_HandleLoadDatabaseInfosEvent := HandleLoadDatabaseInfosEvent;
  v_HandleClearDatabaseEvent := clear;
  v_HandleSetDefaultDatabaseEvent := HandleSetDefaultDatabaseEvent
|}.
End Store.

(** * LevelDB *)

Module LeveldbDriver.
Section Driver.
Context `{settings_lib : SettingsLib} {H W U F R : Type} `{!LsmLib H W} `{!NativeFiles W} `{!DriverEnv U F R} `{CommonLib} `{!CommonRedis} `{!ConfigLib}
  `{!Project} `{!TimeLib} `{!ValueLib} `{!InfoLib}
  (raw : LeveldbInfo.Stats).
Local Abbreviation conn := (CDBConnection LocalConfig H W).
#[local] Existing Instances LeveldbConn.traits LeveldbConn.impl LeveldbConn.kv LeveldbConn.flush.

#[local] Instance driver_conn : DriverConn conn :=
  store_conn (λ s, match cs_derived s with DLeveldb i => Some (LeveldbSettings.Info i) | _ => None end) LeveldbApi.run
    Leveldb.leveldbCommands.
Local Abbreviation SI := LeveldbInfo.ServerInfo.
Local Abbreviation D := (D conn SI U F).

Definition CurrentServerInfo : D (Error * option SI) := store_CurrentServerInfo "INFO" LeveldbInfo.mkServerInfo.
Definition CurrentDataBaseInfo : D (Error * option IDataBaseInfo) := store_CurrentDataBaseInfo (λ _, lit "0").
Definition HandleLoadDatabaseContentEvent : QObject → EventInfo → D unit := store_HandleLoadDatabaseContentEvent true.
Definition HandleClearDatabaseEvent : QObject → EventInfo → D unit := store_HandleClearDatabaseEvent LeveldbConn.Flushdb.
Definition MakeServerInfoFromString (val : bytes) : outcome (option SI) := Val (LeveldbInfo.MakeLeveldbServerInfo raw val).
#[local] Instance virtuals : DriverVirtuals conn SI U F :=
  store_virtuals LeveldbInfo.ToString CurrentServerInfo CurrentDataBaseInfo MakeServerInfoFromString
    HandleLoadDatabaseContentEvent HandleClearDatabaseEvent.
End Driver.
End LeveldbDriver.

(** * LMDB *)

Module LmdbDriver.
Section Driver.
Context `{settings_lib : SettingsLib} {E T W U F R : Type} `{!LmdbLib E T W} `{!NativeFiles W} `{!DriverEnv U F R} `{CommonLib} `{!CommonRedis} `{!ConfigLib}
  `{!Project} `{!TimeLib} `{!ValueLib} `{!InfoLib}
  (raw : LmdbInfo.Stats).
Local Abbreviation conn := (CDBConnection LocalConfig (lmdb E) W).
#[local] Existing Instances LmdbConn.traits LmdbConn.impl LmdbConn.kv LmdbConn.flush.

#[local] Instance driver_conn : DriverConn conn :=
  store_conn (λ s, match cs_derived s with DLmdb i => Some (LmdbSettings.Info i) | _ => None end) LmdbApi.run
    Lmdb.lmdbCommands.
Local Abbreviation SI := LmdbInfo.ServerInfo.
Local Abbreviation D := (D conn SI U F).

Definition CurrentServerInfo : D (Error * option SI) := store_CurrentServerInfo "INFO" LmdbInfo.mkServerInfo.
Definition CurrentDataBaseInfo : D (Error * option IDataBaseInfo) := store_CurrentDataBaseInfo (λ c, ToString_uint (LmdbConn.CurDb c)).
Definition HandleLoadDatabaseContentEvent : QObject → EventInfo → D unit := store_HandleLoadDatabaseContentEvent true.
Definition HandleClearDatabaseEvent : QObject → EventInfo → D unit := store_HandleClearDatabaseEvent LmdbConn.Flushdb.
Definition MakeServerInfoFromString (val : bytes) : outcome (option SI) := Val (LmdbInfo.MakeLmdbServerInfo raw val).
#[local] Instance virtuals : DriverVirtuals conn SI U F :=
  store_virtuals LmdbInfo.ToString CurrentServerInfo CurrentDataBaseInfo MakeServerInfoFromString
    HandleLoadDatabaseContentEvent HandleClearDatabaseEvent.
End Driver.
End LmdbDriver.

(** * RocksDB *)

Module RocksdbDriver.
Section Driver.
Context `{settings_lib : SettingsLib} {H W U F R : Type} `{!LsmLib H W} `{!NativeFiles W} `{!DriverEnv U F R} `{CommonLib} `{!CommonRedis} `{!ConfigLib}
  `{!Project} `{!TimeLib} `{!ValueLib} `{!InfoLib}
  (raw : RocksdbInfo.Stats) (DefaultColumnFamily : H → W → option bytes).
Local Abbreviation conn := (CDBConnection LocalConfig H W).
#[local] Existing Instances RocksdbConn.traits RocksdbConn.impl RocksdbConn.kv RocksdbConn.flush RocksdbConn.rocks.

#[local] Instance driver_conn : DriverConn conn :=
  store_conn (λ s, match cs_derived s with DRocksdb i => Some (RocksdbSettings.Info i) | _ => None end) RocksdbApi.run
    Rocksdb.rocksdbCommands.
Local Abbreviation SI := RocksdbInfo.ServerInfo.
Local Abbreviation D := (D conn SI U F).

Definition CurrentServerInfo : D (Error * option SI) := store_CurrentServerInfo "INFO" RocksdbInfo.mkServerInfo.

(** [DefaultColumnFamily] is the name of the column family, when there is one. *)
Definition CurrentDbName (c : conn) : bytes :=
  match handle_ (connection_ c) with
  | Some h => default (lit "default") (DefaultColumnFamily h (native_world c))
  | None => lit "default"
  end.

Definition CurrentDataBaseInfo : D (Error * option IDataBaseInfo) :=
  connected ⟵ IsConnected;
  if negb connected then ret (not_connected, None)
  else
    name ⟵ gets (λ d, CurrentDbName (impl_ d));
    '(err, dbkcount) ⟵ on_impl (λ c, let '(err, n, c) := kv_DBkcount c in Val (err, n, c));
    ret (no_error, Some (mkIDataBaseInfo name true dbkcount [])).

Definition HandleLoadDatabaseContentEvent : QObject → EventInfo → D unit := store_HandleLoadDatabaseContentEvent true.
Definition HandleClearDatabaseEvent : QObject → EventInfo → D unit := store_HandleClearDatabaseEvent RocksdbConn.Flushdb.
Definition MakeServerInfoFromString (val : bytes) : outcome (option SI) := Val (RocksdbInfo.MakeRocksdbServerInfo raw val).
#[local] Instance virtuals : DriverVirtuals conn SI U F :=
  store_virtuals RocksdbInfo.ToString CurrentServerInfo CurrentDataBaseInfo MakeServerInfoFromString
    HandleLoadDatabaseContentEvent HandleClearDatabaseEvent.
End Driver.
End RocksdbDriver.

(** * UnQLite *)

Module UnqliteDriver.
Section Driver.
Context `{settings_lib : SettingsLib} {H C W U F R : Type} `{!UnqliteLib H C W} `{!NativeFiles W} `{!DriverEnv U F R} `{CommonLib} `{!CommonRedis} `{!ConfigLib}
  `{!Project} `{!TimeLib} `{!ValueLib} `{!InfoLib}
  (raw : UnqliteInfo.Stats).
Local Abbreviation conn := (CDBConnection LocalConfig H W).
#[local] Existing Instances UnqliteConn.traits UnqliteConn.impl UnqliteConn.kv UnqliteConn.flush.

#[local] Instance driver_conn : DriverConn conn :=
  store_conn (λ s, match cs_derived s with DUnqlite i => Some (UnqliteSettings.Info i) | _ => None end) UnqliteApi.run
    Unqlite.unqliteCommands.
Local Abbreviation SI := UnqliteInfo.ServerInfo.
Local Abbreviation D := (D conn SI U F).

Definition CurrentServerInfo : D (Error * option SI) := store_CurrentServerInfo "INFO" UnqliteInfo.mkServerInfo.
Definition CurrentDataBaseInfo : D (Error * option IDataBaseInfo) := store_CurrentDataBaseInfo (λ _, lit "0").
Definition HandleLoadDatabaseContentEvent : QObject → EventInfo → D unit := store_HandleLoadDatabaseContentEvent false.
Definition HandleClearDatabaseEvent : QObject → EventInfo → D unit := store_HandleClearDatabaseEvent UnqliteConn.Flushdb.
Definition MakeServerInfoFromString (val : bytes) : outcome (option SI) := Val (UnqliteInfo.MakeUnqliteServerInfo raw val).
#[local] Instance virtuals : DriverVirtuals conn SI U F :=
  store_virtuals UnqliteInfo.ToString CurrentServerInfo CurrentDataBaseInfo MakeServerInfoFromString
    HandleLoadDatabaseContentEvent HandleClearDatabaseEvent.
End Driver.
End UnqliteDriver.

(** * UpscaleDB *)

Module UpscaledbDriver.
Section Driver.
Context `{settings_lib : SettingsLib} {E DB C W U F R : Type} `{!UpscaledbLib E DB C W} `{!NativeFiles W} `{!DriverEnv U F R} `{CommonLib} `{!CommonRedis} `{!ConfigLib}
  `{!Project} `{!TimeLib} `{!ValueLib} `{!InfoLib}
  (raw : UpscaledbInfo.Stats).
Local Abbreviation conn := (CDBConnection LocalConfig (upscaledb E DB) W).
#[local] Existing Instances UpscaledbConn.traits UpscaledbConn.impl UpscaledbConn.kv UpscaledbConn.flush.

#[local] Instance driver_conn : DriverConn conn :=
  store_conn (λ s, match cs_derived s with DUpscaledb i => Some (UpscaledbSettings.Info i) | _ => None end) UpscaledbApi.run
    Upscaledb.upscaledbCommands.
Local Abbreviation SI := UpscaledbInfo.ServerInfo.
Local Abbreviation D := (D conn SI U F).

Definition CurrentServerInfo : D (Error * option SI) := store_CurrentServerInfo "INFO" UpscaledbInfo.mkServerInfo.
Definition CurrentDataBaseInfo : D (Error * option IDataBaseInfo) := store_CurrentDataBaseInfo (λ c, ToString_uint (UpscaledbConn.CurDb c)).
Definition HandleLoadDatabaseContentEvent : QObject → EventInfo → D unit := store_HandleLoadDatabaseContentEvent true.
Definition HandleClearDatabaseEvent : QObject → EventInfo → D unit := store_HandleClearDatabaseEvent UpscaledbConn.Flushdb.
Definition MakeServerInfoFromString (val : bytes) : outcome (option SI) := Val (UpscaledbInfo.MakeUpscaleDBServerInfo raw val).
#[local] Instance virtuals : DriverVirtuals conn SI U F :=
  store_virtuals UpscaledbInfo.ToString CurrentServerInfo CurrentDataBaseInfo MakeServerInfoFromString
    HandleLoadDatabaseContentEvent HandleClearDatabaseEvent.
End Driver.
End UpscaledbDriver.

(** * SSDB *)

Module SsdbDriver.
Section Driver.
Context `{settings_lib : SettingsLib} {L W U F R : Type} `{!SsdbLink L W} `{!DriverEnv U F R} `{CommonLib} `{!CommonRedis} `{!ConfigLib}
  `{!Project} `{!TimeLib} `{!ValueLib} `{!InfoLib}
  (raw : SsdbInfo.Stats).
Local Abbreviation conn := (CDBConnection RemoteConfig L W).
#[local] Existing Instances SsdbConn.traits SsdbConn.impl SsdbConn.kv SsdbConn.ops.
#[local] Instance kv_ops : KvOps RemoteConfig L W := SsdbConn.kv raw.

#[local] Instance driver_conn : DriverConn conn :=
  store_conn (λ s, match cs_derived s with DSsdb i => Some (SsdbSettings.Info i) | _ => None end) SsdbApi.run
    Ssdb.ssdbCommands.
Local Abbreviation SI := SsdbInfo.ServerInfo.
Local Abbreviation D := (D conn SI U F).

Definition CurrentServerInfo : D (Error * option SI) := store_CurrentServerInfo "INFO" SsdbInfo.mkServerInfo.
Definition CurrentDataBaseInfo : D (Error * option IDataBaseInfo) := store_CurrentDataBaseInfo (λ _, lit "0").
Definition HandleLoadDatabaseContentEvent : QObject → EventInfo → D unit := store_HandleLoadDatabaseContentEvent true.
Definition HandleClearDatabaseEvent : QObject → EventInfo → D unit := store_HandleClearDatabaseEvent SsdbConn.Flushdb.
Definition MakeServerInfoFromString (val : bytes) : outcome (option SI) := Val (SsdbInfo.MakeSsdbServerInfo raw val).
#[local] Instance virtuals : DriverVirtuals conn SI U F :=
  store_virtuals SsdbInfo.ToString CurrentServerInfo CurrentDataBaseInfo MakeServerInfoFromString
    HandleLoadDatabaseContentEvent HandleClearDatabaseEvent.
End Driver.
End SsdbDriver.

(** * Memcached *)

Module MemcachedDriver.
Section Driver.
Context `{settings_lib : SettingsLib} {H W U F R : Type} `{!MemcachedLib H W} `{!DriverEnv U F R} `{CommonLib} `{!CommonRedis} `{!ConfigLib}
  `{!Project} `{!TimeLib} `{!ValueLib} `{!InfoLib}
  (raw : MemcachedInfo.Stats).
Local Abbreviation conn := (CDBConnection RemoteConfig H W).
#[local] Existing Instances MemcachedConn.traits MemcachedConn.impl MemcachedConn.kv MemcachedConn.ops.
#[local] Instance kv_ops : KvOps RemoteConfig H W := MemcachedConn.kv raw.

#[local] Instance driver_conn : DriverConn conn :=
  store_conn (λ s, match cs_derived s with DMemcached i => Some (MemcachedSettings.Info i) | _ => None end) MemcachedApi.run
    Memcached.memcachedCommands.
Local Abbreviation SI := MemcachedInfo.ServerInfo.
Local Abbreviation D := (D conn SI U F).

Definition CurrentServerInfo : D (Error * option SI) := store_CurrentServerInfo "STATS" MemcachedInfo.mkServerInfo.
Definition CurrentDataBaseInfo : D (Error * option IDataBaseInfo) := store_CurrentDataBaseInfo (λ _, lit "0").
Definition HandleLoadDatabaseContentEvent : QObject → EventInfo → D unit := store_HandleLoadDatabaseContentEvent true.
Definition MakeServerInfoFromString (val : bytes) : outcome (option SI) := MemcachedInfo.MakeMemcachedServerInfo raw val.
#[local] Instance virtuals : DriverVirtuals conn SI U F :=
  store_virtuals MemcachedInfo.ToString CurrentServerInfo CurrentDataBaseInfo MakeServerInfoFromString
    HandleLoadDatabaseContentEvent HandleClearDatabaseEvent.
End Driver.
End MemcachedDriver.
