(* ===== verification/RedisDriver.v ===== *)
(** The driver of Redis: [core/redis/driver.cpp], and [core/server_property_info.cpp]. *)
From Stdlib Require Import Ascii String ZArith Lia.
From stdpp Require Import base list.
From S2P Require Import Prelude Common Texts Values Connection Translators SdsArgs Sds Hiredis HiredisFormat HiredisReader HiredisContext Commands Handlers Configs SshInfo RedisReply RedisApi RedisTable RedisConn RedisModes ConnectionTypes ServerInfo RedisInfo ConnSettings Events DriverBase Driver StoreDrivers.
Local Open Scope Z_scope.
Local Open Scope driver_scope.
#[local] Set Warnings "-register-all".

(** [convertFromStringRType] *)
Definition convertFromStringRType (type : bytes) : value_type :=
  if bool_decide (type = []) then TYPE_NULL
  else if bool_decide (type = lit "string") then TYPE_STRING
  else if bool_decide (type = lit "list") then TYPE_ARRAY
  else if bool_decide (type = lit "set") then TYPE_SET
  else if bool_decide (type = lit "hash") then TYPE_HASH
  else if bool_decide (type = lit "zset") then TYPE_ZSET
  else TYPE_NULL.

(** Two elements at a time; what is left over at the end has no value. *)
Fixpoint MakeServerProperty `{ValueLib} (arr : list value) : list property_t :=
  match arr with
  | k :: v :: arr =>
    match getAsString k, getAsString v with
    | Some key, Some val => (key, val) :: MakeServerProperty arr
    | _, _ => MakeServerProperty arr
    end
  | _ => []
  end.

Module RedisDriver.
Section Members.
Context `{settings_lib : SettingsLib} {N U F R : Type} `{!Network N} `{!RedisEnv N} `{!ModesEnv N} `{Alloc} `{Patience}
  `{CommonLib} `{!CommonRedis} `{!ConfigLib} `{!CNumbers} `{!Project} `{!Stack} `{!DriverEnv U F R} `{!TimeLib} `{!ValueLib}
  `{!InfoLib}.
Local Abbreviation conn := (CDBConnection RConfig redisContext (RWorld N)).
Local Abbreviation SI := RedisInfo.ServerInfo.
Local Abbreviation D := (D conn SI U F).
Implicit Types (sender : QObject) (ev : EventInfo).

#[local] Instance driver_conn : DriverConn conn := {|
  impl_IsConnected := Connection.IsConnected;
  impl_IsAuthenticated := RedisConn.IsAuthenticated;
  impl_IsInterrupted := Connection.IsInterrupted;
  impl_SetInterrupted := Connection.SetInterrupted;
  impl_Delimiter := Connection.Delimiter;
  impl_NsSeparator := Connection.NsSeparator;
  impl_events := client_take;
  impl_SyncConnect s c :=
    match cs_derived s with
    | DRedis set ssh => Redis_Connect (mkRConfig (RedisSettings.Info set) ssh) c
    | _ => Fault CheckFailed
    end;
  impl_SyncDisconnect c := Val (Connection.Disconnect c);
  impl_Execute argc argv o c :=
    '(err, s) ← Commands.Execute RedisApi.run Redis.redisCommands argc argv (mkHst c o); Val (err, out s, Handlers.conn s)
|}.

(** A command of the driver itself. *)
Definition inner (text : bytes) : D (Error * option FastoObject) := Execute (CreateCommandFast text C_INNER).

Definition childs (cmd : option FastoObject) : list FastoObject :=
  match cmd with Some o => childrens_ o | None => [] end.

(** [CHECK_EQ] of the number of children with 1. *)
Definition check_one (rest : list FastoObject) : D unit :=
  if bool_decide (rest = []) then ret tt else lift (Fault CheckFailed).

Definition CurrentServerInfo : D (Error * option SI) :=
  '(err, cmd) ⟵ inner (lit "INFO");
  if isError err then ret (err, None)
  else
    let content := match cmd with Some o => ConvertToString_object o | None => [] end in
    info ⟵ lift (RedisInfo.MakeRedisServerInfo content);
    match info with
    | None => ret (make_error_value (lit "Invalid INFO command output") E_ERROR, None)
    | Some _ => ret (no_error, info)
    end.

Definition CurrentDataBaseInfo : D (Error * option IDataBaseInfo) :=
  dbnum ⟵ gets (λ d, RedisConfig.dbnum (the_config (impl_ d)));
  on_impl (λ c, '(err, info, c) ← Select (ToString_int dbnum) c; Val (err, info, c)).

(** ** Modes

    The mode is entered and left; its output goes under a root of its own.  The updates of a value while
    a mode runs ([LATENCY] has them) are not among the signals here. *)
Definition run_mode (mode : ConnectionMode) (request : string) (f : FastoObject → conn → outcome (Error * FastoObject * conn))
    sender : D Error :=
  me ⟵ self;
  NotifyProgress sender 0;;
  now ⟵ current_mstime;
  Reply sender (EnterModeEvent me now mode);;
  started ⟵ current_mstime;
  lk ⟵ RootLocker sender (lit request) false None;
  '(er, tree) ⟵ on_impl (λ c, '(er, tree, c) ← f (lk_tree lk) c; Val (er, tree, c));
  lk ⟵ children_added (below (height tree) [] tree) (with_tree tree lk);
  Reply sender (LeaveModeEvent me started mode (if isError er then er else no_error));;
  NotifyProgress sender 100;;
  RootLocker_delete lk;;
  ret er.

Definition InteracteveMode sender : D Error :=
  me ⟵ self;
  NotifyProgress sender 0;;
  now ⟵ current_mstime;
  Reply sender (EnterModeEvent me now InteractiveMode);;
  now ⟵ current_mstime;
  Reply sender (LeaveModeEvent me now InteractiveMode no_error);;
  NotifyProgress sender 100;;
  ret no_error.

Definition LatencyMode sender : D Error := run_mode ConnectionTypes.LatencyMode "LATENCY" RedisModes.LatencyMode sender.
Definition SlaveMode sender : D Error := run_mode ConnectionTypes.SlaveMode "SYNC" (RedisModes.SlaveMode stack_bytes) sender.
Definition GetRDBMode sender : D Error := run_mode ConnectionTypes.GetRDBMode "RDM" (GetRDB stack_bytes stack_bytes) sender.
Definition FindBigKeysMode sender : D Error := run_mode ConnectionTypes.FindBigKeysMode "FIND_BIG_KEYS" FindBigKeys sender.
Definition StatMode sender : D Error := run_mode ConnectionTypes.StatMode "STAT" RedisModes.StatMode sender.
Definition ScanMode sender : D Error := run_mode ConnectionTypes.ScanMode "SCAN" RedisModes.ScanMode sender.

Definition HandleProcessCommandLineArgsEvent sender ev : D unit :=
  conf ⟵ gets (λ d, the_config (impl_ d));
  let mode flag (m : QObject → D Error) := if negb (flag conf =? 0) then _ ⟵ m sender; ret tt else ret tt in
  mode RedisConfig.latency_mode LatencyMode;;
  mode RedisConfig.slave_mode SlaveMode;;
  mode RedisConfig.getrdb_mode GetRDBMode;;
  mode RedisConfig.bigkeys FindBigKeysMode;;
  mode RedisConfig.stat_mode StatMode;;
  mode RedisConfig.scan_mode ScanMode;;
  _ ⟵ InteracteveMode sender;
  reply_responce sender (new_Responce ev).

(** ** Requests that are one command *)

(** The command runs between the progress [p] and 75; [after] makes the response of what it added. *)
Definition by_command (p : Z) (text : bytes) (after : option FastoObject → Responce SI → D (Responce SI)) sender ev : D unit :=
  NotifyProgress sender 0;;
  let res := new_Responce ev in
  NotifyProgress sender p;;
  '(er, cmd) ⟵ inner text;
  res ⟵ (if isError er then ret (setErrorInfo er res) else after cmd res);
  NotifyProgress sender 75;;
  reply_responce sender res;;
  NotifyProgress sender 100.

Definition as_it_is (cmd : option FastoObject) (res : Responce SI) : D (Responce SI) := ret res.

Definition HandleShutdownEvent := by_command 25 (lit "SHUTDOWN") as_it_is.

Definition dump_path : bytes := lit "/var/lib/redis/dump.rdb".

Definition HandleBackupEvent sender ev : D unit :=
  match ei_info ev with
  | BackupInfoRequest path =>
    by_command 25 (lit "SAVE") (λ _ res, er ⟵ on_env (fs_copy_file dump_path path); ret (set_error er res)) sender ev
  | _ => ret tt
  end.

Definition HandleExportEvent sender ev : D unit :=
  match ei_info ev with
  | ExportInfoRequest path =>
    NotifyProgress sender 0;;
    let res := new_Responce ev in
    NotifyProgress sender 25;;
    er ⟵ on_env (fs_copy_file path dump_path);
    NotifyProgress sender 75;;
    reply_responce sender (set_error er res);;
    NotifyProgress sender 100
  | _ => ret tt
  end.

Definition HandleChangePasswordEvent sender ev : D unit :=
  match ei_info ev with
  | ChangePasswordRequest _ new_password =>
    by_command 25 (MemSPrintf (lit "CONFIG SET requirepass %s") [FStr new_password]) as_it_is sender ev
  | _ => ret tt
  end.

Definition HandleChangeMaxConnectionEvent sender ev : D unit :=
  match ei_info ev with
  | ChangeMaxConnectionRequest max_connection =>
    by_command 25 (MemSPrintf (lit "CONFIG SET maxclients %d") [FInt max_connection]) as_it_is sender ev
  | _ => ret tt
  end.

Definition HandleClearDatabaseEvent := by_command 50 (lit "FLUSHDB") as_it_is.

Definition HandleSetDefaultDatabaseEvent sender ev : D unit :=
  match ei_info ev with
  | SetDefaultDatabaseRequest inf =>
    NotifyProgress sender 0;;
    let res := new_Responce ev in
    inf ⟵ deref_info inf;
    let setDefCommand := MemSPrintf (lit "SELECT %s") [FStr (name_ inf)] in
    NotifyProgress sender 50;;
    '(er, _) ⟵ inner setDefCommand;
    NotifyProgress sender 75;;
    reply_responce sender (set_error er res);;
    NotifyProgress sender 100
  | _ => ret tt
  end.

Definition HandleLoadServerPropertyEvent :=
  by_command 50 (lit "CONFIG GET *") (λ cmd res,
    match childs cmd with
    | [] => ret res
    | child :: rest =>
      check_one rest;;
      ret (match as_array child with
           | Some arr => set_info (ServerPropertyInfoResponce (MakeServerProperty arr)) res
           | None => res
           end)
    end).

Definition HandleServerPropertyChangeEvent sender ev : D unit :=
  match ei_info ev with
  | ChangeServerPropertyInfoRequest new_item =>
    by_command 50 (lit "CONFIG SET " ++ new_item.1 ++ lit " " ++ new_item.2)
      (λ _ res, ret (set_info (ChangeServerPropertyInfoResponce (Some true)) res)) sender ev
  | _ => ret tt
  end.

(** ** Databases *)

(** The databases [i], ..., of which the one with the name of the current database is the current one. *)
Fixpoint make_databases (curdb : IDataBaseInfoSPtr) (cur_name : bytes) (i n : nat) : D (list IDataBaseInfoSPtr) :=
  match n with
  | O => ret []
  | S n =>
    let name := ToString_uint (Z.of_nat i) in
    dbInf ⟵ new_info (mkIDataBaseInfo name false 0 []);
    dbs ⟵ make_databases curdb cur_name (S i) n;
    ret ((if bool_decide (name = cur_name) then curdb else dbInf) :: dbs)
  end.

Definition HandleLoadDatabaseInfosEvent :=
  by_command 50 (lit "CONFIG GET databases") (λ cmd res,
    match childs cmd with
    | [] => ret res
    | child :: rest =>
      check_one rest;;
      match as_array child with
      | None => ret res
      | Some ar =>
        curdb ⟵ the_database;
        cur ⟵ deref_info (Some curdb);
        if (length ar =? 2)%nat then
          match ArrayValue_getString ar 1 with
          | Some scountDb =>
            let countDb := FromString_uint64 scountDb in
            dbs ⟵ make_databases curdb (name_ cur) 0 (Z.to_nat countDb);
            ret (set_info (LoadDatabasesInfoResponce dbs) res)
          | None => ret res
          end
        else ret (set_info (LoadDatabasesInfoResponce [curdb]) res)
      end
    end).

(** ** Keys *)

Definition key_commands (key : bytes) : list (option FastoObject) :=
  [CreateCommandFast (lit "TYPE " ++ key) C_INNER; CreateCommandFast (lit "TTL " ++ key) C_INNER].

(** The commands of the pipeline are logged as they are sent. *)
Definition pipeline_logs (cmds : list FastoObject) : D unit :=
  connected ⟵ IsConnected;
  if (connected : bool) && negb (bool_decide (cmds = [])) then
    each (λ cmd, match c_strornull (InputCommand cmd) with None => ret tt | Some _ => LOG_COMMAND cmd end) cmds
  else ret tt.

Definition one_child (cmd : option FastoObject) : option FastoObject :=
  match childs cmd with [o] => Some o | _ => None end.

(** What the replies of its two commands say of a key. *)
Definition key_answers (type ttl : option FastoObject) (kv : NDbKValue) : NDbKValue :=
  let kv := match one_child type with
            | Some o => NDbKValue_SetValue kv (createEmptyValueFromType (convertFromStringRType (FastoObject_ToString o)))
            | None => kv
            end in
  match one_child ttl with
  | Some o => match getAsInteger (value_ o) with Some t => NDbKValue_SetTTL kv t | None => kv end
  | None => kv
  end.

Fixpoint keys_answers (cmds : list FastoObject) (keys : list NDbKValue) : list NDbKValue :=
  match keys with
  | [] => []
  | kv :: keys => key_answers (cmds !! 0%nat) (cmds !! 1%nat) kv :: keys_answers (drop 2 cmds) keys
  end.

(** The response at each of the places where the code gives up. *)
Definition content_reply (child : FastoObject) (res : Responce SI) : D (Responce SI) :=
  match as_array child with
  | None | Some [] => ret res
  | Some arm =>
    match ArrayValue_getString arm 0 with
    | None => ret res
    | Some cursor =>
      let cursor_out := FromString_uint32 cursor in
      let answer keys n := ret (set_info (LoadDatabaseContentResponce keys cursor_out n) res) in
      match childrens_ child with
      | [] => answer [] 0
      | obj :: _ =>
        match as_array obj with
        | None | Some [] => answer [] 0
        | Some ar =>
          let names := omap getAsString ar in
          let keys := List.map (λ k, mkNDbKValue (new_NKey k) None) names in
          cmds ⟵ lift (from_option_fault NullPointer (mapM id (List.concat (List.map key_commands names))));
          pipeline_logs cmds;;
          '(err, cmds) ⟵ on_impl (λ c, '(err, cmds, c) ← ExecuteAsPipeline cmds c; Val (err, cmds, c));
          if isError err then answer keys 0
          else
            '(_, n) ⟵ on_impl (λ c, '(err, n, c) ← DBkcount 0 c; Val (err, n, c));
            answer (keys_answers cmds keys) n
        end
      end
    end
  end.

Definition HandleLoadDatabaseContentEvent sender ev : D unit :=
  match ei_info ev with
  | LoadDatabaseContentRequest inf pattern count_keys cursor_in =>
    by_command 50 (MemSPrintf (lit "SCAN %d MATCH %s COUNT %d") [FInt cursor_in; FStr pattern; FInt count_keys])
      (λ cmd res, match childs cmd with
                  | [] => ret res
                  | child :: rest => check_one rest;; content_reply child res
                  end) sender ev
  | _ => ret tt
  end.

#[local] Instance virtuals : DriverVirtuals conn SI U F := {|
  SI_ToString := RedisInfo.ToString;
  Driver.CurrentServerInfo := CurrentServerInfo;
  Driver.CurrentDataBaseInfo := CurrentDataBaseInfo;
  Driver.MakeServerInfoFromString := RedisInfo.MakeRedisServerInfo;
  v_HandleProcessCommandLineArgsEvent := HandleProcessCommandLineArgsEvent;
  v_HandleLoadDatabaseContentEvent := HandleLoadDatabaseContentEvent;
  v_HandleLoadServerPropertyEvent := HandleLoadServerPropertyEvent;
  v_HandleServerPropertyChangeEvent := HandleServerPropertyChangeEvent;
  v_HandleShutdownEvent := HandleShutdownEvent;
  v_HandleBackupEvent := HandleBackupEvent;
  v_HandleExportEvent := HandleExportEvent;
  v_HandleChangePasswordEvent := HandleChangePasswordEvent;
  v_HandleChangeMaxConnectionEvent := HandleChangeMaxConnectionEvent;
  v_HandleLoadDatabaseInfosEvent := HandleLoadDatabaseInfosEvent;
  v_HandleClearDatabaseEvent := HandleClearDatabaseEvent;
  v_HandleSetDefaultDatabaseEvent := HandleSetDefaultDatabaseEvent
|}.
End Members.
End RedisDriver.
