(* ===== verification/DriverProps.v ===== *)
(** What the handlers of a driver post: the rules for handlers, and the answers to the requests. *)
From Stdlib Require Import Ascii String ZArith Lia.
From stdpp Require Import base list.
From S2P Require Import Prelude Common Texts Values Connection SdsArgs Commands Configs RedisReply RedisModes Translators ConnectionTypes ConnSettings Events DriverBase Driver.
Local Open Scope Z_scope.
Local Open Scope driver_scope.
#[local] Set Warnings "-register-all".

(** * Rules *)

Section Rules.
Context `{SettingsLib} {C SI U F R : Type} `{!DriverConn C} `{!DriverEnv U F R} `{CommonLib} `{!CommonRedis}.
Local Abbreviation driver := (IDriver C SI U F).
Local Abbreviation D := (D C SI U F).
Implicit Types (d : driver).

Lemma bind_inv {A B} (f : A → D B) (m : D A) d b d' :
  bind f m d = Val (b, d') → ∃ a d1, m d = Val (a, d1) ∧ f a d1 = Val (b, d').
Proof. unfold bind. destruct (m d) as [[a d1] |] eqn:E; [| done]. eauto. Qed.

(** ** Handlers that keep something *)

(** [m] keeps what [V] sees of a driver. *)
Definition silent {T} (V : driver → T) {A} (m : D A) : Prop := ∀ d a d', m d = Val (a, d') → V d' = V d.

(** A view does not see the connection, the informations, and the signals but those of logged commands and
    of informations. *)
Definition unlogged (s : signal SI) : bool := match s with Printed _ _ | SnapShootTaken _ => false | _ => true end.
Class View {T} (V : driver → T) : Prop := {
  view_impl c d : V (with_impl c d) = V d;
  view_infos i p l d : V (with_infos i p l d) = V d;
  view_emit s d : unlogged s = true → V (with_out (posted_ d) (emitted_ d ++ [s]) (roots_ d) d) = V d
}.
(** Nor the surroundings and the log. *)
Class EnvView {T} (V : driver → T) : Prop := {
  view_view :: View V;
  view_env o d : V (with_env o d) = V d;
  view_log t l d : V (with_log t l d) = V d;
  view_roots n d : V (with_out (posted_ d) (emitted_ d) n d) = V d
}.

Section Silent.
Context {T : Type} (V : driver → T).
Lemma silent_bind {A B} (f : A → D B) m : silent V m → (∀ a, silent V (f a)) → silent V (bind f m).
Proof.
  intros M K d b d' E. unfold bind in E. destruct (m d) as [[a d1] |] eqn:E1; [| done].
  transitivity (V d1); [by eapply K | by eapply M].
Qed.
Lemma silent_ret {A} (a : A) : silent V (ret a).
Proof. by intros d b d' [= <- <-]. Qed.
Lemma silent_lift {A} (m : outcome A) : silent V (lift m).
Proof. intros d b d'. unfold lift. destruct m; [| done]. by intros [= <- <-]. Qed.
Lemma silent_gets {A} (f : driver → A) : silent V (gets f).
Proof. by intros d b d' [= <- <-]. Qed.
Lemma silent_modify (f : driver → driver) : (∀ d, V (f d) = V d) → silent V (modify f).
Proof. intros K d b d' [= <- <-]. apply K. Qed.
Lemma silent_deref_info p : silent V (deref_info p).
Proof.
  intros d b d'. unfold deref_info. destruct p as [p |]; [| done]. destruct (infos_ d !! p); [| done].
  by intros [= <- <-].
Qed.
Lemma silent_each {A} (f : A → D unit) l : (∀ a, silent V (f a)) → silent V (each f l).
Proof. intros K. induction l; [apply silent_ret |]. by apply silent_bind. Qed.

Context `{!View V}.
Lemma silent_emit s : unlogged s = true → silent V (emit s).
Proof. intros L. apply silent_modify. intros d. by apply view_emit. Qed.
Lemma silent_new_info info : silent V (new_info info).
Proof. intros d b d' [= <- <-]. apply view_infos. Qed.
Lemma silent_SetInterrupted b : silent V (SetInterrupted b).
Proof. apply silent_modify. intros d. apply view_impl. Qed.
Lemma silent_set_current_database p : silent V (set_current_database p).
Proof. apply silent_modify. intros d. apply view_infos. Qed.
Lemma silent_on_client_event ev : silent V (on_client_event ev).
Proof.
  unfold on_client_event. apply silent_bind; [apply silent_gets |]. intros db.
  destruct ev; try by apply silent_emit.
  - unfold OnCurrentDataBaseChanged_. destruct info; [| apply silent_lift].
    apply silent_bind; [apply silent_new_info |]. intros p. apply silent_set_current_database.
  - apply silent_each. intros key. by apply silent_emit.
Qed.
Lemma silent_on_impl {A} (f : C → outcome (A * C)) : silent V (on_impl f : D A).
Proof.
  intros d b d'. unfold on_impl. destruct (f (impl_ d)) as [[a c] |]; [| done]. cbn.
  destruct (impl_events c) as [evs c']. intros E. rewrite <- (view_impl (V := V) c' d).
  assert (S : silent V (each on_client_event evs;; ret a)).
  { apply silent_bind; [apply silent_each, silent_on_client_event | intros _; apply silent_ret]. }
  exact (S _ _ _ E).
Qed.
End Silent.

Lemma silent_on_env {T} (V : driver → T) `{!EnvView V} {A} (f : U → A * U) : silent V (on_env f).
Proof.
  intros d b d'. unfold on_env. destruct (f (env_ d)) as [a o]. intros [= <- <-]. apply view_env.
Qed.
Lemma silent_to_env {T} (V : driver → T) `{!EnvView V} (f : U → U) : silent V (to_env f).
Proof. apply silent_modify. intros d. apply view_env. Qed.
Lemma silent_IsInterrupted {T} (V : driver → T) `{!EnvView V} : silent V IsInterrupted.
Proof.
  unfold IsInterrupted. apply silent_bind; [by apply silent_on_env |]. intros b.
  apply silent_bind; [| intros _; apply silent_gets]. destruct b; [| apply silent_ret].
  apply silent_modify. intros d. apply view_impl.
Qed.

#[export] Instance posted_view : EnvView (posted_ : driver → _).
Proof. by repeat split. Qed.

(** ** Handlers that add something *)

Section Runs.
Context {E : Type} (V : driver → list E).
Implicit Types evs : list E.

(** When [m] returns, what it has added to [V] and its result satisfy [P]. *)
Definition runs {A} (P : A → list E → Prop) (m : D A) : Prop :=
  ∀ d a d', m d = Val (a, d') → ∃ evs, V d' = V d ++ evs ∧ P a evs.

Lemma runs_ret {A} (P : A → list E → Prop) a : P a [] → runs P (ret a).
Proof. intros Pa d b d' [= <- <-]. exists []. by rewrite app_nil_r. Qed.
Lemma runs_bind {A B} (P : A → list E → Prop) (Q : B → list E → Prop) (f : A → D B) m :
  runs P m → (∀ a evs, P a evs → runs (λ b evs', Q b (evs ++ evs')) (f a)) → runs Q (bind f m).
Proof.
  intros M K d b d' Eq. unfold bind in Eq. destruct (m d) as [[a d1] |] eqn:E1; [| done].
  destruct (M _ _ _ E1) as (evs & Eff & Pa). destruct (K _ _ Pa _ _ _ Eq) as (evs' & Eff' & Qb).
  exists (evs ++ evs'). by rewrite Eff', Eff, <- (assoc (++)).
Qed.
Lemma runs_weaken {A} (P Q : A → list E → Prop) m : runs P m → (∀ a evs, P a evs → Q a evs) → runs Q m.
Proof. intros M W d a d' Eq. destruct (M _ _ _ Eq) as (evs & Eff & Pa). eauto. Qed.
Lemma silent_runs {A} (m : D A) : silent V m → runs (λ _ evs, evs = []) m.
Proof. intros S d a d' Eq. exists []. rewrite app_nil_r. split; [by eapply S | done]. Qed.
End Runs.
End Rules.

(** * What is posted *)

Section Posts.
Context `{SettingsLib} {C SI U F R : Type} `{!DriverConn C} `{!DriverEnv U F R} `{CommonLib} `{!CommonRedis}.
Local Abbreviation driver := (IDriver C SI U F).
Local Abbreviation D := (D C SI U F).
Local Abbreviation posts := (list (QObject * qevent SI)).
Implicit Types (d : driver) (evs : posts) (r : QObject) (v : EventInfo).

Definition is_notice (ev : qevent SI) : bool :=
  match ev with RequestEvent _ _ | ResponceEvent _ _ => false | _ => true end.

(** Events for [r] that neither ask nor answer. *)
Definition calm r evs : Prop := Forall (λ p, p.1 = r ∧ is_notice p.2 = true) evs.

(** The request without the error that its answer may carry. *)
Definition anon v : EventInfo := mkEventInfo (ei_sender v) (ei_time_start v) no_error (ei_info v).

(** One answer to [v], and it goes to [r]. *)
Definition answer r v evs : Prop :=
  ∃ e1 me res e2, evs = e1 ++ (r, ResponceEvent me res) :: e2 ∧ calm r e1 ∧ calm r e2 ∧ anon (rs_request res) = anon v.

Definition calmly r {A} (m : D A) : Prop := runs posted_ (λ _, calm r) m.
Definition answers r v {A} (m : D A) : Prop := runs posted_ (λ _, answer r v) m.

Lemma calm_app r evs evs' : calm r evs → calm r evs' → calm r (evs ++ evs').
Proof. apply Forall_app_2. Qed.
Lemma calm_answer r v evs evs' : calm r evs → answer r v evs' → answer r v (evs ++ evs').
Proof.
  intros C1 (e1 & me & res & e2 & -> & C2 & C3 & E). exists (evs ++ e1), me, res, e2.
  rewrite (assoc (++)). auto using calm_app.
Qed.
Lemma answer_calm r v evs evs' : answer r v evs → calm r evs' → answer r v (evs ++ evs').
Proof.
  intros (e1 & me & res & e2 & -> & C2 & C3 & E) C1. exists e1, me, res, (e2 ++ evs').
  rewrite <- (assoc (++)). auto using calm_app.
Qed.

Lemma calmly_ret r {A} (a : A) : calmly r (ret a).
Proof. apply runs_ret. constructor. Qed.
Lemma calmly_bind r {A B} (f : A → D B) m : calmly r m → (∀ a, calmly r (f a)) → calmly r (bind f m).
Proof.
  intros M K. eapply runs_bind; [exact M |]. intros a evs Ca. eapply runs_weaken; [apply K |]. eauto using calm_app.
Qed.
Lemma answers_after r v {A B} (f : A → D B) m : calmly r m → (∀ a, answers r v (f a)) → answers r v (bind f m).
Proof.
  intros M K. eapply runs_bind; [exact M |]. intros a evs Ca. eapply runs_weaken; [apply K |]. eauto using calm_answer.
Qed.
Lemma answers_before r v {A B} (f : A → D B) m : answers r v m → (∀ a, calmly r (f a)) → answers r v (bind f m).
Proof.
  intros M K. eapply runs_bind; [exact M |]. intros a evs Ca. eapply runs_weaken; [apply K |]. eauto using answer_calm.
Qed.

Lemma silent_calmly r {A} (m : D A) : silent posted_ m → calmly r m.
Proof. intros S. eapply runs_weaken; [by apply silent_runs |]. intros a evs ->. constructor. Qed.
End Posts.
Create HintDb driver.
#[export] Hint Resolve silent_ret silent_lift silent_gets silent_deref_info silent_new_info silent_SetInterrupted
  silent_set_current_database silent_on_impl silent_on_env silent_to_env silent_IsInterrupted : driver.
#[export] Hint Extern 0 (View _) => typeclasses eauto : driver.
#[export] Hint Extern 0 (EnvView _) => typeclasses eauto : driver.
#[export] Hint Extern 1 (silent _ (emit _)) => apply silent_emit; [typeclasses eauto | reflexivity] : driver.

Section Steps.
Context `{SettingsLib} {C SI U F R : Type} `{!DriverConn C} `{!DriverEnv U F R} `{CommonLib} `{!CommonRedis}.
Local Abbreviation driver := (IDriver C SI U F).
Local Abbreviation D := (D C SI U F).
Implicit Types (d : driver) (r : QObject) (v : EventInfo).

Lemma silent_LOG_COMMAND o : silent posted_ (LOG_COMMAND o : D unit).
Proof. unfold LOG_COMMAND. destruct (value_ o); eauto with driver. by apply silent_modify. Qed.
Hint Resolve silent_LOG_COMMAND : driver.

Lemma silent_Execute cmd : silent posted_ (Execute cmd : D (Error * option FastoObject)).
Proof.
  unfold Execute. destruct cmd as [o |]; [| eauto with driver].
  destruct (c_strornull (InputCommand o)); [| eauto with driver].
  apply silent_bind; [eauto with driver |]. intros _. apply silent_bind; [eauto with driver |]. intros [args |]; [| eauto with driver].
  apply silent_bind; eauto with driver.
Qed.

(** ** Events of a handler *)

Lemma calmly_Reply r ev : is_notice ev = true → calmly r (Reply r ev : D unit).
Proof.
  intros N d a d' [= <- <-]. exists [(r, ev)]. split; [done |]. by repeat constructor.
Qed.
Lemma calmly_NotifyProgress r n : calmly r (NotifyProgress r n : D unit).
Proof. apply calmly_bind; [apply silent_calmly, silent_gets |]. intros me. by apply calmly_Reply. Qed.
Lemma answers_reply_responce r v res : anon (rs_request res) = anon v → answers r v (reply_responce r res : D unit).
Proof.
  intros E. apply answers_after; [apply silent_calmly, silent_gets |]. intros me d a d' [= <- <-].
  exists [(r, ResponceEvent me res)]. split; [done |]. exists [], me, res, [].
  repeat split; auto using Forall_nil_2; apply Forall_nil_2.
Qed.
Lemma calmly_RootLocker r text silence watch : calmly r (RootLocker r text silence watch : D Locker).
Proof.
  unfold RootLocker, current_mstime. do 2 (apply calmly_bind; [apply silent_calmly; eauto with driver |]; intros ?).
  apply calmly_bind; [apply silent_calmly; by apply silent_modify |]. intros _. apply calmly_bind; [| intros; apply calmly_ret].
  destruct silence; [apply calmly_ret |]. do 2 (apply calmly_bind; [apply silent_calmly; eauto with driver |]; intros ?).
  by apply calmly_Reply.
Qed.
Lemma RootLocker_receiver r text silence watch d lk d' : RootLocker r text silence watch d = Val (lk, d') → lk_receiver lk = r.
Proof.
  unfold RootLocker, current_mstime, on_env, bind, gets, modify, ret, self. destruct (env_mstime (env_ d)) as [t o]. cbn.
  destruct silence; cbn; [by intros [= <- _] |]. destruct (env_mstime o). cbn. by intros [= <- _].
Qed.
Lemma calmly_RootLocker_delete lk : calmly (lk_receiver lk) (RootLocker_delete lk : D unit).
Proof.
  unfold RootLocker_delete. destruct (lk_silence lk); [apply calmly_ret |].
  apply calmly_bind; [apply silent_calmly, silent_gets |]. intros me. by apply calmly_Reply.
Qed.
End Steps.
#[export] Hint Resolve silent_LOG_COMMAND silent_Execute : driver.

(** ** Steps that carry a root *)

Section Roots.
Context `{SettingsLib} {C SI U F R : Type} `{!DriverConn C} `{!DriverEnv U F R} `{CommonLib} `{!CommonRedis}.
Local Abbreviation driver := (IDriver C SI U F).
Local Abbreviation D := (D C SI U F).
Implicit Types (d : driver) (r : QObject) (lk : Locker).

Definition rooted r {A} (root : A → Locker) (m : D A) : Prop :=
  runs posted_ (λ a evs, calm r evs ∧ lk_receiver (root a) = r) m.

Lemma rooted_ret r {A} (root : A → Locker) a : lk_receiver (root a) = r → rooted r root (ret a : D A).
Proof. intros E. apply runs_ret. split; [constructor | done]. Qed.
Lemma rooted_after r {A B} (root : B → Locker) (f : A → D B) m :
  calmly r m → (∀ a, rooted r root (f a)) → rooted r root (bind f m).
Proof.
  intros M K. eapply runs_bind; [exact M |]. intros a evs Ca. eapply runs_weaken; [apply K |].
  intros b evs' [Cb E]. eauto using calm_app.
Qed.
Lemma rooted_bind r {A B} (root : A → Locker) (root' : B → Locker) (f : A → D B) m :
  rooted r root m → (∀ a, lk_receiver (root a) = r → rooted r root' (f a)) → rooted r root' (bind f m).
Proof.
  intros M K. eapply runs_bind; [exact M |]. intros a evs [Ca E]. eapply runs_weaken; [by apply K |].
  intros b evs' [Cb E']. eauto using calm_app.
Qed.
Lemma answers_rooted r v {A B} (root : A → Locker) (f : A → D B) m :
  rooted r root m → (∀ a, lk_receiver (root a) = r → answers r v (f a)) → answers r v (bind f m).
Proof.
  intros M K. eapply runs_bind; [exact M |]. intros a evs [Ca E]. eapply runs_weaken; [by apply K |].
  eauto using calm_answer.
Qed.

Lemma rooted_RootLocker r text silence watch : rooted r id (RootLocker r text silence watch : D Locker).
Proof.
  intros d lk d' E. destruct (calmly_RootLocker r text silence watch d lk d' E) as (evs & Eff & Cl).
  exists evs. split; [done |]. split; [done |]. by eapply RootLocker_receiver.
Qed.
Lemma rooted_ChildrenAdded r lk path child : lk_receiver lk = r → rooted r id (ChildrenAdded lk path child : D Locker).
Proof.
  intros E. unfold ChildrenAdded.
  repeat match goal with
    | |- rooted _ _ (match ?x with _ => _ end) => destruct x
    | |- rooted _ _ (bind _ _) => apply rooted_after; [apply silent_calmly; eauto with driver |]; intros
    | |- rooted _ _ (ret _) => by apply rooted_ret
    end.
Qed.
Lemma rooted_children_added r l lk : lk_receiver lk = r → rooted r id (children_added l lk : D Locker).
Proof.
  revert lk. induction l as [| [path child] l IH]; intros lk E; cbn [children_added]; [by apply rooted_ret |].
  eapply rooted_bind; [by apply rooted_ChildrenAdded |]. intros lk'. apply IH.
Qed.
Lemma rooted_run_under_root r lk command ct :
  lk_receiver lk = r → rooted r snd (run_under_root lk command ct : D (Error * Locker)).
Proof.
  intros E. unfold run_under_root. destruct (CreateCommand _ _ _) as [o |].
  - eapply rooted_bind; [by apply rooted_ChildrenAdded |]. intros lk1 E1.
    apply rooted_after; [apply silent_calmly; eauto with driver |]. intros [err o'].
    eapply rooted_bind; [by apply rooted_children_added |]. intros lk2 E2. by apply rooted_ret.
  - apply rooted_after; [apply silent_calmly; eauto with driver |]. intros x. by apply rooted_ret.
Qed.
End Roots.

(** * The handlers of [IDriver] *)

Ltac handler_step :=
  lazymatch goal with
  | |- answers _ _ (bind _ _) => idtac
  end;
  apply answers_after; [first [apply calmly_NotifyProgress | apply silent_calmly; solve [eauto with driver]] | intros ?].

Section Handlers.
Context `{SettingsLib} {C SI U F R : Type} `{!DriverConn C} `{!DriverEnv U F R} `{CommonLib} `{!CommonRedis}
  `{!Project} `{!TimeLib}.
Local Abbreviation driver := (IDriver C SI U F).
Local Abbreviation D := (D C SI U F).
Implicit Types (d : driver) (sender : QObject) (ev : EventInfo) (lk : Locker).

Lemma anon_set_error (er : Error) (res : Responce SI) : anon (rs_request (setErrorInfo er res)) = anon (rs_request res).
Proof. by destruct res as [[] ?]. Qed.
Lemma anon_set_info i (res : Responce SI) : anon (rs_request (set_info i res)) = anon (rs_request res).
Proof. done. Qed.
Lemma anon_if_error (er : Error) (res : Responce SI) : anon (rs_request (set_error er res)) = anon (rs_request res).
Proof. unfold set_error. by destruct (isError er); rewrite ?anon_set_error. Qed.

(** An answer, then the end of the progress. *)
Lemma answers_reply sender ev (res : Responce SI) n :
  anon (rs_request res) = anon ev → answers sender ev (reply_responce sender res;; NotifyProgress sender n : D unit).
Proof. intros E. apply answers_before; [by apply answers_reply_responce |]. intros _. apply calmly_NotifyProgress. Qed.

(** A step that makes the response. *)
Definition makes sender ev (m : D (Responce SI)) : Prop :=
  runs posted_ (λ res evs, calm sender evs ∧ anon (rs_request res) = anon ev) m.
Lemma makes_ret sender ev res : anon (rs_request res) = anon ev → makes sender ev (ret res).
Proof. intros E. apply runs_ret. split; [constructor | done]. Qed.
Lemma makes_after sender ev {A} (f : A → D (Responce SI)) m :
  calmly sender m → (∀ a, makes sender ev (f a)) → makes sender ev (bind f m).
Proof.
  intros M K. eapply runs_bind; [exact M |]. intros a evs Ca. eapply runs_weaken; [apply K |].
  intros b evs' [Cb E]. eauto using calm_app.
Qed.
Lemma answers_makes sender ev {B} (f : Responce SI → D B) m :
  makes sender ev m → (∀ res, anon (rs_request res) = anon ev → answers sender ev (f res)) → answers sender ev (bind f m).
Proof.
  intros M K. eapply runs_bind; [exact M |]. intros a evs [Ca E]. eapply runs_weaken; [by apply K |].
  eauto using calm_answer.
Qed.

Lemma replyNotImplementedYet_answers text sender ev : answers sender ev (replyNotImplementedYet text sender ev : D unit).
Proof.
  unfold replyNotImplementedYet. repeat handler_step. by apply answers_reply.
Qed.
Lemma HandleConnectEvent_answers sender ev : answers sender ev (HandleConnectEvent sender ev : D unit).
Proof. unfold HandleConnectEvent. repeat handler_step. apply answers_reply. by rewrite anon_if_error. Qed.
Lemma HandleDisconnectEvent_answers sender ev : answers sender ev (HandleDisconnectEvent sender ev : D unit).
Proof. unfold HandleDisconnectEvent. repeat handler_step. apply answers_reply. by rewrite anon_if_error. Qed.

Lemma silent_the_database : silent posted_ (the_database : D IDataBaseInfoSPtr).
Proof.
  unfold the_database, CurrentDatabaseInfo_. apply silent_bind; [| intros [p |]; eauto with driver].
  apply silent_bind; [unfold IsConnected; eauto with driver |]. intros []; [| eauto with driver].
  apply silent_bind; [eauto with driver |]. intros [i |]; eauto with driver.
Qed.
Hint Resolve silent_the_database : driver.
Lemma HandleLoadDatabaseInfosEvent_answers sender ev : answers sender ev (HandleLoadDatabaseInfosEvent sender ev : D unit).
Proof. unfold HandleLoadDatabaseInfosEvent. repeat handler_step. by apply answers_reply. Qed.

(** ** Lines *)

Lemma rooted_commands_loop sender silence step commands : ∀ cur_progress lk, lk_receiver lk = sender →
  rooted sender snd (commands_loop sender silence step commands cur_progress lk : D (option Error * double * Locker)).
Proof.
  induction commands as [| command commands IH]; intros cur_progress lk E; cbn [commands_loop]; [by apply rooted_ret |].
  apply rooted_after; [apply silent_calmly; eauto with driver |]. intros []; [by apply rooted_ret |].
  apply rooted_after; [apply silent_calmly; eauto with driver |]. intros n.
  apply rooted_after; [apply calmly_NotifyProgress |]. intros _.
  apply (rooted_bind _ snd).
  - destruct silence; [| by apply rooted_run_under_root].
    apply rooted_after; [apply silent_calmly; eauto with driver |]. intros []. by apply rooted_ret.
  - intros [err lk'] E'. destruct (isError err); [by apply rooted_ret | by apply IH].
Qed.
Lemma rooted_repeat_loop sender silence step commands interval n : ∀ cur_progress lk, lk_receiver lk = sender →
  rooted sender snd (repeat_loop sender silence step commands interval n cur_progress lk : D (option Error * Locker)).
Proof.
  induction n as [| n IH]; intros cur_progress lk E; cbn [repeat_loop]; [by apply rooted_ret |].
  unfold current_mstime. apply rooted_after; [apply silent_calmly; eauto with driver |]. intros start.
  apply (rooted_bind _ snd); [by apply rooted_commands_loop |]. intros [[[err |] p] lk'] E'; [by apply rooted_ret |].
  apply rooted_after; [apply silent_calmly; eauto with driver |]. intros finish.
  apply rooted_after; [| intros _; by apply IH].
  destruct (_ >? _); [| apply calmly_ret]. apply silent_calmly. by apply silent_modify.
Qed.
Lemma HandleExecuteEvent_answers sender ev text repeat interval history silence :
  ei_info ev = ExecuteInfoRequest text repeat interval history silence →
  answers sender ev (HandleExecuteEvent sender ev : D unit).
Proof.
  intros K. unfold HandleExecuteEvent. rewrite K. apply answers_after; [apply calmly_NotifyProgress |]. intros _.
  case_bool_decide; [by apply answers_reply; rewrite anon_set_error |].
  destruct (Tokenize text _) as [| c cs]; [by apply answers_reply; rewrite anon_set_error |].
  eapply (answers_rooted _ _ id); [apply rooted_RootLocker |]. intros lk E.
  eapply (answers_rooted _ _ snd); [by apply rooted_repeat_loop |]. intros [stop lk'] <-.
  apply answers_before; [| intros _; apply calmly_RootLocker_delete].
  apply answers_reply. by destruct stop; rewrite ?anon_set_error.
Qed.
End Handlers.
#[export] Hint Resolve silent_the_database : driver.

(** * Drivers

    What a driver has to say for its own members: informations are found out without any event, and its
    handlers answer.  The answer to the configuration's arguments may be missing. *)

Section Virtuals.
Context `{SettingsLib} {C SI U F : Type} `{!DriverVirtuals C SI U F}.
Definition virtual_handler (info : request_info) : option (QObject → EventInfo → D C SI U F unit) :=
  match info with
  | ShutDownInfoRequest => Some v_HandleShutdownEvent
  | BackupInfoRequest _ => Some v_HandleBackupEvent
  | ExportInfoRequest _ => Some v_HandleExportEvent
  | ChangePasswordRequest _ _ => Some v_HandleChangePasswordEvent
  | ChangeMaxConnectionRequest _ => Some v_HandleChangeMaxConnectionEvent
  | LoadDatabasesInfoRequest => Some v_HandleLoadDatabaseInfosEvent
  | LoadDatabaseContentRequest _ _ _ _ => Some v_HandleLoadDatabaseContentEvent
  | ClearDatabaseRequest _ => Some v_HandleClearDatabaseEvent
  | SetDefaultDatabaseRequest _ => Some v_HandleSetDefaultDatabaseEvent
  | ServerPropertyInfoRequest => Some v_HandleLoadServerPropertyEvent
  | ChangeServerPropertyInfoRequest _ => Some v_HandleServerPropertyChangeEvent
  | _ => None
  end.
End Virtuals.

Class DriverAnswers `{SettingsLib} (C SI U F : Type) `{!DriverVirtuals C SI U F} : Prop := {
  silent_CurrentServerInfo : silent posted_ (CurrentServerInfo : D C SI U F _);
  silent_CurrentDataBaseInfo : silent posted_ (CurrentDataBaseInfo : D C SI U F _);
  virtual_answers h sender ev : virtual_handler (ei_info ev) = Some h → answers sender ev (h sender ev : D C SI U F unit);
  config_answers sender ev :
    runs posted_ (λ _ evs, calm sender evs ∨ answer sender ev evs) (v_HandleProcessCommandLineArgsEvent sender ev : D C SI U F unit)
}.
#[export] Hint Resolve silent_CurrentServerInfo silent_CurrentDataBaseInfo : driver.

Section Requests.
Context `{SettingsLib} {C SI U F R : Type} `{!DriverConn C} `{!DriverEnv U F R} `{!DriverVirtuals C SI U F}
  `{!DriverAnswers C SI U F} `{CommonLib} `{!CommonRedis} `{!ConfigLib} `{!Project} `{!TimeLib}.
Local Abbreviation driver := (IDriver C SI U F).
Local Abbreviation D := (D C SI U F).
Implicit Types (d : driver) (sender : QObject) (ev : EventInfo).

Lemma silent_IsConnected : silent posted_ (IsConnected : D bool).
Proof. apply silent_gets. Qed.
Lemma silent_logging_path : silent posted_ (logging_path : D bytes).
Proof. apply silent_gets. Qed.
Lemma silent_reset_database db : silent posted_ (reset_database db : D unit).
Proof.
  unfold reset_database, set_current_database. destruct db; [| by apply silent_modify].
  apply silent_bind; [eauto with driver |]. intros p. by apply silent_modify.
Qed.
Hint Resolve silent_IsConnected silent_logging_path silent_reset_database : driver.

Lemma silent_ServerDiscoveryInfo : silent posted_ (ServerDiscoveryInfo : D _).
Proof.
  unfold ServerDiscoveryInfo. apply silent_bind; [eauto with driver |]. intros [er info].
  destruct (isError er); [eauto with driver |]. apply silent_bind; [eauto with driver |]. intros [er' db].
  destruct (isError er'); eauto with driver.
Qed.
Hint Resolve silent_ServerDiscoveryInfo : driver.

Lemma HandleLoadServerInfoEvent_answers sender ev : answers sender ev (HandleLoadServerInfoEvent sender ev : D unit).
Proof.
  unfold HandleLoadServerInfoEvent. repeat handler_step. destruct a1 as [err info]. handler_step. apply answers_reply.
  by destruct (isError err); rewrite ?anon_set_error.
Qed.

(** Takes the making of a response apart. *)
Ltac makes_step :=
  lazymatch goal with
  | |- makes _ _ (ret _) => apply makes_ret; rewrite ?anon_set_error, ?anon_if_error, ?anon_set_info; reflexivity
  | |- makes _ _ (bind _ _) => apply makes_after; [apply silent_calmly; solve [eauto with driver] | intros ?]
  | |- makes _ _ (match ?x with _ => _ end) => destruct x
  end.

Lemma HandleLoadServerInfoHistoryEvent_answers sender ev :
  answers sender ev (HandleLoadServerInfoHistoryEvent sender ev : D unit).
Proof.
  unfold HandleLoadServerInfoHistoryEvent. repeat handler_step. apply answers_makes; [repeat makes_step |].
  intros res E. by apply answers_reply_responce.
Qed.
Lemma HandleClearServerHistoryEvent_answers sender ev :
  answers sender ev (HandleClearServerHistoryEvent sender ev : D unit).
Proof.
  unfold HandleClearServerHistoryEvent. do 2 handler_step. apply answers_after.
  - apply silent_calmly. destruct a as [f |]; [destruct (File_isOpened f a0); [eauto with driver |] |].
    all: apply silent_bind; [eauto with driver |]; intros path; destruct (fs_is_file_exist path a0); [| eauto with driver].
    all: apply silent_bind; eauto with driver.
  - intros done. apply answers_reply_responce. by destruct done; rewrite ?anon_set_error.
Qed.
Lemma HandleDiscoveryInfoEvent_answers sender ev : answers sender ev (HandleDiscoveryInfoEvent sender ev : D unit).
Proof.
  unfold HandleDiscoveryInfoEvent. repeat handler_step. apply answers_makes.
  - destruct a1; [| makes_step]. makes_step. destruct a1 as [[err info] db]. makes_step; [makes_step |].
    apply makes_after; [apply silent_calmly; by apply silent_modify |]. intros _. repeat makes_step.
  - intros res E. handler_step. by apply answers_reply.
Qed.

(** Every request but the one for the configuration's arguments is answered once. *)
Lemma handle_request_answers sender ev : ei_info ev ≠ ProcessConfigArgsInfoRequest →
  answers sender ev (handle_request sender ev : D unit).
Proof.
  intros N. unfold handle_request. destruct (ei_info ev) eqn:K.
  all: try (apply virtual_answers; by rewrite K).
  - apply HandleConnectEvent_answers.
  - apply HandleDiscoveryInfoEvent_answers.
  - apply HandleDisconnectEvent_answers.
  - by eapply HandleExecuteEvent_answers.
  - apply HandleLoadServerInfoEvent_answers.
  - apply HandleLoadServerInfoHistoryEvent_answers.
  - apply HandleClearServerHistoryEvent_answers.
Qed.
Lemma customEvent_answers sender ev : ei_info ev ≠ ProcessConfigArgsInfoRequest →
  answers sender ev (customEvent (RequestEvent sender ev) : D unit).
Proof.
  intros N. unfold customEvent. handler_step. by apply handle_request_answers.
Qed.

Lemma silent_create_log : silent posted_ (create_log : D (option F)).
Proof.
  unfold create_log. apply silent_bind; [eauto with driver |]. intros [f |]; [eauto with driver |].
  repeat (apply silent_bind; [eauto with driver | intros ?]). eauto with driver.
Qed.
Lemma silent_open_log : silent posted_ (open_log : D (option F)).
Proof.
  unfold open_log. apply silent_bind; [apply silent_create_log |]. intros lg.
  repeat (apply silent_bind; [| intros ?]); try eauto with driver.
  - destruct lg as [f |]; [| eauto with driver]. destruct (File_isOpened f a); [eauto with driver |].
    apply silent_bind; eauto with driver.
  - by apply silent_modify.
Qed.
Hint Resolve silent_open_log : driver.
Lemma silent_timerEvent id : silent posted_ (timerEvent id : D unit).
Proof.
  unfold timerEvent. do 3 (apply silent_bind; [eauto with driver | intros ?]). destruct (_ && _ && _); [| eauto with driver].
  apply silent_bind; [eauto with driver |]. intros [f |]; [| eauto with driver]. unfold current_mstime.
  apply silent_bind; [eauto with driver | intros time]. apply silent_bind; [eauto with driver | intros [er info]].
  destruct (isError er); [eauto with driver |]. apply silent_bind; [by apply silent_modify | intros _].
  apply silent_bind; [eauto with driver | intros _].
  destruct info; [| eauto with driver]. apply silent_bind; eauto with driver.
Qed.
End Requests.
#[export] Hint Resolve silent_IsConnected silent_logging_path silent_reset_database : driver.
