(* ===== verification/DriverLaws.v ===== *)
(** The drivers of the databases answer: [DriverAnswers] of the store drivers and of the driver of Redis. *)
From Stdlib Require Import Ascii String ZArith Lia.
From stdpp Require Import base list.
From S2P Require Import Prelude Common Texts Values Connection SdsArgs Sds Hiredis HiredisFormat HiredisReader HiredisContext Commands Handlers Configs SshInfo RedisReply RedisConn RedisModes Translators ConnectionTypes ServerInfo StoreInfos RedisInfo ConnSettings KvApi NativeKv LsmConn LmdbConn UnqliteConn UpscaledbConn SsdbClient SsdbConn MemcachedConn Events DriverBase Driver StoreDrivers RedisDriver DriverProps.
Local Open Scope Z_scope.
Local Open Scope driver_scope.
#[local] Set Warnings "-register-all".

(** Takes a step apart that posts nothing. *)
Ltac silent_step :=
  lazymatch goal with
  | |- silent _ (bind _ _) => apply silent_bind; [first [solve [eauto with driver] | idtac] | intros ?]
  | |- silent _ (match ?x with _ => _ end) => destruct x
  | |- silent _ _ => solve [eauto with driver]
  end.
(** Takes the making of a response apart. *)
Ltac makes_step :=
  lazymatch goal with
  | |- makes _ _ (ret _) => apply makes_ret; rewrite ?anon_set_error, ?anon_if_error, ?anon_set_info; try first [reflexivity | assumption]
  | |- makes _ _ (let _ := _ in _) => cbv zeta
  | |- makes _ _ (bind _ _) => apply makes_after; [apply silent_calmly; repeat silent_step | intros ?]
  | |- makes _ _ (match ?x with _ => _ end) => destruct x
  end.

Section Store.
Context `{settings_lib : SettingsLib} {Cfg H W SI U F R : Type} `{!ConnectionTraits Cfg H W} `{!CDBImpl Cfg H W}
  `{!KvOps Cfg H W} `{!DriverEnv U F R} `{CommonLib} `{!CommonRedis} `{!Project} `{!TimeLib} `{!ValueLib}.
Local Abbreviation conn := (CDBConnection Cfg H W).
Context `{!DriverConn conn}.
Local Abbreviation D := (D conn SI U F).
Implicit Types (sender : QObject) (ev : EventInfo).

Lemma silent_store_info request (mk : kv_stats → SI) : silent posted_ (store_CurrentServerInfo request mk : D _).
Proof. unfold store_CurrentServerInfo. repeat silent_step. Qed.
Lemma silent_store_database name : silent posted_ (store_CurrentDataBaseInfo name : D _).
Proof. unfold store_CurrentDataBaseInfo. repeat silent_step. Qed.

Lemma store_content_answers check sender ev a b c d : ei_info ev = LoadDatabaseContentRequest a b c d →
  answers sender ev (store_HandleLoadDatabaseContentEvent check sender ev : D unit).
Proof.
  intros K. unfold store_HandleLoadDatabaseContentEvent. rewrite K. repeat handler_step. destruct a2 as [er cmd].
  apply answers_makes; [unfold store_content_reply; repeat makes_step |]. intros res E. handler_step. by apply answers_reply.
Qed.
Lemma store_clear_answers Flushdb sender ev : answers sender ev (store_HandleClearDatabaseEvent Flushdb sender ev : D unit).
Proof.
  unfold store_HandleClearDatabaseEvent. repeat handler_step. apply answers_reply. by rewrite anon_if_error.
Qed.

Lemma store_answers to_string info database make content clr :
  silent posted_ (info : D _) → silent posted_ (database : D _) →
  (∀ sender ev a b c d, ei_info ev = LoadDatabaseContentRequest a b c d → answers sender ev (content sender ev : D unit)) →
  (∀ sender ev, answers sender ev (clr sender ev : D unit)) →
  @DriverAnswers _ conn SI U F (store_virtuals to_string info database make content clr).
Proof.
  intros Hi Hd Hc Hcl. split; [exact Hi | exact Hd | |].
  - intros h sender ev. destruct (ei_info ev) eqn:K; intros [= <-]; cbn.
    all: lazymatch goal with
         | |- answers _ _ (HandleLoadDatabaseInfosEvent _ _) => apply HandleLoadDatabaseInfosEvent_answers
         | |- answers _ _ (?h _ _) =>
           tryif is_var h then first [apply Hcl | by eapply Hc] else apply replyNotImplementedYet_answers
         end.
  - intros sender ev. apply runs_ret. left. constructor.
Qed.
End Store.

(** * The stores *)

Section Leveldb.
Context `{settings_lib : SettingsLib} {H W U F R : Type} `{!LsmLib H W} `{!NativeFiles W} `{!DriverEnv U F R} `{CommonLib} `{!CommonRedis} `{!ConfigLib}
  `{!Project} `{!TimeLib} `{!ValueLib} `{!InfoLib}
  (raw : LeveldbInfo.Stats).
Local Abbreviation SI := LeveldbInfo.ServerInfo.
Local Abbreviation conn := (CDBConnection LocalConfig H W).
#[export] Instance leveldb_answers : @DriverAnswers _ conn SI U F (LeveldbDriver.virtuals raw).
Proof.
  apply store_answers; [apply silent_store_info | apply silent_store_database | by eapply store_content_answers | intros; apply store_clear_answers].
Qed.
End Leveldb.

Section Lmdb.
Context `{settings_lib : SettingsLib} {E T W U F R : Type} `{!LmdbLib E T W} `{!NativeFiles W} `{!DriverEnv U F R} `{CommonLib} `{!CommonRedis} `{!ConfigLib}
  `{!Project} `{!TimeLib} `{!ValueLib} `{!InfoLib}
  (raw : LmdbInfo.Stats).
Local Abbreviation SI := LmdbInfo.ServerInfo.
Local Abbreviation conn := (CDBConnection LocalConfig (lmdb E) W).
#[export] Instance lmdb_answers : @DriverAnswers _ conn SI U F (LmdbDriver.virtuals raw).
Proof.
  apply store_answers; [apply silent_store_info | apply silent_store_database | by eapply store_content_answers | intros; apply store_clear_answers].
Qed.
End Lmdb.

Section Rocksdb.
Context `{settings_lib : SettingsLib} {H W U F R : Type} `{!LsmLib H W} `{!NativeFiles W} `{!DriverEnv U F R} `{CommonLib} `{!CommonRedis} `{!ConfigLib}
  `{!Project} `{!TimeLib} `{!ValueLib} `{!InfoLib}
  (raw : RocksdbInfo.Stats) (DefaultColumnFamily : H → W → option bytes).
Local Abbreviation SI := RocksdbInfo.ServerInfo.
Local Abbreviation conn := (CDBConnection LocalConfig H W).
#[export] Instance rocksdb_answers : @DriverAnswers _ conn SI U F (RocksdbDriver.virtuals raw DefaultColumnFamily).
Proof.
  apply store_answers; [apply silent_store_info | unfold RocksdbDriver.CurrentDataBaseInfo; repeat silent_step | by eapply store_content_answers | intros; apply store_clear_answers].
Qed.
End Rocksdb.

Section Unqlite.
Context `{settings_lib : SettingsLib} {H C W U F R : Type} `{!UnqliteLib H C W} `{!NativeFiles W} `{!DriverEnv U F R} `{CommonLib} `{!CommonRedis} `{!ConfigLib}
  `{!Project} `{!TimeLib} `{!ValueLib} `{!InfoLib}
  (raw : UnqliteInfo.Stats).
Local Abbreviation SI := UnqliteInfo.ServerInfo.
Local Abbreviation conn := (CDBConnection LocalConfig H W).
#[export] Instance unqlite_answers : @DriverAnswers _ conn SI U F (UnqliteDriver.virtuals raw).
Proof.
  apply store_answers; [apply silent_store_info | apply silent_store_database | by eapply store_content_answers | intros; apply store_clear_answers].
Qed.
End Unqlite.

Section Upscaledb.
Context `{settings_lib : SettingsLib} {E DB C W U F R : Type} `{!UpscaledbLib E DB C W} `{!NativeFiles W} `{!DriverEnv U F R} `{CommonLib} `{!CommonRedis} `{!ConfigLib}
  `{!Project} `{!TimeLib} `{!ValueLib} `{!InfoLib}
  (raw : UpscaledbInfo.Stats).
Local Abbreviation SI := UpscaledbInfo.ServerInfo.
Local Abbreviation conn := (CDBConnection LocalConfig (upscaledb E DB) W).
#[export] Instance upscaledb_answers : @DriverAnswers _ conn SI U F (UpscaledbDriver.virtuals raw).
Proof.
  apply store_answers; [apply silent_store_info | apply silent_store_database | by eapply store_content_answers | intros; apply store_clear_answers].
Qed.
End Upscaledb.

Section Ssdb.
Context `{settings_lib : SettingsLib} {L W U F R : Type} `{!SsdbLink L W} `{!DriverEnv U F R} `{CommonLib} `{!CommonRedis} `{!ConfigLib}
  `{!Project} `{!TimeLib} `{!ValueLib} `{!InfoLib}
  (raw : SsdbInfo.Stats).
Local Abbreviation SI := SsdbInfo.ServerInfo.
Local Abbreviation conn := (CDBConnection RemoteConfig L W).
#[export] Instance ssdb_answers : @DriverAnswers _ conn SI U F (SsdbDriver.virtuals raw).
Proof.
  apply store_answers; [apply silent_store_info | apply silent_store_database | by eapply store_content_answers | intros; apply store_clear_answers].
Qed.
End Ssdb.

Section Memcached.
Context `{settings_lib : SettingsLib} {H W U F R : Type} `{!MemcachedLib H W} `{!DriverEnv U F R} `{CommonLib} `{!CommonRedis} `{!ConfigLib}
  `{!Project} `{!TimeLib} `{!ValueLib} `{!InfoLib}
  (raw : MemcachedInfo.Stats).
Local Abbreviation SI := MemcachedInfo.ServerInfo.
Local Abbreviation conn := (CDBConnection RemoteConfig H W).
#[export] Instance memcached_answers : @DriverAnswers _ conn SI U F (MemcachedDriver.virtuals raw).
Proof.
  apply store_answers; [apply silent_store_info | apply silent_store_database | by eapply store_content_answers | intros; apply replyNotImplementedYet_answers].
Qed.
End Memcached.

(** * Redis *)

Section Redis.
Context `{settings_lib : SettingsLib} {N U F R : Type} `{!Network N} `{!RedisEnv N} `{!ModesEnv N} `{Alloc} `{Patience}
  `{CommonLib} `{!CommonRedis} `{!ConfigLib} `{!CNumbers} `{!Project} `{!Stack} `{!DriverEnv U F R} `{!TimeLib} `{!ValueLib}
  `{!InfoLib}.
Local Abbreviation conn := (CDBConnection RConfig redisContext (RWorld N)).
Local Abbreviation SI := RedisInfo.ServerInfo.
#[local] Existing Instances RedisDriver.driver_conn RedisDriver.virtuals.
Local Abbreviation D := (D conn SI U F).
Implicit Types (sender : QObject) (ev : EventInfo).

Lemma silent_inner text : silent posted_ (RedisDriver.inner text : D _).
Proof. unfold RedisDriver.inner. eauto with driver. Qed.
Lemma silent_check_one rest : silent posted_ (RedisDriver.check_one rest : D unit).
Proof. unfold RedisDriver.check_one. repeat silent_step. Qed.
Lemma silent_make_databases curdb name n : ∀ i, silent posted_ (RedisDriver.make_databases curdb name i n : D _).
Proof. induction n as [| n IH]; intros i; cbn [RedisDriver.make_databases]; repeat silent_step. Qed.
Lemma silent_pipeline_logs cmds : silent posted_ (RedisDriver.pipeline_logs cmds : D unit).
Proof.
  unfold RedisDriver.pipeline_logs. repeat silent_step. apply silent_each. intros cmd. repeat silent_step.
Qed.
Hint Resolve silent_inner silent_check_one silent_make_databases silent_pipeline_logs : driver.

Lemma by_command_answers p text after sender ev :
  (∀ cmd res, anon (rs_request res) = anon ev → makes sender ev (after cmd res)) →
  answers sender ev (RedisDriver.by_command p text after sender ev : D unit).
Proof.
  intros K. unfold RedisDriver.by_command. repeat handler_step. destruct a1 as [er cmd]. apply answers_makes.
  - destruct (isError er); [by apply makes_ret; rewrite anon_set_error | by apply K].
  - intros res E. handler_step. by apply answers_reply.
Qed.
Lemma as_it_is_makes sender ev cmd res : anon (rs_request res) = anon ev →
  makes sender ev (RedisDriver.as_it_is cmd res : D (Responce SI)).
Proof. apply makes_ret. Qed.

Lemma content_reply_makes sender ev child res : anon (rs_request res) = anon ev →
  makes sender ev (RedisDriver.content_reply child res : D (Responce SI)).
Proof. intros E. unfold RedisDriver.content_reply. by repeat makes_step. Qed.

(** ** Modes *)

Lemma calmly_run_mode sender mode request f : calmly sender (RedisDriver.run_mode mode request f sender : D Error).
Proof.
  unfold RedisDriver.run_mode, current_mstime, self.
  apply calmly_bind; [apply silent_calmly; eauto with driver | intros me].
  apply calmly_bind; [apply calmly_NotifyProgress | intros _].
  apply calmly_bind; [apply silent_calmly; eauto with driver | intros now].
  apply calmly_bind; [by apply calmly_Reply | intros _].
  apply calmly_bind; [apply silent_calmly; eauto with driver | intros started].
  eapply runs_bind; [apply rooted_RootLocker |]. intros lk evs [Cl E].
  eapply runs_weaken; [| intros b evs' Cb; apply (calm_app _ evs evs' Cl Cb)].
  apply calmly_bind; [apply silent_calmly; eauto with driver | intros [er tree]].
  eapply runs_bind; [by apply rooted_children_added |]. intros lk' evs' [Cl' <-].
  eapply runs_weaken; [| intros b evs'' Cb; apply (calm_app _ evs' evs'' Cl' Cb)].
  apply calmly_bind; [by apply calmly_Reply | intros _].
  apply calmly_bind; [apply calmly_NotifyProgress | intros _].
  apply calmly_bind; [apply calmly_RootLocker_delete | intros _; apply calmly_ret].
Qed.
Lemma calmly_InteracteveMode sender : calmly sender (RedisDriver.InteracteveMode sender : D Error).
Proof.
  unfold RedisDriver.InteracteveMode, current_mstime, self.
  repeat (apply calmly_bind; [first [by apply calmly_Reply | apply calmly_NotifyProgress
                                    | apply silent_calmly; solve [eauto with driver]] | intros ?]).
  apply calmly_ret.
Qed.
Lemma config_answer sender ev :
  answers sender ev (RedisDriver.HandleProcessCommandLineArgsEvent sender ev : D unit).
Proof.
  unfold RedisDriver.HandleProcessCommandLineArgsEvent. apply answers_after; [apply silent_calmly; eauto with driver | intros conf].
  do 6 (apply answers_after;
    [match goal with |- calmly _ (if ?b then _ else _) => destruct b end; [| apply calmly_ret];
     apply calmly_bind; [apply calmly_run_mode | intros; apply calmly_ret] | intros _]).
  apply answers_after; [apply calmly_InteracteveMode | intros _]. by apply answers_reply_responce.
Qed.

#[export] Instance redis_answers : @DriverAnswers _ conn SI U F RedisDriver.virtuals.
Proof.
  split.
  - cbn. unfold RedisDriver.CurrentServerInfo. repeat silent_step.
  - cbn. unfold RedisDriver.CurrentDataBaseInfo. repeat silent_step.
  - intros h sender ev. destruct (ei_info ev) eqn:K; intros [= <-]; cbn.
    + apply by_command_answers, as_it_is_makes.
    + unfold RedisDriver.HandleBackupEvent. rewrite K. apply by_command_answers. intros cmd res E. by repeat makes_step.
    + unfold RedisDriver.HandleExportEvent. rewrite K. repeat handler_step. apply answers_reply. by rewrite anon_if_error.
    + unfold RedisDriver.HandleChangePasswordEvent. rewrite K. apply by_command_answers, as_it_is_makes.
    + unfold RedisDriver.HandleChangeMaxConnectionEvent. rewrite K. apply by_command_answers, as_it_is_makes.
    + apply by_command_answers. intros cmd res E. by repeat makes_step.
    + unfold RedisDriver.HandleLoadDatabaseContentEvent. rewrite K. apply by_command_answers. intros cmd res E.
      destruct (RedisDriver.childs cmd) as [| child rest]; [by apply makes_ret |].
      apply makes_after; [apply silent_calmly; eauto with driver | intros _]. by apply content_reply_makes.
    + apply by_command_answers, as_it_is_makes.
    + unfold RedisDriver.HandleSetDefaultDatabaseEvent. rewrite K. repeat handler_step. destruct a2 as [er cmd].
      handler_step. apply answers_reply. by rewrite anon_if_error.
    + apply by_command_answers. intros cmd res E. destruct (RedisDriver.childs cmd) as [| child rest]; [by apply makes_ret |].
      apply makes_after; [apply silent_calmly; eauto with driver | intros _]. apply makes_ret. by destruct (as_array child).
    + unfold RedisDriver.HandleServerPropertyChangeEvent. rewrite K. apply by_command_answers. intros cmd res E. by repeat makes_step.
  - intros sender ev. eapply runs_weaken; [apply config_answer |]. auto.
Qed.
End Redis.
