(* ===== verification/DriverExec.v ===== *)
(** The execution of lines: which commands a driver runs, and in which order. *)
From Stdlib Require Import Ascii String ZArith Lia.
From stdpp Require Import base list.
From S2P Require Import Prelude Common Texts Values Connection SdsArgs Commands Configs RedisReply RedisModes Translators ConnectionTypes ConnSettings Events DriverBase Driver DriverProps.
Local Open Scope Z_scope.
Local Open Scope driver_scope.
#[local] Set Warnings "-register-all".

Section Exec.
Context `{SettingsLib} {C SI U F R : Type} `{!DriverConn C} `{!DriverEnv U F R} `{CommonLaws} `{!CommonRedis}.
Local Abbreviation driver := (IDriver C SI U F).
Local Abbreviation D := (D C SI U F).
Implicit Types (d : driver) (sender : QObject) (lk : Locker).

(** The commands that were logged, which is before each is executed. *)
Definition printed d : list bytes := omap (λ s, match s with Printed input _ => Some input | _ => None end) (emitted_ d).

#[export] Instance printed_view : EnvView printed.
Proof.
  repeat split; try done. intros s d L. unfold printed. cbn. rewrite omap_app. destruct s; try done; apply app_nil_r.
Qed.

Lemma silent_posting posted : silent printed (modify (λ d, with_out (posted d) (emitted_ d) (roots_ d) d) : D unit).
Proof. by apply silent_modify. Qed.
Lemma silent_Reply r ev : silent printed (Reply r ev : D unit).
Proof. apply (silent_posting (λ d, posted_ d ++ [(r, ev)])). Qed.
Lemma silent_NotifyProgress r n : silent printed (NotifyProgress r n : D unit).
Proof. apply silent_bind; [apply silent_gets |]. intros me. apply silent_Reply. Qed.
Lemma silent_reply_responce r res : silent printed (reply_responce r res : D unit).
Proof. apply silent_bind; [apply silent_gets |]. intros me. apply silent_Reply. Qed.
Hint Resolve silent_Reply silent_NotifyProgress silent_reply_responce : driver.

Lemma silent_RootLocker r text silence watch : silent printed (RootLocker r text silence watch : D Locker).
Proof.
  unfold RootLocker, current_mstime, self. do 2 (apply silent_bind; [eauto with driver |]; intros ?).
  apply silent_bind; [by apply silent_modify |]. intros _. apply silent_bind; [| eauto with driver].
  destruct silence; [eauto with driver |]. do 2 (apply silent_bind; [eauto with driver |]; intros ?). eauto with driver.
Qed.
Lemma silent_RootLocker_delete lk : silent printed (RootLocker_delete lk : D unit).
Proof.
  unfold RootLocker_delete, self. destruct (lk_silence lk); [eauto with driver |].
  apply silent_bind; eauto with driver.
Qed.
Lemma silent_ChildrenAdded lk path child : silent printed (ChildrenAdded lk path child : D Locker).
Proof.
  unfold ChildrenAdded.
  repeat match goal with
    | |- silent _ (match ?x with _ => _ end) => destruct x
    | |- silent _ (bind _ _) => apply silent_bind; [eauto with driver |]; intros
    | |- silent _ (ret _) => apply silent_ret
    end.
Qed.
Lemma silent_children_added l : ∀ lk, silent printed (children_added l lk : D Locker).
Proof.
  induction l as [| [path child] l IH]; intros lk; cbn [children_added]; [eauto with driver |].
  apply silent_bind; [apply silent_ChildrenAdded | apply IH].
Qed.
Hint Resolve silent_RootLocker silent_RootLocker_delete silent_ChildrenAdded silent_children_added : driver.

(** ** One command *)

(** The command is logged, or it fails before. *)
Definition one_line (line : bytes) (err : Error) (evs : list bytes) : Prop :=
  evs = [StableCommand line] ∨ evs = [] ∧ isError err = true.

Lemma runs_silent {A} (P : A → list bytes → Prop) (m : D A) : silent printed m → (∀ a, P a []) → runs printed P m.
Proof. intros S K. eapply runs_weaken; [by apply silent_runs |]. by intros a evs ->. Qed.

Lemma Execute_prints line ct o : value_ o = VCommand (StableCommand line) ct →
  runs printed (λ r, one_line line r.1) (Execute (Some o) : D (Error * option FastoObject)).
Proof.
  intros V. unfold Execute, InputCommand. rewrite V.
  destruct (c_strornull (StableCommand line)) as [cc |];
    [| apply runs_ret; right; split; [done | apply isError_make_error]].
  eapply (runs_bind _ (λ _ evs, evs = [StableCommand line])).
  { intros d a d'. unfold LOG_COMMAND. rewrite V. intros [= <- <-]. exists [StableCommand line]. split; [| done].
    unfold printed. cbn. by rewrite omap_app. }
  intros a evs ->. eapply runs_weaken.
  - apply silent_runs. apply silent_bind; [eauto with driver |]. intros [args |]; [| eauto with driver].
    apply silent_bind; [eauto with driver |]. intros r. eauto with driver.
  - intros b evs ->. rewrite app_nil_r. by left.
Qed.
Lemma fast_prints line : runs printed (λ r, one_line line r.1)
  (Execute (CreateCommandFast line C_USER) : D (Error * option FastoObject)).
Proof.
  unfold CreateCommandFast. case_bool_decide; [| by eapply Execute_prints].
  apply runs_ret. right. split; [done | apply isError_make_error].
Qed.
Lemma root_prints lk line : runs printed (λ r, one_line line r.1) (run_under_root lk line C_USER : D (Error * Locker)).
Proof.
  unfold run_under_root, CreateCommand. case_bool_decide.
  - refine (runs_ret _ _ (invalid_arguments, lk) _). right. split; [done | apply isError_make_error].
  - eapply runs_bind; [apply (runs_silent (λ _ evs, evs = [])); [eauto with driver | done] |]. intros lk1 evs ->.
    eapply runs_bind; [by eapply Execute_prints |]. intros [err o'] evs K. cbn in K.
    eapply runs_bind; [apply (runs_silent (λ _ evs, evs = [])); [eauto with driver | done] |]. intros lk2 evs' ->.
    apply runs_ret. cbn. by rewrite app_nil_r.
Qed.

(** ** The loops *)

(** The first [k] of [lines] were run; all of them when there was no reason to stop. *)
Definition some_lines (lines : list bytes) (stop : option Error) (evs : list bytes) : Prop :=
  ∃ k, evs = take k (List.map StableCommand lines) ∧
    match stop with
    | None => (length lines <= k)%nat
    | Some err => is_Some err
    end.

Lemma isError_is_Some er : isError er = true → is_Some er.
Proof. unfold isError. destruct er; [by eexists | done]. Qed.

Lemma commands_loop_prints sender silence step commands : ∀ cur_progress lk,
  runs printed (λ r, some_lines commands r.1.1) (commands_loop sender silence step commands cur_progress lk : D _).
Proof.
  induction commands as [| line commands IH]; intros cur_progress lk; cbn [commands_loop].
  { apply runs_ret. exists 0%nat. split; [done | cbn; lia]. }
  eapply runs_bind; [apply (runs_silent (λ _ evs, evs = [])); [eauto with driver | done] |]. intros [] evs ->.
  { apply runs_ret. exists 0%nat. split; [done |]. by eexists. }
  eapply runs_bind; [apply (runs_silent (λ _ evs, evs = [])); [eauto with driver | done] |]. intros n evs ->.
  eapply runs_bind; [apply (runs_silent (λ _ evs, evs = [])); [eauto with driver | done] |]. intros _ evs ->.
  eapply (runs_bind _ (λ r : Error * Locker, one_line line r.1)).
  { destruct silence; [| apply root_prints]. eapply runs_bind; [apply fast_prints |]. intros [err o] evs K.
    apply runs_ret. by rewrite app_nil_r. }
  intros [err lk'] evs K. cbn in K. destruct (isError err) eqn:Er.
  - apply runs_ret. cbn. destruct K as [-> | [-> _]].
    + exists 1%nat. split; [done | by apply isError_is_Some].
    + exists 0%nat. split; [done | by apply isError_is_Some].
  - destruct K as [-> | [_ K]]; [| congruence]. eapply runs_weaken; [apply IH |].
    intros [[stop p] lk2] evs (k & -> & K). exists (S k). split; [done |]. cbn in *. destruct stop; [done | lia].
Qed.

Lemma some_lines_next lines lines' evs evs' stop :
  some_lines lines None evs → some_lines lines' stop evs' → some_lines (lines ++ lines') stop (evs ++ evs').
Proof.
  intros (k & -> & K) (k' & -> & K'). exists (length lines + k')%nat. rewrite List.map_app.
  rewrite (take_ge (List.map _ lines)) by (rewrite List.length_map; lia). split.
  - rewrite take_app_ge by (rewrite List.length_map; lia). rewrite List.length_map. do 2 f_equal. lia.
  - destruct stop; [done |]. rewrite length_app. lia.
Qed.

Definition rounds_of (n : nat) (commands : list bytes) : list bytes := List.concat (replicate n commands).

Lemma repeat_loop_prints sender silence step commands interval n : ∀ cur_progress lk,
  runs printed (λ r, some_lines (rounds_of n commands) r.1)
    (repeat_loop sender silence step commands interval n cur_progress lk : D _).
Proof.
  induction n as [| n IH]; intros cur_progress lk; cbn [repeat_loop]; [apply runs_ret; exists 0%nat; split; [done | cbn; lia] |].
  unfold current_mstime.
  eapply runs_bind; [apply (runs_silent (λ _ evs, evs = [])); [eauto with driver | done] |]. intros start evs ->.
  eapply runs_bind; [apply commands_loop_prints |]. intros [[stop p] lk'] evs K. cbn in K. destruct stop as [err |].
  - apply runs_ret. cbn. destruct K as (k & -> & K). exists (k `min` length commands)%nat. split; [| done].
    unfold rounds_of. cbn. rewrite List.map_app, app_nil_r, take_app_le by (rewrite List.length_map; lia).
    destruct (decide (k <= length commands)%nat).
    + f_equal. lia.
    + rewrite !take_ge; rewrite ?List.length_map; try done; lia.
  - eapply runs_bind; [apply (runs_silent (λ _ evs, evs = [])); [eauto with driver | done] |]. intros finish evs' ->.
    eapply runs_bind; [apply (runs_silent (λ _ evs, evs = [])); [| done] |].
    { destruct (_ >? _); eauto with driver. }
    intros _ evs' ->. eapply runs_weaken; [apply IH |]. intros [stop lk2] evs' K'. cbn in *. by apply some_lines_next.
Qed.

(** The end of [HandleExecuteEvent]. *)
Lemma finish_posts sender res lk : lk_receiver lk = sender →
  runs posted_ (λ _ evs, ∃ me e2, evs = (sender, ResponceEvent me res) :: e2 ∧ calm sender e2)
    ((reply_responce sender res;; NotifyProgress sender 100);; RootLocker_delete lk : D unit).
Proof.
  intros <-. eapply (runs_bind _ (λ _ evs, ∃ me e2, evs = (lk_receiver lk, ResponceEvent me res) :: e2 ∧ calm (lk_receiver lk) e2)).
  - eapply (runs_bind _ (λ _ evs, ∃ me, evs = [(lk_receiver lk, ResponceEvent me res)])).
    + intros d [] d' [= <-]. exists [(lk_receiver lk, ResponceEvent (id_ d) res)]. eauto.
    + intros [] evs (me & ->). eapply runs_weaken; [apply calmly_NotifyProgress |]. intros [] evs Cl. cbn. eauto.
  - intros [] evs (me & e2 & -> & Cl). eapply runs_weaken; [apply calmly_RootLocker_delete |]. intros [] evs Cl'.
    exists me, (e2 ++ evs). split; [done | by apply calm_app].
Qed.

(** What the response of [HandleExecuteEvent] says of the commands that were logged meanwhile. *)
Definition executed lines (res : Responce SI) (evs : list bytes) : Prop :=
  ∃ k, evs = take k (List.map StableCommand lines) ∧ (errorInfo res = None → (length lines <= k)%nat).

Lemma execute_lines d d' sender ev text repeat interval history silence :
  ei_info ev = ExecuteInfoRequest text repeat interval history silence →
  text ≠ [] → Tokenize text (lit nl) ≠ [] →
  HandleExecuteEvent sender ev d = Val (tt, d') →
  ∃ res evs e1 me e2, executed (rounds_of (Z.to_nat (u64 (repeat + 1))) (Tokenize text (lit nl))) res evs ∧
    printed d' = printed d ++ evs ∧
    posted_ d' = posted_ d ++ e1 ++ (sender, ResponceEvent me res) :: e2 ∧ calm sender e1 ∧ calm sender e2.
Proof.
  intros K N1 N2. unfold HandleExecuteEvent. rewrite K. intros E. apply bind_inv in E as ([] & d1 & E1 & E).
  rewrite bool_decide_false in E by done. destruct (Tokenize text _) as [| c cs]; [done |].
  apply bind_inv in E as (lk & d2 & E2 & E). apply bind_inv in E as ([stop lk'] & d3 & E3 & E).
  pose proof (rooted_RootLocker sender text silence _ _ _ _ E2) as (p2 & P2 & C2 & R2).
  pose proof (rooted_repeat_loop sender silence _ _ interval _ _ _ R2 _ _ _ E3) as (p3 & P3 & C3 & R3). cbn in R3.
  pose proof (calmly_NotifyProgress sender 0 _ _ _ E1) as (p1 & P1 & C1).
  pose proof (finish_posts sender _ _ R3 _ _ _ E) as (p4 & P4 & me & e2 & -> & C4).
  pose proof (repeat_loop_prints sender silence _ _ interval _ _ _ _ _ _ E3) as (l3 & L3 & k & -> & S3). cbn in S3.
  assert (L4 : printed d' = printed d3).
  { revert E. apply (silent_bind printed (λ _, RootLocker_delete lk')); [| intros _; eauto with driver].
    apply silent_bind; eauto with driver. }
  exists (match stop with Some err => setErrorInfo err (new_Responce ev) | None => new_Responce ev end).
  exists (take k (List.map StableCommand (rounds_of (Z.to_nat (u64 (repeat + 1))) (c :: cs)))), (p1 ++ p2 ++ p3), me, e2.
  split; [exists k; split; [done |] | split; [| split]].
  - destruct stop; [| done]. by destruct S3 as [e ->].
  - rewrite L4, L3. by rewrite (silent_RootLocker _ _ _ _ _ _ _ E2), (silent_NotifyProgress _ _ _ _ _ E1).
  - rewrite P4, P3, P2, P1. by rewrite <- !(assoc (++)).
  - eauto using calm_app.
Qed.
End Exec.
