(* ===== verification/DriverHistory.v ===== *)
(** The log of a driver: what [timerEvent] writes is what the history reads. *)
From Stdlib Require Import Ascii String ZArith Lia.
From stdpp Require Import base list relations.
From S2P Require Import Prelude Common Texts Values Connection SdsArgs Commands Configs RedisReply RedisModes Translators ConnectionTypes ConnSettings Events DriverBase Driver DriverProps.
Local Open Scope Z_scope.
Local Open Scope driver_scope.
#[local] Set Warnings "-register-all".

(** * Files and times *)

(** [content] is what is in the file at a path, [rest] what is left of a file that is read.  A read at the
    end finds the end; a line that ends with a newline does not. *)
Class FileLaws {U F R : Type} `{!DriverEnv U F R} := {
  content : bytes → U → option bytes;
  file_path : F → bytes;
  rest : R → bytes;
  content_mstime p u : content p (env_mstime u).2 = content p u;
  opened_mstime f u : File_isOpened f (env_mstime u).2 = File_isOpened f u;
  content_create_directory p dir u : content p (fs_create_directory dir u).2 = content p u;
  path_new p : file_path (File_new p) = p;
  closed_new p u : File_isOpened (File_new p) u = false;
  open_append f u f' u' : File_open_append f u = (f', u') → file_path f' = file_path f ∧
    (File_isOpened f' u' = true → content (file_path f) u' = Some (default [] (content (file_path f) u))) ∧
    (File_isOpened f' u' = false → content (file_path f) u' = content (file_path f) u);
  write_flush f a b u c : File_isOpened f u = true → content (file_path f) u = Some c →
    content (file_path f) (File_flush f (File_write f b (File_write f a u))) = Some (c ++ a ++ b);
  open_read p u c : content p u = Some c →
    ∃ r, File_open_read p u = Some r ∧ rest r = c ∧ File_isEof r = false ∧ (length (List.filter (Ascii.eqb chr_nl) c) < File_lines r)%nat;
  readLine_end r : rest r = [] → (File_readLine r).1.1 = false;
  readLine_line r l t : rest r = l ++ chr_nl :: t → chr_nl ∉ l →
    ∃ r', File_readLine r = (true, l ++ [chr_nl], r') ∧ rest r' = t ∧ File_isEof r' = false
}.
Arguments FileLaws U F R {_}.

Class TimeLaws `{TimeLib} : Prop := {
  FromBytes_ToString_time t : 0 < t < 2 ^ 63 → FromBytes_time (ToString_time t) = t;
  ToString_time_line t : chr_nl ∉ ToString_time t
}.

(** * Reading *)

Section Reading.
Context `{SettingsLib} {C SI U F R : Type} `{!DriverConn C} `{!DriverEnv U F R} `{!FileLaws U F R}
  `{!DriverVirtuals C SI U F} `{!TimeLib} `{!TimeLaws}.
Local Abbreviation driver := (IDriver C SI U F).

(** Lines without the mark of a stamp at their beginning. *)
Definition plain_line (l : bytes) : Prop := (chr_nl ∉ l) ∧ (head l ≠ Some stamp_magicNumber).
Definition text_of (lines : list bytes) : bytes := List.concat (List.map (λ l, l ++ [chr_nl]) lines).
Definition good_entry (e : Z * list bytes) : Prop := 0 < e.1 < 2 ^ 63 ∧ Forall plain_line e.2.
Definition entry_text (e : Z * list bytes) : bytes := createStamp e.1 ++ text_of e.2.

Lemma getStamp_stamp t : 0 < t < 2 ^ 63 → getStamp (createStamp t) = Some t.
Proof.
  intros Ht. unfold getStamp, createStamp. rewrite Ascii.eqb_refl, last_snoc, Ascii.eqb_refl, removelast_last.
  rewrite FromBytes_ToString_time by done. by destruct (Z.eqb_spec t 0); [lia |].
Qed.
Lemma getStamp_plain l : plain_line l → getStamp (l ++ [chr_nl]) = None.
Proof.
  intros [_ Hd]. destruct l as [| c l]; [done |]. cbn. destruct (Ascii.eqb_spec c stamp_magicNumber) as [-> |]; [done | done].
Qed.

Lemma stamp_line t : createStamp t = (stamp_magicNumber :: ToString_time t) ++ [chr_nl] ∧ chr_nl ∉ stamp_magicNumber :: ToString_time t.
Proof. split; [done |]. apply not_elem_of_cons. split; [done | apply ToString_time_line]. Qed.

Definition newlines (s : bytes) : nat := length (List.filter (Ascii.eqb chr_nl) s).
Lemma newlines_app s s' : newlines (s ++ s') = (newlines s + newlines s')%nat.
Proof. unfold newlines. by rewrite List.filter_app, length_app. Qed.
Lemma text_of_cons l lines : text_of (l :: lines) = l ++ chr_nl :: text_of lines.
Proof. unfold text_of. cbn. by rewrite <- (assoc (++)). Qed.
Lemma newlines_text lines : (length lines <= newlines (text_of lines))%nat.
Proof.
  induction lines as [| l lines IH]; [cbn; lia |]. rewrite text_of_cons, newlines_app. unfold newlines in *. cbn in *. lia.
Qed.

(** Lines of a text go to what has been collected. *)
Lemma history_lines lines : ∀ fuel file cur data infos t,
  Forall plain_line lines → rest file = text_of lines ++ t → File_isEof file = false →
  ∃ file', history_loop (C := C) (SI := SI) (F := F) (length lines + fuel) file cur data infos
           = history_loop fuel file' cur (data ++ text_of lines) infos
         ∧ rest file' = t ∧ File_isEof file' = false.
Proof.
  induction lines as [| l lines IH]; intros fuel file cur data infos t G Hr He.
  { exists file. cbn. by rewrite app_nil_r. }
  apply Forall_cons in G as [G1 G]. rewrite text_of_cons in *. rewrite <- (assoc (++)) in Hr. cbn in Hr.
  destruct (readLine_line file l _ Hr (proj1 G1)) as (r1 & Rd & Hr1 & He1).
  destruct (IH fuel r1 cur (data ++ l ++ [chr_nl]) infos t G Hr1 He1) as (file' & E & Hr' & He').
  exists file'. split; [| done]. cbn [length Nat.add history_loop]. rewrite He, Rd, He1, getStamp_plain by done. cbn.
  rewrite E. by rewrite <- !(assoc (++)).
Qed.

(** What the history makes of the entries of a log. *)
Definition read_back (e : Z * list bytes) : outcome (ServerInfoSnapShoot SI) :=
  info ← MakeServerInfoFromString (C := C) (U := U) (F := F) (text_of e.2); Val (mkSnapShoot e.1 info).
Fixpoint read_entries (es : list (Z * list bytes)) : outcome (list (ServerInfoSnapShoot SI)) :=
  match es with [] => Val [] | e :: es => s ← read_back e; ss ← read_entries es; Val (s :: ss) end.

Lemma add_snapshot_entry e infos : good_entry e →
  add_snapshot (C := C) (U := U) (F := F) e.1 (text_of e.2) infos = s ← read_back e; Val (infos ++ [s]).
Proof.
  intros [G _]. unfold add_snapshot, read_back. destruct (Z.eqb_spec e.1 0); [lia |].
  by destruct (MakeServerInfoFromString (text_of e.2)).
Qed.

Definition lines_of (es : list (Z * list bytes)) : nat := sum_list_with (λ e, S (length e.2)) es.

(** From the middle of an entry whose lines have been collected. *)
Lemma history_entries es : ∀ fuel file e infos ss,
  Forall good_entry es → good_entry e → rest file = List.concat (List.map entry_text es) → File_isEof file = false →
  (lines_of es < fuel)%nat → read_entries (e :: es) = Val ss →
  history_loop (C := C) (SI := SI) (F := F) fuel file e.1 (text_of e.2) infos = Val (infos ++ ss).
Proof.
  induction es as [| e' es IH]; intros fuel file e infos ss Gs G Hr He Hf Hs.
  - destruct fuel as [| fuel]; [cbn in Hf; lia |]. cbn [history_loop]. rewrite He.
    pose proof (readLine_end file Hr) as Rd. destruct (File_readLine file) as [[res data] file']. cbn in Rd. subst res. cbn.
    rewrite add_snapshot_entry by done. cbn in Hs. destruct (read_back e) as [s |]; [| done]. by injection Hs as <-.
  - apply Forall_cons in Gs as [[G1 G2] Gs]. destruct fuel as [| fuel]; [cbn in Hf; lia |]. cbn [history_loop]. rewrite He.
    destruct (stamp_line e'.1) as [Sl Sn]. cbn [List.map List.concat] in Hr. unfold entry_text in Hr at 1.
    rewrite Sl in Hr. rewrite <- !(assoc (++)) in Hr. cbn [app] in Hr.
    destruct (readLine_line file (_ :: ToString_time e'.1) _ Hr Sn) as (r1 & Rd & Hr1 & He1). rewrite Rd, He1. cbn [negb orb].
    rewrite <- Sl, getStamp_stamp by done. rewrite add_snapshot_entry by done.
    cbn [read_entries] in Hs. destruct (read_back e) as [s |]; [| done]. cbn [mbind outcome_bind] in Hs |- *.
    unfold lines_of in Hf. cbn in Hf. fold (lines_of es) in Hf.
    destruct (history_lines e'.2 (fuel - length e'.2) r1 e'.1 [] (infos ++ [s]) _ G2 Hr1 He1) as (r2 & E2 & Hr2 & He2).
    replace (length e'.2 + (fuel - length e'.2))%nat with fuel in E2 by lia. cbn. rewrite E2. cbn [app].
    destruct (read_entries (e' :: es)) as [ss' |] eqn:Es; cbn in Hs; rewrite ?Es in Hs; [| by cbn in Es; rewrite Es in Hs].
    rewrite (IH _ _ _ _ ss'); try done; [| lia]. cbn in Es. rewrite Es in Hs. injection Hs as <-. by rewrite <- (assoc (++)).
Qed.

Lemma newlines_entries es : (lines_of es <= newlines (List.concat (List.map entry_text es)))%nat.
Proof.
  induction es as [| e es IH]; [cbn; lia |]. change (List.concat _) with (entry_text e ++ List.concat (List.map entry_text es)).
  unfold entry_text at 1. rewrite !newlines_app, (proj1 (stamp_line e.1)), newlines_app. pose proof (newlines_text e.2).
  unfold lines_of in *. change (newlines [chr_nl]) with 1%nat. cbn. lia.
Qed.

(** The history of a log. *)
Lemma history_file es r ss : Forall good_entry es → rest r = List.concat (List.map entry_text es) → File_isEof r = false →
  (newlines (rest r) < File_lines r)%nat → read_entries es = Val ss →
  history_loop (C := C) (SI := SI) (F := F) (S (File_lines r)) r 0 [] [] = Val ss.
Proof.
  intros G Hr He Hf Hs. pose proof (newlines_entries es) as Hl. rewrite <- Hr in Hl. cbn [history_loop]. rewrite He. destruct es as [| e es].
  - pose proof (readLine_end r Hr) as Rd. destruct (File_readLine r) as [[res data] r']. cbn in Rd. subst res. cbn.
    by injection Hs as <-.
  - apply Forall_cons in G as [[G1 G2] G]. destruct (stamp_line e.1) as [Sl Sn]. cbn [List.map List.concat] in Hr.
    unfold entry_text in Hr at 1. rewrite Sl in Hr. rewrite <- !(assoc (++)) in Hr. cbn [app] in Hr.
    destruct (readLine_line r (_ :: ToString_time e.1) _ Hr Sn) as (r1 & Rd & Hr1 & He1). rewrite Rd, He1. cbn [negb orb].
    rewrite <- Sl, getStamp_stamp by done. cbn [add_snapshot Z.eqb mbind outcome_bind].
    unfold lines_of in Hl. cbn in Hl. fold (lines_of es) in Hl.
    destruct (history_lines e.2 (File_lines r - length e.2) r1 e.1 [] [] _ G2 Hr1 He1) as (r2 & E2 & Hr2 & He2).
    replace (length e.2 + (File_lines r - length e.2))%nat with (File_lines r) in E2 by lia. cbn. rewrite E2.
    apply (history_entries es _ _ e []); try done. lia.
Qed.
End Reading.

(** * Writing *)

Section Writing.
Context `{SettingsLib} {C SI U F R : Type} `{!DriverConn C} `{!DriverEnv U F R} `{!FileLaws U F R}
  `{CommonLib} `{!CommonRedis} `{!ConfigLib} `{!Project} `{!DriverVirtuals C SI U F} `{!TimeLib} `{!TimeLaws}.
Local Abbreviation driver := (IDriver C SI U F).
Local Abbreviation D := (D C SI U F).
Implicit Types (d : driver) (sender : QObject) (ev : EventInfo).

(** The informations that were told with their times. *)
Definition shots d : list (ServerInfoSnapShoot SI) :=
  omap (λ s, match s with SnapShootTaken shot => Some shot | _ => None end) (emitted_ d).
Definition log_view d := (env_ d, log_file_ d, settings_ d, shots d).

#[export] Instance log_view_view : View log_view.
Proof.
  repeat split; try done. intros s d L. unfold log_view, shots. cbn. rewrite omap_app. destruct s; try done; by rewrite app_nil_r.
Qed.
Lemma silent_log_LOG_COMMAND o : silent log_view (LOG_COMMAND o : D unit).
Proof.
  unfold LOG_COMMAND. destruct (value_ o); eauto with driver. apply silent_modify. intros d. unfold log_view, shots. cbn.
  by rewrite omap_app, app_nil_r.
Qed.
Lemma silent_log_Execute cmd : silent log_view (Execute cmd : D (Error * option FastoObject)).
Proof.
  unfold Execute. destruct cmd as [o |]; [| eauto with driver]. destruct (c_strornull _); [| eauto with driver].
  apply silent_bind; [apply silent_log_LOG_COMMAND |]. intros _. apply silent_bind; [eauto with driver |].
  intros [args |]; [| eauto with driver]. apply silent_bind; eauto with driver.
Qed.

(** Finding out about the server does not touch the log. *)
Class InfoQuiet : Prop := silent_log_info : silent log_view (CurrentServerInfo : D (Error * option SI)).
Context `{!InfoQuiet}.

(** The log at a path, and the file of the driver on it. *)
Definition good_log (path : bytes) (lo : option F) (u : U) (text : bytes) : Prop :=
  default [] (content path u) = text ∧
  ∀ f, lo = Some f → file_path f = path ∧ (File_isOpened f u = true → is_Some (content path u)).

(** [es] are in the log. *)
Definition entry_of (shot : ServerInfoSnapShoot SI) (e : Z * list bytes) : Prop :=
  ss_msec shot = e.1 ∧ ∃ i, ss_info shot = Some i ∧ SI_ToString (C := C) (U := U) (F := F) i = text_of e.2.
Record logged d (es : list (Z * list bytes)) : Prop := {
  lg_shots : Forall2 entry_of (shots d) es;
  lg_log : good_log (LoggingPath (settings_ d)) (log_file_ d) (env_ d) (List.concat (List.map entry_text es))
}.

Lemma good_log_append path f u f' u' text : good_log path (Some f) u text → File_open_append f u = (f', u') →
  good_log path (Some f') u' text.
Proof.
  intros [Gc Gf] E. destruct (Gf f eq_refl) as [<- _]. destruct (open_append _ _ _ _ E) as (P & O & N). split.
  - destruct (File_isOpened f' u') eqn:Ho; [by rewrite O | by rewrite N].
  - intros g [= <-]. split; [done |]. intros Ho. rewrite O by done. by eexists.
Qed.

(** The log after [open_log] is the log before, and the file can be written. *)
Lemma create_log_spec d lo d' text : good_log (LoggingPath (settings_ d)) (log_file_ d) (env_ d) text →
  create_log d = Val (lo, d') →
  good_log (LoggingPath (settings_ d)) lo (env_ d') text ∧ settings_ d' = settings_ d ∧ shots d' = shots d.
Proof.
  intros G. unfold create_log, logging_path, bind, gets, on_env, ret. destruct (log_file_ d) as [f |]; [by intros [= <- <-] |].
  cbn. destruct (fs_create_directory _ (env_ d)) as [er u1] eqn:Ec. cbn. intros [= <- <-]. split; [| done]. cbn.
  pose proof (content_create_directory (LoggingPath (settings_ d)) (fs_dir_path (LoggingPath (settings_ d))) (env_ d)) as Cc.
  rewrite Ec in Cc. cbn in Cc. destruct G as [Gc Gf]. split; [by rewrite Cc |].
  intros f. destruct (fs_is_directory _ u1); [| done]. intros [= <-]. split; [apply path_new |]. by rewrite closed_new.
Qed.
Lemma open_log_spec d lo d' text : good_log (LoggingPath (settings_ d)) (log_file_ d) (env_ d) text →
  open_log d = Val (lo, d') →
  good_log (LoggingPath (settings_ d)) (log_file_ d') (env_ d') text ∧ settings_ d' = settings_ d ∧ shots d' = shots d ∧
  ∀ f, lo = Some f → log_file_ d' = Some f ∧ File_isOpened f (env_ d') = true.
Proof.
  intros G E. unfold open_log in E. apply bind_inv in E as (lg & d1 & E1 & E).
  destruct (create_log_spec _ _ _ _ G E1) as (G1 & S1 & Sh1). rewrite <- S1, <- Sh1 in *. clear G E1 S1 Sh1 d. revert E.
  unfold bind, gets, on_env, modify, ret. cbn. destruct lg as [f |].
  - destruct (File_isOpened f (env_ d1)) eqn:Ho; cbn.
    + rewrite Ho. intros [= <- <-]. cbn. split; [exact G1 | split; [done | split; [done |]]]. by intros g [= <-].
    + destruct (File_open_append f (env_ d1)) as [f' u'] eqn:Ea. cbn.
      intros E. pose proof (good_log_append _ _ _ _ _ _ G1 Ea) as G2.
      destruct (File_isOpened f' u') eqn:Ho'; injection E as <- <-; cbn; (split; [exact G2 | split; [done | split; [done |]]]).
      * by intros g [= <-].
      * done.
  - intros [= <- <-]. cbn. by split; [exact G1 |].
Qed.

(** One [timerEvent] takes no snapshot, or one whose information is in the log after those before. *)
Lemma timerEvent_logs id d d' text : good_log (LoggingPath (settings_ d)) (log_file_ d) (env_ d) text →
  timerEvent id d = Val (tt, d') → settings_ d' = settings_ d ∧
  (good_log (LoggingPath (settings_ d)) (log_file_ d') (env_ d') text ∧ shots d' = shots d ∨
   ∃ t i, good_log (LoggingPath (settings_ d)) (log_file_ d') (env_ d') (text ++ createStamp t ++ SI_ToString (C := C) (U := U) (F := F) i) ∧
     shots d' = shots d ++ [mkSnapShoot t (Some i)]).
Proof.
  intros G E. unfold timerEvent in E. do 3 apply bind_inv in E as (? & ? & [= <- <-] & E).
  destruct (_ && _ && _); [| injection E as <-; auto].
  apply bind_inv in E as (lo & d1 & E1 & E). destruct (open_log_spec _ _ _ _ G E1) as (G1 & S1 & Sh1 & Fl).
  rewrite <- S1, <- Sh1 in *. clear G E1 S1 Sh1 d.
  destruct lo as [f |]; [| injection E as <-; auto]. destruct (Fl f eq_refl) as [Lf Ho].
  apply bind_inv in E as (t & d2 & E2 & E). apply bind_inv in E as ([er info] & d3 & E3 & E).
  assert (Vw : log_view d3 = log_view d2) by (by eapply silent_log_info). injection Vw as Ve Vl Vs Vsh.
  unfold current_mstime, on_env in E2. destruct (env_mstime (env_ d1)) as [t' u2] eqn:Et. injection E2 as -> <-. cbn in *.
  assert (G2 : good_log (LoggingPath (settings_ d1)) (Some f) u2 text).
  { destruct G1 as [Gc Gf]. pose proof (content_mstime (LoggingPath (settings_ d1)) (env_ d1)) as Cm.
    pose proof (opened_mstime f (env_ d1)) as Om. rewrite Et in Cm, Om. cbn in *. split; [by rewrite Cm |].
    intros g [= <-]. rewrite Om, Cm. by apply Gf. }
  assert (Ho2 : File_isOpened f u2 = true) by (pose proof (opened_mstime f (env_ d1)) as Om; rewrite Et in Om; cbn in Om; by rewrite Om).
  destruct (isError er); [injection E as <-; rewrite Vs, Ve, Vl, Lf, Vsh; auto |].
  destruct info as [i |]; [| done]. cbn in E. injection E as <-. cbn. rewrite Vs, Ve, Vl, Lf. split; [done |]. right.
  exists t, i. destruct G2 as [Gc Gf]. destruct (Gf f eq_refl) as [Gp Gi]. destruct (Gi Ho2) as [c Hc].
  rewrite <- Gp in Hc |- *. pose proof (write_flush f (createStamp t) (SI_ToString (C := C) (U := U) (F := F) i) u2 c Ho2 Hc) as Wf.
  split.
  - split; [rewrite Wf; cbn; rewrite <- Gc, <- Gp, Hc; done |]. intros g [= <-]. split; [done |]. intros _. rewrite Wf. by eexists.
  - unfold shots at 1. cbn. rewrite omap_app. cbn. f_equal. exact Vsh.
Qed.

Definition ticks d d' : Prop := ∃ id, timerEvent id d = Val (tt, d').

(** An information whose text is lines without the mark of a stamp. *)
Definition good_shot (shot : ServerInfoSnapShoot SI) : Prop := ∃ e, entry_of shot e ∧ good_entry e.

Lemma tick_logged d es d' : ticks d d' → logged d es → Forall good_entry es → Forall good_shot (shots d') →
  ∃ es', logged d' es' ∧ Forall good_entry es'.
Proof.
  intros [id Tk] [Ls Lg] G S. destruct (timerEvent_logs _ _ _ _ Lg Tk) as [St [[G' Sh] | (t & i & G' & Sh)]].
  - exists es. split; [split; rewrite ?Sh, ?St |]; done.
  - rewrite Sh in S. apply Forall_app in S as [_ S]. apply Forall_cons in S as [(e & Ee & Ge) _].
    exists (es ++ [e]). split; [| apply Forall_app_2; [done | by apply Forall_singleton]]. destruct Ee as [Et (j & [= <-] & Ej)]. cbn in Et.
    split; rewrite ?Sh, ?St.
    + apply Forall2_app; [done |]. repeat constructor; cbn; [done |]. by exists i.
    + rewrite List.map_app, List.concat_app. cbn. unfold entry_text. rewrite <- Et, <- Ej, app_nil_r. exact G'.
Qed.
Lemma tick_shots d d' text : ticks d d' → good_log (LoggingPath (settings_ d)) (log_file_ d) (env_ d) text →
  shots d `prefix_of` shots d' ∧ ∃ text', good_log (LoggingPath (settings_ d')) (log_file_ d') (env_ d') text'.
Proof.
  intros [id Tk] Lg. destruct (timerEvent_logs _ _ _ _ Lg Tk) as [St [[G' Sh] | (t & i & G' & Sh)]]; rewrite Sh, St.
  - eauto.
  - split; [by apply prefix_app_r | eauto].
Qed.

Lemma ticks_shots d d' text : rtc ticks d d' → good_log (LoggingPath (settings_ d)) (log_file_ d) (env_ d) text →
  shots d `prefix_of` shots d'.
Proof.
  intros T. revert text. induction T as [d | d d1 d' Tk T IH]; intros text Lg; [done |].
  destruct (tick_shots _ _ _ Tk Lg) as [P [text' Lg']]. etransitivity; [exact P | by eapply IH].
Qed.
Lemma ticks_logged d d' : rtc ticks d d' → ∀ es, logged d es → Forall good_entry es → Forall good_shot (shots d') →
  ∃ es', logged d' es' ∧ Forall good_entry es'.
Proof.
  induction 1 as [d | d d1 d' Tk T IH]; intros es L G S; [eauto |].
  destruct (tick_shots _ _ _ Tk (lg_log _ _ L)) as [_ [text' Lg']].
  destruct (tick_logged _ _ _ Tk L G) as (es1 & L1 & G1).
  - destruct (ticks_shots _ _ _ T Lg') as [k Ek]. rewrite Ek in S. by apply Forall_app in S as [S _].
  - by eapply IH.
Qed.

(** What the history says of a snapshot: its information is read from its text. *)
Definition told (shot : ServerInfoSnapShoot SI) : outcome (ServerInfoSnapShoot SI) :=
  match ss_info shot with
  | Some i => x ← MakeServerInfoFromString (C := C) (U := U) (F := F) (SI_ToString (C := C) (U := U) (F := F) i);
              Val (mkSnapShoot (ss_msec shot) x)
  | None => Fault NullPointer
  end.
Fixpoint tell (l : list (ServerInfoSnapShoot SI)) : outcome (list (ServerInfoSnapShoot SI)) :=
  match l with [] => Val [] | shot :: l => s ← told shot; ss ← tell l; Val (s :: ss) end.

Lemma tell_entries l es : Forall2 entry_of l es → tell l = read_entries es.
Proof.
  induction 1 as [| shot e l es [Em (i & Ei & Et)] _ IH]; [done |]. cbn. unfold told, read_back. by rewrite Ei, Et, Em, IH.
Qed.

(** After any number of [timerEvent]s, starting without a log, the history is what was told meanwhile. *)
Lemma history_told d0 d1 sender ev ss :
  shots d0 = [] → good_log (LoggingPath (settings_ d0)) (log_file_ d0) (env_ d0) [] → rtc ticks d0 d1 →
  shots d1 ≠ [] → Forall good_shot (shots d1) → tell (shots d1) = Val ss →
  HandleLoadServerInfoHistoryEvent sender ev d1 =
  Val (tt, with_out (posted_ d1 ++ [(sender, ResponceEvent (id_ d1) (set_info (ServerInfoHistoryResponce ss) (new_Responce ev)))])
             (emitted_ d1) (roots_ d1) d1).
Proof.
  intros S0 G0 T N G E.
  destruct (ticks_logged d0 d1 T []) as (es & [Ls [Lc _]] & Ge); [split; [by rewrite S0 | exact G0] | done | done |].
  rewrite (tell_entries _ _ Ls) in E.
  assert (Hc : content (LoggingPath (settings_ d1)) (env_ d1) = Some (List.concat (List.map entry_text es))).
  { destruct (content _ _); cbn in Lc; [by rewrite Lc |]. destruct es as [| e es]; [by apply Forall2_nil_inv_r in Ls |].
    by cbn in Lc. }
  destruct (open_read _ _ _ Hc) as (r & Ro & Rr & Re & Rl).
  unfold HandleLoadServerInfoHistoryEvent, bind, gets, logging_path, lift, ret. cbn -[history_loop]. rewrite Ro.
  cbn -[history_loop]. rewrite (history_file es r ss); try done. by rewrite Rr.
Qed.
End Writing.
