(* ===== verification/Server.v ===== *)
(** The server objects and what is between them and their drivers: [core/server/iserver.cpp],
    [core/database/idatabase.cpp], the [server.cpp] of the databases, and the two queues of events. *)
From Stdlib Require Import Ascii String ZArith Lia.
From stdpp Require Import base list.
From S2P Require Import Prelude Common Texts Values Connection Configs RedisReply Translators ConnectionTypes ServerInfo RedisInfo ConnSettings Events DriverBase Driver.
Local Open Scope Z_scope.
#[local] Set Warnings "-register-all".

(** * Signals

    [Started] is the signal [...Started] of the request, [Finished] the signal [...Finished] of the response. *)
Inductive server_signal (SI : Type) :=
| Started (req : EventInfo)
| Finished (res : Responce SI)
| ProgressChanged (progress : Z)
| ModeEntered (mode : ConnectionMode)
| ModeLeaved (mode : ConnectionMode) (er : Error)
| RootCreated (root : nat)
| RootCompleated (root : nat) (tree : FastoObject)
| LOG_ERROR (er : Error).
Arguments Started {SI} _.
Arguments Finished {SI} _.
Arguments ProgressChanged {SI} _.
Arguments ModeEntered {SI} _.
Arguments ModeLeaved {SI} _ _.
Arguments RootCreated {SI} _.
Arguments RootCompleated {SI} _ _.
Arguments LOG_ERROR {SI} _.

(** What a server does of its own when the informations have come: [X] are the members that its class adds. *)
Class ServerVirtuals (X SI : Type) := {
  on_discovery : Responce SI → X → outcome X
}.

(** A server, its driver, and the events that are posted to them and not yet delivered. *)
Record system `{SettingsLib} (X C SI U F : Type) := mkSystem {
  srv_id : QObject;
  databases_ : list IDataBaseInfoSPtr;
  srv_members : X;
  srv_signals : list (server_signal SI);
  drv_ : IDriver C SI U F;
  drv_queue : list (qevent SI);
  srv_queue : list (qevent SI)
}.
Arguments mkSystem {_ X C SI U F} _ _ _ _ _ _ _.
Arguments srv_id {_ X C SI U F} _.
Arguments databases_ {_ X C SI U F} _.
Arguments srv_members {_ X C SI U F} _.
Arguments srv_signals {_ X C SI U F} _.
Arguments drv_ {_ X C SI U F} _.
Arguments drv_queue {_ X C SI U F} _.
Arguments srv_queue {_ X C SI U F} _.

Section Server.
Context `{SettingsLib} {X C SI U F R : Type} `{!DriverConn C} `{!DriverEnv U F R} `{!DriverVirtuals C SI U F}
  `{!ServerVirtuals X SI} `{CommonLib} `{!CommonRedis} `{!ConfigLib} `{!Project} `{!TimeLib}.
Local Abbreviation driver := (IDriver C SI U F).
Local Abbreviation system := (system X C SI U F).
Implicit Types (s : system) (req : EventInfo) (res : Responce SI).

(** Updates. *)
Definition with_databases (dbs : list IDataBaseInfoSPtr) s : system :=
  mkSystem (srv_id s) dbs (srv_members s) (srv_signals s) (drv_ s) (drv_queue s) (srv_queue s).
Definition with_members (x : X) s : system :=
  mkSystem (srv_id s) (databases_ s) x (srv_signals s) (drv_ s) (drv_queue s) (srv_queue s).
Definition with_driver (d : driver) s : system :=
  mkSystem (srv_id s) (databases_ s) (srv_members s) (srv_signals s) d (drv_queue s) (srv_queue s).
Definition with_queues (dq sq : list (qevent SI)) s : system :=
  mkSystem (srv_id s) (databases_ s) (srv_members s) (srv_signals s) (drv_ s) dq sq.
Definition signal_ (sig : server_signal SI) s : system :=
  mkSystem (srv_id s) (databases_ s) (srv_members s) (srv_signals s ++ [sig]) (drv_ s) (drv_queue s) (srv_queue s).

(** A change of a shared database information; a null pointer fails. *)
Definition update_info (f : IDataBaseInfo → IDataBaseInfo) (p : option IDataBaseInfoSPtr) s : outcome system :=
  match p with
  | None => Fault NullPointer
  | Some p =>
    let d := drv_ s in
    match infos_ d !! p with
    | None => Fault NullPointer
    | Some info =>
      Val (with_driver (with_infos (server_info_ d) (current_database_info_ d) (<[p := f info]> (infos_ d)) d) s)
    end
  end.

(** ** Members without events *)

Definition StopCurrentEvent s : system :=
  with_driver (with_impl (impl_SetInterrupted true (impl_ (drv_ s))) (drv_ s)) s.
Definition IsConnected s : bool := impl_IsConnected (impl_ (drv_ s)) && impl_IsAuthenticated (impl_ (drv_ s)).

Definition info_name s (p : IDataBaseInfoSPtr) : option bytes := name_ <$> infos_ (drv_ s) !! p.

(** The types of the server and of the informations, which come from its driver, are equal. *)
Definition ContainsDatabase (inf : option IDataBaseInfoSPtr) s : bool :=
  match inf with
  | None => false
  | Some inf => existsb (λ db, bool_decide (info_name s db = info_name s inf)) (databases_ s)
  end.
(** The information the database object is made of, if one is made. *)
Definition CreateDatabaseByInfo (inf : option IDataBaseInfoSPtr) s : option IDataBaseInfoSPtr :=
  if ContainsDatabase inf s then inf else None.

(** ** Requests *)

(** [notify] *)
Definition notify (ev : qevent SI) s : system :=
  let s := signal_ (ProgressChanged (ProgressInfoResponce 0)) s in
  with_queues (drv_queue s ++ [ev]) (srv_queue s) s.
Definition started_request req s : system :=
  notify (RequestEvent (srv_id s) req) (signal_ (Started req) s).

Definition Connect := started_request.
Definition Disconnect req s : system := started_request req (StopCurrentEvent s).
Definition LoadDatabases := started_request.
Definition LoadDatabaseContent := started_request.
Definition SetDefaultDB := started_request.
Definition ClearDB := started_request.
Definition Execute := started_request.
Definition ShutDown := started_request.
Definition BackupToPath := started_request.
Definition ExportFromPath := started_request.
Definition ChangePassword := started_request.
Definition SetMaxConnection := started_request.
Definition LoadServerInfo := started_request.
Definition ServerProperty := started_request.
Definition RequestHistoryInfo := started_request.
Definition ClearHistory := started_request.
Definition ChangeProperty := started_request.
Definition ProcessConfigArgs req s : system := notify (RequestEvent (srv_id s) req) s.
Definition ProcessDiscoveryInfo := started_request.

(** The members that others call. *)
Definition async_method req : option (system → system) :=
  match ei_info req with
  | ConnectInfoRequest => Some (Connect req)
  | DisConnectInfoRequest => Some (Disconnect req)
  | LoadDatabasesInfoRequest => Some (LoadDatabases req)
  | LoadDatabaseContentRequest _ _ _ _ => Some (LoadDatabaseContent req)
  | SetDefaultDatabaseRequest _ => Some (SetDefaultDB req)
  | ClearDatabaseRequest _ => Some (ClearDB req)
  | ExecuteInfoRequest _ _ _ _ _ => Some (Execute req)
  | ShutDownInfoRequest => Some (ShutDown req)
  | BackupInfoRequest _ => Some (BackupToPath req)
  | ExportInfoRequest _ => Some (ExportFromPath req)
  | ChangePasswordRequest _ _ => Some (ChangePassword req)
  | ChangeMaxConnectionRequest _ => Some (SetMaxConnection req)
  | ServerInfoRequest => Some (LoadServerInfo req)
  | ServerPropertyInfoRequest => Some (ServerProperty req)
  | ServerInfoHistoryRequest => Some (RequestHistoryInfo req)
  | ClearServerHistoryRequest => Some (ClearHistory req)
  | ChangeServerPropertyInfoRequest _ => Some (ChangeProperty req)
  | ProcessConfigArgsInfoRequest | DiscoveryInfoRequest => None
  end.

(** ** Database objects

    An [IDatabase] is the server and an information; what is asked of it goes to the server.  That a request is
    for this information is only asserted. *)
Definition IDatabase_Name (inf : IDataBaseInfoSPtr) s : option bytes := info_name s inf.
Definition IDatabase_IsDefault (inf : IDataBaseInfoSPtr) s : option bool := is_default_ <$> infos_ (drv_ s) !! inf.
Definition IDatabase_LoadContent := LoadDatabaseContent.
Definition IDatabase_SetDefault := SetDefaultDB.
Definition IDatabase_Execute := Execute.
Definition IDatabase_RemoveAllKeys := ClearDB.

(** ** Responses *)

Definition log_error (er : Error) s : system := if isError er then signal_ (LOG_ERROR er) s else s.

(** The handlers that log the error and tell that the request is done. *)
Definition finished res s : system := signal_ (Finished res) (log_error (errorInfo res) s).
Definition HandleConnectEvent := finished.
Definition HandleDisconnectEvent := finished.
Definition HandleLoadServerInfoEvent := finished.
Definition HandleLoadServerPropertyEvent := finished.
Definition HandleServerPropertyChangeEvent := finished.
Definition HandleShutdownEvent := finished.
Definition HandleBackupEvent := finished.
Definition HandleExportEvent := finished.
Definition HandleChangePasswordEvent := finished.
Definition HandleChangeMaxConnectionEvent := finished.
Definition HandleExecuteEvent := finished.
Definition HandleLoadServerInfoHistoryEvent := finished.
Definition HandleClearServerHistoryResponceEvent := finished.
Definition HandleEnterModeEvent (mode : ConnectionMode) s : system := signal_ (ModeEntered mode) s.
Definition HandleLeaveModeEvent (mode : ConnectionMode) (er : Error) s : system :=
  signal_ (ModeLeaved mode er) (log_error er s).
Definition HandleDiscoveryInfoResponceEvent res s : outcome system :=
  x ← on_discovery res (srv_members s);
  Val (finished res (with_members x s)).

(** The databases that are not there by name are added. *)
Definition add_databases (dbs : list IDataBaseInfoSPtr) s : system :=
  foldl (λ s db, if ContainsDatabase (Some db) s then s else with_databases (databases_ s ++ [db]) s) s dbs.
Definition HandleLoadDatabaseInfosEvent res (dbs : list IDataBaseInfoSPtr) s : system :=
  let er := errorInfo res in
  let s := if isError er then with_databases [] (log_error er s) else add_databases dbs s in
  signal_ (Finished res) s.

Definition HandleLoadDatabaseContentEvent res (inf : option IDataBaseInfoSPtr) (keys : list NDbKValue) (db_keys_count : Z) s
    : outcome system :=
  let er := errorInfo res in
  s ← (if isError er then Val (log_error er s)
       else if ContainsDatabase inf s then update_info (λ i, SetDBKeysCount (SetKeys i keys) db_keys_count) inf s
       else Val s);
  Val (signal_ (Finished res) s).

Definition HandleClearDatabaseEvent res (inf : option IDataBaseInfoSPtr) s : outcome system :=
  let er := errorInfo res in
  s ← (if isError er then Val (log_error er s)
       else if ContainsDatabase inf s then update_info ClearKeys inf s else Val s);
  Val (signal_ (Finished res) s).

Fixpoint clear_defaults (dbs : list IDataBaseInfoSPtr) s : outcome system :=
  match dbs with
  | [] => Val s
  | db :: dbs => s ← update_info (λ i, SetIsDefault i false) (Some db) s; clear_defaults dbs s
  end.
Definition HandleSetDefaultDatabaseEvent res (inf : option IDataBaseInfoSPtr) s : outcome system :=
  let er := errorInfo res in
  s ← (if isError er then Val (log_error er s)
       else s ← clear_defaults (databases_ s) s; update_info (λ i, SetIsDefault i true) inf s);
  Val (signal_ (Finished res) s).

(** The time of a request that the server makes itself. *)
Definition now_ s : Z * system :=
  let d := drv_ s in
  let '(t, o) := env_mstime (env_ d) in (t, with_driver (with_env o d) s).

(** When connected, the server asks for the informations and for what the configuration says. *)
Definition after_connect res s : system :=
  match errorInfo res with
  | Some _ => s
  | None =>
    let '(t, s) := now_ s in
    let s := ProcessDiscoveryInfo (EventInfoBase (srv_id s) t no_error DiscoveryInfoRequest) s in
    let '(t, s) := now_ s in
    ProcessConfigArgs (EventInfoBase (srv_id s) t no_error ProcessConfigArgsInfoRequest) s
  end.

(** The members of the two responses that are looked at; the kind of an event gives the kind of its value. *)
Definition res_databases res : list IDataBaseInfoSPtr :=
  match rs_info res with LoadDatabasesInfoResponce dbs => dbs | _ => [] end.
Definition res_content res : list NDbKValue * Z :=
  match rs_info res with LoadDatabaseContentResponce keys _ n => (keys, n) | _ => ([], 0) end.

(** [customEvent] of a response: there is no case for the answer to [ShutDown] (its handler is never called),
    nor for the answer to [ProcessConfigArgs]. *)
Definition handle_responce res s : outcome system :=
  match ei_info (rs_request res) with
  | ConnectInfoRequest => Val (after_connect res (HandleConnectEvent res s))
  | DisConnectInfoRequest => Val (HandleDisconnectEvent res s)
  | LoadDatabasesInfoRequest => Val (HandleLoadDatabaseInfosEvent res (res_databases res) s)
  | ServerInfoRequest => Val (HandleLoadServerInfoEvent res s)
  | ServerInfoHistoryRequest => Val (HandleLoadServerInfoHistoryEvent res s)
  | ClearServerHistoryRequest => Val (HandleClearServerHistoryResponceEvent res s)
  | ServerPropertyInfoRequest => Val (HandleLoadServerPropertyEvent res s)
  | ChangeServerPropertyInfoRequest _ => Val (HandleServerPropertyChangeEvent res s)
  | BackupInfoRequest _ => Val (HandleBackupEvent res s)
  | ExportInfoRequest _ => Val (HandleExportEvent res s)
  | ChangePasswordRequest _ _ => Val (HandleChangePasswordEvent res s)
  | ChangeMaxConnectionRequest _ => Val (HandleChangeMaxConnectionEvent res s)
  | LoadDatabaseContentRequest inf _ _ _ =>
    HandleLoadDatabaseContentEvent res inf (res_content res).1 (res_content res).2 s
  | ClearDatabaseRequest inf => HandleClearDatabaseEvent res inf s
  | SetDefaultDatabaseRequest inf => HandleSetDefaultDatabaseEvent res inf s
  | ExecuteInfoRequest _ _ _ _ _ => Val (HandleExecuteEvent res s)
  | DiscoveryInfoRequest => HandleDiscoveryInfoResponceEvent res s
  | ShutDownInfoRequest | ProcessConfigArgsInfoRequest => Val s
  end.

Definition IServer_customEvent (event : qevent SI) s : outcome system :=
  match event with
  | ResponceEvent _ res => handle_responce res s
  | EnterModeEvent _ _ mode => Val (HandleEnterModeEvent mode s)
  | LeaveModeEvent _ _ mode er => Val (HandleLeaveModeEvent mode er s)
  | CommandRootCreatedEvent _ _ root => Val (signal_ (RootCreated root) s)
  | CommandRootCompleatedEvent _ _ root tree => Val (signal_ (RootCompleated root tree) s)
  | ProgressResponceEvent _ p => Val (signal_ (ProgressChanged p) s)
  | RequestEvent _ _ => Val s
  end.

(** * The threads

    What the driver has posted goes to its receivers: to the queue of the server, which sends all requests. *)
Definition collect (d : driver) s : system :=
  let new := omap (λ p, if bool_decide (p.1 = srv_id s) then Some p.2 else None) (posted_ d) in
  with_queues (drv_queue s) (srv_queue s ++ new) (with_driver (with_out [] (emitted_ d) (roots_ d) d) s).

Inductive step : system → system → Prop :=
| step_request req f s : async_method req = Some f → step s (f s)
| step_driver ev q s d :
    drv_queue s = ev :: q →
    customEvent ev (drv_ s) = Val (tt, d) →
    step s (collect d (with_queues q (srv_queue s) s))
| step_timer id s d :
    timerEvent id (drv_ s) = Val (tt, d) →
    step s (collect d s)
| step_server ev q s s' :
    srv_queue s = ev :: q →
    IServer_customEvent ev (with_queues (drv_queue s) q s) = Val s' →
    step s s'.
End Server.

(** * The servers of the databases *)

(** [DBServer] of every database but Redis: nothing is added. *)
#[export] Instance plain_server {SI} : ServerVirtuals unit SI := {| on_discovery _ x := Val x |}.

Module RedisServer.
(** [role_] and [mode_] of [redis::Server]. *)
Record Server := mkServer { role_ : serverTypes; mode_ : serverMode }.
Definition new : Server := mkServer MASTER STANDALONE.

(** A text that is none of the known ones leaves the member as it is. *)
Definition HandleDiscoveryInfo `{InfoLib} (res : Responce RedisInfo.ServerInfo) (s : Server) : outcome Server :=
  match errorInfo res with
  | Some _ => Val s
  | None =>
    match rs_info res with
    | DiscoveryInfoResponce (Some rinf) _ =>
      let role := RedisInfo.role_ (RedisInfo.replication_ rinf) in
      let mode := RedisInfo.redis_mode_ (RedisInfo.server_ rinf) in
      let s := if bool_decide (role = lit "master") then mkServer MASTER (mode_ s)
               else if bool_decide (role = lit "slave") then mkServer SLAVE (mode_ s) else s in
      Val (if bool_decide (mode = lit "standalone") then mkServer (role_ s) STANDALONE
           else if bool_decide (mode = lit "sentinel") then mkServer (role_ s) SENTINEL
           else if bool_decide (mode = lit "cluster") then mkServer (role_ s) CLUSTER else s)
    | _ => Fault CheckFailed
    end
  end.
#[export] Instance redis_server `{InfoLib} : ServerVirtuals Server RedisInfo.ServerInfo :=
  {| on_discovery := HandleDiscoveryInfo |}.
End RedisServer.
