(* ===== verification/ServerProps.v ===== *)
(** The requests of a server and their answers, over the two queues. *)
From Stdlib Require Import Ascii String ZArith Lia.
From stdpp Require Import base list relations.
From S2P Require Import Prelude Common Texts Values Connection Configs RedisReply Translators ConnectionTypes ConnSettings Events DriverBase Driver DriverProps Server.
Local Open Scope Z_scope.
#[local] Set Warnings "-register-all".

Section Queues.
Context `{SettingsLib} {X C SI U F R : Type} `{!DriverConn C} `{!DriverEnv U F R} `{!DriverVirtuals C SI U F}
  `{!DriverAnswers C SI U F} `{!ServerVirtuals X SI} `{CommonLib} `{!CommonRedis} `{!ConfigLib} `{!Project} `{!TimeLib}.
Local Abbreviation driver := (IDriver C SI U F).
Local Abbreviation system := (system X C SI U F).
Implicit Types (s : system) (d : driver) (v req : EventInfo) (res : Responce SI).

(** The requests whose end is signalled: there is no signal for the arguments of the configuration, and the
    one for [ShutDown] is never emitted. *)
Definition tracked v : bool :=
  match ei_info v with ProcessConfigArgsInfoRequest | ShutDownInfoRequest => false | _ => true end.
Definition track v : list EventInfo := if tracked v then [anon v] else [].

Definition of_signal (started : bool) (sig : server_signal SI) : list EventInfo :=
  match sig with
  | Started req => if started then track req else []
  | Finished res => if started then [] else track (rs_request res)
  | _ => []
  end.
Definition of_event (ev : qevent SI) : list EventInfo :=
  match ev with RequestEvent _ v => track v | ResponceEvent _ res => track (rs_request res) | _ => [] end.

Definition started_ s : list EventInfo := List.flat_map (of_signal true) (srv_signals s).
Definition finished_ s : list EventInfo := List.flat_map (of_signal false) (srv_signals s).
Definition answered_ s : list EventInfo := List.flat_map of_event (srv_queue s).
Definition waiting_ s : list EventInfo := List.flat_map of_event (drv_queue s).

Definition is_request s (ev : qevent SI) : Prop := match ev with RequestEvent sender _ => sender = srv_id s | _ => False end.

(** Nothing has been asked for yet. *)
Definition fresh s : Prop := srv_signals s = [] ∧ drv_queue s = [] ∧ srv_queue s = [] ∧ posted_ (drv_ s) = [].

Record in_order s : Prop := {
  io_requests : started_ s = finished_ s ++ answered_ s ++ waiting_ s;
  io_queue : Forall (is_request s) (drv_queue s);
  io_posted : posted_ (drv_ s) = []
}.

Lemma anon_info v v' : anon v = anon v' → ei_info v = ei_info v'.
Proof. by destruct v, v'; intros [= -> -> ->]. Qed.
Lemma track_anon v v' : anon v = anon v' → track v = track v'.
Proof. intros E. unfold track, tracked. by rewrite E, (anon_info _ _ E). Qed.

(** ** What the driver posts *)

Definition to_server s (evs : list (QObject * qevent SI)) : list (qevent SI) :=
  omap (λ p, if bool_decide (p.1 = srv_id s) then Some p.2 else None) evs.

Lemma to_server_app s evs evs' : to_server s (evs ++ evs') = to_server s evs ++ to_server s evs'.
Proof. apply omap_app. Qed.
Lemma of_events_app (evs evs' : list (qevent SI)) :
  List.flat_map of_event (evs ++ evs') = List.flat_map of_event evs ++ List.flat_map of_event evs'.
Proof. apply List.flat_map_app. Qed.

Lemma calm_events s evs : calm (srv_id s) evs → List.flat_map of_event (to_server s evs) = [].
Proof.
  intros Cl. induction Cl as [| [r ev] evs [E K] Cl IH]; [done |]. cbn in *. rewrite bool_decide_true by done.
  destruct ev; try done; exact IH.
Qed.
Lemma answer_events s v evs : answer (srv_id s) v evs → List.flat_map of_event (to_server s evs) = track v.
Proof.
  intros (e1 & me & res & e2 & -> & C1 & C2 & E). rewrite to_server_app, of_events_app, (calm_events _ _ C1).
  cbn. rewrite bool_decide_true by done. cbn. fold (to_server s e2). rewrite (calm_events _ _ C2), app_nil_r.
  by apply track_anon.
Qed.

(** What a request makes the driver post, in the queue of the server. *)
Lemma driver_answers s d d' v : posted_ d = [] → customEvent (RequestEvent (srv_id s) v) d = Val (tt, d') →
  List.flat_map of_event (to_server s (posted_ d')) = track v.
Proof.
  intros P E. assert (D : ei_info v = ProcessConfigArgsInfoRequest ∨ ei_info v ≠ ProcessConfigArgsInfoRequest)
    by (destruct (ei_info v); auto). destruct D as [K | K].
  - assert (T : track v = []) by (unfold track, tracked; by rewrite K). rewrite T.
    unfold customEvent in E. unfold bind, SetInterrupted, modify in E. unfold handle_request in E. rewrite K in E.
    apply config_answers in E as (evs & P' & [Cl | An]); cbn in P'; rewrite P', P.
    + by apply calm_events.
    + etransitivity; [exact (answer_events _ _ _ An) | exact T].
  - destruct (customEvent_answers _ _ K _ _ _ E) as (evs & P' & An). rewrite P', P. by apply answer_events.
Qed.
Lemma timer_answers s d d' id : posted_ d = [] → timerEvent id d = Val (tt, d') → posted_ d' = [].
Proof. intros P E. by rewrite (silent_timerEvent _ _ _ _ E). Qed.

(** ** What the server does *)

(** The signals and queues of [s'] against those of [s]: [e] requests have ended, [b] have begun. *)
Record moves (e b : list EventInfo) s s' : Prop := {
  mv_started : started_ s' = started_ s ++ b;
  mv_finished : finished_ s' = finished_ s ++ e;
  mv_queue : srv_queue s' = srv_queue s;
  mv_waiting : waiting_ s' = waiting_ s ++ b;
  mv_requests : Forall (is_request s) (drv_queue s) → Forall (is_request s') (drv_queue s');
  mv_posted : posted_ (drv_ s') = posted_ (drv_ s);
  mv_ends res : Finished res ∈ srv_signals s' → Finished res ∈ srv_signals s ∨ tracked (rs_request res) = true
}.
Lemma moves_trans e b e' b' s s' s'' : moves e b s s' → moves e' b' s' s'' → moves (e ++ e') (b ++ b') s s''.
Proof.
  intros [S1 F1 A1 W1 R1 P1 N1] [S2 F2 A2 W2 R2 P2 N2].
  split; [| | | | by auto | congruence | intros res I; destruct (N2 _ I); auto]; rewrite ?S2, ?F2, ?A2, ?W2, ?S1, ?F1, ?A1, ?W1; by rewrite ?(assoc (++)).
Qed.
Lemma moves_refl s : moves [] [] s s.
Proof. split; rewrite ?app_nil_r; auto. Qed.

Lemma moves_first e b s s' s'' : moves [] [] s s' → moves e b s' s'' → moves e b s s''.
Proof. apply moves_trans. Qed.
Lemma moves_last e b s s' s'' : moves e b s s' → moves [] [] s' s'' → moves e b s s''.
Proof. intros M M'. rewrite <- (app_nil_r e), <- (app_nil_r b). by eapply moves_trans. Qed.

(** Only the driver and the list of databases change. *)
Lemma moves_same s s' :
  srv_id s' = srv_id s → srv_signals s' = srv_signals s → drv_queue s' = drv_queue s → srv_queue s' = srv_queue s →
  posted_ (drv_ s') = posted_ (drv_ s) → moves [] [] s s'.
Proof.
  intros I S D Q P. split; unfold started_, finished_, waiting_, is_request;
    rewrite ?I, ?S, ?D, ?Q, ?P, ?app_nil_r; auto.
Qed.
(** A signal that begins no request, and ends one only if that is signalled. *)
Definition no_start (sig : server_signal SI) : Prop :=
  match sig with Started _ => False | Finished res => tracked (rs_request res) = true | _ => True end.
Lemma moves_signal sig s : no_start sig → moves (of_signal false sig) [] s (signal_ sig s).
Proof.
  intros N. assert (E : of_signal true sig = []) by by destruct sig.
  split; unfold started_, finished_; cbn; rewrite ?List.flat_map_app, ?app_nil_r; cbn; rewrite ?E, ?app_nil_r; try done.
  intros res [I | I%list_elem_of_singleton]%elem_of_app; [by left |]. right. by subst sig.
Qed.
Lemma moves_log_error er s : moves [] [] s (log_error er s).
Proof. unfold log_error. destruct (isError er); [by apply (moves_signal (LOG_ERROR er)) | apply moves_refl]. Qed.
Lemma moves_end res s s' : tracked (rs_request res) = true →
  moves [] [] s s' → moves (track (rs_request res)) [] s (signal_ (Finished res) s').
Proof. intros T M. eapply moves_first; [exact M | by apply (moves_signal (Finished res))]. Qed.
Lemma moves_finished res s : tracked (rs_request res) = true → moves (track (rs_request res)) [] s (finished res s).
Proof. intros T. apply moves_end; [done | apply moves_log_error]. Qed.
Lemma ends_kept s (l : list (server_signal SI)) : Forall (λ sig, ∀ res, sig ≠ Finished res) l →
  ∀ res, Finished res ∈ srv_signals s ++ l → Finished res ∈ srv_signals s ∨ tracked (rs_request res) = true.
Proof.
  intros N res [I | I]%elem_of_app; [by left |]. apply list_elem_of_lookup in I as [i I].
  by destruct (proj1 (Forall_lookup _ _) N _ _ I res).
Qed.
Lemma moves_notify req s : tracked req = false → moves [] [] s (notify (RequestEvent (srv_id s) req) s).
Proof.
  intros T. assert (T' : track req = []) by (unfold track; by rewrite T).
  split; unfold started_, finished_, waiting_; cbn; rewrite ?List.flat_map_app, ?app_nil_r; cbn; rewrite ?T', ?app_nil_r; try done.
  - intros Q. apply Forall_app_2; [exact Q | by repeat constructor].
  - apply ends_kept. by repeat constructor.
Qed.
Lemma moves_started req s : moves [] (track req) s (started_request req s).
Proof.
  split; unfold started_, finished_, waiting_; cbn; rewrite ?List.flat_map_app, ?app_nil_r; cbn; rewrite ?app_nil_r; try done.
  - intros Q. apply Forall_app_2; [exact Q | by repeat constructor].
  - cbn. rewrite <- app_assoc. apply ends_kept. by repeat constructor.
Qed.

Lemma moves_method req f s : async_method req = Some f → moves [] (track req) s (f s).
Proof.
  unfold async_method. destruct (ei_info req); intros [= <-]; try apply moves_started.
  unfold Disconnect. eapply moves_first; [by apply (moves_same s (StopCurrentEvent s)) |].
  apply (moves_started req (StopCurrentEvent s)).
Qed.

Lemma moves_update_info f p s s' : update_info f p s = Val s' → moves [] [] s s'.
Proof.
  unfold update_info. destruct p as [p |]; [| done]. destruct (infos_ (drv_ s) !! p); [| done]. intros [= <-].
  by apply moves_same.
Qed.
Lemma moves_clear_defaults dbs : ∀ s s', clear_defaults dbs s = Val s' → moves [] [] s s'.
Proof.
  induction dbs as [| db dbs IH]; intros s s'; cbn [clear_defaults]; [intros [= <-]; apply moves_refl |].
  destruct (update_info _ _ s) as [s1 |] eqn:E; [| done]. intros E'. cbn in E'.
  eapply moves_first; [by eapply moves_update_info | by apply IH].
Qed.
Lemma moves_add_databases dbs : ∀ s, moves [] [] s (add_databases dbs s).
Proof.
  induction dbs as [| db dbs IH]; intros s; [apply moves_refl |]. cbn.
  eapply moves_first; [| apply IH]. destruct (existsb _ _); [apply moves_refl | by apply moves_same].
Qed.
Lemma moves_now s t s' : now_ s = (t, s') → moves [] [] s s'.
Proof. unfold now_. destruct (env_mstime _) as [t' o]. intros [= _ <-]. by apply moves_same. Qed.
Lemma moves_after_connect res s : ∃ b, moves [] b s (after_connect res s).
Proof.
  unfold after_connect. destruct (errorInfo res); [exists []; apply moves_refl |].
  destruct (now_ s) as [t s1] eqn:E1.
  match goal with |- context [now_ ?x] => destruct (now_ x) as [t2 s2] eqn:E2 end.
  exists (track (EventInfoBase (srv_id s1) t no_error DiscoveryInfoRequest)).
  eapply moves_first; [by eapply moves_now |].
  eapply moves_last; [apply (moves_started _ s1) |].
  eapply moves_first; [by eapply moves_now | by apply moves_notify].
Qed.

Lemma handle_responce_moves res s s' : handle_responce res s = Val s' → ∃ b, moves (track (rs_request res)) b s s'.
Proof.
  unfold handle_responce. destruct (ei_info (rs_request res)) eqn:K.
  all: try (assert (T : tracked (rs_request res) = true) by (unfold tracked; by rewrite K)).
  all: try (intros [= <-]; exists []; by apply moves_finished).
  - intros [= <-]. destruct (moves_after_connect res (HandleConnectEvent res s)) as [b M]. exists b.
    rewrite <- (app_nil_r (track _)). eapply (moves_trans _ []); [by apply moves_finished | exact M].
  - intros [= <-]. exists []. unfold track, tracked. rewrite K. apply moves_refl.
  - intros [= <-]. exists []. unfold track, tracked. rewrite K. apply moves_refl.
  - unfold HandleDiscoveryInfoResponceEvent. destruct (on_discovery res (srv_members s)) as [x |]; [| done]. intros [= <-].
    exists []. eapply moves_first; [by apply (moves_same s (with_members x s)) | by apply moves_finished].
  - intros [= <-]. exists []. unfold HandleLoadDatabaseInfosEvent. apply moves_end; [done |]. destruct (isError _); [| apply moves_add_databases].
    eapply moves_first; [apply moves_log_error | by apply moves_same].
  - unfold HandleLoadDatabaseContentEvent. destruct (isError _).
    + intros [= <-]. exists []. apply moves_end; [done | apply moves_log_error].
    + destruct (ContainsDatabase _ s); [| intros [= <-]; exists []; (apply moves_end; [done | apply moves_refl])].
      destruct (update_info _ _ s) as [s1 |] eqn:E; [| done]. intros [= <-]. exists []. apply moves_end; [done |]. by eapply moves_update_info.
  - unfold HandleClearDatabaseEvent. destruct (isError _).
    + intros [= <-]. exists []. apply moves_end; [done | apply moves_log_error].
    + destruct (ContainsDatabase _ s); [| intros [= <-]; exists []; (apply moves_end; [done | apply moves_refl])].
      destruct (update_info _ _ s) as [s1 |] eqn:E; [| done]. intros [= <-]. exists []. apply moves_end; [done |]. by eapply moves_update_info.
  - unfold HandleSetDefaultDatabaseEvent. destruct (isError _).
    + intros [= <-]. exists []. apply moves_end; [done | apply moves_log_error].
    + destruct (clear_defaults _ s) as [s1 |] eqn:E1; [| done]. cbn.
      destruct (update_info _ _ s1) as [s2 |] eqn:E2; [| done]. intros [= <-]. exists []. apply moves_end; [done |].
      eapply moves_first; [by eapply moves_clear_defaults | by eapply moves_update_info].
Qed.
Lemma IServer_customEvent_moves ev s s' : IServer_customEvent ev s = Val s' → (∀ sender v, ev ≠ RequestEvent sender v) →
  ∃ b, moves (of_event ev) b s s'.
Proof.
  destruct ev; cbn; intros E N; try (injection E as <-; exists []).
  - by destruct (N sender value).
  - by apply handle_responce_moves.
  - by apply (moves_signal (ProgressChanged _)).
  - by apply (moves_signal (ModeEntered _)).
  - eapply moves_first; [apply moves_log_error | by apply (moves_signal (ModeLeaved _ _))].
  - by apply (moves_signal (RootCreated _)).
  - by apply (moves_signal (RootCompleated _ _)).
Qed.

(** ** All of it *)

Definition is_asking (ev : qevent SI) : bool := match ev with RequestEvent _ _ => true | _ => false end.
Definition only_answers : list (qevent SI) → Prop := Forall (λ ev, is_asking ev = false).

Lemma calm_only s evs : calm (srv_id s) evs → only_answers (to_server s evs).
Proof.
  intros Cl. induction Cl as [| [r ev] evs [E K] Cl IH]; [constructor |]. cbn in *. rewrite bool_decide_true by done.
  constructor; [by destruct ev | exact IH].
Qed.
Lemma answer_only s v evs : answer (srv_id s) v evs → only_answers (to_server s evs).
Proof.
  intros (e1 & me & res & e2 & -> & C1 & C2 & E). rewrite to_server_app. apply Forall_app_2; [by apply calm_only |].
  cbn. rewrite bool_decide_true by done. constructor; [done | by apply calm_only].
Qed.
Lemma driver_only s d d' v : posted_ d = [] → customEvent (RequestEvent (srv_id s) v) d = Val (tt, d') →
  only_answers (to_server s (posted_ d')).
Proof.
  intros P E. assert (D : ei_info v = ProcessConfigArgsInfoRequest ∨ ei_info v ≠ ProcessConfigArgsInfoRequest)
    by (destruct (ei_info v); auto). destruct D as [K | K].
  - unfold customEvent, bind, SetInterrupted, modify, handle_request in E. rewrite K in E.
    apply config_answers in E as (evs & P' & [Cl | An]); cbn in P'; rewrite P', P; [by apply calm_only | by eapply answer_only].
  - destruct (customEvent_answers _ _ K _ _ _ E) as (evs & P' & An). rewrite P', P. by eapply answer_only.
Qed.

Record orderly s : Prop := {
  or_order : in_order s;
  or_answers : only_answers (srv_queue s);
  or_ends res : Finished res ∈ srv_signals s → tracked (rs_request res) = true
}.

Lemma fresh_orderly s : fresh s → orderly s.
Proof.
  intros (S & D & Q & P). split; [| rewrite Q; constructor | rewrite S; by intros res I%not_elem_of_nil].
  split; unfold started_, finished_, answered_, waiting_; rewrite ?S, ?D, ?Q; [done | constructor | done].
Qed.

Lemma collect_orderly s q d evs :
  in_order s → only_answers (srv_queue s) → (∀ res, Finished res ∈ srv_signals s → tracked (rs_request res) = true) →
  posted_ d = evs →
  ∀ ev, drv_queue s = ev :: q → List.flat_map of_event (to_server s evs) = of_event ev → only_answers (to_server s evs) →
  orderly (collect d (with_queues q (srv_queue s) s)).
Proof.
  intros [E Q P] A N <- ev D An O. split; [split | |]; unfold started_, finished_, answered_, waiting_ in *; cbn.
  - rewrite E, D, of_events_app. cbn. change (omap _ (posted_ d)) with (to_server s (posted_ d)). rewrite An.
    by rewrite <- !(assoc (++)).
  - rewrite D in Q. by apply Forall_cons in Q as [_ Q].
  - done.
  - by apply Forall_app_2.
  - exact N.
Qed.

Lemma step_orderly s s' : step s s' → orderly s → orderly s'.
Proof.
  intros St [Or A N]. pose proof Or as [E Q P]. destruct St as [req f s K | ev q s d D E' | id s d E' | ev q s s' D E'].
  - destruct (moves_method _ _ s K) as [S1 F1 A1 W1 R1 P1 N1]. split; [split | |].
    + unfold answered_. rewrite S1, F1, A1, W1, E, app_nil_r. by rewrite <- !(assoc (++)).
    + by apply R1.
    + by rewrite P1.
    + by rewrite A1.
    + intros res I. destruct (N1 _ I); auto.
  - rewrite D in Q. apply Forall_cons in Q as [Q1 Q]. destruct ev as [sender v | | | | | |]; try done. cbn in Q1. subst sender.
    eapply collect_orderly; [done.. | by apply driver_answers with (d := drv_ s) | by eapply driver_only].
  - assert (Z : posted_ d = []) by (by eapply timer_answers). split; [split | |]; unfold answered_, collect; cbn; rewrite ?Z; cbn; rewrite ?app_nil_r; done.
  - rewrite D in A. apply Forall_cons in A as [A1 A].
    destruct (IServer_customEvent_moves _ _ _ E') as (b & [S1 F1 A2 W1 R1 P1 N1]); [by intros sender v -> |].
    split; [split | |].
    + unfold answered_. rewrite S1, F1, A2, W1. change (started_ (with_queues _ _ s)) with (started_ s). rewrite E.
      unfold answered_. rewrite D. cbn. by rewrite <- !(assoc (++)).
    + by apply R1.
    + by rewrite P1.
    + by rewrite A2.
    + intros res I. destruct (N1 _ I); auto.
Qed.
Lemma steps_orderly s s' : rtc step s s' → orderly s → orderly s'.
Proof. induction 1; eauto using step_orderly. Qed.
End Queues.

(** * Schedules

    The step relation, executed: a schedule says who moves next. *)
Inductive move := M_request (req : EventInfo) | M_driver | M_timer (id : Z) | M_server.

Section Schedules.
Context `{SettingsLib} {X C SI U F R : Type} `{!DriverConn C} `{!DriverEnv U F R} `{!DriverVirtuals C SI U F}
  `{!ServerVirtuals X SI} `{CommonLib} `{!CommonRedis} `{!ConfigLib} `{!Project} `{!TimeLib}.
Local Abbreviation system := (system X C SI U F).
Implicit Types (s : system).

Definition make_move (m : move) s : option system :=
  match m with
  | M_request req => f ← async_method req; Some (f s)
  | M_driver =>
    match drv_queue s with
    | ev :: q => match customEvent ev (drv_ s) with
                 | Val (_, d) => Some (collect d (with_queues q (srv_queue s) s)) | Fault _ => None end
    | [] => None
    end
  | M_timer id => match timerEvent id (drv_ s) with Val (_, d) => Some (collect d s) | Fault _ => None end
  | M_server =>
    match srv_queue s with
    | ev :: q => match IServer_customEvent ev (with_queues (drv_queue s) q s) with Val s' => Some s' | Fault _ => None end
    | [] => None
    end
  end.
Fixpoint follow (l : list move) s : option system :=
  match l with [] => Some s | m :: l => s ← make_move m s; follow l s end.

Lemma make_move_step m s s' : make_move m s = Some s' → step s s'.
Proof.
  unfold make_move. intros K. repeat (case_match; simplify_eq/=).
  - destruct (async_method req) as [f |] eqn:E; [| done]. injection K as <-. by eapply step_request.
  - match goal with u : unit |- _ => destruct u end. by eapply step_driver.
  - match goal with u : unit |- _ => destruct u end. by eapply step_timer.
  - by eapply step_server.
Qed.
Lemma follow_steps l : ∀ s s', follow l s = Some s' → rtc step s s'.
Proof.
  induction l as [| m l IH]; intros s s'; cbn; [by intros [= <-] |].
  destruct (make_move m s) as [s1 |] eqn:E; [| done]. intros K. eapply rtc_l; [by eapply make_move_step | by apply IH].
Qed.
End Schedules.
