(* ===== verification/DriverMemory.v ===== *)
(** What the explorer shows of a LevelDB store, the logs of the drivers, and surroundings in memory, at which the
    theorems on drivers and servers are tried out: files, times, and a LevelDB server with three records. *)
From Stdlib Require Import Ascii String ZArith Lia.
From stdpp Require Import base list relations strings gmap.
From S2P Require Import Prelude Common Texts Commands Values Connection Handlers KvTables KvApi Dispatch SdsArgs Sds Hiredis HiredisFormat HiredisReader HiredisContext Configs Translators SshInfo RedisReply RedisConn RedisModes ServerInfo ConnectionTypes RedisInfo StoreInfos InfoProps ConnSettings ConnSettingsProps NativeKv LsmConn LmdbConn UnqliteConn UpscaledbConn LsmProps NativeSessions SsdbClient SsdbConn MemcachedConn Events DriverBase Driver StoreDrivers RedisDriver DriverProps DriverLaws DriverHistory Server ServerProps.
Local Open Scope Z_scope.
Local Open Scope driver_scope.
#[local] Set Warnings "-register-all".

Section Content.
Context `{settings_lib : SettingsLib} {H W U F R : Type} `{!LsmLib H W} `{!LsmLaws H W} `{!NativeFiles W} `{!DriverEnv U F R}
  `{CommonLaws} `{CommonRedisLaws} `{!ConfigLib} `{!Project} `{!TimeLib} `{!ValueLib} `{!ValueLaws} `{!InfoLib}.
Local Abbreviation conn := (CDBConnection LocalConfig H W).
Local Abbreviation SI := LeveldbInfo.ServerInfo.
Local Abbreviation D := (D conn SI U F).
Local Abbreviation driver := (IDriver conn SI U F).
Implicit Types (d : driver) (sender : QObject) (ev : EventInfo) (c : conn).
#[local] Existing Instances LeveldbConn.traits LeveldbConn.impl LeveldbConn.kv LeveldbConn.flush LeveldbDriver.driver_conn.
Local Abbreviation opened := (open_at lsm_content).

Definition keys_words (n : Z) : list bytes := [lit "KEYS"; lit "a"; lit "z"; dec_int n].

Lemma keys_text n : MemSPrintf (lit "KEYS a z %d") [FInt n] = join_with [chr_sp] (keys_words n).
Proof. apply MemSPrintf_spec. cbn. by rewrite app_nil_r. Qed.
Lemma keys_words_plain n : forallb plain_word (keys_words n) = true.
Proof. cbn. by rewrite dec_int_plain. Qed.
Lemma keys_text_stable n : StableCommand (join_with [chr_sp] (keys_words n)) = join_with [chr_sp] (keys_words n).
Proof.
  unfold StableCommand.
  assert (P : forallb (λ x, negb (Ascii.eqb x chr_cr)) (join_with [chr_sp] (keys_words n)) = true).
  { change (join_with [chr_sp] (keys_words n)) with (lit "KEYS a z " ++ dec_int n). rewrite forallb_app. cbn.
    by apply dec_int_chars. }
  destruct (last _) as [x |] eqn:L; [| by apply last_None in L].
  apply last_Some_elem_of in L. rewrite forallb_forall in P. specialize (P x ltac:(by apply list_elem_of_In)).
  by destruct (Ascii.eqb x chr_cr).
Qed.
Lemma keys_line n c o : 0 <= n <= INT_MAX →
  @impl_Execute _ conn _ (argc_of (keys_words n)) (vec [] (keys_words n)) o c =
  let '(er, keysout, c) := LeveldbConn.Keys (lit "a") (lit "z") n [] c in
  match er with
  | None => Val (er, AddChildren o (new_FastoObjectArray (List.map VString keysout) (Delimiter c)), c)
  | Some _ => Val (er, o, c)
  end.
Proof.
  intros Hn. cbn [impl_Execute LeveldbDriver.driver_conn store_conn]. unfold keys_words.
  destruct (word_entry Leveldb.leveldbCommands "KEYS") as [cmd |] eqn:Hc; [| by vm_compute in Hc].
  rewrite (word_line LeveldbApi.run Leveldb.leveldbCommands cmd [] "KEYS" [lit "a"; lit "z"; dec_int n] (mkHst c o)); try done.
  - vm_compute in Hc. injection Hc as <-. cbn [LeveldbApi.run func_]. unfold LeveldbApi.keys, keys_body.
    cbn [mbind outcome_bind].
    assert (N : c_str (dec_int n) = dec_int n) by (apply c_str_no_nul, plain_word_no_nul, dec_int_plain).
    unfold aget_str. set (p := vec _ _).
    assert (A : aget p 0 = Val (lit "a") ∧ aget p 1 = Val (lit "z") ∧ aget p 2 = Val (dec_int n)) by done.
    destruct A as (-> & -> & ->). cbn -[c_str dec_int kv_Keys]. rewrite N, dec_int_nonneg, FromString_uint64_spec by (unfold INT_MAX in Hn; lia).
    change (c_str (lit "a")) with (lit "a"). change (c_str (lit "z")) with (lit "z").
    change (kv_Keys _ _ n [] c) with (LeveldbConn.Keys (lit "a") (lit "z") n [] c).
    destruct (LeveldbConn.Keys _ _ n [] c) as [[[er |] ks] c']; done.
  - by apply (bool_decide_unpack _).
  - by vm_compute in Hc; injection Hc as <-.
Qed.

(** ** The event *)

Definition shown (k : bytes) : NDbKValue := mkNDbKValue (new_NKey k) (Some (VString [])).

Lemma shown_keys ks : content_keys (List.map VString ks) = List.map shown ks.
Proof.
  unfold content_keys, shown. rewrite empty_string. induction ks as [| k ks IH]; [done |]. cbn. rewrite getAsString_string.
  cbn. by rewrite IH.
Qed.

(** The result of [DriverBase.Execute] on the command, and on the connection. *)
Lemma execute_keys n d m :
  0 <= n <= INT_MAX → opened m (impl_ d) → default [] (client_ (impl_ d)) = [] →
  ∃ er cmd d', DriverBase.Execute (CreateCommandFast (MemSPrintf (lit "KEYS a z %d") [FInt n]) C_INNER) d = Val ((er, Some cmd), d') ∧
    posted_ d' = posted_ d ∧ opened m (impl_ d') ∧ default [] (client_ (impl_ d')) = [] ∧
    if isError er then lsm_broken
    else ∃ dl, childrens_ cmd = [new_FastoObjectArray
                 (List.map VString (take (Z.to_nat n) (List.filter (in_range (lit "a") (lit "z")) (sorted_keys m)))) dl].
Proof.
  intros Hn Ho Hcl. rewrite keys_text. unfold CreateCommandFast. rewrite keys_text_stable.
  rewrite bool_decide_false by done. unfold DriverBase.Execute. cbn [InputCommand value_ new_FastoObject].
  rewrite c_strornull_text by done.
  unfold bind at 1. cbn [LOG_COMMAND value_ new_FastoObject]. unfold emit, modify.
  unfold lift, bind at 1. rewrite split_plain_words by apply keys_words_plain. cbn [mbind outcome_bind].
  unfold bind, on_impl, ret. cbn [impl_ with_out]. rewrite keys_line by done.
  destruct (LeveldbConn.Keys _ _ n [] (impl_ d)) as [[er ks] c'] eqn:Hk.
  destruct (lsm_Keys_range _ _ m (impl_ d) (lit "a") (lit "z") n er ks c' ltac:(lia) Ho Hk) as [-> Hr].
  assert (He : er = None ∨ isError er = true).
  { destruct (open_handle lsm_content m _ Ho) as (h & _ & _ & Hw). revert Hk. unfold LeveldbConn.Keys, lsm_Keys. rewrite Hw.
    destruct (lsm_keys_loop _ _ _ _ _) as [ret passed]. destruct (lsm_status _ _ _ _); intros [= <- _]; [right | by left].
    apply isError_make_error. }
  assert (Ho' : opened m (mkCDB (connection_ (impl_ d)) (interrupted_ (impl_ d)) ((λ _, []) <$> client_ (impl_ d)))).
  { destruct Ho as [Oc Oh]. by split. }
  destruct er as [e |]; cbn -[isError]; unfold client_take; rewrite Hcl; cbn -[isError].
  - destruct He as [He | He]; [done |]. do 3 eexists. split; [done |]. rewrite He in *. split; [done |]. split; [exact Ho' |].
    split; [by destruct (client_ (impl_ d)) | done].
  - do 3 eexists. split; [done |]. split; [done |]. split; [exact Ho' |]. split; [by destruct (client_ (impl_ d)) |].
    cbn in Hr |- *. rewrite Hr. by eexists.
Qed.

Lemma count_keys d m : opened m (impl_ d) → default [] (client_ (impl_ d)) = [] →
  ∃ err total d', on_impl (λ c, let '(err, n, c) := kv_DBkcount c in Val (err, n, c)) d = Val ((err, total), d') ∧
    posted_ d' = posted_ d ∧ opened m (impl_ d') ∧ (total = Z.of_nat (size m) ∨ lsm_broken).
Proof.
  intros Ho Hcl. unfold on_impl. cbn [kv_DBkcount LeveldbConn.kv].
  destruct (LeveldbConn.DBkcount (impl_ d)) as [[err total] c'] eqn:Hk.
  destruct (lsm_DBkcount_size _ _ m (impl_ d) err total c' Ho Hk) as [-> Hr]. cbn -[isError]. unfold client_take. rewrite Hcl.
  do 3 eexists. split; [done |]. split; [done |]. split; [destruct Ho as [Oc Oh]; by split |].
  destruct (isError err); auto.
Qed.

Lemma bind_val {A B} (f : A → D B) (mm : D A) d a d1 : mm d = Val (a, d1) → bind f mm d = f a d1.
Proof. intros E. unfold bind. by rewrite E. Qed.
Lemma notify_val r n d : ∃ d1, NotifyProgress r n d = Val (tt, d1) ∧ impl_ d1 = impl_ d ∧ ∃ e, posted_ d1 = posted_ d ++ e ∧ calm r e.
Proof. do 2 eexists; [done |]. split; [done |]. eexists. split; [done |]. by repeat constructor. Qed.
Lemma reply_val r (res : Responce SI) d : ∃ d1 me, reply_responce r res d = Val (tt, d1) ∧ impl_ d1 = impl_ d ∧
  posted_ d1 = posted_ d ++ [(r, ResponceEvent me res)].
Proof. by do 2 eexists. Qed.

(** The answer to the request for the content of a database. *)
Lemma content_shown m d sender ev inf pattern n cursor :
  ei_info ev = LoadDatabaseContentRequest inf pattern n cursor → 0 <= n <= INT_MAX →
  opened m (impl_ d) → default [] (client_ (impl_ d)) = [] →
  ∃ d' res e1 me e2, LeveldbDriver.HandleLoadDatabaseContentEvent sender ev d = Val (tt, d') ∧ opened m (impl_ d') ∧
    posted_ d' = posted_ d ++ e1 ++ (sender, ResponceEvent me res) :: e2 ∧ calm sender e1 ∧ calm sender e2 ∧
    (lsm_broken ∨
     res = set_info (LoadDatabaseContentResponce
             (List.map shown (take (Z.to_nat n) (List.filter (in_range (lit "a") (lit "z")) (sorted_keys m)))) 0
             (Z.of_nat (size m))) (new_Responce ev)).
Proof.
  set (the_content := set_info (LoadDatabaseContentResponce _ 0 _) _).
  intros K Hn Ho Hcl. unfold LeveldbDriver.HandleLoadDatabaseContentEvent, store_HandleLoadDatabaseContentEvent. rewrite K.
  destruct (notify_val sender 0 d) as (d1 & E1 & I1 & e1 & P1 & C1). rewrite (bind_val _ _ _ _ _ E1).
  destruct (notify_val sender 50 d1) as (d2 & E2 & I2 & e2 & P2 & C2). rewrite (bind_val _ _ _ _ _ E2).
  destruct (execute_keys n d2 m) as (er & cmd & d3 & E3 & P3 & O3 & Cl3 & R3); [done | by rewrite I2, I1 | by rewrite I2, I1 |].
  rewrite (bind_val _ _ _ _ _ E3).
  assert (M : ∃ res d4, (if isError er then ret (setErrorInfo er (new_Responce ev))
     else store_content_reply true (Some cmd) (new_Responce ev)) d3 = Val (res, d4) ∧ posted_ d4 = posted_ d3 ∧ opened m (impl_ d4) ∧
     (lsm_broken ∨ res = the_content)).
  { destruct (isError er); [by do 2 eexists; split; [done |]; eauto |]. destruct R3 as [dl Ch].
    destruct (count_keys d3 m O3 Cl3) as (err & total & d4 & E4 & P4 & O4 & T4).
    exists (set_info (LoadDatabaseContentResponce (content_keys (List.map VString (take (Z.to_nat n)
      (List.filter (in_range (lit "a") (lit "z")) (sorted_keys m))))) 0 total) (new_Responce ev)), d4.
    split; [| split; [done | split; [done |]]].
    - unfold store_content_reply. change (default (CreateRoot []) (Some cmd)) with cmd. rewrite Ch. cbn [as_array value_ new_FastoObjectArray].
      rewrite bool_decide_true by done. cbn [andb negb]. rewrite (bind_val _ _ _ tt d3) by done. by rewrite (bind_val _ _ _ _ _ E4).
    - destruct T4 as [-> | B]; [right; by rewrite shown_keys | by left]. }
  destruct M as (res & d4 & E4 & P4 & O4 & R4). cbn [default from_option]. rewrite (bind_val _ _ _ _ _ E4).
  destruct (notify_val sender 75 d4) as (d5 & E5 & I5 & e5 & P5 & C5). rewrite (bind_val _ _ _ _ _ E5).
  destruct (reply_val sender res d5) as (d6 & me & E6 & I6 & P6). rewrite (bind_val _ _ _ _ _ E6).
  destruct (notify_val sender 100 d6) as (d7 & E7 & I7 & e7 & P7 & C7).
  exists d7, res, (e1 ++ e2 ++ e5), me, e7. split; [exact E7 |]. split; [by rewrite I7, I6, I5 |].
  split; [by rewrite P7, P6, P5, P4, P3, P2, P1, <- !(assoc (++)) |]. eauto using calm_app.
Qed.
End Content.

Local Open Scope Z_scope.
Local Open Scope driver_scope.
#[local] Set Warnings "-register-all".

#[export] Hint Resolve silent_log_LOG_COMMAND silent_log_Execute : driver.

(** * Quiet drivers *)

Section Store.
Context `{settings_lib : SettingsLib} {Cfg H W SI U F R : Type} `{!ConnectionTraits Cfg H W} `{!CDBImpl Cfg H W}
  `{!KvOps Cfg H W} `{!DriverEnv U F R} `{CommonLib} `{!CommonRedis} `{!Project} `{!TimeLib} `{!ValueLib}.
Local Abbreviation conn := (CDBConnection Cfg H W).
Context `{!DriverConn conn}.

Lemma silent_log_store_info request (mk : kv_stats → SI) :
  silent log_view (store_CurrentServerInfo request mk : D conn SI U F _).
Proof. unfold store_CurrentServerInfo. repeat silent_step. Qed.
End Store.

Section Embedded.
Context `{settings_lib : SettingsLib} {H W U F R : Type} `{!NativeFiles W} `{!DriverEnv U F R}
  `{CommonLib} `{!CommonRedis} `{!ConfigLib} `{!Project} `{!TimeLib} `{!ValueLib} `{!InfoLib}.
#[export] Instance leveldb_quiet `{!LsmLib H W} raw : @InfoQuiet _ _ _ U F (LeveldbDriver.virtuals raw).
Proof. apply silent_log_store_info. Qed.
#[export] Instance rocksdb_quiet `{!LsmLib H W} raw cf : @InfoQuiet _ _ _ U F (RocksdbDriver.virtuals raw cf).
Proof. apply silent_log_store_info. Qed.
#[export] Instance lmdb_quiet {T} `{!LmdbLib H T W} raw : @InfoQuiet _ _ _ U F (LmdbDriver.virtuals raw).
Proof. apply silent_log_store_info. Qed.
#[export] Instance unqlite_quiet {C} `{!UnqliteLib H C W} raw : @InfoQuiet _ _ _ U F (UnqliteDriver.virtuals raw).
Proof. apply silent_log_store_info. Qed.
#[export] Instance upscaledb_quiet {DB C} `{!UpscaledbLib H DB C W} raw :
  @InfoQuiet _ _ _ U F (UpscaledbDriver.virtuals raw).
Proof. apply silent_log_store_info. Qed.
End Embedded.

Section Remote.
Context `{settings_lib : SettingsLib} {H W U F R : Type} `{!DriverEnv U F R}
  `{CommonLib} `{!CommonRedis} `{!ConfigLib} `{!Project} `{!TimeLib} `{!ValueLib} `{!InfoLib}.
#[export] Instance ssdb_quiet `{!SsdbLink H W} raw : @InfoQuiet _ _ _ U F (SsdbDriver.virtuals raw).
Proof. apply silent_log_store_info. Qed.
#[export] Instance memcached_quiet `{!MemcachedLib H W} raw : @InfoQuiet _ _ _ U F (MemcachedDriver.virtuals raw).
Proof. apply silent_log_store_info. Qed.
End Remote.

Section Redis.
Context `{settings_lib : SettingsLib} {N U F R : Type} `{!Network N} `{!RedisEnv N} `{!ModesEnv N} `{Alloc} `{Patience}
  `{CommonLib} `{!CommonRedis} `{!ConfigLib} `{!CNumbers} `{!Project} `{!Stack} `{!DriverEnv U F R} `{!TimeLib} `{!ValueLib}
  `{!InfoLib}.
#[local] Existing Instances RedisDriver.driver_conn RedisDriver.virtuals.
#[export] Instance redis_quiet :
  @InfoQuiet _ (CDBConnection RConfig redisContext (RWorld N)) RedisInfo.ServerInfo U F RedisDriver.virtuals.
Proof.
  unfold InfoQuiet. cbn. unfold RedisDriver.CurrentServerInfo, RedisDriver.inner. repeat silent_step.
Qed.
End Redis.

(** * Texts of numbers *)

Section Numbers.
Context `{InfoLib} {S : Type}.
Implicit Types (fields : list (info_field S)) (s : S).

Definition numeric (f : info_field S) : bool := match f.2 with CUInt _ _ | CInt _ _ => true | _ => false end.

Lemma print_numeric f s : numeric f = true → chr_nl ∉ print_cell f.2 s.
Proof.
  intros N. assert (K : forallb (λ x, negb (Ascii.eqb x chr_nl)) (print_cell f.2 s) = true).
  { destruct f as [l []]; try done; cbn; [by apply dec_nat_chars | by apply dec_int_chars]. }
  rewrite forallb_forall in K. intros I%list_elem_of_In. by specialize (K _ I).
Qed.

Definition number_line s (f : info_field S) : bytes := (f.1 ++ ":"%char :: print_cell f.2 s) ++ [chr_cr].
Lemma print_section_lines fields s : print_section fields s = text_of (List.map (number_line s) fields).
Proof.
  unfold print_section, text_of, number_line. rewrite map_map. f_equal. apply map_ext. intros f. by rewrite <- !(assoc (++)).
Qed.

Definition plain_label (l : bytes) : bool :=
  forallb (λ x, negb (Ascii.eqb x chr_nl)) l && match l with c :: _ => negb (Ascii.eqb c stamp_magicNumber) | [] => false end.
Lemma number_line_plain s f : numeric f = true → plain_label f.1 = true → plain_line (number_line s f).
Proof.
  intros N [L1 L2]%andb_true_iff. destruct f as [l c]. unfold number_line. cbn in L1, L2 |- *. split.
  - rewrite !elem_of_app, elem_of_cons. intros [[I | [I | I]] | I%list_elem_of_singleton]; try done.
    + apply list_elem_of_In in I. rewrite forallb_forall in L1. by specialize (L1 _ I).
    + by apply (print_numeric (l, c) s).
  - destruct l as [| x l]; [done |]. cbn. intros [= ->]. by rewrite Ascii.eqb_refl in L2.
Qed.
Lemma section_plain fields s : forallb (λ f, numeric f && plain_label f.1) fields = true →
  Forall plain_line (List.map (number_line s) fields).
Proof.
  intros K. rewrite forallb_forall in K. apply Forall_map, Forall_forall. intros f I%list_elem_of_In.
  destruct (proj1 (andb_true_iff _ _) (K _ I)). by apply number_line_plain.
Qed.
End Numbers.

(** * LevelDB *)

Section Leveldb.
Context `{settings_lib : SettingsLib} {H W U F R : Type} `{!LsmLib H W} `{!NativeFiles W} `{!DriverEnv U F R}
  `{CommonLaws} `{!CommonRedis} `{!ConfigLib} `{!Project} `{!TimeLib} `{!ValueLib} `{!InfoLib}
  `{!FileLaws U F R} `{!TimeLaws} (raw : LeveldbInfo.Stats).
Local Abbreviation conn := (CDBConnection LocalConfig H W).
Local Abbreviation SI := LeveldbInfo.ServerInfo.
#[local] Existing Instances LeveldbConn.traits LeveldbConn.impl LeveldbConn.kv LeveldbConn.flush LeveldbDriver.driver_conn.
#[local] Instance the_virtuals : DriverVirtuals conn SI U F := LeveldbDriver.virtuals raw.
Local Abbreviation driver := (IDriver conn SI U F).
Implicit Types (d : driver) (sender : QObject) (ev : EventInfo).

(** A snapshot of a time after 1970, whose information has members of 32 bits. *)
Definition leveldb_shot (shot : ServerInfoSnapShoot SI) : Prop :=
  0 < ss_msec shot < 2 ^ 63 ∧ ∃ i, ss_info shot = Some i ∧ fits LeveldbInfo.Stats_fields (LeveldbInfo.stats_ i).

Definition leveldb_lines (i : SI) : list bytes :=
  (lit "# Stats" ++ [chr_cr]) :: List.map (number_line (LeveldbInfo.stats_ i)) LeveldbInfo.Stats_fields.
Lemma leveldb_text i : LeveldbInfo.ToString i = text_of (leveldb_lines i).
Proof. unfold LeveldbInfo.ToString. by rewrite print_section_lines. Qed.
Lemma leveldb_plain i : Forall plain_line (leveldb_lines i).
Proof.
  constructor; [by apply (bool_decide_unpack _) |]. apply section_plain. by vm_compute.
Qed.
Lemma leveldb_good shot : leveldb_shot shot → good_shot shot.
Proof.
  intros [T (i & E & _)]. exists (ss_msec shot, leveldb_lines i).
  split; split; [done | exists i; split; [done | apply leveldb_text] | done | apply leveldb_plain].
Qed.
Lemma leveldb_told l : Forall leveldb_shot l → tell l = Val l.
Proof.
  induction 1 as [| [t io] l [T (i & E & Fi)] _ IH]; [done |]. cbn in E. subst io. cbn [tell told ss_info ss_msec].
  rewrite IH. cbn -[LeveldbInfo.MakeLeveldbServerInfo LeveldbInfo.ToString]. unfold LeveldbDriver.MakeServerInfoFromString.
  cbn -[LeveldbInfo.MakeLeveldbServerInfo LeveldbInfo.ToString]. by rewrite (leveldb_info_back raw i).
Qed.

Lemma leveldb_history_told d0 d1 sender ev :
  shots d0 = [] → good_log (LoggingPath (settings_ d0)) (log_file_ d0) (env_ d0) [] → rtc ticks d0 d1 →
  shots d1 ≠ [] → Forall leveldb_shot (shots d1) →
  Driver.HandleLoadServerInfoHistoryEvent sender ev d1 =
  Val (tt, with_out (posted_ d1 ++ [(sender, ResponceEvent (id_ d1) (set_info (ServerInfoHistoryResponce (shots d1)) (new_Responce ev)))])
             (emitted_ d1) (roots_ d1) d1).
Proof.
  intros S0 G T N L. apply history_told with d0; try done; [| by apply leveldb_told].
  eapply Forall_impl; [exact L | apply leveldb_good].
Qed.
End Leveldb.

Local Open Scope Z_scope.
#[local] Set Warnings "-register-all".

(** * Files and times *)

(** The clock goes on by one with each look. *)
Record mem_world := mkMem { mem_clock : Z; mem_disk : kv_map }.

Definition write_to (p : bytes) (t : bytes) (u : mem_world) : mem_world := mkMem (mem_clock u) (<[p := t]> (mem_disk u)).

(** A file is its path and whether it is open, a file that is read what is left and whether the end was
    found. *)
Fixpoint next_line (s : bytes) : option (bytes * bytes) :=
  match s with
  | [] => None
  | c :: s => if Ascii.eqb c chr_nl then Some ([c], s) else '(l, t) ← next_line s; Some (c :: l, t)
  end.

Definition mem_env : DriverEnv mem_world (bytes * bool) (bytes * bool) := {|
  env_mstime u := (mem_clock u, mkMem (mem_clock u + 1) (mem_disk u));
  env_msleep n u := mkMem (mem_clock u + n) (mem_disk u);
  env_poll u := (false, u);
  fs_dir_path p := [];
  fs_create_directory _ u := (no_error, u);
  fs_is_directory _ _ := true;
  fs_is_file_exist p u := bool_decide (is_Some (mem_disk u !! p));
  fs_remove_file p u := (no_error, mkMem (mem_clock u) (delete p (mem_disk u)));
  fs_copy_file p q u := (no_error, match mem_disk u !! p with Some t => write_to q t u | None => u end);
  File_new p := (p, false);
  File_isOpened f _ := f.2;
  File_open_append f u := ((f.1, true), write_to f.1 (default [] (mem_disk u !! f.1)) u);
  File_write f t u := write_to f.1 (default [] (mem_disk u !! f.1) ++ t) u;
  File_flush _ u := u;
  File_truncate f u := (true, write_to f.1 [] u);
  File_open_read p u := (λ t, (t, false)) <$> mem_disk u !! p;
  File_isEof r := r.2;
  File_readLine r :=
    match next_line r.1 with
    | Some (l, t) => (true, l, (t, false))
    | None => (match r.1 with [] => false | _ => true end, r.1, ([], true))
    end;
  File_lines r := S (newlines r.1)
|}.

Lemma next_line_nl l t : chr_nl ∉ l → next_line (l ++ chr_nl :: t) = Some (l ++ [chr_nl], t).
Proof.
  induction l as [| c l IH]; intros N; [done |]. apply not_elem_of_cons in N as [Nc N]. cbn.
  destruct (Ascii.eqb_spec c chr_nl); [by subst |]. by rewrite IH.
Qed.

Program Definition mem_file_laws : @FileLaws mem_world (bytes * bool) (bytes * bool) mem_env :=
  {| content p u := mem_disk u !! p; file_path f := f.1; rest r := r.1 |}.
Next Obligation. done. Qed.
Next Obligation. done. Qed.
Next Obligation. done. Qed.
Next Obligation. done. Qed.
Next Obligation. done. Qed.
Next Obligation.
  intros f u f' u' [= <- <-]. cbn. split; [done |]. split; [| done]. intros _. apply lookup_insert_eq.
Qed.
Next Obligation.
  intros f a b u c Ho Hc. unfold mem_env, write_to. cbn. rewrite !lookup_insert_eq. cbn in Hc. rewrite Hc. cbn. by rewrite (assoc (++)).
Qed.
Next Obligation.
  intros p u c Hc. unfold mem_env. cbn in *. rewrite Hc. eexists. split; [done |]. split; [done |]. split; [done |]. unfold newlines. cbn. lia.
Qed.
Next Obligation. intros [s e] Hr. cbn in *. by subst s. Qed.
Next Obligation.
  intros [s e] l t Hr N. cbn in *. subst s. exists (t, false). split; [| done].
  cbn -[next_line]. by rewrite next_line_nl.
Qed.

Definition mem_time : TimeLib := {| ToString_time := dec_int; FromBytes_time := @FromString_int common_ref |}.
Lemma mem_time_laws : @TimeLaws mem_time.
Proof.
  split.
  - intros t Ht. cbn. apply parse_dec_int. lia.
  - intros t. cbn. pose proof (dec_int_chars (λ x, negb (Ascii.eqb x chr_nl)) t eq_refl) as P.
    rewrite forallb_forall in P. intros I%list_elem_of_In. by specialize (P _ I).
Qed.

Definition mem_values : ValueLib := {|
  getAsString v := match v with VString s => Some s | _ => None end;
  getAsInteger v := match v with VInteger n => Some n | _ => None end;
  createEmptyValueFromType t := match t with TYPE_STRING => Some (VString []) | _ => None end
|}.
Lemma mem_value_laws : @ValueLaws mem_values.
Proof. done. Qed.

(** The store in memory, with statistics. *)
Definition mem_leveldb : LsmLib unit kv_map := {|
  lsm_Open := @lsm_Open _ _ mem_lsm;
  lsm_close := @lsm_close _ _ mem_lsm;
  lsm_Get := @lsm_Get _ _ mem_lsm;
  lsm_Put := @lsm_Put _ _ mem_lsm;
  lsm_Delete := @lsm_Delete _ _ mem_lsm;
  lsm_MultiGet := @lsm_MultiGet _ _ mem_lsm;
  lsm_Merge := @lsm_Merge _ _ mem_lsm;
  lsm_Seek := @lsm_Seek _ _ mem_lsm;
  lsm_status := @lsm_status _ _ mem_lsm;
  lsm_GetProperty _ _ m := Some (LeveldbConn.LEVELDB_HEADER_STATS ++ lit " 0 " ++ dec_nat (Z.of_nat (size m)) ++ lit " 4 1 2")
|}.
Program Definition mem_leveldb_laws : @LsmLaws unit kv_map mem_leveldb := {| lsm_content _ m := m |}.
Next Obligation. intros [] k m v. simpl. by destruct (m !! k); intros [= <-]. Qed.
Next Obligation. by intros [] k v m st m' [= <- <-]. Qed.
Next Obligation. by intros [] k m st m' [= <- <-]. Qed.
Next Obligation. done. Qed.

(** * A LevelDB server *)

Section Sample.
#[local] Existing Instances settings_ref common_ref common_ref_laws common_redis_ref config_ref info_ref mem_leveldb mem_leveldb_laws
  mem_files mem_env mem_file_laws mem_time mem_time_laws mem_values mem_value_laws.
#[local] Instance sample_title : Project := lit "FastoNoSQL".
Local Abbreviation conn := (CDBConnection LocalConfig unit kv_map).
#[local] Existing Instances LeveldbConn.traits LeveldbDriver.driver_conn.

Definition sample_raw : LeveldbInfo.Stats := LeveldbInfo.mkStats 0 0 0 0 0.
#[local] Instance sample_virtuals : DriverVirtuals conn LeveldbInfo.ServerInfo mem_world (bytes * bool) :=
  LeveldbDriver.virtuals sample_raw.

(** Every second the log is written; the store is not yet open. *)
Definition sample_settings : Settings :=
  mkSettings (mkIConnectionSettings (lit "/local") LEVELDB 1000) (lit "1f")
    (DLeveldb (LeveldbSettings.mk LeveldbConfig.Config)).
Definition sample_driver : IDriver conn LeveldbInfo.ServerInfo mem_world (bytes * bool) :=
  mkIDriver 1%nat sample_settings (mkCDB (mkConnection LeveldbConfig.Config None sample_map) false (Some []))
    None None 7 None [] (mkMem 100 ∅) [] [] 0.
Definition sample_system : system unit conn LeveldbInfo.ServerInfo mem_world (bytes * bool) :=
  mkSystem 0%nat [] tt [] sample_driver [] [].
End Sample.
