(* ===== verification/DriverSessions.v ===== *)
(** What holds of the servers and drivers together: the order of requests and their ends, the answers of all
    drivers, the lines of a command text, the history and the content of a LevelDB server. *)
From Stdlib Require Import Ascii String ZArith Lia.
From stdpp Require Import base list strings gmap relations.
From S2P Require Import Prelude Common Texts Values Connection SdsArgs Sds Hiredis HiredisFormat HiredisReader HiredisContext Commands Handlers Configs SshInfo RedisReply RedisConn RedisModes Translators ConnectionTypes ServerInfo StoreInfos RedisInfo InfoProps ConnSettings ConnSettingsProps KvApi NativeKv LsmConn LsmProps LmdbConn UnqliteConn UpscaledbConn SsdbClient SsdbConn MemcachedConn NativeSessions Events DriverBase Driver StoreDrivers RedisDriver DriverProps DriverLaws DriverExec DriverHistory Server ServerProps DriverMemory.
Local Open Scope Z_scope.
Local Open Scope driver_scope.
#[local] Set Warnings "-register-all".

(** * Requests *)

Section Answered.
Context `{SettingsLib} {C SI U F R : Type} `{!DriverConn C} `{!DriverEnv U F R} `{!DriverVirtuals C SI U F}
  `{CommonLib} `{!CommonRedis} `{!ConfigLib} `{!Project} `{!TimeLib}.

(** A request that is not that for the arguments of the configuration is answered once, to the sender; what is
    posted besides are notices to the sender. *)
Definition answers_requests : Prop :=
  ∀ sender v (d d' : IDriver C SI U F), ei_info v ≠ ProcessConfigArgsInfoRequest →
    customEvent (RequestEvent sender v) d = Val (tt, d') →
    ∃ evs, posted_ d' = posted_ d ++ evs ∧ answer sender v evs.

(** A request for the databases needs a connection and a discovery. *)
Lemma load_databases_checked sender ev (d : IDriver C SI U F) :
  (∃ p, impl_IsConnected (impl_ d) = true ∧ current_database_info_ d = Some p ∧
     ∃ d' e1 me e2, Driver.HandleLoadDatabaseInfosEvent sender ev d = Val (tt, d') ∧
       posted_ d' = posted_ d ++ e1 ++ (sender, ResponceEvent me (set_info (LoadDatabasesInfoResponce [p]) (new_Responce ev))) :: e2) ∨
  (impl_IsConnected (impl_ d) = false ∨ current_database_info_ d = None) ∧
    Driver.HandleLoadDatabaseInfosEvent sender ev d = Fault CheckFailed.
Proof.
  destruct (impl_IsConnected (impl_ d)) eqn:Ec; [destruct (current_database_info_ d) as [p |] eqn:Ed |].
  - left. exists p. split; [done |]. split; [done |].
    unfold Driver.HandleLoadDatabaseInfosEvent, the_database, CurrentDatabaseInfo_, IsConnected, bind, gets, ret. cbn. rewrite Ec. cbn. rewrite Ed.
    eexists _, [_; _], _, [_]. split; [reflexivity |]. cbn. rewrite <- !app_assoc. reflexivity.
  - right. split; [by right |].
    unfold Driver.HandleLoadDatabaseInfosEvent, the_database, CurrentDatabaseInfo_, IsConnected, bind, gets, ret. cbn. rewrite Ec. cbn. by rewrite Ed.
  - right. split; [by left |].
    unfold Driver.HandleLoadDatabaseInfosEvent, the_database, CurrentDatabaseInfo_, IsConnected, bind, gets, ret. cbn. by rewrite Ec.
Qed.

Lemma answers_all `{!DriverAnswers C SI U F} : answers_requests.
Proof. intros sender v d d' K E. by apply (customEvent_answers _ _ K _ _ _ E). Qed.
End Answered.

Section Drivers.
Context `{settings_lib : SettingsLib} {H DB K W U F R : Type} `{!LsmLib H W} `{!LmdbLib H DB W} `{!UnqliteLib H K W}
  `{!UpscaledbLib H DB K W} `{!SsdbLink H W} `{!MemcachedLib H W} `{!NativeFiles W} {N : Type} `{!Network N} `{!RedisEnv N}
  `{!ModesEnv N} `{Alloc} `{Patience} `{CommonLib} `{!CommonRedis} `{!ConfigLib} `{!CNumbers} `{!Project} `{!Stack}
  `{!DriverEnv U F R} `{!TimeLib} `{!ValueLib} `{!InfoLib}.

Local Abbreviation answering dc v := (answers_requests (U := U) (F := F) (R := R) (DriverConn0 := dc) (DriverVirtuals0 := v)).

End Drivers.

Section Requests.
Context `{SettingsLib} {X C SI U F R : Type} `{!DriverConn C} `{!DriverEnv U F R} `{!DriverVirtuals C SI U F}
  `{!DriverAnswers C SI U F} `{!ServerVirtuals X SI} `{CommonLib} `{!CommonRedis} `{!ConfigLib} `{!Project} `{!TimeLib}.

(** C3. However the calls of a server's methods, the work of its driver, the timer of the log and the delivery of
    events alternate: the requests that were announced are, in order, those whose end was announced, those
    whose answer is under way, and those the driver has not handled; so ends are announced in the order of the
    requests, each once.  The end of a shutdown is never announced. *)
Theorem requests_in_order (s0 s : system X C SI U F) : fresh s0 → rtc step s0 s →
  started_ s = finished_ s ++ answered_ s ++ waiting_ s ∧
  ∀ res, Finished res ∈ srv_signals s → ei_info (rs_request res) ≠ ShutDownInfoRequest.
Proof.
  intros Fr St. destruct (steps_orderly _ _ St (fresh_orderly _ Fr)) as [[E _ _] _ N]. split; [exact E |].
  intros res I K. specialize (N _ I). unfold tracked in N. by rewrite K in N.
Qed.

End Requests.

Section Lines.
Context `{SettingsLib} {C SI U F R : Type} `{!DriverConn C} `{!DriverEnv U F R} `{CommonLaws} `{!CommonRedis}.

End Lines.

(** * LevelDB *)

Section Leveldb.
Context `{settings_lib : SettingsLib} {H W U F R : Type} `{!LsmLib H W} `{!LsmLaws H W} `{!NativeFiles W} `{!DriverEnv U F R}
  `{CommonLaws} `{CommonRedisLaws} `{!ConfigLib} `{!Project} `{!TimeLib} `{!ValueLib} `{!ValueLaws} `{!InfoLib}
  `{!FileLaws U F R} `{!TimeLaws} (raw : LeveldbInfo.Stats).
Local Abbreviation conn := (CDBConnection LocalConfig H W).
Local Abbreviation SI := LeveldbInfo.ServerInfo.
#[local] Existing Instances LeveldbConn.traits LeveldbConn.impl LeveldbConn.kv LeveldbConn.flush LeveldbDriver.driver_conn.
#[local] Instance the_virtuals : DriverVirtuals conn SI U F := LeveldbDriver.virtuals raw.
Implicit Types (d : IDriver conn SI U F) (sender : QObject) (ev : EventInfo).

(** C22. The explorer's request for the content of an open LevelDB store is answered with the first keys, as many
    as it asks for and in byte order, of those from a up to, not including, z, with empty string values, and
    with the number of all keys of the store; unless the library gave other results than its records. *)
Theorem leveldb_content m d sender ev inf pattern n cursor :
  ei_info ev = LoadDatabaseContentRequest inf pattern n cursor → 0 <= n <= INT_MAX →
  open_at lsm_content m (impl_ d) → default [] (client_ (impl_ d)) = [] →
  ∃ d' res e1 me e2, LeveldbDriver.HandleLoadDatabaseContentEvent sender ev d = Val (tt, d') ∧
    open_at lsm_content m (impl_ d') ∧
    posted_ d' = posted_ d ++ e1 ++ (sender, ResponceEvent me res) :: e2 ∧ calm sender e1 ∧ calm sender e2 ∧
    (lsm_broken ∨
     res = set_info (LoadDatabaseContentResponce
             (List.map shown (take (Z.to_nat n) (List.filter (in_range (lit "a") (lit "z")) (sorted_keys m)))) 0
             (Z.of_nat (size m))) (new_Responce ev)).
Proof. apply content_shown. Qed.

(** C15. After any number of events of the log timer of a LevelDB driver that started without a log, the request
    for the history is answered with exactly the snapshots that were announced meanwhile: their times and
    informations, in order. *)
Theorem leveldb_history d0 d1 sender ev :
  shots d0 = [] → good_log (LoggingPath (settings_ d0)) (log_file_ d0) (env_ d0) [] → rtc ticks d0 d1 →
  shots d1 ≠ [] → Forall leveldb_shot (shots d1) →
  Driver.HandleLoadServerInfoHistoryEvent sender ev d1 =
  Val (tt, with_out (posted_ d1 ++ [(sender, ResponceEvent (id_ d1) (set_info (ServerInfoHistoryResponce (shots d1)) (new_Responce ev)))])
             (emitted_ d1) (roots_ d1) d1).
Proof. apply leveldb_history_told. Qed.
End Leveldb.

(** * Sample runs *)

Section Witnesses.
#[local] Existing Instances settings_ref common_ref common_ref_laws common_redis_ref common_redis_ref_laws config_ref info_ref
  mem_leveldb mem_leveldb_laws mem_files mem_env mem_file_laws mem_time mem_time_laws mem_values mem_value_laws sample_title
  sample_virtuals LeveldbConn.traits LeveldbDriver.driver_conn.
Local Abbreviation conn := (CDBConnection LocalConfig unit kv_map).
Local Abbreviation SI := LeveldbInfo.ServerInfo.
Local Abbreviation driver := (IDriver conn SI mem_world (bytes * bool)).

Definition asks (t : Z) (i : request_info) : EventInfo := EventInfoBase 0%nat t no_error i.
Definition two_lines : bytes := lit "SET k v" ++ [chr_nl] ++ lit "GET k".
Definition two_rounds : EventInfo := asks 2 (ExecuteInfoRequest two_lines 1 0 true false).

(** A connection, which asks for two things more, two rounds of two lines, and a shutdown, between them the timer
    of the log. *)
Definition schedule : list move :=
  [M_request (asks 1 ConnectInfoRequest); M_driver; M_server; M_server; M_server; M_server; M_server; M_driver;
   M_timer 7; M_driver; M_request two_rounds; M_request (asks 3 ShutDownInfoRequest); M_driver; M_server; M_timer 7].

Definition sample_end : option (system unit conn SI mem_world (bytes * bool)) := follow schedule sample_system.

Definition sample_facts (s : system unit conn SI mem_world (bytes * bool)) : bool :=
  bool_decide (List.map (λ v, ei_time_start v) (started_ s) = [1; 100; 2]) &&
  bool_decide (List.length (finished_ s) = 1%nat) && bool_decide (List.length (answered_ s) = 2%nat).
Lemma sample_runs : ∃ s, follow schedule sample_system = Some s ∧ sample_facts s = true.
Proof.
  assert (K : match follow schedule sample_system with Some s => sample_facts s | None => false end = true)
    by (vm_compute; reflexivity).
  destruct (follow schedule sample_system) as [s |]; [by exists s | done].
Qed.

Lemma requests_in_order_witness : fresh sample_system ∧
  ∃ s, rtc step sample_system s ∧ sample_facts s = true ∧
    started_ s = finished_ s ++ answered_ s ++ waiting_ s ∧
    ∀ res, Finished res ∈ srv_signals s → ei_info (rs_request res) ≠ ShutDownInfoRequest.
Proof.
  assert (Fr : fresh sample_system) by done. split; [exact Fr |]. destruct sample_runs as (s & E & K).
  pose proof (follow_steps _ _ _ E) as St. exists s. split; [exact St |]. split; [exact K |].
  exact (requests_in_order sample_system s Fr St).
Defined.

(** The driver with its store open. *)
Definition open_conn : conn := mkCDB (mkConnection LeveldbConfig.Config (Some tt) sample_map) false (Some []).
Definition open_driver : driver := with_impl open_conn sample_driver.

Lemma two_rounds_run : ∃ d', Driver.HandleExecuteEvent 0%nat two_rounds open_driver = Val (tt, d') ∧
  printed d' = [lit "SET k v"; lit "GET k"; lit "SET k v"; lit "GET k"].
Proof.
  assert (K : match Driver.HandleExecuteEvent 0%nat two_rounds open_driver with Val (_, d) => printed d | _ => [] end
              = [lit "SET k v"; lit "GET k"; lit "SET k v"; lit "GET k"]) by (vm_compute; reflexivity).
  destruct (Driver.HandleExecuteEvent 0%nat two_rounds open_driver) as [[[] d'] |]; [by exists d' | done].
Qed.

Lemma leveldb_content_witness :
  let ev := asks 5 (LoadDatabaseContentRequest None (lit "*") 2 0) in
  ∃ d' res e1 me e2, LeveldbDriver.HandleLoadDatabaseContentEvent 0%nat ev open_driver = Val (tt, d') ∧
    posted_ d' = [] ++ e1 ++ (0%nat, ResponceEvent me res) :: e2 ∧
    res = set_info (LoadDatabaseContentResponce [shown (lit "a"); shown (lit "b")] 0 3) (new_Responce ev).
Proof.
  intros ev.
  destruct (leveldb_content sample_map open_driver 0%nat ev None (lit "*") 2 0 eq_refl ltac:(unfold INT_MAX; lia))
    as (d' & res & e1 & me & e2 & E & _ & P & _ & _ & K).
  - split; [done |]. by exists tt.
  - done.
  - exists d', res, e1, me, e2. split; [exact E |]. split; [exact P |]. destruct K as [B | ->].
    + exfalso. destruct B as [[] k m v t v' Hk Hg|[] k m v t m' Hp|[] k m t m' Hd|[] s n m t Hs]; try done.
      simpl in *. by rewrite Hk in Hg.
    + by_running.
Defined.

(** Two snapshots. *)
Definition ticked (d : driver) : option driver :=
  match timerEvent 7 d with Val (_, d) => Some d | Fault _ => None end.

Definition two_shots : list (ServerInfoSnapShoot SI) :=
  [mkSnapShoot 100 (Some (LeveldbInfo.mkServerInfo (LeveldbInfo.mkStats 0 3 4 1 2)));
   mkSnapShoot 101 (Some (LeveldbInfo.mkServerInfo (LeveldbInfo.mkStats 0 3 4 1 2)))].
Lemma ticked_ticks d d' : ticked d = Some d' → ticks d d'.
Proof.
  unfold ticked. destruct (timerEvent 7 d) as [[[] d1] |] eqn:E; [| done]. intros [= <-]. by exists 7.
Qed.
Lemma ticked_twice : ∃ d1, rtc ticks open_driver d1 ∧ shots d1 = two_shots.
Proof.
  assert (K : (d1 ← (d ← ticked open_driver; ticked d); Some (shots d1)) = Some two_shots) by (vm_compute; reflexivity).
  destruct (ticked open_driver) as [d |] eqn:E1; [| done]. destruct (ticked d) as [d1 |] eqn:E2; cbn in K; rewrite ?E2 in K; [| done].
  injection K as K. exists d1. split; [| exact K]. eapply rtc_l; [by apply ticked_ticks |]. by apply rtc_once, ticked_ticks.
Qed.

Lemma leveldb_history_witness :
  ∃ d1 : driver, shots d1 = two_shots ∧
  Driver.HandleLoadServerInfoHistoryEvent 0%nat (asks 9 ServerInfoHistoryRequest) d1 =
  Val (tt, with_out (posted_ d1 ++ [(0%nat, ResponceEvent (id_ d1)
    (set_info (ServerInfoHistoryResponce (shots d1)) (new_Responce (asks 9 ServerInfoHistoryRequest))))])
             (emitted_ d1) (roots_ d1) d1).
Proof.
  destruct ticked_twice as (d1 & T & K). exists d1. split; [exact K |].
  apply (leveldb_history sample_raw open_driver d1); [done | split; [done |]; done | exact T | by rewrite K | rewrite K].
  repeat constructor; cbn; try lia; eexists; (split; [done | solve_fits]).
Defined.
End Witnesses.
