(* ===== verification/Discovery.v ===== *)
(** Discovery of the nodes of a cluster and of sentinels: [core/redis/cluster_infos.cpp],
    [core/redis/sentinel_info.cpp], [core/server/iserver_info.h] and the two [Discovery...Connection] of
    [core/redis/db_connection.cpp]; and what holds of it: the nodes of a cluster as their lines say, lines that
    never end it, and the fields of a sentinel's answer in any order. *)
From Stdlib Require Import Ascii String ZArith Lia.
From stdpp Require Import base list.
From S2P Require Import Prelude Common Texts Values Connection Sds Hiredis HiredisFormat HiredisReader HiredisContext Configs Translators SshInfo RedisReply RedisConn ConnectionTypes.
Local Open Scope Z_scope.
#[local] Set Warnings "-register-all".

(** * Data *)

(** [common::net::HostAndPortAndSlot] *)
Record HostAndPortAndSlot := mkHostSlot { hs_host : bytes; hs_port : Z; hs_slot : Z }.

Class DiscoveryLib := {
  HostAndPortAndSlot_default : HostAndPortAndSlot;
  HostAndPortAndSlot_FromString : bytes → HostAndPortAndSlot;
  isLocalHost : bytes → bool
}.

Record ServerCommonInfo := mkCommonInfo {
  si_name : bytes;
  si_type : serverTypes;
  si_state : serverState;
  si_cstate : serverConnectState;
  si_host : HostAndPortAndSlot
}.
Definition ServerCommonInfo_new `{DiscoveryLib} : ServerCommonInfo :=
  mkCommonInfo [] MASTER SUP SCONNECTED HostAndPortAndSlot_default.

Definition with_name (x : bytes) (i : ServerCommonInfo) : ServerCommonInfo :=
  mkCommonInfo x (si_type i) (si_state i) (si_cstate i) (si_host i).
Definition with_type (x : serverTypes) (i : ServerCommonInfo) : ServerCommonInfo :=
  mkCommonInfo (si_name i) x (si_state i) (si_cstate i) (si_host i).
Definition with_state (x : serverState) (i : ServerCommonInfo) : ServerCommonInfo :=
  mkCommonInfo (si_name i) (si_type i) x (si_cstate i) (si_host i).
Definition with_cstate (x : serverConnectState) (i : ServerCommonInfo) : ServerCommonInfo :=
  mkCommonInfo (si_name i) (si_type i) (si_state i) x (si_host i).
Definition with_host (x : HostAndPortAndSlot) (i : ServerCommonInfo) : ServerCommonInfo :=
  mkCommonInfo (si_name i) (si_type i) (si_state i) (si_cstate i) x.

(** [DiscoveryClusterInfo] and [DiscoverySentinelInfo]: their type is [REDIS]. *)
Record DiscoveryClusterInfo := mkClusterInfo { dc_info : ServerCommonInfo; dc_self : bool }.
Record DiscoverySentinelInfo := mkSentinelInfo { ds_info : ServerCommonInfo }.

Section Discovery.
Context `{CommonLib} `{!DiscoveryLib}.
Implicit Types (i : ServerCommonInfo).

(** * CLUSTER NODES *)

Definition cluster_flag (st : ServerCommonInfo * bool) (flag : bytes) : ServerCommonInfo * bool :=
  if bool_decide (flag = lit "master") then (with_type MASTER st.1, st.2)
  else if bool_decide (flag = lit "slave") then (with_type SLAVE st.1, st.2)
  else if bool_decide (flag = lit "myself") then (st.1, true)
  else st.

(** [switch (fieldpos)] *)
Definition cluster_field (fieldpos : nat) (word : bytes) (st : ServerCommonInfo * bool) : ServerCommonInfo * bool :=
  match fieldpos with
  | 0%nat => (with_name word st.1, st.2)
  | 1%nat => (with_host (HostAndPortAndSlot_FromString word) st.1, st.2)
  | 2%nat => foldl cluster_flag st (Tokenize word (lit ","))
  | 7%nat =>
    if bool_decide (word = lit "connected") then (with_state SUP st.1, st.2)
    else if bool_decide (word = lit "disconnected") then (with_state SDOWN st.1, st.2)
    else st
  | _ => st
  end.

(** The number of fields stays below the length of the line. *)
Fixpoint cluster_line (line : bytes) (fieldpos : nat) (word : bytes) (st : ServerCommonInfo * bool) : ServerCommonInfo * bool :=
  match line with
  | [] => st
  | ch :: rest =>
    let word := if Ascii.eqb ch chr_sp then word else word ++ [ch] in
    if Ascii.eqb ch chr_sp || bool_decide (rest = [])
    then cluster_line rest (S fieldpos) [] (cluster_field fieldpos word st)
    else cluster_line rest fieldpos word st
  end.

(** [None] when the line is empty, which is an error. *)
Definition MakeServerCommonInfoFromLine (line : bytes) : Error * option (ServerCommonInfo * bool) :=
  if bool_decide (line = []) then (invalid_arguments, None)
  else (no_error, Some (cluster_line line 0 [] (ServerCommonInfo_new, false))).

(** The [while] of [makeDiscoveryClusterInfo] from the rest of the text at [start]: on an error the loop goes
    on without moving [start]. *)
Fixpoint cluster_loop (fuel : nat) (parentHost : HostAndPort) (text : bytes) (infos : list DiscoveryClusterInfo)
    : outcome (list DiscoveryClusterInfo) :=
  match fuel with
  | O => Fault OutOfFuel
  | S fuel =>
    match find_sub [chr_nl] text with
    | None => Val infos
    | Some pos =>
      let line := take pos text in
      let '(lerr, r) := MakeServerCommonInfoFromLine line in
      if isError lerr then cluster_loop fuel parentHost text infos
      else
        let '(inf, self) := default (ServerCommonInfo_new, false) r in
        let h := si_host inf in
        let inf := if isLocalHost (hs_host h) then with_host (mkHostSlot (hp_host parentHost) (hs_port h) (hs_slot h)) inf else inf in
        cluster_loop fuel parentHost (drop (pos + 1) text) (infos ++ [mkClusterInfo inf self])
    end
  end.

Definition makeDiscoveryClusterInfo (parentHost : HostAndPort) (text : bytes) (infos : list DiscoveryClusterInfo)
    : outcome (Error * list DiscoveryClusterInfo) :=
  if bool_decide (text = []) then Val (invalid_arguments, infos)
  else infos ← cluster_loop (S (length text)) parentHost text infos; Val (no_error, infos).

(** * SENTINEL *)

Definition sentinel_flag i (flag : bytes) : ServerCommonInfo :=
  if bool_decide (flag = lit "master") then with_type MASTER i
  else if bool_decide (flag = lit "slave") then with_type SLAVE i
  else if bool_decide (flag = lit "s_down") then with_state SDOWN i
  else if bool_decide (flag = lit "disconnected") then with_cstate SDISCONNECTED i
  else i.

(** What is done with the value behind a field name. *)
Definition sentinel_field (field : bytes) : option (bytes → ServerCommonInfo → ServerCommonInfo) :=
  if bool_decide (field = lit "name") then Some with_name
  else if bool_decide (field = lit "flags") then Some (λ v i, foldl sentinel_flag i (Tokenize v (lit ",")))
  else if bool_decide (field = lit "ip")
  then Some (λ v i, with_host (mkHostSlot v (hs_port (si_host i)) (hs_slot (si_host i))) i)
  else if bool_decide (field = lit "port")
  then Some (λ v i, with_host (mkHostSlot (hs_host (si_host i)) (FromString_uint16 v) (hs_slot (si_host i))) i)
  else None.

(** [for (size_t j = 0; j < repl_info->elements; j += 2)]; only a field that is known has its value read. *)
Fixpoint sentinel_loop (fuel : nat) (repl_info : redisReply) (j : Z) i : outcome ServerCommonInfo :=
  match fuel with
  | O => Fault OutOfFuel
  | S fuel =>
    if j <? rp_elements repl_info then
      e ← rp_element repl_info j;
      field ← rp_cstr e;
      match sentinel_field field with
      | None => sentinel_loop fuel repl_info (j + 2) i
      | Some set => v ← rp_element repl_info (j + 1); v ← rp_cstr v; sentinel_loop fuel repl_info (j + 2) (set v i)
      end
    else Val i
  end.

(** [repl_info] is not null. *)
Definition MakeServerCommonInfo (repl_info : redisReply) : outcome (Error * ServerCommonInfo) :=
  i ← sentinel_loop (S (Z.to_nat (rp_elements repl_info))) repl_info 0 ServerCommonInfo_new; Val (no_error, i).
End Discovery.

(** * Connections

    A context of its own is, here, a connection that has nothing else. *)
Section Connections.
Context {N : Type} `{Network N} `{!RedisEnv N} `{Alloc} `{Patience} `{CommonLib} `{!CommonRedis}
  `{!ConfigLib} `{!CNumbers} `{!Project} `{!DiscoveryLib}.
Local Abbreviation conn := (CDBConnection RConfig redisContext (RWorld N)).
Implicit Types (config : RConfig) (n : N).

(** [CreateConnection] and [authContext]; a context whose authentication fails is freed. *)
Definition open_context config n : outcome (Error * option conn * N) :=
  let '(err, context, n) := CreateConnection config n in
  if isError err then Val (err, None, n)
  else
    let c := mkCDB (mkConnection config context (mkRWorld n false)) false None in
    '(err, c) ← authContext (c_strornull (RedisConfig.auth (rc_config config))) c;
    if isError err then h ← the_context c; Val (err, None, redisFree h (the_net c))
    else Val (no_error, Some c, the_net c).
Definition close_context (c : conn) : outcome N := h ← the_context c; Val (redisFree h (the_net c)).

Definition io_error : Error := make_error_value (lit "I/O error") E_ERROR.

Definition TestConnection config n : outcome (Error * N) :=
  '(err, c, n) ← open_context config n;
  match c with None => Val (err, n) | Some c => n ← close_context c; Val (no_error, n) end.

Definition DiscoveryClusterConnection config (infos : list DiscoveryClusterInfo) n : outcome (Error * list DiscoveryClusterInfo * N) :=
  '(err, c, n) ← open_context config n;
  match c with
  | None => Val (err, infos, n)
  | Some c =>
    '(reply, c) ← command (lit "CLUSTER NODES") [] c;
    '(err, infos) ← match reply with
                    | None => Val (io_error, infos)
                    | Some r =>
                      if is_type REDIS_REPLY_STRING r then
                        s ← rp_str r; makeDiscoveryClusterInfo (RedisConfig.host (rc_config config)) s infos
                      else if is_type REDIS_REPLY_ERROR r then e ← reply_error r; Val (e, infos)
                      else Val (no_error, infos)
                    end;
    n ← close_context c;
    Val (err, infos, n)
  end.

(** The infos of the elements from [j] on; one that is an error is left out. *)
Fixpoint slaves_loop (fuel : nat) (reply : redisReply) (j : Z) (infos : list DiscoverySentinelInfo)
    : outcome (list DiscoverySentinelInfo) :=
  match fuel with
  | O => Fault OutOfFuel
  | S fuel =>
    if j <? rp_elements reply then
      e ← rp_element reply j;
      '(lerr, slsinf) ← MakeServerCommonInfo e;
      slaves_loop fuel reply (j + 1) (if isError lerr then infos else infos ++ [mkSentinelInfo slsinf])
    else Val infos
  end.

(** The loop over the masters; the reply that is an error is read after it was freed. *)
Fixpoint masters_loop (fuel : nat) (masters_reply : redisReply) (i : Z) (infos : list DiscoverySentinelInfo) (c : conn)
    : outcome (Error * list DiscoverySentinelInfo * conn) :=
  match fuel with
  | O => Fault OutOfFuel
  | S fuel =>
    if i <? rp_elements masters_reply then
      master_info ← rp_element masters_reply i;
      '(lerr, sinf) ← MakeServerCommonInfo master_info;
      if isError lerr then masters_loop fuel masters_reply (i + 1) infos c
      else
        let infos := infos ++ [mkSentinelInfo sinf] in
        '(reply, c) ← command (lit "SENTINEL SLAVES %s") [VaStr (si_name sinf)] c;
        match reply with
        | None => Val (io_error, infos, c)
        | Some r =>
          if is_type REDIS_REPLY_ARRAY r then
            infos ← slaves_loop (S (Z.to_nat (rp_elements r))) r 0 infos;
            masters_loop fuel masters_reply (i + 1) infos c
          else if is_type REDIS_REPLY_ERROR r then Fault UseAfterFree
          else masters_loop fuel masters_reply (i + 1) infos c
        end
    else Val (no_error, infos, c)
  end.

Definition DiscoverySentinelConnection config (infos : list DiscoverySentinelInfo) n
    : outcome (Error * list DiscoverySentinelInfo * N) :=
  '(err, c, n) ← open_context config n;
  match c with
  | None => Val (err, infos, n)
  | Some c =>
    '(masters_reply, c) ← command (lit "SENTINEL MASTERS") [] c;
    match masters_reply with
    | None => n ← close_context c; Val (io_error, infos, n)
    | Some m =>
      '(err, infos, c) ← masters_loop (S (Z.to_nat (rp_elements m))) m 0 infos c;
      n ← close_context c;
      Val (err, infos, n)
    end
  end.
End Connections.

Local Open Scope Z_scope.
#[local] Set Warnings "-register-all,-clear-no-such-hyp".

(** The words between separators. *)
Class TokenizeLaws `{CommonLib} : Prop := {
  Tokenize_words c ws : Forall (λ w, w ≠ [] ∧ c ∉ w) ws → Tokenize (join_with [c] ws) [c] = ws
}.

Section Lines.
Context `{CommonLaws} `{!DiscoveryLib}.
Implicit Types (st : ServerCommonInfo * bool).

(** * One line *)

Lemma cluster_line_word w rest : ∀ pos word st, chr_sp ∉ w →
  cluster_line (w ++ chr_sp :: rest) pos word st = cluster_line rest (S pos) [] (cluster_field pos (word ++ w) st).
Proof.
  induction w as [| c w IH]; intros pos word st N; [by rewrite app_nil_r |].
  apply not_elem_of_cons in N as [Nc N]. cbn [app cluster_line]. destruct (Ascii.eqb_spec c chr_sp); [by subst |]. cbn [orb].
  rewrite bool_decide_false; [| by destruct w]. rewrite IH by done. by rewrite <- (assoc (++)).
Qed.
Lemma cluster_line_last w : ∀ pos word st, w ≠ [] → chr_sp ∉ w →
  cluster_line w pos word st = cluster_field pos (word ++ w) st.
Proof.
  induction w as [| c w IH]; intros pos word st Ne N; [done |].
  apply not_elem_of_cons in N as [Nc N]. cbn [cluster_line]. destruct (Ascii.eqb_spec c chr_sp); [by subst |]. cbn [orb].
  destruct w as [| c' w]; [done |]. rewrite bool_decide_false by done. rewrite IH by done. by rewrite <- (assoc (++)).
Qed.

Definition word_ok (w : bytes) : Prop := (w ≠ []) ∧ (chr_sp ∉ w) ∧ (chr_nl ∉ w).

Fixpoint cluster_fields (pos : nat) (ws : list bytes) st : ServerCommonInfo * bool :=
  match ws with [] => st | w :: ws => cluster_fields (S pos) ws (cluster_field pos w st) end.

Lemma cluster_line_words ws : ∀ pos st, Forall word_ok ws →
  cluster_line (join_with [chr_sp] ws) pos [] st = cluster_fields pos ws st.
Proof.
  induction ws as [| w ws IH]; intros pos st F; [done |]. apply Forall_cons in F as [(Ne & Ns & _) F].
  destruct ws as [| w' ws]; [by apply cluster_line_last |].
  rewrite join_with_cons by done. cbn [app]. rewrite cluster_line_word by done. by apply IH.
Qed.
Lemma cluster_fields_beyond ws : ∀ k st, cluster_fields (8 + k) ws st = st.
Proof. induction ws as [| w ws IH]; intros k st; [done |]. apply (IH (S k)). Qed.

(** * All lines *)

Definition nl_lines (text : bytes) : list bytes := lines_of [chr_nl] text.

Lemma nl_lines_step text : nl_lines text =
  match find_sub [chr_nl] text with Some pos => take pos text :: nl_lines (drop (pos + 1) text) | None => [] end.
Proof.
  unfold nl_lines at 1, lines_of. destruct text as [| c text]; [done |]. cbn [length lines_loop].
  destruct (find_sub [chr_nl] (c :: text)) as [pos |]; [| done]. f_equal. cbn [length]. apply lines_loop_enough; [done |].
  rewrite length_drop. cbn. lia.
Qed.
Lemma nl_lines_length text : (length (nl_lines text) <= length text)%nat.
Proof.
  unfold nl_lines, lines_of. generalize text at 2. generalize (length text). induction n as [| n IH]; intros t; cbn; [lia |].
  destruct (find_sub _ _); cbn; [| lia]. specialize (IH (drop (n0 + 1) t)). lia.
Qed.

(** What is made of a line that is not empty. *)
Definition line_info (parent : HostAndPort) (line : bytes) : DiscoveryClusterInfo :=
  let '(inf, self) := cluster_line line 0 [] (ServerCommonInfo_new, false) in
  let h := si_host inf in
  mkClusterInfo (if isLocalHost (hs_host h) then with_host (mkHostSlot (hp_host parent) (hs_port h) (hs_slot h)) inf else inf) self.

Lemma cluster_loop_lines parent : ∀ fuel text infos, Forall (λ l, l ≠ []) (nl_lines text) → (length (nl_lines text) < fuel)%nat →
  cluster_loop fuel parent text infos = Val (infos ++ List.map (line_info parent) (nl_lines text)).
Proof.
  induction fuel as [| fuel IH]; intros text infos; [lia |]. rewrite nl_lines_step. cbn [cluster_loop].
  destruct (find_sub _ text) as [pos |]; [| by intros _ _; cbn; rewrite app_nil_r]. intros [N F]%Forall_cons Hf. cbn in Hf.
  unfold MakeServerCommonInfoFromLine. rewrite bool_decide_false by done. cbn [isError no_error default from_option id].
  change (isError no_error) with false. cbn [default from_option]. destruct (cluster_line _ _ _ _) as [inf self] eqn:E.
  pose proof (eq_refl (line_info parent (take pos text))) as L. unfold line_info in L at 1. rewrite E in L. rewrite L.
  rewrite IH; [| done | lia]. by rewrite <- (assoc (++)).
Qed.
Lemma cluster_loop_stuck parent : ∀ fuel text infos, [] ∈ nl_lines text → cluster_loop fuel parent text infos = Fault OutOfFuel.
Proof.
  induction fuel as [| fuel IH]; intros text infos; [done |]. intros I. pose proof I as I'. rewrite nl_lines_step in I. cbn [cluster_loop].
  destruct (find_sub _ text) as [pos |]; [| by apply not_elem_of_nil in I].
  unfold MakeServerCommonInfoFromLine. case_bool_decide as Hl.
  - unfold isError, invalid_arguments. cbn. rewrite isError_E_ERROR. by apply IH.
  - change (isError no_error) with false. cbn [default from_option]. destruct (cluster_line _ _ _ _) as [inf self]. apply IH.
    apply elem_of_cons in I as [I | I]; [by symmetry in I | done].
Qed.
End Lines.

(** * The nodes of a cluster *)

Section Nodes.
Context `{CommonLaws} `{!TokenizeLaws} `{!DiscoveryLib}.

(** A line as CLUSTER NODES prints it. *)
Record cluster_node := mkNode {
  cn_id : bytes;
  cn_address : bytes;
  cn_myself : bool;
  cn_slave : bool;
  cn_fail : bool;
  (** the master, the times of ping and pong, and the epoch *)
  cn_middle : bytes * bytes * bytes * bytes;
  cn_linked : bool;
  cn_slots : list bytes
}.
Definition node_flags (nd : cluster_node) : list bytes :=
  (if cn_myself nd then [lit "myself"] else []) ++ [if cn_slave nd then lit "slave" else lit "master"]
  ++ (if cn_fail nd then [lit "fail"] else []).
Definition node_words (nd : cluster_node) : list bytes :=
  let '(a, b, c, d) := cn_middle nd in
  [cn_id nd; cn_address nd; join_with (lit ",") (node_flags nd); a; b; c; d;
   if cn_linked nd then lit "connected" else lit "disconnected"] ++ cn_slots nd.
Definition node_line (nd : cluster_node) : bytes := join_with [chr_sp] (node_words nd).

(** The words of the node have no blanks and no newlines. *)
Definition node_ok (nd : cluster_node) : Prop :=
  let '(a, b, c, d) := cn_middle nd in Forall word_ok ([cn_id nd; cn_address nd; a; b; c; d] ++ cn_slots nd).

Definition node_info (parent : HostAndPort) (nd : cluster_node) : DiscoveryClusterInfo :=
  let h := HostAndPortAndSlot_FromString (cn_address nd) in
  mkClusterInfo
    (mkCommonInfo (cn_id nd) (if cn_slave nd then SLAVE else MASTER) (if cn_linked nd then SUP else SDOWN) SCONNECTED
       (if isLocalHost (hs_host h) then mkHostSlot (hp_host parent) (hs_port h) (hs_slot h) else h))
    (cn_myself nd).

Lemma node_flags_words nd : Tokenize (join_with (lit ",") (node_flags nd)) (lit ",") = node_flags nd.
Proof.
  apply Tokenize_words. unfold node_flags. destruct (cn_myself nd), (cn_slave nd), (cn_fail nd); by apply (bool_decide_unpack _).
Qed.
Lemma node_words_ok nd : node_ok nd → Forall word_ok (node_words nd).
Proof.
  unfold node_ok, node_words. destruct (cn_middle nd) as [[[a b] c] d]. intros F.
  assert (Fl : word_ok (join_with (lit ",") (node_flags nd))).
  { unfold node_flags. destruct (cn_myself nd), (cn_slave nd), (cn_fail nd); repeat split; try done; by apply (bool_decide_unpack _). }
  assert (L : word_ok (if cn_linked nd then lit "connected" else lit "disconnected")).
  { destruct (cn_linked nd); repeat split; try done; by apply (bool_decide_unpack _). }
  cbn [app] in *. do 6 apply Forall_cons in F as [? F]. by repeat (apply Forall_cons; split; [done |]).
Qed.

Lemma node_flags_read nd i : foldl cluster_flag (i, false) (node_flags nd)
  = (with_type (if cn_slave nd then SLAVE else MASTER) i, cn_myself nd).
Proof. unfold node_flags. destruct (cn_myself nd), (cn_slave nd), (cn_fail nd); reflexivity. Qed.
Lemma link_read nd st : cluster_field 7 (if cn_linked nd then lit "connected" else lit "disconnected") st
  = (with_state (if cn_linked nd then SUP else SDOWN) st.1, st.2).
Proof. destruct (cn_linked nd); reflexivity. Qed.

Lemma line_info_node parent nd : node_ok nd → line_info parent (node_line nd) = node_info parent nd.
Proof.
  intros G. unfold line_info, node_line. rewrite cluster_line_words by (by apply node_words_ok).
  unfold node_words. destruct (cn_middle nd) as [[[a b] c] d]. cbn [app cluster_fields].
  change 8%nat with (8 + 0)%nat. rewrite cluster_fields_beyond, link_read. cbn [cluster_field fst snd].
  rewrite node_flags_words, node_flags_read. cbn. unfold node_info. by destruct (isLocalHost _).
Qed.

Lemma join_without (c : ascii) (sep : bytes) (ws : list bytes) : c ∉ sep → Forall (λ w : bytes, c ∉ w) ws → c ∉ join_with sep ws.
Proof.
  intros Ns. induction 1 as [| w ws N F IHF]; [by apply not_elem_of_nil |].
  destruct ws as [| w' ws]; [done |]. rewrite join_with_cons by done. rewrite !elem_of_app. intros [I | [I | I]]; [done | done | by apply IHF].
Qed.
Lemma node_line_nl nd : node_ok nd → chr_nl ∉ node_line nd.
Proof.
  intros G. apply join_without; [by apply (bool_decide_unpack _) |]. eapply Forall_impl; [by apply node_words_ok |].
  by intros w (_ & _ & N).
Qed.
Lemma node_line_not_empty nd : node_ok nd → node_line nd ≠ [].
Proof.
  unfold node_ok, node_line, node_words. destruct (cn_middle nd) as [[[a b] c] d].
  intros [(N & _) _]%Forall_cons. cbn [app]. rewrite join_with_cons by done. by destruct (cn_id nd).
Qed.

Definition nodes_text (nodes : list cluster_node) : bytes := List.concat (List.map (λ nd, node_line nd ++ [chr_nl]) nodes).

Lemma nodes_lines nodes rest : Forall node_ok nodes → chr_nl ∉ rest → nl_lines (nodes_text nodes ++ rest) = List.map node_line nodes.
Proof.
  intros G N. unfold nl_lines, nodes_text. rewrite <- (map_map node_line (λ l, l ++ [chr_nl])). apply lines_of_concat; [| done].
  apply Forall_map. eapply Forall_impl; [exact G | apply node_line_nl].
Qed.

Lemma nodes_discovered parent nodes rest infos : nodes ≠ [] → Forall node_ok nodes → chr_nl ∉ rest →
  makeDiscoveryClusterInfo parent (nodes_text nodes ++ rest) infos = Val (no_error, infos ++ List.map (node_info parent) nodes).
Proof.
  intros Ne G N. unfold makeDiscoveryClusterInfo. rewrite bool_decide_false.
  - rewrite cluster_loop_lines; rewrite ?nodes_lines by done.
    + cbn. rewrite map_map. do 3 f_equal. apply map_ext_in. intros nd I%list_elem_of_In. apply line_info_node. by eapply Forall_forall in G.
    + apply Forall_map. eapply Forall_impl; [exact G | apply node_line_not_empty].
    + pose proof (nl_lines_length (nodes_text nodes ++ rest)) as L. rewrite nodes_lines in L by done. lia.
  - destruct nodes as [| nd nodes]; [done |]. apply Forall_cons in G as [G _]. unfold nodes_text. cbn.
    pose proof (node_line_not_empty nd G). by destruct (node_line nd).
Qed.

(** The loop ends when there are no empty lines, and only then. *)
Lemma discovery_ends parent text infos : text ≠ [] →
  if bool_decide ([] ∈ nl_lines text) then ∀ fuel, cluster_loop fuel parent text infos = Fault OutOfFuel
  else makeDiscoveryClusterInfo parent text infos = Val (no_error, infos ++ List.map (line_info parent) (nl_lines text)).
Proof.
  intros Ne. case_bool_decide as I; [intros fuel; by apply cluster_loop_stuck |].
  unfold makeDiscoveryClusterInfo. rewrite bool_decide_false by done. rewrite cluster_loop_lines; [done | |].
  - apply Forall_forall. by intros l Il ->.
  - pose proof (nl_lines_length text). lia.
Qed.
End Nodes.

(** * The fields of a sentinel's answer *)

Section Fields.
Context `{CommonLaws} `{!TokenizeLaws} `{!DiscoveryLib}.
Implicit Types (l : list (bytes * bytes)) (i : ServerCommonInfo).

(** An answer of names and values, all of them texts. *)
Definition fields_reply l : redisReply :=
  RpArray (2 * Z.of_nat (length l)) (List.flat_map (λ p, [RpString REDIS_REPLY_STRING p.1; RpString REDIS_REPLY_STRING p.2]) l).

Definition put_field i (p : bytes * bytes) : ServerCommonInfo :=
  match sentinel_field (c_str p.1) with Some set => set (c_str p.2) i | None => i end.

Lemma fields_at l k p : l !! k = Some p →
  List.flat_map (λ p, [RpString REDIS_REPLY_STRING p.1; RpString REDIS_REPLY_STRING p.2]) l !! (2 * k)%nat = Some (RpString REDIS_REPLY_STRING p.1) ∧
  List.flat_map (λ p, [RpString REDIS_REPLY_STRING p.1; RpString REDIS_REPLY_STRING p.2]) l !! (2 * k + 1)%nat = Some (RpString REDIS_REPLY_STRING p.2).
Proof.
  revert k. induction l as [| q l IH]; intros k; [done |]. destruct k as [| k]; [by intros [= ->] |].
  intros E. specialize (IH k E). replace (2 * S k)%nat with (S (S (2 * k))) by lia. exact IH.
Qed.
Lemma fields_element l k p : l !! k = Some p →
  rp_element (fields_reply l) (2 * Z.of_nat k) = Val (RpString REDIS_REPLY_STRING p.1) ∧
  rp_element (fields_reply l) (2 * Z.of_nat k + 1) = Val (RpString REDIS_REPLY_STRING p.2).
Proof.
  intros E. destruct (fields_at l k p E) as [E1 E2]. unfold rp_element, fields_reply. destruct l as [| q l]; [done |]. cbn [List.flat_map app].
  rewrite !(proj2 (Z.ltb_ge _ _)) by lia.
  replace (Z.to_nat (2 * Z.of_nat k)) with (2 * k)%nat by lia. replace (Z.to_nat (2 * Z.of_nat k + 1)) with (2 * k + 1)%nat by lia.
  cbn [List.flat_map app] in E1, E2. by rewrite E1, E2.
Qed.

Lemma sentinel_loop_fields l : ∀ fuel k i, (k <= length l)%nat → (length l - k < fuel)%nat →
  sentinel_loop fuel (fields_reply l) (2 * Z.of_nat k) i = Val (foldl put_field i (drop k l)).
Proof.
  induction fuel as [| fuel IH]; intros k i Hk Hf; [lia |]. cbn [sentinel_loop]. change (rp_elements (fields_reply l)) with (2 * Z.of_nat (length l)).
  destruct (Z.ltb_spec (2 * Z.of_nat k) (2 * Z.of_nat (length l))) as [L | L].
  - destruct (lookup_lt_is_Some_2 l k ltac:(lia)) as [p E]. destruct (fields_element l k p E) as [E1 E2]. rewrite E1, E2.
    cbn [mbind outcome_bind rp_cstr rp_str]. rewrite (drop_S _ p k E). cbn [foldl].
    replace (2 * Z.of_nat k + 2) with (2 * Z.of_nat (S k)) by lia. unfold put_field at 2.
    destruct (sentinel_field (c_str p.1)) as [set |]; cbn; apply IH; lia.
  - by rewrite drop_ge by lia.
Qed.
Lemma sentinel_fields l : MakeServerCommonInfo (fields_reply l) = Val (no_error, foldl put_field ServerCommonInfo_new l).
Proof.
  unfold MakeServerCommonInfo. change (rp_elements (fields_reply l)) with (2 * Z.of_nat (length l)).
  rewrite (sentinel_loop_fields l _ 0) by lia. done.
Qed.

(** The value behind the first field of a name. *)
Definition field_value (n : bytes) l : option bytes :=
  (λ p, c_str p.2) <$> List.find (λ p, bool_decide (c_str p.1 = n)) l.

(** What a part of the information is after fields of which at most one sets it. *)
Section Part.
Context {A : Type} (part : ServerCommonInfo → A) (n : bytes) (f : bytes → A → A).
Context (own : ∀ v i, part (put_field i (n, v)) = f (c_str v) (part i))
  (other : ∀ p i, c_str p.1 ≠ n → part (put_field i p) = part i).

Lemma put_field_name p i : put_field i p = put_field i (c_str p.1, p.2).
Proof. unfold put_field. cbn. by rewrite (c_str_no_nul _ (no_nul_c_str p.1)). Qed.

Lemma part_absent l : ∀ i, n ∉ List.map (λ p, c_str p.1) l → part (foldl put_field i l) = part i.
Proof.
  induction l as [| p l IH]; intros i N; [done |]. cbn in N |- *. apply not_elem_of_cons in N as [Np N]. rewrite IH by done.
  apply other. by intros E.
Qed.
Lemma part_fields l : ∀ i, NoDup (List.map (λ p, c_str p.1) l) →
  part (foldl put_field i l) = match field_value n l with Some v => f v (part i) | None => part i end.
Proof.
  induction l as [| p l IH]; intros i; [done |]. cbn [List.map foldl]. intros [Np Nd]%NoDup_cons. unfold field_value. cbn [List.find].
  case_bool_decide as E.
  - rewrite part_absent by (by rewrite <- E). rewrite put_field_name, E, own. done.
  - rewrite IH by done. by rewrite other.
Qed.
End Part.

Definition flags_part i : serverTypes * serverState * serverConnectState := (si_type i, si_state i, si_cstate i).
Definition set_flags (flags : list bytes) (t : serverTypes * serverState * serverConnectState) :=
  flags_part (foldl sentinel_flag (mkCommonInfo [] t.1.1 t.1.2 t.2 HostAndPortAndSlot_default) flags).

Lemma sentinel_flag_part fl i : si_name (sentinel_flag i fl) = si_name i ∧ si_host (sentinel_flag i fl) = si_host i.
Proof. unfold sentinel_flag. by repeat case_bool_decide. Qed.
Lemma sentinel_flags_part flags : ∀ i, si_name (foldl sentinel_flag i flags) = si_name i ∧ si_host (foldl sentinel_flag i flags) = si_host i.
Proof.
  induction flags as [| fl flags IH]; intros i; [done |]. cbn. destruct (IH (sentinel_flag i fl)) as [-> ->]. apply sentinel_flag_part.
Qed.
Lemma set_flags_part flags : ∀ i, flags_part (foldl sentinel_flag i flags) = set_flags flags (flags_part i).
Proof.
  assert (G : ∀ i j, flags_part i = flags_part j → flags_part (foldl sentinel_flag i flags) = flags_part (foldl sentinel_flag j flags)).
  { induction flags as [| fl flags IH]; intros i j E; [done |]. cbn. apply IH. injection E as E1 E2 E3.
    unfold sentinel_flag. repeat case_bool_decide; unfold flags_part; cbn; congruence. }
  intros i. apply G. done.
Qed.

(** Which flags there are says what they mean. *)
Lemma set_flags_mean flags ty st cst : set_flags flags (ty, st, cst) =
  (foldl (λ t fl, if bool_decide (fl = lit "master") then MASTER else if bool_decide (fl = lit "slave") then SLAVE else t) ty flags,
   if bool_decide (lit "s_down" ∈ flags) then SDOWN else st,
   if bool_decide (lit "disconnected" ∈ flags) then SDISCONNECTED else cst).
Proof.
  revert ty st cst. induction flags as [| fl flags IH]; intros ty st cst; [done |]. cbn [foldl].
  rewrite (bool_decide_ext (lit "s_down" ∈ fl :: flags) (lit "s_down" = fl ∨ lit "s_down" ∈ flags)) by apply elem_of_cons.
  rewrite (bool_decide_ext (lit "disconnected" ∈ fl :: flags) (lit "disconnected" = fl ∨ lit "disconnected" ∈ flags)) by apply elem_of_cons.
  transitivity (set_flags flags (flags_part (sentinel_flag (mkCommonInfo [] ty st cst HostAndPortAndSlot_default) fl))).
  { unfold set_flags at 1. cbn [foldl fst snd]. apply set_flags_part. }
  unfold sentinel_flag.
  destruct (decide (fl = lit "master")) as [-> |]; [| destruct (decide (fl = lit "slave")) as [-> |]; [|
    destruct (decide (fl = lit "s_down")) as [-> |]; [| destruct (decide (fl = lit "disconnected")) as [-> |]]]];
    rewrite ?bool_decide_true by done; rewrite ?bool_decide_false by done; cbn [flags_part with_type with_state with_cstate si_type si_state si_cstate];
    unfold flags_part; cbn; rewrite IH; repeat case_bool_decide; (reflexivity || naive_solver).
Qed.

Lemma flags_type flags : (lit "slave" ∈ flags → lit "master" ∉ flags →
    foldl (λ t fl, if bool_decide (fl = lit "master") then MASTER else if bool_decide (fl = lit "slave") then SLAVE else t) MASTER flags = SLAVE) ∧
  (lit "slave" ∉ flags →
    foldl (λ t fl, if bool_decide (fl = lit "master") then MASTER else if bool_decide (fl = lit "slave") then SLAVE else t) MASTER flags = MASTER).
Proof.
  assert (G : ∀ t, lit "master" ∉ flags → (t = SLAVE ∨ lit "slave" ∈ flags) →
    foldl (λ t fl, if bool_decide (fl = lit "master") then MASTER else if bool_decide (fl = lit "slave") then SLAVE else t) t flags = SLAVE).
  { induction flags as [| fl flags IH]; intros t Nm D; [by destruct D as [| D%elem_of_nil] |]. apply not_elem_of_cons in Nm as [Nf Nm]. cbn.
    rewrite bool_decide_false by done. apply IH; [done |]. case_bool_decide as E; [by left |]. destruct D as [| D]; [by left |]. right.
    apply elem_of_cons in D as [D | D]; [by destruct E | done]. }
  split; [auto |]. clear G. induction flags as [| fl flags IH]; intros N; [done |]. apply not_elem_of_cons in N as [Nf N]. cbn.
  rewrite (bool_decide_false (fl = lit "slave")) by done. replace (if bool_decide (fl = lit "master") then MASTER else MASTER) with MASTER by (by case_bool_decide).
  by apply IH.
Qed.

Lemma own_field n set v i : sentinel_field n = Some set → c_str n = n → put_field i (n, v) = set (c_str v) i.
Proof. intros E Q. unfold put_field. cbn. by rewrite Q, E. Qed.

(** Fields that are not of the name leave the part alone. *)
Ltac other_field :=
  intros p i N; unfold put_field, sentinel_field;
  repeat (case_bool_decide; [try congruence; try done; try (by apply sentinel_flags_part); try (by rewrite (proj2 (sentinel_flags_part _ _))) |]); done.

Lemma sentinel_parts l flags : NoDup (List.map (λ p, c_str p.1) l) →
  field_value (lit "flags") l = Some (join_with (lit ",") flags) → Forall (λ w, (w ≠ []) ∧ (","%char ∉ w)) flags →
  ∃ i, MakeServerCommonInfo (fields_reply l) = Val (no_error, i) ∧
    si_name i = default [] (field_value (lit "name") l) ∧
    hs_host (si_host i) = default (hs_host HostAndPortAndSlot_default) (field_value (lit "ip") l) ∧
    hs_port (si_host i) = default (hs_port HostAndPortAndSlot_default) (FromString_uint16 <$> field_value (lit "port") l) ∧
    si_state i = (if bool_decide (lit "s_down" ∈ flags) then SDOWN else SUP) ∧
    si_cstate i = (if bool_decide (lit "disconnected" ∈ flags) then SDISCONNECTED else SCONNECTED) ∧
    (lit "slave" ∈ flags → lit "master" ∉ flags → si_type i = SLAVE) ∧ (lit "slave" ∉ flags → si_type i = MASTER).
Proof.
  intros Nd Fl W. eexists. split; [apply sentinel_fields |].
  assert (T : flags_part (foldl put_field ServerCommonInfo_new l) = set_flags flags (flags_part ServerCommonInfo_new)).
  { rewrite (part_fields flags_part (lit "flags") (λ v t, set_flags (Tokenize v (lit ",")) t));
      [| intros v i; apply set_flags_part | other_field | exact Nd].
    rewrite Fl. by rewrite (Tokenize_words ","%char flags W). }
  unfold flags_part at 2 in T. cbn [ServerCommonInfo_new si_type si_state si_cstate] in T. rewrite set_flags_mean in T.
  injection T as T1 T2 T3. rewrite T2, T3. split; [| split; [| split]].
  - rewrite (part_fields si_name (lit "name") (λ v _, v)); [by destruct (field_value (lit "name") l) | done | other_field | exact Nd].
  - rewrite (part_fields (λ i, hs_host (si_host i)) (lit "ip") (λ v _, v)); [by destruct (field_value (lit "ip") l) | done | other_field | exact Nd].
  - rewrite (part_fields (λ i, hs_port (si_host i)) (lit "port") (λ v _, FromString_uint16 v)); [by destruct (field_value (lit "port") l) | done | other_field | exact Nd].
  - split; [done |]. split; [done |]. rewrite T1. apply flags_type.
Qed.
End Fields.

(** * Samples *)

Lemma split_on_word c w rest cur : c ∉ w → split_on c (w ++ rest) cur = split_on c rest (cur ++ w).
Proof.
  revert cur. induction w as [| x w IH]; intros cur N; [by rewrite app_nil_r |]. apply not_elem_of_cons in N as [Nx N]. cbn.
  destruct (Ascii.eqb_spec x c); [by subst |]. rewrite IH by done. by rewrite <- (assoc (++)).
Qed.
Lemma split_on_join c ws : Forall (λ w, (w ≠ []) ∧ (c ∉ w)) ws → split_on c (join_with [c] ws) [] = ws.
Proof.
  induction 1 as [| w ws [Ne N] F IHF]; [done |]. destruct ws as [| w' ws].
  - cbn [join_with]. rewrite <- (app_nil_r w) at 1. rewrite split_on_word by done. cbn. by rewrite decide_False.
  - rewrite join_with_cons by done. rewrite split_on_word by done. cbn [app split_on]. rewrite Ascii.eqb_refl.
    rewrite decide_False by done. by rewrite IHF.
Qed.
Lemma tokenize_ref_laws : @TokenizeLaws common_ref.
Proof. split. intros c ws F. cbn. by apply split_on_join. Qed.

(** The address up to the cluster's own port, with the local host under its two usual names. *)
Definition discovery_ref : DiscoveryLib := {|
  HostAndPortAndSlot_default := mkHostSlot [] 0 0;
  HostAndPortAndSlot_FromString t :=
    match split_on ":" t [] with
    | [h; p] => mkHostSlot h (@FromString_int common_ref (List.hd [] (split_on "@" p []))) 0
    | _ => mkHostSlot [] 0 0
    end;
  isLocalHost h := bool_decide (h = lit "localhost") || bool_decide (h = lit "127.0.0.1")
|}.

Definition sample_parent : HostAndPort := mkHostAndPort (lit "db.example") 6379.
Definition sample_nodes : list cluster_node := [
  mkNode (lit "07c3") (lit "127.0.0.1:30001@31001") true false false (lit "-", lit "0", lit "142", lit "1") true [lit "0-5460"];
  mkNode (lit "67ed") (lit "10.0.0.2:30002@31002") false true true (lit "07c3", lit "7", lit "142", lit "2") false []].

(** C17. A text of CLUSTER NODES, one line for each node, gives for each node, in order, its name, its address
    (with the host of the connection in the place of a local one), whether it is a master or a slave, whether its
    link is up, and whether it is the node asked; what is behind the last newline is left out.  The loop over the
    lines ends on every text without an empty line, and never on one with an empty line. *)
Theorem cluster_discovered `{CommonLaws} `{!TokenizeLaws} `{!DiscoveryLib} parent infos :
  (∀ nodes rest, nodes ≠ [] → Forall node_ok nodes → chr_nl ∉ rest →
    makeDiscoveryClusterInfo parent (nodes_text nodes ++ rest) infos = Val (no_error, infos ++ List.map (node_info parent) nodes)) ∧
  (∀ text, text ≠ [] →
    if bool_decide ([] ∈ nl_lines text) then ∀ fuel, cluster_loop fuel parent text infos = Fault OutOfFuel
    else makeDiscoveryClusterInfo parent text infos = Val (no_error, infos ++ List.map (line_info parent) (nl_lines text))).
Proof. split; intros; [by apply nodes_discovered | by apply discovery_ends]. Qed.

Lemma cluster_discovered_witness :
  @makeDiscoveryClusterInfo common_ref discovery_ref sample_parent (nodes_text sample_nodes ++ lit "07") [] =
    Val (no_error, [mkClusterInfo (mkCommonInfo (lit "07c3") MASTER SUP SCONNECTED (mkHostSlot (lit "db.example") 30001 0)) true;
                    mkClusterInfo (mkCommonInfo (lit "67ed") SLAVE SDOWN SCONNECTED (mkHostSlot (lit "10.0.0.2") 30002 0)) false]) ∧
  ∀ fuel, @cluster_loop common_ref discovery_ref fuel sample_parent (lit "a" ++ [chr_nl; chr_nl]) [] = Fault OutOfFuel.
Proof.
  destruct (@cluster_discovered common_ref common_ref_laws tokenize_ref_laws discovery_ref sample_parent []) as [T1 T2]. split.
  - etransitivity; [apply (T1 sample_nodes (lit "07")) | by vm_compute].
    + done.
    + apply (bool_decide_unpack _). by vm_compute.
    + apply (bool_decide_unpack _). by vm_compute.
  - exact (T2 (lit "a" ++ [chr_nl; chr_nl]) ltac:(done)).
Defined.

(** The answer of a sentinel about a server, names and values in any order and each name once, is read as its
    fields say: the name, the host and the port, the state and the connection from the flags, and its role. *)
Theorem sentinel_answer_read `{CommonLaws} `{!TokenizeLaws} `{!DiscoveryLib} (l : list (bytes * bytes)) (flags : list bytes) :
  NoDup (List.map (λ p, c_str p.1) l) →
  field_value (lit "flags") l = Some (join_with (lit ",") flags) → Forall (λ w, (w ≠ []) ∧ (","%char ∉ w)) flags →
  ∃ i, MakeServerCommonInfo (fields_reply l) = Val (no_error, i) ∧
    si_name i = default [] (field_value (lit "name") l) ∧
    hs_host (si_host i) = default (hs_host HostAndPortAndSlot_default) (field_value (lit "ip") l) ∧
    hs_port (si_host i) = default (hs_port HostAndPortAndSlot_default) (FromString_uint16 <$> field_value (lit "port") l) ∧
    si_state i = (if bool_decide (lit "s_down" ∈ flags) then SDOWN else SUP) ∧
    si_cstate i = (if bool_decide (lit "disconnected" ∈ flags) then SDISCONNECTED else SCONNECTED) ∧
    (lit "slave" ∈ flags → lit "master" ∉ flags → si_type i = SLAVE) ∧ (lit "slave" ∉ flags → si_type i = MASTER).
Proof. apply sentinel_parts. Qed.

Definition sample_fields : list (bytes * bytes) :=
  [(lit "flags", lit "s_down,slave"); (lit "quorum", lit "2"); (lit "port", lit "6380"); (lit "name", lit "mymaster"); (lit "ip", lit "10.0.0.7")].
Lemma sentinel_answer_read_witness :
  ∃ i, @MakeServerCommonInfo common_ref discovery_ref (fields_reply sample_fields) = Val (no_error, i) ∧
    si_name i = lit "mymaster" ∧ hs_port (si_host i) = 6380 ∧ si_state i = SDOWN ∧ si_type i = SLAVE.
Proof.
  destruct (@sentinel_answer_read common_ref common_ref_laws tokenize_ref_laws discovery_ref sample_fields [lit "s_down"; lit "slave"])
    as (i & E & N & _ & P & S & _ & T & _).
  - apply (bool_decide_unpack _). by vm_compute.
  - done.
  - apply (bool_decide_unpack _). by vm_compute.
  - exists i. split; [exact E |]. split; [exact N |]. split; [exact P |]. split; [exact S |].
    apply T; apply (bool_decide_unpack _); by vm_compute.
Defined.
