(* ===== verification/ServersManager.v ===== *)
(** The registry of servers, clusters and sentinels, and the test of a connection by its type:
    [core/servers_manager.cpp], [core/cluster/icluster.cpp], [core/sentinel/isentinel.cpp]. *)
From Stdlib Require Import Ascii String ZArith Lia.
From stdpp Require Import base list gmap.
From S2P Require Import Prelude Common Texts Values Connection Sds Hiredis HiredisFormat HiredisReader HiredisContext Configs Translators SshInfo RedisReply RedisConn ConnectionTypes ConnSettings ConnSettingsProps NativeKv LsmConn LmdbConn UnqliteConn UpscaledbConn SsdbClient SsdbConn MemcachedConn Discovery.
Local Open Scope Z_scope.
#[local] Set Warnings "-register-all".

(** * Data

    A server is a number, given out in turn; the type of each is kept in [made_].  A pointer in [servers_] is
    [None] when it has been moved away. *)
Definition IServerSPtr : Type := nat.
Record ICluster := mkICluster { cluster_name : bytes; nodes_ : list (option IServerSPtr) }.
Record Sentinel := mkSentinel { sent_server : option IServerSPtr; sentinels_nodes : list (option IServerSPtr) }.
Record ISentinel := mkISentinel { sentinel_name : bytes; sentinels_ : list Sentinel }.

Record ServersManager := mkManager { made_ : list connectionTypes; servers_ : list (option IServerSPtr) }.

Section Manager.
Context `{SettingsLib}.
Implicit Types (m : ServersManager).

(** ** Opening *)

(** All databases are built in: every type makes a server. *)
Definition CreateServer (settings : option Settings) m : option IServerSPtr * ServersManager :=
  match settings with
  | None => (None, m)
  | Some s =>
    let server := length (made_ m) in
    (Some server, mkManager (made_ m ++ [type_ (cs_base s)]) (servers_ m ++ [Some server]))
  end.

(** [CreateServer] for each element, and the pointers. *)
Fixpoint create_servers (l : list Settings) m : list (option IServerSPtr) * ServersManager :=
  match l with
  | [] => ([], m)
  | s :: l =>
    let '(serv, m) := CreateServer (Some s) m in
    let '(servs, m) := create_servers l m in
    (serv :: servs, m)
  end.
Fixpoint create_sentinels (l : list SentinelSettings) m : list Sentinel * ServersManager :=
  match l with
  | [] => ([], m)
  | nd :: l =>
    let '(sent_serv, m) := CreateServer (sentinel nd) m in
    let '(nodes, m) := create_servers (sentinel_nodes nd) m in
    let '(sents, m) := create_sentinels l m in
    (mkSentinel sent_serv nodes :: sents, m)
  end.

Definition CreateSentinel (settings : option ISentinelSettingsBase) m : option ISentinel * ServersManager :=
  match settings with
  | None => (None, m)
  | Some s =>
    match type_ (st_base s) with
    | REDIS =>
      let '(sents, m) := create_sentinels (sentinel_nodes_ s) m in
      (Some (mkISentinel (Path_ToString (connection_path_ (st_base s))) sents), m)
    | _ => (None, m)
    end
  end.

Definition CreateCluster (settings : option IClusterSettingsBase) m : option ICluster * ServersManager :=
  match settings with
  | None => (None, m)
  | Some s =>
    match type_ (cl_base s) with
    | REDIS =>
      let '(nodes, m) := create_servers (clusters_nodes_ s) m in
      (Some (mkICluster (Path_ToString (connection_path_ (cl_base s))) nodes), m)
    | _ => (None, m)
    end
  end.

(** [ICluster::Root]: the first remote server that is a master; [Role] gives nothing for the others. *)
Fixpoint find_root (Role : IServerSPtr → option serverTypes) (nodes : list (option IServerSPtr)) : option IServerSPtr :=
  match nodes with
  | [] => None
  | Some n :: nodes => if bool_decide (Role n = Some MASTER) then Some n else find_root Role nodes
  | None :: nodes => find_root Role nodes
  end.
Definition Root (Role : IServerSPtr → option serverTypes) (c : ICluster) : option IServerSPtr := find_root Role (nodes_ c).

(** ** Closing *)

Definition Clear m : ServersManager := mkManager (made_ m) [].

(** [std::remove]: the others move to the front, in order; behind them stays what was there, and what was moved
    from there is null.  It gives the place behind the others. *)
Definition std_remove (v : option IServerSPtr) (l : list (option IServerSPtr)) : list (option IServerSPtr) * nat :=
  let kept := List.filter (λ x, negb (bool_decide (x = v))) l in
  (kept ++ List.map (λ x, if bool_decide (x = v) then x else None) (drop (length kept) l), length kept).

(** [erase] of one place; the place behind the last one is no place. *)
Definition erase_at (place : nat) (l : list (option IServerSPtr)) : outcome (list (option IServerSPtr)) :=
  if (place <? length l)%nat then Val (take place l ++ drop (S place) l) else Fault OutOfBounds.

Definition CloseServer (server : option IServerSPtr) m : outcome ServersManager :=
  let '(l, place) := std_remove server (servers_ m) in
  l ← erase_at place l;
  Val (mkManager (made_ m) l).

Fixpoint close_servers (l : list (option IServerSPtr)) m : outcome ServersManager :=
  match l with [] => Val m | s :: l => m ← CloseServer s m; close_servers l m end.

Definition CloseCluster (cluster : option ICluster) m : outcome ServersManager :=
  match cluster with None => Fault NullPointer | Some c => close_servers (nodes_ c) m end.

(** The servers of the sentinels themselves are not closed. *)
Fixpoint close_sentinels (l : list Sentinel) m : outcome ServersManager :=
  match l with [] => Val m | s :: l => m ← close_servers (sentinels_nodes s) m; close_sentinels l m end.
Definition CloseSentinel (sentinel : option ISentinel) m : outcome ServersManager :=
  match sentinel with None => Fault NullPointer | Some s => close_sentinels (sentinels_ s) m end.
End Manager.

(** ** Discovery

    Only Redis has it.  The settings of a Redis connection are Redis settings, or else the cast is wrong. *)
Section Discovery.
Context `{SettingsLib} {N : Type} `{Network N} `{!RedisEnv N} `{Alloc} `{Patience} `{CommonLib} `{!CommonRedis}
  `{!ConfigLib} `{!CNumbers} `{!Project} `{!DiscoveryLib}.

Definition not_supported : Error := make_error_value (lit "Not supported setting type") E_ERROR.

Definition discovery_of {I : Type} (redis : RConfig → list I → N → outcome (Error * list I * N)) (connection : option Settings)
    (inf : option (list I)) (n : N) : outcome (Error * option (list I) * N) :=
  match connection, inf with
  | Some s, Some infos =>
    match type_ (cs_base s) with
    | REDIS =>
      match cs_derived s with
      | DRedis set ssh =>
        '(er, infos, n) ← redis (mkRConfig (RedisSettings.Info set) ssh) infos n; Val (er, Some infos, n)
      | _ => Fault CheckFailed
      end
    | _ => Val (not_supported, inf, n)
    end
  | _, _ => Val (invalid_arguments, inf, n)
  end.
Definition Manager_DiscoveryClusterConnection := discovery_of DiscoveryClusterConnection.
Definition Manager_DiscoverySentinelConnection := discovery_of DiscoverySentinelConnection.
End Discovery.

(** * What is registered *)

Section Registered.
Context `{SettingsLib}.
Implicit Types (m : ServersManager) (l : list IServerSPtr).

(** The registered servers are [l]: each of them once, and made before. *)
Definition registers m l : Prop := servers_ m = List.map Some l ∧ NoDup l ∧ Forall (λ p, p < length (made_ m))%nat l.

Definition without (p : IServerSPtr) l : list IServerSPtr := List.filter (λ q, negb (bool_decide (q = p))) l.

Lemma filter_some p l : List.filter (λ x, negb (bool_decide (x = Some p))) (List.map Some l) = List.map Some (without p l).
Proof.
  induction l as [| q l IH]; [done |]. cbn. assert (E : bool_decide (Some q = Some p) = bool_decide (q = p)) by (apply bool_decide_ext; naive_solver).
  rewrite E. destruct (bool_decide (q = p)); cbn; [exact IH | by f_equal].
Qed.
Lemma without_absent p l : p ∉ l → without p l = l.
Proof.
  induction l as [| q l IH]; intros N; [done |]. apply not_elem_of_cons in N as [Nq N]. cbn. rewrite bool_decide_false by done. cbn.
  f_equal. exact (IH N).
Qed.
Lemma without_length p l : NoDup l → p ∈ l → length l = S (length (without p l)).
Proof.
  induction 1 as [| q l Nq Nd IH]; intros I; [by apply elem_of_nil in I |]. cbn. apply elem_of_cons in I as [<- | I].
  - rewrite bool_decide_true by done. cbn. fold (without p l). by rewrite without_absent.
  - rewrite bool_decide_false by (by intros ->). cbn. fold (without p l). by rewrite (IH I).
Qed.
Lemma without_sub p l q : q ∈ without p l ↔ q ≠ p ∧ q ∈ l.
Proof.
  unfold without. rewrite !list_elem_of_In, filter_In, negb_true_iff, bool_decide_eq_false. tauto.
Qed.
Lemma without_NoDup p l : NoDup l → NoDup (without p l).
Proof. rewrite !NoDup_ListNoDup. apply List.NoDup_filter. Qed.

(** Taking out a pointer that is there once; one that is not there leaves nothing to erase. *)
Lemma remove_once p l : NoDup l → p ∈ l →
  (let '(l', place) := std_remove (Some p) (List.map Some l) in erase_at place l') = Val (List.map Some (without p l)).
Proof.
  intros Nd I. unfold std_remove. rewrite filter_some, List.length_map.
  set (tl := drop _ _). pose proof (without_length p l Nd I) as L.
  assert (T : length tl = 1%nat) by (unfold tl; rewrite length_drop, List.length_map; lia).
  destruct tl as [| x [|]] eqn:Et; [done | | done]. unfold erase_at. rewrite length_app, !List.length_map. cbn [List.map length].
  rewrite (proj2 (Nat.ltb_lt _ _)) by lia. rewrite take_app_length' by (by rewrite List.length_map).
  rewrite drop_ge; [by rewrite app_nil_r |]. rewrite length_app, List.length_map. cbn. lia.
Qed.
Lemma remove_none p l : p ∉ l →
  (let '(l', place) := std_remove (Some p) (List.map Some l) in erase_at place l') = Fault OutOfBounds.
Proof.
  intros N. unfold std_remove. rewrite filter_some, without_absent by done. rewrite List.length_map, drop_ge by (by rewrite List.length_map).
  cbn [List.map]. unfold erase_at. rewrite app_nil_r, List.length_map, (proj2 (Nat.ltb_ge _ _)) by lia. done.
Qed.

(** Closing a registered server takes it out; the place of one that is not registered is none. *)
Lemma CloseServer_registered p m l : registers m l → p ∈ l → ∃ m', CloseServer (Some p) m = Val m' ∧ registers m' (without p l) ∧ made_ m' = made_ m.
Proof.
  intros (S & Nd & B) I. pose proof (remove_once p l Nd I) as R. unfold CloseServer. rewrite S.
  destruct (std_remove _ _) as [l' place]. rewrite R. eexists. split; [done |]. split; [| done]. split; [done |].
  split; [by apply without_NoDup |]. apply Forall_forall. intros q [_ Iq]%without_sub. by eapply Forall_forall in B.
Qed.
Lemma CloseServer_absent p m l : registers m l → p ∉ l → CloseServer (Some p) m = Fault OutOfBounds.
Proof.
  intros (S & _ & _) N. pose proof (remove_none p l N) as R. unfold CloseServer. rewrite S. destruct (std_remove _ _). by rewrite R.
Qed.

Lemma CreateServer_registers s p m m' l : CreateServer (Some s) m = (p, m') → registers m l →
  p = Some (length (made_ m)) ∧ registers m' (l ++ [length (made_ m)]) ∧ length (made_ m') = S (length (made_ m)).
Proof.
  intros [= <- <-] (S & Nd & B). split; [done |]. cbn. split; [| rewrite length_app; cbn; lia]. split; [| split].
  - cbn. rewrite S, List.map_app. done.
  - apply NoDup_app. split; [done |]. split; [| apply NoDup_singleton]. intros q Iq ->%list_elem_of_singleton.
    eapply Forall_forall in B; [| exact Iq]. lia.
  - cbn. rewrite length_app. cbn. apply Forall_app_2; [| by constructor; [lia |]]. eapply Forall_impl; [exact B |]. cbn. lia.
Qed.

(** Servers from [n] on. *)
Lemma create_servers_registers ss : ∀ m ps m' l, create_servers ss m = (ps, m') → registers m l →
  ps = List.map Some (seq (length (made_ m)) (length ss)) ∧ registers m' (l ++ seq (length (made_ m)) (length ss)) ∧
  length (made_ m') = (length (made_ m) + length ss)%nat.
Proof.
  induction ss as [| s ss IH]; intros m ps m' l; cbn [create_servers].
  - intros [= <- <-] R. cbn. rewrite app_nil_r, Nat.add_0_r. done.
  - destruct (CreateServer (Some s) m) as [p m1] eqn:E1. destruct (create_servers ss m1) as [ps1 m2] eqn:E2. intros [= <- <-] R.
    destruct (CreateServer_registers _ _ _ _ _ E1 R) as (-> & R1 & L1). destruct (IH _ _ _ _ E2 R1) as (-> & R2 & L2).
    rewrite L1 in *. cbn. split; [done |]. rewrite <- (assoc (++)) in R2. split; [exact R2 | lia].
Qed.

(** The pointers that are not null. *)
Definition ptrs (l : list (option IServerSPtr)) : list IServerSPtr := omap (λ x, x) l.

Lemma ptrs_some l : ptrs (List.map Some l) = l.
Proof. induction l as [| p l IH]; [done |]. cbn. by f_equal. Qed.

(** Closing servers that are all registered, each once. *)
Lemma close_servers_registered ps : ∀ m l, registers m l → NoDup ps → Forall (λ p, p ∈ l) ps →
  ∃ m', close_servers (List.map Some ps) m = Val m' ∧ registers m' (List.filter (λ q, negb (bool_decide (q ∈ ps))) l) ∧ made_ m' = made_ m.
Proof.
  induction ps as [| p ps IH]; intros m l R Nd F.
  - exists m. split; [done |]. split; [| done]. replace (List.filter _ l) with l; [done |]. clear.
    induction l as [| q l IH]; [done |]. cbn. by f_equal.
  - apply NoDup_cons in Nd as [Np Nd]. apply Forall_cons in F as [Fp F]. destruct (CloseServer_registered p m l R Fp) as (m1 & E1 & R1 & M1).
    destruct (IH m1 (without p l) R1 Nd) as (m2 & E2 & R2 & M2).
    { apply Forall_forall. intros q Iq. apply without_sub. split; [by intros -> |]. by eapply Forall_forall in F. }
    exists m2. cbn [List.map close_servers]. rewrite E1. split; [exact E2 |]. split; [| congruence].
    replace (List.filter _ l) with (List.filter (λ q, negb (bool_decide (q ∈ ps))) (without p l)); [done |].
    clear. induction l as [| q l IH]; [done |]. cbn. rewrite (bool_decide_ext (q ∈ p :: ps) (q = p ∨ q ∈ ps)) by apply elem_of_cons.
    destruct (decide (q = p)) as [-> | Nq].
    + rewrite bool_decide_true, bool_decide_true by auto. cbn. exact IH.
    + rewrite (bool_decide_false (q = p)) by done. cbn. rewrite (bool_decide_ext (q = p ∨ q ∈ ps) (q ∈ ps)) by tauto.
      destruct (bool_decide (q ∈ ps)); cbn; [exact IH | by f_equal].
Qed.
Lemma filter_away (l ps : list IServerSPtr) : (∀ q, q ∈ l → q ∉ ps) →
  List.filter (λ q, negb (bool_decide (q ∈ ps))) (l ++ ps) = l.
Proof.
  intros D. rewrite List.filter_app.
  assert (E1 : List.filter (λ q, negb (bool_decide (q ∈ ps))) ps = []).
  { assert (G : ∀ ps', (∀ q, q ∈ ps' → q ∈ ps) → List.filter (λ q, negb (bool_decide (q ∈ ps))) ps' = []); [| by apply G].
    induction ps' as [| q ps' IH]; intros I; [done |]. cbn. rewrite bool_decide_true by (apply I; left). cbn. apply IH. intros q' I'. apply I. by right. }
  rewrite E1, app_nil_r. induction l as [| q l IH]; [done |]. cbn. rewrite bool_decide_false by (apply D; left). cbn. f_equal. apply IH.
  intros q' I'. apply D. by right.
Qed.

Definition owns (l : list Sentinel) : list IServerSPtr := List.concat (List.map (λ s, ptrs [sent_server s]) l).
Definition nodes_of (l : list Sentinel) : list IServerSPtr := List.concat (List.map (λ s, ptrs (sentinels_nodes s)) l).
Definition all_of (l : list Sentinel) : list IServerSPtr :=
  List.concat (List.map (λ s, ptrs [sent_server s] ++ ptrs (sentinels_nodes s)) l).
(** No node is null. *)
Definition full (s : Sentinel) : Prop := sentinels_nodes s = List.map Some (ptrs (sentinels_nodes s)).

Lemma all_of_split (l : list Sentinel) : all_of l ≡ₚ owns l ++ nodes_of l.
Proof.
  induction l as [| s l IH]; [done |]. unfold all_of, owns, nodes_of in *. cbn [List.map List.concat]. rewrite IH. solve_Permutation.
Qed.

Lemma create_sentinels_registers ss : ∀ m sents m' l, create_sentinels ss m = (sents, m') → registers m l →
  ∃ k, all_of sents = seq (length (made_ m)) k ∧ registers m' (l ++ seq (length (made_ m)) k) ∧
    length (made_ m') = (length (made_ m) + k)%nat ∧ Forall full sents.
Proof.
  induction ss as [| nd ss IH]; intros m sents m' l; cbn [create_sentinels].
  - intros [= <- <-] R. exists 0%nat. cbn. rewrite app_nil_r, Nat.add_0_r. done.
  - destruct (CreateServer (sentinel nd) m) as [p m1] eqn:E1. destruct (create_servers (sentinel_nodes nd) m1) as [ps m2] eqn:E2.
    destruct (create_sentinels ss m2) as [rest m3] eqn:E3. intros [= <- <-] R.
    assert (K : ∃ j, ptrs [p] = seq (length (made_ m)) j ∧ registers m1 (l ++ seq (length (made_ m)) j) ∧ length (made_ m1) = (length (made_ m) + j)%nat).
    { destruct (sentinel nd) as [st |].
      - destruct (CreateServer_registers _ _ _ _ _ E1 R) as (-> & R1 & L1). exists 1%nat. split; [done |]. split; [exact R1 | lia].
      - injection E1 as <- <-. exists 0%nat. cbn. rewrite app_nil_r, Nat.add_0_r. done. }
    destruct K as (j & P1 & R1 & L1). destruct (create_servers_registers _ _ _ _ _ E2 R1) as (-> & R2 & L2).
    destruct (IH _ _ _ _ E3 R2) as (k & A & R3 & L3 & F). exists (j + length (sentinel_nodes nd) + k)%nat.
    rewrite L2, L1 in *. rewrite <- !(assoc (++)) in R3. split; [| split; [| split; [lia |]]].
    + unfold all_of in *. cbn [List.map List.concat sent_server sentinels_nodes]. rewrite A, P1, ptrs_some. rewrite <- (assoc (++)).
      rewrite !seq_app, <- (assoc (++)). by rewrite Nat.add_assoc.
    + rewrite !seq_app, <- (assoc (++)), Nat.add_assoc. exact R3.
    + constructor; [| exact F]. unfold full. cbn. by rewrite ptrs_some.
Qed.

Lemma close_servers_app a b m : close_servers (a ++ b) m = m ← close_servers a m; close_servers b m.
Proof. revert m. induction a as [| p a IH]; intros m; [done |]. cbn [app close_servers]. destruct (CloseServer p m) as [m1 |]; [apply IH | done]. Qed.
Lemma close_sentinels_nodes (l : list Sentinel) m : Forall full l → close_sentinels l m = close_servers (List.map Some (nodes_of l)) m.
Proof.
  revert m. induction l as [| s l IH]; intros m F; [done |]. apply Forall_cons in F as [Fs F]. unfold nodes_of. cbn.
  rewrite List.map_app, close_servers_app, <- Fs. destruct (close_servers _ m) as [m1 |]; [by apply IH | done].
Qed.

(** What is not a node is the server of a sentinel. *)
Lemma filter_owns (ns : list IServerSPtr) (l : list Sentinel) : (∀ q, q ∈ owns l → q ∉ ns) → (∀ q, q ∈ nodes_of l → q ∈ ns) →
  List.filter (λ q, negb (bool_decide (q ∈ ns))) (all_of l) = owns l.
Proof.
  induction l as [| s l IH]; intros O N; [done |]. unfold all_of, owns, nodes_of in *. cbn [List.map List.concat] in *.
  rewrite !List.filter_app, IH.
  - f_equal. rewrite <- (app_nil_r (ptrs [sent_server s])) at 2. f_equal.
    + cbn in *. destruct (sent_server s) as [q |]; [| done]. cbn. rewrite bool_decide_false; [done |]. apply O. cbn. left.
    + assert (N' : ∀ q, q ∈ ptrs (sentinels_nodes s) → q ∈ ns) by (intros q I; apply N, elem_of_app; by left). clear - N'.
      induction (ptrs (sentinels_nodes s)) as [| q ps IH]; [done |]. cbn. rewrite bool_decide_true by (apply N'; left). cbn.
      apply IH. intros q' I. apply N'. by right.
  - intros q I. apply O, elem_of_app. by right.
  - intros q I. apply N, elem_of_app. by right.
Qed.

(** A cluster that is opened and closed again leaves the registry as it was. *)
Lemma cluster_open_close settings c m m1 l : CreateCluster settings m = (Some c, m1) → registers m l →
  ∃ m2, registers m1 (l ++ ptrs (nodes_ c)) ∧ CloseCluster (Some c) m1 = Val m2 ∧ registers m2 l.
Proof.
  unfold CreateCluster. destruct settings as [s |]; [| done]. destruct (type_ (cl_base s)); try done.
  destruct (create_servers _ m) as [ps m'] eqn:E. intros [= <- <-] R. destruct (create_servers_registers _ _ _ _ _ E R) as (-> & R1 & _).
  cbn. rewrite ptrs_some. pose proof R as (S & Nd & B). pose proof R1 as (S1 & Nd1 & B1).
  destruct (close_servers_registered (seq (length (made_ m)) (length (clusters_nodes_ s))) m' _ R1) as (m2 & E2 & R2 & _).
  { apply NoDup_seq. }
  { apply Forall_forall. intros q I. apply elem_of_app. by right. }
  exists m2. split; [exact R1 |]. split; [exact E2 |]. rewrite filter_away in R2; [exact R2 |].
  intros q I I'%elem_of_seq. eapply Forall_forall in B; [| exact I]. lia.
Qed.

(** Sentinels that are opened and closed again leave their own servers behind. *)
Lemma sentinel_open_close settings c m m1 l : CreateSentinel settings m = (Some c, m1) → registers m l →
  ∃ m2, registers m1 (l ++ all_of (sentinels_ c)) ∧ CloseSentinel (Some c) m1 = Val m2 ∧ registers m2 (l ++ owns (sentinels_ c)).
Proof.
  unfold CreateSentinel. destruct settings as [s |]; [| done]. destruct (type_ (st_base s)); try done.
  destruct (create_sentinels _ m) as [sents m'] eqn:E. intros [= <- <-] R.
  destruct (create_sentinels_registers _ _ _ _ _ E R) as (k & A & R1 & _ & F). cbn [CloseSentinel sentinels_].
  rewrite close_sentinels_nodes by done. rewrite A. pose proof R as (_ & _ & B).
  assert (Nd : NoDup (owns sents ++ nodes_of sents)) by (rewrite <- all_of_split, A; apply NoDup_seq).
  apply NoDup_app in Nd as (No & Dis & Nn).
  assert (M : ∀ q, q ∈ nodes_of sents → q ∈ seq (length (made_ m)) k).
  { intros q I. rewrite <- A, all_of_split. apply elem_of_app. by right. }
  destruct (close_servers_registered (nodes_of sents) m' _ R1 Nn) as (m2 & E2 & R2 & _).
  { apply Forall_forall. intros q I. apply elem_of_app. right. by apply M. }
  exists m2. split; [exact R1 |]. split; [exact E2 |]. rewrite List.filter_app in R2. rewrite <- A in R2.
  rewrite filter_owns in R2; [| exact Dis | done]. rewrite <- (app_nil_r l) in R2 at 1.
  assert (Fl : List.filter (λ q, negb (bool_decide (q ∈ nodes_of sents))) l = l).
  { apply (f_equal (λ x, x)). clear R2. assert (Away : ∀ q, q ∈ l → q ∉ nodes_of sents).
    { intros q I I'%M%elem_of_seq. eapply Forall_forall in B; [| exact I]. lia. }
    clear - Away. induction l as [| q l IH]; [done |]. cbn. rewrite bool_decide_false by (apply Away; left). cbn. f_equal.
    apply IH. intros q' I. apply Away. by right. }
  rewrite app_nil_r, Fl in R2. exact R2.
Qed.
End Registered.

(** * Opening and closing *)

(** C21. Opening registers exactly the servers that are made, each once; closing a server that is registered takes
    out exactly that one, and closing one that is not erases a place behind the end.  A cluster that is opened and
    closed again leaves the registry as it was; sentinels leave their own servers registered. *)
Theorem servers_opened_closed `{SettingsLib} (m : ServersManager) (l : list IServerSPtr) : registers m l →
  (∀ s p m1, CreateServer (Some s) m = (p, m1) → p = Some (length (made_ m)) ∧ registers m1 (l ++ [length (made_ m)])) ∧
  (∀ p, p ∈ l → ∃ m2, CloseServer (Some p) m = Val m2 ∧ registers m2 (without p l)) ∧
  (∀ p, p ∉ l → CloseServer (Some p) m = Fault OutOfBounds) ∧
  (∀ settings c m1, CreateCluster settings m = (Some c, m1) →
    ∃ m2, registers m1 (l ++ ptrs (nodes_ c)) ∧ CloseCluster (Some c) m1 = Val m2 ∧ registers m2 l) ∧
  (∀ settings c m1, CreateSentinel settings m = (Some c, m1) →
    ∃ m2, registers m1 (l ++ all_of (sentinels_ c)) ∧ CloseSentinel (Some c) m1 = Val m2 ∧ registers m2 (l ++ owns (sentinels_ c))).
Proof.
  intros R. split_and!; intros.
  - by destruct (CreateServer_registers _ _ _ _ _ H0 R) as (? & ? & _).
  - destruct (CloseServer_registered p m l R) as (m2 & ? & ? & _); eauto.
  - by eapply CloseServer_absent.
  - by eapply cluster_open_close.
  - by eapply sentinel_open_close.
Qed.

Section Witness.
#[local] Existing Instance settings_ref.
Definition one_sentinel : ISentinelSettingsBase :=
  AddSentinel (mkSentinelSettings (Some sample_redis) [sample_redis; sample_redis]) (Sentinel_new (lit "/sentinels")).

Lemma servers_opened_closed_witness :
  let m := mkManager [REDIS; SSDB] [Some 1%nat] in
  registers m [1%nat] ∧
  ∃ c m1 m2, CreateSentinel (Some one_sentinel) m = (Some c, m1) ∧ servers_ m1 = [Some 1; Some 2; Some 3; Some 4]%nat ∧
    CloseSentinel (Some c) m1 = Val m2 ∧ registers m2 [1; 2]%nat.
Proof.
  intros m. assert (R : registers m [1%nat]) by (split; [done |]; split; [apply NoDup_singleton |]; by repeat constructor). split; [exact R |].
  destruct (servers_opened_closed m [1%nat] R) as (_ & _ & _ & _ & T).
  destruct (T (Some one_sentinel) _ _ eq_refl) as (m2 & R1 & E & R2).
  do 3 eexists. split; [reflexivity |]. split; [by destruct R1 as [-> _] |]. split; [exact E | exact R2].
Defined.
End Witness.

Local Open Scope Z_scope.
#[local] Set Warnings "-register-all".

Section Test.
Context `{SettingsLib} {N : Type} `{Network N} `{!RedisEnv N} `{Alloc} `{Patience} `{CommonLib} `{!CommonRedis}
  `{!ConfigLib} `{!CNumbers} `{!Project}.
(** The stores of one machine share its state [W]; the handles of LevelDB and of RocksDB are of two types. *)
Context {W HM L HL HR HU CU E T EU DU CC : Type} `{!NativeFiles W}
  `{!MemcachedLib HM W} `{!SsdbLink L W} (ldb : LsmLib HL W) (rdb : LsmLib HR W) `{!UnqliteLib HU CU W} `{!LmdbLib E T W}
  `{!UpscaledbLib EU DU CC W}.

(** The state behind Redis is of its own. *)
Definition on_machine (r : Error * W) (n : N) : outcome (Error * (N * W)) := Val (r.1, (n, r.2)).

(** The settings of a connection are of its type, or else the cast is wrong. *)
Definition Manager_TestConnection (connection : option Settings) (st : N * W) : outcome (Error * (N * W)) :=
  let '(n, w) := st in
  match connection with
  | None => Val (invalid_arguments, st)
  | Some s =>
    match type_ (cs_base s), cs_derived s with
    | REDIS, DRedis set ssh => '(er, n) ← TestConnection (mkRConfig (RedisSettings.Info set) ssh) n; Val (er, (n, w))
    | MEMCACHED, DMemcached set => on_machine (MemcachedConn.TestConnection (Some (MemcachedSettings.Info set)) w) n
    | SSDB, DSsdb set => on_machine (SsdbConn.TestConnection (Some (SsdbSettings.Info set)) w) n
    | LEVELDB, DLeveldb set => on_machine (LeveldbConn.TestConnection (Some (LeveldbSettings.Info set)) w) n
    | ROCKSDB, DRocksdb set => on_machine (RocksdbConn.TestConnection (Some (RocksdbSettings.Info set)) w) n
    | UNQLITE, DUnqlite set => on_machine (UnqliteConn.TestConnection (Some (UnqliteSettings.Info set)) w) n
    | LMDB, DLmdb set => on_machine (LmdbConn.TestConnection (Some (LmdbSettings.Info set)) w) n
    | UPSCALEDB, DUpscaledb set => on_machine (UpscaledbConn.TestConnection (Some (UpscaledbSettings.Info set)) w) n
    | _, _ => Fault CheckFailed
    end
  end.

(** * A test is a session

    Opening as [Connect] does, and closing again when that succeeds; only Memcached is pinged instead. *)
Definition session {Cfg Hd : Type} (tr : ConnectionTraits Cfg Hd W) (config : Cfg) (w : W) : Error * W :=
  let '(er, handle, w) := traits_Connect config w in
  if isError er then (er, w) else (no_error, (traits_Disconnect handle w).2).

Definition test_session (d : derived) (w : W) : option (Error * W) :=
  match d with
  | DRedis _ _ | DMemcached _ => None
  | DSsdb set => Some (session SsdbConn.traits (SsdbSettings.Info set) w)
  | DLeveldb set => Some (session LeveldbConn.traits (LeveldbSettings.Info set) w)
  | DRocksdb set => Some (session RocksdbConn.traits (RocksdbSettings.Info set) w)
  | DUnqlite set => Some (session UnqliteConn.traits (UnqliteSettings.Info set) w)
  | DLmdb set => Some (session LmdbConn.traits (LmdbSettings.Info set) w)
  | DUpscaledb set => Some (session UpscaledbConn.traits (UpscaledbSettings.Info set) w)
  end.

(** The result of opening, whatever it is. *)
Ltac opened :=
  unfold session, on_machine; cbn;
  let er := fresh "er" in let Er := fresh "Er" in
  match goal with |- context [match ?m with pair _ _ => _ end] => destruct m as [[er ?] ?] end;
  destruct (isError er) eqn:Er; cbn; by rewrite ?Er.

(** The settings are of their type, as all that the factory makes and all that are changed are. *)
Lemma test_is_session s n w r : settings_wf s → test_session (cs_derived s) w = Some r →
  Manager_TestConnection (Some s) (n, w) = Val (r.1, (n, r.2)).
Proof.
  intros [Ty _]. unfold Manager_TestConnection. rewrite Ty.
  destruct (cs_derived s) as [| | set | set | set | set | set | set]; cbn [test_session derived_type]; intros [= <-];
    cbn [SsdbConn.TestConnection LmdbConn.TestConnection UnqliteConn.TestConnection UpscaledbConn.TestConnection]; opened.
Qed.
End Test.
