(* ===== verification/SettingsStore.v ===== *)
(** The settings of the program and where they are kept: [core/settings_manager.cpp]. *)
From Stdlib Require Import Ascii String ZArith Lia.
From stdpp Require Import base list.
From S2P Require Import Prelude Common Texts Values Configs Sds Hiredis SshInfo ConnectionTypes ConnSettings ConnSettingsProps ServersManager.
Local Open Scope Z_scope.
#[local] Set Warnings "-register-all".

(** Qt: texts with their two conversions, variants, and files of settings [F] in a world [W].  A file is read when
    it is opened and written when it is closed; what is written as one variant is read as another, [reread]. *)
Class QtLib (F W : Type) := {
  QString : Type;
  QString_eq :: EqDecision QString;
  qs_empty : QString;
  qs_text : QString → bytes;
  qs_of : bytes → QString;
  QVariant : Type;
  of_qstring : QString → QVariant;
  of_bool : bool → QVariant;
  of_int : Z → QVariant;
  of_uint : Z → QVariant;
  of_list : list QVariant → QVariant;
  of_string_list : list QString → QVariant;
  to_qstring : QVariant → QString;
  to_bool : QVariant → bool;
  to_int : QVariant → Z;
  to_uint : QVariant → Z;
  to_list : QVariant → list QVariant;
  to_string_list : QVariant → list QString;
  reread : QVariant → QVariant;
  ini_open : QString → W → F;
  ini_value : F → bytes → option QVariant;
  ini_set : F → bytes → QVariant → F;
  ini_close : QString → F → W → W;
  defaultFamily : QString;
  defStyle : QString;
  defLanguage : QString;
  prepare_path : bytes → bytes;
  dir_path : bytes → bytes;
  PROJECT_NAME : bytes;
  PROJECT_VERSION_NUMBER : Z
}.

Class QtLaws (F W : Type) `{!QtLib F W} `{!SettingsLib} : Prop := {
  (** base64 is ASCII; the other way goes through UTF-8 *)
  qs_text_base64 : ∀ s, qs_text (qs_of (encode64 s)) = encode64 s;
  qs_of_text : ∀ q, qs_of (qs_text q) = q;
  qs_text_empty : qs_text qs_empty = [];
  base64_empty : ∀ s, encode64 s = [] → s = [];
  reread_qstring : ∀ q, to_qstring (reread (of_qstring q)) = q;
  reread_bool : ∀ b, to_bool (reread (of_bool b)) = b;
  reread_int : ∀ z, INT_MIN <= z <= INT_MAX → to_int (reread (of_int z)) = z;
  reread_uint : ∀ z, 0 <= z < 2 ^ 32 → to_uint (reread (of_uint z)) = z;
  reread_list : ∀ l, List.map to_qstring (to_list (reread (of_list (List.map of_qstring l)))) = l;
  reread_string_list : ∀ l, Forall (λ q, q ≠ qs_empty) l → to_string_list (reread (of_string_list l)) = l;
  ini_value_set : ∀ (f : F) k v k', ini_value (ini_set f k v) k' = if bool_decide (k = k') then Some v else ini_value f k';
  ini_reopen : ∀ q (f : F) (w : W) k, ini_value (ini_open q (ini_close q f w)) k = reread <$> ini_value f k
}.

Module SettingsManager.

(** [enum supportedViews]; the member holds its number. *)
Inductive supportedViews := Tree | Table | Text.
Definition view_value (v : supportedViews) : Z := match v with Tree => 0 | Table => 1 | Text => 2 end.

Definition LANGUAGE : bytes := lit "settings/language".
Definition SENDED_STATISTIC : bytes := lit "settings/sended_statistic".
Definition STYLE : bytes := lit "settings/style".
Definition FONT : bytes := lit "settings/font".
Definition CONNECTIONS : bytes := lit "settings/connections".
Definition SENTINELS : bytes := lit "settings/sentinels".
Definition CLUSTERS : bytes := lit "settings/clusters".
Definition VIEW : bytes := lit "settings/view".
Definition LOGGINGDIR : bytes := lit "settings/logging_dir".
Definition CHECKUPDATES : bytes := lit "settings/auto_check_updates".
Definition AUTOCOMPLETION : bytes := lit "settings/auto_completion".
Definition RCONNECTIONS : bytes := lit "settings/rconnections".
Definition AUTOOPENCONSOLE : bytes := lit "settings/auto_open_console".
Definition FASTVIEWKEYS : bytes := lit "settings/fast_view_keys".
Definition CONFIG_VERSION : bytes := lit "settings/version".

Section Manager.
Context {F W : Type} `{!QtLib F W} `{CommonLib} `{ConfigLib} `{!SettingsLib}.

(** A shared pointer is the number of the object, [None] the null pointer; the objects of each kind are apart. *)
Record Objects := mkObjects {
  connection_objects : list Settings;
  sentinel_objects : list ISentinelSettingsBase;
  cluster_objects : list IClusterSettingsBase
}.

Record SettingsManager := mkSettingsManager {
  config_version_ : Z;
  sended_statistic_ : bool;
  views_ : Z;
  cur_style_ : QString;
  cur_font_name_ : QString;
  cur_language_ : QString;
  connections_ : list (option nat);
  sentinels_ : list (option nat);
  clusters_ : list (option nat);
  recent_connections_ : list QString;
  logging_dir_ : QString;
  auto_check_update_ : bool;
  auto_completion_ : bool;
  auto_open_console_ : bool;
  fast_view_keys_ : bool
}.

Implicit Types (m : SettingsManager) (o : Objects) (f : F) (w : W).

(** ** Members *)

Definition SetIsSendedStatistic (x : bool) m : SettingsManager :=
  mkSettingsManager (config_version_ m) x (views_ m) (cur_style_ m) (cur_font_name_ m) (cur_language_ m) (connections_ m) (sentinels_ m) (clusters_ m) (recent_connections_ m) (logging_dir_ m) (auto_check_update_ m) (auto_completion_ m) (auto_open_console_ m) (fast_view_keys_ m).
Definition SetCurrentStyle (x : QString) m : SettingsManager :=
  mkSettingsManager (config_version_ m) (sended_statistic_ m) (views_ m) x (cur_font_name_ m) (cur_language_ m) (connections_ m) (sentinels_ m) (clusters_ m) (recent_connections_ m) (logging_dir_ m) (auto_check_update_ m) (auto_completion_ m) (auto_open_console_ m) (fast_view_keys_ m).
Definition SetCurrentFontName (x : QString) m : SettingsManager :=
  mkSettingsManager (config_version_ m) (sended_statistic_ m) (views_ m) (cur_style_ m) x (cur_language_ m) (connections_ m) (sentinels_ m) (clusters_ m) (recent_connections_ m) (logging_dir_ m) (auto_check_update_ m) (auto_completion_ m) (auto_open_console_ m) (fast_view_keys_ m).
Definition SetCurrentLanguage (x : QString) m : SettingsManager :=
  mkSettingsManager (config_version_ m) (sended_statistic_ m) (views_ m) (cur_style_ m) (cur_font_name_ m) x (connections_ m) (sentinels_ m) (clusters_ m) (recent_connections_ m) (logging_dir_ m) (auto_check_update_ m) (auto_completion_ m) (auto_open_console_ m) (fast_view_keys_ m).
Definition SetLoggingDirectory (x : QString) m : SettingsManager :=
  mkSettingsManager (config_version_ m) (sended_statistic_ m) (views_ m) (cur_style_ m) (cur_font_name_ m) (cur_language_ m) (connections_ m) (sentinels_ m) (clusters_ m) (recent_connections_ m) x (auto_check_update_ m) (auto_completion_ m) (auto_open_console_ m) (fast_view_keys_ m).
Definition SetAutoCheckUpdates (x : bool) m : SettingsManager :=
  mkSettingsManager (config_version_ m) (sended_statistic_ m) (views_ m) (cur_style_ m) (cur_font_name_ m) (cur_language_ m) (connections_ m) (sentinels_ m) (clusters_ m) (recent_connections_ m) (logging_dir_ m) x (auto_completion_ m) (auto_open_console_ m) (fast_view_keys_ m).
Definition SetAutoCompletion (x : bool) m : SettingsManager :=
  mkSettingsManager (config_version_ m) (sended_statistic_ m) (views_ m) (cur_style_ m) (cur_font_name_ m) (cur_language_ m) (connections_ m) (sentinels_ m) (clusters_ m) (recent_connections_ m) (logging_dir_ m) (auto_check_update_ m) x (auto_open_console_ m) (fast_view_keys_ m).
Definition SetAutoOpenConsole (x : bool) m : SettingsManager :=
  mkSettingsManager (config_version_ m) (sended_statistic_ m) (views_ m) (cur_style_ m) (cur_font_name_ m) (cur_language_ m) (connections_ m) (sentinels_ m) (clusters_ m) (recent_connections_ m) (logging_dir_ m) (auto_check_update_ m) (auto_completion_ m) x (fast_view_keys_ m).
Definition SetFastViewKeys (x : bool) m : SettingsManager :=
  mkSettingsManager (config_version_ m) (sended_statistic_ m) (views_ m) (cur_style_ m) (cur_font_name_ m) (cur_language_ m) (connections_ m) (sentinels_ m) (clusters_ m) (recent_connections_ m) (logging_dir_ m) (auto_check_update_ m) (auto_completion_ m) (auto_open_console_ m) x.
Definition with_connections (x : list (option nat)) m : SettingsManager :=
  mkSettingsManager (config_version_ m) (sended_statistic_ m) (views_ m) (cur_style_ m) (cur_font_name_ m) (cur_language_ m) x (sentinels_ m) (clusters_ m) (recent_connections_ m) (logging_dir_ m) (auto_check_update_ m) (auto_completion_ m) (auto_open_console_ m) (fast_view_keys_ m).
Definition with_sentinels (x : list (option nat)) m : SettingsManager :=
  mkSettingsManager (config_version_ m) (sended_statistic_ m) (views_ m) (cur_style_ m) (cur_font_name_ m) (cur_language_ m) (connections_ m) x (clusters_ m) (recent_connections_ m) (logging_dir_ m) (auto_check_update_ m) (auto_completion_ m) (auto_open_console_ m) (fast_view_keys_ m).
Definition with_clusters (x : list (option nat)) m : SettingsManager :=
  mkSettingsManager (config_version_ m) (sended_statistic_ m) (views_ m) (cur_style_ m) (cur_font_name_ m) (cur_language_ m) (connections_ m) (sentinels_ m) x (recent_connections_ m) (logging_dir_ m) (auto_check_update_ m) (auto_completion_ m) (auto_open_console_ m) (fast_view_keys_ m).
Definition with_recent (x : list QString) m : SettingsManager :=
  mkSettingsManager (config_version_ m) (sended_statistic_ m) (views_ m) (cur_style_ m) (cur_font_name_ m) (cur_language_ m) (connections_ m) (sentinels_ m) (clusters_ m) x (logging_dir_ m) (auto_check_update_ m) (auto_completion_ m) (auto_open_console_ m) (fast_view_keys_ m).
Definition with_views (x : Z) m : SettingsManager :=
  mkSettingsManager (config_version_ m) (sended_statistic_ m) x (cur_style_ m) (cur_font_name_ m) (cur_language_ m) (connections_ m) (sentinels_ m) (clusters_ m) (recent_connections_ m) (logging_dir_ m) (auto_check_update_ m) (auto_completion_ m) (auto_open_console_ m) (fast_view_keys_ m).

Definition SetDefaultView (view : supportedViews) m : SettingsManager := with_views (view_value view) m.

(** [std::find] compares pointers. *)
Definition add_pointer (connection : option nat) (l : list (option nat)) : list (option nat) :=
  match connection with
  | None => l
  | Some _ => if bool_decide (connection ∈ l) then l else l ++ [connection]
  end.
Definition remove_pointer (connection : option nat) (l : list (option nat)) : outcome (list (option nat)) :=
  match connection with
  | None => Val l
  | Some _ => let '(l, place) := std_remove connection l in erase_at place l
  end.

Definition AddConnection (connection : option nat) m : SettingsManager :=
  with_connections (add_pointer connection (connections_ m)) m.
Definition RemoveConnection (connection : option nat) m : outcome SettingsManager :=
  l ← remove_pointer connection (connections_ m); Val (with_connections l m).
Definition AddSentinel (sentinel : option nat) m : SettingsManager :=
  with_sentinels (add_pointer sentinel (sentinels_ m)) m.
Definition RemoveSentinel (sentinel : option nat) m : outcome SettingsManager :=
  l ← remove_pointer sentinel (sentinels_ m); Val (with_sentinels l m).
Definition AddCluster (cluster : option nat) m : SettingsManager :=
  with_clusters (add_pointer cluster (clusters_ m)) m.
Definition RemoveCluster (cluster : option nat) m : outcome SettingsManager :=
  l ← remove_pointer cluster (clusters_ m); Val (with_clusters l m).

Definition AddRConnection (connection : QString) m : SettingsManager :=
  if bool_decide (connection = qs_empty) then m
  else if bool_decide (connection ∈ recent_connections_ m) then m
  else with_recent (connection :: recent_connections_ m) m.

(** The first of them. *)
Fixpoint erase_first (connection : QString) (l : list QString) : list QString :=
  match l with
  | [] => []
  | q :: l => if bool_decide (q = connection) then l else q :: erase_first connection l
  end.
Definition RemoveRConnection (connection : QString) m : SettingsManager :=
  if bool_decide (connection = qs_empty) then m else with_recent (erase_first connection (recent_connections_ m)) m.
Definition ClearRConnections m : SettingsManager := with_recent [] m.

(** ** Loading *)

(** One entry of a list of settings, and all of them: each that can be read becomes an object. *)
Fixpoint load_list {A : Type} (CreateFromString : bytes → outcome (option A)) (l : list QString) (objs : list A)
    (ptrs : list (option nat)) : outcome (list A * list (option nat)) :=
  match l with
  | [] => Val (objs, ptrs)
  | q :: l =>
    sett ← CreateFromString (decode64 (qs_text q));
    match sett with
    | Some s => load_list CreateFromString l (objs ++ [s]) (ptrs ++ [Some (length objs)])
    | None => load_list CreateFromString l objs ptrs
    end
  end.
Definition load_recent (rconnections : list QString) : list QString :=
  List.filter (λ q, negb (bool_decide (q = qs_empty))) (List.map (λ q, qs_of (decode64 (qs_text q))) rconnections).

(** [settings.value], with its default; [toList] of nothing is empty. *)
Definition value_or (k : bytes) (d : QVariant) f : QVariant := default d (ini_value f k).
Definition texts_of (k : bytes) f : list QString :=
  match ini_value f k with None => [] | Some v => List.map to_qstring (to_list v) end.

Definition iniPath : bytes := lit "~/.config/" ++ PROJECT_NAME ++ lit "/conf.ini".
Definition SettingsDirPath : bytes := dir_path iniPath.
Definition SettingsFilePath : bytes := prepare_path iniPath.

Definition ReloadFromPath (path : bytes) (merge : bool) w (st : SettingsManager * Objects) : outcome (SettingsManager * Objects) :=
  if bool_decide (path = []) then Val st
  else
    let '(m, o) := st in
    let m := if merge then m else with_recent [] (with_connections [] (with_clusters [] m)) in
    let settings := ini_open (qs_of (prepare_path path)) w in
    '(cls, clp) ← load_list Cluster_CreateFromString (texts_of CLUSTERS settings) (cluster_objects o) (clusters_ m);
    '(sts, stp) ← load_list Sentinel_CreateFromString (texts_of SENTINELS settings) (sentinel_objects o) (sentinels_ m);
    '(cos, cop) ← load_list CreateFromString (texts_of CONNECTIONS settings) (connection_objects o) (connections_ m);
    let rconnections := match ini_value settings RCONNECTIONS with None => [] | Some v => to_string_list v end in
    Val (mkSettingsManager
           (to_uint (value_or CONFIG_VERSION (of_uint PROJECT_VERSION_NUMBER) settings))
           (to_bool (value_or SENDED_STATISTIC (of_bool false) settings))
           (to_int (value_or VIEW (of_int (view_value Text)) settings))
           (to_qstring (value_or STYLE (of_qstring defStyle) settings))
           (to_qstring (value_or FONT (of_qstring defaultFamily) settings))
           (to_qstring (value_or LANGUAGE (of_qstring defLanguage) settings))
           cop stp clp (recent_connections_ m ++ load_recent rconnections)
           (to_qstring (value_or LOGGINGDIR (of_qstring (qs_of SettingsDirPath)) settings))
           (to_bool (value_or CHECKUPDATES (of_bool true) settings))
           (to_bool (value_or AUTOCOMPLETION (of_bool true) settings))
           (to_bool (value_or AUTOOPENCONSOLE (of_bool true) settings))
           (to_bool (value_or FASTVIEWKEYS (of_bool true) settings)),
         mkObjects cos sts cls).

Definition Load : W → SettingsManager * Objects → outcome (SettingsManager * Objects) := ReloadFromPath iniPath false.

(** The constructor. *)
Definition new w o : outcome (SettingsManager * Objects) :=
  Load w (mkSettingsManager 0 false 0 qs_empty qs_empty qs_empty [] [] [] [] qs_empty false false false false, o).

(** ** Saving *)

Fixpoint save_list {A : Type} (ToString : A → outcome bytes) (objs : list A) (ptrs : list (option nat)) : outcome (list QString) :=
  match ptrs with
  | [] => Val []
  | None :: ptrs => save_list ToString objs ptrs
  | Some p :: ptrs =>
    s ← deref (objs !! p);
    raw ← ToString s;
    l ← save_list ToString objs ptrs;
    Val (qs_of (encode64 raw) :: l)
  end.
Definition save_recent (l : list QString) : list QString :=
  List.map (λ q, qs_of (encode64 (qs_text q))) (List.filter (λ q, negb (bool_decide (q = qs_empty))) l).

Definition put (f : F) (kv : bytes * QVariant) : F := ini_set f kv.1 kv.2.
Definition variants (l : list QString) : QVariant := of_list (List.map of_qstring l).

Definition entries m (clusters sentinels connections : list QString) : list (bytes * QVariant) := [
  (STYLE, of_qstring (cur_style_ m));
  (FONT, of_qstring (cur_font_name_ m));
  (SENDED_STATISTIC, of_bool (sended_statistic_ m));
  (LANGUAGE, of_qstring (cur_language_ m));
  (VIEW, of_int (views_ m));
  (CLUSTERS, variants clusters);
  (SENTINELS, variants sentinels);
  (CONNECTIONS, variants connections);
  (RCONNECTIONS, of_string_list (save_recent (recent_connections_ m)));
  (LOGGINGDIR, of_qstring (logging_dir_ m));
  (CHECKUPDATES, of_bool (auto_check_update_ m));
  (AUTOCOMPLETION, of_bool (auto_completion_ m));
  (AUTOOPENCONSOLE, of_bool (auto_open_console_ m));
  (FASTVIEWKEYS, of_bool (fast_view_keys_ m));
  (CONFIG_VERSION, of_uint (config_version_ m))].

Definition Save m o w : outcome W :=
  clusters ← save_list (λ c, Val (Cluster_ToString c)) (cluster_objects o) (clusters_ m);
  sentinels ← save_list Sentinel_ToString (sentinel_objects o) (sentinels_ m);
  connections ← save_list (λ c, Val (Settings_ToString c)) (connection_objects o) (connections_ m);
  let file := qs_of SettingsFilePath in
  Val (ini_close file (foldl put (ini_open file w) (entries m clusters sentinels connections)) w).
End Manager.

(** * Saved and loaded again *)

Section Saved.
Context {F W : Type} `{!QtLib F W} `{CommonLaws} `{ConfigLaws} `{SettingsLaws} `{!QtLaws F W}.
Implicit Types (m : SettingsManager) (o : Objects) (f : F) (w : W).

(** Adding a pointer twice adds it once, and removing it takes it out again; one that is not there cannot be removed. *)
Lemma pointers_kept (p : nat) (l : list nat) : NoDup l →
  let l' := add_pointer (Some p) (List.map Some l) in
  add_pointer (Some p) l' = l' ∧ (p ∉ l → remove_pointer (Some p) l' = Val (List.map Some l)) ∧
  (p ∈ l → l' = List.map Some l) ∧ (p ∉ l → remove_pointer (Some p) (List.map Some l) = Fault OutOfBounds).
Proof.
  assert (E : ∀ l, bool_decide (Some p ∈ List.map Some l) = bool_decide (p ∈ l)).
  { intros k. apply bool_decide_ext. rewrite list_elem_of_In, in_map_iff. split.
    - intros (q & [= ->] & I). by apply list_elem_of_In.
    - intros I%list_elem_of_In. by exists p. }
  intros Nd. unfold add_pointer, remove_pointer. cbv zeta. rewrite !E. destruct (decide (p ∈ l)) as [I | I].
  - rewrite !(bool_decide_true _ I), E, (bool_decide_true _ I). by split_and!.
  - rewrite !(bool_decide_false _ I). change [Some p] with (List.map Some [p]). rewrite <- List.map_app, E.
    assert (I' : p ∈ l ++ [p]) by (apply elem_of_app; right; by apply list_elem_of_singleton).
    rewrite (bool_decide_true _ I'). split; [done |]. split; [intros _ | split; [done | intros _; by apply remove_none]].
    etransitivity; [apply remove_once; [| exact I'] |].
    + apply NoDup_app. split; [done |]. split; [| apply NoDup_singleton]. by intros q Iq ->%list_elem_of_singleton.
    + do 2 f_equal. unfold without. rewrite List.filter_app. cbn. rewrite bool_decide_true by done. cbn. rewrite app_nil_r.
      by apply without_absent.
Qed.

(** The pointers designate these objects. *)
Definition holds {A : Type} (objs : list A) (ptrs : list (option nat)) (l : list A) : Prop :=
  Forall2 (λ p a, ∃ n, p = Some n ∧ objs !! n = Some a) ptrs l.

Lemma holds_app {A : Type} (objs : list A) ptrs l a : holds objs ptrs l → holds (objs ++ [a]) (ptrs ++ [Some (length objs)]) (l ++ [a]).
Proof.
  intros Hl. apply Forall2_app.
  - eapply Forall2_impl; [exact Hl |]. intros p x (n & -> & E). exists n. split; [done |]. by apply lookup_app_l_Some.
  - constructor; [| constructor]. eexists. split; [done |]. by apply list_lookup_middle.
Qed.

(** The text of [a] is read as [a']. *)
Definition read_back {A : Type} (ToString : A → outcome bytes) (CreateFromString : bytes → outcome (option A)) (a a' : A) : Prop :=
  ∃ raw, ToString a = Val raw ∧ CreateFromString raw = Val (Some a').

Section List.
Context {A : Type} (ToString : A → outcome bytes) (CreateFromString : bytes → outcome (option A)).

Lemma save_list_texts (objs : list A) ptrs l l' : holds objs ptrs l → Forall2 (read_back ToString CreateFromString) l l' →
  ∃ raws, save_list ToString objs ptrs = Val (List.map (λ raw, qs_of (encode64 raw)) raws) ∧
    Forall2 (λ raw a', CreateFromString raw = Val (Some a')) raws l'.
Proof.
  intros Hl. revert l'. induction Hl as [| p a ptrs l (n & -> & E) _ IH]; intros l' B.
  - apply Forall2_nil_inv_l in B as ->. exists []. done.
  - apply Forall2_cons_inv_l in B as (a' & l'' & (raw & T & C) & B & ->). destruct (IH l'' B) as (raws & S & R).
    exists (raw :: raws). split; [| by constructor]. cbn [save_list]. rewrite E. cbn. rewrite T. cbn. by rewrite S.
Qed.

Lemma load_list_texts raws l' : Forall2 (λ raw a', CreateFromString raw = Val (Some a')) raws l' → ∀ (objs : list A) ptrs l0,
  holds objs ptrs l0 → ∃ objs' ptrs', load_list CreateFromString (List.map (λ raw, qs_of (encode64 raw)) raws) objs ptrs = Val (objs', ptrs') ∧
    holds objs' ptrs' (l0 ++ l').
Proof.
  induction 1 as [| raw a' raws l' C _ IH]; intros objs ptrs l0 Hl.
  - exists objs, ptrs. split; [done | by rewrite app_nil_r].
  - cbn [List.map load_list]. rewrite qs_text_base64, decode_encode, C. cbn [mbind outcome_bind].
    destruct (IH _ _ _ (holds_app objs ptrs l0 a' Hl)) as (objs' & ptrs' & L & R). exists objs', ptrs'. split; [exact L |].
    by rewrite <- (assoc (++)) in R.
Qed.
End List.

Lemma recent_back l : Forall (λ q, q ≠ qs_empty) l → load_recent (save_recent l) = l.
Proof.
  induction 1 as [| q l Ne _ IH]; [done |]. unfold load_recent, save_recent in *. cbn. rewrite bool_decide_false by done. cbn.
  rewrite qs_text_base64, decode_encode, qs_of_text, bool_decide_false by done. cbn. by f_equal.
Qed.
Lemma save_recent_ok l : Forall (λ q, q ≠ qs_empty) (save_recent l).
Proof.
  apply Forall_map, Forall_forall. intros q Iq%list_elem_of_In%List.filter_In E.
  destruct Iq as [_ Ne%negb_true_iff%bool_decide_eq_false]. apply Ne. rewrite <- (qs_of_text q).
  rewrite <- (qs_of_text qs_empty), qs_text_empty. f_equal. apply base64_empty.
  by rewrite <- (qs_text_base64 (qs_text q)), E, qs_text_empty.
Qed.

(** What was put under different keys is found under each of them. *)
Lemma put_away l : ∀ f k, k ∉ List.map fst l → ini_value (foldl put f l) k = ini_value f k.
Proof.
  induction l as [| [k' v'] l IH]; intros f k N; [done |]. apply not_elem_of_cons in N as [Nk N]. cbn.
  rewrite IH by done. unfold put. cbn. rewrite ini_value_set, bool_decide_false; [done |]. intros ->. by apply Nk.
Qed.
Lemma put_found l : ∀ f k v, NoDup (List.map fst l) → (k, v) ∈ l → ini_value (foldl put f l) k = Some v.
Proof.
  induction l as [| [k' v'] l IH]; intros f k v Nd I; [by apply elem_of_nil in I |]. apply NoDup_cons in Nd as [Nk Nd]. cbn.
  apply elem_of_cons in I as [[= -> ->] | I]; [| by apply IH]. rewrite put_away by done. unfold put. cbn.
  by rewrite ini_value_set, bool_decide_true.
Qed.

Lemma entry_back m cls sts cos q f w n k v : entries m cls sts cos !! n = Some (k, v) →
  ini_value (ini_open q (ini_close q (foldl put f (entries m cls sts cos)) w)) k = Some (reread v).
Proof.
  intros E. rewrite ini_reopen. erewrite put_found; [done | | by eapply list_elem_of_lookup_2].
  apply (bool_decide_unpack _). by vm_compute.
Qed.

Lemma value_back f k d v : ini_value f k = Some v → value_or k d f = v.
Proof. unfold value_or. by intros ->. Qed.
Lemma texts_back f k l : ini_value f k = Some (reread (variants l)) → texts_of k f = l.
Proof. unfold texts_of, variants. intros ->. apply reread_list. Qed.

(** * All of it *)

(** The numbers are in the range of their types, and no recent connection is empty. *)
Definition members_ok m : Prop :=
  0 <= config_version_ m < 2 ^ 32 ∧ INT_MIN <= views_ m <= INT_MAX ∧ Forall (λ q, q ≠ qs_empty) (recent_connections_ m).

(** What a cluster is read back as needs it to be one of Redis. *)
Definition cluster_plain (c : IClusterSettingsBase) : Prop :=
  type_ (cl_base c) = REDIS ∧ base_plain (cl_base c) ∧ Forall node_plain (clusters_nodes_ c).

Definition connection_back (s : Settings) : Settings := set_derived (kept (cs_derived s)) s.
Definition cluster_back_to (c : IClusterSettingsBase) : IClusterSettingsBase := mkCluster (cl_base c) (forget_last (clusters_nodes_ c)).

Lemma read_back_map {A : Type} (ToString : A → outcome bytes) (CreateFromString : bytes → outcome (option A)) (g : A → A) (P : A → Prop) l :
  (∀ a, P a → read_back ToString CreateFromString a (g a)) → Forall P l → Forall2 (read_back ToString CreateFromString) l (List.map g l).
Proof. intros G. induction 1 as [| a l Pa _ IH]; [constructor |]. constructor; [by apply G | exact IH]. Qed.

Lemma saved_and_loaded m o w cos cls sts sts' : members_ok m →
  holds (connection_objects o) (connections_ m) cos → Forall settings_plain cos →
  holds (cluster_objects o) (clusters_ m) cls → Forall cluster_plain cls →
  holds (sentinel_objects o) (sentinels_ m) sts → Forall2 (read_back Sentinel_ToString Sentinel_CreateFromString) sts sts' →
  ∃ w', Save m o w = Val w' ∧
    ∀ m0 o0 sts0, holds (sentinel_objects o0) (sentinels_ m0) sts0 →
      ∃ m1 o1, Load w' (m0, o0) = Val (m1, o1) ∧
        m1 = with_connections (connections_ m1) (with_clusters (clusters_ m1) (with_sentinels (sentinels_ m1) m)) ∧
        holds (connection_objects o1) (connections_ m1) (List.map connection_back cos) ∧
        holds (cluster_objects o1) (clusters_ m1) (List.map cluster_back_to cls) ∧
        holds (sentinel_objects o1) (sentinels_ m1) (sts0 ++ sts').
Proof.
  intros (Vc & Vv & Re) Hco Pco Hcl Pcl Hst Bst.
  assert (Bco : Forall2 (read_back (λ c, Val (Settings_ToString c)) CreateFromString) cos (List.map connection_back cos)).
  { eapply read_back_map; [| exact Pco]. intros s Ps. eexists. split; [done | by apply settings_back]. }
  assert (Bcl : Forall2 (read_back (λ c, Val (Cluster_ToString c)) Cluster_CreateFromString) cls (List.map cluster_back_to cls)).
  { eapply read_back_map; [| exact Pcl]. intros c (? & ? & ?). eexists. split; [done | by apply cluster_back]. }
  destruct (save_list_texts _ _ _ _ _ _ Hco Bco) as (rco & Sco & Rco). destruct (save_list_texts _ _ _ _ _ _ Hcl Bcl) as (rcl & Scl & Rcl).
  destruct (save_list_texts _ _ _ _ _ _ Hst Bst) as (rst & Sst & Rst).
  unfold Save. rewrite Scl, Sst, Sco. cbn [mbind outcome_bind]. eexists. split; [reflexivity |]. intros m0 o0 sts0 Hst0.
  unfold Load, ReloadFromPath. rewrite bool_decide_false by done. cbv zeta. cbn [negb].
  set (settings := ini_open _ _).
  pose proof (λ n k v, entry_back m (List.map (λ raw, qs_of (encode64 raw)) rcl) (List.map (λ raw, qs_of (encode64 raw)) rst)
    (List.map (λ raw, qs_of (encode64 raw)) rco) (qs_of SettingsFilePath) (ini_open (qs_of SettingsFilePath) w) w n k v) as Back.
  change (prepare_path iniPath) with SettingsFilePath in settings. fold settings in Back.
  rewrite (texts_back settings CLUSTERS _ (Back 5%nat _ _ eq_refl)), (texts_back settings SENTINELS _ (Back 6%nat _ _ eq_refl)),
    (texts_back settings CONNECTIONS _ (Back 7%nat _ _ eq_refl)), (Back 8%nat RCONNECTIONS _ eq_refl).
  rewrite (value_back settings STYLE _ _ (Back 0%nat _ _ eq_refl)), (value_back settings FONT _ _ (Back 1%nat _ _ eq_refl)),
    (value_back settings SENDED_STATISTIC _ _ (Back 2%nat _ _ eq_refl)), (value_back settings LANGUAGE _ _ (Back 3%nat _ _ eq_refl)),
    (value_back settings VIEW _ _ (Back 4%nat _ _ eq_refl)), (value_back settings LOGGINGDIR _ _ (Back 9%nat _ _ eq_refl)),
    (value_back settings CHECKUPDATES _ _ (Back 10%nat _ _ eq_refl)), (value_back settings AUTOCOMPLETION _ _ (Back 11%nat _ _ eq_refl)),
    (value_back settings AUTOOPENCONSOLE _ _ (Back 12%nat _ _ eq_refl)), (value_back settings FASTVIEWKEYS _ _ (Back 13%nat _ _ eq_refl)),
    (value_back settings CONFIG_VERSION _ _ (Back 14%nat _ _ eq_refl)).
  rewrite !reread_qstring, !reread_bool, reread_int, reread_uint, reread_string_list, recent_back by auto using save_recent_ok.
  destruct (load_list_texts _ _ _ Rcl (cluster_objects o0) [] []) as (cls1 & clp & Lcl & Gcl); [constructor |].
  destruct (load_list_texts _ _ _ Rst _ _ _ Hst0) as (sts1 & stp & Lst & Gst).
  destruct (load_list_texts _ _ _ Rco (connection_objects o0) [] []) as (cos1 & cop & Lco & Gco); [constructor |].
  cbn [clusters_ sentinels_ connections_ with_recent with_connections with_clusters recent_connections_] in *.
  rewrite Lcl. cbn [mbind outcome_bind]. rewrite Lst. cbn [mbind outcome_bind]. rewrite Lco. cbn [mbind outcome_bind].
  do 2 eexists. split; [reflexivity |]. split; [done |]. by split_and!.
Qed.
End Saved.

(** C16. What is saved is loaded again: every member, the recent connections in order, each connection as its text
    keeps it and each cluster with the authentication of its last node's tunnel lost, in order, whatever was in the
    manager before; only the sentinels are added to those that were there. *)
Theorem settings_survive {F W : Type} `{!QtLib F W} `{CommonLaws} `{ConfigLaws} `{SettingsLaws} `{!QtLaws F W}
    (m : SettingsManager) (o : Objects) (w : W) (cos : list Settings) (cls : list IClusterSettingsBase)
    (sts sts' : list ISentinelSettingsBase) : members_ok m →
  holds (connection_objects o) (connections_ m) cos → Forall settings_plain cos →
  holds (cluster_objects o) (clusters_ m) cls → Forall cluster_plain cls →
  holds (sentinel_objects o) (sentinels_ m) sts → Forall2 (read_back Sentinel_ToString Sentinel_CreateFromString) sts sts' →
  ∃ w', Save m o w = Val w' ∧
    ∀ m0 o0 sts0, holds (sentinel_objects o0) (sentinels_ m0) sts0 →
      ∃ m1 o1, Load w' (m0, o0) = Val (m1, o1) ∧
        m1 = with_connections (connections_ m1) (with_clusters (clusters_ m1) (with_sentinels (sentinels_ m1) m)) ∧
        holds (connection_objects o1) (connections_ m1) (List.map connection_back cos) ∧
        holds (cluster_objects o1) (clusters_ m1) (List.map cluster_back_to cls) ∧
        holds (sentinel_objects o1) (sentinels_ m1) (sts0 ++ sts').
Proof. apply saved_and_loaded. Qed.

(** Files that hold variants as they are. *)
Inductive variant := VStr (s : bytes) | VBool (b : bool) | VNum (z : Z) | VList (l : list variant) | VStrings (l : list bytes).
Definition qt_ref : QtLib (list (bytes * variant)) (list (bytes * list (bytes * variant))) := {|
  QString := bytes; qs_empty := []; qs_text q := q; qs_of b := b; QVariant := variant;
  of_qstring := VStr; of_bool := VBool; of_int := VNum; of_uint := VNum; of_list := VList; of_string_list := VStrings;
  to_qstring v := match v with VStr s => s | _ => [] end;
  to_bool v := match v with VBool b => b | _ => false end;
  to_int v := match v with VNum z => z | _ => 0 end;
  to_uint v := match v with VNum z => z | _ => 0 end;
  to_list v := match v with VList l => l | _ => [] end;
  to_string_list v := match v with VStrings l => l | _ => [] end;
  reread v := v;
  ini_open q w := match List.find (λ e, bool_decide (e.1 = q)) w with Some e => e.2 | None => [] end;
  ini_value f k := snd <$> List.find (λ e, bool_decide (e.1 = k)) f;
  ini_set f k v := (k, v) :: f;
  ini_close q f w := (q, f) :: w;
  defaultFamily := lit "Sans"; defStyle := lit "plain"; defLanguage := lit "en"; prepare_path p := p; dir_path p := lit "~/.config";
  PROJECT_NAME := lit "fastonosql"; PROJECT_VERSION_NUMBER := 1
|}.
Lemma qt_ref_laws : @QtLaws _ _ qt_ref settings_ref.
Proof.
  split; try done; cbn.
  - by intros [| c s].
  - intros l. rewrite map_map. by induction l as [| q l IH]; [| cbn; f_equal].
  - intros f k v k'. by case_bool_decide.
  - intros q f w k. rewrite bool_decide_true by done. cbn. by destruct (snd <$> _).
Qed.

Section Witness.
#[local] Existing Instance common_ref.
#[local] Existing Instance common_ref_laws.
#[local] Existing Instance config_ref.
#[local] Existing Instance config_ref_laws.
#[local] Existing Instance settings_ref.
#[local] Existing Instance settings_ref_laws.
#[local] Existing Instance qt_ref.
#[local] Existing Instance qt_ref_laws.

Definition sample_manager : SettingsManager :=
  mkSettingsManager 3 true 2 (lit "dark") (lit "Mono") (lit "en") [Some 1%nat; Some 0%nat] [Some 0%nat] [Some 0%nat]
    [lit "/work/main"; lit "/b"] (lit "/log") true false true false.
Definition sample_objects : Objects := mkObjects [sample_redis; sample_redis] [one_sentinel] [sample_cluster].

Definition sentinel_text : bytes := match Sentinel_ToString one_sentinel with Val t => t | _ => [] end.
Definition sentinel_again : ISentinelSettingsBase :=
  match Sentinel_CreateFromString sentinel_text with Val (Some s) => s | _ => one_sentinel end.
Lemma sample_sentinel_back : Forall2 (read_back Sentinel_ToString Sentinel_CreateFromString) [one_sentinel] [sentinel_again].
Proof. repeat constructor. exists sentinel_text. split; [vm_cast_no_check (eq_refl (Val sentinel_text)) | vm_cast_no_check (eq_refl (Val (Some sentinel_again)))]. Qed.

Lemma settings_survive_witness :
  ∃ w', Save sample_manager sample_objects [] = Val w' ∧
    ∃ m1 o1, new w' (mkObjects [] [] []) = Val (m1, o1) ∧ cur_style_ m1 = lit "dark" ∧
      recent_connections_ m1 = [lit "/work/main"; lit "/b"] ∧
      holds (connection_objects o1) (connections_ m1) [sample_redis; sample_redis] ∧
      holds (sentinel_objects o1) (sentinels_ m1) [sentinel_again].
Proof.
  assert (Np : node_plain sample_redis) by (split; [exact sample_redis_plain | done | absent]).
  destruct (settings_survive sample_manager sample_objects [] [sample_redis; sample_redis] [sample_cluster] [one_sentinel] [sentinel_again])
    as (w' & S & T).
  - split; [by vm_compute |]. split; [by vm_compute |]. by apply Forall_cons_2; [| apply Forall_cons_2].
  - do 2 (apply Forall2_cons_2; [eexists; by split |]). apply Forall2_nil_2.
  - do 2 (apply Forall_cons_2; [exact sample_redis_plain |]). apply Forall_nil_2.
  - apply Forall2_cons_2; [eexists; by split | apply Forall2_nil_2].
  - apply Forall_cons_2; [| apply Forall_nil_2]. split; [done |]. split; [split; [absent | by vm_compute] |].
    do 2 (apply Forall_cons_2; [exact Np |]). apply Forall_nil_2.
  - apply Forall2_cons_2; [eexists; by split | apply Forall2_nil_2].
  - exact sample_sentinel_back.
  - exists w'. split; [exact S |]. destruct (T (mkSettingsManager 0 false 0 qs_empty qs_empty qs_empty [] [] [] [] qs_empty false false false false) (mkObjects [] [] []) [])
      as (m1 & o1 & L & E & C & _ & G); [constructor |].
    exists m1, o1. split; [exact L |]. rewrite E. split; [done |]. split; [done |]. split; [exact C | exact G].
Defined.
End Witness.

End SettingsManager.
