(* ===== verification/SsdbLink.v ===== *)
(** The link of the SSDB client: its buffers, [third-party/ssdb/src/util/bytes.*], the framing of requests and
    responses, [net/link.*], and the Redis protocol beside it, [net/link_redis.*]; and what holds of it: its
    buffers keep their bytes, packets are read as they are written whatever part of them has come, and a request
    is sent whole and answered. *)
From Stdlib Require Import Ascii String ZArith Lia.
From stdpp Require Import base list.
From S2P Require Import Prelude Common Texts SdsArgs Sds SdsProps Hiredis HiredisFormat HiredisReader HiredisContext HiredisAnswers NativeKv SsdbClient.
Local Open Scope Z_scope.
#[local] Set Warnings "-register-all".

(** * [Buffer]

    [b_block] is the memory at [buf], [b_data] is [data_ - buf]. *)
Record Buffer := mkBuffer { b_block : option bytes; b_total : Z; b_data : Z; b_size : Z }.

Section Buffer.
Context `{Alloc}.
Implicit Types b : Buffer.

Definition Buffer_new (total : Z) : Buffer := mkBuffer (malloc total) total 0 0.
Definition b_empty b : bool := b_size b =? 0.
Definition space b : Z := b_total b - b_data b - b_size b.
Definition decr (num : Z) b : Buffer := mkBuffer (b_block b) (b_total b) (b_data b + num) (b_size b - num).

(** The memory from [data] to the end of the block; [size] bytes of it are data. *)
Definition memory_at b : outcome bytes :=
  m ← deref (b_block b); mem_read m (b_data b) (Z.of_nat (length m) - b_data b).

(** The bytes stored at [slot], and [size_] counted up. *)
Definition store (d : bytes) b : outcome Buffer :=
  m ← deref (b_block b);
  m ← mem_write m (b_data b + b_size b) d;
  Val (mkBuffer (Some m) (b_total b) (b_data b) (b_size b + Z.of_nat (length d))).

Definition nice b : outcome Buffer :=
  if b_data b >? b_total b / 2 then
    if b_size b >? 0 then
      m ← deref (b_block b);
      d ← mem_read m (b_data b) (b_size b);
      m ← mem_write m 0 d;
      Val (mkBuffer (Some m) (b_total b) 0 (b_size b))
    else Val (mkBuffer (b_block b) (b_total b) 0 (b_size b))
  else Val b.

(** [realloc] keeps what was there; [false] is [-1]. *)
Definition grow b : outcome (bool * Buffer) :=
  n ← (if b_total b <? 8 * 1024 then Val (8 * 1024)
       else if b_total b <? 512 * 1024 then int_arith (8 * b_total b)
       else int_arith (2 * b_total b));
  match malloc n with
  | None => Val (false, b)
  | Some p =>
    let old := default [] (b_block b) in
    Val (true, mkBuffer (Some (old ++ drop (length old) p)) n (b_data b) (b_size b))
  end.

(** [while(size > this->space())]; each turn but the first three doubles an [int]. *)
Fixpoint make_room (fuel : nat) (size : Z) b : outcome (bool * Buffer) :=
  match fuel with
  | O => Fault OutOfFuel
  | S fuel =>
    if size >? space b then '(ok, b) ← grow b; if (ok : bool) then make_room fuel size b else Val (false, b)
    else Val (true, b)
  end.
Definition room_turns : nat := 32.

Definition append (d : bytes) b : outcome (bool * Buffer) :=
  '(ok, b) ← make_room room_turns (i32 (Z.of_nat (length d))) b;
  if negb ok then Val (false, b) else b ← store d b; Val (true, b).

(** [Bytes] has an [int] for the size. *)
Definition append_record (s : bytes) b : outcome (bool * Buffer) :=
  let n := i32 (Z.of_nat (length s)) in
  size ← int_arith (16 + n + 1);
  '(ok, b) ← make_room room_turns size b;
  if negb ok then Val (false, b)
  else if n <? 0 then Fault OutOfBounds
  else b ← store (dec_int n ++ chr_nl :: take (Z.to_nat n) s ++ [chr_nl]) b; Val (true, b).

(** The result is not looked at. *)
Definition appended (r : outcome (bool * Buffer)) : outcome Buffer := '(_, b) ← r; Val b.

Fixpoint append_records (l : list bytes) b : outcome Buffer :=
  match l with [] => Val b | s :: l => b ← appended (append_record s b); append_records l b end.

(** What [Link::recv] and [RedisLink::recv_req] do when the data is not complete. *)
Definition make_space b : outcome (bool * Buffer) :=
  if space b =? 0 then
    b ← nice b;
    if space b =? 0 then grow b else Val (true, b)
  else Val (true, b).
End Buffer.

(** * [RedisLink] *)

Inductive REPLY := REPLY_BULK | REPLY_MULTI_BULK | REPLY_INT | REPLY_STATUS.
Inductive STRATEGY :=
| STRATEGY_AUTO | STRATEGY_PING | STRATEGY_MGET | STRATEGY_HMGET | STRATEGY_HGETALL | STRATEGY_HKEYS | STRATEGY_HVALS
| STRATEGY_SETEX | STRATEGY_ZRANGE | STRATEGY_ZREVRANGE | STRATEGY_ZRANGEBYSCORE | STRATEGY_ZREVRANGEBYSCORE
| STRATEGY_ZADD | STRATEGY_ZINCRBY | STRATEGY_REMRANGEBYRANK | STRATEGY_REMRANGEBYSCORE | STRATEGY_NULL.
#[export] Instance REPLY_eq : EqDecision REPLY.
Proof. solve_decision. Defined.
#[export] Instance STRATEGY_eq : EqDecision STRATEGY.
Proof. solve_decision. Defined.

Record RedisRequestDesc := mkDesc { strategy : STRATEGY; redis_cmd : string; ssdb_cmd : string; reply_type : REPLY }.

Definition cmds_raw : list RedisRequestDesc := [
  mkDesc STRATEGY_PING "ping" "ping" REPLY_STATUS;
  mkDesc STRATEGY_AUTO "get" "get" REPLY_BULK;
  mkDesc STRATEGY_AUTO "getset" "getset" REPLY_BULK;
  mkDesc STRATEGY_AUTO "set" "set" REPLY_STATUS;
  mkDesc STRATEGY_AUTO "setnx" "setnx" REPLY_INT;
  mkDesc STRATEGY_AUTO "exists" "exists" REPLY_INT;
  mkDesc STRATEGY_AUTO "incr" "incr" REPLY_INT;
  mkDesc STRATEGY_AUTO "decr" "decr" REPLY_INT;
  mkDesc STRATEGY_AUTO "ttl" "ttl" REPLY_INT;
  mkDesc STRATEGY_AUTO "expire" "expire" REPLY_INT;
  mkDesc STRATEGY_AUTO "getbit" "getbit" REPLY_INT;
  mkDesc STRATEGY_AUTO "setbit" "setbit" REPLY_INT;
  mkDesc STRATEGY_AUTO "strlen" "strlen" REPLY_INT;
  mkDesc STRATEGY_AUTO "bitcount" "bitcount" REPLY_INT;
  mkDesc STRATEGY_AUTO "substr" "getrange" REPLY_BULK;
  mkDesc STRATEGY_AUTO "getrange" "getrange" REPLY_BULK;
  mkDesc STRATEGY_AUTO "keys" "keys" REPLY_MULTI_BULK;
  mkDesc STRATEGY_AUTO "hset" "hset" REPLY_INT;
  mkDesc STRATEGY_AUTO "hget" "hget" REPLY_BULK;
  mkDesc STRATEGY_AUTO "hexists" "hexists" REPLY_INT;
  mkDesc STRATEGY_AUTO "del" "multi_del" REPLY_INT;
  mkDesc STRATEGY_AUTO "mset" "multi_set" REPLY_STATUS;
  mkDesc STRATEGY_AUTO "incrby" "incr" REPLY_INT;
  mkDesc STRATEGY_AUTO "decrby" "decr" REPLY_INT;
  mkDesc STRATEGY_AUTO "hmset" "multi_hset" REPLY_STATUS;
  mkDesc STRATEGY_AUTO "hdel" "multi_hdel" REPLY_INT;
  mkDesc STRATEGY_AUTO "hmdel" "multi_hdel" REPLY_INT;
  mkDesc STRATEGY_AUTO "hlen" "hsize" REPLY_INT;
  mkDesc STRATEGY_AUTO "hincrby" "hincr" REPLY_INT;
  mkDesc STRATEGY_AUTO "zcard" "zsize" REPLY_INT;
  mkDesc STRATEGY_AUTO "zscore" "zget" REPLY_BULK;
  mkDesc STRATEGY_AUTO "zrem" "multi_zdel" REPLY_INT;
  mkDesc STRATEGY_AUTO "zrank" "zrank" REPLY_INT;
  mkDesc STRATEGY_AUTO "zrevrank" "zrrank" REPLY_INT;
  mkDesc STRATEGY_AUTO "zcount" "zcount" REPLY_INT;
  mkDesc STRATEGY_REMRANGEBYRANK "zremrangebyrank" "zremrangebyrank" REPLY_INT;
  mkDesc STRATEGY_REMRANGEBYSCORE "zremrangebyscore" "zremrangebyscore" REPLY_INT;
  mkDesc STRATEGY_MGET "mget" "multi_get" REPLY_MULTI_BULK;
  mkDesc STRATEGY_HMGET "hmget" "multi_hget" REPLY_MULTI_BULK;
  mkDesc STRATEGY_HGETALL "hgetall" "hgetall" REPLY_MULTI_BULK;
  mkDesc STRATEGY_HKEYS "hkeys" "hkeys" REPLY_MULTI_BULK;
  mkDesc STRATEGY_HVALS "hvals" "hvals" REPLY_MULTI_BULK;
  mkDesc STRATEGY_SETEX "setex" "setx" REPLY_STATUS;
  mkDesc STRATEGY_ZRANGE "zrange" "zrange" REPLY_MULTI_BULK;
  mkDesc STRATEGY_ZREVRANGE "zrevrange" "zrrange" REPLY_MULTI_BULK;
  mkDesc STRATEGY_ZADD "zadd" "multi_zset" REPLY_INT;
  mkDesc STRATEGY_ZINCRBY "zincrby" "zincr" REPLY_BULK;
  mkDesc STRATEGY_ZRANGEBYSCORE "zrangebyscore" "zscan" REPLY_MULTI_BULK;
  mkDesc STRATEGY_ZREVRANGEBYSCORE "zrevrangebyscore" "zrscan" REPLY_MULTI_BULK;
  mkDesc STRATEGY_AUTO "lpush" "qpush_front" REPLY_INT;
  mkDesc STRATEGY_AUTO "rpush" "qpush_back" REPLY_INT;
  mkDesc STRATEGY_AUTO "lpop" "qpop_front" REPLY_BULK;
  mkDesc STRATEGY_AUTO "rpop" "qpop_back" REPLY_BULK;
  mkDesc STRATEGY_AUTO "llen" "qsize" REPLY_INT;
  mkDesc STRATEGY_AUTO "lsize" "qsize" REPLY_INT;
  mkDesc STRATEGY_AUTO "lindex" "qget" REPLY_BULK;
  mkDesc STRATEGY_AUTO "lset" "qset" REPLY_STATUS;
  mkDesc STRATEGY_AUTO "lrange" "qslice" REPLY_MULTI_BULK].

(** [atof] and the cast to [int64_t]. *)
Class AtofLib := atof_int64 : bytes → Z.

Definition EINVAL : errno_t := ErrnoOther 22.
Definition ERANGE : errno_t := ErrnoOther 34.
Definition no_errno : errno_t := ErrnoOther 0.

Record RedisLink := mkRedisLink {
  cmd : bytes;
  req_desc : option RedisRequestDesc;
  recv_bytes : list bytes;
  recv_string : list bytes
}.
Definition RedisLink_new : RedisLink := mkRedisLink [] None [] [].

(** [std::map] keeps one entry for a name, and the names of the table are different. *)
Definition cmd_find (c : bytes) : option RedisRequestDesc :=
  List.find (λ d, bool_decide (lit (redis_cmd d) = c)) cmds_raw.

(** [str_to_int] and [str_to_int64] say in [errno] whether the text is a whole number. *)
Definition whole_number (s : bytes) : bool :=
  let r := skip_while c_isspace s in
  let r := match r with c :: q => if Ascii.eqb c "-" || Ascii.eqb c "+" then q else r | [] => [] end in
  match r with c :: _ => c_isdigit c && bool_decide (skip_while c_isdigit r = []) | [] => bool_decide (s = []) end.
Definition strtol_errno (s : bytes) (e : errno_t) : errno_t :=
  let v := let '(neg, v) := scan_decimal s in if (neg : bool) then - v else v in
  if (v <? LLONG_MIN) || (LLONG_MAX <? v) then ERANGE else e.
Definition number_errno (s : bytes) (e : errno_t) : errno_t :=
  let e := strtol_errno s e in
  if whole_number s then no_errno else if bool_decide (e = no_errno) then EINVAL else e.
Definition str_to_int (s : bytes) : Z := i32 (strtol s).

Section RedisLink.
Context `{Alloc} `{AtofLib}.
Implicit Types (b : Buffer) (e : errno_t).

(** ** Requests *)

(** [strtol] reads on until a character that ends the number. *)
Definition strtol_at (m : bytes) : outcome Z :=
  let r := skip_while c_isspace m in
  let r := match r with c :: q => if Ascii.eqb c "-" || Ascii.eqb c "+" then q else r | [] => [] end in
  if bool_decide (skip_while c_isdigit r = []) then Fault OutOfBounds else Val (strtol m).

(** The leading line ends among the [size] bytes, and what is behind them. *)
Fixpoint skip_lines (m : bytes) (size parsed : Z) : bytes * Z * Z :=
  match m with
  | c :: r =>
    if (size >? 0) && (Ascii.eqb c chr_nl || Ascii.eqb c chr_cr) then skip_lines r (size - 1) (parsed + 1) else (m, size, parsed)
  | [] => (m, size, parsed)
  end.
(** [head[0]] *)
Definition first_byte (m : bytes) : outcome ascii := match m with c :: _ => Val c | [] => Fault OutOfBounds end.

(** The result is that of [parse_req], with the arguments and the number of bytes parsed. *)
Fixpoint parse_loop (fuel : nat) (ptr : bytes) (size parsed num_args : Z) (args : list bytes) e : outcome (Z * list bytes * Z * errno_t) :=
  match fuel with
  | O => Fault OutOfFuel
  | S fuel =>
    if size >? 0 then
      match find_sub [chr_nl] (take (Z.to_nat size) ptr) with
      | None => Val (0, [], 0, e)
      | Some i =>
        let lf := Z.of_nat i + 1 in
        let size := size - lf in
        let parsed := parsed + lf in
        v ← strtol_at (drop 1 ptr);
        let e := strtol_errno (drop 1 ptr) e in
        let len := i32 v in
        if bool_decide (e = EINVAL) then Val (-1, args, 0, e)
        else
          let ptr := drop (Z.to_nat lf) ptr in
          if len <? 0 then Val (-1, args, 0, e)
          else if num_args =? 0 then
            if len <=? 0 then Val (-1, args, 0, e) else parse_loop fuel ptr size parsed len args e
          else if len >? size - 1 then Val (0, [], 0, e)
          else
            let args := args ++ [take (Z.to_nat len) ptr] in
            let ptr := drop (Z.to_nat (len + 1)) ptr in
            let size := size - (len + 1) in
            let parsed := parsed + (len + 1) in
            let '(ptr, size, parsed) :=
              if (size >? 0) && bool_decide (take 1 ptr = [chr_nl]) then (drop 1 ptr, size - 1, parsed + 1) else (ptr, size, parsed) in
            if num_args - 1 =? 0 then Val (1, args, parsed, e) else parse_loop fuel ptr size parsed (num_args - 1) args e
      end
    else Val (0, [], 0, e)
  end.

Definition parse_req (input : Buffer) e : outcome (Z * list bytes * Buffer * errno_t) :=
  m ← memory_at input;
  let '(ptr, size, parsed) := skip_lines m (b_size input) 0 in
  c ← first_byte ptr;
  if negb (Ascii.eqb c "*") then Val (-1, [], input, e)
  else
    '(ret, args, parsed, e) ← parse_loop (S (Z.to_nat size)) ptr size parsed 0 [] e;
    Val (ret, args, if ret =? 1 then decr parsed input else input, e).

(** The pairs of [ZADD] from [i] on: the loop ends at [recv_bytes.size() - 2]. *)
Fixpoint zadd_pairs (l : list bytes) : list bytes :=
  match l with score :: member :: l => member :: str (atof_int64 score) :: zadd_pairs l | _ => [] end.

(** The words behind the range of [ZRANGEBYSCORE]: [withscores], [offset] and [count]. *)
Fixpoint range_options (l : list bytes) (after_limit : bool) (withscores offset count : bytes) : bytes * bytes * bytes :=
  match l with
  | [] => (withscores, offset, count)
  | s :: l =>
    let '(offset, count, after_limit) :=
      if after_limit then if bool_decide (offset = []) then (s, count, true) else (offset, s, false) else (offset, count, after_limit) in
    let s := List.map c_tolower s in
    if bool_decide (s = lit "withscores") then range_options l after_limit s offset count
    else if bool_decide (s = lit "limit") then range_options l true withscores offset count
    else range_options l after_limit withscores offset count
  end.

(** One end of a range of scores; [step] is added for an open one. *)
Definition score_bound (s : bytes) (step : Z) e : outcome (bytes * errno_t) :=
  if bool_decide (s = lit "-inf") || bool_decide (s = lit "+inf") then Val ([], e)
  else
    match s with
    | c :: tmp =>
      if Ascii.eqb c "(" then z ← int_arith (str_to_int tmp + step); Val (dec_int z, number_errno tmp e) else Val (s, e)
    | [] => Val (s, e)
    end.

(** The words after the first of a range by scores. *)
Definition range_by_score (up : bool) (l : list bytes) e : outcome (list bytes * errno_t) :=
  match l with
  | name :: smin :: smax :: opts =>
    let '(withscores, offset, count) := range_options opts false [] [] [] in
    if bool_decide (smin = []) || bool_decide (smax = []) then Val ([], e)
    else
      '(lo, e) ← score_bound smin (if up then 1 else -1) e;
      '(hi, e) ← score_bound smax (if up then -1 else 1) e;
      Val ([name; []; lo; hi; if bool_decide (offset = []) then lit "0" else offset;
            if bool_decide (count = []) then lit "2000000000" else count; withscores], e)
  | _ => Val ([], e)
  end.

(** The words after the first of a range by ranks. *)
Definition range_by_rank (l : list bytes) e : outcome (list bytes * errno_t) :=
  match l with
  | name :: a :: z :: opts =>
    let start := strtol a in
    let end_ := strtol z in
    let e := number_errno z (number_errno a e) in
    size ← (if end_ =? -1 then Val (-1)
            else if (0 <=? start) && (0 <=? end_) then
              (if end_ - start + 1 <=? LLONG_MAX then Val (end_ - start + 1) else Fault SignedOverflow)
            else Val 0);
    let words := if ((0 <=? start) && (0 <=? end_)) || (end_ =? -1) then [name; a; str size] else [] in
    Val (words ++ match opts with s :: _ => [List.map c_tolower s] | [] => [] end, e)
  | _ => Val ([], e)
  end.

(** [convert_req], after [cmd] is set: the description found, and the words. *)
Definition convert_req (cmd : bytes) (args : list bytes) e : outcome (option RedisRequestDesc * list bytes * errno_t) :=
  let rest := tl args in
  match cmd_find cmd with
  | None => Val (None, cmd :: rest, e)
  | Some d =>
    let first := lit (ssdb_cmd d) in
    '(words, e) ←
      match strategy d with
      | STRATEGY_HKEYS | STRATEGY_HVALS =>
        Val (match rest with [name] => [name; []; []; lit "2000000000"] | _ => [] end, e)
      | STRATEGY_SETEX | STRATEGY_ZINCRBY => Val (match rest with [a; b; c] => [a; c; b] | _ => [] end, e)
      | STRATEGY_ZADD => Val (match rest with name :: l => name :: zadd_pairs l | [] => [] end, e)
      | STRATEGY_REMRANGEBYRANK | STRATEGY_REMRANGEBYSCORE =>
        Val (match rest with a :: b :: c :: _ => [a; b; c] | _ => [] end, e)
      | STRATEGY_ZRANGE | STRATEGY_ZREVRANGE => range_by_rank rest e
      | STRATEGY_ZRANGEBYSCORE => range_by_score true rest e
      | STRATEGY_ZREVRANGEBYSCORE => range_by_score false rest e
      | _ => Val (rest, e)
      end;
    Val (Some d, first :: words, e)
  end.

(** [None] is the null result; the words that it gives are the strings of [recv_string]. *)
Definition recv_req (input : Buffer) (r : RedisLink) e : outcome (option (list bytes) * Buffer * RedisLink * errno_t) :=
  '(ret, args, input, e) ← parse_req input e;
  let r := mkRedisLink (cmd r) (req_desc r) args (recv_string r) in
  if ret =? -1 then Val (None, input, r, e)
  else
    match args with
    | [] => '(ok, input) ← make_space input; Val (if (ok : bool) then Some [] else None, input, r, e)
    | a :: _ =>
      let c := List.map c_tolower a in
      '(desc, words, e) ← convert_req c args e;
      Val (Some words, input, mkRedisLink c desc words words, e)
    end.

(** ** Responses *)

Definition crlf : bytes := [chr_cr; chr_nl].
Definition int_size {A : Type} (l : list A) : Z := i32 (Z.of_nat (length l)).
Definition bulk (v : bytes) : bytes := lit "$" ++ dec_int (int_size v) ++ crlf ++ v ++ crlf.

(** The values for the keys asked for: [resp] has the keys that were found, with their values. *)
Fixpoint mget_values (keys resp : list bytes) : list bytes :=
  match keys with
  | [] => []
  | k :: keys =>
    match resp with
    | rk :: v :: found => if bool_decide (k = rk) then bulk v :: mget_values keys found else (lit "$-1" ++ crlf) :: mget_values keys resp
    | _ => (lit "$-1" ++ crlf) :: mget_values keys resp
    end
  end.

Fixpoint every_second (l : list bytes) : list bytes :=
  match l with x :: _ :: l => x :: every_second l | l => l end.

(** The texts that [send_resp] appends; [skip] is the number of words of the request before its keys. *)
Definition mget_texts (skip : nat) (words resp : list bytes) : outcome (list bytes) :=
  if negb (length resp mod 2 =? 1)%nat then Val [lit "*0"]
  else if (length words <? skip)%nat then Fault OutOfBounds
  else Val ((lit "*" ++ dec_int (int_size words - Z.of_nat skip) ++ crlf) :: mget_values (drop skip words) (tl resp)).

Definition bulks_texts (withscores : bool) (resp : list bytes) : list bytes :=
  let n := int_size resp - 1 in
  (lit "*" ++ dec_int (if withscores then n else Z.quot n 2) ++ crlf)
  :: List.map bulk (if withscores then tl resp else every_second (tl resp)).

Definition reply_texts (d : RedisRequestDesc) (words resp : list bytes) : outcome (list bytes) :=
  if bool_decide (strategy d = STRATEGY_PING) then Val [lit "+PONG" ++ crlf]
  else if bool_decide (reply_type d = REPLY_STATUS) then Val [lit "+OK" ++ crlf]
  else
    match strategy d with
    | STRATEGY_MGET => mget_texts 1 words resp
    | STRATEGY_HMGET => mget_texts 2 words resp
    | s =>
      match reply_type d with
      | REPLY_BULK => Val [match resp with _ :: v :: _ => bulk v | _ => lit "$0" ++ crlf end]
      | REPLY_INT => Val (match resp with _ :: v :: _ => [lit ":"; v; crlf] | _ => [lit "$0" ++ crlf] end)
      | REPLY_MULTI_BULK =>
        withscores ←
          match s with
          | STRATEGY_ZRANGE | STRATEGY_ZREVRANGE => Val (bool_decide (words !! 4%nat = Some (lit "withscores")))
          | STRATEGY_ZRANGEBYSCORE | STRATEGY_ZREVRANGEBYSCORE =>
            w ← from_option_fault OutOfBounds (last words); Val (bool_decide (w = lit "withscores"))
          | _ => Val true
          end;
        Val (bulks_texts withscores resp)
      | REPLY_STATUS => Val [lit "-ERR server error" ++ crlf]
      end
    end.

Definition resp_texts (r : RedisLink) (resp : list bytes) : outcome (list bytes) :=
  match resp with
  | [] => Val []
  | code :: _ =>
    let second := match resp with _ :: v :: _ => [v] | _ => [] end in
    if bool_decide (code ∈ [lit "error"; lit "fail"; lit "client_error"]) then Val (lit "-ERR " :: second ++ [crlf])
    else if bool_decide (code = lit "noauth") then Val (lit "-NOAUTH " :: second ++ [crlf])
    else if bool_decide (code = lit "not_found") then Val [lit "$-1" ++ crlf]
    else if negb (bool_decide (code = lit "ok")) then Val [lit "-ERR server error" ++ crlf]
    else
      match req_desc r with
      | None => Val [lit "+OK" ++ crlf]
      | Some d => reply_texts d (recv_string r) resp
      end
  end.

(** The appends one after the other, their results not looked at. *)
Fixpoint append_all (l : list bytes) b : outcome Buffer :=
  match l with [] => Val b | d :: l => b ← appended (append d b); append_all l b end.

Definition send_resp (r : RedisLink) (resp : list bytes) (output : Buffer) : outcome Buffer :=
  l ← resp_texts r resp; append_all l output.
End RedisLink.

(** * [Link] *)

Definition INIT_BUFFER_SIZE : Z := 8.
Definition MAX_PACKET_SIZE : Z := 128 * 1024 * 1024.

(** The link of a client; [l_errno] is [errno]. *)
Record Link := mkLink {
  l_sock : Z;
  noblock_ : bool;
  l_recv_data : list bytes;
  redis : option RedisLink;
  input : Buffer;
  output : Buffer;
  l_errno : errno_t
}.

(** What a look at the data gives: an error behind some records, nothing yet, or a packet with the number of its bytes. *)
Inductive recv_result := BadFormat (l : list bytes) | NotReady | Packet (l : list bytes) (parsed : Z).

Section Link.
Context {N : Type} `{Network N} `{Alloc} `{Patience} `{AtofLib}.
Implicit Types (l : Link) (n : N).

(** The link that [connect] makes on a socket. *)
Definition Link_new (sock : Z) (e : errno_t) : Link :=
  mkLink sock false [] None (Buffer_new INIT_BUFFER_SIZE) (Buffer_new INIT_BUFFER_SIZE) e.

Definition with_recv_data (d : list bytes) l : Link := mkLink (l_sock l) (noblock_ l) d (redis l) (input l) (output l) (l_errno l).
Definition with_redis (r : option RedisLink) l : Link := mkLink (l_sock l) (noblock_ l) (l_recv_data l) r (input l) (output l) (l_errno l).
Definition with_input (b : Buffer) l : Link := mkLink (l_sock l) (noblock_ l) (l_recv_data l) (redis l) b (output l) (l_errno l).
Definition with_output (b : Buffer) l : Link := mkLink (l_sock l) (noblock_ l) (l_recv_data l) (redis l) (input l) b (l_errno l).
Definition with_errno (e : errno_t) l : Link := mkLink (l_sock l) (noblock_ l) (l_recv_data l) (redis l) (input l) (output l) e.

(** ** Reading and writing *)

(** [EWOULDBLOCK] is [EAGAIN]. *)
Fixpoint link_read_loop (fuel : nat) (ret : Z) l n : outcome (Z * Link * N) :=
  match fuel with
  | O => Fault OutOfFuel
  | S fuel =>
    let want := space (input l) in
    if want >? 0 then
      let '(r, n) := sock_read (l_sock l) want n in
      match r with
      | ReadFail code =>
        if negb (code =? -1) then Fault OutOfBounds
        else
          let l := with_errno (net_errno n) l in
          if bool_decide (l_errno l = F_EINTR) then link_read_loop fuel ret l n
          else if bool_decide (l_errno l = EAGAIN) then Val (ret, l, n)
          else Val (-1, l, n)
      | ReadData [] => Val (0, l, n)
      | ReadData d =>
        b ← store d (input l);
        let l := with_input b l in
        ret ← int_arith (ret + Z.of_nat (length d));
        if noblock_ l then link_read_loop fuel ret l n else Val (ret, l, n)
      end
    else Val (ret, l, n)
  end.

Definition link_read l n : outcome (Z * Link * N) :=
  b ← (if b_total (input l) =? INIT_BUFFER_SIZE then appended (grow (input l)) else Val (input l));
  b ← nice b;
  link_read_loop patience 0 (with_input b l) n.

Fixpoint link_write_loop (fuel : nat) (ret : Z) l n : outcome (Z * Link * N) :=
  match fuel with
  | O => Fault OutOfFuel
  | S fuel =>
    let want := b_size (output l) in
    if want >? 0 then
      m ← memory_at (output l);
      let '(len, n) := sock_write (l_sock l) (take (Z.to_nat want) m) n in
      if len =? -1 then
        let l := with_errno (net_errno n) l in
        if bool_decide (l_errno l = F_EINTR) then link_write_loop fuel ret l n
        else if bool_decide (l_errno l = EAGAIN) then Val (ret, l, n)
        else Val (-1, l, n)
      else if len =? 0 then Val (ret, l, n)
      else
        let l := with_output (decr len (output l)) l in
        ret ← int_arith (ret + len);
        if noblock_ l then link_write_loop fuel ret l n else Val (ret, l, n)
    else Val (ret, l, n)
  end.

(** An error leaves the function before [nice]. *)
Definition link_write l n : outcome (Z * Link * N) :=
  '(ret, l, n) ← link_write_loop patience 0 l n;
  if ret =? -1 then Val (-1, l, n) else b ← nice (output l); Val (ret, with_output b l, n).

(** [false] is [-1]; the length is not used. *)
Fixpoint flush_loop (fuel : nat) l n : outcome (bool * Link * N) :=
  match fuel with
  | O => Fault OutOfFuel
  | S fuel =>
    if b_empty (output l) then Val (true, l, n)
    else
      '(ret, l, n) ← link_write l n;
      if ret =? -1 then Val (false, l, n) else flush_loop fuel l n
  end.
Definition flush : Link → N → outcome (bool * Link * N) := flush_loop patience.

(** ** Packets *)

(** [atoi] of the digits in front of the line end. *)
Definition head_number (head : bytes) : outcome Z :=
  let v := strtol head in if (INT_MIN <=? v) && (v <=? INT_MAX) then Val v else Fault SignedOverflow.

Fixpoint recv_loop (fuel : nat) (head : bytes) (parsed : Z) (data : list bytes) : outcome recv_result :=
  match fuel with
  | O => Fault OutOfFuel
  | S fuel =>
    match find_sub [chr_nl] head with
    | None => Val NotReady
    | Some i =>
      let head_len := Z.of_nat i + 1 in
      if (head_len =? 1) || ((head_len =? 2) && bool_decide (take 1 head = [chr_cr])) then Val (Packet data (parsed + head_len))
      else if negb (match head with c :: _ => c_isdigit c | [] => false end) then Val (BadFormat data)
      else if head_len >? 20 - 1 then Val (BadFormat data)
      else
        body_len ← head_number (take i head);
        if body_len <? 0 then Val (BadFormat data)
        else
          taken ← int_arith (head_len + body_len);
          let size := Z.of_nat (length head) - taken in
          if size <? 0 then Val NotReady
          else
            let body := take (Z.to_nat body_len) (drop (Z.to_nat head_len) head) in
            let head := drop (Z.to_nat taken) head in
            let data := data ++ [body] in
            let parsed := parsed + taken in
            match head with
            | c :: rest =>
              if Ascii.eqb c chr_nl then
                if parsed + 1 >? MAX_PACKET_SIZE then Val (BadFormat data) else recv_loop fuel rest (parsed + 1) data
              else
                match rest with
                | c' :: rest =>
                  if Ascii.eqb c chr_cr && Ascii.eqb c' chr_nl then
                    if parsed + 2 >? MAX_PACKET_SIZE then Val (BadFormat data) else recv_loop fuel rest (parsed + 2) data
                  else Val (BadFormat data)
                | [] => Val NotReady
                end
            | [] => Val NotReady
            end
    end
  end.

(** [None] is the null result. *)
Definition link_recv l : outcome (option (list bytes) * Link) :=
  let l := with_recv_data [] l in
  if b_empty (input l) then Val (Some [], l)
  else
    m ← memory_at (input l);
    let '(head, size, parsed) := skip_lines m (b_size (input l)) 0 in
    c ← first_byte head;
    if Ascii.eqb c "*" then
      '(ret, b, r, e) ← recv_req (input l) (default RedisLink_new (redis l)) (l_errno l);
      let l := with_errno e (with_input b (with_redis (Some r) l)) in
      match ret with
      | Some d => Val (Some d, with_recv_data d l)
      | None => Val (None, l)
      end
    else
      r ← recv_loop (S (Z.to_nat size)) (take (Z.to_nat size) head) parsed [];
      match r with
      | BadFormat d => Val (None, with_recv_data d l)
      | Packet d parsed => Val (Some d, with_recv_data d (with_input (decr parsed (input l)) l))
      | NotReady =>
        '(ok, b) ← make_space (input l);
        let l := with_input b l in
        Val (if (ok : bool) then Some [] else None, l)
      end.

(** [send] of a vector of strings. *)
Definition link_send (resp : list bytes) l : outcome Link :=
  match resp with
  | [] => Val l
  | _ =>
    b ← match redis l with
        | Some r => send_resp r resp (output l)
        | None => b ← append_records resp (output l); appended (append [chr_nl] b)
        end;
    Val (with_output b l)
  end.

Fixpoint response_loop (fuel : nat) l n : outcome (option (list bytes) * Link * N) :=
  match fuel with
  | O => Fault OutOfFuel
  | S fuel =>
    '(resp, l) ← link_recv l;
    match resp with
    | None => Val (None, l, n)
    | Some [] =>
      '(ret, l, n) ← link_read l n;
      if ret <=? 0 then Val (None, l, n) else response_loop fuel l n
    | Some d => Val (Some d, l, n)
    end
  end.
Definition response : Link → N → outcome (option (list bytes) * Link * N) := response_loop patience.

(** [ClientImpl::request] *)
Definition client_request (req : list bytes) l n : outcome (option (list bytes) * Link * N) :=
  l ← link_send req l;
  '(ok, l, n) ← flush l n;
  if negb ok then Val (None, l, n) else response l n.
End Link.

Local Open Scope Z_scope.
#[local] Set Warnings "-register-all".

(** * Framing *)

Definition record_text (w : bytes) : bytes := dec_int (Z.of_nat (length w)) ++ chr_nl :: w ++ [chr_nl].
Definition records_text (l : list bytes) : bytes := List.concat (List.map record_text l).
Definition packet_text (l : list bytes) : bytes := records_text l ++ [chr_nl].

Lemma dec_digits_short k : ∀ n acc, 0 <= n < 10 ^ Z.of_nat k → (k ≠ 0)%nat → (length (dec_digits 20 n acc) <= k + length acc)%nat.
Proof.
  assert (G : ∀ f k n acc, 0 <= n < 10 ^ Z.of_nat k → (k ≠ 0)%nat → (length (dec_digits f n acc) <= k + length acc)%nat).
  { induction f as [| f IH]; intros j n acc B Nz; cbn [dec_digits]; [lia |].
    destruct (Z.eqb_spec (n / 10) 0) as [E | E]; [cbn; lia |]. destruct j as [| [| j]]; [done | |].
    - exfalso. apply E. apply Z.div_small. cbn in B. lia.
    - etransitivity; [apply (IH (S j)) |].
      + split; [apply Z.div_pos; lia |]. apply Z.div_lt_upper_bound; [lia |].
        rewrite Nat2Z.inj_succ, Z.pow_succ_r in B by lia. lia.
      + done.
      + cbn. lia. }
  apply G.
Qed.

Lemma dec_int_digits k : 0 <= k → forallb c_isdigit (dec_int k) = true.
Proof. intros Hk. unfold dec_int. destruct (Z.ltb_spec k 0); [lia |]. by apply dec_nat_chars. Qed.

Lemma digits_value_all s : ∀ acc n, parse_digits s acc = Some n → digits_value s acc = n.
Proof.
  induction s as [| x s IH]; intros acc n; simpl; [by intros [= ->] |]. destruct (c_isdigit x); [apply IH | done].
Qed.

Lemma digit_facts x : c_isdigit x = true → c_isspace x = false ∧ Ascii.eqb x "-" = false ∧ Ascii.eqb x "+" = false ∧ x ≠ NUL ∧ x ≠ chr_nl ∧ x ≠ chr_cr ∧ x ≠ "*"%char.
Proof.
  pose proof (ascii_sweep (λ x, implb (c_isdigit x)
    (negb (c_isspace x || Ascii.eqb x "-" || Ascii.eqb x "+" || Ascii.eqb x NUL || Ascii.eqb x chr_nl || Ascii.eqb x chr_cr || Ascii.eqb x "*")))) as S.
  specialize (S ltac:(by vm_compute) x). simpl in S. intros D. rewrite D in S. simpl in S.
  rewrite negb_true_iff, !orb_false_iff in S. destruct S as [[[[[[S1 S2] S3] S4] S5] S6] S7].
  split_and!; try done; by apply Ascii.eqb_neq.
Qed.

Lemma strtol_dec_int k : 0 <= k <= INT_MAX → strtol (dec_int k) = k.
Proof.
  intros Hk. pose proof (dec_int_digits k ltac:(lia)) as D. pose proof (dec_int_ne k) as Ne.
  assert (P : parse_digits (dec_int k) 0 = Some k).
  { unfold dec_int. destruct (Z.ltb_spec k 0); [lia |]. apply parse_dec_nat. unfold INT_MAX in Hk. lia. }
  assert (C : c_str (dec_int k) = dec_int k).
  { clear - D. induction (dec_int k) as [| x l IH]; [done |]. simpl in D. apply andb_true_iff in D as [Dx D]. cbn [c_str].
    destruct (digit_facts x Dx) as (_ & _ & _ & N & _). destruct (Ascii.eqb_spec x NUL); [done |]. by rewrite IH. }
  unfold strtol, scan_decimal. rewrite C. pose proof (digits_value_all _ _ _ P) as V. destruct (dec_int k) as [| x l]; [done |].
  simpl in D. apply andb_true_iff in D as [Dx _]. destruct (digit_facts x Dx) as (E1 & E2 & E3 & _).
  cbn [skip_while]. rewrite E1, E2, E3, V. unfold LLONG_MIN, LLONG_MAX, INT_MAX in *. lia.
Qed.

(** A word is short enough for a packet. *)
Definition small (l : list bytes) : Prop := Z.of_nat (length (packet_text l)) <= MAX_PACKET_SIZE.

Lemma dec_int_short k : 0 <= k <= MAX_PACKET_SIZE → (length (dec_int k) <= 9)%nat.
Proof.
  intros Hk. unfold dec_int. destruct (Z.ltb_spec k 0); [lia |]. unfold dec_nat.
  pose proof (dec_digits_short 9 k [] ltac:(unfold MAX_PACKET_SIZE in Hk; lia) ltac:(done)) as D. cbn [length] in D. lia.
Qed.

Lemma no_nl_digits d : forallb c_isdigit d = true → chr_nl ∉ d.
Proof.
  induction d as [| x d IH]; intros D; [by apply not_elem_of_nil |]. simpl in D. apply andb_true_iff in D as [Dx D].
  apply not_elem_of_cons. split; [| by apply IH]. by destruct (digit_facts x Dx) as (_ & _ & _ & _ & N & _).
Qed.

(** One record in front. *)
Lemma recv_loop_head fuel d body parsed data : forallb c_isdigit d = true → d ≠ [] → (length d <= 9)%nat →
  recv_loop (S fuel) (d ++ chr_nl :: body) parsed data =
  (body_len ← head_number d;
   if body_len <? 0 then Val (BadFormat data)
   else
     taken ← int_arith (Z.of_nat (length d) + 1 + body_len);
     if Z.of_nat (length (d ++ chr_nl :: body)) - taken <? 0 then Val NotReady
     else
       match drop (Z.to_nat body_len) body with
       | c :: rest =>
         if Ascii.eqb c chr_nl then
           if parsed + taken + 1 >? MAX_PACKET_SIZE then Val (BadFormat (data ++ [take (Z.to_nat body_len) body]))
           else recv_loop fuel rest (parsed + taken + 1) (data ++ [take (Z.to_nat body_len) body])
         else
           match rest with
           | c' :: rest =>
             if Ascii.eqb c chr_cr && Ascii.eqb c' chr_nl then
               if parsed + taken + 2 >? MAX_PACKET_SIZE then Val (BadFormat (data ++ [take (Z.to_nat body_len) body]))
               else recv_loop fuel rest (parsed + taken + 2) (data ++ [take (Z.to_nat body_len) body])
             else Val (BadFormat (data ++ [take (Z.to_nat body_len) body]))
           | [] => Val NotReady
           end
       | [] => Val NotReady
       end).
Proof.
  intros D Ne Sh. cbn [recv_loop]. pose proof (find_sub_first chr_nl [] d body (no_nl_digits d D)) as F. cbn [app] in F. rewrite F.
  destruct d as [| x d]; [done |]. pose proof D as D'. simpl in D'. apply andb_true_iff in D' as [Dx _].
  destruct (digit_facts x Dx) as (_ & _ & _ & _ & _ & Cr & _). cbv zeta.
  destruct (Z.eqb_spec (Z.of_nat (length (x :: d)) + 1) 1) as [E | _]; [simpl in E; lia |]. cbn [orb].
  rewrite (bool_decide_false (take 1 ((x :: d) ++ chr_nl :: body) = [chr_cr])) by (cbn; congruence). rewrite andb_false_r.
  cbn [app]. rewrite Dx. cbn [negb]. destruct (Z.gtb_spec (Z.of_nat (length (x :: d)) + 1) (20 - 1)) as [G | _]; [lia |].
  change (x :: (d ++ chr_nl :: body)) with ((x :: d) ++ chr_nl :: body). rewrite take_app_length.
  destruct (head_number (x :: d)) as [v |]; [| done]. cbn [mbind outcome_bind]. destruct (Z.ltb_spec v 0) as [| Pv]; [done |].
  destruct (int_arith _) as [tk |] eqn:Et; [| done]. cbn [mbind outcome_bind]. unfold int_arith in Et. destruct (_ && _) in Et; [| done].
  injection Et as <-. destruct (_ <? 0); [done |].
  assert (Dr : ∀ j, drop (S (length (x :: d)) + j) ((x :: d) ++ chr_nl :: body) = drop j body).
  { intros j. change ((x :: d) ++ chr_nl :: body) with ((x :: d) ++ [chr_nl] ++ body). rewrite (assoc (++)).
    rewrite <- drop_drop. f_equal. apply drop_app_length'. rewrite length_app. cbn. lia. }
  change (length (x :: d)) with (S (length d)) in *.
  replace (Z.to_nat (Z.of_nat (S (length d)) + 1)) with (S (S (length d)) + 0)%nat by lia.
  replace (Z.to_nat (Z.of_nat (S (length d)) + 1 + v)) with (S (S (length d)) + Z.to_nat v)%nat by lia.
  by rewrite !Dr, drop_0.
Qed.

Lemma record_length w : length (record_text w) = (length (dec_int (Z.of_nat (length w))) + length w + 2)%nat.
Proof. unfold record_text. rewrite length_app. cbn. rewrite length_app. cbn. lia. Qed.

Lemma head_number_dec k : 0 <= k <= MAX_PACKET_SIZE → head_number (dec_int k) = Val k.
Proof.
  intros Hk. unfold head_number. rewrite strtol_dec_int by (unfold INT_MAX, MAX_PACKET_SIZE in *; lia).
  destruct (Z.leb_spec INT_MIN k); [| unfold INT_MIN in *; lia]. destruct (Z.leb_spec k INT_MAX); [done |].
  unfold INT_MAX, MAX_PACKET_SIZE in *. lia.
Qed.

(** The beginning [t] of a record, up to its end or beyond. *)
Lemma recv_record_head fuel w t parsed data : Z.of_nat (length w) <= MAX_PACKET_SIZE →
  recv_loop (S fuel) (dec_int (Z.of_nat (length w)) ++ chr_nl :: t) parsed data =
  if (length t <? length w)%nat then Val NotReady
  else
    let taken := Z.of_nat (length (record_text w)) - 1 in
    match drop (length w) t with
    | c :: rest =>
      if Ascii.eqb c chr_nl then
        if parsed + taken + 1 >? MAX_PACKET_SIZE then Val (BadFormat (data ++ [take (length w) t]))
        else recv_loop fuel rest (parsed + taken + 1) (data ++ [take (length w) t])
      else
        match rest with
        | c' :: rest =>
          if Ascii.eqb c chr_cr && Ascii.eqb c' chr_nl then
            if parsed + taken + 2 >? MAX_PACKET_SIZE then Val (BadFormat (data ++ [take (length w) t]))
            else recv_loop fuel rest (parsed + taken + 2) (data ++ [take (length w) t])
          else Val (BadFormat (data ++ [take (length w) t]))
        | [] => Val NotReady
        end
    | [] => Val NotReady
    end.
Proof.
  intros Hw. pose proof (dec_int_short (Z.of_nat (length w)) ltac:(lia)) as Sh.
  rewrite recv_loop_head; [| by apply dec_int_digits; lia | apply dec_int_ne | done].
  rewrite head_number_dec by lia. cbn [mbind outcome_bind]. destruct (Z.ltb_spec (Z.of_nat (length w)) 0); [lia |].
  rewrite int_arith_ok by (unfold INT_MIN, INT_MAX, MAX_PACKET_SIZE in *; lia). cbn [mbind outcome_bind].
  rewrite record_length, length_app, Nat2Z.id. cbn [length].
  replace (Z.of_nat (length (dec_int (Z.of_nat (length w))) + length w + 2) - 1)
    with (Z.of_nat (length (dec_int (Z.of_nat (length w)))) + 1 + Z.of_nat (length w)) by lia.
  destruct (Nat.ltb_spec (length t) (length w)), (Z.ltb_spec (Z.of_nat (length (dec_int (Z.of_nat (length w))) + S (length t))
    - (Z.of_nat (length (dec_int (Z.of_nat (length w)))) + 1 + Z.of_nat (length w))) 0); try lia; done.
Qed.

Lemma recv_record fuel w rest parsed data : parsed + Z.of_nat (length (record_text w)) <= MAX_PACKET_SIZE → 0 <= parsed →
  recv_loop (S fuel) (record_text w ++ rest) parsed data = recv_loop fuel rest (parsed + Z.of_nat (length (record_text w))) (data ++ [w]).
Proof.
  intros Hp P0. pose proof (record_length w) as L. unfold record_text at 1. rewrite <- (assoc (++)). cbn [app]. rewrite <- (assoc (++)).
  rewrite recv_record_head by lia. destruct (Nat.ltb_spec (length (w ++ [chr_nl] ++ rest)) (length w)) as [Hl |]; [rewrite length_app in Hl; lia |].
  cbv zeta. rewrite drop_app_length, take_app_length. cbn [app]. rewrite Ascii.eqb_refl.
  destruct (Z.gtb_spec (parsed + (Z.of_nat (length (record_text w)) - 1) + 1) MAX_PACKET_SIZE); [lia |]. f_equal. lia.
Qed.
Lemma recv_record_part fuel w t u parsed data : t ++ u = record_text w → u ≠ [] → Z.of_nat (length w) <= MAX_PACKET_SIZE →
  recv_loop (S fuel) t parsed data = Val NotReady.
Proof.
  intros E Nu Hw. unfold record_text in E. apply app_eq_app in E as (k & [[-> Ek] | [Ek ->]]).
  - destruct k as [| c k].
    + rewrite app_nil_r. cbn [recv_loop]. rewrite find_sub_none; [done |]. apply no_nl_digits, dec_int_digits. lia.
    + injection Ek as <- Ek. rewrite recv_record_head by done.
      destruct (Nat.ltb_spec (length k) (length w)) as [| Ge]; [done |]. cbv zeta.
      assert (length k = length w) as El.
      { apply (f_equal length) in Ek. rewrite !length_app in Ek. cbn in Ek. destruct u; [done |]. cbn in Ek. lia. }
      rewrite drop_ge by lia. done.
  - cbn [recv_loop]. rewrite find_sub_none; [done |]. intros I. apply (no_nl_digits (dec_int (Z.of_nat (length w)))).
    + apply dec_int_digits. lia.
    + rewrite Ek. apply elem_of_app. by left.
Qed.

Lemma packet_cons w l : packet_text (w :: l) = record_text w ++ packet_text l.
Proof. unfold packet_text, records_text. cbn [List.map List.concat]. by rewrite <- (assoc (++)). Qed.

Lemma recv_packet l : ∀ fuel parsed data, 0 <= parsed → parsed + Z.of_nat (length (packet_text l)) <= MAX_PACKET_SIZE → (length l < fuel)%nat →
  recv_loop fuel (packet_text l) parsed data = Val (Packet (data ++ l) (parsed + Z.of_nat (length (packet_text l)))).
Proof.
  induction l as [| w l IH]; intros fuel parsed data P0 Hp Hf; (destruct fuel as [| fuel]; [cbn in Hf; lia |]).
  - rewrite app_nil_r. done.
  - rewrite packet_cons, length_app in *. rewrite recv_record by lia. cbn in Hf. rewrite IH by lia. rewrite <- (assoc (++)). do 2 f_equal. lia.
Qed.
Lemma recv_part l : ∀ fuel t u parsed data, t ++ u = packet_text l → u ≠ [] → 0 <= parsed →
  parsed + Z.of_nat (length (packet_text l)) <= MAX_PACKET_SIZE → (length t < fuel)%nat → recv_loop fuel t parsed data = Val NotReady.
Proof.
  induction l as [| w l IH]; intros fuel t u parsed data E Nu P0 Hp Hf; (destruct fuel as [| fuel]; [lia |]).
  - destruct t as [| c t]; [done |]. apply (f_equal length) in E. cbn in E. rewrite length_app in E. destruct u; [done |]. cbn in E. lia.
  - rewrite packet_cons, length_app in *. pose proof (record_length w) as L.
    apply app_eq_app in E as (k & [[-> Ek] | [Ek ->]]).
    + rewrite length_app in Hf. rewrite recv_record by lia. apply (IH fuel k u); [done | done | lia | lia | lia].
    + destruct k as [| c k].
      * rewrite app_nil_r in Ek. subst t. rewrite <- (app_nil_r (record_text w)), recv_record by lia.
        destruct fuel; [lia | done].
      * apply (recv_record_part fuel w t (c :: k)); [done | done | lia].
Qed.
Lemma packet_length l : (length l < length (packet_text l))%nat.
Proof.
  induction l as [| w l IH]; [cbn; lia |]. rewrite packet_cons, length_app. pose proof (record_length w). cbn. lia.
Qed.
Lemma packet_digit w l : ∃ c r, packet_text (w :: l) = c :: r ∧ c_isdigit c = true.
Proof.
  rewrite packet_cons. unfold record_text. pose proof (dec_int_digits (Z.of_nat (length w)) ltac:(lia)) as D.
  pose proof (dec_int_ne (Z.of_nat (length w))). destruct (dec_int _) as [| c r]; [done |]. simpl in D. apply andb_true_iff in D as [D _].
  cbn [app]. by eexists _, _.
Qed.

(** * Buffers *)

Section Buffers.
Context `{AllocLaws}.
Implicit Types b : Buffer.

(** The data is [t], with something on both sides of it. *)
Definition carries b (t : bytes) : Prop :=
  ∃ pre post, b_block b = Some (pre ++ t ++ post) ∧ b_data b = Z.of_nat (length pre) ∧ b_size b = Z.of_nat (length t) ∧
    b_total b = Z.of_nat (length (pre ++ t ++ post)).

Definition cap : Z := 2 ^ 30.
(** As small as at first, or as big as [grow] makes it. *)
Definition sized (total : Z) : Prop := total = INIT_BUFFER_SIZE ∨ 8 * 1024 <= total <= cap.
(** No more than half of it is passed. *)
Definition roomy b : Prop := sized (b_total b) ∧ b_data b <= b_total b / 2.

Lemma carries_sizes b t : carries b t → b_size b = Z.of_nat (length t) ∧ 0 <= b_data b ∧ 0 <= space b ∧ space b = b_total b - b_data b - Z.of_nat (length t).
Proof.
  intros (pre & post & _ & D & S & T). unfold space. rewrite D, S, T, !length_app. repeat split; lia.
Qed.

Lemma new_carries total : memory → 0 <= total → carries (Buffer_new total) [] ∧ b_total (Buffer_new total) = total ∧ b_data (Buffer_new total) = 0.
Proof.
  intros M T. destruct (M total T) as [p E]. pose proof (malloc_size _ _ E) as L. unfold Buffer_new. rewrite E. split; [| done].
  exists [], p. cbn. repeat split; [done .. | lia].
Qed.

Lemma memory_at_carries b t : carries b t → ∃ post, memory_at b = Val (t ++ post).
Proof.
  intros (pre & post & B & D & S & T). exists post. unfold memory_at. rewrite B. cbn [deref from_option_fault mbind outcome_bind].
  pose proof (mem_read_app pre (t ++ post) [] (b_data b) (Z.of_nat (length (pre ++ t ++ post)) - b_data b)) as R.
  rewrite !app_nil_r in R. apply R; [done |]. rewrite D, !length_app. lia.
Qed.

Lemma store_carries b t d : carries b t → Z.of_nat (length d) <= space b →
  ∃ b', store d b = Val b' ∧ carries b' (t ++ d) ∧ b_total b' = b_total b ∧ b_data b' = b_data b.
Proof.
  intros (pre & post & B & D & S & T) Sp. unfold space in Sp. rewrite D, S, T, !length_app in Sp.
  destruct (split_at post (length d) ltac:(lia)) as (x & y & -> & Lx). unfold store. rewrite B. cbn [deref from_option_fault mbind outcome_bind].
  rewrite (app_assoc pre t). rewrite (mem_write_app (pre ++ t) x y d) by (rewrite ?length_app; lia). cbn [mbind outcome_bind].
  eexists. split; [done |]. split; [| done]. exists pre, y. cbn. split; [by rewrite <- !app_assoc |]. split; [done |].
  rewrite T, S, !length_app. lia.
Qed.

Lemma decr_carries b t k : carries b t → (k <= length t)%nat → carries (decr (Z.of_nat k) b) (drop k t).
Proof.
  intros (pre & post & B & D & S & T) K. exists (pre ++ take k t), post. unfold decr. cbn.
  assert (E : (pre ++ take k t) ++ drop k t ++ post = pre ++ t ++ post).
  { rewrite <- app_assoc. f_equal. rewrite app_assoc. by rewrite take_drop. }
  rewrite E. split; [done |]. split; [rewrite D, length_app, length_take; lia |]. split; [| done]. rewrite S, length_drop. lia.
Qed.

Lemma nice_carries b t : carries b t → 0 < b_total b →
  ∃ b', nice b = Val b' ∧ carries b' t ∧ b_total b' = b_total b ∧ b_data b' <= b_total b / 2 ∧ space b <= space b'.
Proof.
  intros C P. pose proof (carries_sizes b t C) as (S1 & S2 & S3 & _). destruct C as (pre & post & B & D & S & T). unfold nice.
  destruct (Z.gtb_spec (b_data b) (b_total b / 2)) as [G | G].
  - assert (Q : 0 <= b_total b / 2) by (apply Z.div_pos; lia).
    assert (Q2 : b_total b <= 2 * (b_total b / 2) + 1).
    { pose proof (Z.div_mod (b_total b) 2 ltac:(lia)). pose proof (Z.mod_pos_bound (b_total b) 2 ltac:(lia)). lia. }
    destruct (Z.gtb_spec (b_size b) 0) as [Sz | Sz].
    + rewrite B. cbn [deref from_option_fault mbind outcome_bind]. rewrite (mem_read_app pre t post) by done. cbn [mbind outcome_bind].
      destruct (split_at pre (length t)) as (x & y & -> & Lx); [rewrite !length_app in *; lia |].
      pose proof (mem_write_app [] x (y ++ t ++ post) t 0 ltac:(done) ltac:(done)) as W. cbn [app] in W. rewrite <- app_assoc.
      rewrite W. cbn [mbind outcome_bind]. eexists. split; [done |]. split.
      * exists [], (y ++ t ++ post). cbn. split; [done |]. split; [done |]. split; [done |]. rewrite T, !length_app. lia.
      * cbn. unfold space in *. cbn. lia.
    + assert (t = []) as -> by (destruct t; [done | cbn in *; lia]). eexists. split; [done |]. split.
      * exists [], (pre ++ post). cbn in *. split_and!; try done; lia.
      * cbn. unfold space in *. cbn. lia.
  - exists b. split; [done |]. split; [by exists pre, post |]. split; [done |]. split; lia.
Qed.

(** The size after [grow]. *)
Definition grown (total : Z) : Z := if total <? 8 * 1024 then 8 * 1024 else if total <? 512 * 1024 then 8 * total else 2 * total.
Lemma grown_twice total : sized total → total <= 2 ^ 29 → 2 * total <= grown total <= cap ∧ 8 * 1024 <= grown total.
Proof. intros B. unfold sized, INIT_BUFFER_SIZE, grown, cap in *. destruct (Z.ltb_spec total (8 * 1024)); [lia |]. destruct (Z.ltb_spec total (512 * 1024)); lia. Qed.

Lemma grow_carries b t : memory → carries b t → sized (b_total b) → b_total b < 2 ^ 29 →
  ∃ b', grow b = Val (true, b') ∧ carries b' t ∧ b_data b' = b_data b ∧ b_total b' = grown (b_total b).
Proof.
  intros M (pre & post & B & D & S & T) Sz Bd. pose proof (grown_twice (b_total b) Sz ltac:(lia)) as (G1 & G2). unfold grow.
  assert (En : (if b_total b <? 8 * 1024 then Val (8 * 1024) else if b_total b <? 512 * 1024 then int_arith (8 * b_total b) else int_arith (2 * b_total b)) = Val (grown (b_total b))).
  { unfold grown. destruct (_ <? _); [done |]. destruct (Z.ltb_spec (b_total b) (512 * 1024)); apply int_arith_ok; unfold INT_MIN, INT_MAX; lia. }
  rewrite En. cbn [mbind outcome_bind]. destruct (M (grown (b_total b)) ltac:(lia)) as [p Ep]. pose proof (malloc_size _ _ Ep) as Lp. rewrite Ep, B.
  eexists. split; [done |]. split; [| done]. exists pre, (post ++ drop (length (pre ++ t ++ post)) p). cbn.
  split; [by rewrite <- !app_assoc |]. split; [done |]. split; [done |]. rewrite !length_app, length_drop in *. rewrite ?length_app in *. lia.
Qed.

(** A loop that needs at most 2^27 bytes and some ends, with room for them. *)
Lemma make_room_carries fuel : ∀ size b t, memory → carries b t → roomy b → Z.of_nat (length t) + size <= 2 ^ 27 + 64 →
  cap < b_total b * 2 ^ Z.of_nat fuel →
  ∃ b', make_room (S fuel) size b = Val (true, b') ∧ carries b' t ∧ roomy b' ∧ size <= space b'.
Proof.
  induction fuel as [| fuel IH]; intros size b t M C [T Q] Sz F; cbn [make_room].
  - unfold sized, INIT_BUFFER_SIZE, cap in *. cbn in F. lia.
  - pose proof (carries_sizes b t C) as (_ & _ & _ & Sp). destruct (Z.gtb_spec size (space b)) as [G |]; [| by exists b].
    assert (P : 0 < b_total b) by (unfold sized, INIT_BUFFER_SIZE in T; lia).
    pose proof (Z.div_mod (b_total b) 2 ltac:(lia)) as Dm. pose proof (Z.mod_pos_bound (b_total b) 2 ltac:(lia)).
    assert (L : b_total b < 2 ^ 29) by lia.
    destruct (grow_carries b t M C T L) as (b' & E & C' & D' & T'). rewrite E. cbn [mbind outcome_bind].
    pose proof (grown_twice (b_total b) T ltac:(lia)) as (G1 & G2).
    apply IH; [done | done | | done | ].
    + split; [unfold sized in *; lia |]. rewrite D', T'. etransitivity; [exact Q |]. apply Z.div_le_mono; lia.
    + rewrite T'. rewrite Nat2Z.inj_succ, Z.pow_succ_r in F by lia. nia.
Qed.

Lemma room_enough size b t : memory → carries b t → roomy b → Z.of_nat (length t) + size <= 2 ^ 27 + 64 →
  ∃ b', make_room room_turns size b = Val (true, b') ∧ carries b' t ∧ roomy b' ∧ size <= space b'.
Proof. intros M C R Sz. apply (make_room_carries 31); try done. destruct R as [R _]. unfold sized, INIT_BUFFER_SIZE, cap in *. cbn. lia. Qed.

Lemma store_roomy b t d : carries b t → roomy b → Z.of_nat (length d) <= space b →
  ∃ b', store d b = Val b' ∧ carries b' (t ++ d) ∧ roomy b'.
Proof.
  intros C [R1 R2] Sp. destruct (store_carries b t d C Sp) as (b' & E & C' & T & D). exists b'. split; [done |]. split; [done |].
  split; [by rewrite T | by rewrite T, D].
Qed.

Lemma append_carries b t d : memory → carries b t → roomy b → Z.of_nat (length t) + Z.of_nat (length d) <= 2 ^ 27 + 64 →
  ∃ b', append d b = Val (true, b') ∧ carries b' (t ++ d) ∧ roomy b'.
Proof.
  intros M C R Sz. unfold append. rewrite i32_small by (unfold INT_MIN, INT_MAX; lia).
  destruct (room_enough (Z.of_nat (length d)) b t M C R Sz) as (b1 & E & C1 & R1 & S1). rewrite E. cbn [mbind outcome_bind negb].
  destruct (store_roomy b1 t d C1 R1 S1) as (b2 & E2 & C2 & R2). rewrite E2. by exists b2.
Qed.

Lemma append_record_carries b t w : memory → carries b t → roomy b → Z.of_nat (length (t ++ record_text w)) <= MAX_PACKET_SIZE →
  ∃ b', append_record w b = Val (true, b') ∧ carries b' (t ++ record_text w) ∧ roomy b'.
Proof.
  intros M C R Sz. rewrite length_app, record_length in Sz. unfold MAX_PACKET_SIZE in Sz. unfold append_record. rewrite i32_small by (unfold INT_MIN, INT_MAX; lia).
  rewrite int_arith_ok by (unfold INT_MIN, INT_MAX; lia). cbn [mbind outcome_bind].
  destruct (room_enough (16 + Z.of_nat (length w) + 1) b t M C R ltac:(lia)) as (b1 & E & C1 & R1 & S1). rewrite E. cbn [mbind outcome_bind negb].
  destruct (Z.ltb_spec (Z.of_nat (length w)) 0); [lia |]. rewrite Nat2Z.id, take_ge by done.
  pose proof (dec_int_short (Z.of_nat (length w)) ltac:(unfold MAX_PACKET_SIZE; lia)).
  pose proof (record_length w) as L. unfold record_text in *.
  destruct (store_roomy b1 t (dec_int (Z.of_nat (length w)) ++ chr_nl :: w ++ [chr_nl]) C1 R1) as (b2 & E2 & C2 & R2); [lia |].
  rewrite E2. by exists b2.
Qed.

Lemma append_records_carries l : ∀ b t, memory → carries b t → roomy b → Z.of_nat (length (t ++ records_text l)) <= MAX_PACKET_SIZE →
  ∃ b', append_records l b = Val b' ∧ carries b' (t ++ records_text l) ∧ roomy b'.
Proof.
  induction l as [| w l IH]; intros b t M C R Sz; cbn [append_records].
  - unfold records_text. cbn. rewrite app_nil_r. by exists b.
  - unfold records_text in *. cbn [List.map List.concat] in *. rewrite app_assoc in *.
    destruct (append_record_carries b t w M C R) as (b1 & E & C1 & R1); [rewrite length_app in Sz; lia |].
    rewrite E. cbn [appended mbind outcome_bind]. by apply IH.
Qed.
End Buffers.

(** * Links *)

Section Links.
Context `{AllocLaws} `{AtofLib} `{Patience}.
Implicit Types (l : Link) (n : script).

Lemma link_send_carries l req : memory → redis l = None → carries (output l) [] → roomy (output l) → req ≠ [] → small req →
  ∃ b, link_send req l = Val (with_output b l) ∧ carries b (packet_text req) ∧ roomy b.
Proof.
  intros M R C Rm Ne Sm. unfold link_send. destruct req as [| w req]; [done |]. rewrite R. unfold small, packet_text in *.
  set (ws := w :: req) in *. rewrite length_app in Sm. cbn [length] in Sm.
  destruct (append_records_carries ws (output l) [] M C Rm) as (b1 & E1 & C1 & R1); [cbn [app]; lia |]. rewrite E1. cbn [mbind outcome_bind].
  destruct (append_carries b1 ([] ++ records_text ws) [chr_nl] M C1 R1) as (b2 & E2 & C2 & R2); [unfold MAX_PACKET_SIZE in Sm; cbn [app length]; lia |].
  rewrite E2. cbn [appended mbind outcome_bind]. by exists b2.
Qed.

(** One write: interrupted calls are made again, and what was taken is gone from the buffer. *)
Lemma write_loop_once fuel : ∀ ret l n t, noblock_ l = false → carries (output l) t → t ≠ [] → 0 <= ret → ret + Z.of_nat (length t) <= INT_MAX →
  (length (outs n) < fuel)%nat →
  ∃ e ret' b k n', link_write_loop fuel ret l n = Val (ret', with_output b (with_errno e l), n') ∧ 0 <= ret' ∧
    carries b (drop k t) ∧ b_total b = b_total (output l) ∧ ins n' = ins n ∧ sent n' = sent n ++ take k t ∧
    (length (outs n') < length (outs n) ∨ outs n' = [] ∧ length t <= k)%nat.
Proof.
  induction fuel as [| fuel IH]; intros ret l n t Nb C Ne P0 P1 F; [lia |]. cbn [link_write_loop].
  pose proof (carries_sizes _ _ C) as (Sz & _). destruct (memory_at_carries _ _ C) as [post Em].
  assert (Lt : (0 < length t)%nat) by (destruct t; [done | cbn; lia]).
  destruct (Z.gtb_spec (b_size (output l)) 0); [| lia]. rewrite Em. cbn [mbind outcome_bind]. rewrite Sz, Nat2Z.id, take_app_length.
  cbn [sock_write script_network]. unfold script_write.
  assert (Done : ∀ k n', (k <= length t)%nat → ins n' = ins n → sent n' = sent n ++ take k t →
    (length (outs n') < length (outs n) ∨ outs n' = [] ∧ length t <= k)%nat →
    ∃ e ret' b k' n2, (if Z.of_nat k =? -1 then
        let l := with_errno (net_errno n') l in
        if bool_decide (l_errno l = F_EINTR) then link_write_loop fuel ret l n'
        else if bool_decide (l_errno l = EAGAIN) then Val (ret, l, n')
        else Val (-1, l, n')
      else if Z.of_nat k =? 0 then Val (ret, l, n')
      else
        let l := with_output (decr (Z.of_nat k) (output l)) l in
        ret ← int_arith (ret + Z.of_nat k);
        if noblock_ l then link_write_loop fuel ret l n' else Val (ret, l, n')) = Val (ret', with_output b (with_errno e l), n2) ∧ 0 <= ret' ∧
      carries b (drop k' t) ∧ b_total b = b_total (output l) ∧ ins n2 = ins n ∧ sent n2 = sent n ++ take k' t ∧
      (length (outs n2) < length (outs n) ∨ outs n2 = [] ∧ length t <= k')%nat).
  { intros k n' K I S O. destruct (Z.eqb_spec (Z.of_nat k) (-1)); [lia |]. exists (l_errno l).
    destruct (Z.eqb_spec (Z.of_nat k) 0).
    - exists ret, (output l), k, n'. assert (k = 0%nat) as -> by lia. split; [by destruct l |]. by rewrite drop_0.
    - cbv zeta. rewrite int_arith_ok by (unfold INT_MIN, INT_MAX in *; lia). cbn [mbind outcome_bind]. cbn [noblock_ with_output]. rewrite Nb.
      exists (ret + Z.of_nat k), (decr (Z.of_nat k) (output l)), k, n'. split; [by destruct l |]. split; [lia |].
      split; [by apply decr_carries |]. done. }
  destruct (outs n) as [| [k |] o] eqn:Eo.
  - apply Done; [lia | done | cbn; by rewrite take_ge | right; cbn; split; [done | lia]].
  - apply Done; [lia | done | | left; cbn; lia]. cbn. f_equal. destruct (Nat.min_spec k (length t)) as [[? ->] | [? ->]]; [done |].
    by rewrite !take_ge by lia.
  - rewrite Z.eqb_refl. cbv zeta. cbn [net_errno script_network failure l_errno with_errno]. rewrite bool_decide_true by done.
    destruct (IH ret (with_errno F_EINTR l) (mkScript (ins n) o (sent n) F_EINTR) t Nb C Ne P0 P1) as (e & ret' & b & k & n' & E & R' & Cb & Tb & I & S & O);
      [cbn in *; lia |].
    exists e, ret', b, k, n'. rewrite E. cbn in *. split; [done |]. split; [done |]. split; [done |]. split; [done |]. split; [done |]. split; [done |].
    destruct O; [left; lia | by right].
Qed.

Lemma nice_roomy b t : carries b t → sized (b_total b) → ∃ b', nice b = Val b' ∧ carries b' t ∧ roomy b'.
Proof.
  intros C T. assert (P : 0 < b_total b) by (unfold sized, INIT_BUFFER_SIZE in T; lia).
  destruct (nice_carries b t C P) as (b' & E & C' & T' & D & _). exists b'. split; [done |]. split; [done |]. split; by rewrite T'.
Qed.

Lemma write_once l n t : noblock_ l = false → carries (output l) t → t ≠ [] → sized (b_total (output l)) → Z.of_nat (length t) <= INT_MAX →
  (length (outs n) < patience)%nat →
  ∃ e ret b k n', link_write l n = Val (ret, with_output b (with_errno e l), n') ∧ 0 <= ret ∧
    carries b (drop k t) ∧ roomy b ∧ ins n' = ins n ∧ sent n' = sent n ++ take k t ∧
    (length (outs n') < length (outs n) ∨ outs n' = [] ∧ length t <= k)%nat.
Proof.
  intros Nb C Ne Sz Lt F. destruct (write_loop_once patience 0 l n t Nb C Ne ltac:(done) ltac:(lia) F) as (e & ret & b & k & n' & E & P & Cb & Tb & I & S & O).
  unfold link_write. rewrite E. cbn [mbind outcome_bind]. destruct (Z.eqb_spec ret (-1)); [lia |]. cbn [output with_output].
  destruct (nice_roomy b _ Cb) as (b' & E' & C' & R'); [by rewrite Tb |]. rewrite E'. by exists e, ret, b', k, n'.
Qed.

Lemma flush_sends fuel : ∀ l n t, noblock_ l = false → carries (output l) t → roomy (output l) → Z.of_nat (length t) <= INT_MAX →
  (length (outs n) < patience)%nat → (S (length (outs n)) < fuel)%nat →
  ∃ e b n', flush_loop fuel l n = Val (true, with_output b (with_errno e l), n') ∧ carries b [] ∧ roomy b ∧ ins n' = ins n ∧ sent n' = sent n ++ t.
Proof.
  assert (Done : ∀ f l n, carries (output l) [] → roomy (output l) → ∃ e b n', flush_loop (S f) l n = Val (true, with_output b (with_errno e l), n') ∧
    carries b [] ∧ roomy b ∧ ins n' = ins n ∧ sent n' = sent n ++ []).
  { intros f l n C R. cbn [flush_loop]. pose proof (carries_sizes _ _ C) as (Sz & _). unfold b_empty. rewrite Sz. cbn [length].
    exists (l_errno l), (output l), n. rewrite app_nil_r. split; [by destruct l | done]. }
  induction fuel as [| fuel IH]; intros l n t Nb C R Lt F1 F2; [lia |].
  destruct (decide (t = [])) as [-> | Ne]; [by apply Done |]. cbn [flush_loop]. pose proof (carries_sizes _ _ C) as (Sz & _). unfold b_empty. rewrite Sz.
  destruct (Z.eqb_spec (Z.of_nat (length t)) 0) as [E |]; [destruct t; [done | cbn in E; lia] |].
  destruct (write_once l n t Nb C Ne (proj1 R) Lt F1) as (e & ret & b & k & n' & E & P & Cb & Rb & I & S & O). rewrite E. cbn [mbind outcome_bind].
  destruct (Z.eqb_spec ret (-1)); [lia |]. set (l1 := with_output b (with_errno e l)).
  destruct O as [O | [O Ek]].
  - destruct (IH l1 n' (drop k t)) as (e2 & b2 & n2 & E2 & C2 & R2 & I2 & S2); [done | done | done | rewrite length_drop; lia | lia | lia |].
    exists e2, b2, n2. rewrite E2. split; [done |]. split; [done |]. split; [done |]. split; [congruence |].
    by rewrite S2, S, <- app_assoc, take_drop.
  - rewrite take_ge in S by lia. rewrite drop_ge in Cb by lia. destruct fuel as [| fuel]; [lia |].
    destruct (Done fuel l1 n' Cb Rb) as (e2 & b2 & n2 & E2 & C2 & R2 & I2 & S2).
    exists e2, b2, n2. rewrite E2. split; [done |]. split; [done |]. split; [done |]. split; [congruence |]. by rewrite S2, S, app_nil_r.
Qed.

(** ** Reading *)

Definition nonempty_pieces (n : script) : Prop := Forall (λ p, p ≠ Some []) (ins n).
Lemma data_cons d q : data (Some d :: q) = d ++ data q.
Proof. done. Qed.
Definition to_come (n : script) : nat := length (data (ins n)) + length (ins n).

(** One read: some of what is to come, or the end of it. *)
Lemma read_loop_once fuel : ∀ l n t, noblock_ l = false → carries (input l) t → 0 < space (input l) → space (input l) <= INT_MAX →
  nonempty_pieces n → (length (ins n) < fuel)%nat →
  ∃ e ret b d n', link_read_loop fuel 0 l n = Val (ret, with_input b (with_errno e l), n') ∧ carries b (t ++ d) ∧
    b_total b = b_total (input l) ∧ b_data b = b_data (input l) ∧ sent n' = sent n ∧ data (ins n) = d ++ data (ins n') ∧ nonempty_pieces n' ∧
    (0 < ret ∧ (to_come n' < to_come n)%nat ∧ d ≠ [] ∨ ret = 0 ∧ d = [] ∧ data (ins n') = []).
Proof.
  induction fuel as [| fuel IH]; intros l n t Nb C P Sp Np F; [lia |]. cbn [link_read_loop].
  destruct (Z.gtb_spec (space (input l)) 0); [| lia]. cbn [sock_read script_network]. unfold script_read.
  unfold nonempty_pieces, to_come in *. destruct (ins n) as [| [d |] q] eqn:Ei.
  - exists (l_errno l), 0, (input l), [], n. rewrite Ei, app_nil_r. split; [by destruct l |]. split_and!; try done. by right.
  - apply Forall_cons in Np as [Nd Nq]. assert (exists k, Z.to_nat (space (input l)) = k ∧ Z.of_nat k = space (input l)) as (k & -> & Ek) by (eexists; split; [done | lia]).
    assert (Nt : take k d ≠ []) by (destruct d; [done |]; destruct k; [lia | done]).
    destruct (take k d) as [| x y] eqn:Et; [done |]. rewrite <- Et in *.
    assert (Lk : (length (take k d) <= k)%nat) by (rewrite length_take; lia).
    destruct (store_carries (input l) t (take k d) C) as (b & Es & Cb & Tb & Db); [lia |].
    rewrite Es. cbn [mbind outcome_bind]. rewrite int_arith_ok by (unfold INT_MIN, INT_MAX in *; lia). cbn [mbind outcome_bind noblock_ with_input]. rewrite Nb.
    exists (l_errno l), (0 + Z.of_nat (length (take k d))), b, (take k d).
    assert (L0 : (0 < length (take k d))%nat) by (rewrite Et; cbn; lia).
    assert (Ld : (length (take k d) + length (drop k d) = length d)%nat) by (rewrite <- length_app, take_drop; done).
    eexists. split; [by destruct l |]. split; [done |]. split; [done |]. split; [done |]. split; [done |]. cbn [ins].
    destruct (Nat.ltb_spec k (length d)) as [Lt | Ge].
    + rewrite !data_cons, !length_app. cbn [length]. split; [by rewrite app_assoc, take_drop |]. split.
      * apply Forall_cons. split; [| done]. intros [= Ed]. apply (f_equal length) in Ed. rewrite length_drop in Ed. cbn in Ed. lia.
      * left. split; [lia |]. split; [lia |]. congruence.
    + rewrite (take_ge d k) in * by lia. rewrite data_cons, length_app. cbn [length]. split; [done |]. split; [done |]. left. split; [lia |]. split; [lia |]. congruence.
  - apply Forall_cons in Np as [_ Nq]. cbn [negb Z.eqb Pos.eqb]. cbv zeta. cbn [net_errno script_network failure l_errno with_errno]. rewrite bool_decide_true by done.
    destruct (IH (with_errno F_EINTR l) (mkScript q (outs n) (sent n) F_EINTR) t Nb C P Sp Nq) as (e & ret & b & d & n' & E & Cb & Tb & Db & S & D & Np' & O); [cbn in *; lia |].
    exists e, ret, b, d, n'. rewrite E. cbn in *. split_and!; try done. destruct O as [(? & ? & ?) | ?]; [left; split_and!; [done | lia | done] | by right].
Qed.

(** Room for more behind the data, when there is any. *)
Lemma nice_space b t : carries b t → sized (b_total b) → t = [] ∨ 0 < space b → ∃ b', nice b = Val b' ∧ carries b' t ∧ roomy b' ∧ 0 < space b'.
Proof.
  intros C T Sp. assert (P : 0 < b_total b) by (unfold sized, INIT_BUFFER_SIZE in T; lia).
  destruct (nice_carries b t C P) as (b' & E & C' & T' & D & L). exists b'. split; [done |]. split; [done |].
  split; [split; by rewrite T' |]. destruct Sp as [-> | Sp]; [| lia]. pose proof (carries_sizes _ _ C') as (_ & _ & _ & ->). cbn [length].
  rewrite T'. pose proof (Z.div_mod (b_total b) 2 ltac:(lia)). pose proof (Z.mod_pos_bound (b_total b) 2 ltac:(lia)). lia.
Qed.

Lemma grow_small b t : memory → carries b t → sized (b_total b) → b_total b < 2 ^ 29 →
  ∃ b', grow b = Val (true, b') ∧ carries b' t ∧ sized (b_total b') ∧ b_data b' = b_data b ∧ b_total b < b_total b' ∧ b_total b' ≠ INIT_BUFFER_SIZE.
Proof.
  intros M C Sz L. destruct (grow_carries b t M C Sz L) as (b' & E & C' & D & T). exists b'. rewrite T.
  pose proof (grown_twice (b_total b) Sz ltac:(lia)). unfold sized, INIT_BUFFER_SIZE, cap in *. split_and!; try done; lia.
Qed.

Lemma make_space_carries b t : memory → carries b t → roomy b → Z.of_nat (length t) <= MAX_PACKET_SIZE →
  ∃ b', make_space b = Val (true, b') ∧ carries b' t ∧ roomy b' ∧ 0 < space b'.
Proof.
  intros M C R Lt. unfold make_space. pose proof (carries_sizes _ _ C) as (_ & _ & P & _).
  destruct (Z.eqb_spec (space b) 0) as [Z0 |]; [| exists b; split_and!; try done; lia].
  destruct (nice_roomy b t C (proj1 R)) as (b1 & E & C1 & R1). rewrite E. cbn [mbind outcome_bind].
  pose proof (carries_sizes _ _ C1) as (_ & _ & P1 & S1). destruct (Z.eqb_spec (space b1) 0) as [Z1 |]; [| exists b1; split_and!; try done; lia].
  destruct R1 as [Sz1 D1]. pose proof (Z.div_mod (b_total b1) 2 ltac:(lia)). pose proof (Z.mod_pos_bound (b_total b1) 2 ltac:(lia)).
  unfold MAX_PACKET_SIZE in Lt. destruct (grow_small b1 t M C1 Sz1 ltac:(lia)) as (b2 & E2 & C2 & Sz2 & D2 & T2 & _). exists b2.
  split; [done |]. split; [done |]. pose proof (carries_sizes _ _ C2) as (_ & _ & _ & S2). split; [| lia]. split; [done |].
  rewrite D2. etransitivity; [exact D1 |]. apply Z.div_le_mono; lia.
Qed.

Lemma read_once l n t : memory → noblock_ l = false → carries (input l) t → sized (b_total (input l)) → t = [] ∨ 0 < space (input l) →
  nonempty_pieces n → (to_come n < patience)%nat →
  ∃ e ret b d n', link_read l n = Val (ret, with_input b (with_errno e l), n') ∧ carries b (t ++ d) ∧ roomy b ∧
    sent n' = sent n ∧ data (ins n) = d ++ data (ins n') ∧ nonempty_pieces n' ∧
    (0 < ret ∧ (to_come n' < to_come n)%nat ∧ d ≠ [] ∨ ret = 0 ∧ d = [] ∧ data (ins n') = []).
Proof.
  intros M Nb C Sz Sp Np F. unfold link_read.
  assert (∃ b0, (if b_total (input l) =? INIT_BUFFER_SIZE then appended (grow (input l)) else Val (input l)) = Val b0 ∧
    carries b0 t ∧ sized (b_total b0) ∧ (t = [] ∨ 0 < space b0)) as (b0 & E0 & C0 & Sz0 & Sp0).
  { destruct (Z.eqb_spec (b_total (input l)) INIT_BUFFER_SIZE) as [E |]; [| by exists (input l)].
    destruct (grow_small (input l) t M C Sz) as (b0 & E0 & C0 & Sz0 & D0 & T0 & _); [rewrite E; unfold INIT_BUFFER_SIZE; lia |].
    exists b0. rewrite E0. split; [done |]. split; [done |]. split; [done |]. destruct Sp as [? | Sp]; [by left | right].
    pose proof (carries_sizes _ _ C) as (_ & _ & _ & S1). pose proof (carries_sizes _ _ C0) as (_ & _ & _ & S2). lia. }
  rewrite E0. cbn [mbind outcome_bind]. destruct (nice_space b0 t C0 Sz0 Sp0) as (b1 & E1 & C1 & R1 & P1). rewrite E1. cbn [mbind outcome_bind].
  destruct (read_loop_once patience (with_input b1 l) n t Nb C1 P1) as (e & ret & b & d & n' & E & Cb & Tb & Db & S & D & Np' & O).
  - pose proof (carries_sizes _ _ C1) as (_ & D1 & _ & S1). destruct R1 as [R1 _]. unfold sized, INIT_BUFFER_SIZE, cap, INT_MAX in *. cbn. lia.
  - done.
  - unfold to_come in F. lia.
  - exists e, ret, b, d, n'. rewrite E. split; [done |]. split; [done |]. split; [| done]. cbn in Tb, Db. destruct R1 as [R1 R2]. by split; rewrite Tb; [| rewrite Db].
Qed.

(** ** Packets out of the buffer *)

Lemma recv_nothing l : carries (input l) [] → link_recv l = Val (Some [], with_recv_data [] l).
Proof. intros C. pose proof (carries_sizes _ _ C) as (S & _). unfold link_recv, b_empty. cbn [input with_recv_data]. by rewrite S. Qed.

Lemma recv_begins l t u w ws : carries (input l) t → t ≠ [] → t ++ u = packet_text (w :: ws) →
  link_recv l =
  (r ← recv_loop (S (length t)) t 0 [];
   match r with
   | BadFormat d => Val (None, with_recv_data d (with_recv_data [] l))
   | Packet d parsed => Val (Some d, with_recv_data d (with_input (decr parsed (input l)) (with_recv_data [] l)))
   | NotReady =>
     '(ok, b) ← make_space (input l);
     Val (if (ok : bool) then Some [] else None, with_input b (with_recv_data [] l))
   end).
Proof.
  intros C Ne E. pose proof (carries_sizes _ _ C) as (Sz & _). destruct (memory_at_carries _ _ C) as [post Em].
  unfold link_recv, b_empty. cbn [input with_recv_data]. rewrite Sz. destruct (packet_digit w ws) as (c & r & Ep & Dc).
  rewrite Ep in E. destruct t as [| c' t]; [done |]. injection E as -> _. destruct (digit_facts c Dc) as (_ & _ & _ & _ & N1 & N2 & N3).
  destruct (Z.eqb_spec (Z.of_nat (length (c :: t))) 0) as [L |]; [cbn in L; lia |]. rewrite Em. cbn [mbind outcome_bind app skip_lines].
  destruct (Ascii.eqb_spec c chr_nl); [done |]. destruct (Ascii.eqb_spec c chr_cr); [done |]. rewrite andb_false_r. cbn [first_byte mbind outcome_bind].
  destruct (Ascii.eqb_spec c "*"); [done |]. rewrite Nat2Z.id. change (c :: t ++ post) with ((c :: t) ++ post). by rewrite take_app_length.
Qed.

Lemma recv_more l t u resp : memory → resp ≠ [] → small resp → carries (input l) t → roomy (input l) → t ≠ [] → u ≠ [] → t ++ u = packet_text resp →
  ∃ b, link_recv l = Val (Some [], with_input b (with_recv_data [] l)) ∧ carries b t ∧ roomy b ∧ 0 < space b.
Proof.
  intros M Nr Sm C R Nt Nu E. destruct resp as [| w ws]; [done |]. unfold small in Sm.
  assert (Lt : Z.of_nat (length t) <= MAX_PACKET_SIZE) by (rewrite <- E, length_app in Sm; lia).
  destruct (make_space_carries (input l) t M C R Lt) as (b & Eb & Cb & Rb & Sb). exists b.
  rewrite (recv_begins l t u w ws C Nt E), (recv_part (w :: ws) _ t u) by (done || lia). cbn [mbind outcome_bind]. rewrite Eb. done.
Qed.

Lemma recv_whole l resp : resp ≠ [] → small resp → carries (input l) (packet_text resp) →
  link_recv l = Val (Some resp, with_recv_data resp (with_input (decr (Z.of_nat (length (packet_text resp))) (input l)) (with_recv_data [] l))).
Proof.
  intros Nr Sm C. destruct resp as [| w ws]; [done |]. unfold small in Sm. pose proof (packet_length (w :: ws)) as L.
  rewrite (recv_begins l _ [] w ws C); [| by intros E; rewrite E in L; cbn in L; lia | by rewrite app_nil_r].
  by rewrite recv_packet by lia.
Qed.

(** ** Requests *)

(** Between two requests. *)
Record at_rest l : Prop := {
  rest_block : noblock_ l = false;
  rest_redis : redis l = None;
  rest_input : carries (input l) [];
  rest_input_size : sized (b_total (input l));
  rest_output : carries (output l) [];
  rest_output_size : roomy (output l)
}.

Lemma new_at_rest sock e : memory → at_rest (Link_new sock e).
Proof.
  intros M. destruct (new_carries INIT_BUFFER_SIZE M ltac:(done)) as (C & T & D). constructor; try done; cbn [input output Link_new].
  - rewrite T. by left.
  - split; [rewrite T; by left |]. rewrite T, D. done.
Qed.

(** What has been read, in a loop that waits for a packet. *)
Definition reading l (t : bytes) : Prop :=
  noblock_ l = false ∧ carries (input l) t ∧ sized (b_total (input l)) ∧ (t = [] ∨ roomy (input l)).

Lemma response_arrives resp missing fuel : ∀ l n t, memory → resp ≠ [] → small resp → reading l t → nonempty_pieces n →
  t ++ data (ins n) ++ missing = packet_text resp → (to_come n < fuel)%nat → (to_come n < patience)%nat →
  ∃ l' n', response_loop fuel l n = Val (match missing with [] => Some resp | _ => None end, l', n') ∧
    sent n' = sent n ∧ data (ins n') = [] ∧ noblock_ l' = false ∧ redis l' = redis l ∧ output l' = output l ∧
    (missing = [] → carries (input l') [] ∧ sized (b_total (input l'))).
Proof.
  intros l n t M Nr Sm. revert l n t. induction fuel as [| fuel IH]; intros l n t (Nb & C & Sz & Rm) Np E F1 F2; [lia |]. cbn [response_loop].
  pose proof (packet_length resp) as Lp.
  destruct (decide (t ≠ [] ∧ data (ins n) ++ missing = [])) as [[Nt Em] | Nw].
  - apply app_eq_nil in Em as [Ed ->]. rewrite Ed, !app_nil_r in E. subst t. rewrite (recv_whole l resp) by done. cbn [mbind outcome_bind].
    pose proof (decr_carries _ _ (length (packet_text resp)) C ltac:(done)) as Cd. rewrite drop_all in Cd.
    destruct resp as [| w ws]; [done |]. eexists _, _. split; [done |]. split_and!; done.
  - assert (∃ l1, link_recv l = Val (Some [], l1) ∧ noblock_ l1 = false ∧ redis l1 = redis l ∧ output l1 = output l ∧
      carries (input l1) t ∧ sized (b_total (input l1)) ∧ (t = [] ∨ 0 < space (input l1))) as (l1 & E1 & Nb1 & Rd1 & O1 & C1 & Sz1 & Sp1).
    { destruct (decide (t = [])) as [-> | Nt].
      - rewrite recv_nothing by done. eexists. split; [done |]. split_and!; try done. by left.
      - destruct Rm as [| Rm]; [done |]. destruct (recv_more l t (data (ins n) ++ missing) resp M Nr Sm C Rm Nt) as (b & Er & Cb & Rb & Sb); [naive_solver | done |].
        rewrite Er. eexists. split; [done |]. destruct Rb as [Rb _]. split_and!; try done. by right. }
    rewrite E1. cbn [mbind outcome_bind].
    destruct (read_once l1 n t M Nb1 C1 Sz1 Sp1 Np F2) as (e & ret & b & d & n' & E2 & Cb & Rb & S2 & D2 & Np2 & O). rewrite E2. cbn [mbind outcome_bind].
    destruct O as [(Pr & Lt & Nd) | (-> & -> & D3)].
    + destruct (Z.leb_spec ret 0); [lia |]. rewrite D2 in E.
      destruct (IH (with_input b (with_errno e l1)) n' (t ++ d)) as (l' & n2 & E3 & S3 & D3 & Nb3 & Rd3 & O3 & Rest).
      * destruct Rb as [Rb1 Rb2]. split; [done |]. split; [done |]. split; [done |]. by right.
      * done.
      * by rewrite <- E, <- !app_assoc.
      * lia.
      * lia.
      * exists l', n2. rewrite E3. split; [done |]. cbn in *. split_and!; try done; congruence.
    + rewrite app_nil_r in Cb. rewrite D3 in D2. cbn in D2. rewrite D2 in *. cbn [app] in *.
      eexists _, _. split; [| split; [exact S2 |]; split; [exact D3 |]].
      * destruct missing; [| done]. rewrite app_nil_r in E. subst t. exfalso. apply Nw. split; [| done]. intros Ep. rewrite Ep in Lp. inversion Lp.
      * cbn. split_and!; try done. intros ->. rewrite app_nil_r in E. subst t. exfalso. apply Nw. split; [| done]. intros Ep. rewrite Ep in Lp. inversion Lp.
Qed.
End Links.

(** C13. A request over a link of SSDB is answered: on a network that cuts both directions into pieces in
    any way and interrupts calls, [client_request] sends the framed words of the request and nothing
    else, and returns the words of the response once its last byte has come, with the link as it was
    before the request; when the server closes before that, it returns the null result. *)
Theorem request_answered `{AllocLaws} `{AtofLib} `{Patience} (l : Link) (n : script) (req resp : list bytes) (missing : bytes) :
  memory → at_rest l → req ≠ [] → small req → resp ≠ [] → small resp →
  nonempty_pieces n → data (ins n) ++ missing = packet_text resp →
  (S (length (outs n)) < patience)%nat → (to_come n < patience)%nat →
  ∃ l' n', client_request req l n = Val (match missing with [] => Some resp | _ => None end, l', n') ∧
    sent n' = sent n ++ packet_text req ∧ data (ins n') = [] ∧ (missing = [] → at_rest l').
Proof.
  intros M [Nb Rd Ci Si Co Ro] Nq Sq Nr Sr Np E F1 F2. unfold client_request.
  destruct (link_send_carries l req M Rd Co Ro Nq Sq) as (b & Es & Cb & Rb). rewrite Es. cbn [mbind outcome_bind]. unfold flush.
  destruct (flush_sends patience (with_output b l) n (packet_text req)) as (e & b2 & n2 & Ef & C2 & R2 & I2 & S2);
    [done | done | done | unfold small, MAX_PACKET_SIZE, INT_MAX in *; lia | lia | lia |].
  rewrite Ef. cbn [mbind outcome_bind negb]. unfold response, nonempty_pieces, to_come in *. rewrite <- I2 in Np, E, F2.
  destruct (response_arrives resp missing patience (with_output b2 (with_errno e (with_output b l))) n2 [] M Nr Sr) as
    (l' & n' & Er & S3 & D3 & Nb3 & Rd3 & O3 & Rest); [split_and!; try done; by left | done | done | done | done |].
  exists l', n'. rewrite Er. split; [done |]. split; [by rewrite S3, S2 |]. split; [done |]. intros Em. destruct (Rest Em) as [Ci' Si'].
  constructor; [done | by rewrite Rd3 | done | done | |]; by rewrite O3.
Qed.

(** Interrupted calls, a write that is cut, and a response in three pieces. *)
Definition sample_answer : script :=
  mkScript [Some (lit "2"); None; Some ([chr_nl] ++ lit "ok" ++ [chr_nl] ++ lit "1"); Some ([chr_nl] ++ lit "x" ++ [chr_nl; chr_nl])]
           [Some 3%nat; None; Some 0%nat] [] EAGAIN.

Lemma request_answered_witness :
  ∃ l' n', @client_request _ script_network alloc_ref 40%nat (λ _, 0) [lit "get"; lit "k"] (@Link_new alloc_ref 7 no_errno) sample_answer =
      Val (Some [lit "ok"; lit "x"], l', n') ∧
    sent n' = [] ++ (lit "3" ++ [chr_nl] ++ lit "get" ++ [chr_nl] ++ lit "1" ++ [chr_nl] ++ lit "k" ++ [chr_nl; chr_nl]) ∧
    data (ins n') = [] ∧ ([] = [] :> bytes → at_rest l').
Proof.
  assert (M : @memory alloc_ref) by (intros k Hk; cbn [malloc alloc_ref]; destruct (Z.ltb_spec k 0); [lia | by eexists]).
  apply (@request_answered alloc_ref alloc_ref_laws (λ _, 0) 40%nat (@Link_new alloc_ref 7 no_errno) sample_answer
           [lit "get"; lit "k"] [lit "ok"; lit "x"] []).
  - exact M.
  - by apply (@new_at_rest alloc_ref alloc_ref_laws).
  - done.
  - vm_compute. discriminate.
  - done.
  - vm_compute. discriminate.
  - unfold nonempty_pieces, sample_answer. cbn [ins]. by rewrite !Forall_cons, Forall_nil.
  - vm_compute. reflexivity.
  - unfold patience. simpl. lia.
  - unfold to_come, sample_answer, patience. simpl. lia.
Defined.
