(* ===== verification/Explorer.v ===== *)
(** The tree of the explorer, [gui/explorer/explorer_tree_item.*] and [gui/explorer/explorer_tree_model.*], and
    the slots of its view, [gui/explorer/explorer_tree_view.cpp], that keep it up with the servers. *)
From Stdlib Require Import ZArith Lia.
From stdpp Require Import base list gmap strings.
From S2P Require Import Prelude Common Texts Values Translators ConnSettings ServersManager Events DriverBase Driver Server.
Local Open Scope Z_scope.
#[local] Set Warnings "-register-all".

(** * The libraries

    [TreeItem] and [TreeModel] of the common library: the pointers of the items, the parent of each and its
    children.  The root is the item at place 0. *)
Class TreeLib (T : Type) := {
  new_tree : T;
  parent : T → nat → option nat;
  childs : T → nat → list nat;
  insertItem : nat → nat → T → T;
  removeItem : nat → nat → T → T;
  removeAllItems : nat → T → T;
  findItemRecursive : nat → (nat → bool) → T → option nat;
  eachRecursive : nat → T → list nat
}.
Definition root_ : nat := 0.

(** [QString] and the conversions. *)
Class QtText := {
  QText : Type;
  QText_eq :: EqDecision QText;
  qt_of : bytes → QText;
  qt_to : QText → bytes
}.

(** What the explorer asks of the servers. *)
Class ServerView := {
  CreateDatabaseByInfo : IServerSPtr → option IDataBaseInfoSPtr → option IDataBaseInfoSPtr;
  database_info : IServerSPtr → IDataBaseInfoSPtr → option IDataBaseInfo;
  NsSeparator : IServerSPtr → bytes;
  Translator : IServerSPtr → CommandTranslator
}.

(** The servers themselves. *)
Definition servers_view `{SettingsLib} {X C SI U F : Type} `{!DriverConn C} `{CommonLib}
    (tran : IServerSPtr → CommandTranslator) (S : IServerSPtr → system X C SI U F) : ServerView := {|
  CreateDatabaseByInfo p inf := Server.CreateDatabaseByInfo inf (S p);
  database_info p inf := infos_ (drv_ (S p)) !! inf;
  NsSeparator p := impl_NsSeparator (impl_ (drv_ (S p)));
  Translator := tran
|}.

Section Items.
Context `{QtText}.

(** * Items *)

Inductive eType := eCluster | eSentinel | eServer | eDatabase | eNamespace | eKey.

(** An item of the tree; [TreeItem] is the root.  A cluster and a sentinel have the pointer to them, and a
    database its server and the information it was made of, if one was made. *)
Inductive explorer_item :=
| TreeItem
| ExplorerClusterItem (cluster_ : nat) (c : ICluster)
| ExplorerSentinelItem (sentinel_ : nat) (s : ISentinel)
| ExplorerServerItem (server_ : option IServerSPtr)
| ExplorerDatabaseItem (server : IServerSPtr) (db_ : option IDataBaseInfoSPtr)
| ExplorerNSItem (name_ : QText)
| ExplorerKeyItem (dbv_ : NDbKValue).

Definition type (it : explorer_item) : option eType :=
  match it with
  | TreeItem => None
  | ExplorerClusterItem _ _ => Some eCluster
  | ExplorerSentinelItem _ _ => Some eSentinel
  | ExplorerServerItem _ => Some eServer
  | ExplorerDatabaseItem _ _ => Some eDatabase
  | ExplorerNSItem _ => Some eNamespace
  | ExplorerKeyItem _ => Some eKey
  end.

(** * [ExplorerTreeModel]: the tree, and the items at their places *)
Record ExplorerTreeModel (T : Type) := mkExplorer { tree_ : T; items_ : list explorer_item }.
Arguments mkExplorer {T} _ _.
Arguments tree_ {T} _.
Arguments items_ {T} _.

Section Model.
Context {T : Type} `{!TreeLib T} `{CommonLib} `{!ServerView}.
Local Abbreviation model := (ExplorerTreeModel T).
Implicit Types (st : model) (x d : nat).

Definition new_model : model := mkExplorer new_tree [TreeItem].
Definition item_at st x : option explorer_item := items_ st !! x.
Definition with_tree (t : T) st : model := mkExplorer t (items_ st).
Definition with_item x (it : explorer_item) st : model := mkExplorer (tree_ st) (<[x := it]> (items_ st)).

(** [new] of an item, and [insertItem] below [p]. *)
Definition insert_new (p : nat) (it : explorer_item) st : nat * model :=
  let x := length (items_ st) in (x, mkExplorer (insertItem p x (tree_ st)) (items_ st ++ [it])).
Definition insert_all (p : nat) (l : list explorer_item) st : model :=
  fold_left (λ st it, (insert_new p it st).2) l st.

(** ** Looking items up *)

Definition find_item (p : nat) (f : explorer_item → bool) st : option nat :=
  findItemRecursive p (λ x, match item_at st x with Some it => f it | None => false end) (tree_ st).
Definition find_child (f : explorer_item → bool) st : option nat :=
  List.find (λ x, match item_at st x with Some it => f it | None => false end) (childs (tree_ st) root_).

Definition findClusterItem (cl : nat) : model → option nat :=
  find_child (λ it, match it with ExplorerClusterItem p _ => bool_decide (p = cl) | _ => false end).
Definition findSentinelItem (sentinel : nat) : model → option nat :=
  find_child (λ it, match it with ExplorerSentinelItem p _ => bool_decide (p = sentinel) | _ => false end).
Definition findServerItem (server : option IServerSPtr) : model → option nat :=
  find_item root_ (λ it, match it with ExplorerServerItem s => bool_decide (s = server) | _ => false end).

Definition db_name (s : IServerSPtr) (p : IDataBaseInfoSPtr) : option bytes := name_ <$> database_info s p.

(** A child that is no database fails the [CHECK]; so does a database that was made of nothing, in [db()]. *)
Fixpoint find_database (l : list nat) (db : option IDataBaseInfoSPtr) st : outcome (option nat) :=
  match l with
  | [] => Val None
  | x :: l =>
    match item_at st x with
    | Some (ExplorerDatabaseItem s (Some inf)) =>
      p ← from_option_fault NullPointer db;
      if bool_decide (db_name s inf = db_name s p) then Val (Some x) else find_database l db st
    | _ => Fault CheckFailed
    end
  end.
Definition findDatabaseItem (server : option nat) (db : option IDataBaseInfoSPtr) st : outcome (option nat) :=
  match server with None => Val None | Some x => find_database (childs (tree_ st) x) db st end.

Definition findKeyItem (db_or_ns : nat) (key : NKey) : model → option nat :=
  find_item db_or_ns (λ it, match it with ExplorerKeyItem dbv => bool_decide (key_ (nkv_key dbv) = key_ key) | _ => false end).
Definition is_ns (name : QText) (it : explorer_item) : bool :=
  match it with ExplorerNSItem n => bool_decide (n = name) | _ => false end.
Definition findNSItem (db_or_ns : nat) (name : QText) : model → option nat := find_item db_or_ns (is_ns name).

(** The last child with the name. *)
Definition ns_child (par : nat) (name : QText) st : option nat :=
  last (List.filter (λ x, match item_at st x with Some it => is_ns name it | None => false end) (childs (tree_ st) par)).

Fixpoint ns_loop (n : nat) (i : Z) (kinf : KeyInfo) (par : nat) (founded : option nat) st : outcome (option nat * model) :=
  match n with
  | O => Val (founded, st)
  | S n =>
    nspace ← JoinNamespace kinf i;
    let '(x, st) :=
      match ns_child par (qt_of nspace) st with
      | Some x => (x, st)
      | None => insert_new par (ExplorerNSItem (qt_of nspace)) st
      end in
    ns_loop n (i + 1) kinf x (Some x) st
  end.

Definition findOrCreateNSItem (db_or_ns : nat) (kinf : KeyInfo) st : outcome (option nat * model) :=
  nspace ← Nspace kinf;
  match findNSItem db_or_ns (qt_of nspace) st with
  | Some x => Val (Some x, st)
  | None => ns_loop (Z.to_nat (NspaceSize kinf)) 0 kinf db_or_ns None st
  end.

(** ** Clusters, sentinels and servers

    The items below a cluster and a sentinel, which their constructors make, follow them here. *)

Definition addCluster (cluster : nat) (c : ICluster) st : model :=
  match findClusterItem cluster st with
  | Some _ => st
  | None =>
    let '(x, st) := insert_new root_ (ExplorerClusterItem cluster c) st in
    insert_all x (List.map ExplorerServerItem (nodes_ c)) st
  end.
Definition removeCluster (cluster : nat) st : model :=
  match findClusterItem cluster st with Some x => with_tree (removeItem root_ x (tree_ st)) st | None => st end.

Definition insert_sentinel (p : nat) (s : Sentinel) st : model :=
  let '(x, st) := insert_new p (ExplorerServerItem (sent_server s)) st in
  insert_all x (List.map ExplorerServerItem (sentinels_nodes s)) st.
Definition addSentinel (sentinel : nat) (s : ISentinel) st : model :=
  match findSentinelItem sentinel st with
  | Some _ => st
  | None =>
    let '(x, st) := insert_new root_ (ExplorerSentinelItem sentinel s) st in
    fold_left (λ st s, insert_sentinel x s st) (sentinels_ s) st
  end.
Definition removeSentinel (sentinel : nat) st : model :=
  match findSentinelItem sentinel st with Some x => with_tree (removeItem root_ x (tree_ st)) st | None => st end.

Definition addServer (server : option IServerSPtr) st : model :=
  match server with
  | None => st
  | Some _ =>
    match findServerItem server st with
    | Some _ => st
    | None => (insert_new root_ (ExplorerServerItem server) st).2
    end
  end.
Definition removeServer (server : option IServerSPtr) st : model :=
  match findServerItem server st with Some x => with_tree (removeItem root_ x (tree_ st)) st | None => st end.

(** ** Databases *)

Definition addDatabase (server : IServerSPtr) (db : option IDataBaseInfoSPtr) st : outcome model :=
  par ← from_option_fault CheckFailed (findServerItem (Some server) st);
  dbs ← findDatabaseItem (Some par) db st;
  match dbs with
  | Some _ => Val st
  | None => Val (insert_new par (ExplorerDatabaseItem server (CreateDatabaseByInfo server db)) st).2
  end.
Definition removeDatabase (server : IServerSPtr) (db : option IDataBaseInfoSPtr) st : outcome model :=
  par ← from_option_fault CheckFailed (findServerItem (Some server) st);
  dbs ← findDatabaseItem (Some par) db st;
  match dbs with
  | Some x => Val (with_tree (removeItem par x (tree_ st)) st)
  | None => Val st
  end.

(** The views are told of what is shown anew; the items stay as they are. *)
Definition setDefaultDb (server : IServerSPtr) (db : option IDataBaseInfoSPtr) st : outcome model :=
  par ← from_option_fault CheckFailed (findServerItem (Some server) st);
  _ ← findDatabaseItem (Some par) db st; Val st.

(** [dbs ≫= f] for the item of the database, when the server and the database are there. *)
Definition on_database (server : IServerSPtr) (db : option IDataBaseInfoSPtr) (f : nat → outcome model) st : outcome model :=
  match findServerItem (Some server) st with
  | None => Val st
  | Some par => dbs ← findDatabaseItem (Some par) db st; match dbs with Some x => f x | None => Val st end
  end.

Definition updateDb (server : IServerSPtr) (db : option IDataBaseInfoSPtr) st : outcome model :=
  on_database server db (λ _, Val st) st.

(** ** Keys *)

Definition addKey (server : IServerSPtr) (db : option IDataBaseInfoSPtr) (dbv : NDbKValue) (ns_separator : bytes) st : outcome model :=
  on_database server db (λ dbs,
    let key := nkv_key dbv in
    match findKeyItem dbs key st with
    | Some _ => Val st
    | None =>
      let kinf := NKey_Info key ns_separator in
      '(nitem, st) ← (if HasNamespace kinf then findOrCreateNSItem dbs kinf st else Val (Some dbs, st));
      nitem ← from_option_fault NullPointer nitem;
      Val (insert_new nitem (ExplorerKeyItem dbv) st).2
    end) st.

Definition removeKey (server : IServerSPtr) (db : option IDataBaseInfoSPtr) (key : NKey) st : outcome model :=
  on_database server db (λ dbs,
    match findKeyItem dbs key st with
    | Some x => par ← from_option_fault NullPointer (parent (tree_ st) x); Val (with_tree (removeItem par x (tree_ st)) st)
    | None => Val st
    end) st.

(** [setKey] and [setDbv] of the item of a key. *)
Definition change_key (f : NDbKValue → NDbKValue) x st : model :=
  match item_at st x with Some (ExplorerKeyItem dbv) => with_item x (ExplorerKeyItem (f dbv)) st | _ => st end.

Definition updateKey (server : IServerSPtr) (db : option IDataBaseInfoSPtr) (old_key new_key : NKey) st : outcome model :=
  on_database server db (λ dbs,
    match findKeyItem dbs old_key st with
    | Some x => Val (change_key (λ dbv, NDbKValue_SetKey dbv new_key) x st)
    | None => Val st
    end) st.
Definition updateValue (server : IServerSPtr) (db : option IDataBaseInfoSPtr) (dbv : NDbKValue) st : outcome model :=
  on_database server db (λ dbs,
    match findKeyItem dbs (nkv_key dbv) st with
    | Some x => Val (change_key (λ _, dbv) x st)
    | None => Val st
    end) st.
Definition removeAllKeys (server : IServerSPtr) (db : option IDataBaseInfoSPtr) st : outcome model :=
  on_database server db (λ dbs, Val (with_tree (removeAllItems dbs (tree_ st)) st)) st.

(** ** What the items show *)

Definition key_of (it : option explorer_item) : option NDbKValue := match it with Some (ExplorerKeyItem dbv) => Some dbv | _ => None end.
(** The keys below an item. *)
Definition keys_below (p : nat) st : list NDbKValue := omap (λ x, key_of (item_at st x)) (eachRecursive p (tree_ st)).
Definition loadedKeysCount (db : nat) st : nat := length (keys_below db st).
Definition keyCount (ns : nat) st : nat := length (keys_below ns st).
Definition totalKeysCount (s : IServerSPtr) (db : option IDataBaseInfoSPtr) : outcome Z :=
  p ← from_option_fault NullPointer db; inf ← from_option_fault NullPointer (database_info s p); Val (db_kcount_ inf).
Definition isDefault (s : IServerSPtr) (db : option IDataBaseInfoSPtr) : outcome bool :=
  p ← from_option_fault NullPointer db; inf ← from_option_fault NullPointer (database_info s p); Val (is_default_ inf).

(** ** What the items ask of the servers

    The request that is made for the server of the item's database, or the error that is logged. *)
Definition db_action : Type := Error + request_info.
Definition execute_command (r : Error * option bytes) (repeat msec : Z) (history : bool) : db_action :=
  let '(err, cmd_str) := r in
  if isError err then inl err else inr (ExecuteInfoRequest (default [] cmd_str) repeat msec history false).

Definition renameKey (s : IServerSPtr) (key : NKey) (newName : QText) : db_action :=
  execute_command (RenameKeyCommand (Translator s) key (qt_to newName) (Some [])) 0 0 true.
Definition db_removeKey (s : IServerSPtr) (key : NKey) : db_action :=
  execute_command (DeleteKeyCommand (Translator s) key (Some [])) 0 0 true.
Definition loadValue (s : IServerSPtr) (key : NDbKValue) : db_action :=
  execute_command (LoadKeyCommand (Translator s) (nkv_key key) (NDbKValue_Type key) (Some [])) 0 0 true.
Definition watchKey (s : IServerSPtr) (key : NDbKValue) (interval : Z) : db_action :=
  execute_command (LoadKeyCommand (Translator s) (nkv_key key) (NDbKValue_Type key) (Some [])) (2 ^ 64 - 2) interval false.
Definition createKey (s : IServerSPtr) (key : NDbKValue) : db_action :=
  execute_command (CreateKeyCommand (Translator s) key (Some [])) 0 0 true.
Definition editKey (s : IServerSPtr) (key : NDbKValue) (v : option value) : db_action :=
  execute_command (CreateKeyCommand (Translator s) (NDbKValue_SetValue key v) (Some [])) 0 0 true.
Definition setTTL (s : IServerSPtr) (key : NKey) (ttl : Z) : db_action :=
  execute_command (ChangeKeyTTLCommand (Translator s) key ttl (Some [])) 0 0 true.
(** The keys below a namespace are removed one by one. *)
Definition removeBranch (s : IServerSPtr) (ns : nat) st : list db_action :=
  List.map (λ dbv, db_removeKey s (nkv_key dbv)) (keys_below ns st).
End Model.
End Items.
Arguments mkExplorer {_ T} _ _.
Arguments tree_ {_ T} _.
Arguments items_ {_ T} _.

(** * [ExplorerTreeView]

    The model, and the servers whose signals are connected to the slots: as often as [syncWithServer] has
    connected them, for a signal that is connected twice is delivered twice. *)
Section View.
Context `{QtText} {T : Type} `{!TreeLib T} `{CommonLib} `{!ServerView} {SI : Type}.
Local Abbreviation model := (ExplorerTreeModel T).

Record ExplorerTreeView := mkView { source_model_ : model; synced_ : list IServerSPtr; synced_clear_ : list IServerSPtr }.
Implicit Types v : ExplorerTreeView.
Definition new_view : ExplorerTreeView := mkView new_model [] [].
Definition with_model (m : model) v : ExplorerTreeView := mkView m (synced_ v) (synced_clear_ v).

Definition syncWithServer (server : option IServerSPtr) v : ExplorerTreeView :=
  match server with
  | None => v
  | Some s => mkView (source_model_ v) (s :: synced_ v) (s :: synced_clear_ v)
  end.
(** The signal of a cleared database stays connected. *)
Definition unsyncWithServer (server : option IServerSPtr) v : ExplorerTreeView :=
  match server with
  | None => v
  | Some s => mkView (source_model_ v) (List.filter (λ q, negb (bool_decide (q = s))) (synced_ v)) (synced_clear_ v)
  end.
Definition sentinel_servers (s : ISentinel) : list (option IServerSPtr) :=
  List.concat (List.map (λ s, sent_server s :: sentinels_nodes s) (sentinels_ s)).

Definition view_addServer (server : option IServerSPtr) v : ExplorerTreeView :=
  match server with
  | None => v
  | Some _ => let v := syncWithServer server v in with_model (addServer server (source_model_ v)) v
  end.
Definition view_removeServer (server : option IServerSPtr) v : ExplorerTreeView :=
  match server with
  | None => v
  | Some _ => let v := unsyncWithServer server v in with_model (removeServer server (source_model_ v)) v
  end.
Definition view_addSentinel (sentinel : nat) (s : ISentinel) v : ExplorerTreeView :=
  let v := fold_left (λ v p, syncWithServer p v) (sentinel_servers s) v in with_model (addSentinel sentinel s (source_model_ v)) v.
Definition view_removeSentinel (sentinel : nat) (s : ISentinel) v : ExplorerTreeView :=
  let v := fold_left (λ v p, unsyncWithServer p v) (sentinel_servers s) v in with_model (removeSentinel sentinel (source_model_ v)) v.
Definition view_addCluster (cluster : nat) (c : ICluster) v : ExplorerTreeView :=
  let v := fold_left (λ v p, syncWithServer p v) (nodes_ c) v in with_model (addCluster cluster c (source_model_ v)) v.
Definition view_removeCluster (cluster : nat) (c : ICluster) v : ExplorerTreeView :=
  let v := fold_left (λ v p, unsyncWithServer p v) (nodes_ c) v in with_model (removeCluster cluster (source_model_ v)) v.

(** ** Slots *)

Definition unless_error (er : Error) (f : model → outcome model) (m : model) : outcome model :=
  if isError er then Val m else f m.
Fixpoint in_turn {A : Type} (f : A → model → outcome model) (l : list A) (m : model) : outcome model :=
  match l with [] => Val m | x :: l => m ← f x m; in_turn f l m end.

Definition finishLoadDatabases (serv : IServerSPtr) (er : Error) (databases : list IDataBaseInfoSPtr) : model → outcome model :=
  unless_error er (in_turn (λ db, addDatabase serv (Some db)) databases).
Definition finishSetDefaultDatabase (serv : IServerSPtr) (er : Error) (inf : option IDataBaseInfoSPtr) : model → outcome model :=
  unless_error er (setDefaultDb serv inf).
Definition finishLoadDatabaseContent (serv : IServerSPtr) (er : Error) (inf : option IDataBaseInfoSPtr) (keys : list NDbKValue)
    : model → outcome model :=
  unless_error er (λ m, m ← in_turn (λ key, addKey serv inf key (NsSeparator serv)) keys m; updateDb serv inf m).
Definition finishClearDatabase (serv : IServerSPtr) (er : Error) (inf : option IDataBaseInfoSPtr) : model → outcome model :=
  unless_error er (removeAllKeys serv inf).

Definition view_renameKey (serv : IServerSPtr) (db : option IDataBaseInfoSPtr) (key : NKey) (new_name : bytes) : model → outcome model :=
  updateKey serv db key (NKey_SetKey key new_name).
Definition changeTTLKey (serv : IServerSPtr) (db : option IDataBaseInfoSPtr) (key : NKey) (ttl : Z) : model → outcome model :=
  updateKey serv db key (NKey_SetTTL key ttl).

(** A signal of a server: that of a response that has come, or one of its driver's. *)
Inductive server_event :=
| ResponceCame (res : Responce SI)
| DriverSignal (sig : signal SI).

(** The slot of a signal; signals that only the progress and the outputs are connected to have none here. *)
Definition slot (serv : IServerSPtr) (ev : server_event) : model → outcome model :=
  match ev with
  | ResponceCame res =>
    let er := errorInfo res in
    match ei_info (rs_request res) with
    | LoadDatabasesInfoRequest => finishLoadDatabases serv er (res_databases res)
    | SetDefaultDatabaseRequest inf => finishSetDefaultDatabase serv er inf
    | LoadDatabaseContentRequest inf _ _ _ => finishLoadDatabaseContent serv er inf (res_content res).1
    | ClearDatabaseRequest inf => finishClearDatabase serv er inf
    | _ => Val
    end
  | DriverSignal (KeyRemoved db key) => removeKey serv db key
  | DriverSignal (KeyAdded db key) => addKey serv db key (NsSeparator serv)
  | DriverSignal (KeyRenamed db key new_name) => view_renameKey serv db key new_name
  | DriverSignal (KeyLoaded db key) => updateValue serv db key
  | DriverSignal (KeyTTLChanged db key ttl) => changeTTLKey serv db key ttl
  | DriverSignal _ => Val
  end.
Definition clears (ev : server_event) : bool :=
  match ev with
  | ResponceCame res => match ei_info (rs_request res) with ClearDatabaseRequest _ => true | _ => false end
  | _ => false
  end.

(** The connections of a server to the slot of the signal. *)
Definition connections (serv : IServerSPtr) (ev : server_event) v : list IServerSPtr :=
  List.filter (λ q, bool_decide (q = serv)) (if clears ev then synced_clear_ v else synced_ v).
Definition deliver (serv : IServerSPtr) (ev : server_event) v : outcome ExplorerTreeView :=
  m ← in_turn (λ _, slot serv ev) (connections serv ev v) (source_model_ v); Val (with_model m v).

(** What happens to the view. *)
Inductive view_event :=
| AddServer (s : IServerSPtr)
| RemoveServer (s : IServerSPtr)
| ServerEvent (s : IServerSPtr) (ev : server_event).
Definition view_step (e : view_event) v : outcome ExplorerTreeView :=
  match e with
  | AddServer s => Val (view_addServer (Some s) v)
  | RemoveServer s => Val (view_removeServer (Some s) v)
  | ServerEvent s ev => deliver s ev v
  end.
Fixpoint view_run (l : list view_event) v : outcome ExplorerTreeView :=
  match l with [] => Val v | e :: l => v ← view_step e v; view_run l v end.
End View.
Arguments server_event : clear implicits.
Arguments view_event : clear implicits.
