(* ===== verification/ExplorerProps.v ===== *)
(** What holds of the tree of the explorer: whatever servers are added and removed and whatever they signal, it
    shows every database once, with exactly the keys that the signals leave in it. *)
From Stdlib Require Import ZArith Lia.
From stdpp Require Import base list gmap strings relations.
From S2P Require Import Prelude Common Texts Values Translators ConnSettings ServersManager Events DriverBase Driver Server Explorer.
Local Open Scope Z_scope.
#[local] Set Warnings "-register-all".

(** * Trees *)

(** Below [p], itself included, when [par] gives the parents. *)
Definition under (par : nat → option nat) (p x : nat) : Prop := rtc (λ a b, par a = Some b) x p.

Lemma under_refl par p : under par p p.
Proof. apply rtc_refl. Qed.
Lemma under_parent par p x y : par x = Some y → under par p y → under par p x.
Proof. intros. by eapply rtc_l. Qed.
Lemma under_trans par p q x : under par p q → under par q x → under par p x.
Proof. unfold under. intros A B. by transitivity q. Qed.
Lemma under_inv par p x : under par p x → x = p ∨ ∃ y, par x = Some y ∧ under par p y.
Proof. intros A. destruct (rtc_inv _ _ A) as [| (y & ? & ?)]; [by left | right; by exists y]. Qed.
(** Parents are unique: of two items above a third, one is above the other. *)
Lemma under_chain par p q x : under par p x → under par q x → under par p q ∨ under par q p.
Proof.
  intros A. induction A as [x | x y z E A IH]; intros B; [by right |].
  destruct (under_inv _ _ _ B) as [<- | (y' & E' & B')]; [left; by eapply rtc_l |]. assert (y' = y) as -> by congruence. by apply IH.
Qed.

Lemma under_add par par' x p : (∀ y, par' y = if decide (y = x) then Some p else par y) → par x = None → (∀ y, par y ≠ Some x) → x ≠ p →
  ∀ r y, under par' r y ↔ if decide (y = x) then r = x ∨ under par r p else under par r y.
Proof.
  intros E Nx Nc Np. assert (Old : ∀ r y, y ≠ x → under par' r y → under par r y).
  { intros r y Ny A. induction A as [y | y z r Ey A IH]; [apply under_refl |]. rewrite E in Ey. destruct (decide (y = x)); [done |].
    eapply under_parent; [exact Ey |]. apply IH. intros ->. by apply (Nc y). }
  assert (New : ∀ r y, under par r y → under par' r y).
  { intros r y A. induction A as [y | y z r Ey A IH]; [apply under_refl |]. eapply under_parent; [| exact IH]. rewrite E.
    destruct (decide (y = x)) as [-> |]; [congruence | done]. }
  intros r y. destruct (decide (y = x)) as [-> | Ny]; [| split; [by apply Old | apply New]]. split.
  - intros A. destruct (under_inv _ _ _ A) as [-> | (z & Ez & B)]; [by left | right]. rewrite E, decide_True in Ez by done.
    injection Ez as <-. by apply Old.
  - intros [-> | A]; [apply under_refl |]. eapply under_parent; [by rewrite E, decide_True |]. by apply New.
Qed.

(** [S] is gone: with an item all that is below it, and the rest as it was. *)
Lemma under_cut par par' (S : nat → Prop) : (∀ y, (S y → par' y = None) ∧ (¬ S y → par' y = par y)) → (∀ y z, par y = Some z → S z → S y) →
  ∀ r y, ¬ S y → under par' r y ↔ under par r y.
Proof.
  intros E Cl r y Ny. split; intros A; induction A as [y | y z r Ey A IH]; try apply under_refl.
  - rewrite (proj2 (E y) Ny) in Ey. eapply under_parent; [exact Ey |]. apply IH. intros Sz. apply Ny. by eapply Cl.
  - eapply under_parent; [by rewrite (proj2 (E y) Ny) |]. apply IH. intros Sz. apply Ny. by eapply Cl.
Qed.

Section Laws.
Context {T : Type} `{!TreeLib T}.
Definition below (t : T) : nat → nat → Prop := under (parent t).
Definition in_tree (t : T) (x : nat) : Prop := x = root_ ∨ is_Some (parent t x).
End Laws.

(** What the library's tree promises. *)
Class TreeLaws (T : Type) `{!TreeLib T} := {
  sound : T → Prop;
  new_law : sound new_tree ∧ ∀ x, parent new_tree x = None;
  root_law t : sound t → parent t root_ = None;
  root_above t x : sound t → in_tree t x → below t root_ x;
  childs_law t p x : sound t → x ∈ childs t p ↔ parent t x = Some p;
  insert_law t p x : sound t → in_tree t p → ¬ in_tree t x →
    sound (insertItem p x t) ∧ ∀ y, parent (insertItem p x t) y = if decide (y = x) then Some p else parent t y;
  remove_law t p x : sound t → parent t x = Some p →
    sound (removeItem p x t) ∧
    ∀ y, (below t x y → parent (removeItem p x t) y = None) ∧ (¬ below t x y → parent (removeItem p x t) y = parent t y);
  clear_law t p : sound t → in_tree t p →
    sound (removeAllItems p t) ∧
    ∀ y, (below t p y ∧ y ≠ p → parent (removeAllItems p t) y = None) ∧
         (¬ (below t p y ∧ y ≠ p) → parent (removeAllItems p t) y = parent t y);
  find_law t p f : sound t → in_tree t p →
    match findItemRecursive p f t with Some x => below t p x ∧ f x = true | None => ∀ x, below t p x → f x = false end;
  each_law t p : sound t → in_tree t p → NoDup (eachRecursive p t) ∧ ∀ x, x ∈ eachRecursive p t ↔ below t p x
}.

Section Props.
Context `{QtText} {T : Type} `{!TreeLib T} `{!TreeLaws T} `{CommonLaws} `{!ServerView} {SI : Type}.
Local Abbreviation model := (ExplorerTreeModel T).
Local Abbreviation view := (ExplorerTreeView (T := T)).
Implicit Types (st : model) (x d : nat) (s : IServerSPtr) (n k : bytes) (ks : gmap bytes NDbKValue).

Lemma below_dec t p x : sound t → in_tree t p → {below t p x} + {¬ below t p x}.
Proof.
  intros S P. destruct (each_law t p S P) as [_ E]. destruct (decide (x ∈ eachRecursive p t)) as [I | I]; [left | right]; by rewrite <- E.
Qed.
Lemma parent_law t x p : sound t → parent t x = Some p → in_tree t p.
Proof.
  intros S E. destruct (under_inv _ _ _ (root_above t x S ltac:(right; by eexists))) as [-> | (y & Ey & B)]; [by rewrite root_law in E |].
  assert (y = p) as -> by congruence. destruct (under_inv _ _ _ B) as [-> | (z & Ez & _)]; [by left | right; by eexists].
Qed.
Lemma below_in_tree t p x : sound t → in_tree t p → below t p x → in_tree t x.
Proof. intros S P B. destruct (under_inv _ _ _ B) as [-> | (y & E & _)]; [done | right; by exists y]. Qed.
Lemma above_in_tree t p x : sound t → in_tree t x → below t p x → in_tree t p.
Proof.
  intros S P B. unfold below in B. induction B as [| x y p E B IH]; [done |]. apply IH. by eapply parent_law.
Qed.

(** * What the tree shows *)

Definition at_ st x (it : explorer_item) : Prop := in_tree (tree_ st) x ∧ item_at st x = Some it.
Definition is_server st x s : Prop := at_ st x (ExplorerServerItem (Some s)).
Definition is_db st d s n : Prop := in_tree (tree_ st) d ∧ ∃ i, item_at st d = Some (ExplorerDatabaseItem s (Some i)) ∧ db_name s i = Some n.
Definition has_key st d k (v : NDbKValue) : Prop := ∃ x, below (tree_ st) d x ∧ item_at st x = Some (ExplorerKeyItem v) ∧ KeyString v = k.

(** What may be below what. *)
Definition edge_ok st p (it : explorer_item) : Prop :=
  match it with
  | ExplorerServerItem (Some _) => p = root_
  | ExplorerDatabaseItem s (Some i) => item_at st p = Some (ExplorerServerItem (Some s)) ∧ is_Some (db_name s i)
  | ExplorerNSItem _ | ExplorerKeyItem _ =>
    match item_at st p with Some (ExplorerDatabaseItem _ _ | ExplorerNSItem _) => True | _ => False end
  | _ => False
  end.

Record inv st : Prop := {
  inv_sound : sound (tree_ st);
  inv_items x : in_tree (tree_ st) x → is_Some (item_at st x);
  inv_root : item_at st root_ = Some TreeItem;
  inv_edge x p it : parent (tree_ st) x = Some p → item_at st x = Some it → edge_ok st p it;
  inv_servers x y s : is_server st x s → is_server st y s → x = y;
  inv_dbs x y s n : is_db st x s n → is_db st y s n → x = y;
  inv_keys d s n x y v w : is_db st d s n → below (tree_ st) d x → below (tree_ st) d y →
    item_at st x = Some (ExplorerKeyItem v) → item_at st y = Some (ExplorerKeyItem w) → KeyString v = KeyString w → x = y
}.

Lemma has_key_fun st d s n k v w : inv st → is_db st d s n → has_key st d k v → has_key st d k w → v = w.
Proof.
  intros I D (x & Bx & Ex & Kx) (y & By & Ey & Ky). assert (x = y) as <- by (eapply inv_keys; [done | exact D | ..]; try done; congruence). congruence.
Qed.

(** Two databases have nothing in common. *)
Lemma db_parent st d s n : inv st → is_db st d s n → ∃ p, parent (tree_ st) d = Some p ∧ is_server st p s ∧ parent (tree_ st) p = Some root_.
Proof.
  intros I (In & i & E & Nm). destruct In as [-> | [p Ep]].
  - rewrite inv_root in E by done. done.
  - pose proof (inv_edge st I _ _ _ Ep E) as [Es _]. exists p. split; [done |].
    assert (Ip : in_tree (tree_ st) p) by (eapply parent_law; [by apply inv_sound | exact Ep]). split; [by split |].
    destruct Ip as [-> | [q Eq]]; [rewrite inv_root in Es by done; done |]. pose proof (inv_edge st I _ _ _ Eq Es) as R. cbn in R. by subst q.
Qed.
Lemma db_below st d s n d' s' n' : inv st → is_db st d s n → is_db st d' s' n' → below (tree_ st) d d' → d = d'.
Proof.
  intros I D D' B. destruct (db_parent st d' s' n' I D') as (p & Ep & [_ Es] & Er).
  destruct (under_inv _ _ _ B) as [-> | (y & Ey & B1)]; [done |]. assert (y = p) as -> by congruence.
  destruct D as (_ & i & E & _). exfalso.
  destruct (under_inv _ _ _ B1) as [-> | (z & Ez & B2)]; [congruence |]. assert (z = root_) as -> by congruence.
  destruct (under_inv _ _ _ B2) as [<- | (u & Eu & _)]; [rewrite inv_root in E by done; done |].
  rewrite root_law in Eu by (by apply inv_sound). done.
Qed.
Lemma db_apart st d s n d' s' n' x : inv st → is_db st d s n → is_db st d' s' n' → below (tree_ st) d x → below (tree_ st) d' x → d = d'.
Proof.
  intros I D D' B B'. destruct (under_chain _ _ _ _ B B') as [C | C].
  - by eapply (db_below st d s n d').
  - symmetry. by eapply (db_below st d' s' n' d).
Qed.

(** ** Looking items up *)

Lemma find_item_spec p f st : inv st → in_tree (tree_ st) p →
  match find_item p f st with
  | Some x => below (tree_ st) p x ∧ ∃ it, item_at st x = Some it ∧ f it = true
  | None => ∀ x it, below (tree_ st) p x → item_at st x = Some it → f it = false
  end.
Proof.
  intros I P. unfold find_item. pose proof (find_law (tree_ st) p (λ x, match item_at st x with Some it => f it | None => false end) ltac:(by apply inv_sound) P) as L.
  destruct (findItemRecursive _ _ _) as [x |].
  - destruct L as [B L]. split; [done |]. destruct (item_at st x) as [it |]; [by exists it | done].
  - intros x it B E. specialize (L x B). by rewrite E in L.
Qed.

Lemma findServerItem_spec s st : inv st →
  match findServerItem (Some s) st with Some x => is_server st x s | None => ∀ x, ¬ is_server st x s end.
Proof.
  intros I. unfold findServerItem. match goal with |- context [find_item root_ ?f st] => pose proof (find_item_spec root_ f st I ltac:(by left)) as L end.
  pose proof (inv_sound st I) as Sd. destruct (find_item _ _ _) as [x |].
  - destruct L as (B & it & E & F). split; [by eapply below_in_tree; [| left |]|]. destruct it; try done. by apply bool_decide_eq_true in F as ->.
  - intros x [In E]. specialize (L x _ (root_above _ _ Sd In) E). simpl in L. by apply bool_decide_eq_false in L.
Qed.
Lemma findServerItem_at s st x : inv st → is_server st x s → findServerItem (Some s) st = Some x.
Proof.
  intros I X. pose proof (findServerItem_spec s st I) as L. destruct (findServerItem _ _) as [y |]; [f_equal; by eapply inv_servers | by destruct (L x)].
Qed.

Lemma child_db st x s y : inv st → is_server st x s → parent (tree_ st) y = Some x → ∃ i n, item_at st y = Some (ExplorerDatabaseItem s (Some i)) ∧ db_name s i = Some n.
Proof.
  intros I [_ E] P. destruct (inv_items st I y) as [it Ei]; [right; by eexists |]. pose proof (inv_edge st I _ _ _ P Ei) as O.
  destruct it as [| | | [q |] | q [i |] | |]; cbn in O; try done.
  - subst x. rewrite inv_root in E by done. done.
  - destruct O as [Ex [n En]]. assert (q = s) as -> by congruence. by exists i, n.
  - by rewrite E in O.
  - by rewrite E in O.
Qed.

Lemma findDatabaseItem_spec st x s p n : inv st → is_server st x s → db_name s p = Some n →
  ∃ o, findDatabaseItem (Some x) (Some p) st = Val o ∧ match o with Some d => is_db st d s n | None => ∀ d, ¬ is_db st d s n end.
Proof.
  intros I X Np. pose proof (inv_sound st I) as Sd. unfold findDatabaseItem.
  assert (G : ∀ l, (∀ y, y ∈ l → parent (tree_ st) y = Some x) →
    ∃ o, find_database l (Some p) st = Val o ∧ match o with Some d => is_db st d s n | None => ∀ d, d ∈ l → ¬ is_db st d s n end).
  { induction l as [| y l IH]; intros C; cbn [find_database].
    - exists None. split; [done |]. intros d D. by apply not_elem_of_nil in D.
    - assert (Py : parent (tree_ st) y = Some x) by (apply C; left). destruct (child_db st x s y I X Py) as (i & m & E & M). rewrite E. cbn [from_option_fault mbind outcome_bind].
      case_bool_decide as Eq.
      + exists (Some y). split; [done |]. split; [right; by eexists |]. exists i. by rewrite Eq.
      + destruct IH as (o & -> & O); [intros z Z; apply C; by right |]. exists o. split; [done |]. destruct o as [d |]; [done |].
        intros d D. apply elem_of_cons in D as [-> | D]; [| by apply O]. intros (_ & j & Ej & Nj). rewrite E in Ej. injection Ej as <-. congruence. }
  destruct (G (childs (tree_ st) x)) as (o & -> & O); [intros y; by apply childs_law |]. exists o. split; [done |].
  destruct o as [d |]; [done |]. intros d D. destruct (db_parent st d s n I D) as (q & Eq & Q & _). apply (O d); [| done].
  apply childs_law; [done |]. assert (q = x) as -> by (by eapply inv_servers). done.
Qed.

Lemma findKeyItem_spec st d key : inv st → in_tree (tree_ st) d →
  match findKeyItem d key st with
  | Some x => below (tree_ st) d x ∧ ∃ v, item_at st x = Some (ExplorerKeyItem v) ∧ KeyString v = key_ key
  | None => ∀ v, ¬ has_key st d (key_ key) v
  end.
Proof.
  intros I P. unfold findKeyItem. match goal with |- context [find_item d ?f st] => pose proof (find_item_spec d f st I P) as L end.
  destruct (find_item _ _ _) as [x |].
  - destruct L as (B & it & E & F). split; [done |]. destruct it; try done. apply bool_decide_eq_true in F. by eexists.
  - intros v (x & B & E & K). specialize (L x _ B E). simpl in L. apply bool_decide_eq_false in L. by apply L.
Qed.

(** * A new item *)

Section Insert.
Context (st : model) (p : nat) (it : explorer_item) (I : inv st) (P : in_tree (tree_ st) p).
Local Abbreviation x := (length (items_ st)).
Local Abbreviation st' := (insert_new p it st).2.

Lemma fresh_item : ¬ in_tree (tree_ st) x.
Proof. intros In. destruct (inv_items st I _ In) as [y E]. apply lookup_lt_Some in E. lia. Qed.
Lemma insert_item y : item_at st' y = if decide (y = x) then Some it else item_at st y.
Proof.
  unfold item_at. cbn. destruct (decide (y = x)) as [-> | N]; [by apply list_lookup_middle |].
  destruct (decide (y < x)%nat); [by apply lookup_app_l |]. rewrite !lookup_ge_None_2; [done | lia |]. rewrite length_app. cbn. lia.
Qed.
Lemma insert_old y : in_tree (tree_ st) y → item_at st' y = item_at st y.
Proof. intros In. rewrite insert_item. destruct (decide (y = x)) as [-> |]; [by destruct fresh_item | done]. Qed.
Lemma insert_tree : sound (tree_ st') ∧ ∀ y, parent (tree_ st') y = if decide (y = x) then Some p else parent (tree_ st) y.
Proof. apply (insert_law _ p x (inv_sound st I) P fresh_item). Qed.
Lemma insert_in_tree y : in_tree (tree_ st') y ↔ y = x ∨ in_tree (tree_ st) y.
Proof.
  unfold in_tree. rewrite (proj2 insert_tree). destruct (decide (y = x)) as [-> |].
  - split; [by left | intros _; right; by eexists].
  - split; [by right | by intros [|]].
Qed.
Lemma insert_below r y : below (tree_ st') r y ↔ if decide (y = x) then r = x ∨ below (tree_ st) r p else below (tree_ st) r y.
Proof.
  apply (under_add (parent (tree_ st))); [apply insert_tree | | |].
  - destruct (parent (tree_ st) x) eqn:E; [| done]. destruct fresh_item. right. by eexists.
  - intros z E. apply fresh_item. eapply parent_law; [by apply inv_sound | exact E].
  - intros E. apply fresh_item. by rewrite E.
Qed.
Lemma insert_below_old r y : in_tree (tree_ st) y → below (tree_ st') r y ↔ below (tree_ st) r y.
Proof. intros In. rewrite insert_below. destruct (decide (y = x)) as [-> |]; [by destruct fresh_item | done]. Qed.

Lemma insert_server y s : is_server st' y s ↔ is_server st y s ∨ y = x ∧ it = ExplorerServerItem (Some s).
Proof.
  unfold is_server, at_. rewrite insert_in_tree, insert_item. pose proof fresh_item as F. destruct (decide (y = x)) as [-> | Ny].
  - split; [intros [_ [= E]]; by right | intros [[In _] | [_ ->]]; [done | split; [by left | done]]].
  - split; [intros [[| In] E]; [done | left; by split] | intros [[In E] | [? _]]; [split; [by right | done] | done]].
Qed.
Lemma insert_db d s n : is_db st' d s n ↔ is_db st d s n ∨ d = x ∧ ∃ i, it = ExplorerDatabaseItem s (Some i) ∧ db_name s i = Some n.
Proof.
  unfold is_db. rewrite insert_in_tree, insert_item. pose proof fresh_item as F. destruct (decide (d = x)) as [-> | Nd].
  - split; [intros [_ (i & [= E] & M)]; right; split; [done | by exists i] |].
    intros [[In _] | [_ (i & -> & M)]]; [done | split; [by left | by exists i]].
  - split; [intros [[| In] E]; [done | left; by split] | intros [[In E] | [? _]]; [split; [by right | done] | done]].
Qed.
Lemma insert_has_key d k v : in_tree (tree_ st) d →
  has_key st' d k v ↔ has_key st d k v ∨ it = ExplorerKeyItem v ∧ KeyString v = k ∧ below (tree_ st) d p.
Proof.
  intros D. pose proof (inv_sound st I) as Sd. pose proof fresh_item as F. split.
  - intros (y & B & E & K). rewrite insert_below, insert_item in *. destruct (decide (y = x)) as [-> |].
    + right. destruct B as [-> | B]; [done |]. split; [congruence | done].
    + left. by exists y.
  - intros [(y & B & E & K) | (E & K & B)].
    + assert (In : in_tree (tree_ st) y) by (by eapply below_in_tree). exists y. by rewrite insert_below_old, insert_old.
    + exists x. rewrite insert_below, insert_item, !decide_True by done. split; [by right | by rewrite E].
Qed.
Lemma insert_no_key k v : (∀ w, it ≠ ExplorerKeyItem w) → ¬ has_key st' x k v.
Proof.
  intros N (y & B & E & _). rewrite insert_below, insert_item in *. destruct (decide (y = x)) as [-> | Ny]; [injection E as E; by destruct (N v) |].
  destruct (under_inv _ _ _ B) as [-> | (z & Ez & B')]; [done |]. destruct fresh_item.
  eapply above_in_tree; [by apply inv_sound | | exact B]. right. by eexists.
Qed.

Lemma insert_edge q it' : in_tree (tree_ st) q → edge_ok st q it' → edge_ok st' q it'.
Proof.
  intros Q O. pose proof (insert_old q Q) as E. destruct it' as [| | | [] | ? [] | |]; cbn [edge_ok] in *; try done; by rewrite E.
Qed.

Lemma insert_inv : edge_ok st p it →
  (∀ s y, it = ExplorerServerItem (Some s) → ¬ is_server st y s) →
  (∀ s i n d, it = ExplorerDatabaseItem s (Some i) → db_name s i = Some n → ¬ is_db st d s n) →
  (∀ v d s n w, it = ExplorerKeyItem v → is_db st d s n → below (tree_ st) d p → ¬ has_key st d (KeyString v) w) →
  inv st'.
Proof.
  intros O Us Ud Uk. pose proof (inv_sound st I) as Sd. pose proof fresh_item as F. constructor.
  - apply insert_tree.
  - intros y [-> | In]%insert_in_tree; rewrite insert_item; destruct (decide _); try done; by apply inv_items.
  - rewrite insert_old by (by left). by apply inv_root.
  - intros y q it' E Ei. rewrite (proj2 insert_tree), insert_item in *. destruct (decide (y = x)).
    + injection E as <-. injection Ei as <-. by apply insert_edge.
    + apply insert_edge; [by eapply parent_law | by eapply inv_edge].
  - intros y z s [Y | [-> Ey]]%insert_server [Z | [-> Ez]]%insert_server; try done; try (by eapply inv_servers); by destruct (Us s _ ltac:(done) ltac:(done)).
  - intros y z s n [Y | [-> (i & Ey & Ny)]]%insert_db [Z | [-> (j & Ez & Nz)]]%insert_db; try done; try (by eapply inv_dbs);
      [by destruct (Ud s j n _ ltac:(done) Nz Y) | by destruct (Ud s i n _ ltac:(done) Ny Z)].
  - intros d s n y z v w D By Bz Ey Ez K. apply insert_db in D as [D | (-> & i & Ei & _)].
    + destruct D as [Dt D]. rewrite insert_below, insert_item in *.
      destruct (decide (y = x)) as [-> | Ny], (decide (z = x)) as [-> | Nz]; try done.
      * exfalso. destruct By as [-> | By]; [done |]. injection Ey as Ey. eapply (Uk v d s n w); [done | by split | done |]. exists z. by rewrite K.
      * exfalso. destruct Bz as [-> | Bz]; [done |]. injection Ez as Ez. eapply (Uk w d s n v); [done | by split | done |]. by exists y.
      * by eapply (inv_keys st I d s n y z v w).
    + destruct (insert_no_key (KeyString v) v); [by subst it |]. by exists y.
Qed.
End Insert.

(** * Items that go *)

(** No item is below its own child. *)
Lemma no_cycle t x y : sound t → in_tree t x → parent t x = Some y → ¬ below t x y.
Proof.
  intros S In. pose proof (root_above t x S In) as R. clear In. unfold below in R. revert y.
  remember root_ as r eqn:Er. induction R as [x | x z r E R IH]; intros y Ey B; subst.
  - rewrite root_law in Ey by done. done.
  - assert (z = y) as -> by congruence. destruct (under_inv _ _ _ B) as [-> | (w & Ew & B')].
    + by apply (IH eq_refl x E), under_refl.
    + apply (IH eq_refl w Ew). eapply under_trans; [| exact B']. eapply under_parent; [exact E | apply under_refl].
Qed.

Section Cut.
Context (st : model) (t' : T) (S : nat → Prop) (I : inv st) (Sd : sound t').
Context (Par : ∀ y, (S y → parent t' y = None) ∧ (¬ S y → parent t' y = parent (tree_ st) y)).
Context (Cl : ∀ y z, parent (tree_ st) y = Some z → S z → S y) (Sroot : ¬ S root_) (Sdec : ∀ y, in_tree (tree_ st) y → {S y} + {¬ S y}).
Local Abbreviation st' := (with_tree t' st).

Lemma cut_below r y : ¬ S y → below (tree_ st') r y ↔ below (tree_ st) r y.
Proof. by apply under_cut. Qed.
Lemma cut_in_tree y : in_tree (tree_ st') y ↔ in_tree (tree_ st) y ∧ ¬ S y.
Proof.
  unfold in_tree. cbn. split.
  - intros [-> | [z E]]; [by split; [left |] |]. destruct (Par y) as [P1 P2].
    assert (NS : ¬ S y) by (intros Sy; rewrite (P1 Sy) in E; done). split; [| done]. right. rewrite <- (P2 NS). by eexists.
  - intros [[-> | [z E]] NS]; [by left | right]. rewrite (proj2 (Par y) NS). by eexists.
Qed.
Lemma cut_server y s : is_server st' y s ↔ is_server st y s ∧ ¬ S y.
Proof. unfold is_server, at_. rewrite cut_in_tree. tauto. Qed.
Lemma cut_db d s n : is_db st' d s n ↔ is_db st d s n ∧ ¬ S d.
Proof. unfold is_db. rewrite cut_in_tree. tauto. Qed.
(** A key that is left was not among those that went. *)
Lemma cut_has_key d k v : in_tree (tree_ st) d → ¬ S d →
  has_key st' d k v ↔ ∃ x, below (tree_ st) d x ∧ ¬ S x ∧ item_at st x = Some (ExplorerKeyItem v) ∧ KeyString v = k.
Proof.
  intros D NS. split; intros (x & B).
  - destruct B as (B & E & K). assert (NSx : ¬ S x).
    { apply (cut_in_tree x). eapply below_in_tree; [exact Sd | by apply cut_in_tree | exact B]. }
    exists x. by rewrite <- cut_below.
  - destruct B as (B & NSx & E & K). exists x. by rewrite cut_below.
Qed.
Lemma cut_inv : inv st'.
Proof.
  constructor.
  - done.
  - intros y [In _]%cut_in_tree. by apply (inv_items st I).
  - by apply (inv_root st I).
  - intros y q it E Ei. assert (NS : ¬ S y) by (intros Sy; cbn in E; rewrite (proj1 (Par y) Sy) in E; done).
    cbn in E. rewrite (proj2 (Par y) NS) in E. exact (inv_edge st I _ _ _ E Ei).
  - intros y z s [Y _]%cut_server [Z _]%cut_server. by eapply inv_servers.
  - intros y z s n [Y _]%cut_db [Z _]%cut_db. by eapply inv_dbs.
  - intros d s n y z v w D By Bz Ey Ez K. assert (Dt : in_tree (tree_ st') d) by apply D. apply cut_db in D as [D _].
    assert (In : ∀ q, below (tree_ st') d q → ¬ S q) by (intros q Q; eapply cut_in_tree, below_in_tree; [exact Sd | exact Dt | exact Q]).
    rewrite cut_below in By by (by apply In). rewrite cut_below in Bz by (by apply In). by eapply (inv_keys st I d s n y z v w).
Qed.
End Cut.

(** * A key that changes *)

Section Change.
Context (st : model) (x : nat) (v v' : NDbKValue) (I : inv st) (E : item_at st x = Some (ExplorerKeyItem v)).
Local Abbreviation st' := (with_item x (ExplorerKeyItem v') st).

Lemma change_item y : item_at st' y = if decide (y = x) then Some (ExplorerKeyItem v') else item_at st y.
Proof.
  unfold item_at. cbn. destruct (decide (y = x)) as [-> | N]; [| by apply list_lookup_insert_ne].
  apply list_lookup_insert_eq. by eapply lookup_lt_Some.
Qed.
Lemma change_server y s : is_server st' y s ↔ is_server st y s.
Proof. unfold is_server, at_. rewrite change_item. destruct (decide (y = x)) as [-> |]; [| done]. rewrite E. by split; intros []. Qed.
Lemma change_db d s n : is_db st' d s n ↔ is_db st d s n.
Proof.
  unfold is_db. rewrite change_item. destruct (decide (d = x)) as [-> |]; [| done]. rewrite E. by split; intros [_ (i & ? & _)].
Qed.
Lemma change_has_key d s n k w : is_db st d s n → below (tree_ st) d x →
  has_key st' d k w ↔ w = v' ∧ KeyString v' = k ∨ has_key st d k w ∧ k ≠ KeyString v.
Proof.
  intros D Bx. split.
  - intros (y & B & Ey & K). cbn in B. rewrite change_item in Ey. destruct (decide (y = x)) as [-> | N]; [left; by injection Ey as -> |].
    right. split; [by exists y |]. intros ->. apply N. by eapply (inv_keys st I d s n).
  - intros [[-> K] | [(y & B & Ey & K) N]].
    + exists x. cbn. by rewrite change_item, decide_True.
    + exists y. cbn. rewrite change_item, decide_False by (intros ->; rewrite E in Ey; injection Ey as ->; done). done.
Qed.
Lemma change_has_key_ne d k w : ¬ below (tree_ st) d x → has_key st' d k w ↔ has_key st d k w.
Proof.
  intros N. split; intros (y & B & Ey & K); cbn in B; exists y; rewrite change_item in *; by rewrite decide_False in * by (intros ->; done).
Qed.
Lemma change_inv : (∀ d s n w, is_db st d s n → below (tree_ st) d x → has_key st d (KeyString v') w → KeyString v' = KeyString v) → inv st'.
Proof.
  intros U. constructor; cbn [tree_ with_item].
  - by apply inv_sound.
  - intros y In. rewrite change_item. destruct (decide _); [done | by apply inv_items].
  - rewrite change_item. destruct (decide _) as [<- |]; [rewrite inv_root in E by done; done | by apply inv_root].
  - intros y q it Eq Ei. assert (Q : ∀ it', edge_ok st q it' → edge_ok st' q it').
    { assert (A : ∀ it', item_at st q = Some it' → (∀ w, it' ≠ ExplorerKeyItem w) → item_at st' q = Some it').
      { intros it' Eit N. rewrite change_item. destruct (decide (q = x)) as [-> |]; [rewrite E in Eit; injection Eit as <-; by destruct (N v) | done]. }
      intros it' O. destruct it' as [| | | [] | ? [] | |]; cbn [edge_ok] in *; try done.
      - destruct O as [O ?]. split; [by apply A | done].
      - destruct (item_at st q) as [[] |] eqn:Et; try done; by rewrite (A _ eq_refl).
      - destruct (item_at st q) as [[] |] eqn:Et; try done; by rewrite (A _ eq_refl). }
    rewrite change_item in Ei. destruct (decide (y = x)) as [-> |].
    + injection Ei as <-. apply Q. exact (inv_edge st I _ _ _ Eq E).
    + apply Q. by eapply inv_edge.
  - intros y z s Y%change_server Z%change_server. by eapply inv_servers.
  - intros y z s n Y%change_db Z%change_db. by eapply inv_dbs.
  - intros d s n y z a b D%change_db By Bz Ey Ez K. rewrite change_item in *.
    destruct (decide (y = x)) as [-> | Ny], (decide (z = x)) as [-> | Nz]; try done.
    + injection Ey as <-. assert (KeyString v' = KeyString v) as Kv by (apply (U d s n b); [done | done |]; exists z; by rewrite K).
      eapply (inv_keys st I d s n x z v b); try done; congruence.
    + injection Ez as <-. assert (KeyString v' = KeyString v) as Kv by (apply (U d s n a); [done | done |]; exists y; by rewrite K).
      eapply (inv_keys st I d s n y x a v); try done; congruence.
    + by eapply (inv_keys st I d s n y z a b).
Qed.
End Change.

(** * Places for keys *)

(** More namespaces, and nothing else. *)
Record grown st st' : Prop := {
  grown_inv : inv st';
  grown_server y s : is_server st' y s ↔ is_server st y s;
  grown_db d s n : is_db st' d s n ↔ is_db st d s n;
  grown_key d s n k v : is_db st d s n → has_key st' d k v ↔ has_key st d k v
}.
Lemma grown_refl st : inv st → grown st st.
Proof. by constructor. Qed.
Lemma grown_trans st1 st2 st3 : grown st1 st2 → grown st2 st3 → grown st1 st3.
Proof.
  intros [I1 S1 D1 K1] [I2 S2 D2 K2]. constructor; [done | | |]; intros.
  - by rewrite S2.
  - by rewrite D2.
  - rewrite (K2 d s n) by (by apply D1). by apply (K1 d s n).
Qed.

(** An item that may hold keys of the database [d]. *)
Definition holder st d x : Prop :=
  in_tree (tree_ st) x ∧ below (tree_ st) d x ∧ match item_at st x with Some (ExplorerDatabaseItem _ _ | ExplorerNSItem _) => True | _ => False end.

Lemma holder_db st d s n : is_db st d s n → holder st d d.
Proof. intros (In & i & E & _). split; [done |]. split; [apply under_refl |]. by rewrite E. Qed.

Lemma insert_ns st d p nm : inv st → holder st d p →
  grown st (insert_new p (ExplorerNSItem nm) st).2 ∧ holder (insert_new p (ExplorerNSItem nm) st).2 d (length (items_ st)).
Proof.
  intros I (P & B & O). split; [constructor |].
  - by apply insert_inv.
  - intros y s. rewrite insert_server by done. split; [by intros [| [_ ?]] | by left].
  - intros y s n. rewrite insert_db by done. split; [by intros [| (_ & i & ? & _)] | by left].
  - intros y s n k v D. rewrite insert_has_key by (done || apply D). split; [by intros [| [? _]] | by left].
  - split; [apply insert_in_tree; [done | done | by left] |]. rewrite insert_below, insert_item, !decide_True by done. split; [by right | done].
Qed.

Lemma ns_child_spec st d p nm x : inv st → holder st d p → ns_child p nm st = Some x → holder st d x.
Proof.
  intros I (P & B & _) E. unfold ns_child in E. apply last_Some_elem_of, list_elem_of_In, List.filter_In in E as [C F].
  apply list_elem_of_In, childs_law in C; [| by apply inv_sound]. split; [right; by eexists |]. split; [by eapply under_parent |].
  destruct (item_at st x) as [[] |]; done.
Qed.

Lemma ns_loop_spec kinf d j : ∀ i par founded st, inv st → holder st d par → KeyInfo_fits kinf → 0 <= i →
  ∃ o st', ns_loop j i kinf par founded st = Val (o, st') ∧ grown st st' ∧ (j = 0%nat ∧ o = founded ∧ st' = st ∨ ∃ x, o = Some x ∧ holder st' d x).
Proof.
  induction j as [| j IH]; intros i par founded st I O F Pi; cbn [ns_loop].
  - exists founded, st. split; [done |]. split; [by apply grown_refl | by left].
  - rewrite JoinNamespace_spec by done. cbn [mbind outcome_bind]. set (nm := qt_of _).
    assert (∃ x st1, (match ns_child par nm st with Some x => (x, st) | None => insert_new par (ExplorerNSItem nm) st end) = (x, st1) ∧
      grown st st1 ∧ holder st1 d x) as (x & st1 & -> & G & H1').
    { destruct (ns_child par nm st) as [x |] eqn:E.
      - exists x, st. split; [done |]. split; [by apply grown_refl | by eapply ns_child_spec].
      - eexists _, _. split; [by rewrite (surjective_pairing (insert_new _ _ _)) |]. by apply insert_ns. }
    destruct (IH (i + 1) x (Some x) st1 (grown_inv _ _ G) H1' F ltac:(lia)) as (o & st2 & -> & G2 & C). exists o, st2. split; [done |].
    split; [by eapply grown_trans |]. right. destruct C as [(_ & -> & ->) | C]; [by exists x | done].
Qed.

Lemma findOrCreateNSItem_spec kinf d st : inv st → holder st d d → KeyInfo_fits kinf → HasNamespace kinf = true →
  ∃ x st', findOrCreateNSItem d kinf st = Val (Some x, st') ∧ grown st st' ∧ holder st' d x.
Proof.
  intros I O F Ns. unfold findOrCreateNSItem. assert (Sz : 0 < KeyInfo_size kinf - 1).
  { unfold HasNamespace in Ns. rewrite NspaceSize_eq in Ns by done. apply Z.gtb_lt in Ns. lia. }
  unfold Nspace. rewrite u64_small by (unfold KeyInfo_fits in F; lia). rewrite JoinNamespace_spec by (done || lia). cbn [mbind outcome_bind].
  set (nm := qt_of _). unfold findNSItem. pose proof (find_item_spec d (is_ns nm) st I (proj1 O)) as L. destruct (find_item _ _ _) as [x |].
  - exists x, st. split; [done |]. split; [by apply grown_refl |]. destruct L as (B & it & E & N). split; [by eapply below_in_tree; [apply inv_sound | apply O | exact B] |].
    split; [done |]. rewrite E. by destruct it.
  - destruct (ns_loop_spec kinf d (Z.to_nat (NspaceSize kinf)) 0 d None st I O F ltac:(done)) as (o & st' & -> & G & C).
    rewrite NspaceSize_eq in * by done. destruct C as [(Z0 & _) | (x & -> & Ho)]; [lia |]. by exists x, st'.
Qed.

(** * The shelves

    What the tree should show: the databases of each server by their names, and the keys of each. *)

Abbreviation shelf := (gmap IServerSPtr (gmap bytes (gmap bytes NDbKValue))).
Definition keys_on (m : shelf) s n : option (gmap bytes NDbKValue) := m !! s ≫= λ dbs, dbs !! n.
Definition shown_as st s n (o : option (gmap bytes NDbKValue)) : Prop :=
  match o with
  | None => ∀ d, ¬ is_db st d s n
  | Some ks => ∃ d, is_db st d s n ∧ ∀ k v, ks !! k = Some v ↔ has_key st d k v
  end.
Record shows st (m : shelf) : Prop := {
  shows_inv : inv st;
  shows_servers s : is_Some (m !! s) ↔ ∃ x, is_server st x s;
  shows_keys s n : shown_as st s n (keys_on m s n)
}.

Definition in_db s (p : option IDataBaseInfoSPtr) (f : gmap bytes NDbKValue → gmap bytes NDbKValue) (m : shelf) : shelf :=
  match p ≫= db_name s with Some n => alter (alter f n) s m | None => m end.
Lemma keys_on_in_db s p f n m s' n' : db_name s p = Some n →
  keys_on (in_db s (Some p) f m) s' n' = if decide (s' = s ∧ n' = n) then f <$> keys_on m s n else keys_on m s' n'.
Proof.
  intros N. unfold in_db, keys_on. cbn. rewrite N. destruct (decide (s' = s)) as [-> | Ns].
  - rewrite lookup_alter_eq. destruct (m !! s) as [dbs |]; cbn; [| by destruct (decide _)]. destruct (decide (n' = n)) as [-> | Nn].
    + by rewrite lookup_alter_eq, decide_True.
    + rewrite lookup_alter_ne, decide_False; [done | by intros [? ?] | done].
  - rewrite lookup_alter_ne, decide_False; [done | by intros [? ?] | done].
Qed.
Lemma in_db_servers s p f m s' : is_Some (in_db s p f m !! s') ↔ is_Some (m !! s').
Proof.
  unfold in_db. destruct (p ≫= db_name s) as [n |]; [| done]. destruct (decide (s' = s)) as [-> | Ns].
  - rewrite lookup_alter_eq. by rewrite fmap_is_Some.
  - by rewrite lookup_alter_ne.
Qed.

(** The keys of one database change, and nothing else. *)
Record changed st st' d (f : gmap bytes NDbKValue → gmap bytes NDbKValue) : Prop := {
  changed_inv : inv st';
  changed_server y s : is_server st' y s ↔ is_server st y s;
  changed_db e s n : is_db st' e s n ↔ is_db st e s n;
  changed_here ks : (∀ k v, ks !! k = Some v ↔ has_key st d k v) → ∀ k v, f ks !! k = Some v ↔ has_key st' d k v;
  changed_other e s n k v : is_db st e s n → e ≠ d → has_key st' e k v ↔ has_key st e k v
}.

Lemma on_database_shows st m s p n f g : shows st m → db_name s p = Some n →
  (∀ d, is_db st d s n → ∃ st', g d = Val st' ∧ changed st st' d f) →
  ∃ st', on_database s (Some p) g st = Val st' ∧ shows st' (in_db s (Some p) f m).
Proof.
  intros [I Sv Sk] N G. unfold on_database.
  assert (Skip : (∀ d, ¬ is_db st d s n) → shows st (in_db s (Some p) f m)).
  { intros Nd. constructor; [done | |].
    - intros q. by rewrite in_db_servers.
    - intros q r. rewrite (keys_on_in_db _ _ _ n) by done. destruct (decide _) as [[-> ->] |]; [| apply Sk].
      specialize (Sk s n). destruct (keys_on m s n); [| done]. destruct Sk as (d & D & _). by destruct (Nd d). }
  pose proof (findServerItem_spec s st I) as F. destruct (findServerItem (Some s) st) as [x |].
  - destruct (findDatabaseItem_spec st x s p n I F N) as (o & -> & O). cbn [mbind outcome_bind]. destruct o as [d |]; [| by exists st; split; [| apply Skip]].
    destruct (G d O) as (st' & -> & C). exists st'. split; [done |]. constructor; [by eapply changed_inv | |].
    + intros q. rewrite in_db_servers, Sv. split; intros [y Y]; exists y; by apply (changed_server _ _ _ _ C).
    + intros q r. rewrite (keys_on_in_db _ _ _ n) by done. destruct (decide _) as [[-> ->] | Nq].
      * specialize (Sk s n). destruct (keys_on m s n) as [ks |]; [| by destruct (Sk d)]. destruct Sk as (e & E & K).
        assert (e = d) as -> by (by eapply inv_dbs). exists d. split; [by apply (changed_db _ _ _ _ C) | by apply (changed_here _ _ _ _ C)].
      * specialize (Sk q r). destruct (keys_on m q r) as [ks |].
        -- destruct Sk as (e & E & K). exists e. split; [by apply (changed_db _ _ _ _ C) |]. intros k v. rewrite K. symmetry.
           apply (changed_other _ _ _ _ C e q r k v E). intros ->. apply Nq. destruct E as (_ & i & E1 & N1), O as (_ & j & E2 & N2). split; congruence.
        -- intros e E. apply (Sk e). by apply (changed_db _ _ _ _ C).
  - exists st. split; [done |]. apply Skip. intros d D. destruct (db_parent st d s n I D) as (q & _ & Q & _). by apply (F q).
Qed.

(** ** Keys *)

Definition add_key (v : NDbKValue) (ks : gmap bytes NDbKValue) : gmap bytes NDbKValue :=
  match ks !! KeyString v with Some _ => ks | None => <[KeyString v := v]> ks end.
Definition rename_key (old new : NKey) (ks : gmap bytes NDbKValue) : gmap bytes NDbKValue :=
  match ks !! key_ old with Some v => <[key_ new := NDbKValue_SetKey v new]> (delete (key_ old) ks) | None => ks end.
Definition change_value (v : NDbKValue) (ks : gmap bytes NDbKValue) : gmap bytes NDbKValue :=
  match ks !! KeyString v with Some _ => <[KeyString v := v]> ks | None => ks end.

Lemma changed_same st d f : inv st → (∀ ks, (∀ k v, ks !! k = Some v ↔ has_key st d k v) → f ks = ks) → changed st st d f.
Proof. intros I F. constructor; [done .. | | done]. intros ks K k v. by rewrite F, K. Qed.

Lemma no_key ks st d k : (∀ k v, ks !! k = Some v ↔ has_key st d k v) → (∀ v, ¬ has_key st d k v) → ks !! k = None.
Proof. intros K N. destruct (ks !! k) as [v |] eqn:E; [| done]. by apply K, N in E. Qed.

Lemma addKey_shows st m s p n dbv ns : shows st m → db_name s p = Some n → KeyInfo_fits (NKey_Info (nkv_key dbv) ns) →
  ∃ st', addKey s (Some p) dbv ns st = Val st' ∧ shows st' (in_db s (Some p) (add_key dbv) m).
Proof.
  intros Sh N F. apply (on_database_shows st m s p n); [done | done |]. intros d D. cbv zeta. pose proof (shows_inv _ _ Sh) as I.
  pose proof (findKeyItem_spec st d (nkv_key dbv) I (proj1 D)) as L. destruct (findKeyItem _ _ _) as [x |].
  { exists st. split; [done |]. apply changed_same; [done |]. intros ks K. destruct L as (B & v & E & Kv).
    assert (Ek : ks !! KeyString dbv = Some v) by (apply K; by exists x). unfold add_key. by rewrite Ek. }
  assert (∃ x st1, (if HasNamespace (NKey_Info (nkv_key dbv) ns) then findOrCreateNSItem d (NKey_Info (nkv_key dbv) ns) st else Val (Some d, st)) = Val (Some x, st1) ∧
    grown st st1 ∧ holder st1 d x) as (x & st1 & -> & G & Hx).
  { pose proof (holder_db st d s n D) as Ho. destruct (HasNamespace _) eqn:Hn; [by apply findOrCreateNSItem_spec |].
    exists d, st. split; [done |]. split; [by apply grown_refl | done]. }
  cbn [mbind outcome_bind from_option_fault]. pose proof (grown_inv _ _ G) as I1. destruct Hx as (Px & Bx & Ox).
  assert (D1 : is_db st1 d s n) by (by apply (grown_db _ _ G)).
  assert (N1 : ∀ v, ¬ has_key st1 d (KeyString dbv) v) by (intros v; rewrite (grown_key _ _ G d s n) by done; apply L).
  eexists. split; [done |]. constructor.
  - apply insert_inv; [done | done | done | done | done |]. intros v e q r w [= <-] E Be.
    assert (e = d) as -> by (by eapply (db_apart st1 e q r d s n x)). apply N1.
  - intros y q. rewrite insert_server by done. rewrite (grown_server _ _ G). split; [by intros [| [_ ?]] | by left].
  - intros y q r. rewrite insert_db by done. rewrite (grown_db _ _ G). split; [by intros [| (_ & i & ? & _)] | by left].
  - intros ks K k v. rewrite insert_has_key by (done || apply D1). rewrite (grown_key _ _ G d s n) by done. rewrite <- K.
    unfold add_key. rewrite (no_key ks st d) by done. rewrite lookup_insert_Some. split.
    + intros [[<- <-] | [_ ?]]; [by right | by left].
    + intros [E | ([= ->] & <- & _)]; [| by left]. right. split; [| done]. intros <-. by apply K, L in E.
  - intros e q r k v E Ne. rewrite insert_has_key by (done || (apply (grown_db _ _ G) in E; apply E)). rewrite (grown_key _ _ G e q r) by done.
    split; [| by left]. intros [| (_ & _ & Be)]; [done |]. destruct Ne. eapply (db_apart st1 e q r d s n x); try done. by apply (grown_db _ _ G).
Qed.

(** Nothing is below a key. *)
Lemma key_leaf st x v y : inv st → item_at st x = Some (ExplorerKeyItem v) → below (tree_ st) x y → y = x.
Proof.
  intros I E B. unfold below in B. induction B as [| y z x P B IH]; [done |]. rewrite (IH E) in P. exfalso.
  destruct (inv_items st I y) as [it Ei]; [right; by eexists |]. pose proof (inv_edge st I _ _ _ P Ei) as O.
  destruct it as [| | | [] | ? [] | |]; cbn in O; try done; rewrite ?E in O; try done.
  - subst x. rewrite inv_root in E by done. done.
  - by destruct O.
Qed.
Lemma root_not_below st x : inv st → below (tree_ st) x root_ → x = root_.
Proof.
  intros I B. destruct (under_inv _ _ _ B) as [-> | (y & E & _)]; [done |]. rewrite root_law in E by (by apply inv_sound). done.
Qed.
(** Servers are below nothing but the root. *)
Lemma server_below st x y s : inv st → is_server st y s → below (tree_ st) x y → x = y ∨ x = root_.
Proof.
  intros I [In E] B. destruct (under_inv _ _ _ B) as [-> | (z & P & B')]; [by left | right].
  pose proof (inv_edge st I _ _ _ P E) as O. cbn in O. subst z. by apply (root_not_below st).
Qed.
Lemma db_not_root st d s n : inv st → is_db st d s n → d ≠ root_.
Proof. intros I (_ & i & E & _) ->. rewrite inv_root in E by done. done. Qed.
Lemma server_not_db st x s d q n : is_server st x s → is_db st d q n → x ≠ d.
Proof. intros [_ E] (_ & i & E' & _) ->. congruence. Qed.

Lemma removeKey_shows st m s p n key : shows st m → db_name s p = Some n →
  ∃ st', removeKey s (Some p) key st = Val st' ∧ shows st' (in_db s (Some p) (delete (key_ key)) m).
Proof.
  intros Sh N. apply (on_database_shows st m s p n); [done | done |]. intros d D. cbv zeta. pose proof (shows_inv _ _ Sh) as I.
  pose proof (inv_sound st I) as Sd. pose proof (findKeyItem_spec st d key I (proj1 D)) as L. destruct (findKeyItem _ _ _) as [x |].
  2:{ exists st. split; [done |]. apply changed_same; [done |]. intros ks K. apply delete_id. by eapply no_key. }
  destruct L as (B & v & E & Kv). assert (Nd : x ≠ d) by (intros ->; destruct D as (_ & i & E' & _); congruence).
  destruct (under_inv _ _ _ B) as [| (par & P & _)]; [done |]. rewrite P. cbn [mbind outcome_bind from_option_fault].
  destruct (remove_law _ _ _ Sd P) as [Sd' Par]. set (S := below (tree_ st) x).
  assert (S1 : ∀ y, S y ↔ y = x) by (intros y; split; [by eapply key_leaf | intros ->; apply under_refl]).
  assert (Cl : ∀ y z, parent (tree_ st) y = Some z → S z → S y) by (intros y z; apply under_parent).
  assert (Rt : ¬ S root_) by (rewrite S1; intros <-; rewrite inv_root in E by done; done).
  eexists. split; [done |]. constructor.
  - by apply (cut_inv st _ S).
  - intros y q. rewrite (cut_server st _ S) by done. split; [by intros [] |]. intros Y. split; [done |]. rewrite S1. intros ->. destruct Y. congruence.
  - intros y q r. rewrite (cut_db st _ S) by done. split; [by intros [] |]. intros Y. split; [done |]. rewrite S1. intros ->. destruct Y as (_ & i & ? & _). congruence.
  - intros ks K k w. rewrite lookup_delete_Some, K. rewrite (cut_has_key st _ S) by (done || apply D || (rewrite S1; congruence)). split.
    + intros [Nk (y & By & Ey & Ky)]. exists y. rewrite S1. split_and!; try done. intros ->. congruence.
    + intros (y & By & Ny & Ey & Ky). rewrite S1 in Ny. split; [| by exists y]. intros <-. apply Ny. eapply (inv_keys st I d s n y x w v); try done. congruence.
  - intros e q r k w De Ne. rewrite (cut_has_key st _ S); [| done .. | by apply De | rewrite S1; intros ->; destruct De as (_ & i & ? & _); congruence].
    split; [intros (y & By & _ & Ey); by exists y |]. intros (y & By & Ey). exists y. split; [done |]. split; [| done]. rewrite S1. intros ->.
    apply Ne. by eapply (db_apart st e q r d s n x).
Qed.

(** The value of a key becomes [v'], which may have the key of no other. *)
Lemma change_key_changed st d s n x v v' g f : inv st → is_db st d s n → below (tree_ st) d x → item_at st x = Some (ExplorerKeyItem v) → g v = v' →
  (∀ w, has_key st d (KeyString v') w → KeyString v' = KeyString v) →
  (∀ ks, ks !! KeyString v = Some v → f ks = <[KeyString v' := v']> (delete (KeyString v) ks)) →
  changed st (change_key g x st) d f.
Proof.
  intros I D B E <- U F. unfold change_key. rewrite E. constructor.
  - apply (change_inv st x v); [done | done |]. intros e q r w De Be K. assert (e = d) as -> by (by eapply (db_apart st e q r d s n x)). by apply (U w).
  - intros y q. by eapply change_server.
  - intros e q r. by eapply change_db.
  - intros ks K k w. rewrite (change_has_key st x v (g v) I E d s n k w D B).
    assert (Ek : ks !! KeyString v = Some v) by (apply K; by exists x). rewrite (F ks Ek), lookup_insert_Some, lookup_delete_Some, K. split.
    + intros [[<- <-] | (N1 & N2 & Hk)]; [by left | by right].
    + intros [[-> <-] | [Hk N]]; [by left |]. destruct (decide (KeyString (g v) = k)) as [<- | N']; [| by right].
      exfalso. by apply N, (U w).
  - intros e q r k w De Ne. eapply change_has_key_ne; [done |]. intros Be. apply Ne. by eapply (db_apart st e q r d s n x).
Qed.

Lemma updateKey_shows st m s p n old new : shows st m → db_name s p = Some n →
  match keys_on m s n with Some ks => ks !! key_ old = None ∨ ks !! key_ new = None ∨ key_ new = key_ old | None => True end →
  ∃ st', updateKey s (Some p) old new st = Val st' ∧ shows st' (in_db s (Some p) (rename_key old new) m).
Proof.
  intros Sh N Ok. apply (on_database_shows st m s p n); [done | done |]. intros d D. cbv zeta. pose proof (shows_inv _ _ Sh) as I.
  pose proof (findKeyItem_spec st d old I (proj1 D)) as L. destruct (findKeyItem _ _ _) as [x |].
  2:{ exists st. split; [done |]. apply changed_same; [done |]. intros ks K. unfold rename_key. by rewrite (no_key ks st d (key_ old)) by done. }
  destruct L as (B & v & E & Kv). eexists. split; [done |]. eapply (change_key_changed st d s n x v); try done.
  - intros w Hw. cbn in *. rewrite Kv. pose proof (shows_keys _ _ Sh s n) as Sk. destruct (keys_on m s n) as [ks |]; [| by destruct (Sk d)].
    destruct Sk as (e & De & K). assert (e = d) as -> by (by eapply inv_dbs). destruct Ok as [Ok | [Ok | Ok]]; [| | done].
    + assert (ks !! key_ old = Some v) by (apply K; by exists x). congruence.
    + assert (ks !! key_ new = Some w) by (by apply K). congruence.
  - intros ks Ek. unfold rename_key. rewrite <- Kv, Ek. done.
Qed.

Lemma updateValue_shows st m s p n v : shows st m → db_name s p = Some n →
  ∃ st', updateValue s (Some p) v st = Val st' ∧ shows st' (in_db s (Some p) (change_value v) m).
Proof.
  intros Sh N. apply (on_database_shows st m s p n); [done | done |]. intros d D. cbv zeta. pose proof (shows_inv _ _ Sh) as I.
  pose proof (findKeyItem_spec st d (nkv_key v) I (proj1 D)) as L. destruct (findKeyItem _ _ _) as [x |].
  2:{ exists st. split; [done |]. apply changed_same; [done |]. intros ks K. unfold change_value. by rewrite (no_key ks st d (KeyString v)) by done. }
  destruct L as (B & w & E & Kw). eexists. split; [done |]. eapply (change_key_changed st d s n x w v); try done.
  intros ks Ek. unfold change_value. change (key_ (nkv_key v)) with (KeyString v) in Kw. rewrite Kw in Ek |- *. rewrite Ek. by rewrite insert_delete_eq.
Qed.

Lemma removeAllKeys_shows st m s p n : shows st m → db_name s p = Some n →
  ∃ st', removeAllKeys s (Some p) st = Val st' ∧ shows st' (in_db s (Some p) (λ _, ∅) m).
Proof.
  intros Sh N. apply (on_database_shows st m s p n); [done | done |]. intros d D. pose proof (shows_inv _ _ Sh) as I.
  pose proof (inv_sound st I) as Sd. destruct (clear_law _ _ Sd (proj1 D)) as [Sd' Par]. set (S := λ y, below (tree_ st) d y ∧ y ≠ d).
  assert (Cl : ∀ y z, parent (tree_ st) y = Some z → S z → S y).
  { intros y z P [B _]. split; [by eapply under_parent |]. intros ->. by apply (no_cycle _ d z Sd (proj1 D) P). }
  assert (Rt : ¬ S root_) by (intros [B Nr]; by apply Nr, eq_sym, (root_not_below st)).
  assert (Dec : ∀ y, in_tree (tree_ st) y → {S y} + {¬ S y}).
  { intros y _. destruct (below_dec _ d y Sd (proj1 D)) as [B | B], (decide (y = d)) as [-> | Ny]; [right | left | right | right]; unfold S; tauto. }
  eexists. split; [done |]. constructor.
  - by apply (cut_inv st _ S).
  - intros y q. rewrite (cut_server st _ S) by done. split; [by intros [] |]. intros Y. split; [done |]. intros [B Ny].
    destruct (server_below st d y q I Y B) as [-> | ->]; [done | by eapply db_not_root].
  - intros y q r. rewrite (cut_db st _ S) by done. split; [by intros [] |]. intros Y. split; [done |]. intros [B Ny]. by apply Ny, eq_sym, (db_below st d s n y q r).
  - intros ks K k w. rewrite lookup_empty. rewrite (cut_has_key st _ S) by (done || apply D || (intros [_ ?]; done)). split; [done |].
    intros (y & By & Ny & Ey & Ky). destruct (decide (y = d)) as [-> | Nd]; [| by destruct Ny]. destruct D as (_ & i & E' & _). congruence.
  - intros e q r k w De Ne.
    rewrite (cut_has_key st _ S); [| done .. | by apply De | intros [B _]; by apply Ne, eq_sym, (db_below st d s n e q r)].
    split; [intros (y & By & _ & Ey); by exists y |]. intros (y & By & Ey). exists y. split; [done |]. split; [| done]. intros [B _].
    apply Ne. by eapply (db_apart st e q r d s n y).
Qed.

Lemma updateDb_shows st m s p n : shows st m → db_name s p = Some n → updateDb s (Some p) st = Val st.
Proof.
  intros [I _ _] N. unfold updateDb, on_database. pose proof (findServerItem_spec s st I) as F. destruct (findServerItem _ _) as [x |]; [| done].
  destruct (findDatabaseItem_spec st x s p n I F N) as (o & -> & _). by destruct o.
Qed.

(** ** Servers and databases *)

Definition put_server s (m : shelf) : shelf := match m !! s with Some _ => m | None => <[s := ∅]> m end.
Definition put_db s (p : IDataBaseInfoSPtr) (m : shelf) : shelf :=
  match db_name s p with Some n => alter (λ dbs, match dbs !! n with Some _ => dbs | None => <[n := ∅]> dbs end) s m | None => m end.

Lemma shown_as_same st st' s n o : (∀ d, is_db st' d s n ↔ is_db st d s n) → (∀ d k v, is_db st d s n → has_key st' d k v ↔ has_key st d k v) →
  shown_as st s n o → shown_as st' s n o.
Proof.
  intros D K. destruct o as [ks |]; cbn.
  - intros (d & Hd & Hk). exists d. split; [by apply D |]. intros k v. by rewrite Hk, K.
  - intros N d Hd%D. by apply (N d).
Qed.

Lemma addServer_shows st m s : shows st m → shows (addServer (Some s) st) (put_server s m).
Proof.
  intros Sh. pose proof Sh as [I Sv Sk]. unfold addServer, put_server. pose proof (findServerItem_spec s st I) as F.
  destruct (findServerItem (Some s) st) as [x |].
  - assert (is_Some (m !! s)) as [dbs ->] by (apply Sv; by exists x). done.
  - destruct (m !! s) as [dbs |] eqn:Em; [assert (is_Some (m !! s)) as [x X]%Sv by (by rewrite Em); by destruct (F x) |].
    assert (Root : in_tree (tree_ st) root_) by (by left). constructor.
    + apply insert_inv; [done | done | done | | done | done]. intros q y [= <-]. apply F.
    + intros q. destruct (decide (q = s)) as [-> | Nq].
      * rewrite lookup_insert_eq. split; [intros _ | by eexists]. eexists. apply insert_server; [done | done | by right].
      * rewrite lookup_insert_ne by done. rewrite Sv. split; intros [y Y]; exists y; [by apply insert_server; [| | left] |].
        apply insert_server in Y as [| [_ [= ?]]]; [done | by subst | done | done].
    + intros q n. apply (shown_as_same st); [| intros d k v D |].
      * intros d. rewrite insert_db by done. split; [by intros [| (_ & i & ? & _)] | by left].
      * rewrite insert_has_key by (done || apply D). split; [by intros [| [? _]] | by left].
      * specialize (Sk q n). unfold keys_on in *. destruct (decide (q = s)) as [-> | Nq]; [by rewrite lookup_insert_eq; rewrite Em in Sk |].
        by rewrite lookup_insert_ne.
Qed.

Lemma removeServer_shows st m s : shows st m → shows (removeServer (Some s) st) (delete s m).
Proof.
  intros Sh. pose proof Sh as [I Sv Sk]. unfold removeServer. pose proof (findServerItem_spec s st I) as F. pose proof (inv_sound st I) as Sd.
  destruct (findServerItem (Some s) st) as [x |].
  2:{ rewrite delete_id; [done |]. destruct (m !! s) as [dbs |] eqn:Em; [| done]. assert (is_Some (m !! s)) as [x X]%Sv by (by rewrite Em). by destruct (F x). }
  assert (P : parent (tree_ st) x = Some root_).
  { destruct F as [[-> | [q P]] E]; [rewrite inv_root in E by done; done |]. pose proof (inv_edge st I _ _ _ P E) as O. cbn in O. by subst q. }
  assert (Nr : x ≠ root_) by (intros ->; rewrite root_law in P by done; done).
  destruct (remove_law _ _ _ Sd P) as [Sd' Par]. set (S := below (tree_ st) x).
  assert (Cl : ∀ y z, parent (tree_ st) y = Some z → S z → S y) by (intros y z; apply under_parent).
  assert (Rt : ¬ S root_) by (intros B; by apply Nr, (root_not_below st)).
  assert (Dbs : ∀ d q n, is_db st d q n → S d ↔ q = s).
  { intros d q n D. destruct (db_parent st d q n I D) as (y & Py & Y & _). split.
    - intros B. destruct (under_inv _ _ _ B) as [<- | (z & Pz & B')]; [by destruct (server_not_db st d s d q n F D) |].
      assert (z = y) as -> by congruence. destruct (server_below st x y q I Y B') as [-> | ->]; [| done]. destruct Y, F. congruence.
    - intros ->. assert (y = x) as -> by (by eapply inv_servers). eapply under_parent; [done | apply under_refl]. }
  constructor.
  - by apply (cut_inv st _ S).
  - intros q. destruct (decide (q = s)) as [-> | Nq].
    + rewrite lookup_delete_eq. split; [by intros [] |]. intros [y Y]. apply (cut_server st _ S) in Y as [Y Ny]; [| done ..].
      exfalso. apply Ny. assert (y = x) as -> by (by eapply inv_servers). apply under_refl.
    + rewrite lookup_delete_ne by done. rewrite Sv. split; intros [y Y]; exists y.
      * apply (cut_server st _ S); [done .. |]. split; [done |]. intros B. destruct (server_below st x y q I Y B) as [-> | ->]; [| done]. destruct Y, F. congruence.
      * by apply (cut_server st _ S) in Y as [Y _].
  - intros q n. specialize (Sk q n). unfold keys_on in *. destruct (decide (q = s)) as [-> | Nq].
    + rewrite lookup_delete_eq. intros d D. apply (cut_db st _ S) in D as [D Nd]; [| done ..]. by apply Nd, (Dbs d s n).
    + rewrite lookup_delete_ne by done. revert Sk. apply shown_as_same.
      * intros d. rewrite (cut_db st _ S) by done. split; [by intros [] |]. intros D. split; [done |]. by rewrite (Dbs d q n).
      * intros d k v D. assert (Nd : ¬ S d) by (by rewrite (Dbs d q n)). rewrite (cut_has_key st _ S); [| done .. | by apply D | done].
        split; [intros (y & By & _ & Ey); by exists y |]. intros (y & By & Ey). exists y. split; [done |]. split; [| done]. intros B.
        destruct (under_chain _ _ _ _ B By) as [C | C]; [done |].
        destruct (server_below st d x s I F C) as [<- | ->]; [by destruct (server_not_db st d s d q n F D) | by eapply db_not_root].
Qed.

Lemma addDatabase_shows st m s p n : shows st m → is_Some (m !! s) → db_name s p = Some n → CreateDatabaseByInfo s (Some p) = Some p →
  ∃ st', addDatabase s (Some p) st = Val st' ∧ shows st' (put_db s p m).
Proof.
  intros Sh Hs N Cr. pose proof Sh as [I Sv Sk]. pose proof (inv_sound st I) as Sd. destruct (proj1 (Sv s) Hs) as [x X].
  unfold addDatabase, put_db. rewrite (findServerItem_at s st x), N by done. cbn [mbind outcome_bind from_option_fault].
  destruct (findDatabaseItem_spec st x s p n I X N) as (o & -> & O). cbn [mbind outcome_bind]. destruct Hs as [dbs Em].
  pose proof (Sk s n) as Sn. unfold keys_on in Sn. rewrite Em in Sn. cbn in Sn. destruct o as [d |].
  - exists st. split; [done |]. destruct (dbs !! n) as [ks |] eqn:En; [| by destruct (Sn d)].
    constructor; [done | |]; intros q; [|intros r]; unfold keys_on; destruct (decide (q = s)) as [-> | Nq].
    + rewrite lookup_alter_eq, Em. cbn. rewrite <- Sv, Em. done.
    + by rewrite lookup_alter_ne.
    + rewrite lookup_alter_eq, Em. cbn. rewrite En. specialize (Sk s r). unfold keys_on in Sk. by rewrite Em in Sk.
    + rewrite lookup_alter_ne by done. apply Sk.
  - destruct (dbs !! n) as [ks |] eqn:En; [destruct Sn as (d & D & _); by destruct (O d) |]. rewrite Cr. eexists. split; [done |].
    assert (Px : in_tree (tree_ st) x) by apply X. set (y := length (items_ st)).
    assert (Db : ∀ e q r, is_db (insert_new x (ExplorerDatabaseItem s (Some p)) st).2 e q r ↔ is_db st e q r ∨ e = y ∧ q = s ∧ r = n).
    { intros e q r. rewrite insert_db by done. split; (intros [| Ex]; [by left | right]).
      - destruct Ex as (-> & i & [= <- <-] & Ni). split; [done |]. split; [done | congruence].
      - destruct Ex as (-> & -> & ->). split; [done |]. by exists p. }
    assert (Ky : ∀ e q r k v, is_db st e q r → has_key (insert_new x (ExplorerDatabaseItem s (Some p)) st).2 e k v ↔ has_key st e k v).
    { intros e q r k v D. rewrite insert_has_key by (done || apply D). split; [by intros [| [? _]] | by left]. }
    constructor.
    + apply insert_inv; [done | done | | done | | done].
      * split; [apply X | by rewrite N].
      * intros q i r e [= <- <-] Ni D. apply (O e). congruence.
    + intros q. assert (is_Some (alter (λ dbs, match dbs !! n with Some _ => dbs | None => <[n := ∅]> dbs end) s m !! q) ↔ is_Some (m !! q)) as ->.
      { destruct (decide (q = s)) as [-> | Nq]; [by rewrite lookup_alter_eq, fmap_is_Some | by rewrite lookup_alter_ne]. }
      rewrite Sv. split; intros [z Z]; exists z; [by apply insert_server; [| | left] |]. by apply insert_server in Z as [| [_ ?]].
    + intros q r. unfold keys_on. destruct (decide (q = s)) as [-> | Nq].
      * rewrite lookup_alter_eq, Em. cbn. rewrite En. destruct (decide (r = n)) as [-> | Nr].
        -- rewrite lookup_insert_eq. exists y. split; [apply Db; by right |]. intros k v. rewrite lookup_empty. split; [done |]. by intros Hk%insert_no_key.
        -- rewrite lookup_insert_ne by done. specialize (Sk s r). unfold keys_on in Sk. rewrite Em in Sk. cbn in Sk. revert Sk. apply shown_as_same.
           ++ intros d. rewrite Db. split; [by intros [| (_ & _ & ?)] | by left].
           ++ intros d k v D. by eapply Ky.
      * rewrite lookup_alter_ne by done. specialize (Sk q r). revert Sk. apply shown_as_same.
        -- intros d. rewrite Db. split; [by intros [| (_ & ? & _)] | by left].
        -- intros d k v D. by eapply Ky.
Qed.

(** * Signals *)

Definition spec_slot s (ev : server_event SI) (m : shelf) : shelf :=
  match ev with
  | ResponceCame res =>
    if isError (errorInfo res) then m
    else
      match ei_info (rs_request res) with
      | LoadDatabasesInfoRequest => fold_left (λ m p, put_db s p m) (res_databases res) m
      | LoadDatabaseContentRequest inf _ _ _ => fold_left (λ m v, in_db s inf (add_key v) m) (res_content res).1 m
      | ClearDatabaseRequest inf => in_db s inf (λ _, ∅) m
      | _ => m
      end
  | DriverSignal (KeyRemoved db key) => in_db s db (delete (key_ key)) m
  | DriverSignal (KeyAdded db key) => in_db s db (add_key key) m
  | DriverSignal (KeyRenamed db key new_name) => in_db s db (rename_key key (NKey_SetKey key new_name)) m
  | DriverSignal (KeyLoaded db key) => in_db s db (change_value key) m
  | DriverSignal (KeyTTLChanged db key ttl) => in_db s db (rename_key key (NKey_SetTTL key ttl)) m
  | DriverSignal _ => m
  end.

(** The information is one of the server's. *)
Definition known s (inf : option IDataBaseInfoSPtr) : Prop := ∃ p n, inf = Some p ∧ db_name s p = Some n.
Definition splits s (v : NDbKValue) : Prop := KeyInfo_fits (NKey_Info (nkv_key v) (NsSeparator s)).
(** A key is renamed to a name that no other key has. *)
Definition renames (m : shelf) s (inf : option IDataBaseInfoSPtr) (old new : NKey) : Prop :=
  ∀ n ks, inf ≫= db_name s = Some n → keys_on m s n = Some ks → ks !! key_ old = None ∨ ks !! key_ new = None ∨ key_ new = key_ old.

Definition event_ok s (ev : server_event SI) (m : shelf) : Prop :=
  match ev with
  | ResponceCame res =>
    isError (errorInfo res) = false →
    match ei_info (rs_request res) with
    | LoadDatabasesInfoRequest => Forall (λ p, known s (Some p) ∧ CreateDatabaseByInfo s (Some p) = Some p) (res_databases res)
    | LoadDatabaseContentRequest inf _ _ _ => known s inf ∧ Forall (splits s) (res_content res).1
    | ClearDatabaseRequest inf | SetDefaultDatabaseRequest inf => known s inf
    | _ => True
    end
  | DriverSignal (KeyRemoved db _) | DriverSignal (KeyLoaded db _) | DriverSignal (KeyTTLChanged db _ _) => known s db
  | DriverSignal (KeyAdded db key) => known s db ∧ splits s key
  | DriverSignal (KeyRenamed db key new_name) => known s db ∧ renames m s db key (NKey_SetKey key new_name)
  | DriverSignal _ => True
  end.

Lemma put_db_servers s p m q : is_Some (put_db s p m !! q) ↔ is_Some (m !! q).
Proof.
  unfold put_db. destruct (db_name s p) as [n |]; [| done]. destruct (decide (q = s)) as [-> | Nq].
  - by rewrite lookup_alter_eq, fmap_is_Some.
  - by rewrite lookup_alter_ne.
Qed.
Lemma fold_servers {A} (f : shelf → A → shelf) l q : (∀ m a, is_Some (f m a !! q) ↔ is_Some (m !! q)) → ∀ m, is_Some (fold_left f l m !! q) ↔ is_Some (m !! q).
Proof. intros F. induction l as [| a l IH]; intros m; [done |]. cbn. by rewrite IH, F. Qed.
Lemma spec_slot_servers s ev m q : is_Some (spec_slot s ev m !! q) ↔ is_Some (m !! q).
Proof.
  destruct ev as [res | []]; cbn; try done; try apply in_db_servers. destruct (isError _); [done |].
  destruct (ei_info _); try done; try apply in_db_servers; apply fold_servers; intros; [apply put_db_servers | apply in_db_servers].
Qed.

(** Slots one after the other. *)
Lemma in_turn_shows {A} (f : A → model → outcome model) (g : shelf → A → shelf) (P : A → Prop) s l : Forall P l →
  (∀ a st m, P a → shows st m → is_Some (m !! s) → ∃ st', f a st = Val st' ∧ shows st' (g m a)) →
  (∀ a m, is_Some (g m a !! s) ↔ is_Some (m !! s)) →
  ∀ st m, shows st m → is_Some (m !! s) → ∃ st', in_turn f l st = Val st' ∧ shows st' (fold_left g l m).
Proof.
  intros Fl F G. induction Fl as [| a l Pa Fl IH]; intros st m Sh Hs; cbn [in_turn fold_left]; [by exists st |].
  destruct (F a st m Pa Sh Hs) as (st1 & -> & Sh1). cbn [mbind outcome_bind]. apply IH; [done | by apply G].
Qed.

Lemma slot_shows s ev st m : shows st m → is_Some (m !! s) → event_ok s ev m → ∃ st', slot s ev st = Val st' ∧ shows st' (spec_slot s ev m).
Proof.
  intros Sh Hs Ok. assert (Same : ∃ st', Val st = Val st' ∧ shows st' m) by (by exists st).
  destruct ev as [res | sig]; cbn [slot spec_slot event_ok] in *.
  - unfold finishLoadDatabases, finishSetDefaultDatabase, finishLoadDatabaseContent, finishClearDatabase, unless_error.
    destruct (isError (errorInfo res)); [by destruct (ei_info _) |]. specialize (Ok eq_refl). destruct (ei_info _); try done.
    + eapply (in_turn_shows _ (λ m p, put_db s p m) _ s); [exact Ok | | intros; apply put_db_servers | done | done].
      intros p st1 m1 [(p' & n & [= <-] & N) Cr] Sh1 Hs1. by eapply addDatabase_shows.
    + destruct Ok as [(p & n & -> & N) Fk].
      destruct (in_turn_shows (λ key, addKey s (Some p) key (NsSeparator s)) (λ m v, in_db s (Some p) (add_key v) m) (splits s) s (res_content res).1 Fk) with st m
        as (st1 & E & Sh1); [| intros; apply in_db_servers | done | done |].
      { intros v st1 m1 F Sh1 _. by eapply addKey_shows. }
      rewrite E. cbn [mbind outcome_bind]. exists st1. split; [by eapply updateDb_shows | done].
    + destruct Ok as (p & n & -> & N). by eapply removeAllKeys_shows.
    + destruct Ok as (p & n & -> & N). pose proof Sh as [I Sv _]. destruct (proj1 (Sv s) Hs) as [x X].
      unfold setDefaultDb. rewrite (findServerItem_at s st x) by done. cbn [mbind outcome_bind from_option_fault].
      by destruct (findDatabaseItem_spec st x s p n I X N) as (o & -> & _).
  - destruct sig; try done.
    + destruct Ok as (p & n & -> & N). by eapply removeKey_shows.
    + destruct Ok as [(p & n & -> & N) F]. by eapply addKey_shows.
    + destruct Ok as [(p & n & -> & N) R]. eapply updateKey_shows; [done | done |]. specialize (R n). cbn in R. destruct (keys_on m s n) as [ks |]; [by apply R | done].
    + destruct Ok as (p & n & -> & N). by eapply updateValue_shows.
    + destruct Ok as (p & n & -> & N). eapply updateKey_shows; [done | done |]. destruct (keys_on m s n); [right; by right | done].
Qed.

(** ** Signals that are delivered more than once *)

Lemma in_db_id s p n f m : db_name s p = Some n → (∀ ks, keys_on m s n = Some ks → f ks = ks) → in_db s (Some p) f m = m.
Proof.
  intros N F. unfold in_db. change (Some p ≫= db_name s) with (db_name s p). rewrite N. apply alter_id. intros dbs E. apply alter_id. intros ks Ek.
  apply F. unfold keys_on. by rewrite E.
Qed.
Lemma in_db_twice s p n f m : db_name s p = Some n → (∀ ks, keys_on m s n = Some ks → f (f ks) = f ks) →
  in_db s (Some p) f (in_db s (Some p) f m) = in_db s (Some p) f m.
Proof.
  intros N F. apply (in_db_id s p n); [done |]. intros ks. rewrite (keys_on_in_db _ _ _ n), decide_True by done.
  intros (ks0 & E & ->)%fmap_Some. by apply F.
Qed.
Lemma rename_key_twice old new ks : ks !! key_ old = None ∨ ks !! key_ new = None ∨ key_ new = key_ old →
  rename_key old new (rename_key old new ks) = rename_key old new ks ∧
  (rename_key old new ks !! key_ old = None ∨ key_ new = key_ old).
Proof.
  intros Ok. unfold rename_key at 2 3 4. destruct (ks !! key_ old) as [v |] eqn:E; [| unfold rename_key; rewrite E; by split; [| left]].
  destruct (decide (key_ new = key_ old)) as [Ek | Nk].
  - split; [| by right]. unfold rename_key. rewrite Ek, lookup_insert_eq, delete_insert_eq, delete_delete_eq. done.
  - assert (En : <[key_ new := NDbKValue_SetKey v new]> (delete (key_ old) ks) !! key_ old = None) by (by rewrite lookup_insert_ne, lookup_delete_eq).
    split; [unfold rename_key at 1; by rewrite En | by left].
Qed.

(** What has been done for an element of a list is there, and stays. *)
Lemma fold_twice {A B} (f : B → A → B) (done_for : B → A → Prop) l b : (∀ b a, a ∈ l → done_for (f b a) a) →
  (∀ b a a', done_for b a → done_for (f b a') a) → (∀ b a, a ∈ l → done_for b a → f b a = b) → fold_left f l (fold_left f l b) = fold_left f l b.
Proof.
  intros Do Keep Id. assert (Stay : ∀ l' b a, done_for b a → done_for (fold_left f l' b) a).
  { induction l' as [| a' l' IH]; intros b' a Ha; [done |]. cbn. by apply IH, Keep. }
  assert (All : ∀ a, a ∈ l → done_for (fold_left f l b) a).
  { clear Id. revert b Do. induction l as [| a' l' IH]; intros b Do a Ha; [by apply not_elem_of_nil in Ha |]. cbn.
    apply elem_of_cons in Ha as [-> | Ha]; [apply Stay, Do; left | apply IH; [| done]]. intros b' a'' Ha''. apply Do. by right. }
  revert All. generalize (fold_left f l b) as c. induction l as [| a l IH]; intros c All; [done |]. cbn.
  rewrite Id; [| left | apply All; left]. apply IH.
  - intros b' a' Ha'. apply Do. by right.
  - intros b' a' Ha'. apply Id. by right.
  - intros a' Ha'. apply All. by right.
Qed.

Lemma add_key_there v ks : is_Some (add_key v ks !! KeyString v).
Proof. unfold add_key. destruct (ks !! KeyString v) as [w |] eqn:E; [by rewrite E | by rewrite lookup_insert_eq]. Qed.
Lemma add_key_stays v ks k : is_Some (ks !! k) → is_Some (add_key v ks !! k).
Proof.
  intros [w E]. unfold add_key. destruct (ks !! KeyString v) eqn:Ev; [by rewrite E |]. rewrite lookup_insert_ne by congruence. by rewrite E.
Qed.
Lemma add_key_id v ks : is_Some (ks !! KeyString v) → add_key v ks = ks.
Proof. intros [w E]. unfold add_key. by rewrite E. Qed.

Lemma keys_twice s p n l m : db_name s p = Some n →
  let f := λ m v, in_db s (Some p) (add_key v) m in fold_left f l (fold_left f l m) = fold_left f l m.
Proof.
  intros N f. apply (fold_twice f (λ m v, ∀ ks, keys_on m s n = Some ks → is_Some (ks !! KeyString v))); unfold f.
  - intros m' v _ ks. rewrite (keys_on_in_db _ _ _ n), decide_True by done. intros (ks0 & _ & ->)%fmap_Some. apply add_key_there.
  - intros m' v v' D ks. rewrite (keys_on_in_db _ _ _ n), decide_True by done. intros (ks0 & E & ->)%fmap_Some. by apply add_key_stays, D.
  - intros m' v _ D. apply (in_db_id s p n); [done |]. intros ks E. by apply add_key_id, D.
Qed.
Lemma dbs_twice s l m : let f := λ m p, put_db s p m in fold_left f l (fold_left f l m) = fold_left f l m.
Proof.
  intros f. apply (fold_twice f (λ m p, ∀ n dbs, db_name s p = Some n → m !! s = Some dbs → is_Some (dbs !! n))); unfold f, put_db.
  - intros m' p _ n dbs N. rewrite N, lookup_alter_eq. intros (d0 & E & ->)%fmap_Some. destruct (d0 !! n) eqn:Ed; [by rewrite Ed | by rewrite lookup_insert_eq].
  - intros m' p p' D n dbs N. destruct (db_name s p') as [n' |]; [| by apply D]. rewrite lookup_alter_eq. intros (d0 & E & ->)%fmap_Some.
    destruct (D n d0 N E) as [ks Ek]. destruct (d0 !! n') eqn:Ed; [by rewrite Ek |]. rewrite lookup_insert_ne by congruence. by rewrite Ek.
  - intros m' p _ D. destruct (db_name s p) as [n |]; [| done]. apply alter_id. intros dbs E. by destruct (D n dbs eq_refl E) as [ks ->].
Qed.

Lemma slot_twice s ev m : event_ok s ev m → spec_slot s ev (spec_slot s ev m) = spec_slot s ev m ∧ event_ok s ev (spec_slot s ev m).
Proof.
  intros Ok. destruct ev as [res | sig]; cbn [spec_slot event_ok] in *.
  - split; [| done]. destruct (isError (errorInfo res)); [done |]. specialize (Ok eq_refl). destruct (ei_info _); try done.
    + apply dbs_twice.
    + destruct Ok as [(p & n & -> & N) _]. by apply (keys_twice s p n).
    + destruct Ok as (p & n & -> & N). by apply (in_db_twice s p n).
  - destruct sig; try done.
    + split; [| done]. destruct Ok as (p & n & -> & N). apply (in_db_twice s p n); [done |]. intros ks _. apply delete_delete_eq.
    + split; [| done]. destruct Ok as [(p & n & -> & N) _]. apply (in_db_twice s p n); [done |]. intros ks _. apply add_key_id, add_key_there.
    + destruct Ok as [(p & n & -> & N) R]. split.
      * apply (in_db_twice s p n); [done |]. intros ks E. apply rename_key_twice. by apply (R n ks).
      * split; [by exists p, n |]. intros n' ks N'. change (db_name s p = Some n') in N'. assert (n' = n) as -> by congruence.
        rewrite (keys_on_in_db _ _ _ n), decide_True by done. intros (ks0 & E & ->)%fmap_Some.
        destruct (rename_key_twice key (NKey_SetKey key new_name) ks0) as [_ [? | ?]]; [by apply (R n ks0) | by left | by right; right].
    + split; [| done]. destruct Ok as (p & n & -> & N). apply (in_db_twice s p n); [done |]. intros ks _. unfold change_value at 2 3.
      destruct (ks !! KeyString key) eqn:E; unfold change_value; [by rewrite lookup_insert_eq, insert_insert_eq | by rewrite E].
    + split; [| done]. destruct Ok as (p & n & -> & N). apply (in_db_twice s p n); [done |]. intros ks _. apply rename_key_twice. by right; right.
Qed.

Lemma in_db_gone s inf f m : m !! s = None → in_db s inf f m = m.
Proof. intros E. unfold in_db. destruct (_ ≫= _); [| done]. apply alter_id. intros dbs. by rewrite E. Qed.

(** * The view *)

Definition spec_step (e : view_event SI) (m : shelf) : shelf :=
  match e with
  | AddServer s => put_server s m
  | RemoveServer s => delete s m
  | ServerEvent s ev => match m !! s with Some _ => spec_slot s ev m | None => m end
  end.
Definition step_ok (e : view_event SI) (m : shelf) : Prop :=
  match e with ServerEvent s ev => event_ok s ev m | _ => True end.
Fixpoint spec_run (l : list (view_event SI)) (m : shelf) : shelf := match l with [] => m | e :: l => spec_run l (spec_step e m) end.
Fixpoint all_ok (l : list (view_event SI)) (m : shelf) : Prop := match l with [] => True | e :: l => step_ok e m ∧ all_ok l (spec_step e m) end.

Record view_ok (v : view) (m : shelf) : Prop := {
  view_shows : shows (source_model_ v) m;
  view_synced s : is_Some (m !! s) ↔ s ∈ synced_ v;
  view_clear s : s ∈ synced_ v → s ∈ synced_clear_ v
}.

Lemma deliver_copies s ev l : (∀ q, q ∈ l → q = s) → l ≠ [] → ∀ st m, shows st m → is_Some (m !! s) → event_ok s ev m →
  ∃ st', in_turn (λ _ : IServerSPtr, slot s ev) l st = Val st' ∧ shows st' (spec_slot s ev m).
Proof.
  induction l as [| q l IH]; intros Eq Ne st m Sh Hs Ok; [done |]. cbn [in_turn].
  destruct (slot_shows s ev st m Sh Hs Ok) as (st1 & -> & Sh1). cbn [mbind outcome_bind]. destruct l as [| q' l]; [by exists st1 |].
  destruct (slot_twice s ev m Ok) as [Tw Ok']. rewrite <- Tw. apply IH; [| done | done | by apply spec_slot_servers | done]. intros q'' Hq. apply Eq. by right.
Qed.
(** The signal of a cleared database reaches the view when the server has gone: nothing is found then. *)
Lemma deliver_gone s ev l st m : clears ev = true → shows st m → m !! s = None → event_ok s ev m →
  ∃ st', in_turn (λ _ : IServerSPtr, slot s ev) l st = Val st' ∧ shows st' m.
Proof.
  intros Cl Sh Em Ok. revert st Sh. induction l as [| q l IH]; intros st Sh; cbn [in_turn]; [by exists st |].
  assert (∃ st1, slot s ev st = Val st1 ∧ shows st1 m) as (st1 & -> & Sh1).
  { destruct ev as [res | sig]; [| done]. cbn [slot event_ok clears] in *. destruct (ei_info _) eqn:Ei; try done.
    unfold finishClearDatabase, unless_error. destruct (isError _); [by exists st |]. destruct (Ok eq_refl) as (p & n & -> & N).
    destruct (removeAllKeys_shows st m s p n Sh N) as (st1 & -> & Sh1). exists st1. split; [done |]. by rewrite in_db_gone in Sh1. }
  cbn [mbind outcome_bind]. by apply IH.
Qed.

Lemma view_step_ok e v m : view_ok v m → step_ok e m → ∃ v', view_step e v = Val v' ∧ view_ok v' (spec_step e m).
Proof.
  intros [Sh Sy Cl] Ok. destruct e as [s | s | s ev]; cbn [view_step spec_step step_ok] in *.
  - eexists. split; [done |]. constructor; cbn.
    + by apply addServer_shows.
    + intros q. unfold put_server. rewrite elem_of_cons, <- Sy. destruct (m !! s) eqn:Em.
      * split; [by right | intros [-> |]; [by rewrite Em | done]].
      * destruct (decide (q = s)) as [-> | Nq]; [rewrite lookup_insert_eq; split; [by left | by eexists] |].
        rewrite lookup_insert_ne by done. split; [by right | by intros [|]].
    + intros q [-> | Q]%elem_of_cons; [left | right; by apply Cl].
  - eexists. split; [done |]. constructor; cbn.
    + by apply removeServer_shows.
    + intros q. rewrite list_elem_of_In, List.filter_In, <- list_elem_of_In, negb_true_iff, bool_decide_eq_false, <- Sy.
      destruct (decide (q = s)) as [-> | Nq]; [rewrite lookup_delete_eq; split; [by intros [] | by intros []] |]. rewrite lookup_delete_ne by done. tauto.
    + intros q. rewrite list_elem_of_In, List.filter_In, <- list_elem_of_In. intros [Q _]. by apply Cl.
  - unfold deliver. set (l := connections s ev v).
    assert (Eq : ∀ q, q ∈ l → q = s). { intros q. unfold l, connections. rewrite list_elem_of_In, List.filter_In. intros [_ E]. by apply bool_decide_eq_true in E. }
    assert (In : l = [] ↔ s ∉ (if clears ev then synced_clear_ v else synced_ v)).
    { unfold l, connections. split.
      - intros E I. assert (s ∈ []) as F; [| by apply not_elem_of_nil in F]. rewrite <- E. apply list_elem_of_In, List.filter_In.
        split; [by apply list_elem_of_In | by apply bool_decide_eq_true].
      - intros I. destruct (List.filter _ _) as [| q r] eqn:E; [done |]. exfalso. apply I.
        assert (q ∈ q :: r) as Q by left. rewrite <- E in Q. apply list_elem_of_In, List.filter_In in Q as [Q F]. apply bool_decide_eq_true in F as ->. by apply list_elem_of_In. }
    assert (∃ st', in_turn (λ _ : IServerSPtr, slot s ev) l (source_model_ v) = Val st' ∧ shows st' (match m !! s with Some _ => spec_slot s ev m | None => m end)) as (st' & -> & Sh').
    { destruct (m !! s) as [dbs |] eqn:Em.
      - assert (is_Some (m !! s)) as Hs by (by rewrite Em). apply deliver_copies; try done. rewrite In. apply Sy in Hs. destruct (clears ev); [intros N; by apply N, Cl | by intros N].
      - destruct (clears ev) eqn:Ec; [by apply deliver_gone |]. assert (l = []) as -> by (apply In; rewrite <- Sy, Em; by intros []). by exists (source_model_ v). }
    cbn [mbind outcome_bind]. eexists. split; [done |]. constructor; cbn; [done | | done]. intros q. rewrite <- Sy. destruct (m !! s); [apply spec_slot_servers | done].
Qed.
Lemma view_run_ok l : ∀ v m, view_ok v m → all_ok l m → ∃ v', view_run l v = Val v' ∧ view_ok v' (spec_run l m).
Proof.
  induction l as [| e l IH]; intros v m V Ok; cbn [view_run spec_run all_ok] in *; [by exists v |].
  destruct Ok as [Oe Ol]. destruct (view_step_ok e v m V Oe) as (v1 & -> & V1). cbn [mbind outcome_bind]. by apply IH.
Qed.
Lemma new_view_ok : view_ok new_view ∅.
Proof.
  destruct new_law as [Sd Np]. assert (In : ∀ x, in_tree new_tree x → x = root_) by (intros x [| [p P]]; [done | by rewrite Np in P]).
  constructor; cbn; [| intros s; rewrite lookup_empty; split; [by intros [] | by intros ?%not_elem_of_nil] | done]. constructor.
  - constructor; cbn; try done.
    + intros x ->%In. by eexists.
    + intros x p it P. by rewrite Np in P.
    + by intros x y s [->%In ?].
    + by intros x y s n [->%In (i & ? & _)].
    + by intros d s n x y v w [->%In (i & ? & _)].
  - intros s. rewrite lookup_empty. split; [by intros [] |]. by intros [x [->%In ?]].
  - intros s n. unfold keys_on. rewrite lookup_empty. by intros d [->%In (i & ? & _)].
Qed.

(** ** What is there to see *)

(** The item of the database of a server with a name. *)
Definition database_item s n : model → option nat :=
  find_item root_ (λ it, match it with
    | ExplorerDatabaseItem q (Some i) => bool_decide (q = s) && bool_decide (db_name s i = Some n)
    | _ => false
    end).

Lemma database_item_spec s n st : inv st → match database_item s n st with Some d => is_db st d s n | None => ∀ d, ¬ is_db st d s n end.
Proof.
  intros I. unfold database_item. pose proof (inv_sound st I) as Sd.
  match goal with |- context [find_item root_ ?f st] => pose proof (find_item_spec root_ f st I ltac:(by left)) as L end.
  destruct (find_item _ _ _) as [d |].
  - destruct L as (B & it & E & F). split; [by eapply below_in_tree; [| left |] |]. destruct it as [| | | | q [i |] | |]; try done.
    apply andb_true_iff in F as [->%bool_decide_eq_true N%bool_decide_eq_true]. by exists i.
  - intros d (In & i & E & N). specialize (L d _ (root_above _ _ Sd In) E). simpl in L. by rewrite !bool_decide_true in L.
Qed.

Lemma keys_below_spec st d s n ks : inv st → is_db st d s n → (∀ k v, ks !! k = Some v ↔ has_key st d k v) →
  keys_below d st ≡ₚ (map_to_list ks).*2 ∧ loadedKeysCount d st = size ks.
Proof.
  intros I D K. destruct (each_law (tree_ st) d (inv_sound st I) (proj1 D)) as [Nd El].
  assert (In : ∀ v, v ∈ keys_below d st ↔ has_key st d (KeyString v) v).
  { intros v. unfold keys_below. rewrite list_elem_of_omap. split.
    - intros (x & B%El & E). exists x. split; [done |]. destruct (item_at st x) as [[] |]; try done. by injection E as ->.
    - intros (x & B & E & _). exists x. split; [by apply El |]. by rewrite E. }
  assert (P : keys_below d st ≡ₚ (map_to_list ks).*2).
  { apply NoDup_Permutation.
    - apply (NoDup_fmap_1 KeyString). unfold keys_below. assert (Sub : ∀ x, x ∈ eachRecursive d (tree_ st) → below (tree_ st) d x) by (intros x; apply El).
      clear El In. induction (eachRecursive d (tree_ st)) as [| x l IH]; [constructor |]. apply NoDup_cons in Nd as [Nx Nd]. cbn.
      destruct (item_at st x) as [[] |] eqn:Ex; cbn; try (apply IH; [done | intros; apply Sub; by right]).
      constructor; [| apply IH; [done | intros; apply Sub; by right]]. intros (w & Kw & Iw)%list_elem_of_fmap. apply list_elem_of_omap in Iw as (y & Iy & Ey).
      destruct (item_at st y) as [[] |] eqn:Eiy; try done. injection Ey as ->. apply Nx.
      assert (x = y) as ->; [| done]. eapply (inv_keys st I d s n); [done | apply Sub; left | apply Sub; by right | done | done | done].
    - apply (NoDup_fmap_1 KeyString). assert (Ef : KeyString <$> (map_to_list ks).*2 = (map_to_list ks).*1); [| rewrite Ef; apply NoDup_fst_map_to_list].
      assert (Kv : ∀ e, e ∈ map_to_list ks → KeyString e.2 = e.1) by (intros [k v] (x & _ & _ & E)%elem_of_map_to_list%K; done).
      clear - Kv. induction (map_to_list ks) as [| e l IH]; [done |]. cbn. rewrite (Kv e) by left. f_equal. apply IH. intros e' He'. apply Kv. by right.
    - intros v. rewrite In, <- K, list_elem_of_fmap. split.
      + intros E. exists (KeyString v, v). split; [done |]. by apply elem_of_map_to_list.
      + intros ([k w] & -> & E%elem_of_map_to_list). cbn. apply K in E as Hk. destruct Hk as (x & _ & _ & <-). done. }
  split; [done |]. unfold loadedKeysCount. rewrite P, length_fmap. by rewrite length_map_to_list.
Qed.
End Props.

(** What the explorer relies on of a server: when it announces its databases, it has them, so that it makes
    database objects of their informations. *)
Section Servers.
Context `{SettingsLib} {X C SI U F : Type}.
Implicit Types sv : system X C SI U F.

Lemma add_databases_has dbs : ∀ sv p, ContainsDatabase (Some p) sv = true ∨ p ∈ dbs → ContainsDatabase (Some p) (add_databases dbs sv) = true.
Proof.
  unfold add_databases. induction dbs as [| q dbs IH]; intros sv p Hp; cbn [foldl].
  - destruct Hp as [| N]; [done | by apply not_elem_of_nil in N].
  - apply IH. destruct (ContainsDatabase (Some q) sv) eqn:Eq.
    + destruct Hp as [| [-> |]%elem_of_cons]; [by left | by left | by right].
    + assert (Ad : ∀ r, ContainsDatabase (Some r) (with_databases (databases_ sv ++ [q]) sv) =
        ContainsDatabase (Some r) sv || bool_decide (info_name sv q = info_name sv r)).
      { intros r. cbn. rewrite List.existsb_app. cbn. by rewrite orb_false_r. }
      rewrite Ad. destruct Hp as [-> | [-> |]%elem_of_cons]; [by left | | by right].
      left. rewrite bool_decide_true by done. apply orb_true_r.
Qed.
Lemma announced_databases dbs sv p : p ∈ dbs → Server.CreateDatabaseByInfo (Some p) (add_databases dbs sv) = Some p.
Proof. intros I. unfold Server.CreateDatabaseByInfo. rewrite add_databases_has; [done | by right]. Qed.
End Servers.


(** * A tree as a list

    The items with their parents, the first made first. *)
Module ListTree.
Definition parent_of (t : list (nat * nat)) (x : nat) : option nat := snd <$> List.find (λ e, bool_decide (e.1 = x)) t.
Definition items_under (p : nat) (t : list (nat * nat)) : list nat :=
  fold_left (λ acc e, if bool_decide (e.2 ∈ acc) then acc ++ [e.1] else acc) t [p].
Definition keep (K : nat → bool) (t : list (nat * nat)) : list (nat * nat) := List.filter (λ e, K e.1) t.

#[export] Instance list_tree : TreeLib (list (nat * nat)) := {|
  new_tree := [];
  parent := parent_of;
  childs t p := List.map fst (List.filter (λ e, bool_decide (e.2 = p)) t);
  insertItem p x t := t ++ [(x, p)];
  removeItem _ x t := keep (λ y, negb (bool_decide (y ∈ items_under x t))) t;
  removeAllItems p t := keep (λ y, negb (bool_decide (y ∈ items_under p t) && negb (bool_decide (y = p)))) t;
  findItemRecursive p f t := List.find f (items_under p t);
  eachRecursive := items_under
|}.

Inductive built : list (nat * nat) → Prop :=
| built_nil : built []
| built_snoc t x p : built t → in_tree t p → ¬ in_tree t x → built (t ++ [(x, p)]).

Lemma parent_snoc t x p y : ¬ in_tree t x → parent_of (t ++ [(x, p)]) y = if decide (y = x) then Some p else parent_of t y.
Proof.
  intros N. unfold parent_of. destruct (decide (y = x)) as [-> | Ny].
  - assert (parent_of t x = None) as E by (destruct (parent_of t x) eqn:E; [destruct N; right; by eexists | done]).
    unfold parent_of in E. revert E. clear N. induction t as [| e t IH]; cbn; [by rewrite bool_decide_true |].
    case_bool_decide; [done | exact IH].
  - induction t as [| e t IH]; cbn; [by rewrite bool_decide_false |]. case_bool_decide; [done |]. apply IH. intros [-> | [q E]]; apply N; [by left | right].
    unfold in_tree. cbn. unfold parent_of. cbn. case_bool_decide; [by eexists | by exists q].
Qed.

Lemma built_law t : built t → parent t root_ = None ∧ (∀ x p, parent t x = Some p → in_tree t p) ∧ (∀ x, in_tree t x → below t root_ x) ∧
  (∀ p x, x ∈ childs t p ↔ parent t x = Some p) ∧ (∀ p, ¬ in_tree t p → items_under p t = [p]) ∧
  (∀ p, in_tree t p → NoDup (items_under p t) ∧ ∀ x, x ∈ items_under p t ↔ below t p x).
Proof.
  induction 1 as [| t x p B IH P N].
  - split_and!; try done.
    + intros x [-> | [? ?]]; [apply under_refl | done].
    + intros p x. split; [intros F; by apply not_elem_of_nil in F | done].
    + intros p _. split; [apply NoDup_singleton |]. intros x. cbn. rewrite list_elem_of_singleton. split; [intros ->; apply under_refl |].
      intros A. by destruct (under_inv _ _ _ A) as [| (y & ? & _)].
  - destruct IH as (Rt & Pa & Ab & Ch & Out & Ea).
    assert (Par : ∀ y, parent (t ++ [(x, p)]) y = if decide (y = x) then Some p else parent t y) by (intros y; by apply parent_snoc).
    assert (Nx : parent t x = None) by (destruct (parent t x) eqn:E; [destruct N; right; by eexists | done]).
    assert (Un : ∀ r y, below (t ++ [(x, p)]) r y ↔ if decide (y = x) then r = x ∨ below t r p else below t r y).
    { apply (under_add (parent t)); [done | done | | intros ->; done]. intros y E. apply N. by eapply Pa. }
    assert (In : ∀ y, in_tree (t ++ [(x, p)]) y ↔ y = x ∨ in_tree t y).
    { intros y. unfold in_tree. rewrite Par. destruct (decide (y = x)) as [-> |]; [split; [by left | intros _; right; by eexists] | split; [by right | by intros [|]]]. }
    assert (Ex : x ≠ root_) by (intros ->; apply N; by left).
    assert (Each : ∀ q, items_under q (t ++ [(x, p)]) = if bool_decide (p ∈ items_under q t) then items_under q t ++ [x] else items_under q t) by (intros q; unfold items_under; by rewrite fold_left_app).
    split_and!.
    + by rewrite Par, decide_False.
    + intros y q. rewrite Par, In. destruct (decide (y = x)); [intros [= <-]; by right | intros E; right; by eapply Pa].
    + intros y [-> | Y]%In; rewrite Un; [rewrite decide_True by done; right; by apply Ab |]. rewrite decide_False by (intros ->; done). by apply Ab.
    + intros q y. rewrite Par.
      change (y ∈ List.map fst (List.filter (λ e, bool_decide (e.2 = q)) (t ++ [(x, p)])) ↔ (if decide (y = x) then Some p else parent t y) = Some q).
      rewrite List.filter_app, List.map_app, elem_of_app. change (List.map fst (List.filter (λ e, bool_decide (e.2 = q)) t)) with (childs t q). rewrite Ch. cbn [List.filter snd]. destruct (decide (y = x)) as [-> | Ny].
      * rewrite Nx. case_bool_decide as Eq; cbn [List.map fst]; [subst; split; [done | intros _; right; by left] |]. split; [intros [? | F]; [done | by apply not_elem_of_nil in F] | congruence].
      * split; [| by left]. intros [| F]; [done |]. case_bool_decide; cbn in F; [by apply list_elem_of_singleton in F | by apply not_elem_of_nil in F].
    + intros q Nq. assert (q ≠ x ∧ ¬ in_tree t q) as [Nqx Nqt] by (split; [intros -> | intros F]; apply Nq, In; [by left | by right]).
      rewrite Each, Out by done. rewrite bool_decide_false; [done |]. rewrite list_elem_of_singleton. by intros ->.
    + intros q Q. rewrite Each. apply In in Q as [-> | Q].
      * rewrite Out by done. rewrite bool_decide_false by (rewrite list_elem_of_singleton; by intros ->). split; [apply NoDup_singleton |].
        intros y. rewrite list_elem_of_singleton, Un. destruct (decide (y = x)) as [-> | Ny]; [split; [by left | done] |]. split; [done |].
        intros A. destruct (under_inv _ _ _ A) as [| (z & Ez & _)]; [done |]. exfalso. clear Ez z.
        revert Ny. unfold below in A. induction A as [| y z r E A IH]; [done |]. intros _. destruct (decide (z = r)) as [-> | Nz]; [by apply N, (Pa y) | by apply IH].
      * destruct (Ea q Q) as [Nd El]. case_bool_decide as Pq.
        -- split.
           ++ apply NoDup_app. split; [done |]. split; [| apply NoDup_singleton]. intros y Y%El ->%list_elem_of_singleton. apply N.
              destruct (under_inv _ _ _ Y) as [<- | (z & Ez & _)]; [done | right; by eexists].
           ++ intros y. rewrite elem_of_app, El, list_elem_of_singleton, Un. destruct (decide (y = x)) as [-> | Ny]; [| tauto].
              split; [intros _; right; by apply El | by right].
        -- split; [done |]. intros y. rewrite El, Un. destruct (decide (y = x)) as [-> |]; [| done]. split.
           ++ intros Y. destruct (under_inv _ _ _ Y) as [<- | (z & Ez & _)]; [done | congruence].
           ++ intros [-> | F%El]; done.
Qed.

Lemma parent_keep K t y : parent (keep K t) y = if K y then parent t y else None.
Proof.
  cbn. unfold parent_of, keep. induction t as [| e t IH]; cbn; [by destruct (K y) |]. destruct (K e.1) eqn:Ke; cbn; case_bool_decide as E; subst; rewrite ?Ke; try done.
  by rewrite Ke in IH.
Qed.
Lemma keep_built K t : built t → K root_ = true → (∀ x p, parent t x = Some p → K x = true → K p = true) → built (keep K t).
Proof.
  induction 1 as [| t x p B IH P N]; intros Kr Kp; [constructor |]. pose proof (built_law t B) as (_ & Pa & _).
  assert (Par : ∀ y, parent (t ++ [(x, p)]) y = if decide (y = x) then Some p else parent t y) by (intros y; by apply parent_snoc).
  assert (Kp' : ∀ y q, parent t y = Some q → K y = true → K q = true).
  { intros y q E. apply Kp. rewrite Par. destruct (decide (y = x)) as [-> |]; [destruct N; right; by eexists | done]. }
  specialize (IH Kr Kp'). unfold keep. rewrite List.filter_app. cbn. destruct (K x) eqn:Kx; [| by rewrite app_nil_r].
  apply built_snoc; [done | |].
  - destruct P as [-> | [q E]]; [by left | right]. change (is_Some (parent (keep K t) p)). rewrite parent_keep, (Kp x p); [by eexists | by rewrite Par, decide_True | done].
  - intros [-> | [q E]]; [apply N; by left |]. change (parent (keep K t) x = Some q) in E. rewrite parent_keep, Kx in E. apply N. right. by eexists.
Qed.

#[export] Instance list_tree_laws : TreeLaws (list (nat * nat)).
Proof.
  assert (Cut : ∀ t (S : nat → bool), built t → S root_ = false → (∀ x p, parent t x = Some p → S p = true → S x = true) →
    built (keep (λ y, negb (S y)) t) ∧ ∀ y, (S y = true → parent (keep (λ y, negb (S y)) t) y = None) ∧ (S y = false → parent (keep (λ y, negb (S y)) t) y = parent t y)).
  { intros t S B Sr Cl. split.
    - apply keep_built; [done | by rewrite Sr |]. intros x p E. rewrite !negb_true_iff. intros Sx. destruct (S p) eqn:Sp; [| done]. by rewrite (Cl x p) in Sx.
    - intros y. rewrite parent_keep. by split; intros ->. }
  refine {| sound := built |}.
  - split; [constructor | done].
  - intros t B. by apply built_law.
  - intros t x B. by apply built_law.
  - intros t p x B. by apply built_law.
  - intros t p x B P N. split; [by constructor |]. intros y. by apply parent_snoc.
  - intros t p x B E. pose proof (built_law t B) as (Rt & Pa & Ab & _ & _ & Ea). destruct (Ea x) as [_ El]; [right; by eexists |].
    destruct (Cut t (λ y, bool_decide (y ∈ items_under x t)) B) as [B' Par].
    + apply bool_decide_false. rewrite El. intros A. destruct (under_inv _ _ _ A) as [<- | (z & Ez & _)]; congruence.
    + intros y q Eq. rewrite !bool_decide_eq_true, !El. by apply under_parent.
    + split; [done |]. intros y. specialize (Par y). rewrite bool_decide_eq_true, bool_decide_eq_false, El in Par. done.
  - intros t p B P. pose proof (built_law t B) as (Rt & Pa & Ab & _ & _ & Ea). destruct (Ea p P) as [_ El].
    assert (Eq : ∀ y, bool_decide (y ∈ items_under p t) && negb (bool_decide (y = p)) = true ↔ below t p y ∧ y ≠ p).
    { intros y. rewrite andb_true_iff, negb_true_iff, bool_decide_eq_true, bool_decide_eq_false, El. done. }
    destruct (Cut t (λ y, bool_decide (y ∈ items_under p t) && negb (bool_decide (y = p))) B) as [B' Par].
    + apply not_true_iff_false. rewrite Eq. intros [A Nr]. destruct (under_inv _ _ _ A) as [<- | (z & Ez & _)]; [done | congruence].
    + intros y q E. rewrite !Eq. intros [A Nq]. split; [by eapply under_parent |]. intros ->.
      assert (C : ∀ x, in_tree t x → ∀ z, parent t x = Some z → ¬ below t x z).
      { intros x In. pose proof (Ab x In) as R. clear - R Rt. unfold below in R. remember root_ as r eqn:Er. induction R as [x | x z r E R IH]; intros w Ew A; subst.
        - congruence.
        - assert (z = w) as -> by congruence. destruct (under_inv _ _ _ A) as [-> | (u & Eu & A')].
          + by apply (IH eq_refl Rt x E), under_refl.
          + apply (IH eq_refl Rt u Eu). eapply under_trans; [| exact A']. eapply under_parent; [exact E | apply under_refl]. }
      by apply (C p P q E).
    + split; [done |]. intros y. specialize (Par y). destruct Par as [P1 P2]. split; [intros A; by apply P1, Eq |]. intros A. apply P2, not_true_iff_false. by rewrite Eq.
  - intros t p f B P. pose proof (built_law t B) as (_ & _ & _ & _ & _ & Ea). destruct (Ea p P) as [_ El]. cbn [findItemRecursive list_tree].
    destruct (List.find f (items_under p t)) as [x |] eqn:F.
    + apply List.find_some in F as [F1 F2]. split; [| done]. by apply El, list_elem_of_In.
    + intros x A. apply (List.find_none _ _ F). by apply list_elem_of_In, El.
  - intros t p B P. by apply built_law.
Defined.
End ListTree.
Import ListTree.

(** A server with two databases: keys come, one of them in a namespace, one is renamed and one goes. *)
#[local] Instance two_databases : ServerView := {|
  CreateDatabaseByInfo _ inf := inf;
  database_info _ p := [mkIDataBaseInfo (lit "0") true 2 []; mkIDataBaseInfo (lit "1") false 0 []] !! p;
  NsSeparator _ := lit ":";
  Translator _ := mkTranslator (λ _ c, (None, c)) (λ _ _ c, (None, c)) (λ _ c, (None, c)) (λ _ _ c, (None, c)) (λ _ _ c, (None, c))
|}.
#[local] Instance plain_text : QtText := {| QText := bytes; qt_of s := s; qt_to s := s |}.
Definition text_key (k v : string) : NDbKValue := mkNDbKValue (new_NKey (lit k)) (Some (VString (lit v))).
Definition sample_events : list (view_event unit) := [
  AddServer 1%nat;
  ServerEvent 1%nat (ResponceCame (mkResponce (mkEventInfo 0%nat 0 None LoadDatabasesInfoRequest) (LoadDatabasesInfoResponce [0%nat; 1%nat])));
  ServerEvent 1%nat (DriverSignal (KeyAdded (Some 0%nat) (text_key "user:1" "x")));
  ServerEvent 1%nat (DriverSignal (KeyAdded (Some 0%nat) (text_key "c" "y")));
  AddServer 1%nat;
  ServerEvent 1%nat (DriverSignal (KeyRenamed (Some 0%nat) (new_NKey (lit "c")) (lit "d")));
  ServerEvent 1%nat (DriverSignal (KeyRemoved (Some 0%nat) (new_NKey (lit "user:1"))));
  ServerEvent 1%nat (ResponceCame (mkResponce (mkEventInfo 0%nat 0 None (ClearDatabaseRequest (Some 1%nat))) PlainResponce))].

#[local] Existing Instance common_ref.
#[local] Existing Instance common_ref_laws.

